(* ===== verification/_CoqProject ===== *)
-Q . S2P
Prelude.v
Bytes.v
Grep.v
Ph.v
Rtc.v
Desc.v
Pipe.v
Bio.v
Layout.v
Ide.v
IdeSpec.v
IdeSystem.v
Log.v
LogSpec.v
LogCrash.v
Txn.v
LogSystem.v
LogExample.v
CString.v
Printf.v
Utils.v
UtilsSpec.v
Console.v
Kbd.v
Kalloc.v
Mp.v
Boot.v
Apic.v
Uart.v
Vm.v
VmSpec.v
VmSpace.v
VmCopy.v
VmAlloc.v
Main.v
Fs.v
FsSpec.v
FsFile.v
FsRw.v
FsLog.v
FsDir.v
FsExample.v
Spinlock.v
Sleeplock.v
Proc.v
Entry.v
Debug.v
Kern.v
Kproc.v
Syscall.v
Sysfile.v
Exec.v
Trap.v
KernSpec.v
KernExample.v
KprocSpec.v
Sh.v
ShLex.v
ShParse.v
ShCorrect.v
ShRun.v
Umalloc.v
UmallocSpec.v
Mkfs.v
MkfsSpec.v
MkfsImage.v
MkfsMain.v
MkfsBoot.v
