(* ===== verification/Prelude.v ===== *)
(** * xv6: a verification development

    xv6 is a small Unix for x86 (src/), here with the exercises of a course added to it: pages
    allocated on the first access, an alarm system call, a shell with command lists, a hash
    table under threads.  This development models the kernel, the program that makes its
    disk, and the user programs, and proves what they are relied on to do.

    ** How the code is modelled

    Code that changes state is a computation of the monad [K] below, over a record of the
    state of its component.  Its outcomes are a result with the new state ([Ret]), a call of
    [panic] ([Panic]), the process going to sleep on a channel ([Sleep]), and an access
    outside of an array or through a null pointer ([Fault]).  [wp m s Q] says that [m] run in
    [s] returns, with [Q] of the result: it is total correctness, and a theorem in this form
    excludes panic, sleep and fault.  A [uint] is an integer with its wrap-around written out,
    a pointer into an array is an index, a pointer into memory an address.

    A spin lock makes the code up to the next [sleep] atomic ([lock_discipline] is about the
    locks themselves).  Where processes or CPUs interact, the code between two such points is
    one step of a step relation, and the theorems are about all states that any sequence of
    steps can reach.  A loop that is not structural runs on fuel: the fuel given is the length of what the loop walks over (the
    bytes of a line, the entries of a table, the blocks of a range).  A loop that ran out
    would end there, in a [Fault] or with what it has done so far; that it does not run out
    follows from the theorems, which say what the whole loop has done.

    Code that is not here is an argument.  The hardware is classes of operations with laws:
    [IdeOps] with [IdeLaws] for the disk, and classes of the same kind for the interrupt
    controllers, the serial port and the other processors, each with a simulated device that
    has the laws.  User programs run on any world with the system calls, [SysOps].  The layers
    of the kernel are separated by classes too, [BlockOps] with [BlockLaws] between the log
    and the file system, [TxnOps] between both and the rest of the kernel.  The addresses the
    linker chooses and the device switch are arguments too.

    ** The parts, from the disk up

    - Bytes.v, CString.v, Printf.v: byte arrays and little-endian fields; string.c and the
      string functions of ulib.c; printf.c and the formatted output of console.c.
    - Bio.v: memide.c and bio.c, with the history of writes that a crash cuts off.
    - Ide.v, IdeSpec.v, IdeSystem.v: ide.c, with processes and interrupts interleaved; the
      requests are carried out in order, each as memide.c does it.
    - Layout.v: the on-disk format of fs.h.
    - Log.v, LogSpec.v, LogCrash.v, Txn.v, LogSystem.v, LogExample.v: log.c.  Transactions are
      atomic at every crash, also a crash of the recovery; concurrent operations; what the
      reservation of [begin_op] guarantees.
    - Fs.v: fs.c against [BlockOps].  FsSpec.v, FsFile.v, FsRw.v, FsDir.v: allocation of
      blocks, inodes, the contents of files, directories.  FsLog.v: the log has the laws,
      hence a write to a file is atomic.  FsExample.v: the theorems on a concrete disk.
    - Mkfs.v, MkfsSpec.v, MkfsImage.v, MkfsMain.v, MkfsBoot.v: mkfs.c; the image it makes has
      the files in it, and the kernel boots from it, finds them by their paths
      and reads them.
    - Kalloc.v, Vm.v: kalloc.c and vm.c.  VmSpec.v: page tables in memory as maps.  VmSpace.v,
      VmAlloc.v, VmCopy.v: whole address spaces freed, grown and copied, with the account of
      every page, also when memory runs out.
    - Boot.v, Mp.v, Apic.v, Desc.v, Main.v: bootmain.c; the tables of processors of mp.c;
      ioapic.c, picirq.c and lapic.c; the descriptor tables of mmu.h, [seginit] and [tvinit];
      the first page directory and [startothers] of main.c.  Rtc.v: the clock of lapic.c.
      Uart.v: uart.c.
    - Entry.v: vectors.S, trapasm.S, swtch.S, usys.S, initcode.S on a machine of registers and
      memory.  Debug.v: [getcallerpcs], [procdump], [panic].
    - Spinlock.v: spinlock.c and the interrupt flag, with the stores and exchanges of all
      CPUs interleaved.  Sleeplock.v: sleeplock.c.  Proc.v: the process table of proc.c with
      every interleaving of [fork], [exit], [wait], [kill], [sleep] and the scheduler.
    - Pipe.v: pipe.c, with any number of readers and writers.
    - Kern.v, Kproc.v, Syscall.v, Sysfile.v, Exec.v, Trap.v: the state of the whole kernel;
      file.c, proc.c, syscall.c, sysproc.c, sysfile.c, exec.c, trap.c on it.  KernSpec.v,
      KernExample.v: what they promise a process.  KprocSpec.v: [fork], [exit] and [wait] on
      all of it.
    - Console.v, Kbd.v: console.c and kbd.c; from the keys pressed to the bytes a process reads.
    - Sh.v, ShLex.v, ShParse.v, ShCorrect.v, ShRun.v: sh.c, its parser against a grammar, and
      what the processes of a line run with which descriptors.
    - Umalloc.v, UmallocSpec.v: umalloc.c.  Grep.v: grep.c.  Ph.v: ph.c.
    - Utils.v, UtilsSpec.v: cat.c, wc.c, echo.c, ls.c, ln.c, mkdir.c, rm.c, kill.c, init.c,
      date.c, zombie.c, forktest.c.

    ** What the theorems show

    - Crashes: [file_write_atomic], [crash_consistency], [commit_crash_atomic].
    - The file system: [writei_writes], [readi_reads], [dirlink_dirlookup]; from mkfs to the
      running kernel: [mkfs_makes_image], [kernel_reads_files].
    - The disk driver: [ide_requests], [ideintr_refines_memide], [request_served].
    - Concurrency: [pipe_fifo], [waiting_parent], [process_tree], [lock_discipline],
      [sleeplock_exclusive], [begin_op_progress], [no_keys_missing].
    - Processes on the whole kernel: [fork_copies], [fork_exit_wait].
    - Into the kernel and back: [trap_transparent], [syscall_stub], [swtch_resumes],
      [tvinit_entries].
    - Memory: [mappages_maps], [copyuvm_copies], [allocuvm_grows],
      [pgfault_maps], [copyout_copies], [allocator_safe].
    - Start: [bootmain_loads], [startothers_starts].
    - Input and text: [consoleintr_refines], [typed_line_is_read], [parsecmd_parses],
      [parsecmd_total], [shell_runs_line], [match_correct], [grep_prints_matching_lines],
      [wc_counts].
    - Beside these, theorems on the single operations ([balloc_bfree], [iget_unique],
      [freevm_frees], [mpinit_finds_cpus], [log_write_reserved], [threads_finish],
      [argptr_inside], [cat_copies], [ioapic_routes], [uart_sends], [cmostime_shown] and
      others), and on behaviour that the code hardly intends, each on a state it can be in:
      [dirlink_self_deadlock], [reservation_off_by_one], [pgfault_remap],
      [sbrk_reaches_kernel], [ls_stops_kernel], and lemmas next to the code they are about.

    Each theorem with hypotheses has a lemma of the same name and [_witness] that applies it to
    a concrete state.

    ** Not modelled

    - bootasm.S, entry.S, entryother.S: they bring the CPU from real mode to paging, in modes
      that the machine of Entry.v does not have.  In Kproc.v a function ends where [swtch]
      leaves it; that [swtch] comes back is shown in Entry.v.
    - main and mpmain of main.c, which call the initialisations and end in the scheduler, and
      initialisations that only name a lock or set a function pointer ([pinit], [fileinit],
      [consoleinit]); the endless loop around the body of [scheduler].
    - usertests.c, stressfs.c, alarmtest.c: tests of the kernel, which depend on how their
      processes are scheduled.  [main] of grep.c.
    - The caches and the memory ordering of the machine: memory accesses of the CPUs are
      interleaved. *)

From Stdlib Require Export ZArith Lia.
From stdpp Require Export numbers strings base gmap list.
#[export] Set Warnings "-clear-no-such-hyp".

(** ** Scope and notations

    [uint] is 32 bits wide on the machine xv6 runs on: arithmetic on it wraps,
    and [%u] arithmetic below writes the wrap-around out.  [int] is the signed
    two's complement reading of the same 32 bits. *)
Declare Scope xv6_scope.
Delimit Scope xv6_scope with xv6.
Local Open Scope Z_scope.

Definition u32 (x : Z) : Z := x mod 2 ^ 32.
Definition s32 (x : Z) : Z := (x + 2 ^ 31) mod 2 ^ 32 - 2 ^ 31.
Definition u16 (x : Z) : Z := x mod 2 ^ 16.
Definition s16 (x : Z) : Z := (x + 2 ^ 15) mod 2 ^ 16 - 2 ^ 15.
Definition u8 (x : Z) : Z := x mod 2 ^ 8.

Notation "x +u y" := (u32 (x + y)) (at level 50, left associativity) : xv6_scope.
Notation "x -u y" := (u32 (x - y)) (at level 50, left associativity) : xv6_scope.
Notation "x *u y" := (u32 (x * y)) (at level 40, left associativity) : xv6_scope.
Global Open Scope xv6_scope.

(** A C value is true when it is not zero. *)
Definition truthy (x : Z) : bool := negb (Z.eqb x 0).

Create HintDb xv6.
Create Rewrite HintDb xv6_rw.

Lemma u32_range x : 0 <= u32 x < 2 ^ 32.
Proof. apply Z.mod_pos_bound; lia. Qed.
Lemma u32_small x : 0 <= x < 2 ^ 32 -> u32 x = x.
Proof. apply Z.mod_small. Qed.
Lemma u32_idem x : u32 (u32 x) = u32 x.
Proof. apply Z.mod_mod; lia. Qed.
Lemma u32_add_l x y : u32 (u32 x + y) = u32 (x + y).
Proof. apply Zplus_mod_idemp_l. Qed.
Lemma u32_add_r x y : u32 (x + u32 y) = u32 (x + y).
Proof. apply Zplus_mod_idemp_r. Qed.
Lemma u32_sub_l x y : u32 (u32 x - y) = u32 (x - y).
Proof. apply Zminus_mod_idemp_l. Qed.
Lemma u32_sub_r x y : u32 (x - u32 y) = u32 (x - y).
Proof. apply Zminus_mod_idemp_r. Qed.
Lemma u8_range x : 0 <= u8 x < 256.
Proof. apply Z.mod_pos_bound; lia. Qed.
Lemma u8_small x : 0 <= x < 256 -> u8 x = x.
Proof. apply Z.mod_small. Qed.
Lemma s32_range x : - 2 ^ 31 <= s32 x < 2 ^ 31.
Proof. unfold s32. pose proof (Z.mod_pos_bound (x + 2 ^ 31) (2 ^ 32)). lia. Qed.
Lemma s32_small x : - 2 ^ 31 <= x < 2 ^ 31 -> s32 x = x.
Proof. intros ?. unfold s32. rewrite Z.mod_small; lia. Qed.
Lemma u32_s32 x : u32 (s32 x) = u32 x.
Proof. unfold u32, s32. rewrite Zminus_mod_idemp_l. f_equal. lia. Qed.

(** The low [2^k] part of a wrapped value is the low part of the value. *)
Lemma u32_mod_pow2 x k : 0 <= k <= 32 -> u32 x mod 2 ^ k = x mod 2 ^ k.
Proof.
  intros ?. unfold u32.
  replace (2 ^ 32) with (2 ^ k * 2 ^ (32 - k)) by (rewrite <- Z.pow_add_r by lia; f_equal; lia).
  rewrite Z.rem_mul_r by (apply Z.pow_nonzero || apply Z.pow_pos_nonneg; lia).
  rewrite Z.mul_comm, Z.mod_add by (apply Z.pow_nonzero; lia).
  apply Z.mod_mod, Z.pow_nonzero; lia.
Qed.

(** Bitwise or stays below a power of two. *)
Lemma lor_lt k a b : 0 <= k -> 0 <= a < 2 ^ k -> 0 <= b < 2 ^ k -> 0 <= Z.lor a b < 2 ^ k.
Proof.
  intros Hk Ha Hb. assert (0 <= Z.lor a b) as H0 by (apply Z.lor_nonneg; lia). split; [done|].
  destruct (decide (Z.lor a b = 0)) as [->|Hne]; [apply Z.pow_pos_nonneg; lia|].
  apply Z.log2_lt_pow2; [lia|]. rewrite Z.log2_lor by lia. apply Z.max_lub_lt.
  - destruct (decide (a = 0)) as [->|]; [cbn; destruct (decide (k = 0)) as [->|]; [|lia]|apply Z.log2_lt_pow2; lia].
    change (2 ^ 0) with 1 in *. replace b with 0 in Hne by lia. done.
  - destruct (decide (b = 0)) as [->|]; [cbn; destruct (decide (k = 0)) as [->|]; [|lia]|apply Z.log2_lt_pow2; lia].
    change (2 ^ 0) with 1 in *. replace a with 0 in Hne by lia. done.
Qed.

#[export] Hint Rewrite u32_idem u32_add_l u32_add_r u32_sub_l u32_sub_r u32_s32 : xv6_rw.
#[export] Hint Resolve u32_range u8_range s32_range : xv6.

(** ** Tactics *)

(** Turn the boolean tests of the code into the propositions they decide. *)
Ltac bool_hyps :=
  repeat match goal with
  | H : (_ && _)%bool = true |- _ => apply andb_prop in H as [? ?]
  | H : (_ || _)%bool = false |- _ => apply orb_false_elim in H as [? ?]
  | H : negb _ = true |- _ => apply negb_true_iff in H
  | H : negb _ = false |- _ => apply negb_false_iff in H
  | H : Z.eqb _ _ = true |- _ => apply Z.eqb_eq in H
  | H : Z.eqb _ _ = false |- _ => apply Z.eqb_neq in H
  | H : Z.ltb _ _ = true |- _ => apply Z.ltb_lt in H
  | H : Z.ltb _ _ = false |- _ => apply Z.ltb_ge in H
  | H : Z.leb _ _ = true |- _ => apply Z.leb_le in H
  | H : Z.leb _ _ = false |- _ => apply Z.leb_gt in H
  | H : bool_decide _ = true |- _ => apply bool_decide_eq_true in H
  | H : bool_decide _ = false |- _ => apply bool_decide_eq_false in H
  end.

(** Case on the condition of the first [if] or [match] of the goal. *)
Ltac case_cond :=
  match goal with
  | |- context [if ?b then _ else _] => let E := fresh "E" in destruct b eqn:E
  end; bool_hyps.

Ltac case_cond_in H :=
  match type of H with
  | context [if ?b then _ else _] => let E := fresh "E" in destruct b eqn:E
  end; bool_hyps.

(** ** Lists *)

Lemma list_filter_id {A} (P : A -> Prop) `{!forall x, Decision (P x)} (l : list A) :
  Forall P l -> base.filter P l = l.
Proof. induction 1; [done|]. rewrite filter_cons. case_decide; [by f_equal|done]. Qed.

(** ** The kernel monad

    A kernel function runs on a state of type [S].  It returns a value, panics
    (the machine stops), goes to sleep on a channel (the process gives up the
    CPU until a [wakeup] on that channel), or performs an access the C language
    gives no meaning to, a null dereference or an index out of bounds. *)
Inductive chan : Type :=
  | ChLog
  | ChBuf (i : nat)
  | ChInode (i : nat)
  | ChPipeRead (p : Z)
  | ChPipeWrite (p : Z)
  | ChProc (i : nat)
  | ChTicks
  | ChInput
  | ChSpin (l : nat)
  | ChCpu     (* gave up the CPU, ready to run *)
  | ChNever.  (* the process has exited *)

#[global] Instance chan_eq_dec : EqDecision chan.
Proof. solve_decision. Defined.

Inductive outcome (S A : Type) : Type :=
  | Ret (a : A) (s : S)
  | Panic (msg : string) (s : S)
  | Sleep (c : chan) (s : S)
  | Fault (why : string) (s : S).
Arguments Ret {S A} a s.
Arguments Panic {S A} msg s.
Arguments Sleep {S A} c s.
Arguments Fault {S A} why s.

Definition K (S A : Type) : Type := S -> outcome S A.

#[global] Instance K_ret S : MRet (K S) := fun A a s => Ret a s.
#[global] Instance K_bind S : MBind (K S) := fun A B f m s =>
  match m s with
  | Ret a s' => f a s'
  | Panic msg s' => Panic msg s'
  | Sleep c s' => Sleep c s'
  | Fault why s' => Fault why s'
  end.

Definition panic {S A} (msg : string) : K S A := fun s => Panic msg s.
Definition fault {S A} (why : string) : K S A := fun s => Fault why s.
Definition sleep_on {S A} (c : chan) : K S A := fun s => Sleep c s.
Definition gets {S A} (f : S -> A) : K S A := fun s => Ret (f s) s.
Definition modify {S} (f : S -> S) : K S unit := fun s => Ret tt (f s).

(** Run a function of a component inside a larger state. *)
Definition zoom {S T A} (get : T -> S) (set : S -> T -> T) (m : K S A) : K T A := fun t =>
  match m (get t) with
  | Ret a s => Ret a (set s t)
  | Panic msg s => Panic msg (set s t)
  | Sleep c s => Sleep c (set s t)
  | Fault why s => Fault why (set s t)
  end.

(** [l[i]], with the access out of bounds a fault. *)
Definition arr_get {S A} (l : list A) (i : nat) : K S A :=
  match l !! i with Some x => mret x | None => fault "index out of bounds" end.

(** ** Total correctness of a kernel function

    [wp m s Q]: run from [s], [m] returns, and its result and final state
    satisfy [Q].  It excludes panics, sleeps and faults. *)
Definition wp {S A} (m : K S A) (s : S) (Q : A -> S -> Prop) : Prop :=
  match m s with Ret a s' => Q a s' | _ => False end.

Section Wp.
Context {S : Type}.

Lemma wp_ret {A} (a : A) (s : S) Q : Q a s -> wp (mret a) s Q.
Proof. done. Qed.

Lemma wp_bind {A B} (m : K S A) (f : A -> K S B) s Q :
  wp m s (fun a s' => wp (f a) s' Q) -> wp (m ≫= f) s Q.
Proof. unfold wp, mbind, K_bind. by destruct (m s). Qed.

Lemma wp_bind_inv {A B} (m : K S A) (f : A -> K S B) s Q :
  wp (m ≫= f) s Q -> wp m s (fun a s' => wp (f a) s' Q).
Proof. unfold wp, mbind, K_bind. by destruct (m s). Qed.

Lemma wp_bind_assoc {A B C} (m : K S A) (f : A -> K S B) (g : B -> K S C) s Q :
  wp ((m ≫= f) ≫= g) s Q -> wp (m ≫= fun a => f a ≫= g) s Q.
Proof. unfold wp, mbind, K_bind. by destruct (m s). Qed.

Lemma wp_bind_ext {A B} (m : K S A) (f g : A -> K S B) s Q :
  (forall a s', wp (g a) s' Q -> wp (f a) s' Q) -> wp (m ≫= g) s Q -> wp (m ≫= f) s Q.
Proof. unfold wp at 3 4, mbind, K_bind. intros H. destruct (m s); [apply H|done..]. Qed.

Lemma wp_mono {A} (m : K S A) s (P Q : A -> S -> Prop) :
  wp m s P -> (forall a s', P a s' -> Q a s') -> wp m s Q.
Proof. unfold wp. destruct (m s); auto. Qed.

Lemma wp_gets {A} (f : S -> A) s Q : Q (f s) s -> wp (gets f) s Q.
Proof. done. Qed.

Lemma wp_modify (f : S -> S) s Q : Q tt (f s) -> wp (modify f) s Q.
Proof. done. Qed.

Lemma wp_arr_get {A} (l : list A) i x s (Q : A -> S -> Prop) :
  l !! i = Some x -> Q x s -> wp (arr_get l i) s Q.
Proof. unfold wp, arr_get. by intros ->. Qed.

Lemma wp_eq {A} (m : K S A) s a s' Q : m s = Ret a s' -> Q a s' -> wp m s Q.
Proof. unfold wp. by intros ->. Qed.

Lemma wp_elim {A} (m : K S A) s Q : wp m s Q -> exists a s', m s = Ret a s' /\ Q a s'.
Proof. unfold wp. destruct (m s); naive_solver. Qed.

Lemma wp_run {A} (m : K S A) s a s' Q : m s = Ret a s' -> wp m s Q -> Q a s'.
Proof. unfold wp. by intros ->. Qed.

Lemma wp_conj {A} (m : K S A) s (P Q : A -> S -> Prop) :
  wp m s P -> wp m s Q -> wp m s (fun a s' => P a s' /\ Q a s').
Proof. unfold wp. destruct (m s); auto. Qed.
End Wp.

Lemma wp_zoom {S T A} (get : T -> S) (set : S -> T -> T) (m : K S A) t Q :
  wp m (get t) (fun a s => Q a (set s t)) -> wp (zoom get set m) t Q.
Proof. unfold wp, zoom. by destruct (m (get t)). Qed.

(** One step of symbolic execution. *)
Ltac wp_step :=
  match goal with
  | |- wp (mret _) _ _ => apply wp_ret
  | |- wp (_ ≫= _) _ _ => apply wp_bind
  | |- wp (gets _) _ _ => apply wp_gets
  | |- wp (modify _) _ _ => apply wp_modify
  | |- wp (zoom _ _ _) _ _ => apply wp_zoom
  end; cbv beta.
Ltac wp_steps := repeat wp_step.

(** Use a specification for the current call and continue. *)
Tactic Notation "wp_use" uconstr(H) :=
  eapply wp_mono; [ eapply H | cbv beta ].
