(* ===== verification/Bytes.v ===== *)
(** * Byte arrays

    A [uchar] array is a list of integers in [0, 256).  This file holds the
    generic operations the kernel performs on such arrays, the copy of a range
    of bytes out of an array ([slice]) and into one ([splice]), and the
    little-endian layout of the 16 and 32 bit fields the file system keeps in
    disk blocks ([ld16], [ld32], [st16], [st32]), with their round trips. *)

From S2P Require Export Prelude.
Local Open Scope Z_scope.

Definition is_byte (b : Z) : Prop := 0 <= b < 256.
Definition bytes_ok (l : list Z) : Prop := Forall is_byte l.

Section Slices.
Context {A : Type}.
Implicit Types (l bs : list A).

(** The [n] elements of [l] from offset [off]. *)
Definition slice (off n : nat) l : list A := take n (drop off l).

(** [l] with [bs] copied over its elements from offset [off]; as in
    [memmove(l + off, bs, n)] with [n] the length of [bs]. *)
Definition splice (off : nat) bs l : list A :=
  take off l ++ bs ++ drop (off + length bs) l.

Lemma length_slice off n l : (off + n <= length l)%nat -> length (slice off n l) = n.
Proof. intros ?. unfold slice. rewrite length_take, length_drop. lia. Qed.

Lemma length_splice off bs l :
  (off + length bs <= length l)%nat -> length (splice off bs l) = length l.
Proof.
  intros ?. unfold splice. rewrite !length_app, length_take, length_drop. lia.
Qed.

Lemma lookup_slice off n l i :
  (i < n)%nat -> slice off n l !! i = l !! (off + i)%nat.
Proof. intros ?. unfold slice. rewrite lookup_take_lt by lia. apply lookup_drop. Qed.

Lemma lookup_splice_in off bs l i :
  (off <= length l)%nat -> (off <= i < off + length bs)%nat ->
  splice off bs l !! i = bs !! (i - off)%nat.
Proof.
  intros ??. unfold splice.
  rewrite lookup_app_r; rewrite length_take; [|lia].
  rewrite lookup_app_l by lia. f_equal; lia.
Qed.

Lemma lookup_splice_out off bs l i :
  (off + length bs <= length l)%nat -> (i < off \/ off + length bs <= i)%nat ->
  splice off bs l !! i = l !! i.
Proof.
  intros ? [?|?]; unfold splice.
  - rewrite lookup_app_l by (rewrite length_take; lia). by apply lookup_take_lt.
  - rewrite lookup_app_r; rewrite length_take; [|lia].
    rewrite lookup_app_r by lia. rewrite lookup_drop. f_equal; lia.
Qed.

Lemma slice_splice_same off bs l :
  (off + length bs <= length l)%nat -> slice off (length bs) (splice off bs l) = bs.
Proof.
  intros ?. apply list_eq. intros i.
  destruct (decide (i < length bs)%nat).
  - rewrite lookup_slice, lookup_splice_in by lia. f_equal; lia.
  - rewrite !lookup_ge_None_2; [done|lia|].
    rewrite length_slice; [lia|]. rewrite length_splice; lia.
Qed.

Lemma slice_splice_disj off bs l off' n :
  (off + length bs <= length l)%nat ->
  (off' + n <= off \/ off + length bs <= off')%nat ->
  slice off' n (splice off bs l) = slice off' n l.
Proof.
  intros ??. apply list_eq. intros i.
  destruct (decide (i < n)%nat).
  - rewrite !lookup_slice by lia. apply lookup_splice_out; lia.
  - unfold slice. rewrite !lookup_take_ge by lia. done.
Qed.

Lemma slice_splice_in off bs l k n :
  (off + length bs <= length l)%nat -> (k + n <= length bs)%nat ->
  slice (off + k) n (splice off bs l) = slice k n bs.
Proof.
  intros ??. apply list_eq. intros i. destruct (decide (i < n)%nat).
  - rewrite !lookup_slice, lookup_splice_in by lia. f_equal; lia.
  - unfold slice. by rewrite !lookup_take_ge by lia.
Qed.

Lemma splice_splice_app off b1 b2 l :
  (off + length b1 + length b2 <= length l)%nat ->
  splice (off + length b1) b2 (splice off b1 l) = splice off (b1 ++ b2) l.
Proof.
  intros Hl. apply list_eq. intros i.
  assert (length (splice off b1 l) = length l) as H1 by (apply length_splice; lia).
  destruct (decide (off + length b1 <= i < off + length b1 + length b2)%nat).
  - rewrite lookup_splice_in by lia. rewrite lookup_splice_in by (rewrite ?length_app; lia).
    rewrite lookup_app_r by lia. f_equal. lia.
  - rewrite lookup_splice_out by lia. destruct (decide (off <= i < off + length b1)%nat).
    + rewrite !lookup_splice_in by (rewrite ?length_app; lia). by rewrite lookup_app_l by lia.
    + by rewrite !lookup_splice_out by (rewrite ?length_app; lia).
Qed.

Lemma splice_slice_id off n l :
  (off + n <= length l)%nat -> splice off (slice off n l) l = l.
Proof.
  intros ?. apply list_eq. intros i.
  destruct (decide (off <= i < off + n)%nat).
  - rewrite lookup_splice_in; rewrite ?length_slice; [|lia..].
    rewrite lookup_slice by lia. f_equal; lia.
  - apply lookup_splice_out; rewrite ?length_slice; lia.
Qed.

Lemma slice_all l : slice 0 (length l) l = l.
Proof. unfold slice. rewrite drop_0. by apply take_ge. Qed.

Lemma splice_all bs l : length bs = length l -> splice 0 bs l = bs.
Proof.
  intros Hl. unfold splice. rewrite take_0, drop_ge by lia. simpl. apply app_nil_r.
Qed.

Lemma slice_app_split off n m l :
  slice off (n + m) l = slice off n l ++ slice (off + n) m l.
Proof.
  unfold slice. rewrite <- drop_drop, <- take_take_drop. done.
Qed.
End Slices.

Lemma bytes_ok_slice off n l : bytes_ok l -> bytes_ok (slice off n l).
Proof. intros ?. by apply Forall_take, Forall_drop. Qed.
Lemma bytes_ok_splice off bs l : bytes_ok bs -> bytes_ok l -> bytes_ok (splice off bs l).
Proof.
  intros ??. unfold splice, bytes_ok. rewrite !Forall_app.
  split_and!; [by apply Forall_take|done|by apply Forall_drop].
Qed.
Lemma bytes_ok_replicate n b : is_byte b -> bytes_ok (replicate n b).
Proof. intros. by apply Forall_replicate. Qed.
#[export] Hint Resolve bytes_ok_slice bytes_ok_splice bytes_ok_replicate : xv6.

(** ** Little-endian integers *)

Fixpoint le_enc (n : nat) (x : Z) : list Z :=
  match n with O => [] | S n => x mod 256 :: le_enc n (x / 256) end.

Fixpoint le_dec (bs : list Z) : Z :=
  match bs with [] => 0 | b :: bs => b + 256 * le_dec bs end.

Lemma length_le_enc n x : length (le_enc n x) = n.
Proof. revert x. induction n; simpl; auto. Qed.

Lemma le_enc_bytes n x : bytes_ok (le_enc n x).
Proof.
  revert x. induction n; simpl; constructor; [|apply IHn].
  apply Z.mod_pos_bound; lia.
Qed.

Lemma le_dec_enc n x : le_dec (le_enc n x) = x mod 256 ^ Z.of_nat n.
Proof.
  revert x. induction n as [|n IH]; intros x; simpl; [by rewrite Z.mod_1_r|].
  rewrite IH. replace (Z.of_nat (S n)) with (1 + Z.of_nat n) by lia.
  rewrite Z.pow_add_r, Z.pow_1_r by lia.
  rewrite Z.rem_mul_r; lia || apply Z.pow_pos_nonneg; lia.
Qed.

Lemma le_enc_dec bs : bytes_ok bs -> le_enc (length bs) (le_dec bs) = bs.
Proof.
  induction 1 as [|b bs Hb ? IH]; simpl; [done|].
  unfold is_byte in Hb. f_equal.
  - rewrite Z.mul_comm, Z.mod_add by lia. by apply Z.mod_small.
  - rewrite Z.mul_comm, Z.div_add, Z.div_small, Z.add_0_l by lia. done.
Qed.

Lemma le_dec_range bs : bytes_ok bs -> 0 <= le_dec bs < 256 ^ Z.of_nat (length bs).
Proof.
  induction 1 as [|b bs Hb ? IH]; simpl le_dec; simpl length; [simpl; lia|].
  unfold is_byte in Hb. rewrite Nat2Z.inj_succ, Z.pow_succ_r by lia. lia.
Qed.

(** Loads and stores of fields of a byte array; [short] fields are signed. *)
Definition ld32 (d : list Z) (off : nat) : Z := le_dec (slice off 4 d).
Definition ld16 (d : list Z) (off : nat) : Z := le_dec (slice off 2 d).
Definition lds16 (d : list Z) (off : nat) : Z := s16 (ld16 d off).
Definition st32 (d : list Z) (off : nat) (x : Z) : list Z := splice off (le_enc 4 x) d.
Definition st16 (d : list Z) (off : nat) (x : Z) : list Z := splice off (le_enc 2 x) d.

Lemma length_st32 d off x : (off + 4 <= length d)%nat -> length (st32 d off x) = length d.
Proof. intros. unfold st32. apply length_splice. rewrite length_le_enc. lia. Qed.
Lemma length_st16 d off x : (off + 2 <= length d)%nat -> length (st16 d off x) = length d.
Proof. intros. unfold st16. apply length_splice. rewrite length_le_enc. lia. Qed.

Lemma ld32_st32_same d off x : (off + 4 <= length d)%nat -> ld32 (st32 d off x) off = u32 x.
Proof.
  intros. unfold ld32, st32. rewrite <- (length_le_enc 4 x) at 1.
  rewrite slice_splice_same by (rewrite length_le_enc; lia).
  by rewrite le_dec_enc.
Qed.
Lemma ld16_st16_same d off x : (off + 2 <= length d)%nat -> ld16 (st16 d off x) off = u16 x.
Proof.
  intros. unfold ld16, st16. rewrite <- (length_le_enc 2 x) at 1.
  rewrite slice_splice_same by (rewrite length_le_enc; lia).
  by rewrite le_dec_enc.
Qed.
Lemma slice_st32_disj d off x off' n :
  (off + 4 <= length d)%nat -> (off' + n <= off \/ off + 4 <= off')%nat ->
  slice off' n (st32 d off x) = slice off' n d.
Proof. intros. apply slice_splice_disj; rewrite length_le_enc; lia. Qed.
Lemma slice_st16_disj d off x off' n :
  (off + 2 <= length d)%nat -> (off' + n <= off \/ off + 2 <= off')%nat ->
  slice off' n (st16 d off x) = slice off' n d.
Proof. intros. apply slice_splice_disj; rewrite length_le_enc; lia. Qed.
Lemma ld32_range d off : bytes_ok d -> (off + 4 <= length d)%nat -> 0 <= ld32 d off < 2 ^ 32.
Proof.
  intros. unfold ld32. pose proof (le_dec_range (slice off 4 d)) as Hr.
  rewrite length_slice in Hr by lia. apply Hr; auto with xv6.
Qed.
Lemma s16_u16 x : - 2 ^ 15 <= x < 2 ^ 15 -> s16 (u16 x) = x.
Proof.
  intros. unfold s16, u16. rewrite Zplus_mod_idemp_l, Z.mod_small; lia.
Qed.

(** ** Bits of a byte, as the bitmap code tests, sets and clears them *)

Lemma land_pow2_zero b k : 0 <= k -> Z.land b (2 ^ k) = 0 <-> Z.testbit b k = false.
Proof.
  intros Hk. split.
  - intros H. apply (f_equal (fun z => Z.testbit z k)) in H.
    rewrite Z.land_spec, Z.pow2_bits_true, Z.bits_0, andb_true_r in H by lia. done.
  - intros H. apply Z.bits_inj'. intros j Hj. rewrite Z.land_spec, Z.bits_0.
    rewrite Z.pow2_bits_eqb by lia. destruct (Z.eqb_spec k j); [subst; by rewrite H|].
    apply andb_false_r.
Qed.
