(* ===== verification/Grep.v ===== *)
(** * grep: the regular expression matcher and its driver

    [match], [matchhere] and [matchstar] of grep.c (the matcher of Kernighan and
    Pike) and the buffer loop of [grep].  A C string is the list of its
    characters before the terminating NUL, so [*s == 0] is [s = []].

    The matcher is compared with a reference semantics: a pattern is a sequence
    of items, each item has a language, and a pattern matches a text at a
    position when the text from there has a prefix in the language of the
    sequence.  The driver is shown to print exactly the matching lines of a
    file whose lines fit the buffer. *)

From Stdlib Require Import Ascii.
From S2P Require Export Prelude.

Module Grep.

Definition str : Type := list ascii.

Definition chr (n : nat) : ascii := ascii_of_nat n.
Definition dot : ascii := "."%char.
Definition star : ascii := "*"%char.
Definition dollar : ascii := "$"%char.
Definition caret : ascii := "^"%char.
Definition newline : ascii := chr 10.
Definition nul : ascii := chr 0.

(** ** The matcher *)

(** The loop of [matchstar], with [mh] the call [matchhere(re, .)]. *)
Fixpoint matchstar_loop (mh : str -> bool) (c : ascii) (text : str) : bool :=
  if mh text then true
  else match text with
       | [] => false
       | t :: text' =>
           if (Ascii.eqb t c || Ascii.eqb c dot)%bool then matchstar_loop mh c text' else false
       end.

Fixpoint matchhere (re text : str) {struct re} : bool :=
  match re with
  | [] => true
  | c :: re1 =>
      match re1 with
      | s :: re2 =>
          if Ascii.eqb s star then matchstar_loop (matchhere re2) c text
          else match text with
               | [] => false
               | t :: text' =>
                   if (Ascii.eqb c dot || Ascii.eqb c t)%bool then matchhere re1 text' else false
               end
      | [] =>
          if Ascii.eqb c dollar then match text with [] => true | _ => false end
          else match text with
               | [] => false
               | t :: text' =>
                   if (Ascii.eqb c dot || Ascii.eqb c t)%bool then matchhere re1 text' else false
               end
      end
  end.

Definition matchstar (c : ascii) (re text : str) : bool := matchstar_loop (matchhere re) c text.

(** The [do ... while( *text++ != 0)] loop of [match]: the empty suffix is tried too. *)
Fixpoint match_loop (re text : str) : bool :=
  if matchhere re text then true
  else match text with [] => false | _ :: text' => match_loop re text' end.

Definition re_match (re text : str) : bool :=
  match re with
  | c :: re1 => if Ascii.eqb c caret then matchhere re1 text else match_loop re text
  | [] => match_loop re text
  end.

(** ** The driver *)

(** [strchr(p, '\n')]: the characters before the first newline and those after
    it, or nothing when a NUL comes first. *)
Fixpoint strchr_nl (p : str) : option (str * str) :=
  match p with
  | [] => None
  | c :: p' =>
      if Ascii.eqb c nul then None
      else if Ascii.eqb c newline then Some ([], p')
      else match strchr_nl p' with
           | Some (l, r) => Some (c :: l, r)
           | None => None
           end
  end.

(** The inner loop of [grep]: print the matching lines of the buffer from [p]
    on.  It returns what it wrote, where [p] ends up, and whether [p] moved.
    Each round consumes a newline, so the length of [p] bounds the rounds. *)
Fixpoint grep_lines (fuel : nat) (pattern p : str) : str * str * bool :=
  match fuel with
  | O => ([], p, false)
  | S fuel =>
      match strchr_nl p with
      | None => ([], p, false)
      | Some (line, rest) =>
          let '(out, p', _) := grep_lines fuel pattern rest in
          ((if re_match pattern line then line ++ [newline] else []) ++ out, p', true)
      end
  end.

Definition BUFSIZE : nat := 1024.

Section Driver.
Context {R : Type} (read : R -> nat -> str * R).

(** The outer loop of [grep], on the [m] characters [held] at the start of the
    buffer; [fuel] bounds the number of calls to [read]. *)
Fixpoint grep_loop (fuel : nat) (pattern : str) (fd : R) (held : str) : option str :=
  match fuel with
  | O => None
  | S fuel =>
      let '(got, fd') := read fd (BUFSIZE - length held - 1)%nat in
      match got with
      | [] => Some []
      | _ =>
          let whole := held ++ got in
          let '(out, p, moved) := grep_lines (S (length whole)) pattern whole in
          let held' := if moved then p else [] in
          match grep_loop fuel pattern fd' held' with
          | Some out' => Some (out ++ out')
          | None => None
          end
      end
  end.

Definition grep (fuel : nat) (pattern : str) (fd : R) : option str :=
  grep_loop fuel pattern fd [].
End Driver.

(** A regular file: [read] returns as much as is left, up to what was asked for. *)
Definition file_read (rest : str) (n : nat) : str * str := (take n rest, drop n rest).

(** A pipe or a terminal: each [read] returns the next message. *)
Definition chunk_read (chunks : list str) (n : nat) : str * list str :=
  match chunks with
  | [] => ([], [])
  | c :: chunks' => (take n c, if decide (length c <= n)%nat then chunks' else drop n c :: chunks')
  end.

(** ** Reference semantics *)

Inductive item : Type :=
  | One (c : ascii)
  | Many (c : ascii)
  | AtEnd.

(** The items of a pattern: a character followed by a star is an iteration, a
    dollar at the very end is the end of the text, any other character is itself. *)
Fixpoint items (re : str) : list item :=
  match re with
  | [] => []
  | c :: re1 =>
      match re1 with
      | s :: re2 => if Ascii.eqb s star then Many c :: items re2 else One c :: items re1
      | [] => if Ascii.eqb c dollar then [AtEnd] else [One c]
      end
  end.

Definition accepts (c t : ascii) : Prop := c = dot \/ c = t.

(** [lang its w rest]: the sequence of items [its] matches [w] when the text
    continues with [rest]. *)
Inductive lang : list item -> str -> str -> Prop :=
  | lang_nil rest : lang [] [] rest
  | lang_one c t its w rest : accepts c t -> lang its w rest -> lang (One c :: its) (t :: w) rest
  | lang_many c ts its w rest :
      Forall (accepts c) ts -> lang its w rest -> lang (Many c :: its) (ts ++ w) rest
  | lang_end its : lang its [] [] -> lang (AtEnd :: its) [] [].

(** Some prefix of the text is in the language of the pattern. *)
Definition matches_at (re text : str) : Prop :=
  exists w rest, text = w ++ rest /\ lang (items re) w rest.

(** ** Correctness of the matcher *)

Lemma accepts_dec c t : (Ascii.eqb c dot || Ascii.eqb c t)%bool = true <-> accepts c t.
Proof. unfold accepts. rewrite orb_true_iff, !Ascii.eqb_eq. done. Qed.

Lemma accepts_dec_star c t : (Ascii.eqb t c || Ascii.eqb c dot)%bool = true <-> accepts c t.
Proof. rewrite <- accepts_dec, orb_comm, (Ascii.eqb_sym t c). done. Qed.

Lemma matchstar_loop_spec mh c text :
  matchstar_loop mh c text = true <->
  exists ts rest, text = ts ++ rest /\ Forall (accepts c) ts /\ mh rest = true.
Proof.
  induction text as [|t text IH]; simpl.
  - destruct (mh []) eqn:E.
    + split; [|done]. intros _. by exists [], [].
    + split; [done|]. intros (ts & rest & Heq & _ & Hm).
      symmetry in Heq. apply app_eq_nil in Heq as [-> ->]. congruence.
  - destruct (mh (t :: text)) eqn:E.
    + split; [|done]. intros _. by exists [], (t :: text).
    + destruct (Ascii.eqb t c || Ascii.eqb c dot)%bool eqn:Ea.
      * rewrite IH. apply accepts_dec_star in Ea. split.
        -- intros (ts & rest & -> & Hf & Hm). exists (t :: ts), rest. eauto.
        -- intros (ts & rest & Heq & Hf & Hm). destruct ts as [|t' ts]; simplify_eq/=.
           ++ congruence.
           ++ inversion Hf; eauto.
      * split; [done|]. intros (ts & rest & Heq & Hf & Hm).
        destruct ts as [|t' ts]; simplify_eq/=; [congruence|].
        inversion Hf as [|?? Ht]; subst. apply accepts_dec_star in Ht. congruence.
Qed.

Lemma matches_at_one c re1 text :
  items (c :: re1) = One c :: items re1 ->
  matches_at (c :: re1) text <-> exists t text', text = t :: text' /\ accepts c t /\ matches_at re1 text'.
Proof.
  intros Hi. unfold matches_at. rewrite Hi. split.
  - intros (w & rest & -> & Hl). inversion Hl; subst. eauto 10.
  - intros (t & text' & -> & Ha & w & rest & -> & Hl).
    exists (t :: w), rest. split; [done|]. by constructor.
Qed.

Lemma matches_at_many c re2 text :
  matches_at (c :: star :: re2) text <->
  exists ts rest, text = ts ++ rest /\ Forall (accepts c) ts /\ matches_at re2 rest.
Proof.
  unfold matches_at. simpl. split.
  - intros (w & rest & -> & Hl). inversion Hl; subst.
    eexists _, _. rewrite <- app_assoc. eauto 10.
  - intros (ts & ? & -> & Ha & w & rest & -> & Hl).
    exists (ts ++ w), rest. split; [by rewrite app_assoc|]. by constructor.
Qed.

Lemma one_step_spec c re1 text :
  items (c :: re1) = One c :: items re1 ->
  (forall text', matchhere re1 text' = true <-> matches_at re1 text') ->
  match text with
  | [] => false
  | t :: text' => if (Ascii.eqb c dot || Ascii.eqb c t)%bool then matchhere re1 text' else false
  end = true <-> matches_at (c :: re1) text.
Proof.
  intros Hi IH. rewrite matches_at_one by done. destruct text as [|t text'].
  - split; [done|]. by intros (? & ? & ? & _).
  - destruct (Ascii.eqb c dot || Ascii.eqb c t)%bool eqn:Ha.
    + apply accepts_dec in Ha. rewrite IH. split; [by eauto 10|].
      by intros (? & ? & [= <- <-] & _ & ?).
    + split; [done|]. intros (? & ? & [= <- <-] & Hc & _).
      apply accepts_dec in Hc. congruence.
Qed.

(** [matchhere] decides the reference semantics; the induction is on the length
    of the pattern, since the iteration case skips two characters. *)
Lemma matchhere_spec_aux n re text :
  (length re <= n)%nat -> matchhere re text = true <-> matches_at re text.
Proof.
  revert re text. induction n as [|n IH]; intros re text Hn.
  - destruct re; simpl in Hn; [|lia]. split; [|done]. intros _. exists [], text. split; constructor.
  - destruct re as [|c [|s re2]].
    + split; [|done]. intros _. exists [], text. split; constructor.
    + cbn [matchhere]. destruct (Ascii.eqb c dollar) eqn:Ed.
      * unfold matches_at; simpl; rewrite Ed. destruct text as [|t text].
        -- split; [|done]. intros _. exists [], []. split; [done|]. repeat constructor.
        -- split; [done|]. intros (w & rest & Heq & Hl). by inversion Hl; subst.
      * apply (one_step_spec c [] text); [simpl; by rewrite Ed|]. intros. apply IH. simpl; lia.
    + cbn [matchhere]. destruct (Ascii.eqb s star) eqn:Es.
      * apply Ascii.eqb_eq in Es as ->.
        rewrite matchstar_loop_spec, matches_at_many.
        split; intros (ts & rest & ? & ? & Hm); exists ts, rest; split_and!; try done;
          apply IH; (done || (simpl in *; lia)).
      * apply (one_step_spec c (s :: re2) text); [cbn [items]; by rewrite Es|].
        intros. apply IH. simpl in *; lia.
Qed.

Lemma matchhere_spec re text : matchhere re text = true <-> matches_at re text.
Proof. by apply (matchhere_spec_aux (length re)). Qed.

Lemma match_loop_spec re text :
  match_loop re text = true <-> exists before after, text = before ++ after /\ matches_at re after.
Proof.
  induction text as [|t text IH]; simpl.
  - destruct (matchhere re []) eqn:E.
    + split; [|done]. intros _. exists [], []. split; [done|]. by apply matchhere_spec.
    + split; [done|]. intros (b & a & Heq & Hm). symmetry in Heq.
      apply app_eq_nil in Heq as [-> ->]. apply matchhere_spec in Hm. congruence.
  - destruct (matchhere re (t :: text)) eqn:E.
    + split; [|done]. intros _. exists [], (t :: text). split; [done|]. by apply matchhere_spec.
    + rewrite IH. split.
      * intros (b & a & -> & Hm). by exists (t :: b), a.
      * intros ([|t' b] & a & Heq & Hm); simplify_eq/=.
        -- apply matchhere_spec in Hm. congruence.
        -- eauto.
Qed.

(** C38: [match] decides the reference semantics of patterns: with a leading caret
    the rest of the pattern matches at the start of the text, and without one the
    pattern matches at some position of the text, the end included.  Every call
    returns: both functions are total. *)
Theorem match_correct (re text : str) :
  re_match re text = true <->
  (exists re1, re = caret :: re1 /\ matches_at re1 text) \/
  (head re <> Some caret /\
   exists before after, text = before ++ after /\ matches_at re after).
Proof.
  unfold re_match. destruct re as [|c re1].
  - rewrite match_loop_spec. naive_solver.
  - destruct (Ascii.eqb_spec c caret) as [->|Hc].
    + rewrite matchhere_spec. naive_solver.
    + rewrite match_loop_spec. naive_solver.
Qed.

(** ** Correctness of the driver *)

Definition with_newline (l : str) : str := l ++ [newline].
Definition unlines (ls : list str) : str := concat (with_newline <$> ls).

(** What grep is for: the lines that match. *)
Definition matching_lines (pattern : str) (ls : list str) : str :=
  unlines (base.filter (fun l => re_match pattern l = true) ls).

(** A line of the input: no newline, no NUL, and short enough for the buffer. *)
Definition line_ok (l : str) : Prop :=
  (newline ∉ l) /\ (nul ∉ l) /\ (length l + 1 <= BUFSIZE - 1)%nat.

Lemma strchr_nl_none p : newline ∉ p -> strchr_nl p = None.
Proof.
  induction p as [|c p IH]; simpl; [done|]. rewrite not_elem_of_cons. intros [Hc Hp].
  rewrite (IH Hp). destruct (Ascii.eqb_spec c nul); [done|].
  destruct (Ascii.eqb_spec c newline); congruence.
Qed.

Lemma strchr_nl_some l r :
  newline ∉ l -> nul ∉ l -> strchr_nl (l ++ newline :: r) = Some (l, r).
Proof.
  induction l as [|c l IH]; simpl; [done|]. rewrite !not_elem_of_cons. intros [Hc Hl] [Hc' Hl'].
  destruct (Ascii.eqb_spec c nul); [congruence|].
  destruct (Ascii.eqb_spec c newline); [congruence|]. by rewrite IH.
Qed.

Lemma unlines_cons l ls : unlines (l :: ls) = l ++ newline :: unlines ls.
Proof. unfold unlines, with_newline. simpl. by rewrite <- app_assoc. Qed.

Lemma matching_lines_cons pattern l ls :
  matching_lines pattern (l :: ls) =
  (if re_match pattern l then l ++ [newline] else []) ++ matching_lines pattern ls.
Proof.
  unfold matching_lines. rewrite filter_cons.
  destruct (re_match pattern l) eqn:E; case_decide; try congruence; [|done].
  by rewrite unlines_cons, <- app_assoc.
Qed.

Lemma matching_lines_app pattern ls1 ls2 :
  matching_lines pattern (ls1 ++ ls2) = matching_lines pattern ls1 ++ matching_lines pattern ls2.
Proof.
  unfold matching_lines, unlines. by rewrite filter_app, fmap_app, concat_app.
Qed.

Lemma app_prefix_short {A} (s tl l r : list A) :
  s ++ tl = l ++ r -> length s <= length l -> l = s ++ drop (length s) l.
Proof.
  intros Hs Hle. rewrite <- (take_drop (length s) l) at 1. f_equal.
  apply (f_equal (take (length s))) in Hs.
  rewrite take_app_length, take_app_le in Hs by done. done.
Qed.

(** A buffer that holds the start of a text of lines is split into whole lines,
    which are printed when they match, and a rest without a newline. *)
Lemma grep_lines_prefix pattern ls : forall fuel s tl,
  Forall line_ok ls -> s ++ tl = unlines ls -> (length s < fuel)%nat ->
  exists ls1 ls2 rest,
    ls = ls1 ++ ls2 /\ rest ++ tl = unlines ls2 /\ (newline ∉ rest) /\
    grep_lines fuel pattern s = (matching_lines pattern ls1, rest, bool_decide (ls1 <> [])).
Proof.
  induction ls as [|l ls IH]; intros fuel s tl Hok Hs Hfuel.
  { apply app_eq_nil in Hs as [-> ->]. exists [], [], [].
    split_and!; [done..|set_solver|]. by destruct fuel. }
  apply Forall_cons in Hok as [[Hnl [Hnul Hlen]] Hok]. rewrite unlines_cons in Hs.
  destruct (decide (length s <= length l)%nat) as [Hle|Hgt].
  - assert (newline ∉ s) as Hns.
    { intros Hin. apply Hnl. rewrite (app_prefix_short _ _ _ _ Hs Hle).
      apply elem_of_app. by left. }
    exists [], (l :: ls), s. rewrite unlines_cons. split_and!; [done..|].
    destruct fuel; [lia|]. simpl. by rewrite strchr_nl_none.
  - assert (exists s', s = l ++ newline :: s' /\ s' ++ tl = unlines ls) as (s' & -> & Hs').
    { exists (drop (length l + 1) s).
      assert (s = take (length l + 1) s ++ drop (length l + 1) s) as Hsp by by rewrite take_drop.
      assert (take (length l + 1) s = l ++ [newline]) as Ht.
      { apply (f_equal (take (length l + 1))) in Hs.
        rewrite take_app_le in Hs by lia. rewrite Hs.
        rewrite take_app_ge by lia. f_equal.
        replace (length l + 1 - length l)%nat with 1%nat by lia. done. }
      rewrite Ht in Hsp. rewrite <- app_assoc in Hsp. split; [done|].
      rewrite Hsp, <- app_assoc in Hs. simpl in Hs. by simplify_list_eq. }
    destruct fuel as [|fuel]; [lia|].
    destruct (IH fuel s' tl Hok Hs') as (ls1 & ls2 & rest & -> & Hr & Hn & Hg).
    { rewrite length_app in Hfuel. simpl in Hfuel. lia. }
    exists (l :: ls1), ls2, rest. split_and!; [done..|].
    simpl. rewrite strchr_nl_some by done. rewrite Hg, matching_lines_cons. done.
Qed.

Lemma grep_loop_file pattern : forall fuel ls fd held,
  Forall line_ok ls -> held ++ fd = unlines ls -> newline ∉ held ->
  (length fd < fuel)%nat ->
  grep_loop file_read fuel pattern fd held = Some (matching_lines pattern ls).
Proof.
  induction fuel as [|fuel IH]; intros ls fd held Hok Heq Hheld Hfuel; [lia|].
  destruct ls as [|l ls].
  { apply app_eq_nil in Heq as [-> ->]. done. }
  pose proof (Forall_inv Hok) as (Hnl & Hnul & Hlen). cbn in Hlen.
  assert (length held <= length l)%nat as Hhl.
  { destruct (decide (length held <= length l)%nat); [done|]. exfalso. apply Hheld.
    rewrite unlines_cons in Heq. apply (f_equal (fun x => x !! length l)) in Heq.
    rewrite list_lookup_middle in Heq by done. rewrite lookup_app_l in Heq by lia.
    by eapply list_elem_of_lookup_2. }
  cbn [grep_loop]. unfold file_read at 1. set (n := (BUFSIZE - length held - 1)%nat).
  assert (n + length held = 1023)%nat as Hn by (unfold n, BUFSIZE; lia).
  destruct (grep_lines_prefix pattern (l :: ls) (S (length (held ++ take n fd)))
              (held ++ take n fd) (drop n fd) Hok) as (ls1 & ls2 & rest & Hls & Hr & Hnr & Hg).
  { by rewrite <- app_assoc, take_drop. }
  { lia. }
  assert (fd <> []) as Hfd.
  { intros ->. rewrite app_nil_r, unlines_cons in Heq. apply Hheld. rewrite Heq.
    apply elem_of_app. right. left. }
  destruct (take n fd) as [|c got] eqn:Et.
  { destruct fd; [done|]. destruct n eqn:En; [lia|done]. }
  rewrite Hg. destruct ls1 as [|l1 ls1].
  - exfalso. cbn in Hls. subst ls2. rewrite unlines_cons in Hr.
    assert (held ++ (c :: got) = rest) as Hrest.
    { rewrite <- Et in *. apply (app_inv_tail (drop n fd)). rewrite Hr, <- app_assoc, take_drop.
      by rewrite <- unlines_cons. }
    assert (length l < length rest)%nat as Hlr.
    { rewrite <- Hrest, <- Et, length_app, length_take.
      apply (f_equal length) in Heq. rewrite unlines_cons, !length_app in Heq. cbn in Heq. lia. }
    apply Hnr. apply (f_equal (fun x => x !! length l)) in Hr.
    rewrite list_lookup_middle in Hr by done. rewrite lookup_app_l in Hr by lia.
    by eapply list_elem_of_lookup_2.
  - rewrite bool_decide_true by done. simplify_list_eq.
    apply Forall_cons in Hok as [_ Hok]. apply Forall_app in Hok as [_ Hok2].
    rewrite (IH ls2) by (try done; rewrite length_drop; destruct fd, n; done || (cbn in *; lia)).
    f_equal. change (l1 :: ls1 ++ ls2) with ((l1 :: ls1) ++ ls2).
    by rewrite matching_lines_app.
Qed.

(** C39: on a regular file made of lines that fit the buffer, [grep] returns, and it
    prints exactly the lines that match the pattern, in order. *)
Theorem grep_prints_matching_lines (pattern : str) (ls : list str)
    (Hok : Forall line_ok ls) :
  grep file_read (S (length (unlines ls))) pattern (unlines ls) = Some (matching_lines pattern ls).
Proof. apply grep_loop_file; [done|done|set_solver|lia]. Qed.

Lemma grep_prints_matching_lines_witness :
  grep file_read 8 ["a"%char] ["c"%char; "a"%char; newline; "b"%char; newline] =
  Some ["c"%char; "a"%char; newline].
Proof.
  assert (Forall line_ok [["c"%char; "a"%char]; ["b"%char]]) as Hok.
  { repeat constructor; set_solver || (cbn; lia). }
  exact (grep_prints_matching_lines ["a"%char] _ Hok).
Defined.

(** a line that reaches [grep] in two reads loses its first part: when a read
    returns text without a newline, the buffer is discarded even if it is not
    full, and the output is that of the second part alone. *)
Theorem grep_drops_split_line (pattern a b : str)
    (Hne : a <> []) (Hnl : newline ∉ a) (Ha : length a < 1024) (Hb : line_ok b) :
  grep chunk_read 3 pattern [a; b ++ [newline]] = Some (matching_lines pattern [b]).
Proof.
  unfold grep. cbn [grep_loop]. unfold chunk_read at 1. cbn [length].
  rewrite decide_True, take_ge by (cbn; lia).
  destruct a as [|c a]; [done|]. rewrite app_nil_l.
  assert (grep_lines (S (length (c :: a))) pattern (c :: a) = ([], c :: a, false)) as ->.
  { cbn [grep_lines]. by rewrite strchr_nl_none. }
  destruct Hb as (Hb1 & Hb2 & Hb3). cbn in Hb3.
  unfold chunk_read at 1. cbn [length].
  rewrite decide_True, take_ge by (rewrite length_app; cbn; lia).
  destruct (b ++ [newline]) as [|c' l] eqn:E; [by destruct b|].
  rewrite app_nil_l, <- E. cbn [grep_lines]. rewrite strchr_nl_some by done.
  assert (forall n, grep_lines n pattern [] = ([], [], false)) as Hnil by by intros [].
  rewrite Hnil, matching_lines_cons. cbn. by rewrite !app_nil_r.
Qed.

Lemma grep_drops_split_line_witness :
  grep chunk_read 3 ["a"%char] [["a"%char]; ["b"%char; newline]] = Some [].
Proof.
  exact (grep_drops_split_line ["a"%char] ["a"%char] ["b"%char]
    ltac:(discriminate) ltac:(set_solver) ltac:(cbn; lia)
    ltac:(split_and!; set_solver || (cbn; lia))).
Defined.

End Grep.
