(* ===== verification/Ph.v ===== *)
(** * The parallel hash table (ph.c)

    ph.c is a program of the host that measures a hash table under several threads: each
    thread puts its share of the keys into the table, waits until all have done so, and
    then looks all keys up.  The threads share the table, the entries, which [malloc] gives
    out, and a lock for each bucket; [step] is one access of a thread to that memory, and
    an execution is any sequence of such steps.

    The keys, which [random] gives, and the number of threads are arguments; [NKEYS] is
    the number of keys.

    Shown: whatever the interleaving, no access is outside of the table, and no thread misses a
    key; and the program ends: as long as a thread has not finished there is one that can
    do more than wait, and it can do so a bounded number of times. *)

From S2P Require Export Prelude.
Local Open Scope Z_scope.

Module Ph.

Definition NBUCKET : Z := 5.

Record entry : Type := mkentry { e_key : Z; e_value : Z; e_next : option nat }.

(** Where a thread is, with its local variables. *)
Inductive pc : Type :=
  | PMalloc (i : nat)                        (* put number i: malloc, e->key, e->value *)
  | PLock (i : nat) (key : Z) (e : nat)      (* pthread_mutex_lock *)
  | PNext (i : nat) (key : Z) (e : nat)      (* e->next = *head *)
  | PHead (i : nat) (key : Z) (e : nat)      (* *head = e *)
  | PUnlock (i : nat) (key : Z)              (* pthread_mutex_unlock *)
  | PDone                                    (* __sync_fetch_and_add(&done, 1) *)
  | PSpin                                    (* while (done < nthread) *)
  | GStart (i k : nat)                       (* get number i: e = table[...] *)
  | GLoop (i k : nat) (key : Z) (e : option nat)
  | Halt (k : nat).                          (* k keys missing *)

Record st : Type := mkst {
  heap : list entry;            (* what malloc gave out *)
  table : list (option nat);
  locks : list (option nat);    (* the thread that holds it *)
  done : nat;
  threads : list pc
}.

Inductive res : Type :=
  | Run (s : st)   (* the thread went on *)
  | Wait           (* it waits for a lock *)
  | Stop           (* it has finished *)
  | Wrong.         (* an access outside of the table *)

(** ** Sums over the threads *)

Lemma sum_insert (f : pc -> nat) l t p p' :
  l !! t = Some p -> (sum_list_with f (<[t := p']> l) + f p = sum_list_with f l + f p')%nat.
Proof.
  revert t. induction l as [|q l IH]; intros [|t] Hp; [done..| |].
  - injection Hp as ->. cbn. lia.
  - specialize (IH t Hp). change (<[S t := p']> (q :: l)) with (q :: <[t := p']> l). cbn [sum_list_with]. lia.
Qed.

Lemma sum_le (f : pc -> nat) l m : (forall q, q ∈ l -> f q <= m)%nat -> (sum_list_with f l <= m * length l)%nat.
Proof.
  intros Hf. induction l as [|q l IH]; cbn; [lia|]. specialize (IH ltac:(intros r Hr; apply Hf; by right)).
  specialize (Hf q ltac:(left)). lia.
Qed.

Lemma sum_ext (f g : pc -> nat) l : (forall q, q ∈ l -> f q = g q) -> sum_list_with f l = sum_list_with g l.
Proof.
  intros He. induction l as [|q l IH]; [done|]. cbn [sum_list_with]. rewrite He by left. f_equal. apply IH. intros r Hr. apply He. by right.
Qed.

Section Program.
Context (keys : list Z) (nthread : nat) (junk : option nat).

Definition bucket (key : Z) : nat := Z.to_nat (Z.rem key NBUCKET).
Definition share : nat := length keys / nthread.

Definition go (t : nat) (p : pc) (s : st) : res := Run (mkst (heap s) (table s) (locks s) (done s) (<[t := p]> (threads s))).
Definition set_heap (h : list entry) (s : st) : st := mkst h (table s) (locks s) (done s) (threads s).
Definition set_table (h : list (option nat)) (s : st) : st := mkst (heap s) h (locks s) (done s) (threads s).
Definition set_locks (h : list (option nat)) (s : st) : st := mkst (heap s) (table s) h (done s) (threads s).
Definition set_done (n : nat) (s : st) : st := mkst (heap s) (table s) (locks s) n (threads s).

(** [put] of the [i]th key of thread [t]. *)
Definition put_step (t : nat) (p : pc) (s : st) : res :=
  match p with
  | PMalloc i =>
      if (i <? share)%nat then
        match keys !! (share * t + i)%nat with
        | Some key => go t (PLock i key (length (heap s))) (set_heap (heap s ++ [mkentry key (Z.of_nat t) junk]) s)
        | None => Wrong
        end
      else go t PDone s
  | PLock i key e =>
      match locks s !! bucket key with
      | Some None => go t (PNext i key e) (set_locks (<[bucket key := Some t]> (locks s)) s)
      | Some (Some _) => Wait
      | None => Wrong
      end
  | PNext i key e =>
      match table s !! bucket key, heap s !! e with
      | Some h, Some x => go t (PHead i key e) (set_heap (<[e := mkentry (e_key x) (e_value x) h]> (heap s)) s)
      | _, _ => Wrong
      end
  | PHead i key e =>
      if (bucket key <? length (table s))%nat
      then go t (PUnlock i key) (set_table (<[bucket key := Some e]> (table s)) s) else Wrong
  | PUnlock i key =>
      if (bucket key <? length (locks s))%nat
      then go t (PMalloc (S i)) (set_locks (<[bucket key := None]> (locks s)) s) else Wrong
  | _ => Wrong
  end.

(** The loop over [get]; [get] itself is the steps of [GLoop]. *)
Definition get_step (t : nat) (p : pc) (s : st) : res :=
  match p with
  | GStart i k =>
      if (i <? length keys)%nat then
        match keys !! i with
        | Some key =>
            match table s !! bucket key with
            | Some e => go t (GLoop i k key e) s
            | None => Wrong
            end
        | None => Wrong
        end
      else go t (Halt k) s
  | GLoop i k key e =>
      match e with
      | None => go t (GStart (S i) (S k)) s
      | Some a =>
          match heap s !! a with
          | Some x => if e_key x =? key then go t (GStart (S i) k) s else go t (GLoop i k key (e_next x)) s
          | None => Wrong
          end
      end
  | _ => Wrong
  end.

Definition thread_step (t : nat) (p : pc) (s : st) : res :=
  match p with
  | PMalloc _ | PLock _ _ _ | PNext _ _ _ | PHead _ _ _ | PUnlock _ _ => put_step t p s
  | PDone => go t PSpin (set_done (S (done s)) s)
  | PSpin => if (done s <? nthread)%nat then go t PSpin s else go t (GStart 0 0) s
  | GStart _ _ | GLoop _ _ _ _ => get_step t p s
  | Halt _ => Stop
  end.

Definition step (t : nat) (s : st) : res :=
  match threads s !! t with Some p => thread_step t p s | None => Stop end.

(** [main]: the table is empty, the locks are free, the threads start. *)
Definition init : st :=
  mkst [] (replicate (Z.to_nat NBUCKET) None) (replicate (Z.to_nat NBUCKET) None) 0 (replicate nthread (PMalloc 0)).

Definition steps (s s' : st) : Prop := exists t, step t s = Run s'.
Definition reachable (s : st) : Prop := rtc steps init s.

(** ** The chains of the table *)

Inductive chain (h : list entry) : option nat -> list nat -> Prop :=
  | chain_nil : chain h None []
  | chain_cons a x l : h !! a = Some x -> chain h (e_next x) l -> chain h (Some a) (a :: l).

(** The key is in one of the entries. *)
Definition has (h : list entry) (l : list nat) (key : Z) : Prop := exists a x, a ∈ l /\ h !! a = Some x /\ e_key x = key.

(** The entry a thread has made and not put in the table. *)
Definition owned (p : pc) : option nat :=
  match p with PLock _ _ e | PNext _ _ e | PHead _ _ e => Some e | _ => None end.
(** The bucket whose lock it holds. *)
Definition crit (p : pc) : option nat :=
  match p with PNext _ key _ | PHead _ key _ | PUnlock _ key => Some (bucket key) | _ => None end.
(** How many of its keys are in the table. *)
Definition puts (p : pc) : nat :=
  match p with PMalloc i | PLock i _ _ | PNext i _ _ | PHead i _ _ => i | PUnlock i _ => S i | _ => share end.
(** Whether it was counted in [done]. *)
Definition past (p : pc) : bool := match p with PSpin | GStart _ _ | GLoop _ _ _ _ | Halt _ => true | _ => false end.
Definition counted (p : pc) : nat := if past p then 1 else 0.
(** How many entries it has made. *)
Definition mallocs (p : pc) : nat :=
  match p with PMalloc i => i | PLock i _ _ | PNext i _ _ | PHead i _ _ | PUnlock i _ => S i | _ => share end.
Definition getting (p : pc) : bool := match p with GStart _ _ | GLoop _ _ _ _ | Halt _ => true | _ => false end.

(** What holds of the local variables of thread [t]. *)
Definition local_ok (t : nat) (s : st) (L : nat -> list nat) (p : pc) : Prop :=
  match p with
  | PMalloc i => (i <= share)%nat
  | PLock i key e | PNext i key e | PHead i key e =>
      (i < share)%nat /\ keys !! (share * t + i)%nat = Some key /\
      (exists x, heap s !! e = Some x /\ e_key x = key /\
        match p with PHead _ _ _ => table s !! bucket key = Some (e_next x) | _ => True end) /\
      (forall i, e ∉ L i)
  | PUnlock i key => (i < share)%nat /\ keys !! (share * t + i)%nat = Some key
  | GStart i k => (i <= length keys)%nat /\ k = 0%nat
  | GLoop i k key e => (i < length keys)%nat /\ k = 0%nat /\ exists l l', L (bucket key) = l ++ l' /\ chain (heap s) e l' /\ has (heap s) l' key
  | Halt k => k = 0%nat
  | _ => True
  end.

Record inv (s : st) (L : nat -> list nat) : Prop := {
  i_len : length (table s) = 5%nat /\ length (locks s) = 5%nat /\ length (threads s) = nthread;
  i_chain : forall i h, table s !! i = Some h -> chain (heap s) h (L i);
  i_nodup : forall i, NoDup (L i);
  i_out : forall i, (5 <= i)%nat -> L i = [];
  i_keys : forall t p j key, threads s !! t = Some p -> (j < puts p)%nat -> keys !! (share * t + j)%nat = Some key ->
    has (heap s) (L (bucket key)) key;
  i_owned : forall t t' p p' e, threads s !! t = Some p -> threads s !! t' = Some p' -> owned p = Some e -> owned p' = Some e -> t = t';
  i_locks : forall t p i, threads s !! t = Some p -> crit p = Some i -> locks s !! i = Some (Some t);
  i_holder : forall t i, locks s !! i = Some (Some t) -> exists p, threads s !! t = Some p /\ crit p = Some i;
  i_done : done s = sum_list_with counted (threads s);
  i_heap : length (heap s) = sum_list_with mallocs (threads s);
  i_getting : forall t p, threads s !! t = Some p -> getting p = true -> done s = nthread;
  i_local : forall t p, threads s !! t = Some p -> local_ok t s L p
}.

Hypothesis keys_nonneg : Forall (fun k => 0 <= k) keys.
Hypothesis keys_shared : length keys = (share * nthread)%nat.

Implicit Types (s : st) (L : nat -> list nat) (h : list entry).

Lemma bucket_lt key : 0 <= key -> (bucket key < 5)%nat.
Proof. intros Hk. unfold bucket, NBUCKET. rewrite Z.rem_mod_nonneg by lia. pose proof (Z.mod_pos_bound key 5). lia. Qed.

Lemma key_bucket i key : keys !! i = Some key -> (bucket key < 5)%nat.
Proof. intros Hi. apply bucket_lt. exact (Forall_lookup_1 _ _ _ _ keys_nonneg Hi). Qed.

(** ** Entries and chains *)

Lemma chain_in h o l a : chain h o l -> a ∈ l -> exists x, h !! a = Some x.
Proof. induction 1 as [|b x l Hb Hc IH]; [set_solver|]. intros [->|Ha]%elem_of_cons; [by exists x|by apply IH]. Qed.

Lemma bucket_agree h h' o l : (forall a, a ∈ l -> h' !! a = h !! a) -> chain h o l -> chain h' o l.
Proof.
  intros He Hc. induction Hc as [|b x l Hb Hc IH]; [constructor|]. econstructor; [rewrite He by (left); done|].
  apply IH. intros a Ha. apply He. by right.
Qed.

Lemma has_agree h h' l key : (forall a, a ∈ l -> h' !! a = h !! a) -> has h l key -> has h' l key.
Proof. intros He (a & x & Ha & Hx & Hk). exists a, x. split; [done|]. by rewrite He. Qed.

Lemma app_agree h x o l a : chain h o l -> a ∈ l -> (h ++ [x]) !! a = h !! a.
Proof. intros Hc Ha. destruct (chain_in h o l a Hc Ha) as [y Hy]. rewrite Hy. by apply lookup_app_l_Some. Qed.

(** ** A step of thread [t] to [p'] *)

(** When a step keeps the locks a thread holds. *)
Lemma same_holder s L t p p' :
  inv s L -> threads s !! t = Some p -> crit p' = crit p ->
  forall t' i, locks s !! i = Some (Some t') -> t' = t /\ crit p' = Some i \/ t' <> t /\ locks s !! i = Some (Some t').
Proof.
  intros Hi Ht Hc t' i Hl. destruct (decide (t' = t)) as [->|Hne]; [left|by right]. split; [done|].
  destruct (i_holder _ _ Hi t i Hl) as (q & Hq & Hqc). congruence.
Qed.

Lemma inv_upd s L t p p' h tb lk d L' :
  inv s L -> threads s !! t = Some p -> length tb = 5%nat -> length lk = 5%nat ->
  (forall i hd, tb !! i = Some hd -> chain h hd (L' i)) -> (forall i, NoDup (L' i)) ->
  (forall i, (5 <= i)%nat -> L' i = []) ->
  (forall i key, has (heap s) (L i) key -> has h (L' i) key) ->
  (forall j key, (puts p <= j < puts p')%nat -> keys !! (share * t + j)%nat = Some key -> has h (L' (bucket key)) key) ->
  (forall e t' q, t' <> t -> threads s !! t' = Some q -> owned p' = Some e -> owned q <> Some e) ->
  (forall i, crit p' = Some i -> lk !! i = Some (Some t)) ->
  (forall t' i, t' <> t -> locks s !! i = Some (Some t') -> lk !! i = Some (Some t')) ->
  (forall t' i, lk !! i = Some (Some t') -> t' = t /\ crit p' = Some i \/ t' <> t /\ locks s !! i = Some (Some t')) ->
  (d + counted p = done s + counted p')%nat -> (length h + mallocs p = length (heap s) + mallocs p')%nat ->
  (getting p' = true -> d = nthread) -> (done s = nthread -> d = nthread) ->
  let s' := mkst h tb lk d (<[t := p']> (threads s)) in
  (forall t' q, t' <> t -> threads s !! t' = Some q -> local_ok t' s L q -> local_ok t' s' L' q) ->
  local_ok t s' L' p' -> inv s' L'.
Proof.
  intros [Hlen Hch Hnd Hout Hkeys Hown Hlk Hhold Hdone Hheap Hget Hloc] Ht Htb Hlkl Hch' Hnd' Hout' Hmono Hnew Howned Hcrit Hothers Hholder Hd Hh Hg Hgo s' Hlo Hlt.
  pose proof (lookup_lt_Some _ _ _ Ht) as Hlt'.
  assert (forall t' q, threads s' !! t' = Some q -> t' = t /\ q = p' \/ t' <> t /\ threads s !! t' = Some q) as Hth.
  { intros t' q Hq. cbn in Hq. apply list_lookup_insert_Some in Hq as [(-> & -> & _)|[Hne Hq]]; [by left|right; by split]. }
  split.
  - cbn. rewrite length_insert. by destruct Hlen as (_ & _ & ->).
  - exact Hch'.
  - exact Hnd'.
  - exact Hout'.
  - intros t' q j key Hq Hj Hk. destruct (Hth t' q Hq) as [[-> ->]|[Hne Hq']].
    + destruct (decide (j < puts p)%nat) as [Hlo'|]; [by apply Hmono, (Hkeys t p j)|]. apply (Hnew j); [lia|done].
    + by apply Hmono, (Hkeys t' q j).
  - intros t1 t2 q1 q2 e H1 H2 He1 He2. destruct (Hth t1 q1 H1) as [[-> ->]|[Hn1 H1']], (Hth t2 q2 H2) as [[-> ->]|[Hn2 H2']].
    + done.
    + by destruct (Howned e t2 q2 Hn2 H2' He1).
    + by destruct (Howned e t1 q1 Hn1 H1' He2).
    + by apply (Hown t1 t2 q1 q2 e).
  - intros t' q i Hq Hc. destruct (Hth t' q Hq) as [[-> ->]|[Hne Hq']]; [by apply Hcrit|]. by apply Hothers, (Hlk t' q).
  - intros t' i Hl'. cbn in Hl'. destruct (Hholder t' i Hl') as [[-> Hc]|[Hne Hl'']].
    + exists p'. split; [by apply list_lookup_insert_eq|done].
    + destruct (Hhold t' i Hl'') as (q & Hq & Hc). exists q. split; [cbn; by rewrite list_lookup_insert_ne|done].
  - cbn. pose proof (sum_insert counted _ _ _ p' Ht). lia.
  - cbn. pose proof (sum_insert mallocs _ _ _ p' Ht). lia.
  - intros t' q Hq Hgq. destruct (Hth t' q Hq) as [[-> ->]|[Hne Hq']]; [by apply Hg|]. by apply Hgo, (Hget t' q).
  - intros t' q Hq. destruct (Hth t' q Hq) as [[-> ->]|[Hne Hq']]; [done|]. by apply Hlo, Hloc.
Qed.

(** As long as a thread has to put keys, none gets. *)
Lemma all_past s L t p : inv s L -> done s = nthread -> threads s !! t = Some p -> past p = true.
Proof.
  intros Hi Hd Hp. destruct (past p) eqn:E; [done|exfalso]. pose proof (i_done _ _ Hi) as Hc. destruct (i_len _ _ Hi) as (_ & _ & Hl).
  pose proof (sum_insert counted _ _ _ PSpin Hp) as Hs. pose proof (sum_le counted (<[t := PSpin]> (threads s)) 1) as Hle.
  rewrite length_insert in Hle. specialize (Hle ltac:(intros q _; unfold counted; destruct (past q); lia)).
  unfold counted at 2 4 in Hs. rewrite E in Hs. cbn in Hs. lia.
Qed.

Lemma no_getting s L t p t' q : inv s L -> threads s !! t = Some p -> past p = false -> threads s !! t' = Some q -> getting q = false.
Proof.
  intros Hi Hp Hpast Hq. destruct (getting q) eqn:E; [|done]. pose proof (i_getting _ _ Hi t' q Hq E) as Hd.
  by rewrite (all_past s L t p) in Hpast.
Qed.

(** ** Every step keeps the invariant *)

Lemma share_index t i : (i < share)%nat -> (t < nthread)%nat -> (share * t + i < length keys)%nat.
Proof. rewrite keys_shared. nia. Qed.

Lemma thread_lt s L t p : inv s L -> threads s !! t = Some p -> (t < nthread)%nat.
Proof. intros Hi Hp. destruct (i_len _ _ Hi) as (_ & _ & Hl). rewrite <- Hl. by eapply lookup_lt_Some. Qed.

Lemma chains_app s L x : inv s L -> forall i hd, table s !! i = Some hd -> chain (heap s ++ [x]) hd (L i).
Proof.
  intros Hi i hd Hh. pose proof (i_chain _ _ Hi i hd Hh) as Hc. eapply bucket_agree; [|exact Hc]. intros a Ha. by eapply app_agree.
Qed.

Lemma table_at s L key i : inv s L -> keys !! i = Some key -> exists hd, table s !! bucket key = Some hd.
Proof.
  intros Hi Hk. destruct (i_len _ _ Hi) as (Ht & _). apply lookup_lt_is_Some_2. rewrite Ht. by eapply key_bucket.
Qed.

Lemma inv_malloc s L t i key :
  inv s L -> threads s !! t = Some (PMalloc i) -> (i < share)%nat -> keys !! (share * t + i)%nat = Some key ->
  inv (mkst (heap s ++ [mkentry key (Z.of_nat t) junk]) (table s) (locks s) (done s)
    (<[t := PLock i key (length (heap s))]> (threads s))) L.
Proof.
  intros Hi Ht Hlt Hk. destruct (i_len _ _ Hi) as (Hl1 & Hl2 & _).
  assert (forall j a, a ∈ L j -> (a < length (heap s))%nat) as Hin.
  { intros j a Ha. destruct (decide (j < 5)%nat) as [Hj|Hj].
    - destruct (lookup_lt_is_Some_2 (table s) j ltac:(lia)) as [h Hh]. destruct (chain_in _ _ _ a (i_chain _ _ Hi j h Hh) Ha) as [x Hx].
      by eapply lookup_lt_Some.
    - rewrite (i_out _ _ Hi) in Ha by lia. by apply elem_of_nil in Ha. }
  eapply (inv_upd s L t (PMalloc i)); [exact Hi|exact Ht|done|done|by apply (chains_app s L)|apply (i_nodup _ _ Hi)|apply (i_out _ _ Hi)| | | |done|done|by eapply same_holder| | | |done| |].
  - intros j k. apply has_agree. intros a Ha. by rewrite lookup_app_l by (by eapply Hin).
  - intros j k Hj. cbn in Hj. lia.
  - intros e t' q Hne Hq [= <-] He. pose proof (i_local _ _ Hi t' q Hq) as Hloc.
    assert (exists x, heap s !! length (heap s) = Some x) as [x Hx%lookup_lt_Some]; [|lia].
    destruct q; try done; injection He as ->; destruct Hloc as (_ & _ & (x & Hx & _) & _); by exists x.
  - cbn. lia.
  - rewrite length_app. cbn. lia.
  - done.
  - intros t' q Hne Hq Hloc. pose proof (no_getting s L t _ t' q Hi Ht eq_refl Hq) as Hng.
    destruct q; try done; destruct Hloc as (H1 & H2 & (x & Hx & Hxk & Hxn) & H4); (split; [done|split; [done|split; [|done]]]);
      exists x; (split; [by apply lookup_app_l_Some|done]).
  - cbn. split; [done|]. split; [done|]. split; [|intros j Hj; apply Hin in Hj; lia].
    eexists. split; [by rewrite list_lookup_middle|done].
Qed.

(** A step that changes neither entries nor table. *)
Lemma inv_move s L t p p' lk d :
  inv s L -> threads s !! t = Some p -> length lk = 5%nat -> puts p = puts p' -> mallocs p = mallocs p' ->
  (owned p' = None \/ owned p' = owned p) -> (forall i, crit p' = Some i -> lk !! i = Some (Some t)) ->
  (forall t' i, t' <> t -> locks s !! i = Some (Some t') -> lk !! i = Some (Some t')) ->
  (forall t' i, lk !! i = Some (Some t') -> t' = t /\ crit p' = Some i \/ t' <> t /\ locks s !! i = Some (Some t')) ->
  (d + counted p = done s + counted p')%nat -> (getting p' = true -> d = nthread) -> (done s = nthread -> d = nthread) ->
  local_ok t s L p' -> inv (mkst (heap s) (table s) lk d (<[t := p']> (threads s))) L.
Proof.
  intros Hi Ht Hlk Hp Hm Ho Hc Hcl Hch Hd Hg Hg' Hl. destruct (i_len _ _ Hi) as (Hl1 & _).
  eapply (inv_upd s L t p); [exact Hi|exact Ht|done|done|apply (i_chain _ _ Hi)|apply (i_nodup _ _ Hi)|apply (i_out _ _ Hi)|done| | |done|done|done|done| |done|done| |exact Hl].
  - intros j key Hj. lia.
  - intros e t' q Hne Hq He Heq. destruct Ho as [Ho|Ho]; [congruence|]. apply Hne.
    by apply (i_owned _ _ Hi t' t q p e); [done|done|done|congruence].
  - lia.
  - intros t' q _ _ Hlo. exact Hlo.
Qed.

Lemma inv_next s L t i key e x hd :
  inv s L -> threads s !! t = Some (PNext i key e) -> table s !! bucket key = Some hd -> heap s !! e = Some x ->
  inv (mkst (<[e := mkentry (e_key x) (e_value x) hd]> (heap s)) (table s) (locks s) (done s) (<[t := PHead i key e]> (threads s))) L.
Proof.
  intros Hi Ht Hh Hx. destruct (i_len _ _ Hi) as (Hl1 & Hl2 & _). pose proof (i_local _ _ Hi t _ Ht) as (H1 & H2 & (y & Hy & Hyk & _) & H4).
  assert (y = x) as -> by congruence. set (h' := <[e := _]> (heap s)). pose proof (lookup_lt_Some _ _ _ Hx) as Hlt.
  assert (forall j a, a ∈ L j -> h' !! a = heap s !! a) as Hag.
  { intros j a Ha. apply list_lookup_insert_ne. intros ->. by apply (H4 j). }
  eapply (inv_upd s L t (PNext i key e)); [exact Hi|exact Ht|done|done| |apply (i_nodup _ _ Hi)|apply (i_out _ _ Hi)| | | | |done|by eapply same_holder|done| |done|done| |].
  - intros j hd' Hj. eapply bucket_agree; [apply Hag|]. by apply (i_chain _ _ Hi).
  - intros j k. apply has_agree, Hag.
  - intros j k Hj. cbn in Hj. lia.
  - intros e' t' q Hne Hq [= <-] Heq. apply Hne. by apply (i_owned _ _ Hi t' t q (PNext i key e) e).
  - intros j [= <-]. by apply (i_locks _ _ Hi t (PNext i key e)).
  - unfold h'. rewrite length_insert. cbn. lia.
  - intros t' q Hne Hq Hloc. pose proof (no_getting s L t _ t' q Hi Ht eq_refl Hq) as Hng.
    destruct q as [|i' k' e'|i' k' e'|i' k' e'| | | | | |]; try done.
    all: assert (e' <> e) as Hee by (intros ->; apply Hne; by eapply (i_owned _ _ Hi t' t _ (PNext i key e) e)).
    all: destruct Hloc as (Ha & Hb & (z & Hz & Hzk & Hzn) & Hd); (split; [done|split; [done|split; [|done]]]); exists z.
    all: cbn [heap]; unfold h'; by rewrite list_lookup_insert_ne by done.
  - split; [done|]. split; [done|]. split; [|done]. eexists. cbn [heap]. split; [by apply list_lookup_insert_eq|]. by split.
Qed.

Lemma inv_head s L t i key e :
  inv s L -> threads s !! t = Some (PHead i key e) ->
  inv (mkst (heap s) (<[bucket key := Some e]> (table s)) (locks s) (done s) (<[t := PUnlock i key]> (threads s)))
    (fun j => if decide (j = bucket key) then e :: L j else L j).
Proof.
  intros Hi Ht. destruct (i_len _ _ Hi) as (Hl1 & Hl2 & _). pose proof (i_local _ _ Hi t _ Ht) as (H1 & H2 & (x & Hx & Hxk & Hxn) & H4).
  pose proof (key_bucket _ _ H2) as Hb. pose proof (i_locks _ _ Hi t _ (bucket key) Ht eq_refl) as Hlk.
  eapply (inv_upd s L t (PHead i key e)); [exact Hi|exact Ht|by rewrite length_insert|done| | | | | |done| |done|by eapply same_holder|done|done|done|done| |by split].
  - intros j hd Hj. apply list_lookup_insert_Some in Hj as [(Hbj & <- & _)|[Hne Hj]].
    + subst j. rewrite decide_True by done. econstructor; [exact Hx|]. apply (i_chain _ _ Hi). exact Hxn.
    + rewrite decide_False by done. by apply (i_chain _ _ Hi).
  - intros j. case_decide; [|apply (i_nodup _ _ Hi)]. constructor; [apply H4|apply (i_nodup _ _ Hi)].
  - intros j Hj. rewrite decide_False by lia. by apply (i_out _ _ Hi).
  - intros j k (a & y & Ha & Hy & Hk). exists a, y. split; [|done]. case_decide; [by right|done].
  - intros j k Hj Hk. cbn in Hj. assert (j = i) as -> by lia. rewrite Hk in H2. injection H2 as ->.
    exists e, x. rewrite decide_True by done. split; [left|done].
  - intros j [= <-]. done.
  - intros t' q Hne Hq Hloc. pose proof (no_getting s L t _ t' q Hi Ht eq_refl Hq) as Hng.
    destruct q as [|i' k' e'|i' k' e'|i' k' e'| | | | | |]; try done.
    all: assert (e' <> e) as Hee by (intros ->; apply Hne; by eapply (i_owned _ _ Hi t' t _ (PHead i key e) e)).
    all: destruct Hloc as (Ha & Hb' & (z & Hz & Hzk & Hzn) & Hd); (split; [done|split; [done|split]]).
    all: try (intros j; case_decide; [|apply Hd]; intros [?|Hin]%elem_of_cons; [done|by apply (Hd j)]).
    1, 2: by exists z.
    exists z. split; [done|]. split; [done|]. cbn [table]. rewrite list_lookup_insert_ne; [done|].
    intros Hbk. pose proof (i_locks _ _ Hi t' _ (bucket k') Hq eq_refl) as Hlk'. rewrite <- Hbk in Hlk'. congruence.
Qed.

(** When all keys are in the table, each is in the chain of its bucket. *)
Lemma all_keys s L i key : inv s L -> done s = nthread -> keys !! i = Some key -> has (heap s) (L (bucket key)) key.
Proof.
  intros Hi Hd Hk. pose proof (lookup_lt_Some _ _ _ Hk) as Hlt. rewrite keys_shared in Hlt. destruct (i_len _ _ Hi) as (_ & _ & Hl).
  assert (0 < share)%nat as Hs by (destruct share; lia).
  assert (i / share < nthread)%nat as Ht by (apply Nat.Div0.div_lt_upper_bound; lia).
  destruct (lookup_lt_is_Some_2 (threads s) (i / share) ltac:(lia)) as [p Hp].
  apply (i_keys _ _ Hi (i / share)%nat p (i mod share)%nat); [done| |].
  - pose proof (all_past s L _ p Hi Hd Hp) as Hpast. pose proof (Nat.mod_upper_bound i share ltac:(lia)). by destruct p.
  - by rewrite <- Nat.div_mod by lia.
Qed.

Lemma put_step_inv s L t p s' :
  inv s L -> threads s !! t = Some p -> put_step t p s = Run s' -> exists L', inv s' L'.
Proof.
  intros Hi Ht Hs. destruct (i_len _ _ Hi) as (Hl1 & Hl2 & Hl3). pose proof (i_local _ _ Hi t p Ht) as Hloc.
  destruct p as [i|i key e|i key e|i key e|i key| | | | |]; try done; cbn [put_step] in Hs.
  - destruct (Nat.ltb_spec i share) as [Hlt|Hge].
    + destruct (keys !! _) as [key|] eqn:Hk; [|done]. injection Hs as <-. exists L. by apply inv_malloc.
    + injection Hs as <-. exists L. cbn in Hloc. assert (i = share) as -> by lia.
      eapply (inv_move s L t (PMalloc share)); try done; [by left|by eapply same_holder].
  - destruct (locks s !! bucket key) as [[t'|]|] eqn:Hlk; try done. injection Hs as <-. exists L.
    eapply (inv_move s L t (PLock i key e)); try done.
    + by rewrite length_insert.
    + by right.
    + intros j [= <-]. apply list_lookup_insert_eq. by eapply lookup_lt_Some.
    + intros t' j _ Hj. rewrite list_lookup_insert_ne; [done|]. intros <-. congruence.
    + intros t' j Hj. apply list_lookup_insert_Some in Hj as [(<- & [= <-] & _)|[Hne Hj]]; [by left|].
      by destruct (same_holder s L t (PLock i key e) (PLock i key e) Hi Ht eq_refl t' j Hj) as [[_ ?]|?]; [|right].
  - destruct (table s !! bucket key) as [hd|] eqn:Hh; [|done]. destruct (heap s !! e) as [x|] eqn:Hx; [|done]. injection Hs as <-.
    exists L. by apply inv_next.
  - destruct (_ <? _)%nat; [|done]. injection Hs as <-. eexists. by apply inv_head.
  - destruct (_ <? _)%nat; [|done]. injection Hs as <-. exists L. pose proof (i_locks _ _ Hi t _ (bucket key) Ht eq_refl) as Hlk.
    destruct Hloc as [Hlt _]. eapply (inv_move s L t (PUnlock i key)); try done; [by rewrite length_insert|by left| |].
    + intros t' j Hne Hj. rewrite list_lookup_insert_ne; [done|]. intros <-. congruence.
    + intros t' j Hj. apply list_lookup_insert_Some in Hj as [(_ & ? & _)|[Hne Hj]]; [done|].
      apply (same_holder s L t _ _ Hi Ht eq_refl) in Hj as [[_ [= ?]]|?]; [done|by right].
Qed.

Lemma get_step_inv s L t p s' :
  inv s L -> threads s !! t = Some p -> get_step t p s = Run s' -> inv s' L.
Proof.
  intros Hi Ht Hs. destruct (i_len _ _ Hi) as (Hl1 & Hl2 & Hl3). pose proof (i_local _ _ Hi t p Ht) as Hloc.
  assert (getting p = true -> done s = nthread) as Hd by (by apply (i_getting _ _ Hi t)).
  assert (forall p', getting p = true -> getting p' = true -> owned p' = None -> crit p' = None -> puts p' = share -> mallocs p' = share ->
    local_ok t s L p' -> inv (mkst (heap s) (table s) (locks s) (done s) (<[t := p']> (threads s))) L) as Hmove.
  { intros p' Hg Hg' Ho Hc Hp Hm Hl. eapply (inv_move s L t p); try done.
    - rewrite Hp. by destruct p.
    - rewrite Hm. by destruct p.
    - by left.
    - intros j Hj. congruence.
    - eapply (same_holder s L t p); [done|done|]. rewrite Hc. by destruct p.
    - assert (forall q, getting q = true -> counted q = 1%nat) as Hc1 by (by intros []). by rewrite !Hc1.
    - intros _. by apply Hd. }
  destruct p as [| | | | | | |i k|i k key [a|]|]; try done; cbn [get_step] in Hs.
  - destruct Hloc as [Hik ->]. destruct (Nat.ltb_spec i (length keys)) as [Hlt|Hge].
    + destruct (keys !! i) as [key|] eqn:Hk; [|done]. destruct (table s !! bucket key) as [e|] eqn:He; [|done]. injection Hs as <-.
      apply Hmove; try done. split; [done|]. split; [done|]. exists [], (L (bucket key)). split; [done|].
      split; [by apply (i_chain _ _ Hi)|]. by eapply all_keys; [|apply Hd|].
    + injection Hs as <-. by apply Hmove.
  - destruct Hloc as (Hik & -> & l & l' & HL & Hch & Hhas). destruct (heap s !! a) as [x|] eqn:Hx; [|done].
    inversion Hch as [|a' x' l'' Hx' Hch']; subst. assert (x' = x) as -> by congruence.
    destruct (Z.eqb_spec (e_key x) key) as [Hk|Hk]; injection Hs as <-; apply Hmove; try done.
    split; [done|]. split; [done|]. exists (l ++ [a]), l''. split; [by rewrite <- app_assoc|]. split; [done|].
    destruct Hhas as (b & y & Hb & Hy & Hyk). exists b, y. split; [|done]. apply elem_of_cons in Hb as [->|Hb]; [|done]. congruence.
  - destruct Hloc as (Hik & -> & l & l' & HL & Hch & (b & y & Hb & _)). inversion Hch; subst. by apply elem_of_nil in Hb.
Qed.

Lemma ph_step_inv s L t s' : inv s L -> step t s = Run s' -> exists L', inv s' L'.
Proof.
  intros Hi Hs. unfold step in Hs. destruct (threads s !! t) as [p|] eqn:Ht; [|done]. destruct (i_len _ _ Hi) as (Hl1 & Hl2 & Hl3).
  destruct p as [i|i key e|i key e|i key e|i key| | |i k|i k key e|]; cbn [thread_step] in Hs; try (by eapply put_step_inv); try done.
  - injection Hs as <-. exists L. eapply (inv_move s L t PDone); try done; [by left|by eapply same_holder|cbn; lia|].
    intros Hd. by pose proof (all_past s L t PDone Hi Hd Ht).
  - destruct (Nat.ltb_spec (done s) nthread) as [Hlt|Hge]; injection Hs as <-; exists L; eapply (inv_move s L t PSpin); try done; try (by left); try (by eapply same_holder).
    + intros _. pose proof (i_done _ _ Hi) as Hd. pose proof (sum_le counted (threads s) 1) as Hle.
      specialize (Hle ltac:(intros q _; unfold counted; destruct (past q); lia)). lia.
    + split; [lia|done].
  - exists L. by eapply get_step_inv.
  - exists L. by eapply get_step_inv.
Qed.

Lemma init_inv : inv init (fun _ => []).
Proof.
  assert (forall t p, threads init !! t = Some p -> p = PMalloc 0) as Hp by (intros t p Ht; by apply lookup_replicate in Ht as [-> _]).
  split; cbn.
  - split; [done|]. split; [done|]. apply length_replicate.
  - intros i hd Hh. apply lookup_replicate in Hh as [-> _]. constructor.
  - intros _. constructor.
  - done.
  - intros t p j key Ht Hj. rewrite (Hp t p Ht) in Hj. cbn in Hj. lia.
  - intros t t' p p' e Ht _ He. by rewrite (Hp t p Ht) in He.
  - intros t p i Ht Hc. by rewrite (Hp t p Ht) in Hc.
  - intros t i Hl. by apply lookup_replicate in Hl as [? _].
  - clear. induction nthread as [|n IH]; [done|]. cbn. by rewrite <- IH.
  - clear. induction nthread as [|n IH]; [done|]. cbn. by rewrite <- IH.
  - intros t p Ht Hg. by rewrite (Hp t p Ht) in Hg.
  - intros t p Ht. rewrite (Hp t p Ht). cbn. lia.
Qed.

Lemma ph_reachable_inv s : reachable s -> exists L, inv s L.
Proof.
  intros Hr. apply rtc_ind_r with (P := fun s => exists L, inv s L) in Hr; [done| |].
  - exists (fun _ => []). apply init_inv.
  - intros s1 s2 _ [t Ht] [L HL]. by eapply ph_step_inv.
Qed.

(** ** No access goes wrong *)

Lemma step_not_wrong s L t : inv s L -> step t s <> Wrong.
Proof.
  intros Hi. unfold step. destruct (threads s !! t) as [p|] eqn:Ht; [|done]. destruct (i_len _ _ Hi) as (Hl1 & Hl2 & Hl3).
  pose proof (i_local _ _ Hi t p Ht) as Hloc. pose proof (thread_lt s L t p Hi Ht) as Htl.
  destruct p as [i|i key e|i key e|i key e|i key| | |i k|i k key e|]; cbn [thread_step put_step get_step]; try done.
  - destruct (Nat.ltb_spec i share) as [Hlt|]; [|done].
    destruct (lookup_lt_is_Some_2 keys (share * t + i) (share_index t i Hlt Htl)) as [key ->]. done.
  - destruct Hloc as (_ & Hk & _). pose proof (key_bucket _ _ Hk) as Hb.
    destruct (lookup_lt_is_Some_2 (locks s) (bucket key) ltac:(lia)) as [[|] ->]; done.
  - destruct Hloc as (_ & Hk & (x & Hx & _) & _). destruct (table_at s L key _ Hi Hk) as [hd ->]. by rewrite Hx.
  - destruct Hloc as (_ & Hk & _). pose proof (key_bucket _ _ Hk). rewrite (proj2 (Nat.ltb_lt _ _)) by lia. done.
  - destruct Hloc as (_ & Hk). pose proof (key_bucket _ _ Hk). rewrite (proj2 (Nat.ltb_lt _ _)) by lia. done.
  - by destruct (done s <? nthread)%nat.
  - destruct (Nat.ltb_spec i (length keys)) as [Hlt|]; [|done]. destruct (lookup_lt_is_Some_2 keys i Hlt) as [key Hk]. rewrite Hk.
    by destruct (table_at s L key _ Hi Hk) as [hd ->].
  - destruct e as [a|]; [|done]. destruct Hloc as (_ & _ & l & l' & _ & Hch & _). inversion Hch as [|a' x l'' Hx Hch']; subst.
    rewrite Hx. by destruct (_ =? _).
Qed.

(** ** The program ends *)

(** The entries from [e] on. *)
Fixpoint len_from (n : nat) (h : list entry) (e : option nat) : nat :=
  match n, e with
  | S n, Some a => S (match h !! a with Some x => len_from n h (e_next x) | None => 0 end)
  | _, _ => 0
  end.

Lemma len_from_chain n h e l : chain h e l -> (length l <= n)%nat -> len_from n h e = length l.
Proof.
  intros Hc. revert n. induction Hc as [|a x l Hx Hc IH]; intros [|n] Hn; cbn in *; [done..|lia|]. rewrite Hx. f_equal. apply IH. lia.
Qed.

(** What a thread has left to do. *)
Definition weight (h : list entry) (p : pc) : nat :=
  let n := length keys in
  match p with
  | PMalloc i => 5 * (share - i) + n * (n + 2) + 4
  | PLock i _ _ => 5 * (share - i) + n * (n + 2) + 3
  | PNext i _ _ => 5 * (share - i) + n * (n + 2) + 2
  | PHead i _ _ => 5 * (share - i) + n * (n + 2) + 1
  | PUnlock i _ => 5 * (share - i) + n * (n + 2)
  | PDone => n * (n + 2) + 3
  | PSpin => n * (n + 2) + 2
  | GStart i _ => (n - i) * (n + 2) + 1
  | GLoop i _ _ e => (n - S i) * (n + 2) + 2 + len_from n h e
  | Halt _ => 0
  end%nat.
Definition work (s : st) : nat := sum_list_with (weight (heap s)) (threads s).

Lemma work_upd s t p p' h tb lk d :
  threads s !! t = Some p -> (forall t' q, threads s !! t' = Some q -> weight h q = weight (heap s) q) ->
  (weight h p' < weight (heap s) p)%nat -> (work (mkst h tb lk d (<[t := p']> (threads s))) < work s)%nat.
Proof.
  intros Ht He Hw. unfold work. cbn [heap threads]. pose proof (sum_insert (weight h) _ _ _ p' Ht) as Hs.
  rewrite (sum_ext (weight h) (weight (heap s)) (threads s)) in Hs; [rewrite (He t p Ht) in Hs; lia|].
  intros q [t' Hq]%list_elem_of_lookup. by apply (He t').
Qed.

Lemma weight_put h h' p : getting p = false -> weight h' p = weight h p.
Proof. by destruct p. Qed.

Lemma heap_le s L : inv s L -> (length (heap s) <= length keys)%nat.
Proof.
  intros Hi. rewrite (i_heap _ _ Hi), keys_shared. destruct (i_len _ _ Hi) as (_ & _ & Hl). rewrite <- Hl. apply sum_le.
  intros q [t Hq]%list_elem_of_lookup. pose proof (i_local _ _ Hi t q Hq) as Hloc.
  destruct q; cbn in *; try lia; destruct Hloc as [? _]; lia.
Qed.

Lemma chain_le s L i hd : inv s L -> table s !! i = Some hd -> (length (L i) <= length keys)%nat.
Proof.
  intros Hi Hh. etrans; [|by eapply heap_le]. pose proof (i_chain _ _ Hi i hd Hh) as Hc.
  rewrite <- (length_seq (length (heap s)) 0). apply submseteq_length, NoDup_submseteq; [apply (i_nodup _ _ Hi)|].
  intros a Ha. destruct (chain_in _ _ _ a Hc Ha) as [x Hx%lookup_lt_Some]. apply elem_of_seq. lia.
Qed.

(** Every step but that of a thread waiting for the others takes work away. *)
Lemma step_work s L t s' : inv s L -> step t s = Run s' ->
  threads s !! t = Some PSpin /\ (done s < nthread)%nat /\ s' = s \/ (work s' < work s)%nat.
Proof.
  intros Hi Hs. unfold step in Hs. destruct (threads s !! t) as [p|] eqn:Ht; [|done].
  pose proof (i_local _ _ Hi t p Ht) as Hloc.
  assert (forall h p', (past p = false \/ h = heap s) -> (weight h p' < weight (heap s) p)%nat -> forall tb lk d,
    (work (mkst h tb lk d (<[t := p']> (threads s))) < work s)%nat) as Hup.
  { intros h p' Hh Hw tb lk d. eapply work_upd; [exact Ht| |exact Hw]. intros t' q Hq. destruct Hh as [Hp| ->]; [|done].
    apply weight_put. by eapply (no_getting s L t p). }
  destruct p as [i|i key e|i key e|i key e|i key| | |i k|i k key e|]; cbn [thread_step put_step get_step] in Hs; try done.
  - right. destruct (Nat.ltb_spec i share); [destruct (keys !! _); [|done]|]; injection Hs as <-; (apply Hup; [by left|cbn; lia]).
  - right. destruct (locks s !! _) as [[]|]; [done| |done]. injection Hs as <-. apply Hup; [by left|cbn; lia].
  - right. destruct (table s !! _); [|done]. destruct (heap s !! e); [|done]. injection Hs as <-. apply Hup; [by left|cbn; lia].
  - right. destruct (_ <? _)%nat; [|done]. injection Hs as <-. apply Hup; [by left|cbn; lia].
  - right. destruct (_ <? _)%nat; [|done]. injection Hs as <-. destruct Hloc as [Hlt _]. apply Hup; [by left|cbn; lia].
  - right. injection Hs as <-. apply Hup; [by left|cbn; lia].
  - destruct (Nat.ltb_spec (done s) nthread); injection Hs as <-; [left|right; apply Hup; [by right|cbn; lia]].
    split; [done|]. split; [done|]. rewrite list_insert_id by done. by destruct s.
  - right. destruct Hloc as [Hik _]. destruct (Nat.ltb_spec i (length keys)) as [Hlt|].
    + destruct (keys !! i) as [key|] eqn:Hk; [|done]. destruct (table s !! bucket key) as [e|] eqn:He; [|done]. injection Hs as <-.
      apply Hup; [by right|]. pose proof (chain_le s L _ e Hi He) as Hle. cbn.
      rewrite (len_from_chain _ _ _ _ (i_chain _ _ Hi _ e He) Hle).
      replace (length keys - i)%nat with (S (length keys - S i)) by lia. lia.
    + injection Hs as <-. apply Hup; [by right|cbn; lia].
  - right. destruct Hloc as (Hik & _ & l & l' & HL & Hch & _).
    destruct e as [a|]; [|injection Hs as <-; apply Hup; [by right|cbn; lia]].
    inversion Hch as [|a' x l'' Hx Hch']; subst. rewrite Hx in Hs.
    destruct (e_key x =? key); injection Hs as <-; (apply Hup; [by right|]); [cbn; lia|].
    assert (length (a :: l'') <= length keys)%nat as Hle.
    { destruct (decide (bucket key < 5)%nat) as [Hb|Hb].
      - destruct (i_len _ _ Hi) as (Hl1 & _). destruct (lookup_lt_is_Some_2 (table s) (bucket key) ltac:(lia)) as [hd Hhd].
        pose proof (chain_le s L _ hd Hi Hhd) as Hc. rewrite HL, length_app in Hc. lia.
      - pose proof (i_out _ _ Hi (bucket key) ltac:(lia)) as Ho. rewrite HL in Ho. by destruct l. }
    cbn [weight]. rewrite (len_from_chain _ _ _ _ Hch Hle). rewrite (len_from_chain _ _ _ l'' Hch') by (cbn in Hle; lia). cbn. lia.
Qed.

Definition halted (p : pc) : bool := match p with Halt _ => true | _ => false end.

(** A thread can go on, and not only wait for the others. *)
Definition works (s : st) : Prop := exists t s', step t s = Run s' /\ (work s' < work s)%nat.

Lemma run_works s L t p :
  inv s L -> threads s !! t = Some p -> step t s <> Wait -> halted p = false -> (p = PSpin -> (nthread <= done s)%nat) -> works s.
Proof.
  intros Hi Ht Hw Hh Hsp. pose proof (step_not_wrong s L t Hi) as Hwr. destruct (step t s) as [s'| | |] eqn:Hs; [|done| |done].
  - exists t, s'. split; [done|]. destruct (step_work s L t s' Hi Hs) as [(Ht' & Hd & _)|]; [|done].
    rewrite Ht in Ht'. injection Ht' as ->. specialize (Hsp eq_refl). lia.
  - unfold step in Hs. rewrite Ht in Hs. by destruct p; cbn in Hs; repeat (case_match; try done).
Qed.

(** A thread that waits for a lock waits for one that can go on. *)
Lemma put_works s L t p : inv s L -> threads s !! t = Some p -> past p = false -> works s.
Proof.
  intros Hi Ht Hp. assert (forall t q, threads s !! t = Some q -> is_Some (crit q) -> works s) as Hcrit.
  { intros t' q Hq [i Hc]. apply (run_works s L t' q Hi Hq).
    - unfold step. rewrite Hq. destruct q; try done; cbn; repeat (case_match; try done).
    - by destruct q.
    - by intros ->. }
  destruct (step t s) eqn:Hs; try (eapply (run_works s L t p); [exact Hi|exact Ht|congruence|by destruct p|by intros ->]).
  unfold step in Hs. rewrite Ht in Hs. destruct p as [i|i key e|i key e|i key e|i key| | |i k|i k key e|]; try done; try (by eapply Hcrit).
  - exfalso. cbn in Hs. repeat (case_match; try done).
  - cbn in Hs. destruct (locks s !! bucket key) as [[t'|]|] eqn:Hl; [|done|done]. destruct (i_holder _ _ Hi t' _ Hl) as (q & Hq & Hc).
    apply (Hcrit t' q Hq). by rewrite Hc.
Qed.

Lemma progress s L t p : inv s L -> threads s !! t = Some p -> halted p = false -> works s.
Proof.
  intros Hi Ht Hh. destruct (past p) eqn:Hp; [|by eapply put_works].
  destruct (decide (nthread <= done s)%nat) as [Hd|Hd].
  - apply (run_works s L t p Hi Ht); [|done|done]. unfold step. rewrite Ht. destruct p; try done; cbn; repeat (case_match; try done).
  - destruct (decide (Forall (fun q => past q = true) (threads s))) as [Hall|Hall].
    + exfalso. apply Hd. rewrite (i_done _ _ Hi). destruct (i_len _ _ Hi) as (_ & _ & Hl). rewrite <- Hl. clear -Hall.
      induction Hall as [|q l Hq Hall IH]; [cbn; lia|]. cbn [sum_list_with length]. unfold counted at 1. rewrite Hq. lia.
    + apply not_Forall_Exists in Hall; [|apply _]. apply Exists_exists in Hall as (q & [t' Hq]%list_elem_of_lookup & Hpast).
      eapply (put_works s L t' q); [done|done|]. destruct (past q) eqn:E; [by destruct Hpast|done].
Qed.

End Program.

(** C21: Whatever the interleaving of the threads, no key is lost: no thread ever accesses
    anything outside of the table and its entries, and one that has finished has missed no
    key, although all of them put keys into the same buckets. *)
Theorem no_keys_missing keys nthread junk s :
  Forall (fun k => 0 <= k) keys -> length keys = (share keys nthread * nthread)%nat ->
  reachable keys nthread junk s ->
  (forall t, step keys nthread junk t s <> Wrong) /\ (forall t k, threads s !! t = Some (Halt k) -> k = 0%nat).
Proof.
  intros Hk Hs Hr. destruct (ph_reachable_inv keys nthread junk Hk Hs s Hr) as [L Hi]. split.
  - intros t. by eapply step_not_wrong.
  - intros t k Ht. exact (i_local _ _ _ _ Hi t _ Ht).
Qed.

(** The program ends: in every state it can reach, a step of a thread takes some of its work
    away, unless the thread waits for the others to put their keys and nothing changes; and
    as long as a thread has not finished, one of the threads can take work away.  So no
    thread waits for ever for a lock or for the others. *)
Theorem threads_finish keys nthread junk s :
  Forall (fun k => 0 <= k) keys -> length keys = (share keys nthread * nthread)%nat ->
  reachable keys nthread junk s ->
  (forall t s', step keys nthread junk t s = Run s' -> s' = s \/ (work keys nthread s' < work keys nthread s)%nat) /\
  ((exists t p, threads s !! t = Some p /\ halted p = false) ->
   exists t s', step keys nthread junk t s = Run s' /\ (work keys nthread s' < work keys nthread s)%nat).
Proof.
  intros Hk Hs Hr. destruct (ph_reachable_inv keys nthread junk Hk Hs s Hr) as [L Hi]. split.
  - intros t s' Ht. destruct (step_work keys nthread junk Hk Hs s L t s' Hi Ht) as [(_ & _ & ?)|?]; [by left|by right].
  - intros (t & p & Ht & Hh). by eapply progress.
Qed.

(** An execution given by the threads that take the steps. *)
Definition run_list keys nthread junk (ts : list nat) (s : st) : option st :=
  foldl (fun o t => match o with Some s => match step keys nthread junk t s with Run s => Some s | _ => None end | None => None end) (Some s) ts.

Lemma run_list_reachable keys nthread junk ts : forall s s', run_list keys nthread junk ts s = Some s' -> rtc (steps keys nthread junk) s s'.
Proof.
  unfold run_list. induction ts as [|t ts IH]; intros s s' Hr; cbn in Hr; [injection Hr as ->; done|].
  destruct (step keys nthread junk t s) as [s1| | |] eqn:Hs.
  - eapply rtc_l; [by exists t|]. by apply IH.
  - exfalso. revert Hr. clear. by induction ts.
  - exfalso. revert Hr. clear. by induction ts.
  - exfalso. revert Hr. clear. by induction ts.
Qed.

(** Two threads and four keys, three of them of the same bucket. *)
Definition example_keys : list Z := [5; 10; 7; 15].

Lemma example_run : exists s, run_list example_keys 2 None [0; 0; 1; 0; 1; 1; 0; 0; 1; 1; 1]%nat (init 2) = Some s /\ threads s !! 0%nat = Some (PMalloc 1).
Proof. vm_compute. eexists. split; reflexivity. Qed.

Lemma no_keys_missing_witness :
  exists s, threads s !! 0%nat = Some (PMalloc 1) /\ forall t, step example_keys 2 None t s <> Wrong.
Proof.
  destruct example_run as (s & Hs & Ht). exists s. split; [exact Ht|].
  apply (no_keys_missing example_keys 2 None s); [by repeat constructor|reflexivity|exact (run_list_reachable _ _ _ _ _ _ Hs)].
Defined.

Lemma threads_finish_witness :
  exists s, threads s !! 0%nat = Some (PMalloc 1) /\
    exists t s', step example_keys 2 None t s = Run s' /\ (work example_keys 2 s' < work example_keys 2 s)%nat.
Proof.
  destruct example_run as (s & Hs & Ht). exists s. split; [exact Ht|].
  apply (threads_finish example_keys 2 None s); [by repeat constructor|reflexivity|exact (run_list_reachable _ _ _ _ _ _ Hs)|].
  exact (ex_intro _ 0%nat (ex_intro _ (PMalloc 1) (conj Ht eq_refl))).
Defined.

End Ph.
