(* ===== verification/Rtc.v ===== *)
(** * The real-time clock (lapic.c)

    [cmostime] reads the date from the clock of the machine, register by register, while the
    clock goes on.  [clk n reg] is what the hardware returns at the [n]th read, for register
    [reg]; the state is the number of reads so far.

    Shown: if the clock changes at most once in the time of 26 reads, which take microseconds,
    and does not report an update in progress, [cmostime] returns, and what it returns is a
    date that the clock showed, although it takes the parts of it one by one; the digits are
    converted from BCD if the clock uses it. *)

From S2P Require Export Prelude.
Local Open Scope Z_scope.

Module Rtc.

Definition CMOS_STATA : Z := 10.
Definition CMOS_STATB : Z := 11.
Definition CMOS_UIP : Z := 128.
Definition SECS : Z := 0.
Definition MINS : Z := 2.
Definition HOURS : Z := 4.
Definition DAY : Z := 7.
Definition MONTH : Z := 8.
Definition YEAR : Z := 9.

Record rtcdate : Type := mkdate { second : Z; minute : Z; hour : Z; day : Z; month : Z; year : Z }.

#[export] Instance rtcdate_eq_dec : EqDecision rtcdate.
Proof. solve_decision. Defined.

Section Clock.
Context (clk : nat -> Z -> Z).

Definition cmos_read (reg : Z) : K nat Z := fun n => Ret (clk n reg) (S n).

Definition fill_rtcdate : K nat rtcdate :=
  s ← cmos_read SECS;
  m ← cmos_read MINS;
  h ← cmos_read HOURS;
  d ← cmos_read DAY;
  mo ← cmos_read MONTH;
  y ← cmos_read YEAR;
  mret (mkdate s m h d mo y).

(** Make sure CMOS doesn't modify time while we read it. *)
Fixpoint read_loop (fuel : nat) : K nat rtcdate :=
  match fuel with
  | O => sleep_on (ChSpin 0)
  | S fuel =>
      t1 ← fill_rtcdate;
      a ← cmos_read CMOS_STATA;
      if truthy (Z.land a CMOS_UIP) then read_loop fuel else
      t2 ← fill_rtcdate;
      if decide (t1 = t2) then mret t1 else read_loop fuel
  end.

Definition CONV (x : Z) : Z := u32 (Z.shiftr x 4 * 10 + Z.land x 15).
Definition conv (t : rtcdate) : rtcdate :=
  mkdate (CONV (second t)) (CONV (minute t)) (CONV (hour t)) (CONV (day t)) (CONV (month t)) (CONV (year t)).

Definition cmostime (fuel : nat) : K nat rtcdate :=
  sb ← cmos_read CMOS_STATB;
  let bcd := Z.land sb (Z.shiftl 1 2) =? 0 in
  t1 ← read_loop fuel;
  let t1 := if bcd then conv t1 else t1 in
  mret (mkdate (second t1) (minute t1) (hour t1) (day t1) (month t1) (year t1 +u 2000)).

(** ** What it returns *)

(** The date in the registers at a read. *)
Definition shown (n : nat) : rtcdate := mkdate (clk n SECS) (clk n MINS) (clk n HOURS) (clk n DAY) (clk n MONTH) (clk n YEAR).

(** [t] as the clock counts: converted, and from the year 2000 on. *)
Definition date_of (bcd : bool) (t : rtcdate) : rtcdate :=
  let t := if bcd then conv t else t in mkdate (second t) (minute t) (hour t) (day t) (month t) (year t +u 2000).

Lemma fill_eq n : fill_rtcdate n =
  Ret (mkdate (second (shown n)) (minute (shown (1 + n))) (hour (shown (2 + n))) (day (shown (3 + n))) (month (shown (4 + n))) (year (shown (5 + n)))) (6 + n)%nat.
Proof. done. Qed.

(** Six reads while the clock shows the same. *)
Lemma fill_steady n t : (forall i, (i < 6)%nat -> shown (i + n) = t) -> fill_rtcdate n = Ret t (6 + n)%nat.
Proof.
  intros Hs. rewrite fill_eq. pose proof (Hs 0%nat ltac:(lia)) as H0. cbn [Nat.add] in H0.
  rewrite H0, !Hs by lia. by destruct t.
Qed.

(** A round of the loop without an update in progress: two readings. *)
Lemma read_loop_round fuel n : Z.land (clk (6 + n) CMOS_STATA) CMOS_UIP = 0 ->
  exists t1 t2, fill_rtcdate n = Ret t1 (6 + n)%nat /\ fill_rtcdate (7 + n)%nat = Ret t2 (13 + n)%nat /\
    read_loop (S fuel) n = if decide (t1 = t2) then Ret t1 (13 + n)%nat else read_loop fuel (13 + n)%nat.
Proof.
  intros Hu. do 2 eexists. split; [apply fill_eq|]. split; [apply fill_eq|].
  change (read_loop (S fuel) n) with ((t1 ← fill_rtcdate; a ← cmos_read CMOS_STATA;
    if truthy (Z.land a CMOS_UIP) then read_loop fuel else t2 ← fill_rtcdate; if decide (t1 = t2) then mret t1 else read_loop fuel) n).
  unfold mbind at 1, K_bind at 1. rewrite fill_eq. unfold mbind at 1, K_bind at 1, cmos_read. rewrite Hu. change (truthy 0) with false. cbv iota.
  unfold mbind, K_bind. rewrite fill_eq. change (S (6 + n)) with (7 + n)%nat. destruct (decide _); reflexivity.
Qed.

Section Change.
Context (n k : nat) (old new : rtcdate).
Hypothesis Hs : forall i, (i < 26)%nat -> shown (i + n) = if decide (i < k)%nat then old else new.
Hypothesis Hu : forall i, (i < 26)%nat -> Z.land (clk (i + n) CMOS_STATA) CMOS_UIP = 0.

(** The loop ends after two rounds at most, with a date that was shown. *)
Lemma read_loop_shown fuel : exists t n' i, read_loop (S (S fuel)) n = Ret t n' /\ (i < 26)%nat /\ t = shown (i + n).
Proof.
  destruct (read_loop_round (S fuel) n (Hu 6 ltac:(lia))) as (t1 & t2 & H1 & H2 & ->).
  assert (k <= 7 -> t2 = new)%nat as Hnew.
  { intros Hk. rewrite (fill_steady (7 + n) new) in H2; [by injection H2 as <-|]. intros i Hi. replace (i + (7 + n))%nat with (i + 7 + n)%nat by lia.
    rewrite Hs, decide_False by lia. done. }
  assert (6 <= k -> t1 = old)%nat as Hold.
  { intros Hk. rewrite (fill_steady n old) in H1; [by injection H1 as <-|]. intros i Hi. by rewrite Hs, decide_True by lia. }
  case_decide as He.
  - destruct (decide (k <= 7)%nat) as [Hk|Hk].
    + exists t1, (13 + n)%nat, 7%nat. split_and!; [done|lia|]. rewrite He, (Hnew Hk), Hs, decide_False by lia. done.
    + exists t1, (13 + n)%nat, 0%nat. split_and!; [done|lia|]. rewrite Hold by lia. by rewrite Hs, decide_True by lia.
  - assert (k <= 13)%nat as Hk.
    { destruct (decide (k <= 13)%nat); [done|]. destruct He. rewrite Hold by lia.
      rewrite (fill_steady (7 + n) old) in H2; [by injection H2 as <-|]. intros i Hi. replace (i + (7 + n))%nat with (i + 7 + n)%nat by lia.
      by rewrite Hs, decide_True by lia. }
    assert (Z.land (clk (6 + (13 + n)) CMOS_STATA) CMOS_UIP = 0) as Hu' by (apply (Hu 19); lia).
    destruct (read_loop_round fuel (13 + n) Hu') as (t3 & t4 & H3 & H4 & ->).
    rewrite (fill_steady (13 + n) new) in H3; [|intros i Hi; replace (i + (13 + n))%nat with (i + 13 + n)%nat by lia; by rewrite Hs, decide_False by lia].
    rewrite (fill_steady (7 + (13 + n)) new) in H4; [|intros i Hi; replace (i + (7 + (13 + n)))%nat with (i + 20 + n)%nat by lia; by rewrite Hs, decide_False by lia].
    injection H3 as <-. injection H4 as <-. rewrite decide_True by done. exists new, (13 + (13 + n))%nat, 13%nat. split_and!; [done|lia|].
    by rewrite Hs, decide_False by lia.
Qed.
End Change.

End Clock.

(** If the clock changes at most once during the reads and reports no update in progress,
    [cmostime] returns a date that the clock showed at one of them, converted and counted
    from the year 2000, although it reads the six parts of the date one after the other. *)
Theorem cmostime_shown clk n k old new fuel :
  (forall i, (i < 26)%nat -> shown clk (i + S n) = if decide (i < k)%nat then old else new) ->
  (forall i, (i < 26)%nat -> Z.land (clk (i + S n)%nat CMOS_STATA) CMOS_UIP = 0) ->
  exists n' i, (i < 26)%nat /\
    cmostime clk (S (S fuel)) n = Ret (date_of (Z.land (clk n CMOS_STATB) 4 =? 0) (shown clk (i + S n))) n'.
Proof.
  intros Hs Hu. destruct (read_loop_shown clk (S n) k old new Hs Hu fuel) as (t & n' & i & Hr & Hi & ->).
  exists n', i. split; [done|]. unfold cmostime, mbind, K_bind. cbn [cmos_read]. unfold cmos_read. by rewrite Hr.
Qed.

(** The conversion undoes the encoding in two decimal digits. *)
Definition bcd_of (x : Z) : Z := 16 * (x / 10) + x mod 10.

Lemma CONV_bcd x : 0 <= x < 100 -> CONV (bcd_of x) = x.
Proof.
  intros Hx. assert (forallb (fun x => CONV (bcd_of x) =? x) (seqZ 0 100) = true) as Hall by (vm_compute; reflexivity).
  apply Z.eqb_eq. exact (proj1 (forallb_forall _ _) Hall x (proj1 (list_elem_of_In _ _) (proj2 (elem_of_seqZ 0 100 x) ltac:(lia)))).
Qed.

(** A clock that goes from 23:59:59 to midnight before the fifth read. *)
Definition clock0 (n : nat) (reg : Z) : Z :=
  if reg =? CMOS_STATB then 2 else if reg =? CMOS_STATA then 38 else
  if (n <? 5)%nat then (if reg =? HOURS then 35 else if reg =? DAY then 49 else if reg =? MONTH then 18 else if reg =? YEAR then 37 else 89)
  else (if reg =? DAY then 1 else if reg =? MONTH then 1 else if reg =? YEAR then 38 else 0).

Lemma cmostime_shown_witness : exists n' i, (i < 26)%nat /\
  cmostime clock0 2 0%nat = Ret (date_of true (shown clock0 (i + 1))) n'.
Proof.
  destruct (cmostime_shown clock0 0 4 (shown clock0 0) (shown clock0 9) 0) as (n' & i & Hi & He).
  - intros i Hi. do 26 (destruct i as [|i]; [vm_compute; reflexivity|]). exfalso. apply Nat.ltb_lt in Hi. discriminate.
  - intros i Hi. do 26 (destruct i as [|i]; [vm_compute; reflexivity|]). exfalso. apply Nat.ltb_lt in Hi. discriminate.
  - exists n', i. split; [exact Hi|exact He].
Defined.

End Rtc.
