(* ===== verification/Desc.v ===== *)
(** * Descriptors: segments, gates, the task state (mmu.h, trap.c, vm.c)

    The tables that tell the CPU where to go on an interrupt and which memory a segment has.
    mmu.h declares their entries as bit fields; [segdesc_bits] and [gatedesc_bits] lay the
    fields out as the compiler does, lowest bits first.  What the CPU makes of 64 such bits,
    as its manual says, is [seg_of] and [gate_of], and [int_from] is an [int] instruction.

    Shown: the fields of a descriptor are where the CPU looks for them; after [seginit] all
    four segments are the whole address space, those of user programs with user privilege;
    after [tvinit] a user program can enter the kernel only by the system call, and an
    interrupt enters the handler of its number with interrupts off; and [switchuvm] points
    the CPU at the kernel stack of the process. *)

From S2P Require Export Prelude.
Local Open Scope Z_scope.

Module Desc.

(** ** Bit fields *)

Fixpoint pack (l : list (Z * Z)) : Z :=
  match l with [] => 0 | (w, v) :: l => v mod 2 ^ w + 2 ^ w * pack l end.
Definition bits (x off w : Z) : Z := x / 2 ^ off mod 2 ^ w.

Definition SEG_KCODE : Z := 1.
Definition SEG_KDATA : Z := 2.
Definition SEG_UCODE : Z := 3.
Definition SEG_UDATA : Z := 4.
Definition SEG_TSS : Z := 5.
Definition NSEGS : nat := 6.
Definition DPL_USER : Z := 3.
Definition STA_X : Z := 8.
Definition STA_W : Z := 2.
Definition STA_R : Z := 2.
Definition STS_T32A : Z := 9.
Definition STS_IG32 : Z := 14.
Definition STS_TG32 : Z := 15.
Definition T_SYSCALL : nat := 64.
Definition KSTACKSIZE : Z := 4096.

Record segdesc : Type := mkseg {
  lim_15_0 : Z; base_15_0 : Z; base_23_16 : Z; sd_type : Z; sd_s : Z; sd_dpl : Z; sd_p : Z;
  lim_19_16 : Z; avl : Z; sd_rsv1 : Z; db : Z; g : Z; base_31_24 : Z
}.

Definition segdesc_bits (d : segdesc) : Z :=
  pack [(16, lim_15_0 d); (16, base_15_0 d); (8, base_23_16 d); (4, sd_type d); (1, sd_s d); (2, sd_dpl d); (1, sd_p d);
        (4, lim_19_16 d); (1, avl d); (1, sd_rsv1 d); (1, db d); (1, g d); (8, base_31_24 d)].

(** Normal segment *)
Definition SEG (type base lim dpl : Z) : segdesc :=
  mkseg (Z.land (Z.shiftr lim 12) 65535) (Z.land (u32 base) 65535)
    (Z.land (Z.shiftr (u32 base) 16) 255) type 1 dpl 1
    (Z.shiftr (u32 lim) 28) 0 0 1 1 (Z.shiftr (u32 base) 24).
Definition SEG16 (type base lim dpl : Z) : segdesc :=
  mkseg (Z.land lim 65535) (Z.land (u32 base) 65535)
    (Z.land (Z.shiftr (u32 base) 16) 255) type 1 dpl 1
    (Z.shiftr (u32 lim) 16) 0 0 1 0 (Z.shiftr (u32 base) 24).

Record gatedesc : Type := mkgate {
  off_15_0 : Z; gd_cs : Z; args : Z; gd_rsv1 : Z; gd_type : Z; gd_s : Z; gd_dpl : Z; gd_p : Z; off_31_16 : Z
}.

Definition gatedesc_bits (d : gatedesc) : Z :=
  pack [(16, off_15_0 d); (16, gd_cs d); (5, args d); (3, gd_rsv1 d); (4, gd_type d); (1, gd_s d); (2, gd_dpl d); (1, gd_p d); (16, off_31_16 d)].

(** Set up a normal interrupt/trap gate descriptor. *)
Definition SETGATE (istrap : bool) (sel off d : Z) : gatedesc :=
  mkgate (Z.land (u32 off) 65535) sel 0 0 (if istrap then STS_TG32 else STS_IG32) 0 d 1 (Z.shiftr (u32 off) 16).

(** ** The tables *)

(** The part of the task state that is used. *)
Record taskstate : Type := mkts { esp0 : Z; ss0 : Z; iomb : Z }.

(** [lgdt], [lidt], [ltr] and [lcr3] load registers of the CPU. *)
Record cpu : Type := mkcpu {
  gdt : list segdesc; idt : list gatedesc; ts : taskstate;
  gdtr : bool; idtr : bool; tr : Z; cr3 : Z
}.
Definition set_gdt (l : list segdesc) (c : cpu) : cpu := mkcpu l (idt c) (ts c) (gdtr c) (idtr c) (tr c) (cr3 c).
Definition set_idt (l : list gatedesc) (c : cpu) : cpu := mkcpu (gdt c) l (ts c) (gdtr c) (idtr c) (tr c) (cr3 c).

Definition seginit (c : cpu) : cpu :=
  let c := set_gdt (<[Z.to_nat SEG_KCODE := SEG (Z.lor STA_X STA_R) 0 4294967295 0]> (gdt c)) c in
  let c := set_gdt (<[Z.to_nat SEG_KDATA := SEG STA_W 0 4294967295 0]> (gdt c)) c in
  let c := set_gdt (<[Z.to_nat SEG_UCODE := SEG (Z.lor STA_X STA_R) 0 4294967295 DPL_USER]> (gdt c)) c in
  let c := set_gdt (<[Z.to_nat SEG_UDATA := SEG STA_W 0 4294967295 DPL_USER]> (gdt c)) c in
  mkcpu (gdt c) (idt c) (ts c) true (idtr c) (tr c) (cr3 c).

Section Tables.
Context (vectors : nat -> Z).  (* the entry points of vectors.S *)

Fixpoint tvinit_loop (n i : nat) (c : cpu) : cpu :=
  match n with
  | O => c
  | S n => tvinit_loop n (S i) (set_idt (<[i := SETGATE false (Z.shiftl SEG_KCODE 3) (vectors i) 0]> (idt c)) c)
  end.
Definition tvinit (c : cpu) : cpu :=
  let c := tvinit_loop 256 0 c in
  set_idt (<[T_SYSCALL := SETGATE true (Z.shiftl SEG_KCODE 3) (vectors T_SYSCALL) DPL_USER]> (idt c)) c.
End Tables.

Definition idtinit (c : cpu) : cpu := mkcpu (gdt c) (idt c) (ts c) (gdtr c) true (tr c) (cr3 c).

Definition switchkvm (kpgdir_pa : Z) (c : cpu) : cpu := mkcpu (gdt c) (idt c) (ts c) (gdtr c) (idtr c) (tr c) kpgdir_pa.

(** What [switchuvm] does after its checks; [ts_addr] is the address of the task state. *)
Definition switch_task (ts_addr kstack pgdir_pa : Z) (c : cpu) : cpu :=
  let d := SEG16 STS_T32A ts_addr (104 - 1) 0 in
  let d := mkseg (lim_15_0 d) (base_15_0 d) (base_23_16 d) (sd_type d) 0 (sd_dpl d) (sd_p d) (lim_19_16 d) (avl d) (sd_rsv1 d) (db d) (g d) (base_31_24 d) in
  mkcpu (<[Z.to_nat SEG_TSS := d]> (gdt c)) (idt c) (mkts (kstack +u KSTACKSIZE) (Z.shiftl SEG_KDATA 3) 65535)
    (gdtr c) (idtr c) (Z.shiftl SEG_TSS 3) pgdir_pa.

(** ** What the CPU makes of a descriptor *)

Record seg : Type := mksegv { v_base : Z; v_last : Z; v_type : Z; v_app : bool; v_dpl : Z; v_present : bool }.
Definition seg_of (x : Z) : seg :=
  let lim := bits x 0 16 + 2 ^ 16 * bits x 48 4 in
  mksegv (bits x 16 24 + 2 ^ 24 * bits x 56 8) (if bits x 55 1 =? 1 then 4096 * lim + 4095 else lim)
    (bits x 40 4) (bits x 44 1 =? 1) (bits x 45 2) (bits x 47 1 =? 1).

Record gate : Type := mkgatev { g_off : Z; g_sel : Z; g_type : Z; g_dpl : Z; g_present : bool }.
Definition gate_of (x : Z) : gate :=
  mkgatev (bits x 0 16 + 2 ^ 16 * bits x 48 16) (bits x 16 16) (bits x 40 4) (bits x 45 2) (bits x 47 1 =? 1).

(** [int n] of a program with privilege [cpl]: the handler entered and whether interrupts are
    turned off, or a fault. *)
Definition int_from (cpl : Z) (c : cpu) (n : nat) : option (Z * Z * bool) :=
  match idt c !! n with
  | Some d =>
      let v := gate_of (gatedesc_bits d) in
      if (g_present v && (cpl <=? g_dpl v))%bool then Some (g_sel v, g_off v, g_type v =? STS_IG32) else None
  | None => None
  end.

(** ** The layout *)

Fixpoint widths (l : list (Z * Z)) : Z := match l with [] => 0 | (w, _) :: l => w + widths l end.

Lemma pack_app l k : Forall (fun f => 0 <= f.1) l -> pack (l ++ k) = pack l + 2 ^ widths l * pack k /\ 0 <= pack l < 2 ^ widths l /\ 0 <= widths l.
Proof.
  intros Hl. induction l as [|[w v] l IH]; cbn [pack app widths].
  - split; [|lia]. change (2 ^ 0) with 1. lia.
  - apply Forall_cons in Hl as [Hw Hl]. cbn in Hw. destruct (IH Hl) as (IH1 & IH2 & IH3). rewrite IH1, Z.pow_add_r by lia.
    pose proof (Z.mod_pos_bound v (2 ^ w) ltac:(apply Z.pow_pos_nonneg; lia)). split; [lia|]. split; [|lia]. nia.
Qed.

(** A field is found at its place. *)
Lemma bits_pack l w v k : Forall (fun f => 0 <= f.1) l -> 0 <= w -> bits (pack (l ++ (w, v) :: k)) (widths l) w = v mod 2 ^ w.
Proof.
  intros Hl Hw. destruct (pack_app l ((w, v) :: k) Hl) as (H1 & H2 & H3). rewrite H1. unfold bits. cbn [pack].
  rewrite (Z.mul_comm (2 ^ widths l)), Z.div_add, Z.div_small, Z.add_0_l by lia.
  rewrite (Z.mul_comm (2 ^ w)), Z.mod_add by (apply Z.pow_nonzero; lia). by apply Z.mod_mod, Z.pow_nonzero.
Qed.

(** [off] split into halves and put together again. *)
Lemma halves x : 0 <= x < 2 ^ 32 -> Z.land x 65535 mod 2 ^ 16 + 2 ^ 16 * (Z.shiftr x 16 mod 2 ^ 16) = x.
Proof.
  intros Hx. change 65535 with (Z.ones 16). rewrite Z.land_ones, Z.shiftr_div_pow2, Z.mod_mod by lia.
  rewrite (Z.mod_small (x / 2 ^ 16)) by (split; [apply Z.div_pos; lia|apply Z.div_lt_upper_bound; lia]).
  pose proof (Z.div_mod x (2 ^ 16) ltac:(lia)). lia.
Qed.

(** A gate that [SETGATE] sets up is the gate asked for. *)
Lemma SETGATE_gate istrap sel off d : 0 <= off < 2 ^ 32 -> 0 <= sel < 2 ^ 16 -> 0 <= d < 4 ->
  gate_of (gatedesc_bits (SETGATE istrap sel off d)) = mkgatev off sel (if istrap then STS_TG32 else STS_IG32) d true.
Proof.
  intros Hoff Hsel Hd. unfold gate_of, gatedesc_bits, SETGATE. cbn [off_15_0 gd_cs args gd_rsv1 gd_type gd_s gd_dpl gd_p off_31_16]. rewrite u32_small by lia.
  set (l := [(16, _); (16, _); _; _; _; _; _; _; _]).
  assert (Forall (fun f => 0 <= f.1) l) as Hall by (repeat constructor; cbn; lia).
  assert (forall i w v, l !! i = Some (w, v) -> bits (pack l) (widths (take i l)) w = v mod 2 ^ w) as Hf.
  { intros i w v Hi. rewrite <- (take_drop_middle l i (w, v) Hi) at 1. apply bits_pack; [by apply Forall_take|].
    exact (proj1 (Forall_lookup _ _) Hall i (w, v) Hi). }
  pose proof (Hf 0%nat _ _ eq_refl) as F0. pose proof (Hf 1%nat _ _ eq_refl) as F1. pose proof (Hf 4%nat _ _ eq_refl) as F4.
  pose proof (Hf 6%nat _ _ eq_refl) as F6. pose proof (Hf 7%nat _ _ eq_refl) as F7. pose proof (Hf 8%nat _ _ eq_refl) as F8.
  change (widths (take 0 l)) with 0 in F0. change (widths (take 1 l)) with 16 in F1. change (widths (take 4 l)) with 40 in F4.
  change (widths (take 6 l)) with 45 in F6. change (widths (take 7 l)) with 47 in F7. change (widths (take 8 l)) with 48 in F8.
  rewrite F0, F1, F4, F6, F7, F8.
  rewrite halves by done. rewrite (Z.mod_small sel), (Z.mod_small d) by lia. by destruct istrap.
Qed.

(** ** Entering the kernel *)

Lemma tvinit_loop_lookup vectors n i c j : (i + n <= length (idt c))%nat ->
  idt (tvinit_loop vectors n i c) !! j =
  if decide (i <= j < i + n)%nat then Some (SETGATE false (Z.shiftl SEG_KCODE 3) (vectors j) 0) else idt c !! j.
Proof.
  revert i c. induction n as [|n IH]; intros i c Hl; cbn [tvinit_loop].
  - rewrite decide_False by lia. done.
  - rewrite IH by (cbn; rewrite length_insert; lia). cbn [idt set_idt]. destruct (decide (j = i)) as [->|Hne].
    + rewrite decide_False, decide_True by lia. apply list_lookup_insert_eq. lia.
    + rewrite list_lookup_insert_ne by done. by repeat case_decide; try lia.
Qed.

(** C33: After [tvinit] a user program can enter the kernel by the system call and by no other
    software interrupt; and an interrupt or exception enters the handler of its number, in the
    kernel's code segment, with further interrupts off unless it is the system call. *)
Theorem tvinit_entries vectors c n :
  (forall i, 0 <= vectors i < 2 ^ 32) -> length (idt c) = 256%nat -> (n < 256)%nat ->
  int_from DPL_USER (tvinit vectors c) n = (if decide (n = T_SYSCALL) then Some (8, vectors T_SYSCALL, false) else None) /\
  int_from 0 (tvinit vectors c) n = Some (8, vectors n, bool_decide (n <> T_SYSCALL)).
Proof.
  intros Hv Hl Hn. unfold int_from, tvinit. cbn [idt set_idt].
  assert (length (idt (tvinit_loop vectors 256 0 c)) = 256%nat) as Hlen.
  { apply Nat.le_antisymm.
    - apply lookup_ge_None. rewrite tvinit_loop_lookup by lia. rewrite decide_False by lia. apply lookup_ge_None. lia.
    - assert (is_Some (idt (tvinit_loop vectors 256 0 c) !! 255%nat)) as H%lookup_lt_is_Some; [|lia].
      rewrite tvinit_loop_lookup by lia. by rewrite decide_True by lia. }
  destruct (decide (n = T_SYSCALL)) as [->|Hne].
  - rewrite list_lookup_insert_eq by (rewrite Hlen; unfold T_SYSCALL; lia). rewrite SETGATE_gate; [|apply Hv|change (Z.shiftl SEG_KCODE 3) with 8; lia|unfold DPL_USER; lia].
    split; reflexivity.
  - rewrite list_lookup_insert_ne by done. rewrite tvinit_loop_lookup by lia. rewrite decide_True by lia.
    rewrite SETGATE_gate; [|apply Hv|change (Z.shiftl SEG_KCODE 3) with 8; lia|lia].
    cbn [g_present g_dpl g_sel g_off g_type andb]. rewrite bool_decide_eq_true_2 by exact Hne. split; reflexivity.
Qed.

(** The segments after [seginit]: all of the address space, for the kernel and for users. *)
Theorem seginit_segments c i : length (gdt c) = NSEGS -> 1 <= i <= 4 ->
  exists d, gdt (seginit c) !! Z.to_nat i = Some d /\
    seg_of (segdesc_bits d) = mksegv 0 4294967295 (if Z.odd i then 10 else 2) true (if i <=? 2 then 0 else DPL_USER) true.
Proof.
  intros Hl Hi. destruct c as [l ? ? ? ? ? ?]. cbn in Hl. unfold NSEGS in Hl. destruct l as [|d0 [|d1 [|d2 [|d3 [|d4 [|d5 [|]]]]]]]; try done.
  assert (i = 1 \/ i = 2 \/ i = 3 \/ i = 4) as [-> |[-> |[-> | ->]]] by lia; (eexists; split; [reflexivity|vm_compute; reflexivity]).
Qed.

(** After [switchuvm] the task segment is the task state, and a trap from user mode starts at
    the top of the kernel stack of the process. *)
Lemma switch_task_state ts_addr kstack pgdir c : 0 <= ts_addr < 2 ^ 32 -> length (gdt c) = NSEGS ->
  let c' := switch_task ts_addr kstack pgdir c in
  esp0 (ts c') = kstack +u KSTACKSIZE /\ ss0 (ts c') = 16 /\ cr3 c' = pgdir /\ tr c' = 40 /\
  exists d, gdt c' !! Z.to_nat SEG_TSS = Some d /\ lim_15_0 d = 103 /\ sd_s d = 0 /\ sd_type d = STS_T32A /\
    base_15_0 d + 2 ^ 16 * base_23_16 d + 2 ^ 24 * base_31_24 d = ts_addr.
Proof.
  intros Ha Hl. cbn zeta. split_and!; [done|done|done|done|]. eexists. split; [apply list_lookup_insert_eq; rewrite Hl; apply Nat.ltb_lt; reflexivity|].
  cbn [lim_15_0 sd_s sd_type base_15_0 base_23_16 base_31_24]. split_and!; [done|done|done|]. unfold SEG16. cbn [base_15_0 base_23_16 base_31_24].
  rewrite u32_small by done. change 65535 with (Z.ones 16). change 255 with (Z.ones 8). rewrite !Z.land_ones, !Z.shiftr_div_pow2 by lia.
  change (2 ^ 16) with 65536. change (2 ^ 8) with 256. change (2 ^ 24) with 16777216. Z.to_euclidean_division_equations. lia.
Qed.

Definition vectors0 (i : nat) : Z := 2148532224 + 16 * (Z.of_nat i mod 256).
Definition cpu0 : cpu := mkcpu (replicate 6 (SEG 0 0 0 0)) (replicate 256 (SETGATE false 0 0 0)) (mkts 0 0 0) false false 0 0.

Lemma tvinit_entries_witness :
  int_from DPL_USER (tvinit vectors0 cpu0) 64 = Some (8, vectors0 64, false) /\ int_from DPL_USER (tvinit vectors0 cpu0) 14 = None.
Proof.
  assert (forall i, 0 <= vectors0 i < 2 ^ 32) as Hv by (intros i; unfold vectors0; pose proof (Z.mod_pos_bound (Z.of_nat i) 256); lia).
  split.
  - exact (proj1 (tvinit_entries vectors0 cpu0 64 Hv eq_refl ltac:(apply Nat.ltb_lt; reflexivity))).
  - exact (proj1 (tvinit_entries vectors0 cpu0 14 Hv eq_refl ltac:(apply Nat.ltb_lt; reflexivity))).
Defined.

End Desc.
