(* ===== verification/Pipe.v ===== *)
(** * Pipes

    [struct pipe] of pipe.c with [pipeclose], [pipewrite] and [piperead].  The
    pipe's spin-lock makes the code between two calls of [sleep] atomic, so a
    function is modelled as the segment it runs before it returns or sleeps,
    with the point it resumes from; [System] interleaves such segments of any
    number of readers and writers, with the wakeups they issue.

    Shown: the circular buffer with its wrapping 32 bit counters implements a
    bounded queue, every interleaving delivers the bytes in the order they were
    written, and a process asleep on the pipe really has to wait. *)

From S2P Require Export Bytes.
Local Open Scope Z_scope.

Module Pipe.

Definition PIPESIZE : Z := 512.

Record pipe : Type := mkpipe {
  data : list Z;
  nread : Z;       (* number of bytes read *)
  nwrite : Z;      (* number of bytes written *)
  readopen : bool; (* read fd is still open *)
  writeopen : bool (* write fd is still open *)
}.

(** ** The code *)

(** The pipe as [pipealloc] initialises it, in a page of arbitrary contents. *)
Definition pipe_init (page : list Z) : pipe :=
  {| data := page; nread := 0; nwrite := 0; readopen := true; writeopen := true |}.

Definition pipe_full (p : pipe) : bool := nwrite p =? (nread p +u PIPESIZE).

(** [p->data[p->nwrite++ % PIPESIZE] = c] *)
Definition pipe_put (c : Z) (p : pipe) : pipe :=
  {| data := <[Z.to_nat (nwrite p mod PIPESIZE) := c]> (data p); nread := nread p;
     nwrite := nwrite p +u 1; readopen := readopen p; writeopen := writeopen p |}.

(** [p->data[p->nread++ % PIPESIZE]] *)
Definition pipe_get (p : pipe) : Z * pipe :=
  (default 0 (data p !! Z.to_nat (nread p mod PIPESIZE)),
   {| data := data p; nread := nread p +u 1; nwrite := nwrite p;
      readopen := readopen p; writeopen := writeopen p |}).

Inductive wait := OnRead | OnWrite.

Definition wait_eqb (a b : wait) : bool :=
  match a, b with OnRead, OnRead | OnWrite, OnWrite => true | _, _ => false end.

(** How a segment of [pipewrite] ends: it returns [n], returns -1, or sleeps on
    [&p->nwrite]; [rest] is [addr + i], the bytes it has not written. *)
Inductive wresult := WDone | WError (rest : list Z) | WSleep (rest : list Z).

(** [pipewrite] from the byte it has reached; [killed] is [myproc()->killed],
    and the second component collects the calls to [wakeup]. *)
Fixpoint pipewrite (killed : bool) (addr : list Z) (p : pipe) : pipe * list wait * wresult :=
  match addr with
  | [] => (p, [OnRead], WDone)
  | c :: rest =>
      if pipe_full p then
        if (negb (readopen p) || killed)%bool then (p, [], WError addr)
        else (p, [OnRead], WSleep addr)
      else pipewrite killed rest (pipe_put c p)
  end.

Inductive rresult := RDone (got : list Z) | RError | RSleep.

(** The copy loop of [piperead]. *)
Fixpoint pipe_copy (n : nat) (p : pipe) : pipe * list Z :=
  match n with
  | O => (p, [])
  | S n =>
      if nread p =? nwrite p then (p, [])
      else let '(c, p1) := pipe_get p in
           let '(p2, got) := pipe_copy n p1 in (p2, c :: got)
  end.

Definition piperead (killed : bool) (n : nat) (p : pipe) : pipe * list wait * rresult :=
  if ((nread p =? nwrite p) && writeopen p)%bool then
    if killed then (p, [], RError) else (p, [], RSleep)
  else let '(p', got) := pipe_copy n p in (p', [OnWrite], RDone got).

(** [pipeclose]; the last component says whether the page is freed. *)
Definition pipeclose (writable : bool) (p : pipe) : pipe * list wait * bool :=
  let p' :=
    if writable then {| data := data p; nread := nread p; nwrite := nwrite p;
                        readopen := readopen p; writeopen := false |}
    else {| data := data p; nread := nread p; nwrite := nwrite p;
            readopen := false; writeopen := writeopen p |} in
  (p', [if writable then OnRead else OnWrite], negb (readopen p') && negb (writeopen p'))%bool.

(** ** The abstract queue *)

Definition used (p : pipe) : Z := nwrite p -u nread p.

Definition pipe_ok (p : pipe) : Prop :=
  length (data p) = 512%nat /\ 0 <= nread p < 2 ^ 32 /\ 0 <= nwrite p < 2 ^ 32 /\
  used p <= PIPESIZE.

Definition byte_at (p : pipe) (i : nat) : Z :=
  default 0 (data p !! Z.to_nat ((nread p + Z.of_nat i) mod PIPESIZE)).

(** The bytes in the pipe, oldest first. *)
Definition contents (p : pipe) : list Z := byte_at p <$> seq 0 (Z.to_nat (used p)).

Lemma pipe_init_ok page : length page = 512%nat -> pipe_ok (pipe_init page).
Proof. intros. unfold pipe_ok, used, pipe_init, PIPESIZE. cbn. split_and!; done || lia. Qed.

Lemma used_nonneg p : 0 <= used p.
Proof. apply u32_range. Qed.

Lemma length_contents p : length (contents p) = Z.to_nat (used p).
Proof. unfold contents. by rewrite length_fmap, length_seq. Qed.

Lemma full_used p : pipe_ok p -> pipe_full p = true <-> used p = PIPESIZE.
Proof.
  intros (_ & Hr & Hw & _). unfold pipe_full, used, PIPESIZE, u32. rewrite Z.eqb_eq.
  split; intros H.
  - rewrite H, Zminus_mod_idemp_l. replace (nread p + 512 - nread p) with 512 by lia. done.
  - rewrite <- H, Zplus_mod_idemp_r. replace (nread p + (nwrite p - nread p)) with (nwrite p) by lia.
    by rewrite Z.mod_small.
Qed.

Lemma empty_used p : pipe_ok p -> (nread p =? nwrite p) = true <-> used p = 0.
Proof.
  intros (_ & Hr & Hw & _). rewrite Z.eqb_eq. unfold used, u32. split; intros H.
  - rewrite H, Z.sub_diag. done.
  - apply Z.mod_divide in H as [k Hk]; lia.
Qed.

Lemma empty_contents p : pipe_ok p -> (nread p =? nwrite p) = true <-> contents p = [].
Proof.
  intros Hok. rewrite empty_used by done. rewrite <- length_zero_iff_nil, length_contents.
  pose proof (used_nonneg p). lia.
Qed.

Lemma put_used c p : pipe_ok p -> pipe_full p = false -> used (pipe_put c p) = used p + 1.
Proof.
  intros Hok Hf. assert (used p <> PIPESIZE) by (rewrite <- full_used by done; congruence).
  destruct Hok as (_ & _ & _ & Hu). pose proof (used_nonneg p).
  unfold used, pipe_put in *. cbn. rewrite u32_sub_l.
  replace (nwrite p + 1 - nread p) with (nwrite p - nread p + 1) by lia.
  rewrite <- u32_add_l. apply u32_small. unfold PIPESIZE in *. lia.
Qed.

(** Slots of the buffer in use are distinct. *)
Lemma slot_distinct p i :
  pipe_ok p -> 0 <= i < used p -> used p < PIPESIZE ->
  (nread p + i) mod PIPESIZE <> nwrite p mod PIPESIZE.
Proof.
  intros Hok Hi Hu Heq.
  assert (nwrite p mod PIPESIZE = (nread p + used p) mod PIPESIZE) as Hw.
  { unfold used. change PIPESIZE with (2 ^ 9).
    rewrite <- Zplus_mod_idemp_r, u32_mod_pow2, Zplus_mod_idemp_r by lia. f_equal. lia. }
  rewrite Hw in Heq. unfold PIPESIZE in *.
  assert ((used p - i) mod 512 = 0) as Hz.
  { replace (used p - i) with ((nread p + used p) - (nread p + i)) by lia.
    rewrite Zminus_mod, Heq, Z.sub_diag. done. }
  rewrite Z.mod_small in Hz by lia. lia.
Qed.

Lemma put_contents c p :
  pipe_ok p -> pipe_full p = false ->
  pipe_ok (pipe_put c p) /\ contents (pipe_put c p) = contents p ++ [c].
Proof.
  intros Hok Hf. pose proof (put_used c p Hok Hf) as Hpu.
  assert (used p <> PIPESIZE) by (rewrite <- full_used by done; congruence).
  pose proof Hok as (Hlen & Hr & Hw & Hu). pose proof (used_nonneg p).
  split.
  { unfold pipe_ok. rewrite Hpu. cbn [pipe_put data nread nwrite].
    rewrite length_insert. repeat split; try done; try apply u32_range; lia. }
  unfold contents. rewrite Hpu, Z2Nat.inj_add by lia. change (Z.to_nat 1) with 1%nat.
  rewrite seq_app, fmap_app. f_equal.
  - apply list_fmap_ext. intros i x Hx. apply lookup_seq in Hx as [-> Hi].
    unfold byte_at, pipe_put; cbn [data nread]. rewrite list_lookup_insert_ne; [done|].
    intros Heq. apply (slot_distinct p (Z.of_nat (0 + i))); try done; try lia.
    apply Z2Nat.inj in Heq; [done|apply Z.mod_pos_bound; unfold PIPESIZE; lia..].
  - cbn. f_equal. unfold byte_at, pipe_put; cbn [data nread].
    rewrite Z2Nat.id by lia.
    assert ((nread p + used p) mod PIPESIZE = nwrite p mod PIPESIZE) as ->.
    { unfold used. change PIPESIZE with (2 ^ 9).
      rewrite <- Zplus_mod_idemp_r, u32_mod_pow2, Zplus_mod_idemp_r by lia. f_equal. lia. }
    rewrite list_lookup_insert_eq; [done|]. rewrite Hlen.
    pose proof (Z.mod_pos_bound (nwrite p) PIPESIZE ltac:(unfold PIPESIZE; lia)).
    unfold PIPESIZE in *. lia.
Qed.

Lemma get_contents p :
  pipe_ok p -> (nread p =? nwrite p) = false ->
  pipe_ok (pipe_get p).2 /\ contents p = (pipe_get p).1 :: contents (pipe_get p).2.
Proof.
  intros Hok Hf. assert (used p <> 0) by (rewrite <- empty_used by done; congruence).
  pose proof Hok as (Hlen & Hr & Hw & Hu). pose proof (used_nonneg p).
  assert (used (pipe_get p).2 = used p - 1) as Hgu.
  { unfold used, pipe_get; cbn [nwrite nread snd]. rewrite u32_sub_r.
    replace (nwrite p - (nread p + 1)) with (nwrite p - nread p - 1) by lia.
    rewrite <- u32_sub_l. apply u32_small. unfold used, PIPESIZE in *. lia. }
  split.
  { unfold pipe_ok. rewrite Hgu. cbn [pipe_get snd data nread nwrite].
    repeat split; try done; try apply u32_range; lia. }
  unfold contents. rewrite Hgu.
  replace (Z.to_nat (used p)) with (S (Z.to_nat (used p - 1))) by lia.
  rewrite <- cons_seq, fmap_cons. f_equal.
  - unfold byte_at. cbn. by rewrite Z.add_0_r.
  - rewrite <- fmap_S_seq, <- list_fmap_compose. apply list_fmap_ext. intros i x _. cbn.
    unfold byte_at, pipe_get; cbn [data nread snd]. do 2 f_equal.
    change PIPESIZE with (2 ^ 9).
    rewrite <- (Zplus_mod_idemp_l (u32 _)), u32_mod_pow2, Zplus_mod_idemp_l by lia.
    do 2 f_equal. lia.
Qed.

(** ** The segments *)

Definition same_flags (p p' : pipe) : Prop :=
  readopen p' = readopen p /\ writeopen p' = writeopen p.

Definition wpost (killed : bool) (addr : list Z) (p p' : pipe) (wk : list wait) (r : wresult) : Prop :=
  exists w rest,
    addr = w ++ rest /\ pipe_ok p' /\ same_flags p p' /\ contents p' = contents p ++ w /\
    match r with
    | WDone => rest = [] /\ wk = [OnRead]
    | WError rest' =>
        rest' = rest /\ wk = [] /\ pipe_full p' = true /\ (readopen p = false \/ killed = true)
    | WSleep rest' =>
        rest' = rest /\ wk = [OnRead] /\ pipe_full p' = true /\ readopen p = true /\ killed = false
    end.

Lemma pipewrite_post killed addr p :
  pipe_ok p ->
  let '(p', wk, r) := pipewrite killed addr p in wpost killed addr p p' wk r.
Proof.
  revert p. induction addr as [|c addr IH]; intros p Hok; cbn [pipewrite].
  { exists [], []. unfold same_flags. split_and!; rewrite ?app_nil_r; auto. }
  destruct (pipe_full p) eqn:Hf.
  - destruct (readopen p) eqn:Hro; cbn; [destruct killed|];
      exists [], (c :: addr); unfold same_flags; split_and!; rewrite ?app_nil_r; auto.
  - destruct (put_contents c p Hok Hf) as [Hok' Hc]. specialize (IH _ Hok').
    destruct (pipewrite killed addr (pipe_put c p)) as [[p' wk] r].
    destruct IH as (w & rest & -> & Hok2 & Hfl & Hcont & Hr).
    exists (c :: w), rest. split; [done|]. split; [done|]. split; [done|].
    split; [by rewrite Hcont, Hc, <- app_assoc|done].
Qed.

Lemma pipe_copy_post n p :
  pipe_ok p ->
  let '(p', got) := pipe_copy n p in
  pipe_ok p' /\ same_flags p p' /\ contents p = got ++ contents p' /\
  length got = Nat.min n (length (contents p)).
Proof.
  revert p. induction n as [|n IH]; intros p Hok; cbn [pipe_copy]; [done|].
  destruct (nread p =? nwrite p) eqn:He.
  - split_and!; try done. apply empty_contents in He as ->; done.
  - destruct (get_contents p Hok He) as [Hok' Hc].
    destruct (pipe_get p) as [c p1] eqn:Hg. cbn in Hok', Hc. specialize (IH _ Hok').
    destruct (pipe_copy n p1) as [p2 got].
    destruct IH as (? & ? & Hc2 & Hl). split_and!; [done| |by rewrite Hc, Hc2|by rewrite Hc; cbn; lia].
    unfold pipe_get in Hg. by simplify_eq/=.
Qed.

Definition rpost (killed : bool) (n : nat) (p p' : pipe) (wk : list wait) (r : rresult) : Prop :=
  pipe_ok p' /\ same_flags p p' /\
  match r with
  | RDone got =>
      wk = [OnWrite] /\ contents p = got ++ contents p' /\
      length got = Nat.min n (length (contents p)) /\
      (contents p = [] -> writeopen p = false)
  | RError => wk = [] /\ p' = p /\ contents p = [] /\ killed = true
  | RSleep => wk = [] /\ p' = p /\ contents p = [] /\ writeopen p = true /\ killed = false
  end.

Lemma piperead_post killed n p :
  pipe_ok p ->
  let '(p', wk, r) := piperead killed n p in rpost killed n p p' wk r.
Proof.
  intros Hok. unfold piperead, rpost.
  destruct ((nread p =? nwrite p) && writeopen p)%bool eqn:Hc.
  - apply andb_prop in Hc as [He Hw]. apply empty_contents in He; [|done].
    destruct killed; done.
  - pose proof (pipe_copy_post n p Hok) as Hp. destruct (pipe_copy n p) as [p' got].
    destruct Hp as (? & ? & ? & ?). split_and!; try done.
    intros He. apply empty_contents in He; [|done]. rewrite He in Hc. done.
Qed.

(** ** Any number of readers and writers *)

Inductive thread : Type :=
  | Writer (asleep killed : bool) (rest : list Z)
  | Reader (asleep killed : bool) (n : nat)
  | Gone.

(** [wakeup]: every process asleep on a channel that is woken becomes runnable. *)
Definition wake (wk : list wait) (t : thread) : thread :=
  match t with
  | Writer true k rest => if existsb (wait_eqb OnWrite) wk then Writer false k rest else t
  | Reader true k n => if existsb (wait_eqb OnRead) wk then Reader false k n else t
  | _ => t
  end.

Definition is_writer (t : thread) : bool := match t with Writer _ _ _ => true | _ => false end.
Definition is_reader (t : thread) : bool := match t with Reader _ _ _ => true | _ => false end.

Definition after_write (killed : bool) (r : wresult) : thread :=
  match r with WSleep rest => Writer true killed rest | _ => Gone end.
Definition after_read (killed : bool) (n : nat) (r : rresult) : thread :=
  match r with RSleep => Reader true killed n | _ => Gone end.
Definition unwritten (r : wresult) : list Z :=
  match r with WDone => [] | WError rest => rest | WSleep rest => rest end.
Definition received (r : rresult) : list Z := match r with RDone got => got | _ => [] end.

(** The system: the pipe, the processes inside pipe calls, and the history of
    the bytes put into the pipe and taken out of it. *)
Record sys : Type := mksys {
  pp : pipe; threads : list thread; written : list Z; taken : list Z
}.

(** [kill] of a process is a step of its own; [may_kill] says whether it can happen.
    An end is closed when no process is left that holds its descriptor. *)
Inductive step (may_kill : bool) : sys -> sys -> Prop :=
  | step_start s t :
      (is_writer t = true -> writeopen (pp s) = true) ->
      (is_reader t = true -> readopen (pp s) = true) ->
      match t with Writer a k _ | Reader a k _ => a = false /\ k = false | Gone => False end ->
      step may_kill s (mksys (pp s) (threads s ++ [t]) (written s) (taken s))
  | step_write s i k addr p' wk r :
      threads s !! i = Some (Writer false k addr) ->
      pipewrite k addr (pp s) = (p', wk, r) ->
      step may_kill s
        (mksys p' (wake wk <$> <[i := after_write k r]> (threads s))
           (written s ++ take (length addr - length (unwritten r)) addr) (taken s))
  | step_read s i k n p' wk r :
      threads s !! i = Some (Reader false k n) ->
      piperead k n (pp s) = (p', wk, r) ->
      step may_kill s
        (mksys p' (wake wk <$> <[i := after_read k n r]> (threads s))
           (written s) (taken s ++ received r))
  | step_close s (writable : bool) p' wk freed :
      Forall (fun t => (if writable then is_writer t else is_reader t) = false) (threads s) ->
      pipeclose writable (pp s) = (p', wk, freed) ->
      step may_kill s (mksys p' (wake wk <$> threads s) (written s) (taken s))
  | step_kill s i t :
      may_kill = true -> threads s !! i = Some t ->
      step may_kill s
        (mksys (pp s)
           (<[i := match t with
                   | Writer _ _ rest => Writer false true rest
                   | Reader _ _ n => Reader false true n
                   | Gone => Gone
                   end]> (threads s)) (written s) (taken s)).

Definition initial (page : list Z) : sys := mksys (pipe_init page) [] [] [].

Definition reachable (may_kill : bool) (page : list Z) (s : sys) : Prop :=
  rtc (step may_kill) (initial page) s.

(** ** The invariant *)

(** What a process in the system may rely on, in terms of the pipe. *)
Definition thread_ok (may_kill : bool) (p : pipe) (t : thread) : Prop :=
  match t with
  | Writer asleep k _ =>
      writeopen p = true /\ (k = true -> may_kill = true) /\
      (asleep = true -> pipe_full p = true /\ readopen p = true)
  | Reader asleep k _ =>
      readopen p = true /\ (k = true -> may_kill = true) /\
      (asleep = true -> may_kill = false -> contents p = [] /\ writeopen p = true)
  | Gone => True
  end.

Definition sys_inv (may_kill : bool) (s : sys) : Prop :=
  pipe_ok (pp s) /\ written s = taken s ++ contents (pp s) /\
  Forall (thread_ok may_kill (pp s)) (threads s).

Lemma Forall_wake_insert mk p p' wk ts i t0 t :
  Forall (thread_ok mk p) ts -> ts !! i = Some t0 ->
  thread_ok mk p' (wake wk t) ->
  (forall t1, thread_ok mk p t1 -> thread_ok mk p' (wake wk t1)) ->
  Forall (thread_ok mk p') (wake wk <$> <[i := t]> ts).
Proof.
  intros Hts Hi Ht Hpres. apply Forall_fmap. unfold compose.
  apply Forall_insert; [|done]. eapply Forall_impl; [exact Hts|]. exact Hpres.
Qed.

Lemma write_step_inv mk s i k addr p' wk r :
  sys_inv mk s -> threads s !! i = Some (Writer false k addr) ->
  wpost k addr (pp s) p' wk r ->
  sys_inv mk (mksys p' (wake wk <$> <[i := after_write k r]> (threads s))
    (written s ++ take (length addr - length (unwritten r)) addr) (taken s)).
Proof.
  intros (Hok & Hhist & Hts) Hi (w & rest & -> & Hok' & [Hro Hwo] & Hc & Hr).
  pose proof (Forall_lookup_1 _ _ _ _ Hts Hi) as (Hopen & Hkill & _).
  assert (unwritten r = rest) as Hu by (destruct r; naive_solver).
  split; [done|]. split; cbn.
  { rewrite Hu, length_app, Hc, Hhist, <- app_assoc. do 2 f_equal.
    replace (length w + length rest - length rest)%nat with (length w) by lia.
    apply take_app_length. }
  assert (r = WDone \/ pipe_full p' = true) as Hfull by (destruct r; naive_solver).
  eapply Forall_wake_insert; [exact Hts|exact Hi| |].
  - destruct r; cbn; try done. destruct Hr as (_ & -> & Hf & Hro' & _). cbn.
    rewrite Hwo, Hro. done.
  - intros [a k' rest'|a k' n|]; cbn; [| |done].
    + intros (? & ? & Ha). destruct a; cbn; rewrite ?Hwo, ?Hro; [|done].
      case_cond; cbn; rewrite ?Hwo, ?Hro; [done|]. split_and!; [done..|]. intros _.
      destruct (Ha eq_refl) as [Hf ?]. split; [|done].
      destruct Hfull as [->|?]; [|done].
      apply full_used in Hf; [|done]. apply full_used; [done|].
      apply (f_equal length) in Hc. rewrite length_app, !length_contents in Hc.
      destruct Hok' as (_ & _ & _ & ?). pose proof (used_nonneg p'). lia.
    + intros (? & ? & Ha). destruct a; cbn; rewrite ?Hwo, ?Hro; [|done].
      destruct r; destruct Hr as (? & Hr); subst.
      * cbn. by rewrite Hro.
      * destruct Hr as (-> & _ & [?|?]); cbn; rewrite Hwo, Hro; [congruence|].
        split_and!; [done..|]. intros _ Hmk. specialize (Hkill ltac:(done)). congruence.
      * destruct Hr as (-> & _). cbn. by rewrite Hro.
Qed.

Lemma read_step_inv mk s i k n p' wk r :
  sys_inv mk s -> threads s !! i = Some (Reader false k n) ->
  rpost k n (pp s) p' wk r ->
  sys_inv mk (mksys p' (wake wk <$> <[i := after_read k n r]> (threads s))
    (written s) (taken s ++ received r)).
Proof.
  intros (Hok & Hhist & Hts) Hi (Hok' & [Hro Hwo] & Hr).
  pose proof (Forall_lookup_1 _ _ _ _ Hts Hi) as (Hopen & Hkill & _).
  split; [done|]. split; cbn.
  { rewrite Hhist. destruct r; cbn; rewrite ?app_nil_r.
    - destruct Hr as (_ & Hc & _). by rewrite Hc, app_assoc.
    - by destruct Hr as (_ & -> & _).
    - by destruct Hr as (_ & -> & _). }
  destruct r as [got| |].
  - destruct Hr as (-> & Hc & Hl & He). eapply Forall_wake_insert; [exact Hts|exact Hi|done|].
    intros [[] k' rest'|[] k' n'|]; cbn; rewrite ?Hwo, ?Hro; [naive_solver..| |naive_solver|done].
    intros (? & ? & Ha). split_and!; [done..|]. intros _ Hmk.
    destruct (Ha eq_refl Hmk) as [Hce ?]. rewrite Hce in Hc.
    symmetry in Hc. by apply app_eq_nil in Hc as [_ ->].
  - destruct Hr as (-> & -> & _). eapply Forall_wake_insert; [exact Hts|exact Hi|done|].
    by intros [[] ? ?|[] ? ?|].
  - destruct Hr as (-> & -> & ? & ? & ?). eapply Forall_wake_insert; [exact Hts|exact Hi| |].
    + done.
    + by intros [[] ? ?|[] ? ?|].
Qed.

Lemma close_step_inv mk s (writable : bool) p' wk freed :
  sys_inv mk s ->
  Forall (fun t => (if writable then is_writer t else is_reader t) = false) (threads s) ->
  pipeclose writable (pp s) = (p', wk, freed) ->
  sys_inv mk (mksys p' (wake wk <$> threads s) (written s) (taken s)).
Proof.
  intros (Hok & Hhist & Hts) Hno Hcl. unfold pipeclose in Hcl. simplify_eq.
  split; [by destruct writable|]. split; [by destruct writable|]. cbn.
  apply Forall_fmap. unfold compose.
  pose proof (proj2 (Forall_and _ _) (conj Hts Hno)) as Hboth.
  eapply Forall_impl; [exact Hboth|].
  intros [[] ? ?|[] ? ?|]; destruct writable; cbn; naive_solver.
Qed.

Lemma step_inv mk s s' : sys_inv mk s -> step mk s s' -> sys_inv mk s'.
Proof.
  intros Hinv Hstep. destruct Hstep as [s t Hw Hr Ht|s i k addr p' wk r Hi He|
    s i k n p' wk r Hi He|s writable p' wk freed Hno Hcl|s i t Hmk Hi].
  - destruct Hinv as (? & ? & Hts). split_and!; [done..|]. cbn. apply Forall_app.
    split; [done|]. apply Forall_singleton. destruct t; naive_solver.
  - apply write_step_inv; [done..|]. destruct Hinv as (Hok & _).
    pose proof (pipewrite_post k addr (pp s) Hok) as H. by rewrite He in H.
  - apply read_step_inv; [done..|]. destruct Hinv as (Hok & _).
    pose proof (piperead_post k n (pp s) Hok) as H. by rewrite He in H.
  - by eapply close_step_inv.
  - destruct Hinv as (? & ? & Hts). split_and!; [done..|]. cbn. apply Forall_insert; [done|].
    pose proof (Forall_lookup_1 _ _ _ _ Hts Hi) as Hti. destruct t; naive_solver.
Qed.

Lemma reachable_inv mk page s :
  length page = 512%nat -> reachable mk page s -> sys_inv mk s.
Proof.
  intros Hp Hr. remember (initial page) as s0 eqn:Hs0.
  assert (sys_inv mk s0) as Hi.
  { subst. split_and!; [by apply pipe_init_ok|done|constructor]. }
  unfold reachable in Hr. rewrite <- Hs0 in Hr. clear Hs0.
  induction Hr as [|s0 s1 s2 Hstep _ IH]; [done|]. apply IH. by eapply step_inv.
Qed.

(** ** Runs used as examples *)

Lemma run_reader_sleeps mk page :
  reachable mk page (mksys (pipe_init page) [Reader true false 1] [] []).
Proof.
  eapply rtc_l; [apply (step_start mk _ (Reader false false 1)); done|].
  eapply rtc_l; [eapply (step_read mk _ 0); done|]. constructor.
Qed.

(** A writer of more than 512 bytes does not return in one segment. *)
Lemma write_too_much k addr p p' wk r :
  pipe_ok p -> (512 < length addr)%nat -> pipewrite k addr p = (p', wk, r) ->
  (readopen p = true -> k = false -> r = WSleep (unwritten r) /\ wk = [OnRead]) /\
  (k = true -> r = WError (unwritten r) /\ wk = []).
Proof.
  intros Hok Hlen He. pose proof (pipewrite_post k addr p Hok) as Hp. rewrite He in Hp.
  destruct Hp as (w & rest & -> & Hok' & _ & Hc & Hr).
  apply (f_equal length) in Hc. rewrite length_app, !length_contents in Hc.
  rewrite length_app in Hlen. destruct Hok' as (_ & _ & _ & Hu). unfold PIPESIZE in Hu.
  destruct r.
  - destruct Hr as [-> _]. cbn in Hlen. lia.
  - destruct Hr as (-> & -> & _ & Hor). split; [|done]. intros. destruct Hor; congruence.
  - destruct Hr as (-> & -> & _ & _ & ->). by split.
Qed.

Definition long_message : list Z := replicate 513 7.

Lemma long_message_long : (512 < length long_message)%nat.
Proof. unfold long_message. rewrite length_replicate. lia. Qed.

Lemma run_writer_sleeps mk (page addr : list Z) :
  length page = 512%nat -> (512 < length addr)%nat ->
  exists s, reachable mk page s /\ exists rest, threads s !! 0%nat = Some (Writer true false rest).
Proof.
  intros Hp Hlong. destruct (pipewrite false addr (pipe_init page)) as [[p' wk] r] eqn:He.
  destruct (write_too_much _ _ _ _ _ _ (pipe_init_ok _ Hp) Hlong He) as [Hs _].
  destruct (Hs eq_refl eq_refl) as [Hr ->]. eexists. split.
  - eapply rtc_l; [apply (step_start mk _ (Writer false false addr)); done|].
    eapply rtc_l; [eapply (step_write mk _ 0); [done|exact He]|]. constructor.
  - cbn. rewrite Hr. cbn. eauto.
Qed.

Lemma run_killed_writer (page addr : list Z) :
  length page = 512%nat -> (512 < length addr)%nat ->
  exists s n,
    reachable true page s /\ threads s = [Reader true false n; Gone] /\
    length (contents (pp s)) = 512%nat /\ readopen (pp s) = true /\ writeopen (pp s) = true.
Proof.
  intros Hp Hlong. pose proof (pipe_init_ok _ Hp) as Hok.
  destruct (pipewrite true addr (pipe_init page)) as [[p' wk] r] eqn:He.
  destruct (write_too_much _ _ _ _ _ _ Hok Hlong He) as [_ Hs].
  destruct (Hs eq_refl) as [Hr ->].
  pose proof (pipewrite_post true addr _ Hok) as Hpost. rewrite He in Hpost.
  destruct Hpost as (w & rest & _ & Hok' & [Hro Hwo] & Hc & Hres).
  rewrite Hr in Hres. destruct Hres as (_ & _ & Hfull & _).
  eexists _, 1%nat. split_and!.
  - unfold reachable. eapply transitivity; [exact (run_reader_sleeps true page)|].
    eapply rtc_l; [apply (step_start true _ (Writer false false addr)); done|].
    eapply rtc_l; [eapply (step_kill true _ 1); done|].
    eapply rtc_l; [eapply (step_write true _ 1); [done|exact He]|]. constructor.
  - cbn. by rewrite Hr.
  - cbn. apply full_used in Hfull; [|done]. by rewrite length_contents, Hfull.
  - exact Hro.
  - exact Hwo.
Qed.

(** ** Properties *)

(** C8: in every interleaving of readers, writers, closes and kills, the bytes
    taken out of the pipe followed by the bytes still in it are the bytes put into
    it, in the order they were put: no byte is lost, duplicated or reordered, also
    after the 32 bit counters have wrapped around.  The pipe never holds more than
    its 512 bytes. *)
Theorem pipe_fifo (may_kill : bool) (page : list Z) (s : sys)
    (Hpage : length page = 512%nat) (Hreach : reachable may_kill page s) :
  written s = taken s ++ contents (pp s) /\ (length (contents (pp s)) <= 512)%nat.
Proof.
  destruct (reachable_inv _ _ _ Hpage Hreach) as (Hok & Hhist & _). split; [done|].
  rewrite length_contents. destruct Hok as (_ & _ & _ & Hu). unfold PIPESIZE in Hu. lia.
Qed.

(** a writer that is asleep on the pipe is asleep with reason: the buffer is
    full and the read end is open.  No wakeup of a writer is ever lost. *)
Theorem sleeping_writer_waits (may_kill : bool) (page : list Z) (s : sys) (i : nat) (k : bool) rest
    (Hpage : length page = 512%nat) (Hreach : reachable may_kill page s)
    (Hi : threads s !! i = Some (Writer true k rest)) :
  length (contents (pp s)) = 512%nat /\ readopen (pp s) = true.
Proof.
  destruct (reachable_inv _ _ _ Hpage Hreach) as (Hok & _ & Hts).
  pose proof (Forall_lookup_1 _ _ _ _ Hts Hi) as (_ & _ & Ha).
  destruct (Ha eq_refl) as [Hf Hro]. split; [|done].
  apply full_used in Hf; [|done]. rewrite length_contents, Hf. done.
Qed.

(** as long as no process is killed, a reader that is asleep on the pipe is
    asleep with reason: the buffer is empty and the write end is open.  Then readers
    and writers are never asleep at the same time. *)
Theorem sleeping_reader_waits (page : list Z) (s : sys) (i : nat) (k : bool) (n : nat)
    (Hpage : length page = 512%nat) (Hreach : reachable false page s)
    (Hi : threads s !! i = Some (Reader true k n)) :
  contents (pp s) = [] /\ writeopen (pp s) = true /\
  forall j k' rest, threads s !! j <> Some (Writer true k' rest).
Proof.
  destruct (reachable_inv _ _ _ Hpage Hreach) as (Hok & _ & Hts).
  pose proof (Forall_lookup_1 _ _ _ _ Hts Hi) as (_ & _ & Ha).
  destruct (Ha eq_refl eq_refl) as [Hc Hw]. split_and!; [done..|]. intros j k' rest Hj.
  pose proof (Forall_lookup_1 _ _ _ _ Hts Hj) as (_ & _ & Ha').
  destruct (Ha' eq_refl) as [Hf _]. apply full_used in Hf; [|done].
  apply (f_equal length) in Hc. rewrite length_contents, Hf in Hc. done.
Qed.

Definition zero_page : list Z := replicate 512 0.

Lemma pipe_fifo_witness :
  reachable true zero_page (mksys (pipe_init zero_page) [Reader true false 1] [] []) /\
  [] = [] ++ contents (pipe_init zero_page).
Proof.
  pose proof (run_reader_sleeps true zero_page) as Hr.
  split; [exact Hr|]. exact (proj1 (pipe_fifo true zero_page _ eq_refl Hr)).
Defined.

Lemma sleeping_writer_waits_witness :
  exists s, reachable true zero_page s /\ length (contents (pp s)) = 512%nat.
Proof.
  destruct (run_writer_sleeps true zero_page long_message eq_refl long_message_long) as (s & Hr & rest & Hi).
  exists s. split; [exact Hr|].
  exact (proj1 (sleeping_writer_waits true zero_page s 0 false rest eq_refl Hr Hi)).
Defined.

Lemma sleeping_reader_waits_witness :
  reachable false zero_page (mksys (pipe_init zero_page) [Reader true false 1] [] []) /\
  writeopen (pipe_init zero_page) = true.
Proof.
  pose proof (run_reader_sleeps false zero_page) as Hr.
  split; [exact Hr|].
  exact (proj1 (proj2 (sleeping_reader_waits zero_page _ 0 false 1 eq_refl Hr eq_refl))).
Defined.

(** a wakeup of a reader can be lost when a writer is killed.  A writer that
    fills the buffer and then finds itself killed returns -1 without the
    [wakeup(&p->nread)] of the other exits; a reader that went to sleep on the empty
    pipe stays asleep although the pipe is full and both ends are open. *)
Theorem killed_writer_loses_wakeup (page : list Z) :
  length page = 512%nat ->
  exists s n,
    reachable true page s /\ threads s = [Reader true false n; Gone] /\
    length (contents (pp s)) = 512%nat /\ readopen (pp s) = true /\ writeopen (pp s) = true.
Proof.
  intros Hp. exact (run_killed_writer page long_message Hp long_message_long).
Qed.

Lemma killed_writer_loses_wakeup_witness :
  exists s n, reachable true zero_page s /\ threads s = [Reader true false n; Gone].
Proof.
  destruct (killed_writer_loses_wakeup zero_page eq_refl) as (s & n & Hr & Ht & _).
  exists s, n. split; assumption.
Defined.

End Pipe.
