(* ===== verification/Bio.v ===== *)
(** * The buffer cache and the disk

    bio.c ([binit], [bget], [bread], [bwrite], [brelse]) over the disk driver of
    memide.c ([iderw]).  [bcache.buf] is a list of buffers and the doubly linked
    list through [prev]/[next] is the list [lru] of buffer indices, [head.next]
    first.  The disk keeps a history of the blocks written to it: what a crash
    leaves behind is the disk after some of those writes ([Log]).

    The functions are run by one process at a time; a sleep-lock held by another
    process makes [acquiresleep] sleep.  The contract of the cache is stated on
    [view], the contents every block has for the rest of the kernel. *)

From S2P Require Export Bytes.
Local Open Scope Z_scope.

Definition BSIZE : nat := 512.
Definition MAXOPBLOCKS : Z := 10.
Definition LOGSIZE : Z := MAXOPBLOCKS * 3.
Definition NBUF : nat := 30.
Definition ROOTDEV : Z := 1.

Definition block : Type := list Z.
Definition block_ok (d : block) : Prop := length d = BSIZE /\ bytes_ok d.
Definition zero_block : block := replicate BSIZE 0.

Module Bio.

Definition B_VALID : Z := 2.  (* buffer has been read from disk *)
Definition B_DIRTY : Z := 4.  (* buffer needs to be written to disk *)

Record buf : Type := mkbuf {
  flags : Z; dev : Z; blockno : Z;
  locked : bool;  (* lock.locked *)
  refcnt : Z; bdata : block
}.

(** The cache and the disk; [writes] is the history of the disk. *)
Record bst : Type := mkbst {
  bufs : list buf; lru : list nat;
  disk : gmap Z block; disksize : Z; writes : list (Z * block)
}.

Definition valid (b : buf) : bool := truthy (Z.land (flags b) B_VALID).
Definition dirty (b : buf) : bool := truthy (Z.land (flags b) B_DIRTY).

Definition set_flags (f : Z) (b : buf) : buf :=
  mkbuf f (dev b) (blockno b) (locked b) (refcnt b) (bdata b).
Definition set_locked (l : bool) (b : buf) : buf :=
  mkbuf (flags b) (dev b) (blockno b) l (refcnt b) (bdata b).
Definition set_refcnt (r : Z) (b : buf) : buf :=
  mkbuf (flags b) (dev b) (blockno b) (locked b) r (bdata b).
Definition set_bdata (d : block) (b : buf) : buf :=
  mkbuf (flags b) (dev b) (blockno b) (locked b) (refcnt b) d.

Definition set_bufs (l : list buf) (s : bst) : bst :=
  mkbst l (lru s) (disk s) (disksize s) (writes s).
Definition set_lru (l : list nat) (s : bst) : bst :=
  mkbst (bufs s) l (disk s) (disksize s) (writes s).

(** [*b = x] and the access [b->...] through a pointer into [bcache.buf]. *)
Definition put_buf (i : nat) (b : buf) (s : bst) : bst := set_bufs (<[i := b]> (bufs s)) s.
Definition get_buf (i : nat) : K bst buf := fun s => arr_get (bufs s) i s.
Definition upd_buf (i : nat) (f : buf -> buf) : K bst unit :=
  b ← get_buf i; modify (put_buf i (f b)).

(** ** Sleep-locks of buffers (sleeplock.c) *)

Definition acquiresleep (i : nat) : K bst unit :=
  b ← get_buf i;
  if locked b then sleep_on (ChBuf i) else upd_buf i (set_locked true).
Definition releasesleep (i : nat) : K bst unit := upd_buf i (set_locked false).
Definition holdingsleep (i : nat) : K bst bool := b ← get_buf i; mret (locked b).

(** ** The disk (memide.c) *)

Definition disk_write (b : Z) (d : block) : K bst unit :=
  modify (fun s => mkbst (bufs s) (lru s) (<[b := d]> (disk s)) (disksize s) (writes s ++ [(b, d)])).

(** Sync buf with disk.  If B_DIRTY is set, write buf to disk, clear B_DIRTY, set
    B_VALID.  Else if B_VALID is not set, read buf from disk, set B_VALID. *)
Definition iderw (i : nat) : K bst unit :=
  h ← holdingsleep i;
  if negb h then panic "iderw: buf not locked" else
  b ← get_buf i;
  if Z.land (flags b) (Z.lor B_VALID B_DIRTY) =? B_VALID then panic "iderw: nothing to do" else
  if negb (dev b =? 1) then panic "iderw: request not for disk 1" else
  size ← gets disksize;
  if size <=? blockno b then panic "iderw: block out of range" else
  (if dirty b then
     upd_buf i (fun b => set_flags (Z.land (flags b) (Z.lnot B_DIRTY)) b);;
     disk_write (blockno b) (bdata b)
   else
     d ← gets (fun s => disk s !!! blockno b);
     upd_buf i (set_bdata d));;
  upd_buf i (fun b => set_flags (Z.lor (flags b) B_VALID) b).

(** ** The cache (bio.c) *)

(** [binit] puts the buffers one by one at the head of the list. *)
Fixpoint binit_loop (n i : nat) (l : list nat) : list nat :=
  match n with O => l | S n => binit_loop n (S i) (i :: l) end.
Definition binit (s : bst) : bst := set_lru (binit_loop NBUF 0 []) s.

(** Is the block already cached?  The list is searched from [head.next]. *)
Fixpoint find_cached (l : list nat) (bs : list buf) (d b : Z) : option nat :=
  match l with
  | [] => None
  | i :: l =>
      match bs !! i with
      | Some x => if ((dev x =? d) && (blockno x =? b))%bool then Some i else find_cached l bs d b
      | None => find_cached l bs d b
      end
  end.

(** An unused buffer to recycle, searched from [head.prev]. *)
Fixpoint find_unused (l : list nat) (bs : list buf) : option nat :=
  match l with
  | [] => None
  | i :: l =>
      match bs !! i with
      | Some x =>
          if ((refcnt x =? 0) && (Z.land (flags x) B_DIRTY =? 0))%bool then Some i
          else find_unused l bs
      | None => find_unused l bs
      end
  end.

Definition bget (d b : Z) : K bst nat := fun s =>
  match find_cached (lru s) (bufs s) d b with
  | Some i =>
      (upd_buf i (fun x => set_refcnt (refcnt x +u 1) x);; acquiresleep i;; mret i) s
  | None =>
      match find_unused (rev (lru s)) (bufs s) with
      | Some i =>
          (upd_buf i (fun x => mkbuf 0 d b (locked x) 1 (bdata x));; acquiresleep i;; mret i) s
      | None => Panic "bget: no buffers" s
      end
  end.

Definition bread (d b : Z) : K bst nat :=
  i ← bget d b;
  x ← get_buf i;
  (if Z.land (flags x) B_VALID =? 0 then iderw i else mret tt);;
  mret i.

Definition bwrite (i : nat) : K bst unit :=
  h ← holdingsleep i;
  if negb h then panic "bwrite" else
  upd_buf i (fun x => set_flags (Z.lor (flags x) B_DIRTY) x);;
  iderw i.

Definition brelse (i : nat) : K bst unit :=
  h ← holdingsleep i;
  if negb h then panic "brelse" else
  releasesleep i;;
  upd_buf i (fun x => set_refcnt (refcnt x -u 1) x);;
  x ← get_buf i;
  if refcnt x =? 0 then modify (fun s => set_lru (i :: base.filter (fun j => j <> i) (lru s)) s)
  else mret tt.

(** [bp->data] read and written by the holder of the buffer. *)
Definition buf_data (i : nat) : K bst block := b ← get_buf i; mret (bdata b).
Definition set_data (i : nat) (d : block) : K bst unit := upd_buf i (set_bdata d).

(** ** Running the primitives *)

Lemma put_put i x y s : put_buf i x (put_buf i y s) = put_buf i x s.
Proof. unfold put_buf, set_bufs. cbn. by rewrite list_insert_insert_eq. Qed.

Lemma lookup_put i x s : (i < length (bufs s))%nat -> bufs (put_buf i x s) !! i = Some x.
Proof. intros. cbn. by apply list_lookup_insert_eq. Qed.

Lemma lookup_put_ne i j x s : i <> j -> bufs (put_buf i x s) !! j = bufs s !! j.
Proof. intros. cbn. by apply list_lookup_insert_ne. Qed.

Lemma length_put i x s : length (bufs (put_buf i x s)) = length (bufs s).
Proof. cbn. apply length_insert. Qed.

Lemma wp_get_buf i x s Q : bufs s !! i = Some x -> Q x s -> wp (get_buf i) s Q.
Proof. unfold wp, get_buf, arr_get. by intros ->. Qed.

Lemma wp_upd_buf i f x s (Q : unit -> bst -> Prop) :
  bufs s !! i = Some x -> Q tt (put_buf i (f x) s) -> wp (upd_buf i f) s Q.
Proof. intros Hi HQ. unfold upd_buf. apply wp_bind. by eapply wp_get_buf. Qed.

Lemma wp_holdingsleep i x s (Q : bool -> bst -> Prop) :
  bufs s !! i = Some x -> Q (locked x) s -> wp (holdingsleep i) s Q.
Proof. intros Hi HQ. unfold holdingsleep. apply wp_bind. by eapply wp_get_buf. Qed.

Lemma wp_acquiresleep i x s (Q : unit -> bst -> Prop) :
  bufs s !! i = Some x -> locked x = false -> Q tt (put_buf i (set_locked true x) s) ->
  wp (acquiresleep i) s Q.
Proof.
  intros Hi Hl HQ. unfold acquiresleep. apply wp_bind. eapply wp_get_buf; [done|].
  rewrite Hl. by eapply wp_upd_buf.
Qed.

(** [iderw] on a locked buffer that has not been read. *)
Lemma wp_iderw_read i x s (Q : unit -> bst -> Prop) :
  bufs s !! i = Some x -> locked x = true -> flags x = 0 -> dev x = 1 -> blockno x < disksize s ->
  Q tt (put_buf i (set_flags 2 (set_bdata (disk s !!! blockno x) x)) s) -> wp (iderw i) s Q.
Proof.
  intros Hi Hl Hf Hd Hb HQ. pose proof (lookup_lt_Some _ _ _ Hi) as Hlt. unfold iderw.
  apply wp_bind. eapply wp_holdingsleep; [done|]. rewrite Hl. cbn [negb].
  apply wp_bind. eapply wp_get_buf; [done|].
  rewrite Hf, Hd. cbn -[Z.leb]. apply wp_bind, wp_gets.
  destruct (Z.leb_spec (disksize s) (blockno x)); [lia|].
  apply wp_bind. unfold dirty. rewrite Hf. cbn.
  apply wp_bind, wp_gets. eapply wp_upd_buf; [done|].
  eapply wp_upd_buf; [by apply lookup_put|]. rewrite put_put. cbn. by rewrite Hf.
Qed.

(** [iderw] on a locked buffer that is valid and dirty. *)
Lemma wp_iderw_write i x s (Q : unit -> bst -> Prop) :
  bufs s !! i = Some x -> locked x = true -> flags x = 6 -> dev x = 1 -> blockno x < disksize s ->
  Q tt (put_buf i (set_flags 2 x)
          (mkbst (bufs s) (lru s) (<[blockno x := bdata x]> (disk s)) (disksize s)
             (writes s ++ [(blockno x, bdata x)]))) ->
  wp (iderw i) s Q.
Proof.
  intros Hi Hl Hf Hd Hb HQ. pose proof (lookup_lt_Some _ _ _ Hi) as Hlt. unfold iderw.
  apply wp_bind. eapply wp_holdingsleep; [done|]. rewrite Hl. cbn [negb].
  apply wp_bind. eapply wp_get_buf; [done|].
  rewrite Hf, Hd. cbn -[Z.leb]. apply wp_bind, wp_gets.
  destruct (Z.leb_spec (disksize s) (blockno x)); [lia|].
  apply wp_bind. unfold dirty. rewrite Hf. cbn.
  apply wp_bind. eapply wp_upd_buf; [done|]. apply wp_modify.
  eapply wp_upd_buf; [cbn; by apply list_lookup_insert_eq|].
  unfold put_buf, set_bufs in *. cbn in *. rewrite list_insert_insert_eq, Hf. exact HQ.
Qed.

(** ** The invariant of the cache *)

Definition buf_ok (s : bst) (x : buf) : Prop :=
  (flags x = 0 \/ flags x = 2 \/ flags x = 6) /\
  (locked x = true /\ refcnt x = 1 /\ flags x <> 0 \/ locked x = false /\ refcnt x = 0) /\
  (dev x = 1 -> 0 <= blockno x < disksize s) /\
  (flags x <> 0 -> dev x = 1 /\ block_ok (bdata x)) /\
  (flags x = 2 -> locked x = false -> bdata x = disk s !!! blockno x).

Definition unique (bs : list buf) : Prop :=
  forall i j x y, bs !! i = Some x -> bs !! j = Some y -> dev x = 1 -> dev y = 1 ->
    blockno x = blockno y -> i = j.

Definition disk_ok (s : bst) : Prop :=
  forall b, 0 <= b < disksize s -> exists d, disk s !! b = Some d /\ block_ok d.

Definition bio_inv (s : bst) : Prop :=
  length (bufs s) = NBUF /\ lru s ≡ₚ seq 0 NBUF /\
  (forall i x, bufs s !! i = Some x -> buf_ok s x) /\ unique (bufs s) /\ disk_ok s.

(** The contents of block [b] for the rest of the kernel: those of its valid
    buffer, and those of the disk when it has none. *)
Definition holds_block (b : Z) (x : buf) : Prop := dev x = 1 /\ blockno x = b /\ flags x <> 0.
#[global] Instance holds_block_dec b x : Decision (holds_block b x).
Proof. unfold holds_block. apply _. Defined.

Definition view (s : bst) (b : Z) : block :=
  match list_find (holds_block b) (bufs s) with
  | Some (_, x) => bdata x
  | None => disk s !!! b
  end.

(** Buffers that cannot be recycled. *)
Definition is_pinned (x : buf) : Prop := refcnt x <> 0 \/ flags x = 6.
#[global] Instance is_pinned_dec x : Decision (is_pinned x).
Proof. unfold is_pinned. apply _. Defined.
Definition pinned (s : bst) : nat := length (base.filter is_pinned (bufs s)).

Lemma view_cached s i x :
  unique (bufs s) -> bufs s !! i = Some x -> dev x = 1 -> flags x <> 0 ->
  view s (blockno x) = bdata x.
Proof.
  intros Hu Hi Hd Hf. unfold view.
  destruct (list_find_elem_of (holds_block (blockno x)) (bufs s) x) as [[j y] Hj].
  { by eapply list_elem_of_lookup_2. }
  { done. }
  rewrite Hj. apply list_find_Some in Hj as (Hj & (Hy1 & Hy2 & Hy3) & _).
  assert (i = j) as -> by (eapply Hu; eauto). congruence.
Qed.

Lemma view_uncached s b :
  (forall i x, bufs s !! i = Some x -> ~ holds_block b x) -> view s b = disk s !!! b.
Proof.
  intros Hn. unfold view. destruct (list_find (holds_block b) (bufs s)) as [[j y]|] eqn:E; [|done].
  apply list_find_Some in E as (Hj & Hy & _). by destruct (Hn _ _ Hj).
Qed.

(** The two cases above determine the view. *)
Lemma view_cases s b :
  unique (bufs s) ->
  (exists i x, bufs s !! i = Some x /\ holds_block b x /\ view s b = bdata x) \/
  ((forall i x, bufs s !! i = Some x -> ~ holds_block b x) /\ view s b = disk s !!! b).
Proof.
  intros Hu. unfold view. destruct (list_find (holds_block b) (bufs s)) as [[j y]|] eqn:E.
  - apply list_find_Some in E as (Hj & Hy & _). left. eauto.
  - right. apply list_find_None in E. split; [|done]. intros i x Hi.
    by apply (Forall_lookup_1 _ _ _ _ E Hi).
Qed.

(** Changing one buffer and the contents of its block on disk. *)
Lemma view_put s i x x' b dk :
  unique (bufs s) -> unique (<[i := x']> (bufs s)) -> bufs s !! i = Some x ->
  ~ holds_block b x -> ~ holds_block b x' -> dk !!! b = disk s !!! b ->
  forall l sz w, view (mkbst (<[i := x']> (bufs s)) l dk sz w) b = view s b.
Proof.
  intros Hu Hu' Hi Hx Hx' Hdk l sz w. pose proof (lookup_lt_Some _ _ _ Hi) as Hlt.
  destruct (view_cases s b Hu) as [(j & y & Hj & Hy & ->)|[Hn ->]].
  - destruct (decide (i = j)) as [->|Hne]; [congruence|].
    destruct Hy as (Hy1 & <- & Hy3). apply (view_cached _ j); try done.
    cbn. by rewrite list_lookup_insert_ne.
  - rewrite view_uncached; [done|]. intros j y Hj. cbn in Hj.
    destruct (decide (i = j)) as [->|Hne].
    + rewrite list_lookup_insert_eq in Hj by done. congruence.
    + rewrite list_lookup_insert_ne in Hj by done. by eapply Hn.
Qed.

Lemma view_ok s b : bio_inv s -> 0 <= b < disksize s -> block_ok (view s b).
Proof.
  intros (_ & _ & Hb & Hu & Hd) Hr. destruct (view_cases s b Hu) as [(i & x & Hi & Hx & ->)|[_ ->]].
  - destruct Hx as (? & ? & Hf). by apply (Hb i x Hi).
  - destruct (Hd b Hr) as (d & Hdb & Hok). by rewrite (lookup_total_correct _ _ _ Hdb).
Qed.

(** ** Replacing one buffer *)

Definition fresh_block (s : bst) (i : nat) (b : Z) : Prop :=
  forall j y, j <> i -> bufs s !! j = Some y -> dev y = 1 -> blockno y <> b.

Lemma unique_put bs i x' :
  unique bs ->
  (dev x' = 1 -> forall j y, j <> i -> bs !! j = Some y -> dev y = 1 -> blockno y <> blockno x') ->
  unique (<[i := x']> bs).
Proof.
  intros Hu Hf j k y z Hj Hk Hy Hz Heq.
  apply list_lookup_insert_Some in Hj as [(<- & <- & _)|[Hne1 Hj]];
    apply list_lookup_insert_Some in Hk as [(<- & <- & _)|[Hne2 Hk]]; auto.
  - exfalso. eapply (Hf Hy k z); eauto.
  - exfalso. eapply (Hf Hz j y); eauto.
  - eapply Hu; eauto.
Qed.

Lemma inv_put s i x' :
  bio_inv s -> buf_ok s x' -> (dev x' = 1 -> fresh_block s i (blockno x')) ->
  bio_inv (put_buf i x' s).
Proof.
  intros (Hlen & Hlru & Hb & Hu & Hd) Hx' Hf. split_and!; [by rewrite length_put|done| | |done].
  - intros j y Hj. cbn in Hj. apply list_lookup_insert_Some in Hj as [(<- & <- & _)|[_ Hj]]; [done|].
    by apply (Hb j).
  - by apply unique_put.
Qed.

Lemma fresh_own s i x : unique (bufs s) -> bufs s !! i = Some x -> dev x = 1 -> fresh_block s i (blockno x).
Proof. intros Hu Hi Hx j y Hne Hj Hy Heq. apply Hne. eapply Hu; eauto. Qed.

Lemma pinned_put s i x x' :
  bufs s !! i = Some x ->
  (pinned (put_buf i x' s) + (if decide (is_pinned x) then 1 else 0) =
   pinned s + (if decide (is_pinned x') then 1 else 0))%nat.
Proof.
  intros Hi. unfold pinned, put_buf, set_bufs. cbn.
  pose proof (lookup_lt_Some _ _ _ Hi) as Hlt.
  rewrite insert_take_drop by done.
  assert (length (base.filter is_pinned (bufs s)) =
    length (base.filter is_pinned (take i (bufs s) ++ x :: drop (S i) (bufs s)))) as ->
    by by rewrite take_drop_middle.
  rewrite !filter_app, !filter_cons, !length_app. repeat case_decide; cbn; lia.
Qed.

(** ** Searching the list *)

Lemma find_cached_some l bs d b i :
  find_cached l bs d b = Some i -> exists x, bs !! i = Some x /\ dev x = d /\ blockno x = b.
Proof.
  induction l as [|j l IH]; cbn; [done|]. destruct (bs !! j) eqn:Hj; [|done].
  case_cond; [|done]. intros [= <-]. eauto.
Qed.

Lemma find_cached_none l bs d b i x :
  find_cached l bs d b = None -> i ∈ l -> bs !! i = Some x -> ~ (dev x = d /\ blockno x = b).
Proof.
  induction l as [|j l IH]; cbn; intros Hf Hin Hi; [by apply not_elem_of_nil in Hin|].
  apply elem_of_cons in Hin as [->|Hin].
  - rewrite Hi in Hf. case_cond_in Hf; [done|]. intros [<- <-].
    rewrite !Z.eqb_refl in E. done.
  - apply IH; [|done..]. destruct (bs !! j); [|done]. by case_cond_in Hf.
Qed.

Lemma find_unused_some l bs i :
  find_unused l bs = Some i ->
  exists x, bs !! i = Some x /\ refcnt x = 0 /\ Z.land (flags x) B_DIRTY = 0.
Proof.
  induction l as [|j l IH]; cbn; [done|]. destruct (bs !! j) eqn:Hj; [|done].
  case_cond; [|done]. intros [= <-]. eauto.
Qed.

Lemma find_unused_none l bs i x :
  find_unused l bs = None -> i ∈ l -> bs !! i = Some x ->
  ~ (refcnt x = 0 /\ Z.land (flags x) B_DIRTY = 0).
Proof.
  induction l as [|j l IH]; cbn; intros Hf Hin Hi; [by apply not_elem_of_nil in Hin|].
  apply elem_of_cons in Hin as [->|Hin].
  - rewrite Hi in Hf. case_cond_in Hf; [done|]. intros [H1 H2].
    rewrite H1, H2, !Z.eqb_refl in E. done.
  - apply IH; [|done..]. destruct (bs !! j); [|done]. by case_cond_in Hf.
Qed.

Lemma lru_complete s i x : bio_inv s -> bufs s !! i = Some x -> i ∈ lru s.
Proof.
  intros (Hlen & Hlru & _) Hi. rewrite Hlru. apply elem_of_seq.
  apply lookup_lt_Some in Hi. lia.
Qed.

(** If not every buffer is pinned, one can be recycled. *)
Lemma find_unused_room s :
  bio_inv s -> (pinned s < NBUF)%nat ->
  exists i x, find_unused (rev (lru s)) (bufs s) = Some i /\ bufs s !! i = Some x /\
    locked x = false /\ refcnt x = 0 /\ flags x <> 6.
Proof.
  intros Hinv Hp. pose proof Hinv as (Hlen & _ & Hb & _).
  destruct (find_unused (rev (lru s)) (bufs s)) as [i|] eqn:E.
  - destruct (find_unused_some _ _ _ E) as (x & Hi & Hr & Hf). exists i, x.
    destruct (Hb i x Hi) as (_ & [(? & ? & ?)|[? ?]] & _); [congruence|].
    split_and!; try done. intros H6. by rewrite H6 in Hf.
  - exfalso. unfold pinned in Hp. rewrite <- Hlen in Hp.
    assert (base.filter is_pinned (bufs s) = bufs s) as Heq; [|rewrite Heq in Hp; lia].
    apply list_filter_id, Forall_lookup_2. intros i x Hi.
    assert (~ (refcnt x = 0 /\ Z.land (flags x) B_DIRTY = 0)) as Hn.
    { eapply find_unused_none; [done| |done]. rewrite rev_alt. apply elem_of_reverse.
      by eapply lru_complete. }
    destruct (Hb i x Hi) as ([Hf|[Hf|Hf]] & _); unfold is_pinned; rewrite Hf in *; cbn in Hn;
      destruct (decide (refcnt x = 0)); tauto.
Qed.

(** ** What the operations do *)

(** A buffer held by the running process, with contents [d]. *)
Definition held (f b : Z) (d : block) : buf := mkbuf f 1 b true 1 d.

(** [bread] changes one buffer, which was not in use: it now holds the block. *)
Definition bread_post (s : bst) (b : Z) (i : nat) (s' : bst) : Prop :=
  exists x f,
    bufs s !! i = Some x /\ locked x = false /\ refcnt x = 0 /\
    (f = 2 \/ f = 6) /\ (f = 6 <-> flags x = 6) /\ (flags x = 6 -> blockno x = b) /\
    s' = put_buf i (held f b (view s b)) s /\ bio_inv s' /\
    (forall b', view s' b' = view s b').

(** Reading a block into buffer [i]: the common end of the cases of [bread]. *)
Lemma bread_post_intro s b i x f :
  bio_inv s -> 0 <= b < disksize s -> bufs s !! i = Some x ->
  locked x = false -> refcnt x = 0 -> fresh_block s i b ->
  (f = 2 \/ f = 6) -> (f = 6 <-> flags x = 6) -> (flags x = 6 -> blockno x = b) ->
  (holds_block b x \/ flags x <> 6) ->
  bread_post s b i (put_buf i (held f b (view s b)) s).
Proof.
  intros Hinv Hb Hi Hl Hr Hfr Hf Hf6 Hx6 Hx.
  pose proof Hinv as (Hlen & Hlru & Hbs & Hu & Hd).
  pose proof (lookup_lt_Some _ _ _ Hi) as Hlt.
  assert (bio_inv (put_buf i (held f b (view s b)) s)) as Hinv'.
  { apply inv_put; [done| |by intros _]. unfold buf_ok, held; cbn. split_and!; try done; try tauto.
    - left. split_and!; [done..|destruct Hf; lia].
    - intros _. split; [done|]. by apply view_ok. }
  exists x, f. split_and!; try done. intros b'.
  destruct (decide (b' = b)) as [->|Hne].
  - pose proof (view_cached (put_buf i (held f b (view s b)) s) i (held f b (view s b))) as Hv.
    cbn in Hv. apply Hv; [by apply Hinv'|by apply list_lookup_insert_eq|done|]. destruct Hf; lia.
  - destruct (decide (holds_block b' x)) as [Hhx|Hhx].
    + (* the recycled buffer held [b']: it was clean, so the disk has its contents *)
      destruct Hhx as (Hx1 & Hx2 & Hx3). destruct (Hbs i x Hi) as (Hfl & _ & _ & _ & Hclean).
      assert (flags x = 2) as Hf2.
      { destruct Hfl as [?|[?|Hf6']]; [done|done|]. specialize (Hx6 Hf6'). congruence. }
      rewrite <- Hx2 at 2. rewrite (view_cached s i x) by done.
      rewrite (Hclean Hf2 Hl), Hx2. rewrite view_uncached; [done|].
      intros j y Hj. cbn in Hj.
      apply list_lookup_insert_Some in Hj as [(<- & <- & _)|[Hij Hj]]; intros (Hy1 & Hy2 & _).
      * cbn in Hy2. congruence.
      * apply Hij. eapply Hu; eauto. congruence.
    + unfold put_buf, set_bufs. apply (view_put s i x); try done; [by apply Hinv'|].
      intros (_ & Hb2 & _). cbn in Hb2. congruence.
Qed.

(** Some buffer is assigned to the block. *)
Definition cached (s : bst) (b : Z) : Prop :=
  exists i x, bufs s !! i = Some x /\ dev x = 1 /\ blockno x = b.

Lemma bread_spec s b :
  bio_inv s -> 0 <= b < disksize s ->
  (forall i x, bufs s !! i = Some x -> dev x = 1 -> blockno x = b -> locked x = false) ->
  cached s b \/ (pinned s < NBUF)%nat ->
  wp (bread 1 b) s (bread_post s b).
Proof.
  intros Hinv Hb Hfree Hroom. pose proof Hinv as (Hlen & Hlru & Hbs & Hu & Hd).
  unfold bread. apply wp_bind. unfold wp at 1, bget.
  destruct (find_cached (lru s) (bufs s) 1 b) as [i|] eqn:Hc.
  - destruct (find_cached_some _ _ _ _ _ Hc) as (x & Hi & Hd1 & Hbno).
    specialize (Hfree i x Hi Hd1 Hbno). pose proof (lookup_lt_Some _ _ _ Hi) as Hlt.
    destruct (Hbs i x Hi) as (Hfl & [(? & ? & ?)|[_ Hr]] & _ & Hok & _); [congruence|].
    pose proof (fresh_own s i x Hu Hi Hd1) as Hfr. rewrite Hbno in Hfr.
    change (wp (upd_buf i (fun x => set_refcnt (refcnt x +u 1) x);; acquiresleep i;; mret i) s
      (fun a s' => wp (x0 ← get_buf a; (if Z.land (flags x0) B_VALID =? 0 then iderw a else mret tt);; mret a) s' (bread_post s b))).
    apply wp_bind. eapply wp_upd_buf; [done|].
    apply wp_bind. eapply wp_acquiresleep; [by apply lookup_put|done|]. rewrite put_put.
    apply wp_ret. apply wp_bind. eapply wp_get_buf; [by apply lookup_put|].
    destruct x as [fl dv bn lk rc dt]; cbn in *. subst dv bn lk rc.
    destruct Hfl as [->|Hfl].
    + cbn. apply wp_bind. eapply wp_iderw_read; [by apply lookup_put|done..|cbn; lia|].
      rewrite put_put. apply wp_ret.
      replace (disk _ !!! _) with (view s b).
      { eapply (bread_post_intro s b i _ 2); try done; try tauto; cbn; lia. }
      cbn. apply view_uncached. intros j y Hj (? & ? & Hy). assert (i = j) as ->.
      { eapply Hu; eauto. }
      rewrite Hi in Hj. apply Hy. by injection Hj as <-.
    + assert ((Z.land fl B_VALID =? 0) = false) as Hv by (destruct Hfl as [->| ->]; done).
      cbn. rewrite Hv. apply wp_bind, wp_ret, wp_ret.
      assert (dt = view s b) as Hdt.
      { symmetry. apply (view_cached s i _ Hu Hi); cbn; [done|]. destruct Hfl; lia. }
      rewrite Hdt. eapply (bread_post_intro s b i _ fl); try done; cbn; try tauto.
      left. unfold holds_block; cbn. destruct Hfl; split_and!; lia.
  - assert (pinned s < NBUF)%nat as Hroom'.
    { destruct Hroom as [(j & y & Hj & Hy1 & Hy2)|]; [|done].
      exfalso. eapply (find_cached_none _ _ _ _ j y Hc); eauto. by eapply lru_complete. }
    destruct (find_unused_room s Hinv Hroom') as (i & x & Hun & Hi & Hl & Hr & Hf6).
    pose proof (lookup_lt_Some _ _ _ Hi) as Hlt. rewrite Hun.
    assert (fresh_block s i b) as Hfr.
    { intros j y Hne Hj Hy1 Hy2. eapply (find_cached_none _ _ _ _ j y Hc); eauto.
      by eapply lru_complete. }
    change (wp (upd_buf i (fun x => mkbuf 0 1 b (locked x) 1 (bdata x));; acquiresleep i;; mret i) s
      (fun a s' => wp (x0 ← get_buf a; (if Z.land (flags x0) B_VALID =? 0 then iderw a else mret tt);; mret a) s' (bread_post s b))).
    apply wp_bind. eapply wp_upd_buf; [done|].
    apply wp_bind. eapply wp_acquiresleep; [by apply lookup_put|done|]. rewrite put_put.
    apply wp_ret. apply wp_bind. eapply wp_get_buf; [by apply lookup_put|].
    cbn. apply wp_bind. eapply wp_iderw_read; [by apply lookup_put|done..|cbn; lia|].
    rewrite put_put. apply wp_ret. cbn.
    assert (disk s !!! b = view s b) as ->.
    { symmetry. apply view_uncached. intros j y Hj (Hy1 & Hy2 & _).
      eapply (find_cached_none _ _ _ _ j y Hc); eauto. by eapply lru_complete. }
    eapply (bread_post_intro s b i _ 2); try done; try tauto.
Qed.

(** When [bread] returns, there was room for the block. *)
Lemma bread_room s b i s' :
  bio_inv s -> bread 1 b s = Ret i s' -> cached s b \/ (pinned s < NBUF)%nat.
Proof.
  intros (Hlen & _ & Hbs & _) Hrun. unfold bread, mbind, K_bind, bget in Hrun.
  destruct (find_cached (lru s) (bufs s) 1 b) as [j|] eqn:Hc.
  { left. destruct (find_cached_some _ _ _ _ _ Hc) as (x & Hx). by exists j, x. }
  destruct (find_unused (rev (lru s)) (bufs s)) as [j|] eqn:Hu; [|done].
  right. destruct (find_unused_some _ _ _ Hu) as (x & Hj & Hr & Hf).
  unfold pinned. rewrite <- Hlen. apply length_filter_lt with x; [by eapply list_elem_of_lookup_2|].
  intros [?|H6]; [done|]. by rewrite H6 in Hf.
Qed.

(** Operations on a buffer the process holds.  [holder s i f b d] says that it
    holds buffer [i], for block [b], with flags [f] and contents [d]. *)
Definition holder (s : bst) (i : nat) (f b : Z) (d : block) : Prop :=
  bufs s !! i = Some (held f b d) /\ (f = 2 \/ f = 6).

Lemma view_holder s i f b d : bio_inv s -> holder s i f b d -> view s b = d.
Proof.
  intros (_ & _ & _ & Hu & _) [Hi Hf]. apply (view_cached s i (held f b d) Hu Hi); cbn; [done|].
  destruct Hf; lia.
Qed.

(** Replacing the contents and flags of a held buffer. *)
Lemma holder_put s i f b d f' d' :
  bio_inv s -> holder s i f b d -> (f' = 2 \/ f' = 6) -> block_ok d' ->
  let s' := put_buf i (held f' b d') s in
  bio_inv s' /\ holder s' i f' b d' /\ view s' b = d' /\
  (forall b', b' <> b -> view s' b' = view s b').
Proof.
  intros Hinv [Hi Hf] Hf' Hd' s'. pose proof (lookup_lt_Some _ _ _ Hi) as Hlt.
  pose proof Hinv as (_ & _ & Hbs & Hu & _).
  destruct (Hbs i _ Hi) as (_ & _ & Hrange & _).
  assert (bio_inv s') as Hinv'.
  { apply inv_put; [done| |].
    - unfold buf_ok, held; cbn. split_and!;
        first [tauto|by apply Hrange|by intros|left; split_and!; [done..|destruct Hf'; lia]].
    - intros _. by apply (fresh_own s i (held f b d)). }
  assert (holder s' i f' b d') as Hh by (split; [by apply lookup_put|done]).
  split_and!; [done..|by apply (view_holder s' i f')|].
  intros b' Hne. unfold s', put_buf, set_bufs. apply (view_put s i (held f b d)); try done.
  - by apply Hinv'.
  - intros (_ & ? & _). cbn in *. congruence.
  - intros (_ & ? & _). cbn in *. congruence.
Qed.

Lemma wp_buf_data s i f b d Q : holder s i f b d -> Q d s -> wp (buf_data i) s Q.
Proof. intros [Hi _] HQ. unfold buf_data. apply wp_bind. eapply wp_get_buf; [done|]. done. Qed.

Lemma wp_set_data s i f b d d' (Q : unit -> bst -> Prop) :
  holder s i f b d -> Q tt (put_buf i (held f b d') s) -> wp (set_data i d') s Q.
Proof. intros [Hi _] HQ. unfold set_data. by eapply wp_upd_buf. Qed.

(** The state after the buffer's contents were written to the disk. *)
Definition written (i : nat) (b : Z) (d : block) (s : bst) : bst :=
  mkbst (<[i := held 2 b d]> (bufs s)) (lru s) (<[b := d]> (disk s)) (disksize s)
    (writes s ++ [(b, d)]).

Lemma wp_bwrite s i f b d (Q : unit -> bst -> Prop) :
  bio_inv s -> holder s i f b d -> Q tt (written i b d s) -> wp (bwrite i) s Q.
Proof.
  intros (_ & _ & Hbs & _) [Hi Hf] HQ. pose proof (lookup_lt_Some _ _ _ Hi) as Hlt.
  destruct (Hbs i _ Hi) as (_ & _ & Hrange & _). specialize (Hrange eq_refl). cbn in Hrange.
  unfold bwrite. apply wp_bind. eapply wp_holdingsleep; [done|]. cbn.
  apply wp_bind. eapply wp_upd_buf; [done|].
  eapply wp_iderw_write; [by apply lookup_put|done| |done|cbn; lia|].
  - cbn. by destruct Hf as [->| ->].
  - unfold put_buf, set_bufs; cbn. rewrite list_insert_insert_eq. exact HQ.
Qed.

Lemma written_spec s i f b d :
  bio_inv s -> holder s i f b d ->
  let s' := written i b d s in
  bio_inv s' /\ holder s' i 2 b d /\ (forall b', view s' b' = view s b') /\
  disk s' = <[b := d]> (disk s) /\ writes s' = writes s ++ [(b, d)].
Proof.
  intros Hinv [Hi Hf] s'. pose proof (lookup_lt_Some _ _ _ Hi) as Hlt.
  pose proof Hinv as (Hlen & Hlru & Hbs & Hu & Hd).
  destruct (Hbs i _ Hi) as (_ & _ & Hrange & Hok & _).
  specialize (Hrange eq_refl). cbn in Hrange, Hok.
  assert (block_ok d) as Hdok by (apply Hok; destruct Hf; lia).
  assert (unique (bufs s')) as Hu'.
  { apply unique_put; [done|]. intros _. by apply (fresh_own s i (held f b d)). }
  assert (bio_inv s') as Hinv'.
  { split_and!; [cbn; by rewrite length_insert|done| |done|].
    - intros j y Hj. cbn in Hj.
      apply list_lookup_insert_Some in Hj as [(<- & <- & _)|[Hne Hj]].
      + unfold buf_ok, held; cbn. split_and!;
          first [tauto|by intros|left; split_and!; [done..|lia]].
      + destruct (Hbs j y Hj) as (H1 & H2 & H3 & H4 & H5). unfold buf_ok.
        split_and!; try done. cbn. intros Hf2 Hl.
        rewrite (H5 Hf2 Hl), lookup_total_insert_ne; [done|].
        intros Heq. apply Hne. eapply Hu; [exact Hi|exact Hj|done|by apply H4; lia|done].
    - intros b' Hb'. cbn in *. destruct (decide (b' = b)) as [->|Hne].
      + rewrite lookup_insert_eq. eauto.
      + rewrite lookup_insert_ne by done. by apply Hd. }
  assert (holder s' i 2 b d) as Hh by (split; [cbn; by apply list_lookup_insert_eq|by left]).
  split_and!; try done. intros b'. destruct (decide (b' = b)) as [->|Hne].
  - rewrite (view_holder s' i 2 b d) by done. by rewrite (view_holder s i f b d).
  - apply (view_put s i (held f b d)); try done.
    + intros (_ & ? & _). cbn in *. congruence.
    + intros (_ & ? & _). cbn in *. congruence.
    + by rewrite lookup_total_insert_ne.
Qed.

(** The state after the buffer was released: it moves to the head of the list. *)
Definition released (i : nat) (f b : Z) (d : block) (s : bst) : bst :=
  set_lru (i :: base.filter (fun j => j <> i) (lru s)) (put_buf i (mkbuf f 1 b false 0 d) s).

Lemma wp_brelse s i f b d (Q : unit -> bst -> Prop) :
  holder s i f b d -> Q tt (released i f b d s) -> wp (brelse i) s Q.
Proof.
  intros [Hi Hf] HQ. pose proof (lookup_lt_Some _ _ _ Hi) as Hlt. unfold brelse.
  apply wp_bind. eapply wp_holdingsleep; [done|]. cbn.
  apply wp_bind. unfold releasesleep. eapply wp_upd_buf; [done|].
  apply wp_bind. eapply wp_upd_buf; [by apply lookup_put|]. rewrite put_put.
  apply wp_bind. eapply wp_get_buf; [by apply lookup_put|]. cbn. by apply wp_modify.
Qed.

Lemma lru_move i n (l : list nat) :
  l ≡ₚ seq 0 n -> (i < n)%nat -> i :: base.filter (fun j => j <> i) l ≡ₚ seq 0 n.
Proof.
  intros Hl Hi. rewrite Hl. apply NoDup_Permutation.
  - constructor; [rewrite list_elem_of_filter; tauto|]. apply NoDup_filter, NoDup_seq.
  - apply NoDup_seq.
  - intros j. rewrite elem_of_cons, list_elem_of_filter, !elem_of_seq. lia.
Qed.

(** A clean buffer must agree with the disk when it is released. *)
Lemma released_spec s i f b d :
  bio_inv s -> holder s i f b d -> (f = 2 -> disk s !!! b = d) ->
  let s' := released i f b d s in
  bio_inv s' /\ (forall b', view s' b' = view s b').
Proof.
  intros Hinv [Hi Hf] Hclean s'. pose proof (lookup_lt_Some _ _ _ Hi) as Hlt.
  pose proof Hinv as (Hlen & Hlru & Hbs & Hu & Hd).
  destruct (Hbs i _ Hi) as (_ & _ & Hrange & Hok & _). cbn in Hrange, Hok.
  set (x' := mkbuf f 1 b false 0 d).
  assert (buf_ok s x') as Hx'.
  { unfold buf_ok, x'; cbn. split_and!; try tauto. intros ? _. symmetry. by apply Hclean. }
  assert (bio_inv (put_buf i x' s)) as Hinv0.
  { apply inv_put; [done..|]. intros _. by apply (fresh_own s i (held f b d)). }
  pose proof Hinv0 as (Hlen0 & Hlru0 & Hbs0 & Hu0 & Hd0).
  assert (bio_inv s') as Hinv'.
  { split_and!; try done. apply (lru_move i NBUF (lru s)); [done|]. by rewrite <- Hlen. }
  split; [done|]. intros b'. destruct (decide (b' = b)) as [->|Hne].
  - rewrite (view_holder s i f b d) by done.
    apply (view_cached s' i x'); [by apply Hinv'|by apply lookup_put|done|].
    cbn. destruct Hf; lia.
  - apply (view_put s i (held f b d)); try done.
    + intros (_ & ? & _). cbn in *. congruence.
    + intros (_ & ? & _). cbn in *. congruence.
Qed.

(** ** Dirty blocks and locked buffers *)

Definition is_dirty (s : bst) (b : Z) : Prop :=
  exists i x, bufs s !! i = Some x /\ flags x = 6 /\ blockno x = b.

Definition locked_only (s : bst) (l : list nat) : Prop :=
  forall i x, bufs s !! i = Some x -> locked x = true -> i ∈ l.

Definition quiet (s : bst) : Prop := locked_only s [].

Lemma dirty_cached s b : bio_inv s -> is_dirty s b -> cached s b.
Proof.
  intros (_ & _ & Hbs & _) (i & x & Hi & Hf & Hb). exists i, x. split_and!; [done| |done].
  by apply (Hbs i x Hi); lia.
Qed.

Lemma locked_only_put s l i x' : locked_only s l -> locked_only (put_buf i x' s) (i :: l).
Proof.
  intros Hl j y Hj Hy. cbn in Hj. apply list_lookup_insert_Some in Hj as [(<- & _)|[_ Hj]].
  - by left.
  - right. by eapply Hl.
Qed.

Lemma locked_only_put_in s l i x' : locked_only s l -> i ∈ l -> locked_only (put_buf i x' s) l.
Proof.
  intros Hl Hin j y Hj Hy. cbn in Hj.
  apply list_lookup_insert_Some in Hj as [(<- & _)|[_ Hj]]; [done|by eapply Hl].
Qed.

Lemma locked_only_put_out s l l' i x' :
  locked_only s l -> locked x' = false -> (forall j, j ∈ l -> j = i \/ j ∈ l') ->
  locked_only (put_buf i x' s) l'.
Proof.
  intros Hl Hx Hsub j y Hj Hy. cbn in Hj.
  apply list_lookup_insert_Some in Hj as [(<- & <- & _)|[Hne Hj]]; [congruence|].
  destruct (Hsub j (Hl j y Hj Hy)); congruence.
Qed.

Lemma is_dirty_put s i x x' b :
  bufs s !! i = Some x -> (flags x' = 6 <-> flags x = 6) ->
  (flags x = 6 -> blockno x' = blockno x) ->
  is_dirty (put_buf i x' s) b <-> is_dirty s b.
Proof.
  intros Hi Hf Hb. pose proof (lookup_lt_Some _ _ _ Hi) as Hlt. split.
  - intros (j & y & Hj & Hy & <-). cbn in Hj.
    apply list_lookup_insert_Some in Hj as [(<- & <- & _)|[_ Hj]].
    + exists i, x. split_and!; [done|tauto|]. symmetry. tauto.
    + exists j, y. done.
  - intros (j & y & Hj & Hy & <-). destruct (decide (i = j)) as [<-|Hne].
    + exists i, x'. rewrite lookup_put by done. simplify_eq. split_and!; tauto.
    + exists j, y. by rewrite lookup_put_ne.
Qed.

Lemma is_dirty_written s i f b d b' :
  bio_inv s -> holder s i f b d -> is_dirty (written i b d s) b' <-> is_dirty s b' /\ b' <> b.
Proof.
  intros (_ & _ & Hbs & Hu & _) [Hi _]. pose proof (lookup_lt_Some _ _ _ Hi) as Hlt. split.
  - intros (j & y & Hj & Hy & <-). cbn in Hj.
    apply list_lookup_insert_Some in Hj as [(<- & <- & _)|[Hne Hj]]; [done|].
    split; [by exists j, y|]. intros Heq. apply Hne.
    eapply Hu; [exact Hi|exact Hj|done|by apply (Hbs j y Hj); lia|done].
  - intros [(j & y & Hj & Hy & <-) Hne]. exists j, y. cbn. split_and!; [|done..].
    rewrite list_lookup_insert_ne; [done|]. intros <-. rewrite Hi in Hj.
    apply Hne. by injection Hj as <-.
Qed.

Lemma pinned_written s i f b d : holder s i f b d -> pinned (written i b d s) = pinned s.
Proof.
  intros [Hi _]. pose proof (pinned_put s i _ (held 2 b d) Hi) as Hp.
  unfold written, pinned, put_buf, set_bufs in *. cbn in *.
  rewrite !decide_True in Hp by (left; cbn; lia). lia.
Qed.

(** The change of [pinned] when a buffer is taken, and when it is released. *)
Lemma pinned_take s i x f b d :
  bufs s !! i = Some x -> locked x = false -> refcnt x = 0 ->
  (pinned (put_buf i (held f b d) s) + (if decide (flags x = 6%Z) then 1 else 0) = pinned s + 1)%nat.
Proof.
  intros Hi Hl Hr. pose proof (pinned_put s i x (held f b d) Hi) as Hp.
  rewrite (decide_True (P := is_pinned (held f b d))) in Hp by (left; cbn; lia).
  unfold is_pinned in *. repeat case_decide; lia || tauto.
Qed.

Lemma pinned_released s i f b d :
  holder s i f b d ->
  (pinned (released i f b d s) + 1 = pinned s + (if decide (f = 6%Z) then 1 else 0))%nat.
Proof.
  intros [Hi _]. pose proof (pinned_put s i _ (mkbuf f 1 b false 0 d) Hi) as Hp.
  change (pinned (released i f b d s)) with (pinned (put_buf i (mkbuf f 1 b false 0 d) s)).
  rewrite (decide_True (P := is_pinned (held f b d))) in Hp by (left; cbn; lia).
  unfold is_pinned in *. cbn in Hp. repeat case_decide; lia || tauto.
Qed.

(** ** Whole transfers

    The log code reads one or two blocks, changes one of them and writes it to
    the disk.  [wrote s0 s l b d p]: with respect to the state [s0] before the
    buffers were read, block [b] has been given the contents [d], in the cache
    and on the disk; the buffers [l] may still be held. *)
Definition wrote (s0 s : bst) (l : list nat) (b : Z) (d : block) (p : nat) : Prop :=
  bio_inv s /\ locked_only s l /\ disksize s = disksize s0 /\
  disk s = <[b := d]> (disk s0) /\ writes s = writes s0 ++ [(b, d)] /\
  view s b = d /\ (forall b', b' <> b -> view s b' = view s0 b') /\
  (forall b', is_dirty s b' <-> is_dirty s0 b' /\ b' <> b) /\ (pinned s <= p)%nat.

Definition xfer (s : bst) (b : Z) (d : block) (s' : bst) : Prop := wrote s s' [] b d (pinned s).

(** What holding a set of buffers, all as the disk and the cache had them, leaves
    unchanged with respect to the state [s0] before they were read. *)
Definition holding (s0 s : bst) (l : list nat) : Prop :=
  bio_inv s /\ locked_only s l /\ disksize s = disksize s0 /\ disk s = disk s0 /\
  writes s = writes s0 /\ (forall b, view s b = view s0 b) /\
  (forall b, is_dirty s b <-> is_dirty s0 b) /\
  (pinned s <= pinned s0 + length l)%nat.

Lemma holding_start s : bio_inv s -> quiet s -> holding s s [].
Proof. intros Hinv Hq. split_and!; try done. cbn; lia. Qed.

Lemma locked_holder s i x :
  bio_inv s -> bufs s !! i = Some x -> locked x = true -> holder s i (flags x) (blockno x) (bdata x).
Proof.
  intros (_ & _ & Hbs & _) Hi Hl.
  destruct (Hbs i x Hi) as (Hfl & [(_ & Hr & Hnz)|[? _]] & _ & Hok & _); [|congruence].
  destruct (Hok Hnz) as [Hd _]. split; [|tauto].
  destruct x; unfold held; cbn in *. by subst.
Qed.

Lemma holding_bread s0 s l b :
  holding s0 s l -> 0 <= b < disksize s0 ->
  (forall i f d, i ∈ l -> ~ holder s i f b d) ->
  (is_dirty s0 b \/ (pinned s < NBUF)%nat) ->
  wp (bread 1 b) s (fun i s' =>
    holding s0 s' (i :: l) /\ (exists f, holder s' i f b (view s0 b)) /\
    (is_dirty s0 b -> pinned s' = pinned s) /\
    (forall j f' b' d', holder s j f' b' d' -> holder s' j f' b' d' /\ j <> i)).
Proof.
  intros (Hinv & Hlk & Hsz & Hdk & Hw & Hv & Hdirty & Hpin) Hb Hfree Hroom.
  eapply wp_mono; [apply bread_spec; [done|lia| |]|].
  - intros i x Hi Hx1 <-. destruct (locked x) eqn:El; [|done]. exfalso.
    eapply Hfree; [by eapply Hlk|]. by apply locked_holder.
  - destruct Hroom as [Hdb|?]; [|by right]. left. apply dirty_cached; [done|]. by apply Hdirty.
  - intros i s' (x & f & Hi & Hl & Hr & Hf & Hf6 & Hx6 & -> & Hinv' & Hv').
    pose proof (lookup_lt_Some _ _ _ Hi) as Hlt.
    pose proof (pinned_take s i x f b (view s b) Hi Hl Hr) as Hpt.
    assert (holder (put_buf i (held f b (view s b)) s) i f b (view s b)) as Hh
      by (split; [by apply lookup_put|done]).
    split_and!.
    + unfold holding. split_and!; try done.
      * by apply locked_only_put.
      * intros b'. by rewrite Hv', Hv.
      * intros b'. rewrite <- Hdirty. apply (is_dirty_put s i x); cbn; [done|done|].
        intros H6. symmetry. auto.
      * cbn [length]. lia.
    + exists f. by rewrite <- Hv.
    + intros Hd. apply Hdirty in Hd as (j & y & Hj & Hy & Hyb).
      assert (j = i) as ->.
      { destruct (decide (j = i)); [done|]. destruct Hinv' as (_ & _ & Hbs' & Hu' & _).
        assert (bufs (put_buf i (held f b (view s b)) s) !! j = Some y) as Hj'
          by (rewrite lookup_put_ne; done).
        eapply Hu'; [exact Hj'|by apply lookup_put| |done|done].
        apply (Hbs' j y Hj'). lia. }
      rewrite Hi in Hj. injection Hj as ->. rewrite decide_True in Hpt by done. lia.
    + intros j f' b' d' [Hj Hf']. assert (j <> i) as Hne.
      { intros ->. rewrite Hi in Hj. by injection Hj as ->. }
      split; [|done]. split; [by rewrite lookup_put_ne|done].
Qed.

(** A held buffer that is clean agrees with the disk, if no holder changed it. *)
Lemma clean_view s b : bio_inv s -> quiet s -> ~ is_dirty s b -> view s b = disk s !!! b.
Proof.
  intros (_ & _ & Hbs & Hu & _) Hq Hd.
  destruct (view_cases s b Hu) as [(i & x & Hi & (Hx1 & <- & Hx3) & ->)|[_ ?]]; [|done].
  destruct (Hbs i x Hi) as (Hfl & _ & _ & _ & Hcl). apply Hcl.
  - destruct Hfl as [?|[?|Hf6]]; [done|done|]. destruct Hd. by exists i, x.
  - destruct (locked x) eqn:El; [|done]. by apply (Hq i x) in El; [apply not_elem_of_nil in El|].
Qed.

Lemma holder_dirty s i f b d : bio_inv s -> holder s i f b d -> f = 6 <-> is_dirty s b.
Proof.
  intros (_ & _ & Hbs & Hu & _) [Hi Hf]. split.
  - intros ->. by exists i, (held 6 b d).
  - intros (j & y & Hj & Hy & Hyb). assert (j = i) as ->.
    { eapply Hu; [exact Hj|exact Hi| |done|done]. apply (Hbs j y Hj). lia. }
    rewrite Hi in Hj. by injection Hj as <-.
Qed.

(** Change the contents of a held buffer and write it. *)
Lemma wp_set_bwrite s0 s l i f b d d' (Q : unit -> bst -> Prop) :
  holding s0 s l -> i ∈ l -> holder s i f b d -> block_ok d' ->
  (forall s', wrote s0 s' l b d' (pinned s) -> holder s' i 2 b d' ->
    (forall j f' b' e, j <> i -> holder s j f' b' e -> holder s' j f' b' e) -> Q tt s') ->
  wp (set_data i d';; bwrite i) s Q.
Proof.
  intros (Hinv & Hlk & Hsz & Hdk & Hw & Hv & Hdirty & Hpin) Hin Hh Hok HQ.
  apply wp_bind. eapply wp_set_data; [done|].
  destruct (holder_put s i f b d f d' Hinv Hh) as (Hinv1 & Hh1 & Hv1 & Hv1'); [apply Hh|done|].
  set (s1 := put_buf i (held f b d') s) in *.
  eapply wp_bwrite; [done..|].
  destruct (written_spec s1 i f b d' Hinv1 Hh1) as (Hinv2 & Hh2 & Hv2 & Hdk2 & Hw2).
  assert (forall b', is_dirty s1 b' <-> is_dirty s b') as Hd1.
  { intros b'. apply (is_dirty_put s i (held f b d)); cbn; [apply Hh|done|done]. }
  apply HQ; [|done|].
  - unfold wrote. split_and!; try done.
    + change (locked_only (put_buf i (held 2 b d') s1) l).
      do 2 (apply locked_only_put_in; [|done]). done.
    + rewrite Hdk2. by f_equal.
    + rewrite Hw2. by f_equal.
    + by rewrite Hv2.
    + intros b' Hne. rewrite Hv2, Hv1' by done. apply Hv.
    + intros b'. rewrite (is_dirty_written s1 i f b d' b' Hinv1 Hh1), Hd1, Hdirty. done.
    + rewrite (pinned_written s1 i f b d' Hh1).
      pose proof (pinned_put s i _ (held f b d') (proj1 Hh)) as Hp. fold s1 in Hp.
      rewrite !decide_True in Hp by (left; cbn; lia). lia.
  - intros j f' b' e Hne [Hj Hf']. split; [|done].
    cbn. rewrite !list_lookup_insert_ne by done. done.
Qed.

Lemma wrote_weaken s0 s l b d p p' : wrote s0 s l b d p -> (p <= p')%nat -> wrote s0 s l b d p'.
Proof.
  unfold wrote. intros (? & ? & ? & ? & ? & ? & ? & ? & Hp) Hle. split_and!; try done. lia.
Qed.

(** Release a buffer whose contents are those of the cache. *)
Lemma wp_wrote_brelse s0 s l l' i f b d c e p (Q : unit -> bst -> Prop) :
  wrote s0 s l b d p -> holder s i f c e ->
  (forall j, j ∈ l -> j = i \/ j ∈ l') -> (f = 2 -> disk s !!! c = e) ->
  (forall s', wrote s0 s' l' b d (p - (if decide (f = 6) then 0 else 1)) ->
    (forall j f' b' e', j <> i -> holder s j f' b' e' -> holder s' j f' b' e') -> Q tt s') ->
  wp (brelse i) s Q.
Proof.
  intros (Hinv & Hlk & Hsz & Hdk & Hw & Hvb & Hv & Hdirty & Hpin) Hh Hsub Hcl HQ.
  eapply wp_brelse; [done|].
  destruct (released_spec s i f c e Hinv Hh Hcl) as (Hinv' & Hv').
  pose proof (pinned_released s i f c e Hh) as Hpr.
  apply HQ.
  - unfold wrote. split_and!; try done.
    + change (locked_only (put_buf i (mkbuf f 1 c false 0 e) s) l').
      by apply (locked_only_put_out s l).
    + by rewrite Hv'.
    + intros b' Hne. rewrite Hv'. by apply Hv.
    + intros b'. rewrite <- Hdirty.
      change (is_dirty (put_buf i (mkbuf f 1 c false 0 e) s) b' <-> is_dirty s b').
      apply (is_dirty_put s i (held f c e)); cbn; [apply Hh|done|done].
    + case_decide; lia.
  - intros j f' b' e' Hne [Hj Hf']. split; [|done]. cbn. by rewrite list_lookup_insert_ne.
Qed.

(** [bread], change, [bwrite], [brelse]. *)
Lemma wp_rewrite_block s b (g : block -> block) (Q : unit -> bst -> Prop) :
  bio_inv s -> quiet s -> 0 <= b < disksize s -> (pinned s < NBUF)%nat ->
  block_ok (g (view s b)) ->
  (forall s', xfer s b (g (view s b)) s' -> Q tt s') ->
  wp (i ← bread 1 b; d ← buf_data i; set_data i (g d);; bwrite i;; brelse i) s Q.
Proof.
  intros Hinv Hq Hb Hroom Hok HQ. apply wp_bind.
  eapply wp_mono; [apply (holding_bread s s []); [by apply holding_start|done| |by right]|].
  { intros ??? Hin. by apply not_elem_of_nil in Hin. }
  intros i s1 (Hhold & (f & Hh) & Hpd & _).
  apply wp_bind. eapply wp_buf_data; [done|].
  assert (pinned s1 <= pinned s + 1)%nat as Hp1 by (destruct Hhold as (_ & _ & _ & _ & _ & _ & _ & Hp); cbn in Hp; lia).
  apply wp_bind_assoc. apply wp_bind.
  eapply wp_set_bwrite; [done|by left|done|done|]. intros s2 Hwr Hh2 _.
  eapply (wp_wrote_brelse s s2 [i] []); [exact Hwr|exact Hh2|set_solver| |].
  - intros _. destruct Hwr as (_ & _ & _ & -> & _). apply lookup_total_insert_eq.
  - intros s3 Hwr3 _. apply HQ. eapply wrote_weaken; [exact Hwr3|].
    rewrite decide_False by lia. lia.
Qed.

(** After block [b] was copied from block [c], release the source buffer [j] and
    the destination buffer [i]. *)
Lemma wp_release_copy s0 s i j f b c p (Q : unit -> bst -> Prop) :
  bio_inv s0 -> quiet s0 -> b <> c -> i <> j ->
  wrote s0 s [i; j] b (view s0 c) p -> holder s i 2 b (view s0 c) -> holder s j f c (view s0 c) ->
  (p <= pinned s0 + (if decide (f = 6%Z) then 1 else 2))%nat ->
  (forall s', xfer s0 b (view s0 c) s' -> Q tt s') ->
  wp (brelse j;; brelse i) s Q.
Proof.
  intros Hinv0 Hq0 Hbc Hij Hwr Hi Hj Hp HQ. apply wp_bind.
  eapply (wp_wrote_brelse s0 s [i; j] [i]); [exact Hwr|exact Hj|set_solver| |].
  - intros ->. pose proof Hwr as (Hinv & _ & _ & -> & _ & _ & _ & Hd & _).
    rewrite lookup_total_insert_ne by done. symmetry. apply clean_view; [done..|].
    intros Hdc. assert (is_dirty s c) as Hdc' by (apply Hd; done).
    by apply (holder_dirty s j 2 c (view s0 c) Hinv Hj) in Hdc'.
  - intros s1 Hwr1 Hkeep.
    eapply (wp_wrote_brelse s0 s1 [i] []); [exact Hwr1|by apply Hkeep; [|exact Hi]|set_solver| |].
    + intros _. destruct Hwr1 as (_ & _ & _ & -> & _). apply lookup_total_insert_eq.
    + intros s2 Hwr2 _. apply HQ. eapply wrote_weaken; [exact Hwr2|].
      repeat case_decide; lia.
Qed.

(** Read the destination, then the source, as [write_log] does. *)
Lemma wp_copy_dst_src s b c (Q : unit -> bst -> Prop) :
  bio_inv s -> quiet s -> 0 <= b < disksize s -> 0 <= c < disksize s -> b <> c ->
  (pinned s < NBUF)%nat -> is_dirty s c \/ (pinned s + 1 < NBUF)%nat ->
  (forall s', xfer s b (view s c) s' -> Q tt s') ->
  wp (i ← bread 1 b; j ← bread 1 c; d ← buf_data j; (set_data i d;; bwrite i);; brelse j;; brelse i)
    s Q.
Proof.
  intros Hinv Hq Hb Hc Hbc Hroom Hroom2 HQ. apply wp_bind.
  eapply wp_mono; [apply (holding_bread s s []); [by apply holding_start|done| |by right]|].
  { intros ??? Hin. by apply not_elem_of_nil in Hin. }
  intros i s1 (Hhold1 & (fi & Hi1) & _ & _). apply wp_bind.
  assert (pinned s1 <= pinned s + 1)%nat as Hp1
    by (destruct Hhold1 as (_ & _ & _ & _ & _ & _ & _ & Hp); cbn in Hp; lia).
  eapply wp_mono; [apply (holding_bread s s1 [i]); [done|done| |]|].
  { intros k f d Hin%list_elem_of_singleton [Hk _]. subst k. destruct Hi1 as [Hi1 _].
    rewrite Hi1 in Hk. by injection Hk. }
  { destruct Hroom2; [by left|]. right. lia. }
  intros j s2 (Hhold2 & (fj & Hj2) & Hpd & Hkeep).
  destruct (Hkeep i _ _ _ Hi1) as [Hi2 Hij].
  apply wp_bind. eapply wp_buf_data; [done|]. apply wp_bind.
  eapply (wp_set_bwrite s s2 [j; i]); [done|set_solver|exact Hi2|by apply view_ok|].
  intros s3 Hwr Hi3 Hkeep3.
  eapply (wp_release_copy s s3 i j fj b c (pinned s2)); try done.
  - revert Hwr. unfold wrote. intros (? & Hlk & Hrest). split_and!; try done; try apply Hrest.
    intros k x Hk Hl. specialize (Hlk k x Hk Hl). set_solver.
  - apply Hkeep3; done.
  - destruct Hhold2 as (Hinv2 & _ & _ & _ & _ & _ & Hd2 & Hp2). cbn in Hp2.
    case_decide as Hf; [|lia].
    apply (holder_dirty s2 j fj c _ Hinv2 Hj2), Hd2, Hpd in Hf. lia.
Qed.

(** Read the source, then the destination, as [install_trans] does. *)
Lemma wp_copy_src_dst s b c (Q : unit -> bst -> Prop) :
  bio_inv s -> quiet s -> 0 <= b < disksize s -> 0 <= c < disksize s -> b <> c ->
  ~ is_dirty s c -> (pinned s < NBUF)%nat -> is_dirty s b \/ (pinned s + 1 < NBUF)%nat ->
  (forall s', xfer s b (view s c) s' -> Q tt s') ->
  wp (j ← bread 1 c; i ← bread 1 b; d ← buf_data j; (set_data i d;; bwrite i);; brelse j;; brelse i)
    s Q.
Proof.
  intros Hinv Hq Hb Hc Hbc Hcl Hroom Hroom2 HQ. apply wp_bind.
  eapply wp_mono; [apply (holding_bread s s []); [by apply holding_start|done| |by right]|].
  { intros ??? Hin. by apply not_elem_of_nil in Hin. }
  intros j s1 (Hhold1 & (fj & Hj1) & _ & _). apply wp_bind.
  assert (pinned s1 <= pinned s + 1)%nat as Hp1
    by (destruct Hhold1 as (_ & _ & _ & _ & _ & _ & _ & Hp); cbn in Hp; lia).
  eapply wp_mono; [apply (holding_bread s s1 [j]); [done|done| |]|].
  { intros k f d Hin%list_elem_of_singleton [Hk _]. subst k. destruct Hj1 as [Hj1 _].
    rewrite Hj1 in Hk. by injection Hk. }
  { destruct Hroom2; [by left|]. right. lia. }
  intros i s2 (Hhold2 & (fi & Hi2) & Hpd & Hkeep).
  destruct (Hkeep j _ _ _ Hj1) as [Hj2 Hij].
  apply wp_bind. eapply wp_buf_data; [done|]. apply wp_bind.
  eapply (wp_set_bwrite s s2 [i; j]); [done|set_solver|exact Hi2|by apply view_ok|].
  intros s3 Hwr Hi3 Hkeep3.
  eapply (wp_release_copy s s3 i j fj b c (pinned s2)); try done.
  - apply Hkeep3; done.
  - destruct Hhold2 as (Hinv2 & _ & _ & _ & _ & _ & Hd2 & Hp2). cbn in Hp2.
    case_decide as Hf; [|lia].
    apply (holder_dirty s2 j fj c _ Hinv2 Hj2), Hd2 in Hf. done.
Qed.

(** Read a block and release it: nothing changes but the order of the list. *)
Lemma wp_read_block {A} s b (k : block -> K bst A) (Q : A -> bst -> Prop) :
  bio_inv s -> quiet s -> 0 <= b < disksize s -> (pinned s < NBUF)%nat ->
  (forall s', holding s s' [] -> wp (k (view s b)) s' Q) ->
  wp (i ← bread 1 b; d ← buf_data i; brelse i;; k d) s Q.
Proof.
  intros Hinv Hq Hb Hroom HQ. apply wp_bind.
  eapply wp_mono; [apply (holding_bread s s []); [by apply holding_start|done| |by right]|].
  { intros ??? Hin. by apply not_elem_of_nil in Hin. }
  intros i s1 (Hhold & (f & Hh) & Hpd & _).
  destruct Hhold as (Hinv1 & Hlk & Hsz & Hdk & Hw & Hv & Hdirty & Hpin). cbn in Hpin.
  assert (f = 2 -> disk s1 !!! b = view s b) as Hcl.
  { intros ->. rewrite Hdk. symmetry. apply clean_view; [done..|]. intros Hd%Hdirty.
    by apply (holder_dirty s1 i 2 b _ Hinv1 Hh) in Hd. }
  apply wp_bind. eapply wp_buf_data; [done|]. apply wp_bind. eapply wp_brelse; [done|].
  apply HQ. destruct (released_spec s1 i f b _ Hinv1 Hh Hcl) as (Hinv2 & Hv2).
  unfold holding. split_and!; try done.
  - change (locked_only (put_buf i (mkbuf f 1 b false 0 (view s b)) s1) []).
    apply (locked_only_put_out s1 [i]); [done..|]. set_solver.
  - intros b'. by rewrite Hv2.
  - intros b'. rewrite <- Hdirty.
    change (is_dirty (put_buf i (mkbuf f 1 b false 0 (view s b)) s1) b' <-> is_dirty s1 b').
    apply (is_dirty_put s1 i (held f b (view s b))); cbn; [apply Hh|done|done].
  - pose proof (pinned_released s1 i f b _ Hh) as Hpr. cbn [length].
    case_decide as Hf; [|lia].
    apply (holder_dirty s1 i f b _ Hinv1 Hh), Hdirty, Hpd in Hf. lia.
Qed.

(** ** The state at boot *)

(** The buffers are in the zeroed data segment. *)
Definition zero_buf : buf := mkbuf 0 0 0 false 0 zero_block.
Definition boot (d : gmap Z block) (size : Z) : bst :=
  binit (mkbst (replicate NBUF zero_buf) [] d size []).

Lemma boot_inv d size :
  (forall b, 0 <= b < size -> exists x, d !! b = Some x /\ block_ok x) ->
  bio_inv (boot d size) /\ quiet (boot d size) /\ pinned (boot d size) = 0%nat /\
  (forall b, ~ is_dirty (boot d size) b) /\ (forall b, view (boot d size) b = d !!! b).
Proof.
  intros Hd.
  assert (forall i x, bufs (boot d size) !! i = Some x -> x = zero_buf) as Hz.
  { intros i x Hi. by apply lookup_replicate in Hi as [-> _]. }
  split_and!.
  - split_and!; [done| | | |done].
    + change (lru (boot d size)) with (rev (seq 0 NBUF)). symmetry. apply Permutation_rev.
    + intros i x Hi. rewrite (Hz i x Hi). unfold buf_ok; cbn. split_and!; first [tauto|lia|by intros []|by intros].
    + intros i j x y Hi Hj Hx. rewrite (Hz i x Hi) in Hx. done.
  - intros i x Hi Hl. by rewrite (Hz i x Hi) in Hl.
  - unfold pinned. assert (base.filter is_pinned (bufs (boot d size)) = []) as ->; [|done].
    done.
  - intros b (i & x & Hi & Hf & _). by rewrite (Hz i x Hi) in Hf.
  - intros b. apply view_uncached. intros i x Hi (Hx & _). by rewrite (Hz i x Hi) in Hx.
Qed.

(** [bread] returns a locked buffer with the current contents of the block,
    whether it was cached, had to be read from the disk, or another buffer had to
    be recycled for it; no block's contents change by it, and the cache stays
    consistent: no block has two buffers, clean buffers agree with the disk. *)
Theorem bread_contents s b :
  bio_inv s -> 0 <= b < disksize s ->
  (forall i x, bufs s !! i = Some x -> dev x = 1 -> blockno x = b -> locked x = false) ->
  cached s b \/ (pinned s < NBUF)%nat ->
  exists i s' x, bread 1 b s = Ret i s' /\ bufs s' !! i = Some x /\
    bdata x = view s b /\ blockno x = b /\ locked x = true /\ valid x = true /\
    bio_inv s' /\ disk s' = disk s /\ forall b', view s' b' = view s b'.
Proof.
  intros Hinv Hb Hfree Hroom.
  destruct (wp_elim _ _ _ (bread_spec s b Hinv Hb Hfree Hroom)) as (i & s' & Hrun & x & f & Hi & _ & _ & Hf & _ & _ & -> & Hinv' & Hv).
  exists i, (put_buf i (held f b (view s b)) s), (held f b (view s b)). split_and!; try done.
  - apply lookup_put. by eapply lookup_lt_Some.
  - by destruct Hf as [->| ->].
Qed.

Lemma bread_contents_witness : exists s, bio_inv s /\
  exists i s' x, bread 1 0 s = Ret i s' /\ bufs s' !! i = Some x /\
    bdata x = view s 0 /\ blockno x = 0 /\ locked x = true /\ valid x = true /\
    bio_inv s' /\ disk s' = disk s /\ forall b', view s' b' = view s b'.
Proof.
  assert (forall b, 0 <= b < 1 -> exists x, ({[0 := zero_block]} : gmap Z block) !! b = Some x /\ block_ok x) as Hd.
  { intros b Hb. exists zero_block. replace b with 0 by lia. rewrite lookup_singleton_eq. split; [reflexivity|].
    split; [reflexivity|]. apply bytes_ok_replicate. unfold is_byte. lia. }
  destruct (boot_inv _ _ Hd) as (Hinv & Hq & Hp & _). exists (boot {[0 := zero_block]} 1). split; [exact Hinv|].
  apply bread_contents; [exact Hinv|cbn; lia| |right; rewrite Hp; unfold NBUF; lia].
  intros i x Hi _ _. destruct (locked x) eqn:E; [|reflexivity].
  destruct (not_elem_of_nil i). by apply (Hq i x).
Defined.

End Bio.
