(* ===== verification/Layout.v ===== *)
(** * The on-disk format (fs.h)

    The superblock, the inode and the directory entry as they are laid out in
    the bytes of a disk block, and where on the disk they are. *)

From S2P Require Export Bio.
Local Open Scope Z_scope.

Definition ROOTINO : Z := 1.
Definition FSSIZE : Z := 1000.
Definition NDIRECT : nat := 12.
Definition NINDIRECT : nat := 128.  (* BSIZE / sizeof(uint) *)
Definition MAXFILE : nat := NDIRECT + NINDIRECT.
Definition IPB : Z := 8.            (* BSIZE / sizeof(struct dinode) *)
Definition BPB : Z := 4096.         (* BSIZE * 8 *)
Definition DIRSIZ : nat := 14.

Module Layout.

Record superblock : Type := mksb {
  sb_size : Z;       (* Size of file system image (blocks) *)
  sb_nblocks : Z;    (* Number of data blocks *)
  sb_ninodes : Z;    (* Number of inodes. *)
  sb_nlog : Z;       (* Number of log blocks *)
  sb_logstart : Z;   (* Block number of first log block *)
  sb_inodestart : Z; (* Block number of first inode block *)
  sb_bmapstart : Z   (* Block number of first free map block *)
}.

(** [memmove(sb, bp->data, sizeof( *sb))] *)
Definition sb_dec (d : block) : superblock :=
  mksb (ld32 d 0) (ld32 d 4) (ld32 d 8) (ld32 d 12) (ld32 d 16) (ld32 d 20) (ld32 d 24).

(** On-disk inode structure; [short] fields are signed. *)
Record dinode : Type := mkdinode {
  d_type : Z; d_major : Z; d_minor : Z; d_nlink : Z;
  d_size : Z;          (* Size of file (bytes) *)
  d_addrs : list Z     (* Data block addresses *)
}.

(** [(struct dinode* )bp->data + inum%IPB] *)
Definition dinode_off (inum : Z) : nat := Z.to_nat (64 * (inum mod IPB)).

Definition load_dinode (d : block) (off : nat) : dinode :=
  mkdinode (lds16 d off) (lds16 d (off + 2)) (lds16 d (off + 4)) (lds16 d (off + 6))
    (ld32 d (off + 8)) ((fun i => ld32 d (off + 12 + 4 * i)) <$> seq 0 (NDIRECT + 1)).

Definition addrs_bytes (l : list Z) : list Z := concat (le_enc 4 <$> l).

(** The stores to the fields of [*dip], one after the other. *)
Definition store_dinode (d : block) (off : nat) (di : dinode) : block :=
  let d := st16 d off (d_type di) in
  let d := st16 d (off + 2) (d_major di) in
  let d := st16 d (off + 4) (d_minor di) in
  let d := st16 d (off + 6) (d_nlink di) in
  let d := st32 d (off + 8) (d_size di) in
  splice (off + 12) (addrs_bytes (d_addrs di)) d.

Definition IBLOCK (i : Z) (sb : superblock) : Z := i / IPB + sb_inodestart sb.
Definition BBLOCK (b : Z) (sb : superblock) : Z := b / BPB + sb_bmapstart sb.

(** ** The inode on disk: what is stored is loaded *)

Definition dinode_ok (di : dinode) : Prop :=
  (- 2 ^ 15 <= d_type di < 2 ^ 15) /\ (- 2 ^ 15 <= d_major di < 2 ^ 15) /\
  (- 2 ^ 15 <= d_minor di < 2 ^ 15) /\ (- 2 ^ 15 <= d_nlink di < 2 ^ 15) /\
  0 <= d_size di < 2 ^ 32 /\ length (d_addrs di) = 13%nat /\ Forall (fun a => 0 <= a < 2 ^ 32) (d_addrs di).

Lemma addrs_bytes_cons a l : addrs_bytes (a :: l) = le_enc 4 a ++ addrs_bytes l.
Proof. done. Qed.

Lemma length_addrs_bytes l : length (addrs_bytes l) = (4 * length l)%nat.
Proof. induction l as [|a l IH]; [done|]. rewrite addrs_bytes_cons, length_app, length_le_enc, IH. cbn. lia. Qed.

Lemma addrs_bytes_ok l : bytes_ok (addrs_bytes l).
Proof.
  induction l as [|a l IH]; [constructor|]. rewrite addrs_bytes_cons. apply Forall_app. split; [apply le_enc_bytes|done].
Qed.

Lemma slice_addrs_bytes l i a : l !! i = Some a -> slice (4 * i) 4 (addrs_bytes l) = le_enc 4 a.
Proof.
  revert i. induction l as [|x l IH]; intros [|i] Ha; [done..| |]; rewrite addrs_bytes_cons.
  - injection Ha as ->. rewrite Nat.mul_0_r. unfold slice. rewrite drop_0. by rewrite take_app_length'.
  - unfold slice. replace (4 * S i)%nat with (length (le_enc 4 x) + 4 * i)%nat by (rewrite length_le_enc; lia).
    rewrite drop_app_add. by apply IH.
Qed.

(** The bytes of an inode. *)
Definition dinode_head (di : dinode) : list Z :=
  le_enc 2 (d_type di) ++ le_enc 2 (d_major di) ++ le_enc 2 (d_minor di) ++ le_enc 2 (d_nlink di) ++ le_enc 4 (d_size di).
Definition dinode_bytes (di : dinode) : list Z := dinode_head di ++ addrs_bytes (d_addrs di).

Lemma length_dinode_bytes di : length (d_addrs di) = 13%nat -> length (dinode_bytes di) = 64%nat.
Proof. intros Hl. unfold dinode_bytes. rewrite length_app, length_addrs_bytes, Hl. done. Qed.

Lemma store_dinode_splice (d : list Z) off di :
  (off + 64 <= length d)%nat -> length (d_addrs di) = 13%nat -> store_dinode d off di = splice off (dinode_bytes di) d.
Proof.
  intros Hd Hl. unfold store_dinode, st16, st32, dinode_bytes.
  change (splice (off + 2) ?e) with (splice (off + length (le_enc 2 (d_type di))) e).
  rewrite splice_splice_app by (rewrite !length_le_enc; lia).
  change (splice (off + 4) ?e) with (splice (off + length (le_enc 2 (d_type di) ++ le_enc 2 (d_major di))) e).
  rewrite splice_splice_app by (rewrite length_app, !length_le_enc; lia).
  change (splice (off + 6) ?e) with
    (splice (off + length ((le_enc 2 (d_type di) ++ le_enc 2 (d_major di)) ++ le_enc 2 (d_minor di))) e).
  rewrite splice_splice_app by (rewrite !length_app, !length_le_enc; lia).
  change (splice (off + 8) ?e) with (splice (off + length (((le_enc 2 (d_type di) ++ le_enc 2 (d_major di)) ++
    le_enc 2 (d_minor di)) ++ le_enc 2 (d_nlink di))) e).
  rewrite splice_splice_app by (rewrite !length_app, !length_le_enc; lia).
  rewrite <- !app_assoc. change (splice (off + 12) ?e) with (splice (off + length (dinode_head di)) e).
  rewrite splice_splice_app; [done|]. rewrite length_addrs_bytes, Hl. cbn. lia.
Qed.

(** Storing an inode and loading it. *)
Lemma load_store_dinode (d : list Z) off di :
  (off + 64 <= length d)%nat -> dinode_ok di -> load_dinode (store_dinode d off di) off = di.
Proof.
  intros Hd (Ht & Hma & Hmi & Hn & Hz & Hl & Hr). rewrite store_dinode_splice by done.
  pose proof (length_dinode_bytes di Hl) as Hlen.
  assert (forall k n, (k + n <= 64)%nat -> slice (off + k) n (splice off (dinode_bytes di) d) = slice k n (dinode_bytes di)) as Hs
    by (intros; apply slice_splice_in; lia).
  unfold load_dinode, lds16, ld16, ld32. rewrite <- (Nat.add_0_r off) at 1. rewrite !Hs by lia.
  change (slice 0 2 (dinode_bytes di)) with (le_enc 2 (d_type di)).
  change (slice 2 2 (dinode_bytes di)) with (le_enc 2 (d_major di)).
  change (slice 4 2 (dinode_bytes di)) with (le_enc 2 (d_minor di)).
  change (slice 6 2 (dinode_bytes di)) with (le_enc 2 (d_nlink di)).
  change (slice 8 4 (dinode_bytes di)) with (le_enc 4 (d_size di)). rewrite !le_dec_enc.
  change (?x mod 256 ^ Z.of_nat 2) with (u16 x). change (?x mod 256 ^ Z.of_nat 4) with (u32 x).
  rewrite !s16_u16, u32_small by lia. change (NDIRECT + 1)%nat with 13%nat.
  enough (((fun i => le_dec (slice (off + 12 + 4 * i) 4 (splice off (dinode_bytes di) d))) <$> seq 0 13) = d_addrs di) as ->
    by (by destruct di).
  apply list_eq. intros i. rewrite list_lookup_fmap. destruct (decide (i < 13)%nat) as [Hi|Hi].
  - rewrite lookup_seq_lt by lia. cbn [fmap option_fmap option_map].
    destruct (lookup_lt_is_Some_2 (d_addrs di) i ltac:(lia)) as [a Hia]. rewrite Hia. f_equal.
    replace (off + 12 + 4 * (0 + i))%nat with (off + (12 + 4 * i))%nat by lia. rewrite Hs by lia.
    change (slice (12 + 4 * i) 4 (dinode_bytes di)) with (slice (4 * i) 4 (addrs_bytes (d_addrs di))).
    rewrite (slice_addrs_bytes _ _ a Hia), le_dec_enc. apply Z.mod_small. exact (Forall_lookup_1 _ _ _ _ Hr Hia).
  - rewrite lookup_ge_None_2 by (rewrite length_seq; lia). symmetry. apply lookup_ge_None_2. lia.
Qed.

Lemma store_dinode_bytes (d : list Z) off di : bytes_ok d -> bytes_ok (store_dinode d off di).
Proof.
  intros Hd. unfold store_dinode, st32, st16.
  repeat (apply bytes_ok_splice; [by apply addrs_bytes_ok || apply le_enc_bytes|]). done.
Qed.

End Layout.
