(* ===== verification/IdeSpec.v ===== *)
(** * The disk driver carries out its requests (ide.c)

    What the driver relies on of the controller ([IdeLaws]), the queue of requests as a list,
    and the system of processes and interrupts. *)

From S2P Require Export Ide.
Local Open Scope Z_scope.

(** The contents of the disks: disk 0 or 1, and the sector. *)
Definition disks : Type := Z -> Z -> block.
Definition dupd (c : disks) (dv n : Z) (d : block) : disks :=
  fun dv' n' => if decide (dv' = dv /\ n' = n) then d else c dv' n'.

Inductive request : Type := Rd (dv n : Z) | Wr (dv n : Z) (d : block).

(** The registers written for a sector. *)
Definition issue {D} `{!IdeOps D} (dv n : Z) (d : D) : D :=
  hw_outb 502 (Z.lor (Z.lor 224 (Z.shiftl dv 4)) (Z.land (Z.shiftr n 24) 15))
    (hw_outb 501 (Z.land (Z.shiftr n 16) 255) (hw_outb 500 (Z.land (Z.shiftr n 8) 255)
      (hw_outb 499 (Z.land n 255) (hw_outb 498 1 (hw_outb 1014 0 d))))).

(** Reading the status register until it says ready. *)
Fixpoint poll {D} `{!IdeOps D} (n : nat) (d : D) : option (Z * D) :=
  match n with
  | O => None
  | S n => let '(r, d') := hw_inb 503 d in if Z.land r 192 =? 64 then Some (r, d') else poll n d'
  end.

(** The controller with the contents [c] of the disks is idle; is working on a request; has
    the data of a sector ready, without an error.  [hw_finish] is the end of its work, when it
    raises the interrupt; an idle controller raises none.  While disk 1 is selected without a
    command ([hw_probing]) the status is zero if there is no such disk. *)
Class IdeLaws (D : Type) `{!IdeOps D} : Type := {
  hw_idle : disks -> D -> Prop;
  hw_working : disks -> request -> D -> Prop;
  hw_loaded : disks -> Z -> Z -> D -> Prop;
  hw_finish : D -> D -> Prop;
  hw_probing : disks -> D -> Prop;
  hw_disk1 : bool;
  hw_idle_status c d : hw_idle c d -> exists r d', poll hw_polls d = Some (r, d') /\ hw_idle c d';
  hw_loaded_status c dv n d :
    hw_loaded c dv n d -> exists r d', poll hw_polls d = Some (r, d') /\ Z.land r 33 = 0 /\ hw_loaded c dv n d';
  hw_probe c d : hw_idle c d -> hw_probing c (hw_outb 502 240 d);
  hw_probe_status c d : hw_probing c d -> hw_probing c (hw_inb 503 d).2 /\ ((hw_inb 503 d).1 = 0 <-> hw_disk1 = false);
  hw_probe_end c d : hw_probing c d -> hw_idle c (hw_outb 502 224 d);
  hw_read c dv n d :
    hw_idle c d -> dv = 0 \/ dv = 1 -> 0 <= n < 2 ^ 28 -> hw_working c (Rd dv n) (hw_outb 503 32 (issue dv n d));
  hw_write c dv n b d :
    hw_idle c d -> dv = 0 \/ dv = 1 -> 0 <= n < 2 ^ 28 -> length b = 512%nat ->
    hw_working c (Wr dv n b) (hw_outsl 496 b (hw_outb 503 48 (issue dv n d)));
  hw_idle_quiet c d d' : hw_idle c d -> ~ hw_finish d d';
  hw_finish_ex c r d : hw_working c r d -> exists d', hw_finish d d';
  hw_finish_read c dv n d d' : hw_working c (Rd dv n) d -> hw_finish d d' -> hw_loaded c dv n d';
  hw_finish_write c dv n b d d' : hw_working c (Wr dv n b) d -> hw_finish d d' -> hw_idle (dupd c dv n b) d';
  hw_insl_data c dv n d : hw_loaded c dv n d -> (hw_insl 496 128 d).1 = c dv n /\ hw_idle c (hw_insl 496 128 d).2
}.

Module IdeSpec.
Import Bio Ide.

(** ** The queue *)

Inductive chain (nx : list (option nat)) : option nat -> list nat -> Prop :=
  | chain_nil : chain nx None []
  | chain_cons b q l : nx !! b = Some q -> chain nx q l -> chain nx (Some b) (b :: l).

Lemma chain_agree nx nx' q l : (forall b, b ∈ l -> nx' !! b = nx !! b) -> chain nx q l -> chain nx' q l.
Proof.
  intros He Hc. induction Hc as [|b q l Hb Hc IH]; [constructor|]. econstructor; [rewrite He by left; done|].
  apply IH. intros a Ha. apply He. by right.
Qed.

Lemma chain_head nx q l : chain nx q l -> q = head l.
Proof. by destruct 1. Qed.

Lemma chain_lookup nx q l b : chain nx q l -> b ∈ l -> (b < length nx)%nat.
Proof.
  induction 1 as [|a q l Ha Hc IH]; [by intros ?%elem_of_nil|]. intros [->|Hb]%elem_of_cons; [by eapply lookup_lt_Some|by apply IH].
Qed.

(** A buffer appended behind the last one. *)
Lemma chain_snoc nx q l z b :
  chain nx q l -> NoDup l -> last l = Some z -> nx !! b = Some None -> (b ∉ l) -> chain (<[z := Some b]> nx) q (l ++ [b]).
Proof.
  intros Hc. induction Hc as [|a q l Ha Hc IH]; intros Hnd Hz Hb Hbl; [done|]. apply NoDup_cons in Hnd as [Hal Hnd].
  apply not_elem_of_cons in Hbl as [Hba Hbl]. destruct l as [|a' l].
  - cbn in Hz. injection Hz as <-. cbn. econstructor; [apply list_lookup_insert_eq; by eapply lookup_lt_Some|].
    econstructor; [rewrite list_lookup_insert_ne by done; exact Hb|constructor].
  - cbn [app]. econstructor.
    + rewrite list_lookup_insert_ne; [exact Ha|]. intros ->. apply Hal. apply last_Some_elem_of. exact Hz.
    + apply IH; done.
Qed.

Section Spec.
Context {D : Type} `{!IdeOps D} `{!IdeLaws D}.
Implicit Types (s : ide D) (c : disks) (l : list nat) (x : buf).

(** A buffer with a request. *)
Definition req_ok x : Prop :=
  (dev x = 0 \/ dev x = 1) /\ 0 <= blockno x < FSSIZE /\ length (bdata x) = 512%nat /\
  Z.land (flags x) (Z.lor B_VALID B_DIRTY) <> B_VALID.
Definition req x : request := if dirty x then Wr (dev x) (blockno x) (bdata x) else Rd (dev x) (blockno x).

(** What a request does to the disks and the buffer. *)
Definition sync_flags (f : Z) : Z := Z.land (Z.lor f B_VALID) (Z.lnot B_DIRTY).
Definition sync c x : disks * buf :=
  if dirty x then (dupd c (dev x) (blockno x) (bdata x), set_flags (sync_flags (flags x)) x)
  else (c, set_flags (sync_flags (flags x)) (set_bdata (c (dev x) (blockno x)) x)).

(** ** The parts of the driver *)

Lemma wp_buf_at s b x (Q : buf -> ide D -> Prop) : ib s !! b = Some x -> Q x s -> wp (buf_at b) s Q.
Proof. intros Hx HQ. unfold buf_at. eapply wp_arr_get; [exact Hx|exact HQ]. Qed.

Lemma wp_upd_at s b x f (Q : unit -> ide D -> Prop) :
  ib s !! b = Some x -> Q tt (set_ib (<[b := f x]> (ib s)) s) -> wp (upd_at b f) s Q.
Proof. intros Hx HQ. apply wp_bind. eapply wp_buf_at; [exact Hx|]. by apply wp_modify. Qed.

Lemma wp_put_qnext s b q q' (Q : unit -> ide D -> Prop) :
  qnext s !! b = Some q' -> Q tt (set_qnext (<[b := q]> (qnext s)) s) -> wp (put_qnext b q) s Q.
Proof. intros Hx HQ. apply wp_bind. eapply wp_arr_get; [exact Hx|]. by apply wp_modify. Qed.

Lemma ide_ready_wp n s r d (Q : Z -> ide D -> Prop) :
  poll n (hw s) = Some (r, d) -> Q r (set_hw d s) -> wp (ide_ready n) s Q.
Proof.
  revert s. induction n as [|n IH]; intros s Hp HQ; [done|]. cbn [poll ide_ready] in *. apply wp_bind. unfold inb, wp at 1.
  destruct (hw_inb 503 (hw s)) as [r' d']. change (Z.lor IDE_BSY IDE_DRDY) with 192. change IDE_DRDY with 64.
  destruct (Z.land r' 192 =? 64); cbn [negb].
  - injection Hp as <- <-. by apply wp_ret.
  - apply IH; [exact Hp|]. destruct s. exact HQ.
Qed.

Lemma idewait_idle s c (Q : Z -> ide D -> Prop) :
  hw_idle c (hw s) -> (forall d, hw_idle c d -> Q 0 (set_hw d s)) -> wp (idewait false) s Q.
Proof.
  intros Hi HQ. destruct (hw_idle_status c (hw s) Hi) as (r & d & Hp & Hi'). apply wp_bind.
  eapply ide_ready_wp; [exact Hp|]. apply wp_ret. by apply HQ.
Qed.

Lemma idewait_loaded s c dv n (Q : Z -> ide D -> Prop) :
  hw_loaded c dv n (hw s) -> (forall d, hw_loaded c dv n d -> Q 0 (set_hw d s)) -> wp (idewait true) s Q.
Proof.
  intros Hi HQ. destruct (hw_loaded_status c dv n (hw s) Hi) as (r & d & Hp & Her & Hi'). apply wp_bind.
  eapply ide_ready_wp; [exact Hp|]. change (Z.lor IDE_DF IDE_ERR) with 33. rewrite Her. apply wp_ret. by apply HQ.
Qed.

Lemma idestart_wp s c b x (Q : unit -> ide D -> Prop) :
  ib s !! b = Some x -> req_ok x -> hw_idle c (hw s) ->
  (forall d, hw_working c (req x) d -> Q tt (set_hw d s)) -> wp (idestart (Some b)) s Q.
Proof.
  intros Hx (Hdev & Hblk & Hlen & _) Hi HQ. unfold idestart. apply wp_bind. eapply wp_buf_at; [exact Hx|].
  rewrite (proj2 (Z.leb_gt _ _)) by lia. change (512 / SECTOR_SIZE) with 1. rewrite Z.mul_1_r. cbn [Z.ltb Z.eqb Pos.eqb Z.compare Pos.compare Pos.compare_cont].
  apply wp_bind. eapply idewait_idle; [exact Hi|]. intros d Hd. unfold FSSIZE in Hblk.
  assert (Z.land (dev x) 1 = dev x) as Hdv by (destruct Hdev as [-> | ->]; done).
  do 6 (apply wp_bind, wp_modify). rewrite Hdv. unfold req in HQ. destruct (dirty x) eqn:Hdirty.
  - apply wp_bind, wp_modify, wp_modify. refine (HQ _ _). apply hw_write; [done|done|lia|done].
  - apply wp_modify. refine (HQ _ _). apply hw_read; [done|done|lia].
Qed.

Lemma queue_last_wp fuel : forall s b l z (Q : nat -> ide D -> Prop),
  chain (qnext s) (Some b) l -> last l = Some z -> (length l <= fuel)%nat -> Q z s -> wp (queue_last fuel b) s Q.
Proof.
  induction fuel as [|fuel IH]; intros s b l z Q Hc Hz Hf HQ; inversion Hc as [|b' q l' Hb Hc']; subst; [cbn in Hf; lia|].
  cbn [queue_last]. apply wp_bind. eapply wp_arr_get; [exact Hb|]. destruct q as [b'|].
  - eapply IH; [exact Hc'| |cbn in Hf; lia|exact HQ]. inversion Hc'; subst. exact Hz.
  - inversion Hc'; subst. injection Hz as <-. by apply wp_ret.
Qed.

Lemma queue_append_wp s b l (Q : unit -> ide D -> Prop) :
  chain (qnext s) (idequeue s) l -> NoDup l -> (b ∉ l) -> (b < length (qnext s))%nat ->
  (forall nx q, chain nx q (l ++ [b]) -> length nx = length (qnext s) -> Q tt (mkide (ib s) nx q (havedisk1 s) (hw s))) ->
  wp (append b) s Q.
Proof.
  intros Hc Hnd Hb Hlt HQ. destruct (lookup_lt_is_Some_2 (qnext s) b Hlt) as [q Hq]. unfold append.
  apply wp_bind. eapply wp_put_qnext; [exact Hq|]. set (nx := <[b := None]> (qnext s)).
  assert (chain nx (idequeue s) l) as Hc1 by (eapply chain_agree; [|exact Hc]; intros a Ha; apply list_lookup_insert_ne; congruence).
  assert (nx !! b = Some None) as Hnb by (by apply list_lookup_insert_eq).
  assert (length nx = length (qnext s)) as Hnl by apply length_insert.
  apply wp_bind, wp_gets. cbn [idequeue set_qnext]. pose proof (chain_head _ _ _ Hc1) as Hh. destruct l as [|h l].
  - cbn in Hh. rewrite Hh. apply wp_modify. refine (HQ _ _ _ Hnl). econstructor; [exact Hnb|constructor].
  - cbn in Hh. rewrite Hh in Hc1 |- *. apply wp_bind, wp_gets. cbn [qnext set_qnext].
    destruct (last (h :: l)) as [z|] eqn:Hz; [|by apply last_None in Hz]. apply wp_bind.
    eapply (queue_last_wp _ _ h (h :: l) z); [exact Hc1|exact Hz| |].
    { rewrite <- (length_seq (length nx) 0). apply submseteq_length, NoDup_submseteq; [done|].
      intros a Ha. apply elem_of_seq. pose proof (chain_lookup _ _ _ a Hc1 Ha). lia. }
    assert (z ∈ h :: l) as Hzl by (by apply last_Some_elem_of).
    destruct (lookup_lt_is_Some_2 nx z (chain_lookup _ _ _ z Hc1 Hzl)) as [qz Hqz].
    eapply wp_put_qnext; [exact Hqz|]. refine (HQ _ _ _ _); [|by rewrite length_insert]. cbn [idequeue set_qnext].
    rewrite Hh. by apply chain_snoc.
Qed.

(** ** The driver between two calls *)

Record driver_ok s c l : Prop := {
  do_len : length (qnext s) = length (ib s);
  do_chain : chain (qnext s) (idequeue s) l;
  do_nodup : NoDup l;
  do_reqs : forall b, b ∈ l -> exists x, ib s !! b = Some x /\ req_ok x;
  do_disks : forall dv n, length (c dv n) = 512%nat;
  do_hw : match l with [] => hw_idle c (hw s) | b :: _ => exists x, ib s !! b = Some x /\ hw_working c (req x) (hw s) end
}.

Lemma probe_wp n s c (Q : unit -> ide D -> Prop) :
  (0 < n)%nat -> hw_probing c (hw s) -> havedisk1 s = false ->
  (forall d, hw_probing c d -> Q tt (mkide (ib s) (qnext s) (idequeue s) hw_disk1 d)) -> wp (probe n) s Q.
Proof.
  intros Hn Hp Hh HQ. revert s Hn Hp Hh HQ. induction n as [|n IH]; intros s Hn Hp Hh HQ; [lia|]. cbn [probe].
  apply wp_bind. unfold inb, wp at 1. destruct (hw_probe_status c _ Hp) as [Hp' Hst]. destruct (hw_inb 503 (hw s)) as [r d].
  cbn [fst snd] in *. destruct (r =? 0) eqn:Hr; cbn [negb].
  - destruct n as [|n].
    + apply wp_ret. unfold set_hw. rewrite Hh, <- (proj1 Hst (proj1 (Z.eqb_eq _ _) Hr)). by apply HQ.
    + apply IH; [lia|done|done|]. exact HQ.
  - apply wp_modify. cbn. specialize (HQ d Hp'). destruct hw_disk1; [exact HQ|]. apply Z.eqb_neq in Hr. by destruct (Hr (proj2 Hst eq_refl)).
Qed.

(** [ideinit] leaves the driver without requests and finds out whether there is a disk 1. *)
Lemma ideinit_wp s c (Q : unit -> ide D -> Prop) :
  length (qnext s) = length (ib s) -> idequeue s = None -> havedisk1 s = false -> hw_idle c (hw s) ->
  (forall dv n, length (c dv n) = 512%nat) ->
  (forall s', driver_ok s' c [] -> ib s' = ib s -> havedisk1 s' = hw_disk1 -> Q tt s') -> wp ideinit s Q.
Proof.
  intros Hlen Hq Hh Hi Hc HQ. apply wp_bind. eapply idewait_idle; [exact Hi|]. intros d Hd. apply wp_bind, wp_modify, wp_bind.
  change (Z.lor 224 (Z.shiftl 1 4)) with 240. change (Z.lor 224 (Z.shiftl 0 4)) with 224.
  eapply probe_wp; [lia|by apply hw_probe|done|]. intros d' Hd'. apply wp_modify. apply HQ; [|done|done].
  split; cbn; try done; [rewrite Hq; constructor|constructor|by intros b ?%elem_of_nil|by apply hw_probe_end].
Qed.

(** A function goes to sleep. *)
Definition sleeps {A} (m : K (ide D) A) s (Q : chan -> ide D -> Prop) : Prop :=
  match m s with Sleep ch s' => Q ch s' | _ => False end.

Lemma sleeps_bind {A B} (m : K (ide D) A) (k : A -> K (ide D) B) s Q :
  wp m s (fun a s' => sleeps (k a) s' Q) -> sleeps (m ≫= k) s Q.
Proof. unfold wp, sleeps, mbind, K_bind. by destruct (m s). Qed.

(** [iderw] puts the request at the end of the queue and sleeps. *)
Lemma iderw_sleeps s c l b x :
  driver_ok s c l -> (b ∉ l) -> ib s !! b = Some x -> req_ok x -> locked x = true -> dev x = 0 \/ havedisk1 s = true ->
  sleeps (iderw b) s (fun ch s' => ch = ChBuf b /\ driver_ok s' c (l ++ [b]) /\ ib s' = ib s /\ havedisk1 s' = havedisk1 s).
Proof.
  intros Hd Hbl Hx Hr Hlk Hdev. pose proof Hr as (_ & _ & _ & Hfl). pose proof (lookup_lt_Some _ _ _ Hx) as Hlt.
  assert (forall s', ib s' = ib s -> driver_ok s' c (l ++ [b]) -> havedisk1 s' = havedisk1 s ->
    sleeps (iderw_wait b) s' (fun ch s' => ch = ChBuf b /\ driver_ok s' c (l ++ [b]) /\ ib s' = ib s /\ havedisk1 s' = havedisk1 s)) as Hend.
  { intros s' Hib Hd' Hh. apply sleeps_bind. eapply wp_buf_at; [by rewrite Hib|]. by rewrite (proj2 (Z.eqb_neq _ _) Hfl). }
  unfold iderw. apply sleeps_bind. eapply wp_buf_at; [exact Hx|]. rewrite Hlk. cbn [negb]. rewrite (proj2 (Z.eqb_neq _ _) Hfl).
  apply sleeps_bind, wp_gets.
  assert ((negb (dev x =? 0) && negb (havedisk1 s))%bool = false) as -> by (destruct Hdev as [-> | ->]; [done|apply andb_false_r]).
  apply sleeps_bind. eapply queue_append_wp; [apply (do_chain _ _ _ Hd)|apply (do_nodup _ _ _ Hd)|done|by rewrite (do_len _ _ _ Hd)|].
  intros nx q Hc Hnl. apply sleeps_bind, wp_gets. cbn [idequeue]. pose proof (chain_head _ _ _ Hc) as Hq.
  assert (NoDup (l ++ [b])) as Hnd.
  { apply NoDup_app. split; [apply (do_nodup _ _ _ Hd)|]. split; [|apply NoDup_singleton]. intros a Ha ->%list_elem_of_singleton. done. }
  assert (forall a, a ∈ l ++ [b] -> exists x, ib s !! a = Some x /\ req_ok x) as Hreqs.
  { intros a [Ha| ->%list_elem_of_singleton]%elem_of_app; [by apply (do_reqs _ _ _ Hd)|by exists x]. }
  pose proof (do_hw _ _ _ Hd) as Hhw. apply sleeps_bind. destruct l as [|h l].
  - cbn in Hq. rewrite Hq, bool_decide_eq_true_2 by done. eapply (idestart_wp _ c); [exact Hx|exact Hr|exact Hhw|].
    intros d Hw. apply Hend; [done| |done]. split; cbn; try done; [by rewrite Hnl, (do_len _ _ _ Hd)|by rewrite <- Hq|apply (do_disks _ _ _ Hd)|by exists x].
  - cbn in Hq. rewrite Hq, bool_decide_eq_false_2.
    + apply wp_ret. apply Hend; [done| |done]. split; cbn; try done; [by rewrite Hnl, (do_len _ _ _ Hd)|by rewrite <- Hq|apply (do_disks _ _ _ Hd)].
    + intros [= ->]. apply Hbl. left.
Qed.

(** The controller has finished the request of [x]. *)
Definition finished c x (d : D) : Prop :=
  if dirty x then hw_idle (dupd c (dev x) (blockno x) (bdata x)) d else hw_loaded c (dev x) (blockno x) d.

Lemma finish_req c x d d' : hw_working c (req x) d -> hw_finish d d' -> finished c x d'.
Proof.
  unfold req, finished. destruct (dirty x); intros Hw Hf; [by eapply hw_finish_write|by eapply hw_finish_read].
Qed.

Lemma length_dupd c dv n d : length d = 512%nat -> (forall dv n, length (c dv n) = 512%nat) ->
  forall dv' n', length (dupd c dv n d dv' n') = 512%nat.
Proof. intros Hd Hc dv' n'. unfold dupd. by case_decide. Qed.

(** The part of [ideintr] that reads the data. *)
Lemma read_data_wp s c b x (Q : unit -> ide D -> Prop) :
  ib s !! b = Some x -> finished c x (hw s) ->
  (forall d, hw_idle (sync c x).1 d ->
     Q tt (set_hw d (set_ib (<[b := if dirty x then x else set_bdata (c (dev x) (blockno x)) x]> (ib s)) s))) ->
  wp (if dirty x then mret tt else r ← idewait true; if 0 <=? r then d ← insl 496 (512 / 4); upd_at b (set_bdata d) else mret tt) s Q.
Proof.
  unfold finished, sync. intros Hx Hf HQ. destruct (dirty x).
  - apply wp_ret. specialize (HQ _ Hf). rewrite list_insert_id in HQ by done. by destruct s.
  - apply wp_bind. eapply idewait_loaded; [exact Hf|]. intros d Hd. cbn [Z.leb Z.compare]. apply wp_bind.
    change (512 / 4)%nat with 128%nat. destruct (hw_insl_data _ _ _ _ Hd) as [Hdata Hi]. unfold insl, wp at 1. cbn [hw set_hw].
    destruct (hw_insl 496 128 d) as [r d']. cbn [fst snd] in *. subst r. eapply wp_upd_at; [exact Hx|]. by apply (HQ d').
Qed.

Lemma ideintr_wp s c l b x (Q : option nat -> ide D -> Prop) :
  length (qnext s) = length (ib s) -> chain (qnext s) (idequeue s) (b :: l) -> NoDup (b :: l) ->
  (forall a, a ∈ b :: l -> exists x, ib s !! a = Some x /\ req_ok x) -> (forall dv n, length (c dv n) = 512%nat) ->
  ib s !! b = Some x -> finished c x (hw s) ->
  (forall s', driver_ok s' (sync c x).1 l -> ib s' = <[b := (sync c x).2]> (ib s) -> havedisk1 s' = havedisk1 s -> Q (Some b) s') ->
  wp ideintr s Q.
Proof.
  intros Hlen Hc Hnd Hreqs Hdl Hx Hf HQ. pose proof (chain_head _ _ _ Hc) as Hq. cbn in Hq. rewrite Hq in Hc.
  apply NoDup_cons in Hnd as [Hbl Hnd]. pose proof (lookup_lt_Some _ _ _ Hx) as Hlt.
  inversion Hc as [|b' q l' Hb Hc']; subst b' l'. unfold ideintr. apply wp_bind, wp_gets. rewrite Hq.
  apply wp_bind. eapply wp_arr_get; [exact Hb|]. apply wp_bind, wp_modify, wp_bind. eapply wp_buf_at; [exact Hx|].
  apply wp_bind. eapply (read_data_wp _ c); [exact Hx|exact Hf|]. intros d Hd. cbn [ib set_queue set_ib set_hw].
  set (y := if dirty x then x else set_bdata (c (dev x) (blockno x)) x).
  apply wp_bind. eapply wp_upd_at; [cbn; by apply list_lookup_insert_eq|]. cbn [ib set_queue set_ib set_hw]. rewrite list_insert_insert_eq.
  apply wp_bind. eapply wp_upd_at; [cbn; by apply list_lookup_insert_eq|]. cbn [ib set_queue set_ib set_hw]. rewrite list_insert_insert_eq.
  set (z := set_flags _ _). assert (z = (sync c x).2) as Hz by (unfold z, y, sync; by destruct (dirty x)).
  assert (length (ib s) = length (<[b := z]> (ib s))) as Hzl by (by rewrite length_insert).
  assert (forall a, a ∈ l -> <[b := z]> (ib s) !! a = ib s !! a) as Hag by (intros a Ha; apply list_lookup_insert_ne; congruence).
  assert (forall dv n, length ((sync c x).1 dv n) = 512%nat) as Hdl'.
  { unfold sync. destruct (dirty x); [|exact Hdl]. apply length_dupd; [|exact Hdl].
    destruct (Hreqs b ltac:(left)) as (x' & Hx' & _ & _ & Hl & _). congruence. }
  assert (forall a, a ∈ l -> exists x, <[b := z]> (ib s) !! a = Some x /\ req_ok x) as Hreqs'.
  { intros a Ha. rewrite Hag by done. apply Hreqs. by right. }
  apply wp_bind, wp_gets. cbn [idequeue set_queue set_ib set_hw]. apply wp_bind. pose proof (chain_head _ _ _ Hc') as Hq'.
  destruct l as [|h l]; cbn in Hq'; subst q.
  - apply wp_ret, wp_ret. apply HQ; [|by rewrite Hz|done]. split; cbn; [congruence|done|done|done|done|done].
  - destruct (Hreqs' h ltac:(left)) as (xh & Hxh & Hrh). eapply (idestart_wp _ (sync c x).1); [exact Hxh|exact Hrh|exact Hd|].
    intros d' Hw. apply wp_ret. apply HQ; [|by rewrite Hz|done]. split; cbn; [congruence|done|done|done|done|by exists xh].
Qed.

End Spec.

End IdeSpec.
