(* ===== verification/IdeSystem.v ===== *)
(** * Processes and interrupts over the disk driver (ide.c)

    Any number of processes that call [iderw], interleaved with the interrupts of the
    controller.  A process that calls [iderw] holds the sleep lock of the buffer, so that
    nobody else uses the buffer until the call returns. *)

From S2P Require Export IdeSpec.
Local Open Scope Z_scope.

Module IdeSystem.
Import Bio Ide IdeSpec.

(** A process is not in [iderw], asleep there, or woken and about to look again. *)
Inductive pstate : Type := PRun | PSleep (b : nat) | PWake (b : nat).

Definition uses (p : pstate) : option nat := match p with PRun => None | PSleep b | PWake b => Some b end.

(** [wakeup(b)] *)
Definition wake (r : option nat) (p : pstate) : pstate :=
  match p with PSleep b => if decide (r = Some b) then PWake b else p | _ => p end.

Section System.
Context {D : Type} `{!IdeOps D} `{!IdeLaws D}.

(** [y_disks] is what is on the disks once the requests of [y_fin] are carried out. *)
Record sys : Type := mksys {
  y_ide : ide D;
  y_procs : list pstate;
  y_disks : disks;
  y_arr : list nat;      (* the requests, in the order of the calls *)
  y_fin : list nat;      (* those finished, in the order of the interrupts *)
  y_ok : bool            (* no panic, no loop *)
}.

Definition crash (s : sys) : sys := mksys (y_ide s) (y_procs s) (y_disks s) (y_arr s) (y_fin s) false.

Definition do_call (t b : nat) (s : sys) : sys :=
  match iderw b (y_ide s) with
  | Ret _ i => mksys i (y_procs s) (y_disks s) (y_arr s ++ [b]) (y_fin s) (y_ok s)
  | Sleep (ChBuf _) i => mksys i (<[t := PSleep b]> (y_procs s)) (y_disks s) (y_arr s ++ [b]) (y_fin s) (y_ok s)
  | _ => crash s
  end.

Definition do_intr (d : D) (s : sys) : sys :=
  match ideintr (set_hw d (y_ide s)) with
  | Ret r i =>
      let c := match r with Some b => match ib (y_ide s) !! b with Some x => (sync (y_disks s) x).1 | None => y_disks s end | None => y_disks s end in
      mksys i (wake r <$> y_procs s) c (y_arr s) (y_fin s ++ option_list r) (y_ok s)
  | _ => crash s
  end.

Definition do_resume (t b : nat) (s : sys) : sys :=
  match iderw_wait b (y_ide s) with
  | Ret _ i => mksys i (<[t := PRun]> (y_procs s)) (y_disks s) (y_arr s) (y_fin s) (y_ok s)
  | Sleep _ i => mksys i (<[t := PSleep b]> (y_procs s)) (y_disks s) (y_arr s) (y_fin s) (y_ok s)
  | _ => crash s
  end.

Definition unclaimed (s : sys) (b : nat) : Prop := forall t p, y_procs s !! t = Some p -> uses p <> Some b.

Inductive step : sys -> sys -> Prop :=
  | st_touch s b x :  (* a buffer that nobody waits for is used otherwise *)
      unclaimed s b ->
      step s (mksys (set_ib (<[b := x]> (ib (y_ide s))) (y_ide s)) (y_procs s) (y_disks s) (y_arr s) (y_fin s) (y_ok s))
  | st_call s t b x :
      y_procs s !! t = Some PRun -> unclaimed s b -> ib (y_ide s) !! b = Some x -> req_ok x -> locked x = true ->
      dev x = 0 \/ havedisk1 (y_ide s) = true -> step s (do_call t b s)
  | st_intr s d : hw_finish (hw (y_ide s)) d -> step s (do_intr d s)
  | st_spurious s : idequeue (y_ide s) = None -> step s (do_intr (hw (y_ide s)) s)
  | st_resume s t b : y_procs s !! t = Some (PWake b) -> step s (do_resume t b s).

Record sys_ok (s : sys) (l : list nat) : Prop := {
  so_ok : y_ok s = true;
  so_driver : driver_ok (y_ide s) (y_disks s) l;
  so_order : y_arr s = y_fin s ++ l;
  so_sleep : forall t b, y_procs s !! t = Some (PSleep b) -> b ∈ l;
  so_queue : forall b, b ∈ l -> exists t, y_procs s !! t = Some (PSleep b);
  so_wake : forall t b, y_procs s !! t = Some (PWake b) ->
    (b ∉ l) /\ exists x, ib (y_ide s) !! b = Some x /\ Z.land (flags x) (Z.lor B_VALID B_DIRTY) = B_VALID;
  so_excl : forall t t' p p' b, y_procs s !! t = Some p -> y_procs s !! t' = Some p' -> uses p = Some b -> uses p' = Some b -> t = t'
}.

Lemma unclaimed_queue s l b : sys_ok s l -> unclaimed s b -> b ∉ l.
Proof. intros Hs Hf Hb. destruct (so_queue _ _ Hs b Hb) as [t Ht]. by apply (Hf t _ Ht). Qed.

Lemma touch_ok s l b x : sys_ok s l -> unclaimed s b ->
  sys_ok (mksys (set_ib (<[b := x]> (ib (y_ide s))) (y_ide s)) (y_procs s) (y_disks s) (y_arr s) (y_fin s) (y_ok s)) l.
Proof.
  intros Hs Hf. pose proof (unclaimed_queue s l b Hs Hf) as Hb. destruct Hs as [H1 [D1 D2 D3 D4 D5 D6] H3 H4 H5 H6 H7].
  assert (forall a, a <> b -> <[b := x]> (ib (y_ide s)) !! a = ib (y_ide s) !! a) as Hag by (intros; by apply list_lookup_insert_ne).
  split; cbn; try done.
  - split; cbn; try done; [by rewrite length_insert| |].
    + intros a Ha. rewrite Hag by congruence. by apply D4.
    + destruct l as [|h l]; [done|]. rewrite Hag; [done|]. intros ->. apply Hb. left.
  - intros t a Ha. destruct (H6 t a Ha) as (Hal & y & Hy & Hfl). split; [done|]. exists y. rewrite Hag; [done|].
    intros ->. by apply (Hf t _ Ha).
Qed.

Lemma call_ok s l t b x :
  sys_ok s l -> y_procs s !! t = Some PRun -> unclaimed s b -> ib (y_ide s) !! b = Some x -> req_ok x -> locked x = true ->
  dev x = 0 \/ havedisk1 (y_ide s) = true -> sys_ok (do_call t b s) (l ++ [b]).
Proof.
  intros Hs Ht Hf Hx Hr Hlk Hdev. pose proof (unclaimed_queue s l b Hs Hf) as Hb.
  pose proof (iderw_sleeps _ _ _ _ _ (so_driver _ _ Hs) Hb Hx Hr Hlk Hdev) as Hsl. unfold sleeps in Hsl. unfold do_call.
  destruct (iderw b (y_ide s)) as [| |ch i|]; [done|done| |done]. destruct Hsl as (-> & Hd & Hib & _).
  pose proof (lookup_lt_Some _ _ _ Ht) as Hlt. destruct Hs as [H1 H2 H3 H4 H5 H6 H7].
  split; cbn; try done.
  - by rewrite H3, app_assoc.
  - intros t' b' Hb'. apply list_lookup_insert_Some in Hb' as [(_ & [= <-] & _)|[_ Hb']]; apply elem_of_app; [right; left|left; by eapply H4].
  - intros a [Ha| ->%list_elem_of_singleton]%elem_of_app.
    + destruct (H5 a Ha) as [t' Ht']. exists t'. rewrite list_lookup_insert_ne; [done|]. intros ->. congruence.
    + exists t. by apply list_lookup_insert_eq.
  - intros t' b' Hb'. apply list_lookup_insert_Some in Hb' as [(_ & [=] & _)|[_ Hb']]. destruct (H6 t' b' Hb') as (Hl & y & Hy & Hfl).
    split; [|exists y; by rewrite Hib]. intros [Ha| ->%list_elem_of_singleton]%elem_of_app; [done|]. by apply (Hf t' _ Hb').
  - intros t1 t2 p1 p2 a Hp1 Hp2 Hu1 Hu2.
    apply list_lookup_insert_Some in Hp1 as [(<- & <- & _)|[Hn1 Hp1]], Hp2 as [(<- & <- & _)|[Hn2 Hp2]]; [done| | |by eapply H7].
    + injection Hu1 as <-. by destruct (Hf t2 p2 Hp2).
    + injection Hu2 as <-. by destruct (Hf t1 p1 Hp1).
Qed.

Lemma sync_flags_valid f : Z.land (sync_flags f) (Z.lor B_VALID B_DIRTY) = B_VALID.
Proof.
  unfold sync_flags, B_VALID, B_DIRTY. rewrite <- Z.land_assoc. change (Z.land (Z.lnot 4) (Z.lor 2 4)) with 2.
  rewrite Z.land_lor_distr_l. apply Z.bits_inj'. intros n _. rewrite Z.lor_spec, Z.land_spec. change (Z.land 2 2) with 2.
  by destruct (Z.testbit f n), (Z.testbit 2 n).
Qed.

Lemma sync_valid c x : Z.land (flags (sync c x).2) (Z.lor B_VALID B_DIRTY) = B_VALID.
Proof. unfold sync. destruct (dirty x); apply sync_flags_valid. Qed.

(** The controller has finished the first request: the state after the interrupt. *)
Lemma intr_ok s b l d x :
  sys_ok s (b :: l) -> ib (y_ide s) !! b = Some x -> hw_finish (hw (y_ide s)) d ->
  exists i, do_intr d s = mksys i (wake (Some b) <$> y_procs s) (sync (y_disks s) x).1 (y_arr s) (y_fin s ++ [b]) true /\
    ib i = <[b := (sync (y_disks s) x).2]> (ib (y_ide s)) /\ driver_ok i (sync (y_disks s) x).1 l.
Proof.
  intros Hs Hx Hfin. destruct (so_driver _ _ Hs) as [D1 D2 D3 D4 D5 (x' & Hx' & Hw)].
  assert (x' = x) as -> by congruence. pose proof (finish_req _ _ _ _ Hw Hfin) as Hf.
  assert (wp ideintr (set_hw d (y_ide s)) (fun r i => r = Some b /\ driver_ok i (sync (y_disks s) x).1 l /\
    ib i = <[b := (sync (y_disks s) x).2]> (ib (y_ide s)))) as Hwp.
  { eapply ideintr_wp; [exact D1|exact D2|exact D3|exact D4|exact D5|exact Hx|exact Hf|]. intros i Hd Hib _. done. }
  unfold do_intr. unfold wp in Hwp. destruct (ideintr (set_hw d (y_ide s))) as [r i| | |]; [|done..]. destruct Hwp as (-> & Hd & Hib).
  exists i. rewrite Hx, (so_ok _ _ Hs). done.
Qed.

Lemma wake_lookup r (procs : list pstate) (t : nat) p : (wake r <$> procs) !! t = Some p -> exists q, procs !! t = Some q /\ p = wake r q.
Proof. rewrite list_lookup_fmap. destruct (procs !! t) as [q|]; [|done]. intros [= <-]. by exists q. Qed.

Lemma uses_wake r p : uses (wake r p) = uses p.
Proof. destruct p; try done. cbn. by case_decide. Qed.

Lemma intr_step_ok s l d : sys_ok s l -> hw_finish (hw (y_ide s)) d ->
  exists b l', l = b :: l' /\ sys_ok (do_intr d s) l' /\ y_procs (do_intr d s) = wake (Some b) <$> y_procs s.
Proof.
  intros Hs Hfin. destruct l as [|b l]; [by destruct (hw_idle_quiet _ _ _ (do_hw _ _ _ (so_driver _ _ Hs)) Hfin)|].
  exists b, l. split; [done|]. destruct (do_hw _ _ _ (so_driver _ _ Hs)) as (x & Hx & _).
  destruct (intr_ok s b l d x Hs Hx Hfin) as (i & -> & Hib & Hd). split; [|done].
  pose proof (do_nodup _ _ _ (so_driver _ _ Hs)) as [Hbl _]%NoDup_cons. pose proof (lookup_lt_Some _ _ _ Hx) as Hlt.
  destruct Hs as [H1 H2 H3 H4 H5 H6 H7].
  split; cbn; try done.
  - by rewrite H3, <- app_assoc.
  - intros t a Ha. apply wake_lookup in Ha as (q & Hq & Hw). destruct q as [|a'|a']; [done| |done]. cbn in Hw. case_decide as Hc; [done|].
    injection Hw as <-. destruct (proj1 (elem_of_cons _ _ _) (H4 t a Hq)) as [->|?]; [by destruct Hc|done].
  - intros a Ha. destruct (H5 a ltac:(by right)) as [t Ht]. exists t. rewrite list_lookup_fmap, Ht. cbn.
    rewrite decide_False; [done|]. intros [= ->]. done.
  - intros t a Ha. apply wake_lookup in Ha as (q & Hq & Hw). rewrite Hib. destruct q as [|a'|a']; [done| |].
    + cbn in Hw. case_decide as Hc; [|done]. injection Hw as <-. injection Hc as <-. split; [done|].
      eexists. split; [by apply list_lookup_insert_eq|apply sync_valid].
    + injection Hw as <-. destruct (H6 t a Hq) as (Hal & y & Hy & Hfl). apply not_elem_of_cons in Hal as [Hab Hal]. split; [done|].
      exists y. by rewrite list_lookup_insert_ne by done.
  - intros t1 t2 p1 p2 a Hp1 Hp2 Hu1 Hu2. apply wake_lookup in Hp1 as (q1 & Hq1 & ->), Hp2 as (q2 & Hq2 & ->).
    rewrite uses_wake in Hu1, Hu2. by eapply H7.
Qed.

Lemma wake_none (procs : list pstate) : wake None <$> procs = procs.
Proof. induction procs as [|p procs IH]; [done|]. rewrite fmap_cons, IH. by destruct p. Qed.

Lemma spurious_ok s l : sys_ok s l -> idequeue (y_ide s) = None -> do_intr (hw (y_ide s)) s = s.
Proof.
  intros Hs Hq. unfold do_intr. unfold ideintr, mbind, K_bind, gets. cbn [idequeue set_hw]. rewrite Hq. cbn.
  rewrite wake_none, app_nil_r. destruct s as [[] ? ? ? ? ?]. done.
Qed.

Lemma resume_ok s l t b : sys_ok s l -> y_procs s !! t = Some (PWake b) ->
  do_resume t b s = mksys (y_ide s) (<[t := PRun]> (y_procs s)) (y_disks s) (y_arr s) (y_fin s) (y_ok s) /\ sys_ok (do_resume t b s) l.
Proof.
  intros Hs Ht. destruct (so_wake _ _ Hs t b Ht) as (Hbl & x & Hx & Hfl).
  assert (do_resume t b s = mksys (y_ide s) (<[t := PRun]> (y_procs s)) (y_disks s) (y_arr s) (y_fin s) (y_ok s)) as He.
  { unfold do_resume, iderw_wait, mbind, K_bind, buf_at, arr_get. rewrite Hx. cbn [mret K_ret]. by rewrite Hfl. }
  split; [exact He|]. rewrite He. destruct Hs as [H1 H2 H3 H4 H5 H6 H7]. split; cbn; try done.
  - intros t' a Ha. apply list_lookup_insert_Some in Ha as [(_ & [=] & _)|[_ Ha]]. by eapply H4.
  - intros a Ha. destruct (H5 a Ha) as [t' Ht']. exists t'. rewrite list_lookup_insert_ne; [done|]. intros ->. congruence.
  - intros t' a Ha. apply list_lookup_insert_Some in Ha as [(_ & [=] & _)|[_ Ha]]. by eapply H6.
  - intros t1 t2 p1 p2 a Hp1 Hp2 Hu1 Hu2.
    apply list_lookup_insert_Some in Hp1 as [(<- & <- & _)|[Hn1 Hp1]], Hp2 as [(<- & <- & _)|[Hn2 Hp2]]; [done|done|done|by eapply H7].
Qed.

Lemma step_ok s l s' : sys_ok s l -> step s s' -> exists l', sys_ok s' l'.
Proof.
  intros Hs Hst. destruct Hst as [s b x Hf|s t b x Ht Hf Hx Hr Hlk Hdev|s d Hfin|s Hq|s t b Ht].
  - exists l. by apply touch_ok.
  - eexists. by eapply call_ok.
  - destruct (intr_step_ok s l d Hs Hfin) as (b & l' & _ & Hs' & _). by exists l'.
  - exists l. by rewrite (spurious_ok s l).
  - exists l. by apply (resume_ok s l).
Qed.

(** ** From [ideinit] on *)

(** [n] processes after [ideinit]. *)
Definition start (i : ide D) (n : nat) (c : disks) : sys :=
  match ideinit i with
  | Ret _ i => mksys i (replicate n PRun) c [] [] true
  | _ => mksys i (replicate n PRun) c [] [] false
  end.

(** What [main] finds before [ideinit]: the static data are zero, the controller is idle. *)
Record unused (i : ide D) (c : disks) : Prop := {
  un_len : length (qnext i) = length (ib i);
  un_queue : idequeue i = None;
  un_disk1 : havedisk1 i = false;
  un_idle : hw_idle c (hw i);
  un_disks : forall dv n, length (c dv n) = 512%nat
}.

Lemma start_ok i n c : unused i c -> sys_ok (start i n c) [].
Proof.
  intros [H1 H2 H3 H4 H5]. assert (wp ideinit i (fun _ i' => driver_ok i' c [])) as Hwp by (eapply ideinit_wp; done).
  unfold start, wp in *. destruct (ideinit i) as [[] i'| | |]; [|done..].
  assert (forall t p, replicate n PRun !! t = Some p -> p = PRun) as Hr by (intros t p; by intros [-> _]%lookup_replicate).
  split; cbn; try done.
  - intros t b Hb. by apply Hr in Hb.
  - by intros b ?%elem_of_nil.
  - intros t b Hb. by apply Hr in Hb.
  - intros t t' p p' b Hp _ Hu _. by apply Hr in Hp as ->.
Qed.

Lemma reachable_ok i n c s : unused i c -> rtc step (start i n c) s -> exists l, sys_ok s l.
Proof.
  intros Hi Hs. apply (start_ok i n c) in Hi as H0. revert H0. generalize (@nil nat). induction Hs as [s|s s' s'' Hst Hs IH]; intros l Hl; [by exists l|].
  destruct (step_ok s l s' Hl Hst) as [l' Hl']. by eapply IH.
Qed.

(** The interrupts up to a request. *)
Definition intr (s s' : sys) : Prop := exists d, hw_finish (hw (y_ide s)) d /\ s' = do_intr d s.

Lemma wake_run r p : p = PRun -> wake r p = PRun.
Proof. by intros ->. Qed.

Lemma intrs_serve l1 b l2 s t :
  sys_ok s (l1 ++ b :: l2) -> y_procs s !! t = Some (PSleep b) ->
  exists s', nsteps intr (S (length l1)) s s' /\ sys_ok s' l2 /\ y_procs s' !! t = Some (PWake b).
Proof.
  revert s. induction l1 as [|a l1 IH]; intros s Hs Ht.
  all: pose proof (do_hw _ _ _ (so_driver _ _ Hs)) as Hhw; cbn in Hhw; destruct Hhw as (x & Hx & Hw).
  all: destruct (hw_finish_ex _ _ _ Hw) as [d Hd]; destruct (intr_step_ok s _ d Hs Hd) as (h & l' & He & Hs' & Hp).
  - injection He as <- <-. exists (do_intr d s). split; [|split; [done|]].
    + eapply nsteps_l; [by exists d|constructor].
    + rewrite Hp, list_lookup_fmap, Ht. cbn. by rewrite decide_True.
  - injection He as <- <-. pose proof (do_nodup _ _ _ (so_driver _ _ Hs)) as Hnd. cbn in Hnd. apply NoDup_cons in Hnd as [Ha _].
    destruct (IH (do_intr d s) Hs') as (s' & Hn & Hs'' & Ht').
    + rewrite Hp, list_lookup_fmap, Ht. cbn. rewrite decide_False; [done|]. intros [= ->]. apply Ha, elem_of_app. right. left.
    + exists s'. split; [|done]. eapply nsteps_l; [by exists d|exact Hn].
Qed.

(** C18: however processes that call [iderw] are interleaved with the interrupts of the
    controller, nothing panics or polls for ever; the requests are finished in the order in
    which they arrived, and those that are not finished are the queue threaded through the
    buffers; the processes asleep are exactly those with a request in the queue, and a woken
    one finds its buffer valid and returns; and the controller works on the first request of
    the queue, with the finished ones on the disks, or is idle if there is none. *)
Theorem ide_requests i n c s :
  unused i c -> rtc step (start i n c) s ->
  y_ok s = true /\
  (forall t b, y_procs s !! t = Some (PWake b) -> exists s', iderw_wait b (y_ide s) = Ret tt s') /\
  exists l, y_arr s = y_fin s ++ l /\ NoDup l /\ chain (qnext (y_ide s)) (idequeue (y_ide s)) l /\
    (forall b, b ∈ l <-> exists t, y_procs s !! t = Some (PSleep b)) /\
    match l with
    | [] => hw_idle (y_disks s) (hw (y_ide s))
    | b :: _ => exists x, ib (y_ide s) !! b = Some x /\ hw_working (y_disks s) (req x) (hw (y_ide s))
    end.
Proof.
  intros Hi Hs. destruct (reachable_ok i n c s Hi Hs) as [l Hl]. split; [apply (so_ok _ _ Hl)|]. split.
  - intros t b Hb. destruct (so_wake _ _ Hl t b Hb) as (_ & x & Hx & Hf). exists (y_ide s).
    unfold iderw_wait, mbind, K_bind, buf_at, arr_get. rewrite Hx. cbn [mret K_ret]. by rewrite Hf.
  - exists l. split; [apply (so_order _ _ Hl)|]. split; [apply (do_nodup _ _ _ (so_driver _ _ Hl))|].
    split; [apply (do_chain _ _ _ (so_driver _ _ Hl))|]. split; [|apply (do_hw _ _ _ (so_driver _ _ Hl))].
    intros b. split; [apply (so_queue _ _ Hl)|]. intros [t Ht]. by apply (so_sleep _ _ Hl t).
Qed.

(** C20: a process asleep in [iderw] is served: with the requests that wait the controller
    goes on to raise interrupts, and after as many as there are requests up to its own the
    process is awake and returns when it runs. *)
Theorem request_served i n c s t b :
  unused i c -> rtc step (start i n c) s -> y_procs s !! t = Some (PSleep b) ->
  exists l1 l2 s', y_arr s = y_fin s ++ l1 ++ b :: l2 /\ nsteps intr (S (length l1)) s s' /\
    y_procs s' !! t = Some (PWake b) /\ step s' (do_resume t b s') /\ y_procs (do_resume t b s') !! t = Some PRun.
Proof.
  intros Hi Hs Ht. destruct (reachable_ok i n c s Hi Hs) as [l Hl].
  pose proof (so_sleep _ _ Hl t b Ht) as (l1 & l2 & ->)%list_elem_of_split. destruct (intrs_serve l1 b l2 s t Hl Ht) as (s' & Hn & Hs' & Ht').
  exists l1, l2, s'. split; [apply (so_order _ _ Hl)|]. split; [done|]. split; [done|]. split; [by constructor|].
  destruct (resume_ok s' l2 t b Hs' Ht') as [-> _]. cbn. apply list_lookup_insert_eq. by eapply lookup_lt_Some.
Qed.

(** ** The driver and the disk in memory *)

(** The same buffers and the same contents of disk 1. *)
Record same_disk (m : bst) (i : ide D) (c : disks) : Prop := {
  sd_bufs : bufs m = ib i;
  sd_disk : forall n, 0 <= n < FSSIZE -> disk m !!! n = c 1 n
}.

Lemma flags_commute f : Z.lor (Z.land f (Z.lnot B_DIRTY)) B_VALID = sync_flags f.
Proof. unfold sync_flags. rewrite Z.land_lor_distr_l. by change (Z.land B_VALID (Z.lnot B_DIRTY)) with B_VALID. Qed.

Lemma clean_flags f : Z.land f B_DIRTY = 0 -> Z.land f (Z.lnot B_DIRTY) = f.
Proof.
  intros Hf. apply Z.bits_inj'. intros n Hn. rewrite Z.land_spec, Z.lnot_spec by done.
  assert (Z.testbit (Z.land f B_DIRTY) n = false) as Hb by (rewrite Hf; apply Z.testbit_0_l). rewrite Z.land_spec in Hb.
  by destruct (Z.testbit f n), (Z.testbit B_DIRTY n).
Qed.

(** [iderw] of memide.c does at once what a request does. *)
Lemma memide_sync m i c b x :
  same_disk m i c -> ib i !! b = Some x -> req_ok x -> locked x = true -> dev x = 1 -> blockno x < disksize m ->
  wp (Bio.iderw b) m (fun _ m' => bufs m' = <[b := (sync c x).2]> (ib i) /\
    forall n, 0 <= n < FSSIZE -> disk m' !!! n = (sync c x).1 1 n).
Proof.
  intros [Hb Hd] Hx (_ & Hblk & _ & Hfl) Hlk Hdev Hsz. assert (bufs m !! b = Some x) as Hm by (by rewrite Hb).
  pose proof (lookup_lt_Some _ _ _ Hm) as Hlt. unfold Bio.iderw. apply wp_bind. eapply wp_holdingsleep; [exact Hm|]. rewrite Hlk. cbn [negb].
  apply wp_bind. eapply wp_get_buf; [exact Hm|]. rewrite (proj2 (Z.eqb_neq _ _) Hfl), Hdev. cbn [negb Z.eqb Pos.eqb].
  apply wp_bind, wp_gets. rewrite (proj2 (Z.leb_gt _ _) Hsz). apply wp_bind. unfold sync. destruct (dirty x) eqn:Hdy.
  - apply wp_bind. eapply wp_upd_buf; [exact Hm|]. apply wp_modify. eapply wp_upd_buf; [cbn; by apply list_lookup_insert_eq|].
    unfold put_buf, set_bufs. cbn [bufs disk flags set_flags fst snd]. rewrite list_insert_insert_eq, flags_commute, Hb. split; [done|].
    intros n Hn. unfold dupd. rewrite Hdev. case_decide as Hc; [destruct Hc as [_ ->]; by rewrite lookup_total_insert_eq|].
    rewrite lookup_total_insert_ne; [by apply Hd|]. intros He. by destruct Hc.
  - apply wp_bind, wp_gets. eapply wp_upd_buf; [exact Hm|]. eapply wp_upd_buf; [cbn; by apply list_lookup_insert_eq|].
    unfold put_buf, set_bufs. cbn [bufs disk flags set_flags set_bdata fst snd]. rewrite list_insert_insert_eq, Hb, Hdev, Hd by done.
    split; [|done]. do 2 f_equal. rewrite <- flags_commute, clean_flags; [done|]. unfold dirty, truthy in Hdy.
    apply negb_false_iff, Z.eqb_eq in Hdy. exact Hdy.
Qed.

(** C19: the driver refines the disk in memory that the file system is built on.  When the
    controller has finished a request for disk 1, the interrupt handler changes the buffer
    and the disk exactly as a call of [iderw] of memide.c does, wakes the process of that
    buffer, and finishes no other request. *)
Theorem ideintr_refines_memide i n c s b d x m :
  unused i c -> rtc step (start i n c) s ->
  idequeue (y_ide s) = Some b -> hw_finish (hw (y_ide s)) d -> ib (y_ide s) !! b = Some x ->
  same_disk m (y_ide s) (y_disks s) -> locked x = true -> dev x = 1 -> disksize m = FSSIZE ->
  let s' := do_intr d s in
  exists m', Bio.iderw b m = Ret tt m' /\ same_disk m' (y_ide s') (y_disks s') /\
    y_procs s' = wake (Some b) <$> y_procs s /\ y_fin s' = y_fin s ++ [b].
Proof.
  intros Hi Hrs Hq Hfin Hx Hm Hlk Hdev Hsz. destruct (reachable_ok i n c s Hi Hrs) as [l Hs].
  pose proof (chain_head _ _ _ (do_chain _ _ _ (so_driver _ _ Hs))) as Hh. rewrite Hq in Hh. destruct l as [|b' l]; [done|]. injection Hh as <-.
  destruct (do_reqs _ _ _ (so_driver _ _ Hs) b) as (x' & Hx' & Hr); [left|]. assert (x' = x) as -> by congruence.
  destruct (intr_ok s b l d x Hs Hx Hfin) as (i' & He & Hib & _).
  pose proof (memide_sync m (y_ide s) (y_disks s) b x Hm Hx Hr Hlk Hdev) as Hwp.
  assert (blockno x < disksize m) as Hlt by (rewrite Hsz; by destruct Hr as (_ & [_ ?] & _)). specialize (Hwp Hlt). unfold wp in Hwp.
  destruct (Bio.iderw b m) as [[] m'| | |]; [|done..]. destruct Hwp as [Hb' Hd']. exists m'. split; [done|]. cbn zeta.
  rewrite He. split; [|done]. split; cbn; [by rewrite Hib|done].
Qed.

(** The handler does not report an error of the disk: the buffer of a read that failed is
    valid, with the bytes it had before. *)
Lemma read_error_valid (s : ide D) b x r d :
  idequeue s = Some b -> qnext s !! b = Some None -> ib s !! b = Some x -> dirty x = false ->
  poll hw_polls (hw s) = Some (r, d) -> Z.land r (Z.lor IDE_DF IDE_ERR) <> 0 ->
  exists s', ideintr s = Ret (Some b) s' /\ ib s' !! b = Some (set_flags (sync_flags (flags x)) x).
Proof.
  intros Hq Hn Hx Hdy Hp Her. pose proof (lookup_lt_Some _ _ _ Hx) as Hlt.
  assert (wp ideintr s (fun v s' => v = Some b /\ ib s' !! b = Some (set_flags (sync_flags (flags x)) x))) as Hwp.
  { unfold ideintr. apply wp_bind, wp_gets. rewrite Hq. apply wp_bind. eapply wp_arr_get; [exact Hn|]. apply wp_bind, wp_modify, wp_bind.
    eapply wp_buf_at; [exact Hx|]. rewrite Hdy. apply wp_bind, wp_bind, wp_bind. eapply ide_ready_wp; [exact Hp|].
    rewrite (proj2 (Z.eqb_neq _ _) Her). cbn [negb andb]. apply wp_ret. cbn [Z.leb Z.compare]. apply wp_ret. apply wp_bind.
    eapply wp_upd_at; [exact Hx|]. apply wp_bind. eapply wp_upd_at; [cbn; by apply list_lookup_insert_eq|].
    apply wp_bind, wp_gets. apply wp_bind. apply wp_ret. apply wp_ret. split; [done|]. cbn. by rewrite list_insert_insert_eq, list_lookup_insert_eq. }
  unfold wp in Hwp. destruct (ideintr s) as [v s'| | |]; [|done..]. destruct Hwp as [-> ?]. by exists s'.
Qed.

End System.

(** ** A controller *)

(** The registers and the disks; after the end of a command the status says busy twice more. *)
Inductive cstate : Type := Idle | Wanted (dv n : Z) | Busy (r : request) | Ready (dv n : Z).
Record controller : Type := mkc { c_disks : disks; c_reg : Z -> Z; c_state : cstate; c_busy : nat }.

Definition c_sector (d : controller) : Z :=
  c_reg d 499 + 256 * c_reg d 500 + 65536 * c_reg d 501 + 16777216 * (c_reg d 502 mod 16).
Definition c_dev (d : controller) : Z := c_reg d 502 / 16 mod 2.

Definition c_inb (port : Z) (d : controller) : Z * controller :=
  match c_state d, c_busy d with
  | Busy _, _ => (128, d)
  | _, S k => (128, mkc (c_disks d) (c_reg d) (c_state d) k)
  | _, O => (64, d)
  end.
Definition c_outb (port v : Z) (d : controller) : controller :=
  if port =? 503 then
    mkc (c_disks d) (c_reg d) (if v =? 32 then Busy (Rd (c_dev d) (c_sector d)) else Wanted (c_dev d) (c_sector d)) (c_busy d)
  else mkc (c_disks d) (fun p => if p =? port then v else c_reg d p) (c_state d) (c_busy d).
Definition c_insl (port : Z) (cnt : nat) (d : controller) : list Z * controller :=
  match c_state d with
  | Ready dv n => (take (4 * cnt) (c_disks d dv n), mkc (c_disks d) (c_reg d) Idle (c_busy d))
  | _ => ([], d)
  end.
Definition c_outsl (port : Z) (b : list Z) (d : controller) : controller :=
  match c_state d with Wanted dv n => mkc (c_disks d) (c_reg d) (Busy (Wr dv n b)) (c_busy d) | _ => d end.

#[export] Instance SimOps : IdeOps controller :=
  {| hw_inb := c_inb; hw_outb := c_outb; hw_insl := c_insl; hw_outsl := c_outsl; hw_polls := 3 |}.

Definition c_end (d d' : controller) : Prop :=
  match c_state d with
  | Busy (Rd dv n) => d' = mkc (c_disks d) (c_reg d) (Ready dv n) 2
  | Busy (Wr dv n b) => d' = mkc (dupd (c_disks d) dv n b) (c_reg d) Idle 2
  | _ => False
  end.

Definition in_state (c : disks) (st : cstate) (d : controller) : Prop :=
  c_disks d = c /\ c_state d = st /\ (c_busy d <= 2)%nat /\ forall dv n, length (c dv n) = 512%nat.

Definition whole (r : request) : Prop := match r with Rd _ _ => True | Wr _ _ b => length b = 512%nat end.

Lemma land_low n k : 0 <= k -> Z.land n (2 ^ k - 1) = n mod 2 ^ k.
Proof. intros Hk. rewrite <- Z.land_ones by done. f_equal. rewrite Z.ones_equiv. lia. Qed.

Lemma sector_decode n : 0 <= n < 2 ^ 28 ->
  Z.land n 255 + 256 * Z.land (Z.shiftr n 8) 255 + 65536 * Z.land (Z.shiftr n 16) 255 + 16777216 * Z.land (Z.shiftr n 24) 15 = n.
Proof.
  intros Hn. change 255 with (2 ^ 8 - 1). change 15 with (2 ^ 4 - 1). rewrite !land_low, !Z.shiftr_div_pow2 by lia.
  change (2 ^ 8) with 256. change (2 ^ 16) with 65536. change (2 ^ 24) with 16777216. change (2 ^ 4) with 16. change (2 ^ 28) with 268435456 in Hn.
  Z.to_euclidean_division_equations. lia.
Qed.

Lemma device_decode dv k : dv = 0 \/ dv = 1 -> 0 <= k < 16 ->
  let v := Z.lor (Z.lor 224 (Z.shiftl dv 4)) k in v mod 16 = k /\ v / 16 mod 2 = dv.
Proof.
  intros Hdv Hk. cbn zeta. assert (k ∈ seqZ 0 16) as Hin by (apply elem_of_seqZ; lia).
  clear Hk. revert k Hin. destruct Hdv as [-> | ->]; apply Forall_forall; vm_compute; repeat constructor; done.
Qed.

Lemma reg_same p v (d : controller) : p <> 503 -> c_reg (hw_outb p v d) p = v.
Proof. intros Hp. unfold hw_outb, SimOps, c_outb. rewrite (proj2 (Z.eqb_neq _ _) Hp). cbn. by rewrite Z.eqb_refl. Qed.

Lemma reg_other p q v (d : controller) : p <> 503 -> q <> p -> c_reg (hw_outb p v d) q = c_reg d q.
Proof. intros Hp Hq. unfold hw_outb, SimOps, c_outb. rewrite (proj2 (Z.eqb_neq _ _) Hp). cbn. by rewrite (proj2 (Z.eqb_neq _ _) Hq). Qed.

Lemma issue_decode c dv n d : in_state c Idle d -> dv = 0 \/ dv = 1 -> 0 <= n < 2 ^ 28 ->
  in_state c Idle (issue dv n d) /\ c_dev (issue dv n d) = dv /\ c_sector (issue dv n d) = n.
Proof.
  intros Hi Hdv Hn. split; [destruct Hi as (H1 & H2 & H3 & H4); done|].
  unfold c_dev, c_sector, issue. repeat first [rewrite reg_same by done | rewrite reg_other by done].
  assert (0 <= Z.land (Z.shiftr n 24) 15 < 16) as Hk by (change 15 with (2 ^ 4 - 1); rewrite land_low by lia; apply Z.mod_pos_bound; lia).
  destruct (device_decode dv _ Hdv Hk) as [H1 H2]. rewrite H1, H2. split; [done|]. by apply sector_decode.
Qed.

Lemma poll_ready c st d : in_state c st d -> st = Idle \/ (exists dv n, st = Ready dv n) ->
  exists d', poll 3 d = Some (64, d') /\ in_state c st d'.
Proof.
  intros (H1 & H2 & H3 & H4) Hst. destruct d as [dk rg st' k]. cbn in H1, H2, H3. subst dk st'.
  assert (match st with Busy _ => False | _ => True end) as Hnb by (by destruct Hst as [-> |(? & ? & ->)]).
  exists (mkc c rg st 0). split; [|split_and!; [done|done|cbn; lia|done]].
  destruct k as [|[|[|k]]]; [..|lia]; by destruct st.
Qed.

#[export] Instance SimLaws : IdeLaws controller.
Proof.
  refine {| hw_idle := fun c => in_state c Idle; hw_working := fun c r d => in_state c (Busy r) d /\ whole r;
            hw_loaded := fun c dv n => in_state c (Ready dv n); hw_finish := c_end;
            hw_probing := fun c => in_state c Idle; hw_disk1 := true |}.
  - intros c d Hd. destruct (poll_ready c Idle d Hd) as (d' & ? & ?); [by left|]. by exists 64, d'.
  - intros c dv n d Hd. destruct (poll_ready c (Ready dv n) d Hd) as (d' & ? & ?); [right; eauto|]. by exists 64, d'.
  - by intros c d Hd.
  - intros c d (H1 & H2 & H3 & H4). unfold hw_inb, SimOps, c_inb. rewrite H2. destruct (c_busy d) as [|k] eqn:Hk; (split; [|done]);
      (split_and!; [done|done|cbn; lia|done]).
  - by intros c d Hd.
  - intros c dv n d Hd Hdv Hn. destruct (issue_decode c dv n d Hd Hdv Hn) as ((H1 & H2 & H3 & H4) & Hd1 & Hd2).
    unfold hw_outb at 1, SimOps at 1, c_outb. cbn [Z.eqb Pos.eqb]. rewrite Hd1, Hd2. done.
  - intros c dv n b d Hd Hdv Hn Hb. destruct (issue_decode c dv n d Hd Hdv Hn) as ((H1 & H2 & H3 & H4) & Hd1 & Hd2).
    unfold hw_outb at 1, SimOps at 2, c_outb. cbn [Z.eqb Pos.eqb]. rewrite Hd1, Hd2. done.
  - intros c d d' (_ & H2 & _) He. unfold c_end in He. by rewrite H2 in He.
  - intros c r d ((_ & H2 & _) & _). unfold c_end. rewrite H2. destruct r; eauto.
  - intros c dv n d d' ((H1 & H2 & H3 & H4) & _) He. unfold c_end in He. rewrite H2 in He. subst d'. split_and!; [done|done|cbn; lia|done].
  - intros c dv n b d d' ((H1 & H2 & H3 & H4) & Hb) He. unfold c_end in He. rewrite H2 in He. subst d'. rewrite H1. split_and!; [done|done|cbn; lia|].
    intros dv' n'. unfold dupd. by case_decide.
  - intros c dv n d (H1 & H2 & H3 & H4). unfold hw_insl, SimOps, c_insl. rewrite H2, H1. cbn [fst snd]. rewrite take_ge by (rewrite H4; lia). done.
Defined.

(** ** Two requests *)

Definition disks0 : disks := fun _ _ => replicate 512 0.
Definition buf_r : buf := mkbuf 0 1 5 true 1 (replicate 512 0).
Definition buf_w : buf := mkbuf 6 1 7 true 1 (replicate 512 9).
Definition ide0 : ide controller := mkide [buf_r; buf_w] [None; None] None false (mkc disks0 (fun _ => 0) Idle 0).
Definition sys1 : sys := do_call 0 0 (start ide0 2 disks0).
Definition sys2 : sys := do_call 1 1 sys1.

Lemma ide0_unused : unused ide0 disks0.
Proof. split; [done|done|done| |done]. split_and!; [done|done|cbn; lia|done]. Qed.

Lemma two_requests : rtc step (start ide0 2 disks0) sys2.
Proof.
  assert (req_ok buf_r /\ req_ok buf_w) as [Hr Hw] by (split; (split; [by right|]); by split_and!).
  apply (rtc_l _ _ sys1 _); [apply (st_call _ 0 0 buf_r)|apply rtc_once, (st_call sys1 1 1 buf_w)].
  all: try first [exact Hr | exact Hw | vm_compute; reflexivity | right; vm_compute; reflexivity].
  - intros t p Hp. vm_compute in Hp. destruct t as [|[|t]]; by simplify_eq.
  - intros t p Hp. vm_compute in Hp. destruct t as [|[|t]]; by simplify_eq.
Qed.

Lemma ide_requests_witness : y_ok sys2 = true.
Proof. exact (proj1 (ide_requests ide0 2 disks0 sys2 ide0_unused two_requests)). Defined.

Lemma request_served_witness :
  exists l1 l2 s', y_arr sys2 = y_fin sys2 ++ l1 ++ 1%nat :: l2 /\ nsteps intr (S (length l1)) sys2 s' /\
    y_procs s' !! 1%nat = Some (PWake 1) /\ step s' (do_resume 1 1 s') /\ y_procs (do_resume 1 1 s') !! 1%nat = Some PRun.
Proof. refine (request_served ide0 2 disks0 sys2 1 1 ide0_unused two_requests _). vm_compute. reflexivity. Defined.

Definition mem0 : bst := mkbst [buf_r; buf_w] [] (gset_to_gmap (replicate 512 0) (list_to_set (seqZ 0 1000))) FSSIZE [].

Lemma ideintr_refines_memide_witness :
  exists d m', Bio.iderw 0 mem0 = Ret tt m' /\ same_disk m' (y_ide (do_intr d sys2)) (y_disks (do_intr d sys2)).
Proof.
  pose (d := mkc (c_disks (hw (y_ide sys2))) (c_reg (hw (y_ide sys2))) (Ready 1 5) 2). exists d.
  destruct (ideintr_refines_memide ide0 2 disks0 sys2 0 d buf_r mem0 ide0_unused two_requests) as (m' & Hm & Hs & _).
  - vm_compute. reflexivity.
  - vm_compute. reflexivity.
  - vm_compute. reflexivity.
  - split; [vm_compute; reflexivity|]. intros n Hn. cbn [disk mem0]. rewrite lookup_total_alt.
    change (y_disks sys2) with disks0. rewrite lookup_gset_to_gmap, option_guard_True; [done|].
    apply elem_of_list_to_set, elem_of_seqZ. unfold FSSIZE in Hn. lia.
  - reflexivity.
  - reflexivity.
  - reflexivity.
  - by exists m'.
Defined.

End IdeSystem.
