(* ===== verification/LogSpec.v ===== *)
(** * The log: specifications and crash safety

    What the functions of log.c do to the buffer cache and the disk, as lists of
    disk writes, and the theorems on crashes. *)

From S2P Require Export Log.
Local Open Scope Z_scope.

Module LogSpec.
Import Bio Layout Log.

(** ** Sequences of disk writes *)

Definition wlist : Type := list (Z * block).

Fixpoint upd (l : wlist) (v : Z -> block) : Z -> block :=
  match l with
  | [] => v
  | (b, d) :: l => upd l (fun x => if decide (x = b) then d else v x)
  end.

Definition apply_writes (l : wlist) (m : gmap Z block) : gmap Z block :=
  foldl (fun m e => <[e.1 := e.2]> m) m l.

Lemma upd_ext (l : wlist) v v' b : v b = v' b -> upd l v b = upd l v' b.
Proof.
  revert v v'. induction l as [|[c d] l IH]; intros v v' H; cbn; [done|].
  apply IH. by case_decide.
Qed.

Lemma upd_app (l1 l2 : wlist) v b : upd (l1 ++ l2) v b = upd l2 (upd l1 v) b.
Proof. revert v. induction l1 as [|[c d] l1 IH]; intros v; cbn; [done|apply IH]. Qed.

Lemma upd_notin (l : wlist) v b : (b ∉ l.*1) -> upd l v b = v b.
Proof.
  revert v. induction l as [|[c d] l IH]; intros v H; cbn in *; [done|].
  apply not_elem_of_cons in H as [Hne H]. rewrite IH by done. by rewrite decide_False.
Qed.

Lemma upd_in (l : wlist) v v' b : b ∈ l.*1 -> upd l v b = upd l v' b.
Proof.
  revert v v'. induction l as [|[c d] l IH]; intros v v' H; cbn in *; [by apply elem_of_nil in H|].
  destruct (decide (b ∈ l.*1)) as [Hin|Hin]; [by apply IH|].
  apply elem_of_cons in H as [->|H]; [|done].
  rewrite !upd_notin by done. by rewrite !decide_True.
Qed.

Lemma upd_zip (ks : list Z) (vs : list block) v :
  NoDup ks -> length ks = length vs -> (upd (zip ks vs) v) <$> ks = vs.
Proof.
  intros Hnd. revert vs v. induction Hnd as [|k ks Hk Hnd IH]; intros [|d vs] v Hl; cbn in *; try done.
  f_equal; [|apply IH; lia].
  rewrite upd_notin; [by rewrite decide_True|]. rewrite fst_zip; [done|lia].
Qed.

(** Each key mapped to a function of it, as when blocks are installed. *)
Lemma upd_zip_fn (ks : list Z) (f : Z -> block) v b :
  b ∈ ks -> upd (zip ks (f <$> ks)) v b = f b.
Proof.
  revert v. induction ks as [|k ks IH]; intros v H; cbn; [by apply elem_of_nil in H|].
  destruct (decide (b ∈ ks)) as [Hin|Hin]; [by apply IH|].
  apply elem_of_cons in H as [->|H]; [|done].
  rewrite upd_notin; [by rewrite decide_True|]. rewrite fst_zip; [done|rewrite length_fmap; lia].
Qed.

Lemma apply_upd (l : wlist) m b : apply_writes l m !!! b = upd l (fun x => m !!! x) b.
Proof.
  revert m. induction l as [|[c d] l IH]; intros m; cbn; [done|].
  unfold apply_writes in IH. rewrite IH. apply upd_ext. case_decide.
  - subst. by rewrite lookup_total_insert_eq.
  - by rewrite lookup_total_insert_ne.
Qed.

Lemma apply_writes_app l1 l2 m : apply_writes (l1 ++ l2) m = apply_writes l2 (apply_writes l1 m).
Proof. apply foldl_app. Qed.

Lemma apply_writes_ok (P : block -> Prop) (l : wlist) m b :
  Forall P l.*2 -> (exists x, m !! b = Some x /\ P x) ->
  exists x, apply_writes l m !! b = Some x /\ P x.
Proof.
  revert m. induction l as [|[c d] l IH]; intros m Hl Hm; cbn in *; [done|].
  apply Forall_cons in Hl as [Hd Hl]. apply IH; [done|].
  destruct (decide (b = c)) as [->|]; [exists d; by rewrite lookup_insert_eq|].
  by rewrite lookup_insert_ne.
Qed.

(** ** Runs that write a sequence of blocks through the cache *)

Definition xfers (s : bst) (l : wlist) (s' : bst) : Prop :=
  bio_inv s' /\ quiet s' /\ disksize s' = disksize s /\
  disk s' = apply_writes l (disk s) /\ writes s' = writes s ++ l /\
  (forall b, view s' b = upd l (view s) b) /\
  (forall b, is_dirty s' b <-> is_dirty s b /\ (b ∉ l.*1)) /\ (pinned s' <= pinned s)%nat.

Lemma xfers_holding s s' : holding s s' [] -> xfers s [] s'.
Proof.
  intros (Hinv & Hq & Hsz & Hd & Hw & Hv & Hdt & Hp). cbn in Hp.
  split_and!; rewrite ?app_nil_r; try done; [|lia].
  intros b. rewrite Hdt. cbn. set_solver.
Qed.

Lemma xfers_trans s l1 s1 l2 s2 : xfers s l1 s1 -> xfers s1 l2 s2 -> xfers s (l1 ++ l2) s2.
Proof.
  intros (_ & _ & Hsz & Hd & Hw & Hv & Hdt & Hp) (Hinv' & Hq' & Hsz' & Hd' & Hw' & Hv' & Hdt' & Hp').
  split_and!; [done|done|congruence| | | | |lia].
  - rewrite apply_writes_app. congruence.
  - rewrite Hw', Hw. by rewrite <- app_assoc.
  - intros b. rewrite upd_app, Hv'. by apply upd_ext.
  - intros b. rewrite Hdt', Hdt, fmap_app, not_elem_of_app. tauto.
Qed.

Lemma xfers_xfer s b d s' : xfer s b d s' -> xfers s [(b, d)] s'.
Proof.
  intros (Hinv & Hq & Hsz & Hd & Hw & Hvb & Hv & Hdt & Hp).
  split_and!; try done.
  - intros c. cbn. case_decide; [by subst|by apply Hv].
  - intros c. rewrite Hdt. cbn. rewrite list_elem_of_singleton. done.
Qed.

Lemma xfers_cons s b d s1 l s2 : xfer s b d s1 -> xfers s1 l s2 -> xfers s ((b, d) :: l) s2.
Proof. intros H1 H2. apply (xfers_trans s [(b, d)] s1 l s2); [by apply xfers_xfer|done]. Qed.

Lemma xfers_view s l s' b : xfers s l s' -> (b ∉ l.*1) -> view s' b = view s b.
Proof. intros (_ & _ & _ & _ & _ & Hv & _) Hb. by rewrite Hv, upd_notin. Qed.

Lemma xfers_dirty s l s' b : xfers s l s' -> (b ∉ l.*1) -> is_dirty s' b <-> is_dirty s b.
Proof. intros (_ & _ & _ & _ & _ & _ & Hd & _) Hb. rewrite Hd. tauto. Qed.

(** ** The loops *)

(** The blocks of the log after its header. *)
Definition lognos (st : Z) (t k : nat) : list Z := (fun i => st + Z.of_nat i + 1) <$> seq t k.

Lemma elem_of_lognos st t k b :
  b ∈ lognos st t k <-> st + Z.of_nat t + 1 <= b < st + Z.of_nat (t + k) + 1.
Proof.
  unfold lognos. rewrite list_elem_of_fmap. split.
  - intros (i & -> & Hi). apply elem_of_seq in Hi. lia.
  - intros H. exists (Z.to_nat (b - st - 1)). rewrite elem_of_seq. lia.
Qed.

Lemma NoDup_lognos st t k : NoDup (lognos st t k).
Proof. apply NoDup_fmap_2; [|apply NoDup_seq]. intros i j. lia. Qed.

Lemma length_lognos st t k : length (lognos st t k) = k.
Proof. unfold lognos. by rewrite length_fmap, length_seq. Qed.

Definition with_bs (s : lst) (b : bst) : lst := mklst b (lg s).

Definition usable (b : bst) : Prop := bio_inv b /\ quiet b /\ (pinned b < NBUF)%nat.

Lemma xfers_usable s l s' : xfers s l s' -> usable s -> usable s'.
Proof. intros (? & ? & _ & _ & _ & _ & _ & ?) (_ & _ & ?). split_and!; [done..|lia]. Qed.

Lemma wp_get_block i s b (Q : Z -> lst -> Prop) :
  lh_block (l_lh (lg s)) !! i = Some b -> Q b s -> wp (get_block i) s Q.
Proof. intros Hb HQ. unfold get_block. by eapply wp_arr_get. Qed.

(** [bl] are the logged block numbers from index [t] on. *)
Definition from_index (s : lst) (t : nat) (bl : list Z) : Prop :=
  forall i, (i < length bl)%nat -> lh_block (l_lh (lg s)) !! (t + i)%nat = bl !! i.

Lemma from_index_cons s t b bl b' :
  from_index s t (b :: bl) ->
  lh_block (l_lh (lg s)) !! t = Some b /\ from_index (with_bs s b') (S t) bl.
Proof.
  intros H. split.
  - specialize (H 0%nat). rewrite Nat.add_0_r in H. apply H. cbn; lia.
  - intros i Hi. specialize (H (S i)). rewrite Nat.add_succ_r in H. apply H. cbn; lia.
Qed.

(** [write_log] copies the cached contents of the logged blocks to the log. *)
Lemma write_log_loop_spec bl : forall t s (Q : unit -> lst -> Prop),
  let st := l_start (lg s) in let b0 := bs s in
  l_dev (lg s) = 1 -> usable b0 -> from_index s t bl ->
  0 <= st -> st + Z.of_nat (t + length bl) + 1 <= disksize b0 ->
  (forall b, b ∈ bl -> 0 <= b < disksize b0 /\ is_dirty b0 b /\ (b ∉ lognos st t (length bl))) ->
  (forall b', xfers b0 (zip (lognos st t (length bl)) (view b0 <$> bl)) b' -> Q tt (with_bs s b')) ->
  wp (write_log_loop (length bl) t) s Q.
Proof.
  induction bl as [|b bl IH]; intros t s Q st b0 Hdev Hus Hfi Hst Hsz Hbl HQ; subst st b0.
  { cbn. apply wp_ret. destruct s as [b1 l]. apply (HQ b1). apply xfers_holding.
    by apply holding_start; apply Hus. }
  cbn [length write_log_loop]. wp_steps.
  destruct (from_index_cons _ _ _ _ (bs s) Hfi) as [Hb _].
  eapply wp_get_block; [done|]. wp_steps. unfold bio. apply wp_zoom. rewrite Hdev.
  destruct (Hbl b) as (Hb1 & Hb2 & Hb3); [set_solver|].
  pose proof Hus as (Hinv & Hq & Hp).
  cbn [length] in Hsz, Hb3, Hbl. rewrite elem_of_lognos in Hb3.
  apply wp_copy_dst_src; [done|done|lia|done|lia|done|by left|]. intros b1 Hx.
  pose proof (xfers_xfer _ _ _ _ Hx) as Hxs.
  destruct (from_index_cons _ _ _ _ b1 Hfi) as [_ Hfi'].
  assert (forall c, c ∈ bl -> (c ∉ [((l_start (lg s)) + Z.of_nat t + 1, view (bs s) b)].*1)) as Hne.
  { intros c Hc. cbn. rewrite list_elem_of_singleton. destruct (Hbl c) as (_ & _ & Hc3); [set_solver|].
    rewrite elem_of_lognos in Hc3. lia. }
  apply (IH (S t) (with_bs s b1)); cbn; [done|by eapply xfers_usable|done|done| | |].
  - destruct Hx as (_ & _ & -> & _). lia.
  - intros c Hc. destruct (Hbl c) as (Hc1 & Hc2 & Hc3); [set_solver|].
    rewrite (xfers_dirty _ _ _ _ Hxs) by auto. destruct Hx as (_ & _ & -> & _).
    split; [done|split; [done|]]. rewrite elem_of_lognos in Hc3 |- *. lia.
  - intros b2 Hx2. apply (HQ b2). cbn. eapply xfers_cons; [exact Hx|].
    assert (view b1 <$> bl = view (bs s) <$> bl) as <-; [|done].
    apply list_fmap_ext. intros i c Hc%list_elem_of_lookup_2. apply (xfers_view _ _ _ _ Hxs). auto.
Qed.

(** [install_trans] copies the blocks of the log to their home locations. *)
Lemma install_loop_spec bl : forall t s (Q : unit -> lst -> Prop),
  let st := l_start (lg s) in let b0 := bs s in
  l_dev (lg s) = 1 -> usable b0 -> from_index s t bl ->
  0 <= st -> st + Z.of_nat (t + length bl) + 1 <= disksize b0 ->
  (forall b, b ∈ bl -> 0 <= b < disksize b0 /\ (b ∉ lognos st t (length bl))) ->
  (forall b, b ∈ lognos st t (length bl) -> ~ is_dirty b0 b) ->
  ((pinned b0 + 1 < NBUF)%nat \/ NoDup bl /\ (forall b, b ∈ bl -> is_dirty b0 b)) ->
  (forall b', xfers b0 (zip bl (view b0 <$> lognos st t (length bl))) b' -> Q tt (with_bs s b')) ->
  wp (install_loop (length bl) t) s Q.
Proof.
  induction bl as [|b bl IH]; intros t s Q st b0 Hdev Hus Hfi Hst Hsz Hbl Hcl Hroom HQ; subst st b0.
  { cbn. apply wp_ret. destruct s as [b1 l]. apply (HQ b1). apply xfers_holding.
    by apply holding_start; apply Hus. }
  cbn [length install_loop]. wp_steps.
  destruct (from_index_cons _ _ _ _ (bs s) Hfi) as [Hb _].
  eapply wp_get_block; [done|]. wp_steps. unfold bio. apply wp_zoom. rewrite Hdev.
  destruct (Hbl b) as (Hb1 & Hb3); [set_solver|].
  pose proof Hus as (Hinv & Hq & Hp). cbn [length] in Hsz, Hb3, Hbl, Hcl.
  assert (~ is_dirty (bs s) ((l_start (lg s)) + Z.of_nat t + 1)) as Hcl0 by (apply Hcl; rewrite elem_of_lognos; lia).
  rewrite elem_of_lognos in Hb3.
  apply wp_copy_src_dst; [done|done|done|lia|lia|done|done| |].
  { destruct Hroom as [?|[_ Hd]]; [by right|left; apply Hd; set_solver]. }
  intros b1 Hx. pose proof (xfers_xfer _ _ _ _ Hx) as Hxs.
  destruct (from_index_cons _ _ _ _ b1 Hfi) as [_ Hfi'].
  pose proof Hx as (_ & _ & Hsz1 & _ & _ & _ & _ & Hdt1 & Hp1).
  apply (IH (S t) (with_bs s b1)); cbn; [done|by eapply xfers_usable|done|done| | | | |].
  - rewrite Hsz1. lia.
  - intros c Hc. rewrite Hsz1. destruct (Hbl c) as (Hc1 & Hc3); [set_solver|].
    split; [done|]. rewrite elem_of_lognos in Hc3 |- *. lia.
  - intros c Hc [Hd _]%Hdt1. revert Hd. apply Hcl. rewrite elem_of_lognos in Hc |- *. lia.
  - destruct Hroom as [?|[Hnd Hd]]; [left; lia|right]. apply NoDup_cons in Hnd as [Hnin Hnd].
    split; [done|]. intros c Hc. apply Hdt1. split; [apply Hd; set_solver|]. by intros ->.
  - intros b2 Hx2. apply (HQ b2).
    change (lognos (l_start (lg s)) t (length (b :: bl)))
      with (l_start (lg s) + Z.of_nat t + 1 :: lognos (l_start (lg s)) (S t) (length bl)).
    rewrite fmap_cons. eapply xfers_cons; [exact Hx|].
    assert (view b1 <$> lognos (l_start (lg s)) (S t) (length bl) = view (bs s) <$> lognos (l_start (lg s)) (S t) (length bl)) as <-; [|done].
    apply list_fmap_ext. intros i c Hc%list_elem_of_lookup_2. apply (xfers_view _ _ _ _ Hxs).
    cbn. rewrite list_elem_of_singleton. rewrite elem_of_lognos in Hc. lia.
Qed.

(** ** The header block *)

Fixpoint enc_blocks (bl : list Z) (i : nat) (d : block) : block :=
  match bl with [] => d | b :: bl => enc_blocks bl (S i) (st32 d (4 + 4 * i) b) end.

(** The header block [write_head] makes of [d]. *)
Definition enc_head (n : Z) (bl : list Z) (d : block) : block := enc_blocks bl 0 (st32 d 0 n).

(** What [read_head] takes from a header block. *)
Definition hdr_n (d : block) : Z := s32 (ld32 d 0).
Definition hdr_blocks (d : block) : list Z :=
  (fun i => ld32 d (4 + 4 * i)) <$> seq 0 (Z.to_nat (hdr_n d)).

Lemma st32_ok d off x : (off + 4 <= BSIZE)%nat -> block_ok d -> block_ok (st32 d off x).
Proof.
  intros Ho [Hl Hb]. split; [rewrite length_st32; lia|]. apply bytes_ok_splice; [apply le_enc_bytes|done].
Qed.

Lemma enc_blocks_ok bl i d :
  (4 + 4 * (i + length bl) <= BSIZE)%nat -> block_ok d -> block_ok (enc_blocks bl i d).
Proof.
  revert i d. induction bl as [|b bl IH]; intros i d Hi Hd; cbn [enc_blocks length] in *; [done|].
  apply IH; [lia|]. apply st32_ok; [lia|done].
Qed.

Lemma enc_blocks_ld bl i d off :
  (4 + 4 * (i + length bl) <= length d)%nat -> (off + 4 <= 4 + 4 * i)%nat ->
  ld32 (enc_blocks bl i d) off = ld32 d off.
Proof.
  revert i d. induction bl as [|b bl IH]; intros i d Hi Ho; cbn [enc_blocks length] in *; [done|].
  rewrite IH by (rewrite ?length_st32; lia). unfold ld32. rewrite slice_st32_disj by lia. done.
Qed.

Lemma enc_blocks_blocks bl i d :
  (4 + 4 * (i + length bl) <= length d)%nat -> Forall (fun b => 0 <= b < 2 ^ 32) bl ->
  (fun j => ld32 (enc_blocks bl i d) (4 + 4 * j)) <$> seq i (length bl) = bl.
Proof.
  intros Hi Hbl. revert i d Hi. induction Hbl as [|b bl Hb Hbl IH]; intros i d Hi; [done|].
  cbn [length seq] in *. rewrite fmap_cons. f_equal.
  - cbn [enc_blocks]. rewrite enc_blocks_ld by (rewrite ?length_st32; lia).
    rewrite ld32_st32_same by lia. by apply u32_small.
  - apply (IH (S i)). rewrite length_st32; lia.
Qed.

Lemma enc_head_n n bl d :
  (4 + 4 * length bl <= length d)%nat -> 0 <= n < 2 ^ 31 -> hdr_n (enc_head n bl d) = n.
Proof.
  intros Hl Hn. unfold hdr_n, enc_head.
  rewrite enc_blocks_ld by (rewrite ?length_st32; lia). rewrite ld32_st32_same by lia.
  rewrite u32_small by lia. apply s32_small. lia.
Qed.

Lemma enc_head_blocks n bl d :
  (4 + 4 * length bl <= length d)%nat -> n = Z.of_nat (length bl) -> n < 2 ^ 31 ->
  Forall (fun b => 0 <= b < 2 ^ 32) bl -> hdr_blocks (enc_head n bl d) = bl.
Proof.
  intros Hl Hn Hn2 Hbl. unfold hdr_blocks. rewrite enc_head_n by lia.
  rewrite Hn, Nat2Z.id. apply enc_blocks_blocks; [|done]. rewrite length_st32; lia.
Qed.

Lemma head_blocks_run bl k i d s :
  (i + k <= length bl)%nat ->
  head_blocks bl k i d s = Ret (enc_blocks (take k (drop i bl)) i d) s.
Proof.
  revert i d. induction k as [|k IH]; intros i d Hi; [done|]. cbn [head_blocks].
  destruct (lookup_lt_is_Some_2 bl i) as [b Hb]; [lia|].
  unfold arr_get, mbind, K_bind. rewrite Hb. cbn. rewrite (drop_S _ _ _ Hb). cbn [take enc_blocks].
  apply IH. lia.
Qed.

(** [write_head] writes the header of the in-memory log, and only the header. *)
Lemma write_head_spec s (Q : unit -> lst -> Prop) :
  let st := l_start (lg s) in let h := l_lh (lg s) in
  l_dev (lg s) = 1 -> usable (bs s) -> 0 <= st < disksize (bs s) ->
  length (lh_block h) = 30%nat -> 0 <= lh_n h <= 30 ->
  (forall b', xfers (bs s)
     [(st, enc_head (lh_n h) (take (Z.to_nat (lh_n h)) (lh_block h)) (view (bs s) st))] b' ->
     Q tt (with_bs s b')) ->
  wp write_head s Q.
Proof.
  intros st h Hdev (Hinv & Hq & Hp) Hst Hlen Hn HQ. unfold write_head. wp_steps.
  fold h st. rewrite Hdev. unfold bio. apply wp_zoom.
  set (g := fun d => enc_head (lh_n h) (take (Z.to_nat (lh_n h)) (lh_block h)) d).
  eapply (wp_bind_ext _ _ (fun i => d ← buf_data i; set_data i (g d);; bwrite i;; brelse i)).
  { intros i b1 Hwp. eapply wp_bind_ext; [|exact Hwp]. intros d b2 Hwp2. apply wp_bind.
    eapply wp_eq; [apply head_blocks_run; lia|]. exact Hwp2. }
  apply wp_rewrite_block; [done..| |].
  - apply enc_blocks_ok; [rewrite length_take; unfold BSIZE; lia|].
    apply st32_ok; [unfold BSIZE; lia|]. by apply view_ok.
  - intros b' Hx. apply HQ. by apply xfers_xfer.
Qed.

Lemma read_head_loop_run k : forall i d s,
  (i + k <= length (lh_block (l_lh (lg s))))%nat ->
  exists bl, read_head_loop k i d s = Ret tt (set_log (set_lh (mklh (lh_n (l_lh (lg s))) bl) (lg s)) s) /\
    length bl = length (lh_block (l_lh (lg s))) /\
    (forall j, (i <= j < i + k)%nat -> bl !! j = Some (ld32 d (4 + 4 * j))) /\
    (forall j, (j < i)%nat -> bl !! j = lh_block (l_lh (lg s)) !! j).
Proof.
  induction k as [|k IH]; intros i d s Hi.
  { exists (lh_block (l_lh (lg s))). split_and!; [|done|lia|done]. by destruct s as [? [? ? ? ? ? []]]. }
  cbn [read_head_loop]. destruct (lookup_lt_is_Some_2 (lh_block (l_lh (lg s))) i) as [b Hb]; [lia|].
  unfold get_block, arr_get, mbind, K_bind. rewrite Hb. cbn.
  set (s1 := set_log _ s).
  destruct (IH (S i) d s1) as (bl & Hrun & Hl & Hin & Hout).
  { cbn. rewrite length_insert. lia. }
  exists bl. cbn in *. rewrite length_insert in Hl. split_and!; [by rewrite Hrun|done| |].
  - intros j Hj. destruct (decide (j = i)) as [->|]; [|apply Hin; lia].
    rewrite Hout by lia. apply list_lookup_insert_eq. lia.
  - intros j Hj. rewrite Hout by lia. apply list_lookup_insert_ne. lia.
Qed.

(** [read_head] loads the header of the disk. *)
Lemma read_head_spec s (Q : unit -> lst -> Prop) :
  let st := l_start (lg s) in let d := view (bs s) st in
  l_dev (lg s) = 1 -> usable (bs s) -> 0 <= st < disksize (bs s) ->
  length (lh_block (l_lh (lg s))) = 30%nat -> hdr_n d <= 30 ->
  (forall b' bl, xfers (bs s) [] b' -> length bl = 30%nat ->
     take (Z.to_nat (hdr_n d)) bl = hdr_blocks d ->
     Q tt (mklst b' (set_lh (mklh (hdr_n d) bl) (lg s)))) ->
  wp read_head s Q.
Proof.
  intros st d Hdev (Hinv & Hq & Hp) Hst Hlen Hn HQ. unfold read_head. wp_steps. fold st. rewrite Hdev.
  unfold bio. apply wp_zoom. apply wp_read_block; [done..|]. intros b1 Hhold. wp_steps.
  unfold upd_log. wp_steps. fold d. set (s1 := set_log _ _).
  change (s32 (ld32 d 0)) with (hdr_n d) in *.
  destruct (read_head_loop_run (Z.to_nat (hdr_n d)) 0 d s1) as (bl & Hrun & Hl & Hin & _).
  { cbn. rewrite Hlen. lia. }
  eapply wp_eq; [exact Hrun|]. apply (HQ b1 bl); [by apply xfers_holding| |].
  - rewrite Hl. done.
  - apply list_eq. intros j. unfold hdr_blocks. rewrite list_lookup_fmap.
    destruct (decide (j < Z.to_nat (hdr_n d))%nat).
    + rewrite lookup_take_lt by done. rewrite Hin by lia. rewrite lookup_seq_lt by done. done.
    + rewrite lookup_take_ge by lia. rewrite lookup_seq_ge by lia. done.
Qed.

(** ** Recovery *)

(** A disk the kernel can boot from: its blocks are there, the superblock puts
    the log at [st], [nl] blocks long, and the header of the log, when it lists
    blocks, lists blocks outside the log that fit in it. *)
Definition bootable (st nl size : Z) (d : gmap Z block) : Prop :=
  (forall b, 0 <= b < size -> exists x, d !! b = Some x /\ block_ok x) /\
  sb_logstart (sb_dec (d !!! 1)) = st /\ sb_nlog (sb_dec (d !!! 1)) = nl /\
  2 <= st /\ 1 <= nl /\ st + nl <= size <= 2 ^ 31 /\
  hdr_n (d !!! st) <= 30 /\ hdr_n (d !!! st) <= nl - 1 /\
  (forall b, b ∈ hdr_blocks (d !!! st) -> 0 <= b < size /\ b <> 1 /\ ~ (st <= b < st + nl)).

(** What the recovery of such a disk writes to it. *)
Definition recovery_writes (st : Z) (d : gmap Z block) : wlist :=
  let h : block := d !!! st in
  let bl := hdr_blocks h in
  zip bl ((fun b => d !!! b) <$> lognos st 0 (length bl)) ++ [(st, st32 h 0 0)].

(** The contents of block [b] once the disk is recovered. *)
Definition recovered (st : Z) (d : gmap Z block) (b : Z) : block :=
  apply_writes (recovery_writes st d) d !!! b.

(** The in-memory log is zero when the kernel starts. *)
Definition log0 : log := mklog 0 0 0 false 0 (mklh 0 (replicate 30 0)).
Definition boot_state (d : gmap Z block) (size : Z) : lst := mklst (boot d size) log0.

Lemma length_hdr_blocks d : length (hdr_blocks d) = Z.to_nat (hdr_n d).
Proof. unfold hdr_blocks. by rewrite length_fmap, length_seq. Qed.

Lemma from_index_take s n :
  (n <= length (lh_block (l_lh (lg s))))%nat -> from_index s 0 (take n (lh_block (l_lh (lg s)))).
Proof. intros Hn i Hi. rewrite length_take in Hi. rewrite lookup_take_lt by lia. done. Qed.

Lemma recover_from_log_spec s (Q : unit -> lst -> Prop) :
  let st := l_start (lg s) in let b0 := bs s in let d := view b0 st in
  l_dev (lg s) = 1 -> usable b0 -> (pinned b0 + 1 < NBUF)%nat -> (forall b, ~ is_dirty b0 b) ->
  length (lh_block (l_lh (lg s))) = 30%nat ->
  0 <= st -> hdr_n d <= 30 -> st + Z.max 0 (hdr_n d) + 1 <= disksize b0 ->
  (forall b, b ∈ hdr_blocks d -> 0 <= b < disksize b0 /\ (b ∉ st :: lognos st 0 (length (hdr_blocks d)))) ->
  (forall s', l_start (lg s') = st -> l_size (lg s') = l_size (lg s) -> l_dev (lg s') = 1 ->
     l_outstanding (lg s') = l_outstanding (lg s) -> l_committing (lg s') = l_committing (lg s) ->
     lh_n (l_lh (lg s')) = 0 -> length (lh_block (l_lh (lg s'))) = 30%nat ->
     xfers b0 (zip (hdr_blocks d) (view b0 <$> lognos st 0 (length (hdr_blocks d))) ++
       [(st, st32 d 0 0)]) (bs s') -> Q tt s') ->
  wp recover_from_log s Q.
Proof.
  intros st b0 d Hdev Hus Hp Hcl Hlen Hst Hn Hsz Hbl HQ. unfold recover_from_log. wp_steps.
  apply read_head_spec; [done|done|unfold b0, st in *; lia|done|done|]. fold b0 st d.
  intros b1 bl Hx1 Hlbl Htake. pose proof (xfers_usable _ _ _ Hx1 Hus) as Hus1.
  pose proof Hx1 as (_ & _ & Hsz1 & _ & _ & Hv1 & Hdt1 & Hp1).
  set (s1 := mklst b1 _).
  wp_steps. unfold install_trans. wp_steps.
  change (lh_n (l_lh (lg s1))) with (hdr_n d). rewrite <- (length_hdr_blocks d).
  apply install_loop_spec; cbn [s1 bs lg set_lh l_start l_dev]; fold st.
  - done.
  - done.
  - rewrite <- Htake. apply (from_index_take s1). cbn. lia.
  - done.
  - rewrite length_hdr_blocks, Hsz1. lia.
  - intros b Hb. rewrite Hsz1. destruct (Hbl b Hb) as [? Hni]. apply not_elem_of_cons in Hni as [_ ?]. done.
  - intros b _ [Hd _]%Hdt1. by apply (Hcl b).
  - left. lia.
  - intros b2 Hx2. wp_steps. unfold upd_log. wp_steps. rewrite (list_fmap_ext _ (view b0)) in Hx2
      by (intros; apply Hv1).
    pose proof (xfers_trans _ _ _ _ _ Hx1 Hx2) as Hx12. rewrite app_nil_l in Hx12.
    pose proof Hx12 as (_ & _ & Hsz2 & _).
    apply write_head_spec; cbn [with_bs set_log set_lh set_n s1 bs lg l_start l_dev l_lh lh_n lh_block]; fold st.
    + done.
    + by eapply xfers_usable.
    + rewrite Hsz2. lia.
    + done.
    + lia.
    + intros b3 Hx3. apply HQ; try done. cbn [with_bs bs]. eapply xfers_trans; [exact Hx12|].
      rewrite (xfers_view _ _ _ _ Hx12) in Hx3; [exact Hx3|].
      rewrite fst_zip by (rewrite length_fmap, length_lognos; done).
      intros Hin. apply Hbl in Hin as [_ Hin]. apply not_elem_of_cons in Hin. tauto.
Qed.

(** Recovery of a bootable disk succeeds, and makes these writes. *)
Lemma initlog_spec st nl size d :
  bootable st nl size d ->
  wp (initlog ROOTDEV) (boot_state d size) (fun _ s' =>
    xfers (boot d size) (recovery_writes st d) (bs s') /\
    l_start (lg s') = st /\ l_size (lg s') = nl /\ l_dev (lg s') = 1 /\ l_outstanding (lg s') = 0 /\
    l_committing (lg s') = false /\ lh_n (l_lh (lg s')) = 0 /\ length (lh_block (l_lh (lg s'))) = 30%nat).
Proof.
  intros (Hd & Hst & Hnl & Hst2 & Hnl1 & Hsz & Hn & Hn2 & Hbl).
  destruct (boot_inv d size Hd) as (Hinv & Hq & Hp & Hcl & Hv).
  assert (usable (boot d size)) as Hus by (split_and!; [done|done|rewrite Hp; unfold NBUF; lia]).
  unfold initlog, ROOTDEV. change (512 <=? sizeof_logheader) with false. cbv iota. wp_steps.
  unfold bio. apply wp_zoom.
  unfold readsb. apply wp_read_block; [done|done|cbn; lia|by apply Hus|].
  cbn [boot_state bs]. rewrite Hv. intros b1 Hhold%xfers_holding. wp_steps. unfold upd_log. wp_steps.
  cbn [set_log bs lg boot_state log0 l_lh]. rewrite Hst, Hnl.
  pose proof Hhold as (_ & _ & Hsz1 & _ & _ & Hv1 & Hdt1 & Hp1). cbn in Hsz1.
  apply recover_from_log_spec; cbn [set_log bs lg l_start l_dev l_lh lh_block l_size l_outstanding l_committing];
    rewrite ?Hv1; cbn [upd]; rewrite ?Hv.
  - done.
  - by eapply xfers_usable.
  - apply Nat.le_lt_trans with (0 + 1)%nat; [|unfold NBUF; lia]. apply Nat.add_le_mono_r. by rewrite <- Hp.
  - intros b [Hb _]%Hdt1. by apply (Hcl b).
  - done.
  - lia.
  - done.
  - rewrite Hsz1. lia.
  - intros b Hb. destruct (Hbl b Hb) as (Hb1 & _ & Hb3). rewrite Hsz1. split; [done|].
    rewrite not_elem_of_cons, elem_of_lognos, length_hdr_blocks. lia.
  - intros s' ?????? Hl Hx. split_and!; try done. unfold recovery_writes.
    rewrite (list_fmap_ext _ (fun b => d !!! b)) in Hx by (intros; rewrite Hv1; apply Hv).
    by apply (xfers_trans _ [] b1).
Qed.

End LogSpec.
