(* ===== verification/LogCrash.v ===== *)
(** * The log: transactions are atomic with respect to crashes

    [commit] as a sequence of disk writes; what a crash between any two of them
    leaves; what recovery makes of it, also when recovery itself is interrupted
    any number of times. *)

From S2P Require Export LogSpec.
Local Open Scope Z_scope.

Module LogCrash.
Import Bio Layout Log LogSpec.

(** ** Between operations *)

(** The blocks of the transaction. *)
Definition logged (s : lst) : list Z := take (Z.to_nat (lh_n (l_lh (lg s)))) (lh_block (l_lh (lg s))).

Definition in_log (l : log) (b : Z) : Prop := l_start l <= b < l_start l + l_size l.

(** The in-memory log and the disk.  The dirty buffers are those of the blocks of
    the transaction, and the disk has none of it: the log on the disk is empty. *)
Definition log_ok (s : lst) : Prop :=
  let l := lg s in let n := lh_n (l_lh l) in let b := bs s in
  l_dev l = 1 /\ length (lh_block (l_lh l)) = 30%nat /\
  0 <= n < 30 /\ n <= l_size l - 1 /\ NoDup (logged s) /\
  (forall c, c ∈ logged s <-> is_dirty b c) /\
  (forall c, c ∈ logged s -> 0 <= c < disksize b /\ c <> 1 /\ ~ in_log l c) /\
  bootable (l_start l) (l_size l) (disksize b) (disk b) /\ hdr_n (disk b !!! l_start l) <= 0.

(** No file system operation is in the middle of a block: moreover, the buffers
    are unlocked. *)
Definition log_inv (s : lst) : Prop := bio_inv (bs s) /\ quiet (bs s) /\ log_ok s.

Lemma length_logged s : log_inv s -> length (logged s) = Z.to_nat (lh_n (l_lh (lg s))).
Proof. intros (_ & _ & _ & Hl & Hn & _). unfold logged. rewrite length_take. lia. Qed.

Lemma pinned_le b (bl : list Z) :
  unique (bufs b) ->
  (forall i x, bufs b !! i = Some x -> is_pinned x -> dev x = 1 /\ blockno x ∈ bl) ->
  (pinned b <= length bl)%nat.
Proof.
  intros Hu Hpin. unfold pinned.
  rewrite <- (length_fmap blockno). apply submseteq_length, NoDup_submseteq.
  - revert Hu Hpin. clear. intros Hu Hpin. induction (bufs b) as [|x l IH]; cbn; [constructor|].
    assert (NoDup (blockno <$> base.filter is_pinned l)) as Hnd.
    { apply IH.
      - intros i j y z Hi Hj ???. apply (f_equal pred (Hu (S i) (S j) y z Hi Hj ltac:(done) ltac:(done) ltac:(done))).
      - intros i y Hi. apply (Hpin (S i) y Hi). }
    case_decide as Hx; [|done]. cbn. constructor; [|done].
    intros (y & Hy & Hin)%list_elem_of_fmap. apply list_elem_of_filter in Hin as [Hpy Hin].
    apply list_elem_of_lookup_1 in Hin as [j Hj].
    destruct (Hpin 0%nat x eq_refl Hx) as [Hdx _]. destruct (Hpin (S j) y Hj Hpy) as [Hdy _].
    by specialize (Hu 0%nat (S j) x y eq_refl Hj Hdx Hdy Hy).
  - intros c (x & -> & Hx)%list_elem_of_fmap. apply list_elem_of_filter in Hx as [Hx Hin].
    apply list_elem_of_lookup_1 in Hin as [i Hi]. by apply (Hpin i x).
Qed.

(** Only held and dirty buffers are pinned. *)
Lemma pinned_held b (hs bl : list Z) :
  bio_inv b ->
  (forall i x, bufs b !! i = Some x -> locked x = true -> blockno x ∈ hs) ->
  (forall c, is_dirty b c -> c ∈ bl) -> (pinned b <= length hs + length bl)%nat.
Proof.
  intros (_ & _ & Hbs & Hu & _) Hh Hd. rewrite <- length_app. apply pinned_le; [done|].
  intros i x Hi Hx. destruct (Hbs i x Hi) as (_ & Hl & _ & Hf & _). rewrite elem_of_app.
  destruct Hl as [(Hlk & _ & Hnz)|[_ Hr]].
  - split; [by apply Hf|]. left. by eapply Hh.
  - destruct Hx as [Hx|Hx]; [done|]. split; [apply Hf; lia|]. right. apply Hd. by exists i, x.
Qed.

Lemma log_inv_usable s : log_inv s -> usable (bs s).
Proof.
  intros Hlog. pose proof Hlog as (Hinv & Hq & _ & _ & Hn & _ & _ & Hd & _).
  split_and!; [done|done|]. unfold NBUF.
  pose proof (pinned_held (bs s) [] (logged s) Hinv
    (fun i x Hi Hl => match not_elem_of_nil _ (Hq i x Hi Hl) with end) (fun c => proj2 (Hd c))) as Hp.
  rewrite length_logged in Hp by done. cbn in Hp. lia.
Qed.

(** ** The writes of [commit] *)

Definition commit_head (st : Z) (bl : list Z) (v : Z -> block) : block :=
  enc_head (Z.of_nat (length bl)) bl (v st).

Definition commit_log (st : Z) (bl : list Z) (v : Z -> block) : wlist :=
  zip (lognos st 0 (length bl)) (v <$> bl).

Definition commit_writes (st : Z) (bl : list Z) (v : Z -> block) : wlist :=
  commit_log st bl v ++ [(st, commit_head st bl v)] ++
  zip bl (v <$> bl) ++ [(st, st32 (commit_head st bl v) 0 0)].

Lemma keys_commit_log st bl v : (commit_log st bl v).*1 = lognos st 0 (length bl).
Proof. unfold commit_log. apply fst_zip. by rewrite length_fmap, length_lognos. Qed.

Lemma keys_install bl (v : Z -> block) : (zip bl (v <$> bl)).*1 = bl.
Proof. apply fst_zip. by rewrite length_fmap. Qed.

Section Commit.
Context (s : lst) (Hlog : log_inv s).
Let l := lg s.
Let st := l_start l.
Let n := lh_n (l_lh l).
Let bl := logged s.
Let b0 := bs s.

Lemma n_logged : n = Z.of_nat (length bl).
Proof. unfold bl. rewrite length_logged by done. pose proof Hlog as (_ & _ & _ & _ & Hn & _). unfold n, l. lia. Qed.

Lemma logged_range c : c ∈ bl -> 0 <= c < disksize b0 /\ c <> 1 /\ ~ (st <= c <= st + n).
Proof.
  intros Hc. pose proof Hlog as (_ & _ & _ & _ & _ & Hsz & _ & _ & Hr & _).
  destruct (Hr c Hc) as (H1 & H2 & H3). unfold in_log in H3. split_and!; [lia|unfold b0; lia|done|].
  unfold n, st, l in *. lia.
Qed.

Lemma log_fits : 2 <= st /\ st + n + 1 <= disksize b0 <= 2 ^ 31 /\ n < 30 /\ l_dev l = 1 /\
  length (lh_block (l_lh l)) = 30%nat.
Proof.
  pose proof Hlog as (_ & _ & Hdev & Hlen & Hn & Hsz & _ & _ & _ & (_ & _ & _ & H1 & H2 & H3 & _) & _).
  unfold n, st, b0, l in *. split_and!; try done; lia.
Qed.

Lemma write_log_commit (Q : unit -> lst -> Prop) :
  (forall b', xfers b0 (commit_log st bl (view b0)) b' -> Q tt (with_bs s b')) -> wp write_log s Q.
Proof.
  intros HQ. unfold write_log. wp_steps. fold l n. rewrite n_logged, Nat2Z.id.
  destruct log_fits as (Hst & Hsz & Hn & Hdev & Hlen). rewrite n_logged in Hsz, Hn.
  apply write_log_loop_spec; fold l st b0; [done|by apply log_inv_usable| |lia|lia| |done].
  - apply from_index_take. fold l. rewrite Hlen. fold n. rewrite n_logged. lia.
  - intros c Hc. destruct (logged_range c Hc) as (H1 & _ & H3). split_and!; [lia..| |].
    + by apply Hlog.
    + rewrite elem_of_lognos. rewrite n_logged in H3. lia.
Qed.

Lemma write_head_commit b1 (Q : unit -> lst -> Prop) :
  xfers b0 (commit_log st bl (view b0)) b1 ->
  (forall b', xfers b0 (commit_log st bl (view b0) ++ [(st, commit_head st bl (view b0))]) b' ->
     Q tt (with_bs s b')) -> wp write_head (with_bs s b1) Q.
Proof.
  intros Hx HQ. destruct log_fits as (Hst & Hsz & Hn & Hdev & Hlen).
  pose proof Hx as (_ & _ & Hsz1 & _). pose proof n_logged as Hnl.
  apply write_head_spec; cbn [with_bs bs lg]; fold l st; [done| |rewrite Hsz1; lia|done|fold n; lia|].
  - by eapply xfers_usable, log_inv_usable.
  - intros b' Hx'. apply HQ. eapply xfers_trans; [exact Hx|].
    unfold commit_head. rewrite <- Hnl. rewrite (xfers_view _ _ _ _ Hx) in Hx'; [exact Hx'|].
    rewrite keys_commit_log, elem_of_lognos. lia.
Qed.

Lemma install_commit b1 (Q : unit -> lst -> Prop) :
  xfers b0 (commit_log st bl (view b0) ++ [(st, commit_head st bl (view b0))]) b1 ->
  (forall b', xfers b1 (zip bl (view b0 <$> bl)) b' -> Q tt (with_bs s b')) ->
  wp install_trans (with_bs s b1) Q.
Proof.
  intros Hx HQ. destruct log_fits as (Hst & Hsz & Hn & Hdev & Hlen). pose proof n_logged as Hnl.
  pose proof Hx as (_ & _ & Hsz1 & _ & _ & Hv1 & Hdt1 & _).
  rewrite fmap_app, keys_commit_log in Hdt1. cbn [fmap list_fmap fst] in Hdt1.
  unfold install_trans. wp_steps. cbn [with_bs lg]. fold l n. rewrite Hnl, Nat2Z.id.
  assert (forall c, c ∈ bl -> is_dirty b1 c) as Hdirty.
  { intros c Hc. apply Hdt1. split; [by apply Hlog|]. destruct (logged_range c Hc) as (_ & _ & ?).
    rewrite elem_of_app, elem_of_lognos, list_elem_of_singleton. lia. }
  apply install_loop_spec; cbn [with_bs bs lg]; fold l st; [done| | |lia|rewrite Hsz1; lia| | | |].
  - by eapply xfers_usable, log_inv_usable.
  - apply (from_index_take (with_bs s b1)). cbn. fold l n. lia.
  - intros c Hc. destruct (logged_range c Hc) as (H1 & _ & H3). rewrite Hsz1. split; [done|].
    rewrite elem_of_lognos. lia.
  - intros c Hc [Hd _]%Hdt1. apply Hlog in Hd. apply logged_range in Hd as (_ & _ & Hd).
    rewrite elem_of_lognos in Hc. lia.
  - right. split; [apply Hlog|done].
  - intros b' Hx'. apply HQ. rewrite (list_fmap_ext _ (upd (commit_log st bl (view b0)) (view b0))) in Hx'.
    + unfold commit_log in Hx'. rewrite upd_zip in Hx'; [done|apply NoDup_lognos|].
      by rewrite length_fmap, length_lognos.
    + intros i c Hc%list_elem_of_lookup_2. rewrite Hv1, upd_app. cbn.
      rewrite elem_of_lognos in Hc. rewrite decide_False by lia. done.
Qed.

(** [commit] returns; it has then written exactly [commit_writes]. *)
Lemma commit_spec :
  0 < n -> wp commit s (fun _ s' =>
    xfers b0 (commit_writes st bl (view b0)) (bs s') /\ lg s' = set_lh (set_n 0 (l_lh l)) l).
Proof.
  intros Hpos. unfold commit. wp_steps. fold l n. rewrite (proj2 (Z.ltb_lt 0 n) Hpos). wp_steps.
  apply write_log_commit. intros b1 Hx1. wp_steps.
  apply (write_head_commit b1); [done|]. intros b2 Hx2. wp_steps.
  apply (install_commit b2); [done|]. intros b3 Hx3. wp_steps. unfold upd_log. wp_steps.
  pose proof (xfers_trans _ _ _ _ _ Hx2 Hx3) as Hx23. pose proof Hx23 as (_ & _ & Hsz3 & _).
  destruct log_fits as (Hst & Hsz & Hn & Hdev & Hlen).
  apply write_head_spec; cbn [with_bs set_log set_lh set_n bs lg l_start l_dev l_lh lh_n lh_block]; fold l st.
  - done.
  - by eapply xfers_usable, log_inv_usable.
  - rewrite Hsz3. lia.
  - done.
  - lia.
  - intros b4 Hx4. split; [|done]. cbn [bs with_bs].
    rewrite (xfers_view b2 _ b3) in Hx4 by (exact Hx3 || (rewrite keys_install; intros Hin;
      apply logged_range in Hin as (_ & _ & ?); lia)).
    assert (view b2 st = commit_head st bl (view b0)) as Hh.
    { destruct Hx2 as (_ & _ & _ & _ & _ & -> & _). rewrite upd_app. cbn. by rewrite decide_True. }
    rewrite Hh in Hx4. pose proof (xfers_trans _ _ _ _ _ Hx23 Hx4) as Hx. rewrite <- !app_assoc in Hx.
    exact Hx.
Qed.
End Commit.

(** ** Recovery and its prefixes *)

Lemma bootable_block st nl size d b : bootable st nl size d -> 0 <= b < size -> block_ok (d !!! b).
Proof.
  intros (Hd & _) Hb. destruct (Hd b Hb) as (x & Hx & Hok). by rewrite (lookup_total_correct _ _ _ Hx).
Qed.

(** The conditions of [bootable] on the header. *)
Definition header_ok (st nl size : Z) (h : block) : Prop :=
  hdr_n h <= 30 /\ hdr_n h <= nl - 1 /\
  (forall b, b ∈ hdr_blocks h -> 0 <= b < size /\ b <> 1 /\ ~ (st <= b < st + nl)).

Lemma bootable_apply st nl size d (w : wlist) :
  bootable st nl size d -> Forall block_ok w.*2 -> (1 ∉ w.*1) ->
  header_ok st nl size (apply_writes w d !!! st) -> bootable st nl size (apply_writes w d).
Proof.
  intros (Hd & Hsb1 & Hsb2 & H1 & H2 & H3 & _) Hok Hni Hh.
  assert (apply_writes w d !!! 1 = d !!! 1) as Hsb by (rewrite apply_upd, upd_notin; done).
  unfold bootable. rewrite Hsb. split; [|split; [done|split; [done|split; [done|split; [done|split; [done|exact Hh]]]]]].
  intros b Hb. apply apply_writes_ok; auto.
Qed.

Lemma cleared_header h : length h = BSIZE -> hdr_n (st32 h 0 0) = 0 /\ hdr_blocks (st32 h 0 0) = [].
Proof.
  intros Hl. assert (hdr_n (st32 h 0 0) = 0) as Hn.
  { unfold hdr_n. rewrite ld32_st32_same; [done|rewrite Hl; unfold BSIZE; lia]. }
  split; [done|]. unfold hdr_blocks. by rewrite Hn.
Qed.

Lemma header_ok_empty st nl size h : 1 <= nl -> hdr_n h <= 0 -> header_ok st nl size h.
Proof.
  intros Hnl Hn. split_and!; [lia..|]. unfold hdr_blocks. replace (Z.to_nat (hdr_n h)) with 0%nat by lia.
  intros b Hb. by apply elem_of_nil in Hb.
Qed.

(** A disk with an empty log is recovered as it is, its header apart. *)
Lemma recovered_empty st (d : gmap Z block) b : hdr_n (d !!! st) <= 0 -> b <> st -> recovered st d b = d !!! b.
Proof.
  intros Hn Hb. unfold recovered, recovery_writes, hdr_blocks.
  replace (Z.to_nat (hdr_n (d !!! st))) with 0%nat by lia. cbn. by apply lookup_total_insert_ne.
Qed.

Section Prefix.
Context (st nl size : Z) (d : gmap Z block) (Hd : bootable st nl size d).
Let bl := hdr_blocks (d !!! st).
Let copies := zip bl ((fun b => d !!! b) <$> lognos st 0 (length bl)).

Lemma recovery_writes_eq : recovery_writes st d = copies ++ [(st, st32 (d !!! st) 0 0)].
Proof. done. Qed.

Lemma keys_copies : copies.*1 = bl.
Proof. apply fst_zip. by rewrite length_fmap, length_lognos. Qed.

Lemma keys_copies_prefix j b : b ∈ (take j copies).*1 -> b ∈ bl.
Proof. rewrite <- keys_copies, fmap_take. intros (i & Hi & _)%elem_of_take. by apply list_elem_of_lookup_2 in Hi. Qed.

Lemma bl_range b : b ∈ bl -> 0 <= b < size /\ b <> 1 /\ ~ (st <= b < st + nl).
Proof. destruct Hd as (_ & _ & _ & _ & _ & _ & _ & _ & H). apply H. Qed.

Lemma length_bl : Z.of_nat (length bl) <= nl - 1.
Proof. destruct Hd as (_ & _ & _ & _ & ? & _ & _ & ? & _). unfold bl. rewrite length_hdr_blocks. lia. Qed.

Lemma copies_ok j : Forall block_ok (take j copies).*2.
Proof.
  rewrite fmap_take. apply Forall_take. unfold copies. rewrite snd_zip by (rewrite length_fmap, length_lognos; lia).
  apply Forall_fmap, Forall_forall. intros b Hb. cbn. apply (bootable_block st nl size); [done|].
  rewrite elem_of_lognos in Hb. pose proof length_bl. destruct Hd as (_ & _ & _ & ? & _ & ? & _). lia.
Qed.

Lemma copies_log j b : st <= b < st + nl -> apply_writes (take j copies) d !!! b = d !!! b.
Proof.
  intros Hb. rewrite apply_upd. apply upd_notin. intros Hin. apply keys_copies_prefix, bl_range in Hin. lia.
Qed.

(** Recovery interrupted before it clears the header. *)
Lemma recovered_partial j :
  let d' := apply_writes (take j copies) d in
  bootable st nl size d' /\ forall b, ~ (st <= b < st + nl) -> recovered st d' b = recovered st d b.
Proof.
  intros d'. pose proof length_bl as Hbl. pose proof Hd as (_ & _ & _ & Hst & Hnl & Hsz & Hh).
  assert (d' !!! st = d !!! st) as Hst' by (apply copies_log; lia). split.
  - apply bootable_apply; [done|apply copies_ok| |fold d'; rewrite Hst'; exact Hh].
    intros Hin. apply keys_copies_prefix, bl_range in Hin. tauto.
  - intros b Hb. assert (recovery_writes st d' = recovery_writes st d) as Hr.
    { unfold recovery_writes. cbv zeta. rewrite Hst'. fold bl.
      rewrite (list_fmap_ext (fun b => d' !!! b) (fun b => d !!! b) (lognos st 0 (length bl))); [done|].
      intros i c Hc%list_elem_of_lookup_2. rewrite elem_of_lognos in Hc. apply copies_log. lia. }
    unfold recovered. rewrite Hr, !apply_upd. rewrite recovery_writes_eq.
    destruct (decide (b ∈ bl)) as [Hin|Hin].
    + apply upd_in. rewrite fmap_app, keys_copies. set_solver.
    + apply upd_ext. unfold d'. rewrite apply_upd. apply upd_notin. intros H%keys_copies_prefix. done.
Qed.

(** Recovery interrupted anywhere. *)
Lemma recovered_prefix j :
  let d' := apply_writes (take j (recovery_writes st d)) d in
  bootable st nl size d' /\ forall b, ~ (st <= b < st + nl) -> recovered st d' b = recovered st d b.
Proof.
  intros d'. unfold d'. rewrite recovery_writes_eq.
  destruct (decide (j <= length copies)%nat) as [Hj|Hj].
  { rewrite take_app_le by done. apply recovered_partial. }
  rewrite take_ge by (rewrite length_app; cbn; lia).
  pose proof Hd as (_ & _ & _ & Hst & Hnl & Hsz & _).
  set (h := @lookup_total Z block (gmap Z block) _ st d).
  set (w := copies ++ [(st, st32 h 0 0)]). change (copies ++ _) with w.
  assert (@lookup_total Z block _ _ st (apply_writes w d) = st32 h 0 0) as Hh.
  { rewrite apply_upd. unfold w. rewrite upd_app. cbn. by rewrite decide_True. }
  assert (block_ok h) as Hok by (apply (bootable_block st nl size); [done|lia]).
  destruct (cleared_header _ (proj1 Hok)) as [Hz _]. split.
  - apply bootable_apply; [done| | |rewrite Hh; apply header_ok_empty; lia].
    + unfold w. rewrite fmap_app. apply Forall_app. split.
      * rewrite <- (take_ge copies (length copies)) by lia. apply copies_ok.
      * apply Forall_singleton. apply st32_ok; [unfold BSIZE; lia|done].
    + unfold w. rewrite fmap_app, keys_copies. intros Hin. apply elem_of_app in Hin as [Hin|Hin].
      * apply bl_range in Hin as (_ & Hne & _). done.
      * apply list_elem_of_singleton in Hin. cbn in Hin. lia.
  - intros b Hb. rewrite recovered_empty by (rewrite ?Hh; lia). done.
Qed.
End Prefix.

(** ** Crashes *)

(** [reboots size d d']: [d'] is what the disk can hold after booting from [d],
    any number of times, with each recovery cut short by a crash after some
    number of its disk writes. *)
Inductive reboots (size : Z) (d : gmap Z block) : gmap Z block -> Prop :=
  | reboots_none : reboots size d d
  | reboots_crash d1 s' j :
      reboots size d d1 -> initlog ROOTDEV (boot_state d1 size) = Ret tt s' ->
      reboots size d (apply_writes (take j (writes (bs s'))) d1).

Lemma reboots_recovered st nl size d d' :
  bootable st nl size d -> reboots size d d' ->
  bootable st nl size d' /\ forall b, ~ (st <= b < st + nl) -> recovered st d' b = recovered st d b.
Proof.
  intros Hd. induction 1 as [|d1 s' j _ [IH1 IH2] Hrun]; [done|].
  pose proof (initlog_spec st nl size d1 IH1) as Hwp. unfold wp in Hwp. rewrite Hrun in Hwp.
  destruct Hwp as [(_ & _ & _ & _ & -> & _) _]. cbn [boot binit set_lru writes app].
  destruct (recovered_prefix st nl size d1 IH1 j) as [H1 H2]. split; [done|].
  intros b Hb. rewrite H2 by done. by apply IH2.
Qed.

(** A recovered file system satisfies the invariant of the log. *)
Lemma initlog_inv st nl size d :
  bootable st nl size d ->
  wp (initlog ROOTDEV) (boot_state d size) (fun _ s' =>
    log_inv s' /\ logged s' = [] /\ disksize (bs s') = size /\ l_start (lg s') = st /\ l_size (lg s') = nl /\
    l_outstanding (lg s') = 0 /\ l_committing (lg s') = false /\
    forall b, view (bs s') b = recovered st d b /\ disk (bs s') !!! b = recovered st d b).
Proof.
  intros Hd. eapply wp_mono; [by apply initlog_spec|].
  intros _ s' (Hx & Hst & Hsz & Hdev & Hout & Hcom & Hn & Hlen).
  pose proof Hd as (Hdb & _ & _ & H1 & H2 & H3 & _).
  destruct (boot_inv d size Hdb) as (_ & _ & _ & Hcl & Hv).
  pose proof Hx as (Hinv & Hq & Hsz' & Hdk & _ & Hv' & Hdt & _). cbn in Hsz', Hdk.
  assert (forall b, ~ is_dirty (bs s') b) as Hclean by (intros b [Hb _]%Hdt; by apply (Hcl b)).
  assert (logged s' = []) as Hl by (unfold logged; by rewrite Hn).
  destruct (recovered_prefix st nl size d Hd (length (recovery_writes st d))) as [Hd' _].
  rewrite take_ge in Hd' by lia. rewrite <- Hdk in Hd'.
  split_and!; try done.
  - unfold log_inv, log_ok. rewrite Hn, Hl, Hst, Hsz, Hsz'. split_and!; try done; try lia.
    + apply NoDup_nil_2.
    + intros c. split; [by intros Hc%elem_of_nil|]. intros Hc. by apply Hclean in Hc.
    + by intros c Hc%elem_of_nil.
    + rewrite Hdk, apply_upd, recovery_writes_eq, upd_app. cbn [upd]. rewrite decide_True by done.
      apply Z.eq_le_incl, cleared_header, (bootable_block st nl size d); [done|lia].
  - intros b. rewrite (clean_view (bs s') b Hinv Hq (Hclean b)). by rewrite Hdk.
Qed.

Section CommitCrash.
Context (s : lst) (Hlog : log_inv s).
Let l := lg s.
Let st := l_start l.
Let n := lh_n (l_lh l).
Let bl := logged s.
Let b0 := bs s.

(** The disk once the header is written: the commit point. *)
Let point : gmap Z block :=
  apply_writes (commit_log st bl (view b0) ++ [(st, commit_head st bl (view b0))]) (disk b0).

Lemma clean_outside b : (b ∉ bl) -> view b0 b = disk b0 !!! b.
Proof.
  intros Hb. pose proof Hlog as (Hinv & Hq & _ & _ & _ & _ & _ & Hd & _).
  apply clean_view; [done..|]. intros H%Hd. done.
Qed.

Lemma commit_log_ok k : Forall block_ok (take k (commit_log st bl (view b0))).*2.
Proof.
  rewrite fmap_take. apply Forall_take. unfold commit_log.
  rewrite snd_zip by (rewrite length_fmap, length_lognos; lia).
  apply Forall_fmap, Forall_forall. intros b Hb. apply view_ok; [apply Hlog|].
  by apply (logged_range s Hlog).
Qed.

Lemma commit_log_keys k b : b ∈ (take k (commit_log st bl (view b0))).*1 -> st + 1 <= b < st + l_size l.
Proof.
  rewrite fmap_take, keys_commit_log. intros (i & Hi & _)%elem_of_take.
  apply list_elem_of_lookup_2 in Hi. rewrite elem_of_lognos in Hi.
  pose proof (n_logged s Hlog) as Hn. fold bl in Hn.
  pose proof Hlog as (_ & _ & _ & _ & _ & Hsz & _). unfold l in *. lia.
Qed.

(** A crash before the commit point. *)
Lemma crash_before k :
  let d := apply_writes (take k (commit_log st bl (view b0))) (disk b0) in
  bootable st (l_size l) (disksize b0) d /\
  forall b, ~ in_log l b -> recovered st d b = disk b0 !!! b.
Proof.
  intros d. pose proof Hlog as (_ & _ & _ & _ & _ & _ & _ & _ & _ & Hboot & Hh).
  pose proof Hboot as (_ & _ & _ & Hst & Hnl & _). fold l st in Hst, Hnl.
  assert (forall b, ~ (st + 1 <= b < st + l_size l) -> d !!! b = disk b0 !!! b) as Hout.
  { intros b Hb. unfold d. rewrite apply_upd. apply upd_notin. intros Hin%commit_log_keys. done. }
  split.
  - apply bootable_apply; [done|apply commit_log_ok|intros Hin%commit_log_keys; lia|].
    fold d. rewrite Hout by lia. apply header_ok_empty; [done|exact Hh].
  - intros b Hb. unfold in_log in Hb. fold st in Hb.
    rewrite recovered_empty; [apply Hout; lia|rewrite Hout by lia; exact Hh|lia].
Qed.

Lemma point_header : @lookup_total Z block _ _ st point = commit_head st bl (view b0).
Proof. unfold point. rewrite apply_upd, upd_app. cbn. by rewrite decide_True. Qed.

Lemma commit_head_blocks : hdr_blocks (commit_head st bl (view b0)) = bl /\
  hdr_n (commit_head st bl (view b0)) = n /\ block_ok (commit_head st bl (view b0)).
Proof.
  pose proof (n_logged s Hlog) as Hnl. destruct (log_fits s Hlog) as (Hst & Hsz & Hn & _).
  fold l st n bl b0 in Hst, Hsz, Hn, Hnl. unfold commit_head. rewrite <- Hnl.
  assert (block_ok (view b0 st)) as Hok by (apply view_ok; [apply Hlog|lia]).
  assert (4 + 4 * length bl <= length (view b0 st))%nat as Hlen.
  { destruct Hok as [-> _]. unfold BSIZE. lia. }
  split; [|split].
  - apply enc_head_blocks; [done|done|lia|]. apply Forall_forall. intros c Hc.
    apply (logged_range s Hlog) in Hc as (Hc & _). fold b0 in Hc. lia.
  - apply enc_head_n; [done|lia].
  - apply enc_blocks_ok; [unfold BSIZE; lia|]. apply st32_ok; [unfold BSIZE; lia|done].
Qed.

Lemma point_bootable : bootable st (l_size l) (disksize b0) point.
Proof.
  pose proof Hlog as (_ & _ & _ & _ & Hn & Hsz & _ & _ & Hr & Hboot & _).
  pose proof Hboot as (_ & _ & _ & Hst & Hnl & _). fold l in Hn, Hsz, Hst, Hnl. fold st in Hst.
  destruct commit_head_blocks as (Hb & Hh & Hok).
  assert (commit_log st bl (view b0) = take (length (commit_log st bl (view b0))) (commit_log st bl (view b0)))
    as Htk by (by rewrite take_ge).
  apply bootable_apply; [done| | |].
  - rewrite fmap_app. apply Forall_app. split; [rewrite Htk; apply commit_log_ok|by apply Forall_singleton].
  - rewrite fmap_app, Htk. intros [Hin%commit_log_keys|Hin%list_elem_of_singleton]%elem_of_app; [lia|].
    cbn in Hin. lia.
  - fold point. rewrite point_header. unfold header_ok. rewrite Hb, Hh. fold n in Hn, Hsz.
    split; [lia|]. split; [lia|]. exact Hr.
Qed.

Lemma point_recovery :
  recovery_writes st point = zip bl (view b0 <$> bl) ++ [(st, st32 (commit_head st bl (view b0)) 0 0)].
Proof.
  unfold recovery_writes. cbv zeta. rewrite point_header. destruct commit_head_blocks as (-> & _ & _).
  rewrite (list_fmap_ext _ (upd (commit_log st bl (view b0)) (fun b => disk b0 !!! b))).
  - unfold commit_log. rewrite upd_zip; [done|apply NoDup_lognos|by rewrite length_fmap, length_lognos].
  - intros i c Hc%list_elem_of_lookup_2. unfold point. rewrite apply_upd, upd_app. cbn.
    rewrite elem_of_lognos in Hc. by rewrite decide_False by lia.
Qed.

Lemma point_recovered b : ~ in_log l b -> recovered st point b = view b0 b.
Proof.
  intros Hb. unfold recovered. rewrite point_recovery, apply_upd, upd_app. unfold in_log in Hb. fold st in Hb.
  pose proof Hlog as (_ & _ & _ & _ & _ & _ & _ & _ & _ & (_ & _ & _ & _ & Hnl & _) & _). fold l in Hnl.
  cbn [upd]. rewrite decide_False by lia.
  destruct (decide (b ∈ bl)) as [Hin|Hin]; [by apply upd_zip_fn|].
  rewrite upd_notin by (by rewrite keys_install). rewrite clean_outside by done.
  unfold point. rewrite apply_upd, upd_notin; [done|].
  rewrite fmap_app. intros [H|H%list_elem_of_singleton]%elem_of_app; [|cbn in H; lia].
  rewrite <- (take_ge (commit_log st bl (view b0)) _ (Nat.le_refl _)) in H. apply commit_log_keys in H. lia.
Qed.

(** A crash after any number [k] of the writes of [commit]: recovery gives the
    contents before the transaction up to the commit point, and the contents
    after it from then on. *)
Lemma crash_recovered k :
  let d := apply_writes (take k (commit_writes st bl (view b0))) (disk b0) in
  bootable st (l_size l) (disksize b0) d /\
  forall b, ~ in_log l b ->
    recovered st d b = if decide (Z.of_nat k <= n) then disk b0 !!! b else view b0 b.
Proof.
  pose proof (n_logged s Hlog) as Hn. fold l n bl in Hn.
  assert (length (commit_log st bl (view b0)) = length bl) as Hlen.
  { rewrite <- (length_fmap fst), keys_commit_log. apply length_lognos. }
  unfold commit_writes. destruct (decide (k <= length bl)%nat) as [Hk|Hk].
  - rewrite take_app_le by lia. destruct (crash_before k) as [H1 H2]. split; [done|].
    intros b Hb. rewrite decide_True by lia. by apply H2.
  - rewrite app_assoc.
    rewrite take_app_ge by (rewrite length_app; cbn; lia). rewrite apply_writes_app. fold point.
    rewrite <- point_recovery.
    destruct (recovered_prefix st (l_size l) (disksize b0) point point_bootable
      (k - length (commit_log st bl (view b0) ++ [(st, commit_head st bl (view b0))]))) as [H1 H2].
    split; [done|]. intros b Hb. rewrite decide_False by lia. rewrite H2 by exact Hb. by apply point_recovered.
Qed.
End CommitCrash.

(** ** The theorems *)

(** C3: A transaction is atomic with respect to crashes.  From a consistent state
    with blocks in the transaction, [commit] returns and has made a sequence of
    disk writes [w]; if the machine stops after any [k] of them, and then again
    any number of times in the middle of the recovery of the next boots, the boot
    that completes its recovery finds every block outside the log as it was before
    the transaction when the header was not yet written ([k] at most the number of
    logged blocks), and every one as the transaction left it otherwise. *)
Theorem commit_crash_atomic s :
  log_inv s -> 0 < lh_n (l_lh (lg s)) ->
  exists s' w, commit s = Ret tt s' /\ writes (bs s') = writes (bs s) ++ w /\
    forall k d', reboots (disksize (bs s)) (apply_writes (take k w) (disk (bs s))) d' ->
      exists r, initlog ROOTDEV (boot_state d' (disksize (bs s))) = Ret tt r /\ log_inv r /\
        forall b, ~ in_log (lg s) b ->
          view (bs r) b =
            if decide (Z.of_nat k <= lh_n (l_lh (lg s))) then disk (bs s) !!! b else view (bs s) b.
Proof.
  intros Hlog Hn. destruct (wp_elim _ _ _ (commit_spec s Hlog Hn)) as ([] & s' & Hrun & Hx & _).
  exists s', (commit_writes (l_start (lg s)) (logged s) (view (bs s))).
  split; [done|]. split; [apply Hx|]. intros k d' Hre.
  destruct (crash_recovered s Hlog k) as [Hboot Hrec].
  destruct (reboots_recovered _ _ _ _ _ Hboot Hre) as [Hboot' Hrec'].
  destruct (wp_elim _ _ _ (initlog_inv _ _ _ _ Hboot')) as ([] & r & Hr & Hinv & _ & _ & _ & _ & _ & _ & Hv).
  exists r. split_and!; [done|done|]. intros b Hb. rewrite (proj1 (Hv b)), Hrec' by exact Hb.
  by apply Hrec.
Qed.

End LogCrash.
