(* ===== verification/Txn.v ===== *)
(** * Transactions

    The calls a file system operation makes between [begin_op] and [end_op]:
    [bread], reading and changing the data of the buffer, [log_write], [brelse],
    with their specifications in terms of the blocks the operation holds and of
    the contents of the blocks; [begin_op] and [end_op]; and the system in which
    operations are interleaved, with what a crash of it leaves. *)

From S2P Require Export LogCrash.
Local Open Scope Z_scope.

Module Txn.
Import Bio Layout Log LogSpec LogCrash.

(** The blocks [hs] are held, each in its buffer; those of [pend] have been
    changed and not given to [log_write]. *)
Definition txn (s : lst) (hs : list (nat * Z)) (pend : list Z) : Prop :=
  bio_inv (bs s) /\ locked_only (bs s) hs.*1 /\
  (forall i c, (i, c) ∈ hs -> exists f d, holder (bs s) i f c d) /\ NoDup hs.*2 /\
  log_ok s /\ (forall c, (c ∉ logged s) -> (c ∉ pend) -> view (bs s) c = disk (bs s) !!! c).

(** Every block of [s] has in [s'] the contents [v]; the disk is as it was. *)
Definition keeps (s s' : lst) (v : Z -> block) : Prop :=
  disksize (bs s') = disksize (bs s) /\ disk (bs s') = disk (bs s) /\
  writes (bs s') = writes (bs s) /\ forall b, view (bs s') b = v b.

Lemma log_inv_txn s : log_inv s <-> txn s [] [].
Proof.
  split.
  - intros (Hinv & Hq & Hok). split_and!; try done.
    + by intros i c Hc%elem_of_nil.
    + apply NoDup_nil_2.
    + intros c Hc _. apply clean_view; [done|done|]. intros Hd. by apply Hok in Hd.
  - intros (Hinv & Hq & _ & _ & Hok & _). by split.
Qed.

(** How many more blocks the transaction can take. *)
Definition budget (l : log) : Z := Z.min 29 (l_size l - 1) - lh_n (l_lh l).

Lemma locked_block s hs pend i x :
  txn s hs pend -> bufs (bs s) !! i = Some x -> locked x = true -> (i, blockno x) ∈ hs.
Proof.
  intros (Hinv & Hlk & Hh & _) Hi Hl. pose proof (Hlk i x Hi Hl) as Hin.
  apply list_elem_of_fmap in Hin as ([j c] & -> & Hin). destruct (Hh _ _ Hin) as (f & d & Hj & _).
  cbn in Hi. rewrite Hi in Hj. by injection Hj as ->.
Qed.

Lemma length_logged_ok s : log_ok s -> length (logged s) = Z.to_nat (lh_n (l_lh (lg s))).
Proof. intros (_ & Hl & Hn & _). unfold logged. rewrite length_take. lia. Qed.

Lemma txn_pinned s hs pend :
  txn s hs pend -> (pinned (bs s) <= length hs + Z.to_nat (lh_n (l_lh (lg s))))%nat.
Proof.
  intros Ht. pose proof Ht as (Hinv & _ & _ & _ & Hok & _).
  rewrite <- (length_logged_ok s) by done. rewrite <- (length_fmap snd hs).
  apply pinned_held; [done| |].
  - intros i x Hi Hl. apply list_elem_of_fmap. exists (i, blockno x). split; [done|].
    by eapply locked_block.
  - intros c. by apply Hok.
Qed.

(** [log_ok] depends on the buffers only through the dirty blocks. *)
Lemma log_ok_bs s b' :
  log_ok s -> disk b' = disk (bs s) -> disksize b' = disksize (bs s) ->
  (forall c, is_dirty b' c <-> is_dirty (bs s) c) -> log_ok (mklst b' (lg s)).
Proof.
  intros (H1 & H2 & H3 & H4 & H5 & H6 & H7 & H8 & H9) Hd Hsz Hdt. unfold log_ok. cbn.
  rewrite Hd, Hsz. split_and!; try done; [lia|lia|]. intros c. rewrite Hdt. apply H6.
Qed.

(** ** The calls *)

Lemma txn_bread s hs pend c (Q : nat -> lst -> Prop) :
  txn s hs pend -> 0 <= c < disksize (bs s) -> (c ∉ hs.*2) ->
  (cached (bs s) c \/ (pinned (bs s) < NBUF)%nat) ->
  (forall i s', txn s' ((i, c) :: hs) pend -> keeps s s' (view (bs s)) -> lg s' = lg s -> Q i s') ->
  wp (bio (bread 1 c)) s Q.
Proof.
  intros Ht Hc Hni Hroom HQ. pose proof Ht as (Hinv & Hlk & Hh & Hnd & Hok & Hcl).
  unfold bio. apply wp_zoom. eapply wp_mono; [apply bread_spec; [done|done| |done]|].
  - intros i x Hi _ Hb. destruct (locked x) eqn:El; [|done]. destruct Hni.
    apply list_elem_of_fmap. exists (i, blockno x). split; [by rewrite <- Hb|]. by eapply locked_block.
  - intros i b' (x & f & Hi & Hl & Hr & Hf & Hf6 & Hx6 & -> & Hinv' & Hv').
    pose proof (lookup_lt_Some _ _ _ Hi) as Hlt.
    apply HQ; [|split_and!; done|done]. split_and!.
    + done.
    + by apply locked_only_put.
    + intros j e [Heq|Hin]%elem_of_cons.
      * simplify_eq. exists f, (view (bs s) c). split; [by apply lookup_put|done].
      * destruct (Hh j e Hin) as (f' & d' & Hj & Hf'). exists f', d'. split; [|done].
        cbn [bs]. rewrite lookup_put_ne; [done|]. intros <-. rewrite Hi in Hj. by injection Hj as ->.
    + cbn. by constructor.
    + apply log_ok_bs; [done..|]. intros e. apply (is_dirty_put _ i x); [done|done|].
      intros H6. symmetry. auto.
    + intros e He1 He2. cbn. rewrite Hv'. by apply Hcl.
Qed.

(** The cache has room when few blocks are held. *)
Lemma txn_room s hs pend :
  txn s hs pend -> Z.of_nat (length hs) <= budget (lg s) -> (pinned (bs s) < NBUF)%nat.
Proof.
  intros Ht Hb. pose proof (txn_pinned _ _ _ Ht) as Hp. pose proof Ht as (_ & _ & _ & _ & (_ & _ & Hn & _) & _).
  unfold budget in Hb. unfold NBUF. lia.
Qed.

Lemma txn_data s hs pend i c (Q : block -> lst -> Prop) :
  txn s hs pend -> (i, c) ∈ hs -> Q (view (bs s) c) s -> wp (bio (buf_data i)) s Q.
Proof.
  intros (Hinv & _ & Hh & _) Hin HQ. destruct (Hh i c Hin) as (f & d & Hi).
  unfold bio. apply wp_zoom. eapply wp_buf_data; [done|]. cbn.
  rewrite <- (view_holder _ _ _ _ _ Hinv Hi). by destruct s.
Qed.

Lemma txn_set_data s hs pend i c d (Q : unit -> lst -> Prop) :
  txn s hs pend -> (i, c) ∈ hs -> block_ok d ->
  (forall s', txn s' hs (c :: pend) -> keeps s s' (upd [(c, d)] (view (bs s))) -> lg s' = lg s -> Q tt s') ->
  wp (bio (set_data i d)) s Q.
Proof.
  intros Ht Hin Hd HQ. pose proof Ht as (Hinv & Hlk & Hh & Hnd & Hok & Hcl).
  destruct (Hh i c Hin) as (f & d0 & Hi). pose proof Hi as [Hi0 Hf].
  pose proof (lookup_lt_Some _ _ _ Hi0) as Hlt.
  destruct (holder_put (bs s) i f c d0 f d Hinv Hi Hf Hd) as (Hinv' & Hh' & Hvc & Hv).
  unfold bio. apply wp_zoom. unfold set_data. eapply wp_upd_buf; [exact Hi0|]. cbn.
  change (set_bdata d (held f c d0)) with (held f c d).
  apply HQ; [|split_and!; try done|done].
  - split_and!.
    + done.
    + apply locked_only_put_in; [done|]. apply list_elem_of_fmap. by exists (i, c).
    + intros j e Hj. destruct (decide (j = i)) as [->|Hne].
      * destruct (Hh i e Hj) as (? & ? & He & _). rewrite Hi0 in He. injection He as <- <- <-.
        exists f, d. done.
      * destruct (Hh j e Hj) as (f' & d' & He & Hf'). exists f', d'. split; [|done].
        cbn [bs]. by rewrite lookup_put_ne.
    + done.
    + apply log_ok_bs; [done..|]. intros e. by apply (is_dirty_put _ i (held f c d0)).
    + intros e He1 He2. apply not_elem_of_cons in He2 as [Hec He2]. cbn.
      rewrite Hv by done. by apply Hcl.
  - intros b. cbn. case_decide as Hb; [by subst|]. by apply Hv.
Qed.

Lemma txn_brelse s hs pend i c (Q : unit -> lst -> Prop) :
  txn s ((i, c) :: hs) pend -> (c ∉ pend) ->
  (forall s', txn s' hs pend -> keeps s s' (view (bs s)) -> lg s' = lg s -> Q tt s') ->
  wp (bio (brelse i)) s Q.
Proof.
  intros Ht Hnp HQ. pose proof Ht as (Hinv & Hlk & Hh & Hnd & Hok & Hcl).
  destruct (Hh i c) as (f & d & Hi); [set_solver|]. pose proof Hi as [Hi0 Hf].
  pose proof (lookup_lt_Some _ _ _ Hi0) as Hlt. cbn in Hnd. apply NoDup_cons in Hnd as [Hnc Hnd].
  assert (f = 2 -> disk (bs s) !!! c = d) as Hclean.
  { intros ->. rewrite <- (view_holder _ _ _ _ _ Hinv Hi). symmetry. apply Hcl; [|done].
    pose proof Hok as (_ & _ & _ & _ & _ & Hld & _). intros Hl%Hld.
    by apply (holder_dirty _ _ _ _ _ Hinv Hi) in Hl. }
  destruct (released_spec (bs s) i f c d Hinv Hi Hclean) as [Hinv' Hv'].
  unfold bio. apply wp_zoom. eapply wp_brelse; [done|]. cbn.
  apply HQ; [|split_and!; done|done]. split_and!; try done.
  - intros j x Hj Hx. cbn [bs released set_lru bufs] in Hj. cbn in Hj.
    apply list_lookup_insert_Some in Hj as [(<- & <- & _)|[Hne Hj]]; [done|].
    specialize (Hlk j x Hj Hx). cbn in Hlk. apply elem_of_cons in Hlk as [->|?]; done.
  - intros j e Hj. destruct (Hh j e) as (f' & d' & He & Hf'); [set_solver|]. exists f', d'.
    split; [|done]. cbn. rewrite list_lookup_insert_ne; [done|]. intros <-.
    rewrite Hi0 in He. injection He as <- <- <-. destruct Hnc. apply list_elem_of_fmap. by exists (i, c).
  - apply log_ok_bs; [done..|]. intros e. by apply (is_dirty_put _ i (held f c d) (mkbuf f 1 c false 0 d)).
  - intros e He1 He2. cbn. rewrite Hv'. by apply Hcl.
Qed.

Lemma find_slot_spec n : forall i bl b, (i + n <= length bl)%nat ->
  let k := find_slot n i bl b in
  (i <= k <= i + n)%nat /\ ((k < i + n)%nat -> bl !! k = Some b) /\
  (forall j, (i <= j < k)%nat -> bl !! j <> Some b).
Proof.
  induction n as [|n IH]; intros i bl b Hl; cbn [find_slot]; [split_and!; lia|].
  destruct (lookup_lt_is_Some_2 bl i) as [x Hx]; [lia|]. rewrite Hx. cbn.
  destruct (Z.eqb_spec x b) as [->|Hne]; [split_and!; [lia|lia|done|lia]|].
  destruct (IH (S i) bl b) as (H1 & H2 & H3); [lia|]. split_and!; [lia|lia|intros; apply H2; lia|].
  intros j Hj. destruct (decide (j = i)) as [->|]; [congruence|]. apply H3. lia.
Qed.

(** The parts of the log [log_write] leaves as they are. *)
Definition log_same (l l' : log) : Prop :=
  l_start l' = l_start l /\ l_size l' = l_size l /\ l_outstanding l' = l_outstanding l /\
  l_committing l' = l_committing l /\ l_dev l' = l_dev l.

(** The header after [log_write] of block [c]. *)
Definition log_add (h : logheader) (c : Z) : logheader :=
  let k := find_slot (Z.to_nat (lh_n h)) 0 (lh_block h) c in
  mklh (if Z.of_nat k =? lh_n h then lh_n h + 1 else lh_n h) (<[k := c]> (lh_block h)).

Lemma log_add_spec h c :
  0 <= lh_n h < 30 -> length (lh_block h) = 30%nat ->
  let bl := take (Z.to_nat (lh_n h)) (lh_block h) in
  length (lh_block (log_add h c)) = 30%nat /\
  (c ∈ bl /\ log_add h c = h \/
   (c ∉ bl) /\ lh_n (log_add h c) = lh_n h + 1 /\
   take (Z.to_nat (lh_n (log_add h c))) (lh_block (log_add h c)) = bl ++ [c]).
Proof.
  intros Hn Hl bl. unfold log_add.
  destruct (find_slot_spec (Z.to_nat (lh_n h)) 0 (lh_block h) c) as (H1 & H2 & H3); [lia|].
  set (k := find_slot _ _ _ _) in *. cbn in H1, H2. split; [cbn; by rewrite length_insert|].
  destruct (Z.eqb_spec (Z.of_nat k) (lh_n h)) as [Hk|Hk].
  - right. cbn. assert (k = Z.to_nat (lh_n h)) as Hk' by lia. split_and!; [|done|].
    + intros (j & Hj & Hlt)%elem_of_take. apply (H3 j); [lia|done].
    + replace (Z.to_nat (lh_n h + 1)) with (S k) by lia.
      rewrite (take_S_r _ _ c) by (apply list_lookup_insert_eq; lia).
      f_equal. rewrite take_insert_ge by lia. unfold bl. by rewrite Hk'.
  - left. specialize (H2 ltac:(lia)). split; [apply elem_of_take; exists k; split; [done|lia]|].
    rewrite list_insert_id by done. by destruct h.
Qed.

Lemma lor_dirty f : f = 2 \/ f = 6 -> Z.lor f B_DIRTY = 6.
Proof. by intros [->| ->]. Qed.

Lemma is_dirty_mark s i f c d b :
  bio_inv s -> holder s i f c d ->
  is_dirty (put_buf i (held 6 c d) s) b <-> is_dirty s b \/ b = c.
Proof.
  intros (_ & _ & Hbs & Hu & _) [Hi _]. pose proof (lookup_lt_Some _ _ _ Hi) as Hlt. split.
  - intros (j & y & Hj & Hy & <-). cbn in Hj.
    apply list_lookup_insert_Some in Hj as [(<- & <- & _)|[Hne Hj]]; [by right|left; by exists j, y].
  - intros [(j & y & Hj & Hy & <-)| ->].
    + destruct (decide (i = j)) as [<-|Hne]; [|exists j, y; by rewrite lookup_put_ne].
      exists i, (held 6 c d). rewrite lookup_put by done. simplify_eq. done.
    + exists i, (held 6 c d). by rewrite lookup_put.
Qed.

(** The state after [log_write] of the held buffer [i]. *)
Definition log_written (i : nat) (c : Z) (d : block) (s : lst) : lst :=
  mklst (put_buf i (held 6 c d) (bs s)) (set_lh (log_add (l_lh (lg s)) c) (lg s)).

Lemma wp_log_write s i f c d (Q : unit -> lst -> Prop) :
  holder (bs s) i f c d -> 1 <= l_outstanding (lg s) -> 0 < budget (lg s) ->
  Q tt (log_written i c d s) -> wp (log_write i) s Q.
Proof.
  intros [Hi Hf] Hout Hbud HQ. unfold budget in Hbud. unfold log_write. wp_steps. unfold LOGSIZE, MAXOPBLOCKS.
  rewrite (proj2 (Z.leb_gt _ _)) by lia. rewrite (proj2 (Z.leb_gt _ _)) by lia. cbn [orb].
  rewrite (proj2 (Z.ltb_ge _ _)) by lia. wp_steps. unfold bio at 1. apply wp_zoom.
  eapply wp_get_buf; [exact Hi|]. cbn [held blockno]. unfold upd_log. wp_steps.
  unfold bio. apply wp_zoom. eapply wp_upd_buf; [exact Hi|].
  cbn [held flags]. rewrite lor_dirty by done. exact HQ.
Qed.

Lemma logged_log_written s i c d :
  log_ok s ->
  logged (log_written i c d s) = (if decide (c ∈ logged s) then logged s else logged s ++ [c]) /\
  lh_n (l_lh (lg s)) <= lh_n (log_add (l_lh (lg s)) c) <= lh_n (l_lh (lg s)) + 1 /\
  length (lh_block (log_add (l_lh (lg s)) c)) = 30%nat.
Proof.
  intros (_ & Hlen & Hn & _). destruct (log_add_spec (l_lh (lg s)) c) as [Hlen' Hcase]; [lia|done|].
  fold (logged s) in Hcase. destruct Hcase as [[Hin Heq]|(Hnin & Hn' & Htake)].
  - rewrite decide_True by done. unfold logged, log_written. cbn [lg set_lh l_lh]. rewrite Heq. split_and!; [done|lia..|done].
  - rewrite decide_False by done. split_and!; [exact Htake|lia|lia|done].
Qed.

Lemma elem_of_logged_written s i c d x :
  log_ok s -> x ∈ logged (log_written i c d s) <-> x ∈ logged s \/ x = c.
Proof.
  intros Hok. rewrite (proj1 (logged_log_written s i c d Hok)).
  case_decide; [naive_solver|]. by rewrite elem_of_app, list_elem_of_singleton.
Qed.

Lemma log_ok_written s i f c d :
  bio_inv (bs s) -> holder (bs s) i f c d -> log_ok s -> 0 < budget (lg s) -> c <> 1 -> ~ in_log (lg s) c ->
  log_ok (log_written i c d s).
Proof.
  intros Hinv Hi Hok Hbud Hc1 Hcl. pose proof Hok as (Hdev & Hlen & Hn & Hsz & Hnd & Hdt & Hr & Hboot & Hh).
  destruct (logged_log_written s i c d Hok) as (Hlg & Hnn & Hlen'). unfold budget in Hbud.
  assert (0 <= c < disksize (bs s)) as Hrange.
  { destruct Hinv as (_ & _ & Hbs & _). by apply (Hbs i _ (proj1 Hi)). }
  assert (lh_n (l_lh (lg (log_written i c d s))) = lh_n (log_add (l_lh (lg s)) c)) as Hnw by done.
  unfold log_ok. rewrite Hnw. split_and!; [done|done|lia|lia|change (l_size (lg (log_written i c d s))) with (l_size (lg s)); lia| | | |done|done].
  - rewrite Hlg. case_decide as Hd; [done|]. apply NoDup_app. split_and!; [done| |apply NoDup_singleton].
    intros x Hx ->%list_elem_of_singleton. done.
  - intros x. rewrite elem_of_logged_written by done. cbn [bs log_written].
    rewrite (is_dirty_mark _ _ f) by done. by rewrite Hdt.
  - intros x Hx. apply (elem_of_logged_written s i c d x Hok) in Hx as [Hx| ->]; [by apply Hr|done].
Qed.

(** [log_write]: the block joins the transaction, if it is not in it. *)
Lemma txn_log_write s hs pend i c (Q : unit -> lst -> Prop) :
  txn s hs pend -> (i, c) ∈ hs -> 1 <= l_outstanding (lg s) -> 0 < budget (lg s) ->
  c <> 1 -> ~ in_log (lg s) c ->
  (forall s', txn s' hs (base.filter (fun x => x <> c) pend) -> keeps s s' (view (bs s)) ->
     log_same (lg s) (lg s') -> budget (lg s) - 1 <= budget (lg s') ->
     (forall x, x ∈ logged s' <-> x ∈ logged s \/ x = c) -> Q tt s') ->
  wp (log_write i) s Q.
Proof.
  intros Ht Hin Hout Hbud Hc1 Hcl HQ. pose proof Ht as (Hinv & Hlk & Hh & Hnd & Hok & Hclean).
  destruct (Hh i c Hin) as (f & d & Hi). pose proof Hi as [Hi0 Hf].
  eapply wp_log_write; [done..|]. pose proof (logged_log_written s i c d Hok) as (_ & Hnn & _).
  destruct (holder_put (bs s) i f c d 6 d Hinv Hi ltac:(by right)) as (Hinv' & Hh' & Hvc & Hv).
  { destruct Hinv as (_ & _ & Hbs & _). apply (Hbs i _ Hi0). cbn. destruct Hf; lia. }
  assert (forall b, view (bs (log_written i c d s)) b = view (bs s) b) as Hview.
  { intros b. destruct (decide (b = c)) as [->|]; [|by apply Hv]. cbn [bs log_written].
    rewrite Hvc. symmetry. by apply (view_holder _ i f). }
  apply HQ; [|split_and!; done|split_and!; done|change (budget (lg s) - 1 <= Z.min 29 (l_size (lg s) - 1) - lh_n (log_add (l_lh (lg s)) c));
    unfold budget; lia|intros x; by apply elem_of_logged_written].
  split_and!; [done| | |done|by eapply log_ok_written|].
  - apply locked_only_put_in; [done|]. apply list_elem_of_fmap. by exists (i, c).
  - intros j e Hj. destruct (decide (j = i)) as [->|Hne].
    + destruct (Hh i e Hj) as (? & ? & He & _). rewrite Hi0 in He. injection He as <- <- <-. by exists 6, d.
    + destruct (Hh j e Hj) as (f' & d' & He & Hf'). exists f', d'. split; [|done].
      cbn [bs log_written]. by rewrite lookup_put_ne.
  - intros x Hx1 Hx2. rewrite Hview. rewrite elem_of_logged_written in Hx1 by done. apply Hclean; [tauto|].
    intros Hx. apply Hx2, list_elem_of_filter. split; [|done]. tauto.
Qed.

Lemma txn_perm s hs hs' pend : hs ≡ₚ hs' -> txn s hs pend -> txn s hs' pend.
Proof.
  intros Hp (Hinv & Hlk & Hh & Hnd & Hok & Hcl). split_and!; try done.
  - intros i x Hi Hl. rewrite <- Hp. by eapply Hlk.
  - intros i c Hin. apply Hh. by rewrite Hp.
  - by rewrite <- Hp.
Qed.

#[global] Instance txn_proper s : Proper ((≡ₚ) ==> eq ==> iff) (txn s).
Proof. intros hs hs' Hp pend ? <-. split; apply txn_perm; [done|by symmetry]. Qed.

(** ** The beginning and the end of an operation *)

Lemma log_ok_lg s l' :
  log_ok s -> l_start l' = l_start (lg s) -> l_size l' = l_size (lg s) -> l_dev l' = l_dev (lg s) ->
  l_lh l' = l_lh (lg s) -> log_ok (mklst (bs s) l').
Proof. intros Hok H1 H2 H3 H4. unfold log_ok, logged, in_log in *. cbn. by rewrite H1, H2, H3, H4. Qed.

Lemma txn_lg s hs pend l' :
  txn s hs pend -> l_start l' = l_start (lg s) -> l_size l' = l_size (lg s) -> l_dev l' = l_dev (lg s) ->
  l_lh l' = l_lh (lg s) -> txn (mklst (bs s) l') hs pend.
Proof.
  intros (Hinv & Hlk & Hh & Hnd & Hok & Hcl) H1 H2 H3 H4. split_and!; try done; [by apply log_ok_lg|].
  intros c. unfold logged. cbn. rewrite H4. apply Hcl.
Qed.

(** What [begin_op] checks before it lets an operation in. *)
Definition admits (l : log) : bool :=
  negb (l_committing l) &&
  negb (LOGSIZE <? lh_n (l_lh l) + (l_outstanding l + 1) * MAXOPBLOCKS).

Lemma begin_op_run s :
  begin_op s = if admits (lg s) then Ret tt (mklst (bs s) (set_outstanding (l_outstanding (lg s) + 1) (lg s)))
               else Sleep ChLog s.
Proof.
  unfold begin_op, admits, mbind, K_bind, gets. destruct (l_committing (lg s)); [done|]. cbn [negb andb].
  by destruct (_ <? _).
Qed.

Lemma commit_final s s' :
  log_inv s -> xfers (bs s) (commit_writes (l_start (lg s)) (logged s) (view (bs s))) (bs s') ->
  bootable (l_start (lg s)) (l_size (lg s)) (disksize (bs s)) (disk (bs s')) /\
  hdr_n (disk (bs s') !!! l_start (lg s)) <= 0 /\
  (forall b, ~ is_dirty (bs s') b) /\
  (forall b, ~ in_log (lg s) b -> disk (bs s') !!! b = view (bs s) b).
Proof.
  intros Hlog (Hinv & Hq & Hsz & Hd & _ & Hv & Hdt & _).
  set (w := commit_writes _ _ _) in *.
  destruct (crash_recovered s Hlog (length w)) as [Hboot Hrec]. fold w in Hboot, Hrec.
  rewrite take_ge in Hboot, Hrec by done. rewrite <- Hd in Hboot, Hrec.
  assert (hdr_n (disk (bs s') !!! l_start (lg s)) <= 0) as Hh.
  { rewrite Hd, apply_upd. unfold w, commit_writes. rewrite !app_assoc, upd_app. cbn [upd].
    rewrite decide_True by done. apply Z.eq_le_incl, cleared_header, (commit_head_blocks s Hlog). }
  split_and!; [done|done| |].
  - intros b [Hb Hni]%Hdt. apply Hlog in Hb. apply Hni. unfold w, commit_writes.
    rewrite !fmap_app, keys_install. set_solver.
  - intros b Hb. specialize (Hrec b Hb). pose proof Hlog as (_ & _ & _ & _ & _ & _ & _ & _ & _ & (_ & _ & _ & _ & Hnl & _) & _).
    rewrite recovered_empty in Hrec by (done || (unfold in_log in Hb; lia)). rewrite Hrec, decide_False; [done|].
    unfold w, commit_writes. rewrite !length_app, <- (length_fmap fst), keys_commit_log, length_lognos.
    rewrite (n_logged s Hlog). cbn. lia.
Qed.

(** [commit] makes the contents of all blocks durable. *)
Lemma commit_inv s :
  log_inv s -> wp commit s (fun _ s' =>
    log_inv s' /\ lh_n (l_lh (lg s')) = 0 /\ log_same (lg s) (lg s') /\
    disksize (bs s') = disksize (bs s) /\
    (forall b, ~ in_log (lg s) b -> view (bs s') b = view (bs s) b /\ disk (bs s') !!! b = view (bs s) b)).
Proof.
  intros Hlog. destruct (decide (0 < lh_n (l_lh (lg s)))) as [Hn|Hn].
  - eapply wp_mono; [by apply commit_spec|]. intros _ s' [Hx Hlg].
    destruct (commit_final s s' Hlog Hx) as (Hboot & Hh & Hclean & Hd).
    pose proof Hx as (Hinv & Hq & Hsz & _).
    pose proof Hlog as (_ & _ & Hdev & Hlen & Hn0 & Hsz0 & _).
    assert (logged s' = []) as Hl by (unfold logged; by rewrite Hlg).
    split; [|split_and!; [by rewrite Hlg|rewrite Hlg; by split_and!|done|]].
    + split; [done|split; [done|]]. unfold log_ok. rewrite Hl, Hsz, Hlg. cbn. split_and!; try done; [lia|apply NoDup_nil_2| |].
      * intros c. split; [by intros Hc%elem_of_nil|]. intros Hc. by apply Hclean in Hc.
      * by intros c Hc%elem_of_nil.
    + intros b Hb. rewrite (clean_view (bs s') b Hinv Hq (Hclean b)). by rewrite Hd.
  - unfold commit. wp_steps. rewrite (proj2 (Z.ltb_ge _ _)) by lia. wp_steps.
    pose proof Hlog as (Hinv & Hq & _ & _ & Hn0 & _ & _ & Hld & _).
    split_and!; try done; [lia|]. intros b _. split; [done|]. symmetry. apply clean_view; [done..|].
    intros Hd%Hld. apply list_elem_of_lookup_1 in Hd as [i Hi%lookup_lt_Some].
    rewrite length_logged in Hi by done. lia.
Qed.

(** [end_op] of an operation that is not the last one. *)
Lemma end_op_more s :
  l_committing (lg s) = false -> l_outstanding (lg s) <> 1 ->
  end_op s = Ret tt (mklst (bs s) (set_outstanding (l_outstanding (lg s) - 1) (lg s))).
Proof.
  intros Hc Ho. unfold end_op, upd_log, modify, gets, mbind, K_bind. cbn. rewrite Hc.
  rewrite (proj2 (Z.eqb_neq _ _)) by lia. done.
Qed.

(** The contents recovery finds on disk [d] are, outside the log, [v]. *)
Definition recovers_to (l : log) (d : gmap Z block) (v : Z -> block) : Prop :=
  forall b, ~ in_log l b -> recovered (l_start l) d b = v b.

(** A crash during [commit], and when there is nothing to commit. *)
Lemma commit_crash s :
  log_inv s -> wp commit s (fun _ s' => exists w, writes (bs s') = writes (bs s) ++ w /\
    forall k, let d := apply_writes (take k w) (disk (bs s)) in
      bootable (l_start (lg s)) (l_size (lg s)) (disksize (bs s)) d /\
      (recovers_to (lg s) d (fun b => disk (bs s) !!! b) \/ recovers_to (lg s) d (view (bs s)))).
Proof.
  intros Hlog. destruct (decide (0 < lh_n (l_lh (lg s)))) as [Hn|Hn].
  - eapply wp_mono; [by apply commit_spec|]. intros _ s' [(_ & _ & _ & _ & Hw & _) _].
    eexists. split; [exact Hw|]. intros k. destruct (crash_recovered s Hlog k) as [Hboot Hrec].
    split; [done|]. destruct (decide (Z.of_nat k <= lh_n (l_lh (lg s)))) as [Hk|Hk]; [left|right];
      intros b Hb; exact (Hrec b Hb).
  - unfold commit. wp_steps. rewrite (proj2 (Z.ltb_ge _ _)) by lia. wp_steps. exists [].
    split; [by rewrite app_nil_r|]. intros k. rewrite take_nil. cbn.
    pose proof Hlog as (_ & _ & _ & _ & _ & _ & _ & _ & _ & Hboot & Hh). split; [done|]. left. intros b Hb.
    apply recovered_empty; [done|]. destruct Hboot as (_ & _ & _ & _ & ? & _). unfold in_log in Hb. lia.
Qed.

(** [end_op] of the last operation commits. *)
Lemma end_op_last s :
  log_inv s -> l_committing (lg s) = false -> l_outstanding (lg s) = 1 ->
  wp end_op s (fun _ s' =>
    log_inv s' /\ lh_n (l_lh (lg s')) = 0 /\ l_outstanding (lg s') = 0 /\ l_committing (lg s') = false /\
    l_start (lg s') = l_start (lg s) /\ l_size (lg s') = l_size (lg s) /\ disksize (bs s') = disksize (bs s) /\
    (exists w, writes (bs s') = writes (bs s) ++ w /\
      forall k, let d := apply_writes (take k w) (disk (bs s)) in
        bootable (l_start (lg s)) (l_size (lg s)) (disksize (bs s)) d /\
        (recovers_to (lg s) d (fun b => disk (bs s) !!! b) \/ recovers_to (lg s) d (view (bs s)))) /\
    (forall b, ~ in_log (lg s) b -> view (bs s') b = view (bs s) b /\ disk (bs s') !!! b = view (bs s) b)).
Proof.
  intros Hlog Hc Ho. unfold end_op, upd_log. wp_steps. cbn [set_log lg set_outstanding l_committing l_outstanding].
  rewrite Hc, Ho. change (1 - 1 =? 0) with true. cbv iota. wp_steps.
  set (s1 := set_log _ _).
  assert (log_inv s1) as Hlog1.
  { apply log_inv_txn in Hlog. apply log_inv_txn. by apply (txn_lg s [] [] (lg s1)). }
  eapply wp_mono; [apply wp_conj; [by apply commit_inv|by apply commit_crash]|]. cbn [s1 set_log lg bs set_committing set_outstanding].
  intros _ s2 [(Hlog2 & Hn & (H1 & H2 & H3 & H4 & H5) & Hsz & Hv) Hcr]. wp_steps. cbn in H1, H2, H3, H5.
  by split_and!.
Qed.

End Txn.
