(* ===== verification/LogSystem.v ===== *)
(** * Concurrent file system operations

    Operations of several processes, each a sequence of calls between its
    [begin_op] and its [end_op], interleaved in any order, over the log and the
    buffer cache.  The step relation is in terms of the functions of log.c and
    bio.c themselves.  Shown: what a crash at any time leaves on the disk, that
    the log is empty when no operation is running, so that [begin_op] cannot
    wait for ever, and how far the reservation of [begin_op] protects
    [log_write] from running out of log. *)

From S2P Require Export Txn.
Local Open Scope Z_scope.

Module LogSystem.
Import Bio Layout Log LogSpec LogCrash Txn.

(** [ops]: for each process, how many more blocks its operation may write, if it
    has one running.  [owned]: the buffers the processes hold, and their blocks.
    [pend]: blocks changed and not yet given to [log_write].  [snap]: the contents
    of the blocks when there was last no operation running. *)
Record sys : Type := mksys {
  st : lst; ops : list (option Z); owned : list (nat * (nat * Z)); pend : list Z;
  snap : Z -> block
}.

Inductive step (σ : sys) : sys -> Prop :=
  | step_begin o s' :
      ops σ !! o = Some None -> begin_op (st σ) = Ret tt s' ->
      step σ (mksys s' (<[o := Some MAXOPBLOCKS]> (ops σ)) (owned σ) (pend σ) (snap σ))
  | step_bread o r c i s' :
      ops σ !! o = Some (Some r) -> 0 <= c < disksize (bs (st σ)) -> (c ∉ (owned σ).*2.*2) ->
      bio (bread ROOTDEV c) (st σ) = Ret i s' ->
      step σ (mksys s' (ops σ) ((o, (i, c)) :: owned σ) (pend σ) (snap σ))
  | step_change o i c d s' :
      (o, (i, c)) ∈ owned σ -> block_ok d -> bio (set_data i d) (st σ) = Ret tt s' ->
      step σ (mksys s' (ops σ) (owned σ) (c :: pend σ) (snap σ))
  | step_log_write o r i c s' :
      (o, (i, c)) ∈ owned σ -> ops σ !! o = Some (Some r) -> 0 < r ->
      c <> 1 -> ~ in_log (lg (st σ)) c -> log_write i (st σ) = Ret tt s' ->
      step σ (mksys s' (<[o := Some (r - 1)]> (ops σ)) (owned σ)
                (base.filter (fun x => x <> c) (pend σ)) (snap σ))
  | step_brelse o i c l1 l2 s' :
      owned σ = l1 ++ (o, (i, c)) :: l2 -> (c ∉ pend σ) -> bio (brelse i) (st σ) = Ret tt s' ->
      step σ (mksys s' (ops σ) (l1 ++ l2) (pend σ) (snap σ))
  | step_end o r s' :
      ops σ !! o = Some (Some r) -> (o ∉ (owned σ).*1) -> end_op (st σ) = Ret tt s' ->
      step σ (mksys s' (<[o := None]> (ops σ)) (owned σ) (pend σ)
                (if l_outstanding (lg (st σ)) =? 1 then view (bs (st σ)) else snap σ)).

(** The system when the kernel has booted: the result of [initlog]. *)
Definition booted (nl size : Z) (σ : sys) : Prop :=
  exists d sp, bootable sp nl size d /\ nl <= LOGSIZE /\
    initlog ROOTDEV (boot_state d size) = Ret tt (st σ) /\
    Forall (fun x => x = None) (ops σ) /\ owned σ = [] /\ pend σ = [] /\
    snap σ = recovered sp d.

Definition reachable (nl size : Z) (σ : sys) : Prop := exists σ0, booted nl size σ0 /\ rtc step σ0 σ.

(** ** The invariant *)

(** Sum over the operations. *)
Fixpoint osum (f : option Z -> Z) (l : list (option Z)) : Z :=
  match l with [] => 0 | x :: l => f x + osum f l end.

Lemma osum_insert f l o x y : l !! o = Some x -> osum f (<[o := y]> l) = osum f l - f x + f y.
Proof.
  revert o. induction l as [|z l IH]; intros [|o] H; simpl in *; try done.
  - injection H as ->. lia.
  - rewrite (IH o H). lia.
Qed.

Lemma osum_le f l o x : (forall y, y ∈ l -> 0 <= f y) -> l !! o = Some x -> f x <= osum f l.
Proof.
  revert o. induction l as [|z l IH]; intros [|o] Hf H; cbn in *; try done.
  - injection H as ->. assert (0 <= osum f l); [|lia]. clear IH. induction l as [|y l IH]; cbn; [lia|].
    assert (0 <= f y) by (apply Hf; set_solver). assert (0 <= osum f l); [|lia]. apply IH. set_solver.
  - specialize (IH o ltac:(set_solver) H). assert (0 <= f z) by (apply Hf; set_solver). lia.
Qed.

Definition running (x : option Z) : Z := match x with Some _ => 1 | None => 0 end.
Definition remaining (x : option Z) : Z := default 0 x.

Definition sys_inv (nl size : Z) (σ : sys) : Prop :=
  let l := lg (st σ) in
  txn (st σ) (owned σ).*2 (pend σ) /\ l_committing l = false /\
  l_outstanding l = osum running (ops σ) /\ Forall (fun x => 0 <= remaining x <= MAXOPBLOCKS * running x) (ops σ) /\
  lh_n (l_lh l) + osum remaining (ops σ) <= LOGSIZE /\ l_size l = nl /\ nl <= LOGSIZE /\
  disksize (bs (st σ)) = size /\
  (forall h, h ∈ owned σ -> exists r, ops σ !! h.1 = Some (Some r)) /\
  (forall c, c ∈ pend σ -> c ∈ (owned σ).*2.*2) /\
  (l_outstanding l = 0 -> lh_n (l_lh l) = 0) /\
  (forall b, ~ in_log l b -> disk (bs (st σ)) !!! b = snap σ b).

Lemma osum_none f l : Forall (fun x => x = None) l -> f None = 0 -> osum f l = 0.
Proof. intros Hl Hf. induction Hl as [|x l -> _ IH]; cbn; lia. Qed.

Lemma booted_inv nl size σ : booted nl size σ -> sys_inv nl size σ.
Proof.
  intros (d & sp & Hd & Hnl & Hrun & Hops & Hown & Hpend & Hsnap).
  destruct (wp_run _ _ _ _ _ Hrun (initlog_inv _ _ _ _ Hd))
    as (Hinv & Hlg & Hsz & Hst & Hls & Hout & Hcom & Hv).
  assert (lh_n (l_lh (lg (st σ))) = 0) as Hn.
  { pose proof (length_logged _ Hinv) as Hl. rewrite Hlg in Hl. destruct Hinv as (_ & _ & _ & _ & ? & _).
    cbn in Hl. lia. }
  unfold sys_inv. rewrite Hown, Hpend, Hout, Hn, Hls, Hsz.
  rewrite !osum_none by done. split_and!; try done.
  - by apply log_inv_txn.
  - eapply Forall_impl; [exact Hops|]. by intros ? ->.
  - by intros h Hh%elem_of_nil.
  - intros b Hb. rewrite Hsnap. apply Hv.
Qed.

(** What an [owned] buffer is to the transaction. *)
Lemma owned_held σ o i c : (o, (i, c)) ∈ owned σ -> (i, c) ∈ (owned σ).*2.
Proof. intros H. apply list_elem_of_fmap. by exists (o, (i, c)). Qed.

(** An operation that does not change the log keeps the invariant. *)
Lemma sys_inv_keeps nl size σ s' own pd v :
  sys_inv nl size σ -> txn s' own.*2 pd -> keeps (st σ) s' v -> lg s' = lg (st σ) ->
  (forall h, h ∈ own -> exists r, ops σ !! h.1 = Some (Some r)) ->
  (forall c, c ∈ pd -> c ∈ own.*2.*2) ->
  sys_inv nl size (mksys s' (ops σ) own pd (snap σ)).
Proof.
  intros (_ & H1 & H2 & H3 & H4 & H5 & H6 & H7 & _ & _ & H10 & H11) Ht (K1 & K2 & _) Hlg Hown Hpd.
  unfold sys_inv. cbn. rewrite Hlg, K1, K2. by split_and!.
Qed.

Lemma osum_remaining l :
  Forall (fun x => 0 <= remaining x <= MAXOPBLOCKS * running x) l ->
  0 <= osum remaining l <= MAXOPBLOCKS * osum running l.
Proof. induction 1 as [|x l Hx _ IH]; cbn [osum]; lia. Qed.

Lemma osum_running l : 0 <= osum running l.
Proof. induction l as [|[] l IH]; cbn; lia. Qed.

(** When one operation is running, the others hold nothing. *)
Lemma last_owner l (own : list (nat * (nat * Z))) o r :
  l !! o = Some (Some r) -> osum running l = 1 ->
  (forall h, h ∈ own -> exists r, l !! h.1 = Some (Some r)) -> (o ∉ own.*1) -> own = [].
Proof.
  intros Ho Hs Hown Hno. destruct own as [|[o' h] own]; [done|]. exfalso.
  destruct (Hown (o', h)) as [r' Hr']; [set_solver|]. cbn in Hr', Hno.
  apply not_elem_of_cons in Hno as [Hne _].
  pose proof (osum_insert running l o (Some r) None Ho) as H.
  assert (<[o := None]> l !! o' = Some (Some r')) as Hr2 by (by rewrite list_lookup_insert_ne).
  assert (running (Some r') <= osum running (<[o := None]> l)) as H2.
  { apply (osum_le _ _ o'); [|done]. intros y _. by destruct y. }
  cbn in *. lia.
Qed.

Section Preservation.
Context (nl size : Z) (σ : sys) (Hσ : sys_inv nl size σ).

Lemma preserve_begin o s' :
  ops σ !! o = Some None -> begin_op (st σ) = Ret tt s' ->
  sys_inv nl size (mksys s' (<[o := Some MAXOPBLOCKS]> (ops σ)) (owned σ) (pend σ) (snap σ)).
Proof.
  pose proof Hσ as (Ht & H1 & H2 & H3 & H4 & H5 & H6 & H7 & H8 & H9 & H10 & H11). intros Ho Hrun.
  rewrite begin_op_run in Hrun. destruct (admits (lg (st σ))) eqn:Ha; [|done]. injection Hrun as <-.
  unfold admits in Ha. rewrite H1 in Ha. cbn in Ha. apply negb_true_iff, Z.ltb_ge in Ha.
  unfold sys_inv. cbn. rewrite !(osum_insert _ _ _ None) by done. cbn. split_and!; try done.
  - lia.
  - apply Forall_insert; [done|unfold MAXOPBLOCKS; cbn; lia].
  - pose proof (osum_remaining _ H3). unfold LOGSIZE, MAXOPBLOCKS in *. lia.
  - intros h Hh. destruct (H8 h Hh) as [r Hr]. exists r. rewrite list_lookup_insert_ne; [done|].
    intros ->. congruence.
  - intros Hz. pose proof (osum_running (ops σ)). lia.
Qed.

Lemma log_write_guards i s' :
  log_write i (st σ) = Ret tt s' -> 1 <= l_outstanding (lg (st σ)) /\ 0 < budget (lg (st σ)).
Proof.
  destruct Hσ as (_ & _ & _ & _ & _ & H5 & H6 & _).
  unfold log_write, mbind, K_bind, gets. case_cond; [done|]. case_cond; [done|]. intros _.
  unfold budget, LOGSIZE, MAXOPBLOCKS in *. lia.
Qed.

Lemma preserve_log_write o r i c s' :
  (o, (i, c)) ∈ owned σ -> ops σ !! o = Some (Some r) -> 0 < r ->
  c <> 1 -> ~ in_log (lg (st σ)) c -> log_write i (st σ) = Ret tt s' ->
  sys_inv nl size (mksys s' (<[o := Some (r - 1)]> (ops σ)) (owned σ)
                (base.filter (fun x => x <> c) (pend σ)) (snap σ)).
Proof.
  pose proof Hσ as (Ht & H1 & H2 & H3 & H4 & H5 & H6 & H7 & H8 & H9 & H10 & H11).
  intros Hown Ho Hr Hc1 Hcl Hrun. pose proof (owned_held _ _ _ _ Hown) as Hheld.
  destruct (log_write_guards i s' Hrun) as [Hout Hbud].
  refine (wp_run _ _ _ _ (fun _ s' => sys_inv nl size (mksys s' _ _ _ _)) Hrun _).
  eapply txn_log_write; [done..|]. intros s1 Ht1 (K1 & K2 & _) (L1 & L2 & L3 & L4 & L5) Hb Hlg.
  unfold sys_inv. cbn. rewrite !(osum_insert _ _ _ (Some r)) by done. cbn.
  rewrite L2, L3, L4, K1, K2. unfold budget in Hb. rewrite L2 in Hb.
  split_and!; try done; try lia.
  - apply Forall_insert; [done|]. pose proof (Forall_lookup_1 _ _ _ _ H3 Ho) as H. cbn in *. lia.
  - intros h Hh. destruct (decide (h.1 = o)) as [->|Hne].
    + exists (r - 1). by apply list_lookup_insert_eq, lookup_lt_Some with (Some r).
    + destruct (H8 h Hh) as [r' Hr']. exists r'. by rewrite list_lookup_insert_ne.
  - intros x [_ Hx]%list_elem_of_filter. auto.
  - intros b Hb'. apply H11. unfold in_log in *. by rewrite L1, L2 in Hb'.
Qed.

Lemma preserve_end o r s' :
  ops σ !! o = Some (Some r) -> (o ∉ (owned σ).*1) -> end_op (st σ) = Ret tt s' ->
  sys_inv nl size (mksys s' (<[o := None]> (ops σ)) (owned σ) (pend σ)
                (if l_outstanding (lg (st σ)) =? 1 then view (bs (st σ)) else snap σ)).
Proof.
  pose proof Hσ as (Ht & H1 & H2 & H3 & H4 & H5 & H6 & H7 & H8 & H9 & H10 & H11). intros Ho Hno Hrun.
  pose proof (Forall_lookup_1 _ _ _ _ H3 Ho) as Hr. cbn in Hr.
  assert (Forall (fun x => 0 <= remaining x <= MAXOPBLOCKS * running x) (<[o := None]> (ops σ))) as H3'
    by (apply Forall_insert; [done|cbn; lia]).
  assert (forall h, h ∈ owned σ -> exists r, <[o := None]> (ops σ) !! h.1 = Some (Some r)) as H8'.
  { intros h Hh. destruct (H8 h Hh) as [r' Hr']. exists r'. rewrite list_lookup_insert_ne; [done|].
    intros ->. apply Hno, list_elem_of_fmap. by exists h. }
  destruct (Z.eqb_spec (l_outstanding (lg (st σ))) 1) as [H1o|Hmore].
  - assert (owned σ = []) as Hnil by (apply (last_owner (ops σ) (owned σ) o r); [done|lia|done|done]).
    assert (pend σ = []) as Hpn.
    { destruct (pend σ) as [|c p]; [done|]. specialize (H9 c ltac:(set_solver)).
      rewrite Hnil in H9. by apply elem_of_nil in H9. }
    rewrite Hnil, Hpn in *. apply log_inv_txn in Ht.
    destruct (wp_run _ _ _ _ _ Hrun (end_op_last _ Ht H1 H1o)) as (Hinv & Hn & Ho' & Hc & Hst & Hls & Hsz & _ & Hv).
    unfold sys_inv. cbn [st ops owned pend snap]. rewrite !(osum_insert _ _ _ (Some r)) by done.
    rewrite Hn, Ho', Hc, Hls, Hsz. cbn [running remaining default]. split_and!; try done; try lia.
    + by apply log_inv_txn.
    + pose proof (osum_remaining _ H3'). rewrite !(osum_insert _ _ _ (Some r)) in H by done. cbn in H. cbn.
      unfold LOGSIZE, MAXOPBLOCKS in *. lia.
    + intros b Hb. apply Hv. unfold in_log in *. by rewrite Hst, Hls in Hb.
  - rewrite end_op_more in Hrun by done. injection Hrun as <-.
    unfold sys_inv. cbn. rewrite !(osum_insert _ _ _ (Some r)) by done. cbn. by split_and!; try done; try lia.
Qed.

Lemma log_step_inv σ' : step σ σ' -> sys_inv nl size σ'.
Proof.
  pose proof Hσ as (Ht & H1 & H2 & H3 & H4 & H5 & H6 & H7 & H8 & H9 & H10 & H11). pose proof Ht as (Hinv & _).
  destruct 1 as [o s' Ho Hrun|o r c i s' Ho Hc Hni Hrun|o i c d s' Hown Hd Hrun
                |o r i c s' Hown Ho Hr Hc1 Hcl Hrun|o i c l1 l2 s' Hown Hnp Hrun|o r s' Ho Hno Hrun].
  - by apply preserve_begin.
  - refine (wp_run _ _ _ _ (fun i s' => sys_inv nl size (mksys s' _ ((_, (i, _)) :: _) _ _)) Hrun _).
    assert (cached (bs (st σ)) c \/ (pinned (bs (st σ)) < NBUF)%nat) as Hroom.
    { revert Hrun. unfold bio, zoom. destruct (bread ROOTDEV c (bs (st σ))) eqn:E; [|done..]. intros _.
      by eapply bread_room. }
    eapply txn_bread; [done..|]. intros j s1 Ht1 Hk Hlg. eapply sys_inv_keeps; [done|done|done|done| |].
    + intros h [->|Hh]%elem_of_cons; [by exists r|by apply H8].
    + intros x Hx. cbn. set_solver.
  - refine (wp_run _ _ _ _ (fun _ s' => sys_inv nl size (mksys s' _ _ _ _)) Hrun _).
    eapply txn_set_data; [done|by eapply owned_held|done|]. intros s1 Ht1 Hk Hlg.
    eapply sys_inv_keeps; [done..|]. intros x [->|Hx]%elem_of_cons; [|by apply H9].
    apply list_elem_of_fmap. exists (i, c). split; [done|]. by eapply owned_held.
  - by eapply preserve_log_write.
  - refine (wp_run _ _ _ _ (fun _ s' => sys_inv nl size (mksys s' _ _ _ _)) Hrun _).
    assert (owned σ ≡ₚ (o, (i, c)) :: l1 ++ l2) as Hperm by (rewrite Hown; symmetry; apply Permutation_middle).
    rewrite Hperm in Ht. cbn in Ht. eapply txn_brelse; [done..|]. intros s1 Ht1 Hk Hlg.
    eapply sys_inv_keeps; [done..| |].
    + intros h Hh. apply H8. rewrite Hperm. by right.
    + intros x Hx. specialize (H9 x Hx). rewrite Hperm in H9. cbn in H9. apply elem_of_cons in H9 as [->|]; done.
  - by eapply preserve_end.
Qed.
End Preservation.

Lemma log_reachable_inv nl size σ : reachable nl size σ -> sys_inv nl size σ.
Proof.
  intros (σ0 & Hb & Hr). apply booted_inv in Hb. induction Hr as [|σ1 σ2 σ3 Hs _ IH]; [done|].
  apply IH. by eapply log_step_inv.
Qed.

(** The invariant gives the contents recovery finds when the machine stops
    between two steps. *)
Lemma inv_recovers nl size σ :
  sys_inv nl size σ ->
  bootable (l_start (lg (st σ))) nl size (disk (bs (st σ))) /\
  recovers_to (lg (st σ)) (disk (bs (st σ))) (snap σ).
Proof.
  intros ((_ & _ & _ & _ & (_ & _ & _ & _ & _ & _ & _ & Hboot & Hh) & _) & _ & _ & _ & _ & Hnl & _ & Hsz & _ & _ & _ & Hs).
  rewrite Hnl, Hsz in Hboot. split; [done|]. intros b Hb. rewrite recovered_empty; [by apply Hs|done|].
  destruct Hboot as (_ & _ & _ & _ & ? & _). unfold in_log in Hb. lia.
Qed.

(** All steps but the [end_op] of the last operation leave the disk alone. *)
Lemma step_disk nl size σ σ' :
  sys_inv nl size σ -> step σ σ' ->
  writes (bs (st σ')) = writes (bs (st σ)) \/
  owned σ = [] /\ pend σ = [] /\ l_outstanding (lg (st σ)) = 1 /\ end_op (st σ) = Ret tt (st σ') /\
  snap σ' = view (bs (st σ)).
Proof.
  intros Hσ. pose proof Hσ as (Ht & H1 & H2 & H3 & H4 & H5 & H6 & H7 & H8 & H9 & H10 & H11). pose proof Ht as (Hinv & _).
  destruct 1 as [o s' Ho Hrun|o r c i s' Ho Hc Hni Hrun|o i c d s' Hown Hd Hrun
                |o r i c s' Hown Ho Hr Hc1 Hcl Hrun|o i c l1 l2 s' Hown Hnp Hrun|o r s' Ho Hno Hrun]; cbn [st snap].
  - left. rewrite begin_op_run in Hrun. destruct (admits (lg (st σ))); [|done]. by injection Hrun as <-.
  - left. refine (wp_run _ _ _ _ (fun _ s' => writes (bs s') = _) Hrun _).
    eapply txn_bread; [done|done|done| |by intros ??? (_ & _ & ? & _)].
    revert Hrun. unfold bio, zoom. destruct (bread ROOTDEV c (bs (st σ))) eqn:E; [|done..]. intros _.
    by eapply bread_room.
  - left. refine (wp_run _ _ _ _ (fun _ s' => writes (bs s') = _) Hrun _).
    eapply txn_set_data; [done|by eapply owned_held|done|]. by intros ?? (_ & _ & ? & _).
  - left. destruct (log_write_guards _ _ _ Hσ i s' Hrun) as [Hout Hbud].
    refine (wp_run _ _ _ _ (fun _ s' => writes (bs s') = _) Hrun _).
    eapply txn_log_write; [done|by eapply owned_held|done..|]. by intros ?? (_ & _ & ? & _).
  - left. refine (wp_run _ _ _ _ (fun _ s' => writes (bs s') = _) Hrun _).
    assert (owned σ ≡ₚ (o, (i, c)) :: l1 ++ l2) as Hperm by (rewrite Hown; symmetry; apply Permutation_middle).
    rewrite Hperm in Ht. cbn in Ht. eapply txn_brelse; [done..|]. by intros ?? (_ & _ & ? & _).
  - destruct (Z.eqb_spec (l_outstanding (lg (st σ))) 1) as [H1o|Hmore].
    + right. assert (owned σ = []) as Hnil by (apply (last_owner (ops σ) (owned σ) o r); [done|lia|done|done]).
      split_and!; try done. destruct (pend σ) as [|c p]; [done|]. specialize (H9 c ltac:(set_solver)).
      rewrite Hnil in H9. by apply elem_of_nil in H9.
    + left. rewrite end_op_more in Hrun by done. by injection Hrun as <-.
Qed.

(** The disk writes of a step, and what recovery finds after any number of them. *)
Lemma step_writes nl size σ σ' :
  sys_inv nl size σ -> step σ σ' ->
  exists w, writes (bs (st σ')) = writes (bs (st σ)) ++ w /\
    forall k, let d := apply_writes (take k w) (disk (bs (st σ))) in
      bootable (l_start (lg (st σ))) nl size d /\
      (recovers_to (lg (st σ)) d (snap σ) \/ recovers_to (lg (st σ)) d (snap σ')).
Proof.
  intros Hσ Hstep.
  destruct (step_disk _ _ _ _ Hσ Hstep) as [->|(Hown & Hpend & Hout & Hrun & Hsnap)].
  - exists []. split; [by rewrite app_nil_r|]. intros k. rewrite take_nil. cbn.
    destruct (inv_recovers _ _ _ Hσ). split; [done|by left].
  - pose proof Hσ as (Ht & Hcom & _ & _ & _ & Hnl & _ & Hsz & _ & _ & _ & Hs).
    rewrite Hown, Hpend in Ht. apply log_inv_txn in Ht.
    destruct (wp_run _ _ _ _ _ Hrun (end_op_last _ Ht Hcom Hout)) as (_ & _ & _ & _ & _ & _ & _ & (w & Hw & Hk) & _).
    exists w. split; [done|]. intros k. destruct (Hk k) as [Hboot Hrec]. rewrite Hnl, Hsz in Hboot.
    split; [done|]. rewrite Hsnap. destruct Hrec as [Hrec|Hrec]; [left|by right].
    intros b Hb. rewrite (Hrec b Hb). by apply Hs.
Qed.

(** ** The theorems *)

(** C2: Crash consistency with concurrent operations.  Take any interleaving of
    file system operations from a boot, and let the machine stop during its next
    step, after any number of the disk writes of that step, and again any number
    of times during recovery.  The boot that completes its recovery finds, in every
    block outside the log, the contents at one moment at which no operation was
    running: the last such moment before the step or, when the step ends the last
    running operation, the end of that operation.  So the effects of an operation
    are never found in part. *)
Theorem crash_consistency nl size σ σ' :
  reachable nl size σ -> step σ σ' ->
  exists w, writes (bs (st σ')) = writes (bs (st σ)) ++ w /\
    forall k d', reboots size (apply_writes (take k w) (disk (bs (st σ)))) d' ->
      exists r, initlog ROOTDEV (boot_state d' size) = Ret tt r /\ log_inv r /\
        ((forall b, ~ in_log (lg (st σ)) b -> view (bs r) b = snap σ b) \/
         (forall b, ~ in_log (lg (st σ)) b -> view (bs r) b = snap σ' b)).
Proof.
  intros Hr Hs. apply log_reachable_inv in Hr as Hσ. destruct (step_writes _ _ _ _ Hσ Hs) as (w & Hw & Hk).
  exists w. split; [done|]. intros k d' Hre. destruct (Hk k) as [Hboot Hrec].
  destruct (reboots_recovered _ _ _ _ _ Hboot Hre) as [Hboot' Hrec'].
  destruct (wp_elim _ _ _ (initlog_inv _ _ _ _ Hboot')) as ([] & r & Hrun & Hinv & _ & _ & _ & _ & _ & _ & Hv).
  exists r. split_and!; [done|done|].
  assert (forall v, recovers_to (lg (st σ)) (apply_writes (take k w) (disk (bs (st σ)))) v ->
    forall b, ~ in_log (lg (st σ)) b -> view (bs r) b = v b) as Hto.
  { intros v Hrv b Hb. rewrite (proj1 (Hv b)), Hrec'; [by apply Hrv|].
    destruct Hσ as (_ & _ & _ & _ & _ & Hnl & _). unfold in_log in Hb. lia. }
  destruct Hrec; [left|right]; auto.
Qed.

(** C35: When no operation is running, the log is empty and [begin_op] lets an
    operation in: a process waiting in [begin_op] is not waiting for ever. *)
Theorem begin_op_progress nl size σ :
  reachable nl size σ -> Forall (fun x => x = None) (ops σ) ->
  lh_n (l_lh (lg (st σ))) = 0 /\ exists s', begin_op (st σ) = Ret tt s'.
Proof.
  intros Hr Hops. apply log_reachable_inv in Hr as (_ & Hcom & Hout & _ & _ & _ & _ & _ & _ & _ & Hz & _).
  rewrite osum_none in Hout by done. specialize (Hz Hout). split; [done|].
  rewrite begin_op_run. unfold admits. rewrite Hcom, Hout, Hz. by eexists.
Qed.

(** The reservation of [begin_op].  In any interleaving in which operations
    write at most MAXOPBLOCKS blocks each, the blocks logged and the blocks the
    running operations may still write are at most LOGSIZE together; and a
    [log_write] within its operation's share returns, without a panic, unless they
    are exactly LOGSIZE. *)
Theorem log_write_reserved nl size σ o r i c :
  reachable nl size σ -> nl = LOGSIZE ->
  ops σ !! o = Some (Some r) -> 0 < r -> (o, (i, c)) ∈ owned σ -> c <> 1 -> ~ in_log (lg (st σ)) c ->
  lh_n (l_lh (lg (st σ))) + osum remaining (ops σ) <= LOGSIZE /\
  (lh_n (l_lh (lg (st σ))) + osum remaining (ops σ) <> LOGSIZE -> exists s', log_write i (st σ) = Ret tt s').
Proof.
  intros Hre Hnl Ho Hr Hown Hc1 Hcl.
  apply log_reachable_inv in Hre as (Ht & _ & Hout & H3 & Hsum & Hls & _). split; [done|]. intros Hne.
  assert (1 <= osum running (ops σ)).
  { change 1 with (running (Some r)). apply (osum_le _ _ o); [|done]. intros y _. by destruct y. }
  assert (r <= osum remaining (ops σ)).
  { change r with (remaining (Some r)). apply (osum_le _ _ o); [|done]. intros y Hy.
    rewrite Forall_forall in H3. by apply H3. }
  eassert (wp (log_write i) (st σ) (fun _ _ => True)) as Hwp.
  { eapply txn_log_write; [done|by eapply owned_held|lia| |done|done|done].
    unfold budget, LOGSIZE, MAXOPBLOCKS in *. lia. }
  destruct (wp_elim _ _ _ Hwp) as ([] & s' & Hrun & _). by exists s'.
Qed.

(** ** The reservation is off by one

    The log of LOGSIZE blocks that mkfs makes has its header in one of them, so
    that [log_write] panics when LOGSIZE - 1 blocks are logged; [begin_op] admits
    operations as if there were room for LOGSIZE. *)

(** An operation's change of one block. *)
Definition update (c : Z) (d : block) : K lst unit :=
  i ← bio (bread ROOTDEV c); bio (set_data i d);; log_write i;; bio (brelse i).

Fixpoint updates (cs : list Z) (d : block) : K lst unit :=
  match cs with [] => mret tt | c :: cs => update c d;; updates cs d end.

Lemma bind_run {S A B} (m : K S A) (k : A -> K S B) s a s1 : m s = Ret a s1 -> (m ≫= k) s = k a s1.
Proof. unfold mbind, K_bind. by intros ->. Qed.

(** The first two calls of an update. *)
Lemma update_start s c d :
  log_inv s -> 0 <= c < disksize (bs s) -> block_ok d ->
  exists i s1, (i ← bio (bread ROOTDEV c); bio (set_data i d);; mret i) s = Ret i s1 /\
    txn s1 [(i, c)] [c] /\ lg s1 = lg s /\ disksize (bs s1) = disksize (bs s).
Proof.
  intros Hlog Hc Hd. pose proof (log_inv_usable s Hlog) as (_ & _ & Hp).
  eassert (wp (i ← bio (bread ROOTDEV c); bio (set_data i d);; mret i) s (fun i s1 =>
    txn s1 [(i, c)] [c] /\ lg s1 = lg s /\ disksize (bs s1) = disksize (bs s))) as Hwp.
  { apply wp_bind. eapply txn_bread; [by apply log_inv_txn|done|by apply not_elem_of_nil|by right|].
    intros i s1 Ht (Hsz & _) Hlg. apply wp_bind. eapply txn_set_data; [done|by left|done|].
    intros s2 Ht2 (Hsz2 & _) Hlg2. apply wp_ret. split_and!; [done|congruence|congruence]. }
  destruct (wp_elim _ _ _ Hwp) as (i & s1 & H). by exists i, s1.
Qed.

Lemma logged_count s s' c :
  log_ok s -> log_ok s' -> (c ∉ logged s) -> (forall x, x ∈ logged s' <-> x ∈ logged s \/ x = c) ->
  lh_n (l_lh (lg s')) = lh_n (l_lh (lg s)) + 1.
Proof.
  intros Hok Hok' Hni Hmem. pose proof (length_logged_ok _ Hok). pose proof (length_logged_ok _ Hok').
  destruct Hok as (_ & _ & ? & _ & Hnd & _). destruct Hok' as (_ & _ & ? & _ & Hnd' & _).
  assert (logged s' ≡ₚ c :: logged s) as Hp%Permutation_length; [|cbn in Hp; lia].
  apply NoDup_Permutation; [done|by constructor|]. intros x. rewrite Hmem. set_solver.
Qed.

Lemma update_ok s c d :
  log_inv s -> 0 <= c < disksize (bs s) -> block_ok d -> c <> 1 -> ~ in_log (lg s) c -> (c ∉ logged s) ->
  1 <= l_outstanding (lg s) -> 0 < budget (lg s) ->
  exists s', update c d s = Ret tt s' /\ log_inv s' /\ log_same (lg s) (lg s') /\
    disksize (bs s') = disksize (bs s) /\ lh_n (l_lh (lg s')) = lh_n (l_lh (lg s)) + 1 /\
    (forall x, x ∈ logged s' <-> x ∈ logged s \/ x = c).
Proof.
  intros Hlog Hc Hd Hc1 Hcl Hni Hout Hbud. pose proof (log_inv_usable s Hlog) as (_ & _ & Hp).
  eassert (wp (update c d) s (fun _ s' => log_inv s' /\ log_same (lg s) (lg s') /\
    disksize (bs s') = disksize (bs s) /\ lh_n (l_lh (lg s')) = lh_n (l_lh (lg s)) + 1 /\
    (forall x, x ∈ logged s' <-> x ∈ logged s \/ x = c))) as Hwp.
  { apply wp_bind. eapply txn_bread; [by apply log_inv_txn|done|by apply not_elem_of_nil|by right|].
    intros i s1 Ht (Hsz & _) Hlg. apply wp_bind. eapply txn_set_data; [done|by left|done|].
    intros s2 Ht2 (Hsz2 & _) Hlg2. rewrite <- Hlg, <- Hlg2 in Hcl, Hout, Hbud. apply wp_bind.
    eapply txn_log_write; [exact Ht2|by left|done..|]. rewrite Hlg2, Hlg. intros s3 Ht3 (Hsz3 & _) Hsame _ Hmem.
    assert (base.filter (fun x => x <> c) [c] = []) as Hf by (rewrite filter_cons_False; [done|tauto]).
    rewrite Hf in Ht3. eapply txn_brelse; [exact Ht3|by apply not_elem_of_nil|].
    intros s4 Ht4 (Hsz4 & _) Hlg4.
    assert (logged s2 = logged s) as Hl2 by (unfold logged; by rewrite Hlg2, Hlg).
    assert (logged s4 = logged s3) as Hl4 by (unfold logged; by rewrite Hlg4).
    rewrite Hl2, <- Hl4 in Hmem. split_and!; [by apply log_inv_txn|by rewrite Hlg4|congruence| |done].
    apply (logged_count s s4 c); [apply Hlog| |done|done]. by apply log_inv_txn in Ht4 as (_ & _ & ?). }
  destruct (wp_elim _ _ _ Hwp) as ([] & s' & H). by exists s'.
Qed.

Lemma updates_panic cs d : forall s,
  log_inv s -> block_ok d -> l_size (lg s) = LOGSIZE -> 1 <= l_outstanding (lg s) ->
  lh_n (l_lh (lg s)) + Z.of_nat (length cs) = LOGSIZE -> NoDup cs ->
  (forall c, c ∈ cs -> 0 <= c < disksize (bs s) /\ c <> 1 /\ ~ in_log (lg s) c /\ (c ∉ logged s)) ->
  exists s', updates cs d s = Panic "too big a transaction" s'.
Proof.
  unfold LOGSIZE, MAXOPBLOCKS. induction cs as [|c cs IH]; intros s Hlog Hd Hsz Hout Hn Hnd Hcs.
  { destruct Hlog as (_ & _ & _ & _ & ? & _). cbn in Hn. lia. }
  destruct (Hcs c) as (Hc & Hc1 & Hcl & Hni); [set_solver|]. apply NoDup_cons in Hnd as [Hnc Hnd].
  cbn [length] in Hn. cbn [updates]. destruct (decide (lh_n (l_lh (lg s)) = 29)) as [H29|H29].
  - destruct (update_start s c d Hlog Hc Hd) as (i & s1 & Hrun & Ht & Hlg & _).
    exists s1. revert Hrun. unfold update, mbind, K_bind.
    destruct (bio (bread ROOTDEV c) s) as [i' s2| | |]; [|done..].
    destruct (bio (set_data i' d) s2) as [[] s3| | |]; [|done..]. intros [= <- <-].
    unfold log_write, mbind, K_bind, gets. rewrite Hlg, Hsz, H29. done.
  - destruct (update_ok s c d) as (s' & Hrun & Hlog' & (L1 & L2 & L3 & L4 & L5) & Hsz' & Hn' & Hmem); try done.
    { unfold budget. destruct Hlog as (_ & _ & _ & _ & ? & _). lia. }
    rewrite (bind_run _ _ _ _ _ Hrun). apply IH; try done; [lia..|].
    intros x Hx. destruct (Hcs x) as (X1 & X2 & X3 & X4); [set_solver|]. rewrite Hsz'.
    unfold in_log in *. rewrite L1, L2, Hmem. split_and!; try done; [lia..|]. intros [?| ->]; done.
Qed.

(** The reservation admits three operations whose MAXOPBLOCKS blocks each the
    log cannot hold.  On a file system with a log of LOGSIZE blocks, as mkfs makes
    it, with no operation running, three operations are let in by [begin_op], and
    when they have written 3 * MAXOPBLOCKS different blocks between them the last
    [log_write] panics. *)
Theorem reservation_off_by_one s cs d :
  log_inv s -> l_size (lg s) = LOGSIZE -> l_outstanding (lg s) = 0 -> l_committing (lg s) = false ->
  lh_n (l_lh (lg s)) = 0 -> block_ok d ->
  NoDup cs -> Z.of_nat (length cs) = 3 * MAXOPBLOCKS ->
  (forall c, c ∈ cs -> 2 <= c < disksize (bs s) /\ ~ in_log (lg s) c) ->
  exists s', (begin_op;; begin_op;; begin_op;; updates cs d) s = Panic "too big a transaction" s'.
Proof.
  intros Hlog Hsz Hout Hcom Hn Hd Hnd Hlen Hcs.
  assert (logged s = []) as Hnil by (apply length_zero_iff_nil; rewrite length_logged by done; lia).
  unfold mbind, K_bind. rewrite begin_op_run. unfold admits. rewrite Hcom, Hout, Hn. cbn [andb negb].
  change (LOGSIZE <? _) with false. cbn [negb]. rewrite begin_op_run. unfold admits. cbn [lg set_outstanding l_committing l_outstanding l_lh].
  rewrite Hcom, Hn. change (LOGSIZE <? _) with false. cbn [andb negb]. rewrite begin_op_run.
  unfold admits. cbn [lg bs set_outstanding l_committing l_outstanding l_lh].
  rewrite Hcom, Hn. change (LOGSIZE <? _) with false. cbn [andb negb].
  apply updates_panic; cbn [lg set_outstanding l_size l_outstanding l_lh bs]; try done.
  - rewrite Hn. unfold LOGSIZE in *. lia.
  - intros c Hc. destruct (Hcs c Hc) as [H1 H2]. split_and!; [lia|lia|lia|done|].
    change (c ∉ logged s). rewrite Hnil. apply not_elem_of_nil.
Qed.

End LogSystem.
