(* ===== verification/LogExample.v ===== *)
(** * The log on a concrete disk

    A disk of 100 blocks with a log of LOGSIZE blocks at block 2, as mkfs lays it
    out, and the theorems on the log applied to it. *)

From S2P Require Export LogSystem.
Local Open Scope Z_scope.

Module LogExample.
Import Bio Layout Log LogSpec LogCrash Txn LogSystem.

(** A disk with contents [f]. *)
Definition mkdisk (size : Z) (f : Z -> block) : gmap Z block :=
  list_to_map ((fun b => (b, f b)) <$> seqZ 0 size).

Lemma mkdisk_lookup size f b : 0 <= b < size -> mkdisk size f !! b = Some (f b).
Proof.
  intros Hb. unfold mkdisk. apply elem_of_list_to_map_1.
  - rewrite <- list_fmap_compose. unfold compose. cbn. rewrite list_fmap_id. apply NoDup_seqZ.
  - apply list_elem_of_fmap. exists b. split; [done|]. apply elem_of_seqZ. lia.
Qed.

Lemma mkdisk_total size f b : 0 <= b < size -> mkdisk size f !!! b = f b.
Proof. intros Hb. apply lookup_total_correct. by apply mkdisk_lookup. Qed.

Lemma mkdisk_bootable st nl size f :
  (forall b, 0 <= b < size -> block_ok (f b)) -> sb_logstart (sb_dec (f 1)) = st -> sb_nlog (sb_dec (f 1)) = nl ->
  2 <= st -> 1 <= nl -> st + nl <= size <= 2 ^ 31 -> hdr_n (f st) = 0 -> bootable st nl size (mkdisk size f).
Proof.
  intros Hok H1 H2 H3 H4 H5 Hn. unfold bootable. rewrite !mkdisk_total by lia.
  split; [intros b Hb; exists (f b); rewrite mkdisk_lookup by done; split; [done|by apply Hok]|].
  split; [done|]. split; [done|]. split; [done|]. split; [done|]. split; [done|].
  apply header_ok_empty; lia.
Qed.

Lemma zero_ok : block_ok zero_block.
Proof. split; [done|]. apply bytes_ok_replicate. unfold is_byte. lia. Qed.

(** A superblock that says where the log is. *)
Definition sb_block (d : block) : block := st32 (st32 d 12 30) 16 2.

Lemma sb_block_ok d : block_ok d ->
  block_ok (sb_block d) /\ sb_logstart (sb_dec (sb_block d)) = 2 /\ sb_nlog (sb_dec (sb_block d)) = 30.
Proof.
  intros Hd. pose proof Hd as [Hl _]. unfold BSIZE in Hl. unfold sb_block. split_and!.
  - apply st32_ok; [unfold BSIZE; lia|]. apply st32_ok; [unfold BSIZE; lia|done].
  - cbn [sb_dec sb_logstart]. by rewrite ld32_st32_same by (rewrite length_st32; lia).
  - cbn [sb_dec sb_nlog]. unfold ld32. rewrite slice_st32_disj by (rewrite ?length_st32; lia).
    change (ld32 (st32 d 12 30) 12 = 30). by rewrite ld32_st32_same by lia.
Qed.

Definition contents100 (b : Z) : block := if b =? 1 then sb_block zero_block else zero_block.
Definition disk100 : gmap Z block := mkdisk 100 contents100.

Lemma disk100_bootable : bootable 2 30 100 disk100.
Proof.
  destruct (sb_block_ok zero_block zero_ok) as (H1 & H2 & H3).
  apply mkdisk_bootable; [|exact H2|exact H3|lia|lia|lia|reflexivity].
  intros b _. unfold contents100. destruct (b =? 1); [exact H1|exact zero_ok].
Qed.

#[local] Opaque disk100 zero_block.

(** The kernel booted from this disk. *)
Lemma booted_state : exists s,
  initlog ROOTDEV (boot_state disk100 100) = Ret tt s /\
  log_inv s /\ logged s = [] /\ disksize (bs s) = 100 /\ l_start (lg s) = 2 /\ l_size (lg s) = 30 /\
  l_outstanding (lg s) = 0 /\ l_committing (lg s) = false /\ lh_n (l_lh (lg s)) = 0.
Proof.
  destruct (wp_elim _ _ _ (initlog_inv _ _ _ _ disk100_bootable)) as ([] & s & Hrun & Hinv & Hlg & H1 & H2 & H3 & H4 & H5 & _).
  exists s. split_and!; try done. pose proof (length_logged s Hinv) as Hl. rewrite Hlg in Hl.
  destruct Hinv as (_ & _ & _ & _ & ? & _). cbn in Hl. lia.
Qed.

(** One operation has begun and changed block 40. *)
Lemma updated_state : exists s, log_inv s /\ lh_n (l_lh (lg s)) = 1.
Proof.
  destruct booted_state as (s & _ & Hinv & Hlg & Hsz & Hst & Hls & Hout & Hcom & Hn).
  set (s1 := mklst (bs s) (set_outstanding 1 (lg s))).
  assert (log_inv s1) as Hinv1 by exact Hinv.
  destruct (update_ok s1 40 zero_block Hinv1) as (s2 & _ & Hinv2 & _ & _ & Hn2 & _).
  - cbn. lia.
  - apply zero_ok.
  - done.
  - unfold in_log. cbn. lia.
  - change (40 ∉ logged s). rewrite Hlg. apply not_elem_of_nil.
  - done.
  - unfold budget. cbn. lia.
  - exists s2. split; [done|]. rewrite Hn2. cbn. lia.
Qed.

Lemma commit_crash_atomic_witness : exists s, log_inv s /\ 0 < lh_n (l_lh (lg s)) /\
  exists s' w, commit s = Ret tt s' /\ writes (bs s') = writes (bs s) ++ w /\
    forall k d', reboots (disksize (bs s)) (apply_writes (take k w) (disk (bs s))) d' ->
      exists r, initlog ROOTDEV (boot_state d' (disksize (bs s))) = Ret tt r /\ log_inv r /\
        forall b, ~ in_log (lg s) b ->
          view (bs r) b =
            if decide (Z.of_nat k <= lh_n (l_lh (lg s))) then disk (bs s) !!! b else view (bs s) b.
Proof.
  destruct updated_state as (s & Hinv & Hn). exists s. split; [exact Hinv|]. split; [lia|].
  apply commit_crash_atomic; [exact Hinv|lia].
Defined.

(** Two processes, and no operation. *)
Definition sys0 (s : lst) : sys := mksys s [None; None] [] [] (recovered 2 disk100).

Lemma sys0_booted s : initlog ROOTDEV (boot_state disk100 100) = Ret tt s -> booted 30 100 (sys0 s).
Proof.
  intros Hrun. exists disk100, 2. split; [exact disk100_bootable|]. split; [unfold LOGSIZE, MAXOPBLOCKS; lia|].
  split; [exact Hrun|]. split; [repeat constructor|]. split; [reflexivity|]. split; reflexivity.
Qed.

(** The first process begins an operation. *)
Lemma sys0_begin s :
  l_committing (lg s) = false -> l_outstanding (lg s) = 0 -> lh_n (l_lh (lg s)) = 0 ->
  step (sys0 s) (mksys (mklst (bs s) (set_outstanding 1 (lg s))) [Some 10; None] [] [] (recovered 2 disk100)).
Proof.
  intros Hcom Hout Hn. apply (step_begin (sys0 s) 0); [done|]. cbn [st sys0].
  rewrite begin_op_run. unfold admits. by rewrite Hcom, Hout, Hn.
Qed.

Lemma crash_consistency_witness : exists σ σ',
  reachable 30 100 σ /\ step σ σ' /\
  exists w, writes (bs (st σ')) = writes (bs (st σ)) ++ w /\
    forall k d', reboots 100 (apply_writes (take k w) (disk (bs (st σ)))) d' ->
      exists r, initlog ROOTDEV (boot_state d' 100) = Ret tt r /\ log_inv r /\
        ((forall b, ~ in_log (lg (st σ)) b -> view (bs r) b = snap σ b) \/
         (forall b, ~ in_log (lg (st σ)) b -> view (bs r) b = snap σ' b)).
Proof.
  destruct booted_state as (s & Hrun & Hinv & Hlg & Hsz & Hst & Hls & Hout & Hcom & Hn).
  pose proof (sys0_begin s Hcom Hout Hn) as Hstep.
  assert (reachable 30 100 (sys0 s)) as Hr by (exists (sys0 s); split; [by apply sys0_booted|constructor]).
  eexists (sys0 s), _. split; [exact Hr|]. split; [exact Hstep|].
  apply (crash_consistency 30 100); [exact Hr|exact Hstep].
Defined.

Lemma begin_op_progress_witness : exists σ,
  reachable 30 100 σ /\ Forall (fun x => x = None) (ops σ) /\
  lh_n (l_lh (lg (st σ))) = 0 /\ exists s', begin_op (st σ) = Ret tt s'.
Proof.
  destruct booted_state as (s & Hrun & _).
  assert (reachable 30 100 (sys0 s)) as Hr by (exists (sys0 s); split; [by apply sys0_booted|constructor]).
  exists (sys0 s). split; [exact Hr|]. split; [repeat constructor|].
  apply (begin_op_progress 30 100); [exact Hr|repeat constructor].
Defined.

(** The operation has read block 40. *)
Lemma holding_state : exists σ i, reachable 30 100 σ /\
  ops σ = [Some 10; None] /\ (0%nat, (i, 40)) ∈ owned σ /\ ~ in_log (lg (st σ)) 40.
Proof.
  destruct booted_state as (s & Hrun & Hinv & Hlg & Hsz & Hst & Hls & Hout & Hcom & Hn).
  pose proof (sys0_begin s Hcom Hout Hn) as Hstep.
  set (s1 := mklst (bs s) (set_outstanding 1 (lg s))) in *.
  assert (log_inv s1) as Hinv1 by exact Hinv.
  eassert (wp (bio (bread ROOTDEV 40)) s1 (fun i s2 => lg s2 = lg s1)) as Hwp.
  { pose proof (log_inv_usable s1 Hinv1) as (_ & _ & Hp).
    eapply txn_bread; [by apply log_inv_txn|cbn; lia|by apply not_elem_of_nil|by right|done]. }
  destruct (wp_elim _ _ _ Hwp) as (i & s2 & Hrd & Hlg2).
  exists (mksys s2 [Some 10; None] [(0%nat, (i, 40))] [] (recovered 2 disk100)), i. split_and!.
  - exists (sys0 s). split; [by apply sys0_booted|]. eapply rtc_l; [exact Hstep|]. eapply rtc_l; [|apply rtc_refl].
    apply (step_bread (mksys s1 [Some 10; None] [] [] (recovered 2 disk100)) 0 10).
    + reflexivity.
    + cbn [st bs s1]. rewrite Hsz. lia.
    + apply not_elem_of_nil.
    + exact Hrd.
  - done.
  - by left.
  - cbn. rewrite Hlg2. unfold in_log. cbn. lia.
Qed.

Lemma log_write_reserved_witness : exists σ i,
  reachable 30 100 σ /\
  lh_n (l_lh (lg (st σ))) + osum remaining (ops σ) <= LOGSIZE /\
  (lh_n (l_lh (lg (st σ))) + osum remaining (ops σ) <> LOGSIZE -> exists s', log_write i (st σ) = Ret tt s').
Proof.
  destruct holding_state as (σ & i & Hr & Hops & Hown & Hcl). exists σ, i. split; [exact Hr|].
  apply (log_write_reserved 30 100 σ 0 10 i 40); try done. by rewrite Hops.
Defined.

Lemma reservation_off_by_one_witness : exists s, log_inv s /\
  exists s', (begin_op;; begin_op;; begin_op;; updates (seqZ 40 30) zero_block) s = Panic "too big a transaction" s'.
Proof.
  destruct booted_state as (s & Hrun & Hinv & Hlg & Hsz & Hst & Hls & Hout & Hcom & Hn).
  exists s. split; [exact Hinv|]. apply reservation_off_by_one;
    [exact Hinv|exact Hls|exact Hout|exact Hcom|exact Hn|exact zero_ok| | |].
  - apply NoDup_seqZ.
  - rewrite length_seqZ. reflexivity.
  - intros c Hc%elem_of_seqZ. unfold in_log. lia.
Defined.

End LogExample.
