(* ===== verification/CString.v ===== *)
(** * Strings and memory blocks

    string.c of the kernel and the string functions of ulib.c.  Memory is a
    function from addresses to bytes; a pointer that is only read is the function
    from offsets to the bytes it points to.

    Shown: what each function leaves in memory, for every overlap of source and
    destination; that the user library's [memmove] does not have the behaviour of
    the kernel's when the destination overlaps the end of the source. *)

From S2P Require Export Prelude.
Local Open Scope Z_scope.

Module CString.

Definition mem : Type := Z -> Z.
Definition poke (m : mem) (a v : Z) : mem := fun x => if x =? a then v else m x.

(** ** string.c *)

(** [stosb] and [stosl] of x86.h: [n] bytes, or [n] little-endian words. *)
Fixpoint stosb (n : nat) (m : mem) (a c : Z) : mem :=
  match n with O => m | S n => stosb n (poke m a (u8 c)) (a + 1) c end.
Definition poke32 (m : mem) (a w : Z) : mem :=
  poke (poke (poke (poke m a (u8 w)) (a + 1) (u8 (w / 2 ^ 8))) (a + 2) (u8 (w / 2 ^ 16)))
    (a + 3) (u8 (w / 2 ^ 24)).
Fixpoint stosl (n : nat) (m : mem) (a w : Z) : mem :=
  match n with O => m | S n => stosl n (poke32 m a w) (a + 4) w end.

Definition memset (m : mem) (dst c : Z) (n : nat) : mem :=
  if ((Z.rem (s32 dst) 4 =? 0) && (Z.of_nat n mod 4 =? 0))%bool then
    let c := Z.land c 255 in
    stosl (n / 4) m dst
      (u32 (Z.lor (Z.lor (Z.lor (Z.shiftl c 24) (Z.shiftl c 16)) (Z.shiftl c 8)) c))
  else stosb n m dst c.

Fixpoint memcmp (n : nat) (s1 s2 : nat -> Z) : Z :=
  match n with
  | O => 0
  | S n =>
      if negb (s1 0%nat =? s2 0%nat) then s1 0%nat - s2 0%nat
      else memcmp n (fun i => s1 (S i)) (fun i => s2 (S i))
  end.

(** [while(n-- > 0) *d++ = *s++;] *)
Fixpoint copy_up (n : nat) (m : mem) (d s : Z) : mem :=
  match n with O => m | S n => copy_up n (poke m d (m s)) (d + 1) (s + 1) end.
(** [while(n-- > 0) *--d = *--s;] *)
Fixpoint copy_down (n : nat) (m : mem) (d s : Z) : mem :=
  match n with O => m | S n => copy_down n (poke m (d - 1) (m (s - 1))) (d - 1) (s - 1) end.

Definition memmove (m : mem) (dst src : Z) (n : nat) : mem :=
  let s := src in let d := dst in
  if ((s <? d) && (s + Z.of_nat n >? d))%bool
  then copy_down n m (d + Z.of_nat n) (s + Z.of_nat n)
  else copy_up n m d s.
Definition memcpy (m : mem) (dst src : Z) (n : nat) : mem := memmove m dst src n.

Fixpoint strncmp (n : nat) (p q : nat -> Z) : Z :=
  match n with
  | O => 0
  | S n =>
      if (truthy (p 0%nat) && (p 0%nat =? q 0%nat))%bool
      then strncmp n (fun i => p (S i)) (fun i => q (S i))
      else p 0%nat - q 0%nat
  end.

(** The second loop of [strncpy]. *)
Fixpoint pad (n : nat) (m : mem) (s : Z) : mem :=
  match n with O => m | S n => pad n (poke m s 0) (s + 1) end.
Fixpoint strncpy (n : nat) (m : mem) (s t : Z) : mem :=
  match n with
  | O => m
  | S n => let c := m t in let m := poke m s c in
           if c =? 0 then pad n m (s + 1) else strncpy n m (s + 1) (t + 1)
  end.

(** [while(--n > 0 && ( *s++ = *t++) != 0);  *s = 0;] for [n] positive; [k] is
    [n - 1].  The byte that ended the loop is zero already, so [s] is past it. *)
Fixpoint safestrcpy_loop (k : nat) (m : mem) (s t : Z) : mem * Z :=
  match k with
  | O => (m, s)
  | S k => let c := m t in let m := poke m s c in
           if c =? 0 then (m, s + 1) else safestrcpy_loop k m (s + 1) (t + 1)
  end.
Definition safestrcpy (m : mem) (s t n : Z) : mem :=
  if n <=? 0 then m else
  let '(m, s) := safestrcpy_loop (Z.to_nat (n - 1)) m s t in poke m s 0.

(** [for(n = 0; s[n]; n++);] with a bound on the number of bytes looked at. *)
Fixpoint strlen (fuel : nat) (s : nat -> Z) : option Z :=
  match fuel with
  | O => None
  | S fuel => if s 0%nat =? 0 then Some 0 else (fun n => n + 1) <$> strlen fuel (fun i => s (S i))
  end.

(** ** ulib.c *)

Definition u_strlen (fuel : nat) (s : nat -> Z) : option Z := strlen fuel s.
Definition u_memset (m : mem) (dst c : Z) (n : nat) : mem := stosb n m dst c.
Definition u_memmove (m : mem) (dst src : Z) (n : nat) : mem := copy_up n m dst src.

Fixpoint strcpy (fuel : nat) (m : mem) (s t : Z) : option mem :=
  match fuel with
  | O => None
  | S fuel => let c := m t in let m := poke m s c in
              if c =? 0 then Some m else strcpy fuel m (s + 1) (t + 1)
  end.

Fixpoint strcmp (fuel : nat) (p q : nat -> Z) : option Z :=
  match fuel with
  | O => None
  | S fuel =>
      if (truthy (p 0%nat) && (p 0%nat =? q 0%nat))%bool
      then strcmp fuel (fun i => p (S i)) (fun i => q (S i))
      else Some (p 0%nat - q 0%nat)
  end.

Fixpoint strchr (fuel : nat) (s : nat -> Z) (c : Z) : option (option nat) :=
  match fuel with
  | O => None
  | S fuel =>
      if s 0%nat =? 0 then Some None
      else if s 0%nat =? c then Some (Some 0%nat)
      else fmap (M := option) S <$> strchr fuel (fun i => s (S i)) c
  end.

Fixpoint atoi (fuel : nat) (s : nat -> Z) (n : Z) : option Z :=
  match fuel with
  | O => None
  | S fuel =>
      if ((48 <=? s 0%nat) && (s 0%nat <=? 57))%bool
      then atoi fuel (fun i => s (S i)) (s32 (n * 10 + s 0%nat - 48))
      else Some n
  end.

(** ** What they do *)

Definition bytes_at (m : mem) (p : Z) (l : list Z) : Prop :=
  forall i x, l !! i = Some x -> m (p + Z.of_nat i) = x.

(** The C string with characters [l] at [p]. *)
Definition cstr (s : nat -> Z) (l : list Z) : Prop :=
  Forall (fun c => c <> 0) l /\ (forall i x, l !! i = Some x -> s i = x) /\ s (length l) = 0.

Lemma poke_same m a v : poke m a v a = v.
Proof. unfold poke. by rewrite Z.eqb_refl. Qed.
Lemma poke_ne m a v x : x <> a -> poke m a v x = m x.
Proof. intros H. unfold poke. by rewrite (proj2 (Z.eqb_neq x a) H). Qed.

Lemma cstr_nil s : cstr s [] <-> s 0%nat = 0.
Proof. unfold cstr. split; [tauto|]. intros H. split_and!; [constructor|done|done]. Qed.

Lemma cstr_cons s c l : cstr s (c :: l) <-> c <> 0 /\ s 0%nat = c /\ cstr (fun i => s (S i)) l.
Proof.
  unfold cstr. split.
  - intros (Hf & Hl & Hz). apply Forall_cons in Hf as [Hc Hf]. split_and!; try done.
    + by apply (Hl 0%nat).
    + intros i x Hi. by apply (Hl (S i)).
  - intros (Hc & Hs & Hf & Hl & Hz). split_and!; [by constructor| |done].
    intros [|i] x Hi; [by injection Hi as <-|by apply Hl].
Qed.

Lemma copy_up_spec n : forall m d s x,
  (d <= s \/ s + Z.of_nat n <= d) ->
  copy_up n m d s x = if ((d <=? x) && (x <? d + Z.of_nat n))%bool then m (s + (x - d)) else m x.
Proof.
  induction n as [|n IH]; intros m d s x Hov; cbn [copy_up].
  - replace (d + Z.of_nat 0) with d by lia. destruct (Z.leb_spec d x), (Z.ltb_spec x d); cbn; try done; lia.
  - rewrite IH by lia.
    destruct (Z.leb_spec (d + 1) x), (Z.ltb_spec x (d + 1 + Z.of_nat n)),
      (Z.leb_spec d x), (Z.ltb_spec x (d + Z.of_nat (S n))); cbn [andb]; try lia;
      try (rewrite poke_ne by lia; f_equal; lia).
    replace x with d by lia. rewrite poke_same. f_equal. lia.
Qed.

Lemma copy_down_spec n : forall m d s x,
  (s <= d \/ d + Z.of_nat n <= s) ->
  copy_down n m d s x =
    if ((d - Z.of_nat n <=? x) && (x <? d))%bool then m (s - (d - x)) else m x.
Proof.
  induction n as [|n IH]; intros m d s x Hov; cbn [copy_down].
  - replace (d - Z.of_nat 0) with d by lia. destruct (Z.leb_spec d x), (Z.ltb_spec x d); cbn; try done; lia.
  - rewrite IH by lia.
    destruct (Z.leb_spec (d - 1 - Z.of_nat n) x), (Z.ltb_spec x (d - 1)),
      (Z.leb_spec (d - Z.of_nat (S n)) x), (Z.ltb_spec x d); cbn [andb]; try lia;
      try (rewrite poke_ne by lia; f_equal; lia).
    replace x with (d - 1) by lia. rewrite poke_same. f_equal. lia.
Qed.

Lemma memmove_spec m dst src n x :
  memmove m dst src n x =
    if ((dst <=? x) && (x <? dst + Z.of_nat n))%bool then m (src + (x - dst)) else m x.
Proof.
  unfold memmove. destruct (_ && _)%bool eqn:E.
  - apply andb_prop in E as [E1 E2]. rewrite Z.gtb_ltb in E2. bool_hyps. rewrite copy_down_spec by lia.
    replace (dst + Z.of_nat n - Z.of_nat n) with dst by lia.
    replace (src + Z.of_nat n - (dst + Z.of_nat n - x)) with (src + (x - dst)) by lia. done.
  - apply andb_false_iff in E. rewrite Z.gtb_ltb in E. apply copy_up_spec.
    destruct E as [E|E]; bool_hyps; lia.
Qed.

(** The kernel's [memmove] gives the [n] bytes at the destination the values the
    [n] bytes at the source had before, however the two overlap, and changes
    nothing else. *)
Theorem memmove_correct m dst src n :
  (forall i, (i < n)%nat -> memmove m dst src n (dst + Z.of_nat i) = m (src + Z.of_nat i)) /\
  (forall x, x < dst \/ dst + Z.of_nat n <= x -> memmove m dst src n x = m x).
Proof.
  split; intros x Hx; rewrite memmove_spec.
  - rewrite (proj2 (Z.leb_le _ _)), (proj2 (Z.ltb_lt _ _)) by lia. cbn. f_equal. lia.
  - destruct (Z.leb_spec dst x), (Z.ltb_spec x (dst + Z.of_nat n)); cbn; done || lia.
Qed.

Lemma copy_up_overlap n : forall m d s x,
  s < d -> copy_up n m d s x =
    if ((d <=? x) && (x <? d + Z.of_nat n))%bool then m (s + (x - d) mod (d - s)) else m x.
Proof.
  induction n as [|n IH]; intros m d s x Hsd; cbn [copy_up].
  - replace (d + Z.of_nat 0) with d by lia. destruct (Z.leb_spec d x), (Z.ltb_spec x d); cbn; try done; lia.
  - rewrite IH by lia. replace (d + 1 - (s + 1)) with (d - s) by lia.
    destruct (Z.leb_spec (d + 1) x), (Z.ltb_spec x (d + 1 + Z.of_nat n)),
      (Z.leb_spec d x), (Z.ltb_spec x (d + Z.of_nat (S n))); cbn [andb]; try lia;
      try (rewrite poke_ne by lia; done).
    + replace (x - d) with (x - (d + 1) + 1) by lia. set (y := x - (d + 1)). set (k := d - s).
      pose proof (Z.mod_pos_bound y k ltac:(lia)) as Hb.
      destruct (decide (y mod k = k - 1)) as [Hy|Hy].
      * rewrite Hy. replace (s + 1 + (k - 1)) with d by lia. rewrite poke_same.
        rewrite <- Z.add_mod_idemp_l, Hy by lia. replace (k - 1 + 1) with k by lia.
        rewrite Z.mod_same by lia. f_equal. lia.
      * rewrite poke_ne by lia. rewrite <- Z.add_mod_idemp_l by lia.
        rewrite (Z.mod_small (y mod k + 1)) by lia. f_equal. lia.
    + replace x with d by lia. rewrite poke_same, Z.sub_diag, Z.mod_0_l by lia. f_equal. lia.
Qed.

(** The user library's [memmove] copies upwards always.  When the destination
    begins inside the source, it repeats the first [dst - src] bytes of the source
    over the destination instead of moving the source there. *)
Theorem u_memmove_repeats m dst src n x :
  src < dst -> dst <= x < dst + Z.of_nat n ->
  u_memmove m dst src n x = m (src + (x - dst) mod (dst - src)).
Proof.
  intros Hsd Hx. unfold u_memmove. rewrite copy_up_overlap by done.
  rewrite (proj2 (Z.leb_le dst x)), (proj2 (Z.ltb_lt x _)) by lia. done.
Qed.

(** Moving three bytes up by one: the last one should be that of address 2. *)
Lemma u_memmove_repeats_witness :
  u_memmove (fun a => a) 1 0 3 3 = 0 /\ memmove (fun a => a) 1 0 3 3 = 2.
Proof.
  split; [|reflexivity]. rewrite (u_memmove_repeats (fun a => a) 1 0 3 3); [reflexivity|lia|lia].
Defined.

(** *** [memset] *)

Lemma stosb_spec n : forall m a c x,
  stosb n m a c x = if ((a <=? x) && (x <? a + Z.of_nat n))%bool then u8 c else m x.
Proof.
  induction n as [|n IH]; intros m a c x; cbn [stosb].
  - replace (a + Z.of_nat 0) with a by lia. destruct (Z.leb_spec a x), (Z.ltb_spec x a); cbn; try done; lia.
  - rewrite IH. destruct (Z.leb_spec (a + 1) x), (Z.ltb_spec x (a + 1 + Z.of_nat n)),
      (Z.leb_spec a x), (Z.ltb_spec x (a + Z.of_nat (S n))); cbn [andb]; try lia; try done;
      try (by rewrite poke_ne by lia).
    replace x with a by lia. by rewrite poke_same.
Qed.

Definition word_of (c : Z) : Z :=
  u32 (Z.lor (Z.lor (Z.lor (Z.shiftl c 24) (Z.shiftl c 16)) (Z.shiftl c 8)) c).

Definition word_of_ok (c : Z) : bool :=
  let w := word_of c in
  (u8 w =? c) && (u8 (w / 2 ^ 8) =? c) && (u8 (w / 2 ^ 16) =? c) && (u8 (w / 2 ^ 24) =? c).

Lemma word_of_bytes c : 0 <= c < 256 -> word_of_ok c = true.
Proof.
  intros Hc. assert (forallb word_of_ok (seqZ 0 256) = true) as H by (vm_compute; reflexivity).
  rewrite forallb_forall in H. apply H. apply list_elem_of_In, elem_of_seqZ. lia.
Qed.

Lemma poke32_same m a c x :
  0 <= c < 256 ->
  poke32 m a (word_of c) x = if ((a <=? x) && (x <? a + 4))%bool then c else m x.
Proof.
  intros Hc. pose proof (word_of_bytes c Hc) as H. unfold word_of_ok in H. bool_hyps.
  unfold poke32. rewrite H, H0, H1, H2. unfold poke.
  destruct (Z.eqb_spec x (a + 3)), (Z.eqb_spec x (a + 2)), (Z.eqb_spec x (a + 1)), (Z.eqb_spec x a),
    (Z.leb_spec a x), (Z.ltb_spec x (a + 4)); cbn; try done; lia.
Qed.

Lemma stosl_spec n : forall m a c x,
  0 <= c < 256 ->
  stosl n m a (word_of c) x = if ((a <=? x) && (x <? a + 4 * Z.of_nat n))%bool then c else m x.
Proof.
  induction n as [|n IH]; intros m a c x Hc; cbn [stosl].
  - replace (a + 4 * Z.of_nat 0) with a by lia. destruct (Z.leb_spec a x), (Z.ltb_spec x a); cbn; try done; lia.
  - rewrite IH, poke32_same by done.
    destruct (Z.leb_spec (a + 4) x), (Z.ltb_spec x (a + 4 + 4 * Z.of_nat n)), (Z.leb_spec a x),
      (Z.ltb_spec x (a + 4)), (Z.ltb_spec x (a + 4 * Z.of_nat (S n))); cbn [andb]; try done; lia.
Qed.

Lemma memset_spec m dst c n x :
  memset m dst c n x = if ((dst <=? x) && (x <? dst + Z.of_nat n))%bool then u8 c else m x.
Proof.
  unfold memset. destruct (_ && _)%bool eqn:E; [|apply stosb_spec]. bool_hyps.
  assert (Z.land c 255 = u8 c) as Hc by (unfold u8; by rewrite <- (Z.land_ones c 8) by lia).
  rewrite Hc. change (u32 _) with (word_of (u8 c)). rewrite stosl_spec by apply u8_range.
  assert (4 * Z.of_nat (n / 4) = Z.of_nat n) as ->; [|done].
  rewrite Nat2Z.inj_div. pose proof (Z.div_mod (Z.of_nat n) 4). lia.
Qed.

(** [memset] gives every one of the [n] bytes the low byte of [c], and changes
    nothing else, on its word-at-a-time path as on its byte path. *)
Theorem memset_correct m dst c n :
  (forall i, (i < n)%nat -> memset m dst c n (dst + Z.of_nat i) = u8 c) /\
  (forall x, x < dst \/ dst + Z.of_nat n <= x -> memset m dst c n x = m x).
Proof.
  split; intros x Hx; rewrite memset_spec.
  - rewrite (proj2 (Z.leb_le _ _)), (proj2 (Z.ltb_lt _ _)) by lia. done.
  - destruct (Z.leb_spec dst x), (Z.ltb_spec x (dst + Z.of_nat n)); cbn; done || lia.
Qed.

(** *** Strings *)

(** A name of at most [n] characters in a field of [n] bytes: NUL-terminated when it
    is shorter than the field. *)
Definition cname (n : nat) (s : nat -> Z) (l : list Z) : Prop :=
  (length l <= n)%nat /\ Forall (fun c => c <> 0) l /\ (forall i x, l !! i = Some x -> s i = x) /\
  ((length l < n)%nat -> s (length l) = 0).

Lemma cname_0 s l : cname 0 s l -> l = [].
Proof. intros [Hl _]. destruct l; [done|cbn in Hl; lia]. Qed.

Lemma cname_S n s l :
  cname (S n) s l ->
  (l = [] /\ s 0%nat = 0) \/
  exists c l', l = c :: l' /\ c <> 0 /\ s 0%nat = c /\ cname n (fun i => s (S i)) l'.
Proof.
  intros (Hl & Hf & Hs & Hz). destruct l as [|c l]; [left; split; [done|]; apply Hz; cbn; lia|].
  right. exists c, l. apply Forall_cons in Hf as [Hc Hf]. cbn in Hl, Hz. split_and!; try done; [by apply (Hs 0%nat)|].
  split_and!; [lia|done| |].
  - intros i x Hi. by apply (Hs (S i)).
  - intros H. apply Hz. lia.
Qed.

Lemma strncmp_cname n : forall p q l1 l2,
  cname n p l1 -> cname n q l2 -> strncmp n p q = 0 <-> l1 = l2.
Proof.
  induction n as [|n IH]; intros p q l1 l2 H1 H2.
  { apply cname_0 in H1 as ->. apply cname_0 in H2 as ->. done. }
  cbn [strncmp]. unfold truthy.
  apply cname_S in H1 as [[-> Hp]|(c1 & l1' & -> & Hc1 & Hp & H1)];
    apply cname_S in H2 as [[-> Hq]|(c2 & l2' & -> & Hc2 & Hq & H2)]; rewrite Hp, Hq; cbn [negb andb Z.eqb].
  - done.
  - split; [lia|done].
  - destruct (Z.eqb_spec c1 0); [done|]. cbn. destruct (Z.eqb_spec c1 0); [done|]. split; [lia|done].
  - destruct (Z.eqb_spec c1 0); [done|]. cbn. destruct (Z.eqb_spec c1 c2) as [->|Hne].
    + rewrite (IH _ _ l1' l2') by done. split; [by intros ->|by intros [= ->]].
    + split; [lia|by intros [= ??]].
Qed.

(** [strncmp] on two names in fields of [n] bytes returns zero exactly when they
    are the same name, whether they fill the field or end before it. *)
Theorem strncmp_names n p q l1 l2 :
  cname n p l1 -> cname n q l2 -> strncmp n p q = 0 <-> l1 = l2.
Proof. apply strncmp_cname. Qed.

Lemma strncmp_names_witness :
  strncmp 14 (fun i => nth i [97; 98] 0) (fun i => nth i [97; 99] 0) <> 0.
Proof.
  intros H. apply (strncmp_names 14 _ _ [97; 98] [97; 99]) in H; [discriminate| |];
    (split; [cbn; lia|]; split; [repeat constructor; lia|]; split;
      [intros i x Hi; by apply nth_lookup_Some|reflexivity]).
Defined.

Definition at_ (m : mem) (p : Z) : nat -> Z := fun i => m (p + Z.of_nat i).

(** [m'] has the bytes [l] at [s], and is [m] elsewhere. *)
Definition stores (m m' : mem) (s : Z) (l : list Z) : Prop :=
  forall x, m' x = if ((s <=? x) && (x <? s + Z.of_nat (length l)))%bool
                   then nth (Z.to_nat (x - s)) l 0 else m x.

Lemma stores_nil m s : stores m m s [].
Proof. intros x. cbn [length]. replace (s + Z.of_nat 0) with s by lia. destruct (Z.leb_spec s x), (Z.ltb_spec x s); cbn; done || lia. Qed.

Lemma stores_cons m m' s c l : stores (poke m s c) m' (s + 1) l -> stores m m' s (c :: l).
Proof.
  intros H x. rewrite (H x). cbn [length].
  destruct (Z.leb_spec (s + 1) x), (Z.ltb_spec x (s + 1 + Z.of_nat (length l))), (Z.leb_spec s x),
    (Z.ltb_spec x (s + Z.of_nat (S (length l)))); cbn [andb]; try lia; try (rewrite poke_ne by lia; done).
  - replace (Z.to_nat (x - s)) with (S (Z.to_nat (x - (s + 1)))) by lia. done.
  - replace x with s by lia. rewrite poke_same, Z.sub_diag. done.
Qed.

Lemma pad_stores n : forall m s, stores m (pad n m s) s (replicate n 0).
Proof. induction n as [|n IH]; intros m s; cbn; [apply stores_nil|]. apply stores_cons, IH. Qed.

Lemma cstr_at_cons m t c l : cstr (at_ m t) (c :: l) -> c <> 0 /\ m t = c /\ cstr (at_ m (t + 1)) l.
Proof.
  intros (Hc & Ht & Hl)%cstr_cons. unfold at_ in *. rewrite Z.add_0_r in Ht. split_and!; [done..|].
  destruct Hl as (H1 & H2 & H3). split_and!; [done| |].
  - intros i x Hi. rewrite <- (H2 i x Hi). f_equal. lia.
  - rewrite <- H3. f_equal. lia.
Qed.

Lemma cstr_ext s s' l : (forall i, (i <= length l)%nat -> s' i = s i) -> cstr s l -> cstr s' l.
Proof.
  intros He (H1 & H2 & H3). split_and!; [done| |].
  - intros i x Hi. rewrite He; [by apply H2|]. apply lookup_lt_Some in Hi. lia.
  - by rewrite He.
Qed.

(** The string survives a write outside it. *)
Lemma cstr_poke m t l a v :
  (a < t \/ t + Z.of_nat (length l) < a) -> cstr (at_ m t) l -> cstr (at_ (poke m a v) t) l.
Proof. intros Ha. apply cstr_ext. intros i Hi. unfold at_. apply poke_ne. lia. Qed.

Definition apart (s : Z) (n : nat) (t : Z) (l : list Z) : Prop :=
  s + Z.of_nat n <= t \/ t + Z.of_nat (length l) < s.

(** [strncpy] of a string into a field of [n] bytes apart from it: the field
    holds the first [n] characters of the string, and zeros after them; nothing else
    changes. *)
Theorem strncpy_correct n m s t l :
  cstr (at_ m t) l -> apart s n t l ->
  stores m (strncpy n m s t) s (take n (l ++ replicate n 0)).
Proof.
  revert m s t l. induction n as [|n IH]; intros m s t l Hl Ha; cbn [strncpy]; [apply stores_nil|].
  destruct l as [|c l].
  - assert (m t = 0) as ->.
    { apply cstr_nil in Hl. unfold at_ in Hl. by rewrite Z.add_0_r in Hl. }
    cbn [Z.eqb app]. rewrite take_replicate, Nat.min_id. apply stores_cons, pad_stores.
  - apply cstr_at_cons in Hl as (Hc & -> & Hl). rewrite (proj2 (Z.eqb_neq c 0) Hc).
    cbn [app take]. apply stores_cons. unfold apart in *. cbn [length] in Ha.
    assert (take n (l ++ replicate (S n) 0) = take n (l ++ replicate n 0)) as ->.
    { rewrite !take_app. f_equal. rewrite !take_replicate. f_equal. lia. }
    apply IH; [apply cstr_poke; [lia|done]|unfold apart; lia].
Qed.

Lemma strncpy_correct_witness :
  strncpy 3 (fun a => nth (Z.to_nat a) [65; 0; 9; 9; 9; 9] 7) 3 0 4 = 0.
Proof.
  rewrite (strncpy_correct 3 _ 3 0 [65]); [reflexivity| |unfold apart; cbn; lia].
  split; [repeat constructor; lia|]. split; [|reflexivity]. by intros [|[|i]] x Hi; cbn in *; simplify_eq.
Defined.

Lemma safestrcpy_loop_spec k : forall m s t l,
  cstr (at_ m t) l -> apart s (S k) t l ->
  let '(m', e) := safestrcpy_loop k m s t in
  cstr (at_ (poke m' e 0) s) (take k l) /\
  forall x, x < s \/ s + Z.of_nat k + 1 <= x -> poke m' e 0 x = m x.
Proof.
  induction k as [|k IH]; intros m s t l Hl Ha; cbn [safestrcpy_loop].
  { split; [|intros x Hx; apply poke_ne; lia]. cbn. apply cstr_nil. unfold at_. rewrite Z.add_0_r. apply poke_same. }
  destruct l as [|c l].
  - assert (m t = 0) as ->.
    { apply cstr_nil in Hl. unfold at_ in Hl. by rewrite Z.add_0_r in Hl. }
    cbn [Z.eqb]. split.
    + cbn. apply cstr_nil. unfold at_. rewrite Z.add_0_r, poke_ne by lia. apply poke_same.
    + intros x Hx. rewrite !poke_ne by lia. done.
  - apply cstr_at_cons in Hl as (Hc & -> & Hl). rewrite (proj2 (Z.eqb_neq c 0) Hc).
    unfold apart in Ha. cbn [length] in Ha.
    specialize (IH (poke m s c) (s + 1) (t + 1) l ltac:(apply cstr_poke; [lia|done]) ltac:(unfold apart; lia)).
    destruct (safestrcpy_loop k (poke m s c) (s + 1) (t + 1)) as [m' e]. destruct IH as [H1 H2].
    assert (poke m' e 0 s = c) as Hs by (rewrite H2 by lia; apply poke_same). split.
    + cbn [take]. apply cstr_cons. split_and!; [done|unfold at_; by rewrite Z.add_0_r|].
      eapply cstr_ext; [|exact H1]. intros i _. unfold at_. f_equal. lia.
    + intros x Hx. rewrite H2 by lia. apply poke_ne. lia.
Qed.

(** [safestrcpy] leaves a NUL-terminated string in the destination of [n] bytes,
    the first [n - 1] characters of the source, and writes nothing outside it. *)
Theorem safestrcpy_terminates_string m s t n l :
  0 < n -> cstr (at_ m t) l -> apart s (Z.to_nat n) t l ->
  cstr (at_ (safestrcpy m s t n) s) (take (Z.to_nat (n - 1)) l) /\
  forall x, x < s \/ s + n <= x -> safestrcpy m s t n x = m x.
Proof.
  intros Hn Hl Ha. unfold safestrcpy. rewrite (proj2 (Z.leb_gt n 0)) by lia.
  pose proof (safestrcpy_loop_spec (Z.to_nat (n - 1)) m s t l Hl) as H.
  destruct (safestrcpy_loop _ m s t) as [m' e]. destruct H as [H1 H2].
  { replace (S (Z.to_nat (n - 1))) with (Z.to_nat n) by lia. done. }
  split; [done|]. intros x Hx. apply H2. lia.
Qed.

Lemma safestrcpy_terminates_string_witness :
  cstr (at_ (safestrcpy (fun a => nth (Z.to_nat a) [65; 66; 67; 0; 9; 9] 7) 4 0 2) 4) [65].
Proof.
  apply (safestrcpy_terminates_string _ 4 0 2 [65; 66; 67]); [lia| |unfold apart; cbn; lia].
  split; [repeat constructor; lia|]. split; [|reflexivity].
  by intros [|[|[|[|i]]]] x Hi; cbn in *; simplify_eq.
Defined.

Lemma strlen_spec l : forall fuel s, cstr s l -> (length l < fuel)%nat -> strlen fuel s = Some (Z.of_nat (length l)).
Proof.
  induction l as [|c l IH]; intros [|fuel] s Hl Hf; cbn [length] in *; try lia; cbn [strlen].
  - apply cstr_nil in Hl as ->. done.
  - apply cstr_cons in Hl as (Hc & -> & Hl). rewrite (proj2 (Z.eqb_neq c 0) Hc), (IH fuel) by (done || lia).
    cbn. f_equal. lia.
Qed.

Lemma strcmp_spec l1 : forall l2 fuel p q, cstr p l1 -> cstr q l2 -> (length l1 < fuel)%nat ->
  exists r, strcmp fuel p q = Some r /\ (r = 0 <-> l1 = l2).
Proof.
  induction l1 as [|c1 l1 IH]; intros l2 [|fuel] p q H1 H2 Hf; cbn [length] in *; try lia; cbn [strcmp]; unfold truthy.
  - apply cstr_nil in H1 as ->. cbn. eexists. split; [done|].
    destruct l2 as [|c2 l2]; [apply cstr_nil in H2 as ->; done|]. apply cstr_cons in H2 as (Hc & -> & _).
    split; [lia|done].
  - apply cstr_cons in H1 as (Hc1 & -> & H1). rewrite (proj2 (Z.eqb_neq c1 0) Hc1). cbn [negb andb].
    destruct l2 as [|c2 l2].
    + apply cstr_nil in H2 as ->. rewrite (proj2 (Z.eqb_neq c1 0) Hc1). eexists. split; [done|]. split; [lia|done].
    + apply cstr_cons in H2 as (Hc2 & -> & H2). destruct (Z.eqb_spec c1 c2) as [->|Hne].
      * destruct (IH l2 fuel _ _ H1 H2) as (r & Hr & Hiff); [lia|]. exists r. split; [done|].
        rewrite Hiff. split; [by intros ->|by intros [= ->]].
      * eexists. split; [done|]. split; [lia|by intros [= ??]].
Qed.

End CString.
