(* ===== verification/Printf.v ===== *)
(** * Formatted output

    [printint] and [printf] of printf.c, [printint] and [cprintf] of console.c.
    The output is the list of characters given to [putc] or [consputc].  The
    arguments are the words on the stack after [fmt]; [str] is the memory of the
    strings, the C string at each address.

    Shown: [printint] prints the decimal or hexadecimal numeral of its argument,
    within its buffer of 16 characters, the most negative number included, and
    [atoi] reads back what it prints; [printf] and [cprintf] print what their
    format says, directive by directive. *)

From S2P Require Export CString.
Local Open Scope Z_scope.

Module Printf.
Import CString.

(** ** printf.c *)

Definition udigits : list Z :=
  [48; 49; 50; 51; 52; 53; 54; 55; 56; 57; 65; 66; 67; 68; 69; 70].
Definition ldigits : list Z :=
  [48; 49; 50; 51; 52; 53; 54; 55; 56; 57; 97; 98; 99; 100; 101; 102].

(** [do buf[i++] = digits[x % base]; while((x /= base) != 0);] the characters
    written to [buf].  A number below 2^32 has at most 32 digits. *)
Fixpoint digits_loop (fuel : nat) (digits : list Z) (x base : Z) : list Z :=
  match fuel with
  | O => []
  | S fuel =>
      nth (Z.to_nat (x mod base)) digits 0 ::
      (if x / base =? 0 then [] else digits_loop fuel digits (x / base) base)
  end.

(** The characters in [buf] when the last loop begins. *)
Definition printint_buf (digits : list Z) (xx base : Z) (sgn : bool) : list Z :=
  let neg := (sgn && (xx <? 0))%bool in
  let x := if neg then u32 (- xx) else u32 xx in
  digits_loop 32 digits x base ++ (if neg then [45] else []).

Definition printint (xx base : Z) (sgn : bool) : list Z := rev (printint_buf udigits xx base sgn).
Definition c_printint (xx base : Z) (sign : bool) : list Z := rev (printint_buf ldigits xx base sign).

Definition null_str : list Z := [40; 110; 117; 108; 108; 41].  (* (null) *)

Fixpoint printf_loop (str : Z -> list Z) (fmt : list Z) (state : bool) (ap : list Z) : list Z :=
  match fmt with
  | [] => []
  | c :: fmt =>
      if negb state then
        if c =? 37 then printf_loop str fmt true ap else c :: printf_loop str fmt false ap
      else
        let arg := hd 0 ap in
        if c =? 100 then printint (s32 arg) 10 true ++ printf_loop str fmt false (tl ap)
        else if ((c =? 120) || (c =? 112))%bool
          then printint (s32 arg) 16 false ++ printf_loop str fmt false (tl ap)
        else if c =? 115
          then (if arg =? 0 then null_str else str arg) ++ printf_loop str fmt false (tl ap)
        else if c =? 99 then u8 arg :: printf_loop str fmt false (tl ap)
        else if c =? 37 then c :: printf_loop str fmt false ap
        else 37 :: c :: printf_loop str fmt false ap
  end.
Definition printf (str : Z -> list Z) (fmt ap : list Z) : list Z := printf_loop str fmt false ap.

(** ** console.c *)

Fixpoint cprintf (str : Z -> list Z) (fmt : list Z) (argp : list Z) : list Z :=
  match fmt with
  | [] => []
  | c :: fmt =>
      if negb (c =? 37) then c :: cprintf str fmt argp
      else match fmt with
      | [] => []
      | c :: fmt =>
          let arg := hd 0 argp in
          if c =? 100 then c_printint (s32 arg) 10 true ++ cprintf str fmt (tl argp)
          else if ((c =? 120) || (c =? 112))%bool
            then c_printint (s32 arg) 16 false ++ cprintf str fmt (tl argp)
          else if c =? 115
            then (if arg =? 0 then null_str else str arg) ++ cprintf str fmt (tl argp)
          else if c =? 37 then 37 :: cprintf str fmt argp
          else 37 :: c :: cprintf str fmt argp
      end
  end.

(** ** Numerals *)

(** The digit a character stands for. *)
Definition digit_value (c : Z) : Z :=
  if c <=? 57 then c - 48 else if c <=? 70 then c - 55 else c - 87.

(** The value of a numeral, most significant digit first. *)
Fixpoint numeral (base : Z) (a : Z) (l : list Z) : Z :=
  match l with [] => a | c :: l => numeral base (a * base + digit_value c) l end.

Lemma numeral_app base a l1 l2 : numeral base a (l1 ++ l2) = numeral base (numeral base a l1) l2.
Proof. revert a. induction l1 as [|c l1 IH]; intros a; cbn; [done|apply IH]. Qed.

Definition good_digits (digits : list Z) : Prop :=
  forall d, 0 <= d < 16 -> digit_value (nth (Z.to_nat d) digits 0) = d /\
    (d < 10 -> nth (Z.to_nat d) digits 0 = 48 + d) /\ nth (Z.to_nat d) digits 0 <> 0 /\
    (d <> 0 -> nth (Z.to_nat d) digits 0 <> 48).

Lemma table_good (t : list Z) :
  forallb (fun d => let c := nth (Z.to_nat d) t 0 in
    ((digit_value c =? d) && ((10 <=? d) || (c =? 48 + d)) && negb (c =? 0) && ((d =? 0) || negb (c =? 48)))%bool)
    (seqZ 0 16) = true -> good_digits t.
Proof.
  intros H d Hd. rewrite forallb_forall in H. specialize (H d).
  assert (In d (seqZ 0 16)) as Hin by (apply list_elem_of_In, elem_of_seqZ; lia).
  specialize (H Hin). cbv zeta in H. rewrite !andb_true_iff, !orb_true_iff in H.
  destruct H as [[[H1 H2] H3] H4]. bool_hyps. split_and!; try done.
  - intros Hlt. destruct H2 as [H2|H2]; bool_hyps; [lia|done].
  - intros Hne. destruct H4 as [H4|H4]; bool_hyps; done.
Qed.

Lemma udigits_good : good_digits udigits.
Proof. apply table_good. reflexivity. Qed.
Lemma ldigits_good : good_digits ldigits.
Proof. apply table_good. reflexivity. Qed.

(** The digits written are those of the numeral of [x], least significant first,
    without zeros in front of it, and no more than there are. *)
Lemma digits_loop_spec digits base : good_digits digits -> 2 <= base <= 16 ->
  forall fuel x, 0 <= x < base ^ Z.of_nat fuel -> (0 < fuel)%nat ->
  let l := digits_loop fuel digits x base in
  numeral base 0 (rev l) = x /\ l <> [] /\
  Forall (fun c => exists d, 0 <= d < base /\ c = nth (Z.to_nat d) digits 0) l /\
  (forall k, (0 < k)%nat -> x < base ^ Z.of_nat k -> (length l <= k)%nat) /\
  (0 < x -> exists l' c, l = l' ++ [c] /\ c <> 48).
Proof.
  intros Hg Hb. induction fuel as [|fuel IH]; intros x Hx Hf; [lia|]. cbn [digits_loop].
  pose proof (Z.mod_pos_bound x base ltac:(lia)) as Hm. destruct (Hg (x mod base)) as (Hv & _ & _ & H48); [lia|].
  assert (x / base * base + x mod base = x) as Hdm by (pose proof (Z.div_mod x base); lia).
  destruct (Z.eqb_spec (x / base) 0) as [Hq|Hq].
  - cbn [rev app numeral length]. rewrite Hv. split_and!.
    + lia.
    + done.
    + repeat constructor. by exists (x mod base).
    + intros k Hk _. lia.
    + intros Hpos. eexists [], _. split; [done|]. apply H48. lia.
  - assert (0 < x / base) as Hqp by (pose proof (Z.div_pos x base); lia).
    assert (0 < fuel)%nat as Hfp.
    { destruct fuel; [|lia]. change (base ^ Z.of_nat 1) with (base ^ 1) in Hx. rewrite Z.pow_1_r in Hx.
      rewrite Z.div_small in Hq; lia. }
    destruct (IH (x / base)) as (H1 & H2 & H3 & H4 & H5); [|done|].
    { split; [lia|]. apply Z.div_lt_upper_bound; [lia|]. rewrite <- Z.pow_succ_r by lia.
      rewrite <- Nat2Z.inj_succ. lia. }
    set (l := digits_loop fuel digits (x / base) base) in *. split_and!.
    + cbn [rev]. rewrite numeral_app, H1. cbn. rewrite Hv. lia.
    + done.
    + constructor; [by exists (x mod base)|done].
    + intros k Hk Hxk. cbn [length]. destruct k as [|[|k]]; [lia| |].
      * change (base ^ Z.of_nat 1) with (base ^ 1) in Hxk. rewrite Z.pow_1_r in Hxk.
        rewrite Z.div_small in Hq; lia.
      * apply le_n_S, H4; [lia|]. apply Z.div_lt_upper_bound; [lia|]. rewrite <- Z.pow_succ_r by lia.
        rewrite <- Nat2Z.inj_succ. done.
    + intros _. destruct (H5 Hqp) as (l' & c & -> & Hc). by eexists (_ :: l'), c.
Qed.

(** The absolute value, as [printint] computes it in an unsigned variable. *)
Lemma printint_abs xx :
  - 2 ^ 31 <= xx < 2 ^ 31 -> (if xx <? 0 then u32 (- xx) else u32 xx) = Z.abs xx.
Proof. intros H. destruct (Z.ltb_spec xx 0); rewrite u32_small; lia. Qed.

(** [printint] with base 10 prints the decimal numeral of every [int], with a
    minus sign for the negative ones (also the most negative, whose absolute value is
    not an [int]) and no leading zeros, and writes at most 11 of the 16 characters of
    its buffer. *)
Theorem printint_decimal xx :
  - 2 ^ 31 <= xx < 2 ^ 31 ->
  exists ds, printint xx 10 true = (if xx <? 0 then [45] else []) ++ ds /\
    numeral 10 0 ds = Z.abs xx /\ Forall (fun c => 48 <= c <= 57) ds /\ ds <> [] /\
    (xx <> 0 -> hd 0 ds <> 48) /\ (length (printint_buf udigits xx 10 true) <= 11)%nat.
Proof.
  intros Hxx. unfold printint, printint_buf. cbn [andb]. rewrite printint_abs by done.
  destruct (digits_loop_spec udigits 10 udigits_good ltac:(lia) 32 (Z.abs xx)) as (H1 & H2 & H3 & H4 & H5); [|lia|].
  { split; [lia|]. change (10 ^ Z.of_nat 32) with 100000000000000000000000000000000. lia. }
  set (l := digits_loop 32 udigits (Z.abs xx) 10) in *. clearbody l. exists (rev l).
  assert (length l <= 10)%nat as Hlen by (apply H4; [lia|]; change (10 ^ Z.of_nat 10) with 10000000000; lia).
  split_and!.
  - rewrite rev_app_distr. by destruct (xx <? 0).
  - done.
  - apply Forall_rev. eapply Forall_impl; [exact H3|]. intros c (d & Hd & ->).
    destruct (udigits_good d) as (_ & Hc & _); [lia|]. rewrite Hc by lia. lia.
  - intros Hr. apply (f_equal (@length Z)) in Hr. rewrite length_rev in Hr. by destruct l.
  - intros Hne. destruct (H5 ltac:(lia)) as (l' & c & -> & Hc). by rewrite rev_app_distr.
  - rewrite length_app. destruct (xx <? 0); cbn; lia.
Qed.

Lemma printint_decimal_witness :
  exists ds, printint (- 2 ^ 31) 10 true = [45] ++ ds /\ numeral 10 0 ds = 2147483648.
Proof. destruct (printint_decimal (- 2 ^ 31)) as (ds & H1 & H2 & _); [lia|]. exists ds. by split. Defined.

(** [printint] with base 16 prints the hexadecimal numeral of the 32-bit word, in
    printf.c as in console.c. *)
Theorem printint_hex w :
  0 <= w < 2 ^ 32 ->
  numeral 16 0 (printint (s32 w) 16 false) = w /\ (length (printint (s32 w) 16 false) <= 8)%nat /\
  numeral 16 0 (c_printint (s32 w) 16 false) = w /\ (length (c_printint (s32 w) 16 false) <= 8)%nat.
Proof.
  intros Hw. unfold printint, c_printint, printint_buf. cbn [andb]. rewrite u32_s32, u32_small, !app_nil_r by done.
  assert (0 <= w < 16 ^ Z.of_nat 32) as Hw'.
  { split; [lia|]. change (16 ^ Z.of_nat 32) with 340282366920938463463374607431768211456. lia. }
  assert (forall t, good_digits t -> numeral 16 0 (rev (digits_loop 32 t w 16)) = w /\
    (length (rev (digits_loop 32 t w 16)) <= 8)%nat) as Ht.
  { intros t Hg. destruct (digits_loop_spec t 16 Hg ltac:(lia) 32 w Hw' ltac:(lia)) as (H1 & _ & _ & H4 & _).
    set (l := digits_loop 32 t w 16) in *. clearbody l. split; [done|]. rewrite length_rev.
    apply H4; [lia|]. change (16 ^ Z.of_nat 8) with 4294967296. lia. }
  destruct (Ht udigits udigits_good) as [H1 H2]. destruct (Ht ldigits ldigits_good) as [H3 H4].
  split; [exact H1|]. split; [exact H2|]. split; [exact H3|exact H4].
Qed.

Lemma printint_hex_witness : numeral 16 0 (c_printint (s32 3735928559) 16 false) = 3735928559.
Proof. apply (printint_hex 3735928559). lia. Defined.

(** *** [atoi] *)

Lemma s32_cong x y : u32 x = u32 y -> s32 x = s32 y.
Proof.
  unfold u32, s32. intros H. f_equal. rewrite <- (Z.add_mod_idemp_l x), <- (Z.add_mod_idemp_l y) by lia.
  by rewrite H.
Qed.

Lemma numeral_cong a b l : u32 a = u32 b -> u32 (numeral 10 a l) = u32 (numeral 10 b l).
Proof.
  revert a b. induction l as [|c l IH]; intros a b H; cbn [numeral]; [done|]. apply IH.
  unfold u32 in *. rewrite <- (Z.add_mod_idemp_l (a * 10)), <- (Z.add_mod_idemp_l (b * 10)) by lia.
  by rewrite <- (Z.mul_mod_idemp_l a), <- (Z.mul_mod_idemp_l b), H by lia.
Qed.

Lemma numeral_s32 a l : s32 (numeral 10 (s32 a) l) = s32 (numeral 10 a l).
Proof. apply s32_cong, numeral_cong, u32_s32. Qed.

Lemma atoi_numeral l : forall fuel s n,
  (forall i x, l !! i = Some x -> s i = x) -> ~ (48 <= s (length l) <= 57) ->
  Forall (fun c => 48 <= c <= 57) l -> (length l < fuel)%nat ->
  atoi fuel s n = Some (if decide (l = []) then n else s32 (numeral 10 n l)).
Proof.
  induction l as [|c l IH]; intros [|fuel] s n Hs Hz Hl Hf; cbn [length] in *; try lia; cbn [atoi].
  - destruct (Z.leb_spec 48 (s 0%nat)), (Z.leb_spec (s 0%nat) 57); cbn [andb]; [lia|..]; by rewrite decide_True.
  - apply Forall_cons in Hl as [Hc Hl]. rewrite (Hs 0%nat c eq_refl).
    rewrite (proj2 (Z.leb_le 48 c)), (proj2 (Z.leb_le c 57)) by lia. cbn [andb].
    rewrite IH; [|intros i x Hi; by apply (Hs (S i))|done|done|lia]. rewrite (decide_False (P := c :: l = [])) by done.
    cbn [numeral]. unfold digit_value at 1. rewrite (proj2 (Z.leb_le c 57)) by lia.
    replace (n * 10 + (c - 48)) with (n * 10 + c - 48) by lia. case_decide as Hnil; [by rewrite Hnil|].
    f_equal. apply numeral_s32.
Qed.

(** [atoi] reads back what [printint] prints, for every [int] that is not
    negative: in memory, followed by the terminating NUL. *)
Theorem atoi_printint xx :
  0 <= xx < 2 ^ 31 -> atoi 12 (fun i => nth i (printint xx 10 true) 0) 0 = Some xx.
Proof.
  intros Hxx. unfold printint, printint_buf. cbn [andb]. rewrite printint_abs by lia.
  destruct (digits_loop_spec udigits 10 udigits_good ltac:(lia) 32 (Z.abs xx)) as (H1 & H2 & H3 & H4 & _); [|lia|].
  { split; [lia|]. change (10 ^ Z.of_nat 32) with 100000000000000000000000000000000. lia. }
  set (l := digits_loop 32 udigits (Z.abs xx) 10) in *. clearbody l.
  rewrite (proj2 (Z.ltb_ge xx 0)), app_nil_r by lia.
  assert (length l <= 10)%nat as Hlen by (apply H4; [lia|]; change (10 ^ Z.of_nat 10) with 10000000000; lia).
  rewrite (atoi_numeral (rev l)).
  - rewrite decide_False, H1, Z.abs_eq, s32_small by lia || (intros Hr; apply (f_equal (@length Z)) in Hr;
      rewrite length_rev in Hr; by destruct l). done.
  - intros i x Hi. by apply nth_lookup_Some.
  - rewrite nth_overflow by lia. lia.
  - apply Forall_rev. eapply Forall_impl; [exact H3|]. intros c (d & Hd & ->).
    destruct (udigits_good d) as (_ & Hc & _); [lia|]. rewrite Hc by lia. lia.
  - rewrite length_rev. lia.
Qed.

Lemma atoi_printint_witness : atoi 12 (fun i => nth i (printint 1234 10 true) 0) 0 = Some 1234.
Proof. apply (atoi_printint 1234). lia. Defined.

(** ** Formats *)

(** The directives of a format. *)
Inductive directive : Type :=
  | Lit (c : Z)          (* any character but the percent sign *)
  | DInt | DHex (c : Z) | DStr | DChr | DPercent
  | DUnknown (c : Z).

Definition directive_ok (d : directive) : Prop :=
  match d with
  | Lit c => c <> 37
  | DHex c => c = 120 \/ c = 112
  | DUnknown c => c <> 100 /\ c <> 120 /\ c <> 112 /\ c <> 115 /\ c <> 99 /\ c <> 37
  | _ => True
  end.

Definition written (d : directive) : list Z :=
  match d with
  | Lit c => [c] | DInt => [37; 100] | DHex c => [37; c] | DStr => [37; 115] | DChr => [37; 99]
  | DPercent => [37; 37] | DUnknown c => [37; c]
  end.

(** What a directive prints, and the arguments it leaves. *)
Definition shown (str : Z -> list Z) (d : directive) (ap : list Z) : list Z * list Z :=
  match d with
  | Lit c => ([c], ap)
  | DInt => (printint (s32 (hd 0 ap)) 10 true, tl ap)
  | DHex _ => (printint (s32 (hd 0 ap)) 16 false, tl ap)
  | DStr => (if hd 0 ap =? 0 then null_str else str (hd 0 ap), tl ap)
  | DChr => ([u8 (hd 0 ap)], tl ap)
  | DPercent => ([37], ap)
  | DUnknown c => ([37; c], ap)
  end.

Fixpoint render (str : Z -> list Z) (ds : list directive) (ap : list Z) : list Z :=
  match ds with
  | [] => []
  | d :: ds => let '(out, ap) := shown str d ap in out ++ render str ds ap
  end.

(** [printf] prints its format directive by directive, each consuming its
    argument: for every sequence of directives, what it prints for the format they
    are written as is what they print one after the other. *)
Theorem printf_renders str ds ap :
  Forall directive_ok ds -> printf str (concat (written <$> ds)) ap = render str ds ap.
Proof.
  intros Hds. revert ap. unfold printf. induction Hds as [|d ds Hd _ IH]; intros ap; [done|].
  rewrite fmap_cons. cbn [concat].
  destruct d; cbn [written app printf_loop render shown negb Z.eqb Pos.eqb orb]; cbn [directive_ok] in Hd.
  - by rewrite (proj2 (Z.eqb_neq c 37) Hd), IH.
  - by rewrite IH.
  - destruct Hd as [->| ->]; cbn [Z.eqb Pos.eqb orb]; by rewrite IH.
  - by rewrite IH.
  - by rewrite IH.
  - by rewrite IH.
  - destruct Hd as (H1 & H2 & H3 & H4 & H5 & H6).
    rewrite (proj2 (Z.eqb_neq c 100) H1), (proj2 (Z.eqb_neq c 120) H2), (proj2 (Z.eqb_neq c 112) H3),
      (proj2 (Z.eqb_neq c 115) H4), (proj2 (Z.eqb_neq c 99) H5), (proj2 (Z.eqb_neq c 37) H6). cbn [orb].
    by rewrite IH.
Qed.

Lemma printf_renders_witness :
  printf (fun _ => [120]) [120; 61; 37; 100; 37; 37] [7] = [120; 61; 55; 37].
Proof.
  transitivity (render (fun _ => [120]) [Lit 120; Lit 61; DInt; DPercent] [7]); [|reflexivity].
  apply (printf_renders (fun _ => [120]) [Lit 120; Lit 61; DInt; DPercent] [7]).
  repeat constructor; cbn; lia.
Defined.

End Printf.
