(* ===== verification/Utils.v ===== *)
(** * User programs

    cat.c, wc.c, echo.c, ls.c, ln.c, mkdir.c, rm.c, kill.c, date.c, init.c, zombie.c and
    forktest.c, with [stat] of ulib.c.  The system calls are an interface, [SysOps], on a state [W]
    of the world outside the process; a program is a function on that state that may call
    [exit].  A C string is the list of its characters.  [fork] returns to one of the two
    processes: the program text is followed in that one.

    With what a process can see of the system calls as the laws [SysLaws], shown: [cat] copies
    its files to its output, byte for byte and in order, however [read] cuts them up; [wc]
    prints the numbers of lines, words and characters of each file, again for all ways of
    cutting; [echo] prints its arguments; [init] reports each process it inherits once. *)

From S2P Require Export Printf.
Local Open Scope Z_scope.

(** ** Programs *)

Inductive uout (W A : Type) : Type :=
  | UDone (a : A) (w : W)
  | UExit (w : W)
  | UFuel (w : W).  (* the bound on a loop was too small *)
Arguments UDone {W A} a w.
Arguments UExit {W A} w.
Arguments UFuel {W A} w.

Definition U (W A : Type) : Type := W -> uout W A.
#[global] Instance U_ret W : MRet (U W) := fun A a w => UDone a w.
#[global] Instance U_bind W : MBind (U W) := fun A B f m w =>
  match m w with UDone a w => f a w | UExit w => UExit w | UFuel w => UFuel w end.

Definition exit {W A} : U W A := fun w => UExit w.
Definition out_of_fuel {W A} : U W A := fun w => UFuel w.

Record ustat : Type := mkustat { st_type : Z; st_dev : Z; st_ino : Z; st_nlink : Z; st_size : Z }.
Record rtcdate : Type := mkrtcdate { r_second : Z; r_minute : Z; r_hour : Z; r_day : Z; r_month : Z; r_year : Z }.

(** The system calls of user.h that the programs use. *)
Class SysOps (W : Type) : Type := {
  sys_read : Z -> nat -> W -> Z * list Z * W;   (* the result and the bytes put in the buffer *)
  sys_write : Z -> list Z -> W -> Z * W;
  sys_open : list Z -> Z -> W -> Z * W;
  sys_close : Z -> W -> Z * W;
  sys_fstat : Z -> W -> Z * ustat * W;
  sys_link : list Z -> list Z -> W -> Z * W;
  sys_unlink : list Z -> W -> Z * W;
  sys_mkdir : list Z -> W -> Z * W;
  sys_mknod : list Z -> Z -> Z -> W -> Z * W;
  sys_dup : Z -> W -> Z * W;
  sys_kill : Z -> W -> Z * W;
  sys_fork : W -> Z * W;
  sys_wait : W -> Z * W;
  sys_exec : list Z -> list (list Z) -> W -> Z * W;
  sys_sleep : Z -> W -> Z * W;
  sys_date : W -> Z * rtcdate * W
}.

(** The characters of a message. *)
Fixpoint chars (m : string) : list Z :=
  match m with
  | EmptyString => []
  | String c m => Z.of_nat (Ascii.nat_of_ascii c) :: chars m
  end.
Definition line (m : string) : list Z := chars m ++ [10].

Module Utils.
Import CString Printf.

Definition O_RDONLY : Z := 0.
Definition O_RDWR : Z := 2.
Definition T_DIR : Z := 1.
Definition T_FILE : Z := 2.
Definition DIRSIZ : nat := 14.

Section Code.
Context {W : Type} `{!SysOps W}.

(** A system call that returns an [int]. *)
Definition call (f : W -> Z * W) : U W Z := fun w => let '(r, w) := f w in UDone r w.
Definition read (fd : Z) (n : nat) : U W (Z * list Z) := fun w => let '(r, b, w) := sys_read fd n w in UDone (r, b) w.
Definition write (fd : Z) (b : list Z) : U W Z := call (sys_write fd b).

(** *** printf.c: each character is written by itself *)

Inductive parg : Type := PInt (z : Z) | PStr (s : list Z).

Fixpoint putcs (fd : Z) (l : list Z) : U W unit :=
  match l with [] => mret tt | c :: l => _ ← write fd [c]; putcs fd l end.

(** The words on the stack, a string by its address, and the strings. *)
Definition pwords (args : list parg) : list Z :=
  imap (fun i a => match a with PInt z => z | PStr _ => Z.of_nat (S i) end) args.
Definition pstr (args : list parg) (p : Z) : list Z :=
  match args !! pred (Z.to_nat p) with Some (PStr s) => s | _ => [] end.
Definition uprintf (fd : Z) (fmt : list Z) (args : list parg) : U W unit :=
  putcs fd (printf (pstr args) fmt (pwords args)).

(** *** cat.c *)

Fixpoint cat_loop (fuel : nat) (fd : Z) : U W Z :=
  match fuel with
  | O => out_of_fuel
  | S fuel =>
      nb ← read fd 512;
      let '(n, buf) := nb : Z * list Z in
      if 0 <? n then
        r ← write 1 (take (Z.to_nat n) buf);
        if negb (r =? n) then uprintf 1 (line "cat: write error") [];; exit
        else cat_loop fuel fd
      else mret n
  end.
Definition cat (fuel : nat) (fd : Z) : U W unit :=
  n ← cat_loop fuel fd;
  if n <? 0 then uprintf 1 (line "cat: read error") [];; exit else mret tt.

Fixpoint cat_args (fuel : nat) (args : list (list Z)) : U W unit :=
  match args with
  | [] => mret tt
  | a :: args =>
      fd ← call (sys_open a 0);
      if fd <? 0 then uprintf 1 (line "cat: cannot open %s") [PStr a];; exit else
      cat fuel fd;;
      _ ← call (sys_close fd);
      cat_args fuel args
  end.
(** [main]; [argv] is the arguments after the program's name. *)
Definition cat_main (fuel : nat) (argv : list (list Z)) : U W unit :=
  match argv with
  | [] => cat fuel 0;; exit
  | _ => cat_args fuel argv;; exit
  end.

(** *** wc.c *)

Record counts : Type := mkcounts { wl : Z; ww : Z; wch : Z; inword : bool }.

(** [strchr(" \r\t\n\v", buf[i])] *)
Definition is_space (ch : Z) : bool :=
  match strchr 6 (fun i => nth i [32; 13; 9; 10; 11] 0) ch with Some (Some _) => true | _ => false end.

Definition wc_char (s : counts) (ch : Z) : counts :=
  let c := s32 (wch s + 1) in
  let l := if ch =? 10 then s32 (wl s + 1) else wl s in
  if is_space ch then mkcounts l (ww s) c false
  else if negb (inword s) then mkcounts l (s32 (ww s + 1)) c true
  else mkcounts l (ww s) c (inword s).

Fixpoint wc_loop (fuel : nat) (fd : Z) (s : counts) : U W (Z * counts) :=
  match fuel with
  | O => out_of_fuel
  | S fuel =>
      nb ← read fd 512;
      let '(n, buf) := nb : Z * list Z in
      if 0 <? n then wc_loop fuel fd (foldl wc_char s (take (Z.to_nat n) buf)) else mret (n, s)
  end.
Definition wc (fuel : nat) (fd : Z) (name : list Z) : U W unit :=
  ns ← wc_loop fuel fd (mkcounts 0 0 0 false);
  let '(n, s) := ns : Z * counts in
  if n <? 0 then uprintf 1 (line "wc: read error") [];; exit else
  uprintf 1 (line "%d %d %d %s") [PInt (wl s); PInt (ww s); PInt (wch s); PStr name].

Fixpoint wc_args (fuel : nat) (args : list (list Z)) : U W unit :=
  match args with
  | [] => mret tt
  | a :: args =>
      fd ← call (sys_open a 0);
      if fd <? 0 then uprintf 1 (line "wc: cannot open %s") [PStr a];; exit else
      wc fuel fd a;;
      _ ← call (sys_close fd);
      wc_args fuel args
  end.
Definition wc_main (fuel : nat) (argv : list (list Z)) : U W unit :=
  match argv with
  | [] => wc fuel 0 [];; exit
  | _ => wc_args fuel argv;; exit
  end.

(** *** echo.c *)

Fixpoint echo_args (args : list (list Z)) : U W unit :=
  match args with
  | [] => mret tt
  | a :: args =>
      uprintf 1 (chars "%s%s") [PStr a; PStr (match args with [] => [10] | _ => [32] end)];;
      echo_args args
  end.
Definition echo_main (argv : list (list Z)) : U W unit := echo_args argv;; exit.

(** *** ls.c *)

(** [for(p=path+strlen(path); p >= path && *p != '/'; p--); p++;] from [path + n]: the index [p]. *)
Fixpoint last_slash (path : list Z) (n : nat) : nat :=
  if nth n path 0 =? 47 then S n else match n with O => O | S n => last_slash path n end.
Definition fmtname (path : list Z) : list Z :=
  let p := drop (last_slash path (length path)) path in
  if (DIRSIZ <=? length p)%nat then p else p ++ replicate (DIRSIZ - length p) 32.

(** The C string at the start of a buffer. *)
Fixpoint upto0 (b : list Z) : list Z :=
  match b with [] => [] | c :: b => if c =? 0 then [] else c :: upto0 b end.

Definition fstat (fd : Z) : U W (Z * ustat) := fun w => let '(r, st, w) := sys_fstat fd w in UDone (r, st) w.

(** [stat] of ulib.c *)
Definition stat (n : list Z) : U W (Z * ustat) :=
  fd ← call (sys_open n O_RDONLY);
  if fd <? 0 then mret (-1, mkustat 0 0 0 0 0) else
  r ← fstat fd;
  _ ← call (sys_close fd);
  mret r.

Definition show (path : list Z) (st : ustat) : U W unit :=
  uprintf 1 (line "%s %d %d %d") [PStr (fmtname path); PInt (st_type st); PInt (st_ino st); PInt (st_size st)].

(** The loop over the entries of a directory, sixteen bytes each. *)
Fixpoint ls_loop (fuel : nat) (fd : Z) (path : list Z) : U W unit :=
  match fuel with
  | O => out_of_fuel
  | S fuel =>
      nb ← read fd 16;
      let '(n, de) := nb : Z * list Z in
      if n =? 16 then
        if nth 0 de 0 + 256 * nth 1 de 0 =? 0 then ls_loop fuel fd path else
        let buf := upto0 (path ++ [47] ++ take DIRSIZ (drop 2 de) ++ [0]) in
        rs ← stat buf;
        let '(r, st) := rs : Z * ustat in
        (if r <? 0 then uprintf 1 (line "ls: cannot stat %s") [PStr buf] else show buf st);;
        ls_loop fuel fd path
      else mret tt
  end.

Definition ls (fuel : nat) (path : list Z) : U W unit :=
  fd ← call (sys_open path 0);
  if fd <? 0 then uprintf 2 (line "ls: cannot open %s") [PStr path] else
  rs ← fstat fd;
  let '(r, st) := rs : Z * ustat in
  if r <? 0 then uprintf 2 (line "ls: cannot stat %s") [PStr path];; _ ← call (sys_close fd); mret tt else
  (if st_type st =? T_FILE then show path st
   else if st_type st =? T_DIR then
     if (512 <? length path + 1 + DIRSIZ + 1)%nat then uprintf 1 (line "ls: path too long") []
     else ls_loop fuel fd path
   else mret tt);;
  _ ← call (sys_close fd);
  mret tt.

Fixpoint ls_args (fuel : nat) (args : list (list Z)) : U W unit :=
  match args with [] => mret tt | a :: args => ls fuel a;; ls_args fuel args end.
Definition ls_main (fuel : nat) (argv : list (list Z)) : U W unit :=
  match argv with
  | [] => ls fuel (chars ".");; exit
  | _ => ls_args fuel argv;; exit
  end.

(** *** ln.c, mkdir.c, rm.c, kill.c *)

Definition ln_main (argv : list (list Z)) : U W unit :=
  match argv with
  | [old; new] =>
      r ← call (sys_link old new);
      (if r <? 0 then uprintf 2 (line "link %s %s: failed") [PStr old; PStr new] else mret tt);;
      exit
  | _ => uprintf 2 (line "Usage: ln old new") [];; exit
  end.

(** The arguments in order, up to the first for which the call fails. *)
Fixpoint mkdir_args (args : list (list Z)) : U W unit :=
  match args with
  | [] => mret tt
  | a :: args =>
      r ← call (sys_mkdir a);
      if r <? 0 then uprintf 2 (line "mkdir: %s failed to create") [PStr a] else mkdir_args args
  end.
Definition mkdir_main (argv : list (list Z)) : U W unit :=
  match argv with
  | [] => uprintf 2 (line "Usage: mkdir files...") [];; exit
  | _ => mkdir_args argv;; exit
  end.

Fixpoint rm_args (args : list (list Z)) : U W unit :=
  match args with
  | [] => mret tt
  | a :: args =>
      r ← call (sys_unlink a);
      if r <? 0 then uprintf 2 (line "rm: %s failed to delete") [PStr a] else rm_args args
  end.
Definition rm_main (argv : list (list Z)) : U W unit :=
  match argv with
  | [] => uprintf 2 (line "Usage: rm files...") [];; exit
  | _ => rm_args argv;; exit
  end.

Definition atoi_of (a : list Z) : Z := default 0 (atoi (S (length a)) (fun i => nth i a 0) 0).
Fixpoint kill_args (args : list (list Z)) : U W unit :=
  match args with [] => mret tt | a :: args => _ ← call (sys_kill (atoi_of a)); kill_args args end.
Definition kill_main (argv : list (list Z)) : U W unit :=
  match argv with
  | [] => uprintf 2 (line "usage: kill pid...") [];; exit
  | _ => kill_args argv;; exit
  end.

(** *** date.c, zombie.c *)

Definition date_main : U W unit :=
  rd ← (fun w => let '(r, d, w) := sys_date w in UDone (r, d) w);
  let '(r, d) := rd : Z * rtcdate in
  if negb (r =? 0) then uprintf 2 (line "date failed") [];; exit else
  uprintf 1 (line "Current Date and Time: Day:%d Month:%d Year:%d,  %d:%d:%d")
    [PInt (r_day d); PInt (r_month d); PInt (r_year d); PInt (r_hour d); PInt (r_minute d); PInt (r_second d)];;
  exit.

Definition zombie_main : U W unit :=
  pid ← call sys_fork;
  (if 0 <? pid then _ ← call (sys_sleep 5); mret tt else mret tt);;
  exit.

(** *** init.c *)

(** [while((wpid=wait()) >= 0 && wpid != pid)] *)
Fixpoint init_wait (fuel : nat) (pid : Z) : U W unit :=
  match fuel with
  | O => out_of_fuel
  | S fuel =>
      wpid ← call sys_wait;
      if ((0 <=? wpid) && negb (wpid =? pid))%bool then uprintf 1 (line "zombie!") [];; init_wait fuel pid
      else mret tt
  end.

(** A round of [for(;;)]; [exec] returns only when it fails. *)
Definition init_round (fuel : nat) : U W unit :=
  uprintf 1 (line "init: starting sh") [];;
  pid ← call sys_fork;
  if pid <? 0 then uprintf 1 (line "init: fork failed") [];; exit
  else if pid =? 0 then
    _ ← call (sys_exec (chars "sh") [chars "sh"]);
    uprintf 1 (line "init: exec sh failed") [];; exit
  else init_wait fuel pid.

Fixpoint init_loop (fuel : nat) : U W unit :=
  match fuel with O => out_of_fuel | S n => init_round fuel;; init_loop n end.
Definition init_main (fuel : nat) : U W unit :=
  fd ← call (sys_open (chars "console") O_RDWR);
  (if fd <? 0 then
     _ ← call (sys_mknod (chars "console") 1 1);
     _ ← call (sys_open (chars "console") O_RDWR);
     mret tt
   else mret tt);;
  _ ← call (sys_dup 0);  (* stdout *)
  _ ← call (sys_dup 0);  (* stderr *)
  init_loop fuel.

(** *** forktest.c: its [printf] writes the format as it is *)

Definition ft_printf (fd : Z) (s : list Z) : U W unit := _ ← write fd s; mret tt.

(** The first loop; at most [k] processes more, [n] made already. *)
Fixpoint fork_loop (k : nat) (n : Z) : U W Z :=
  match k with
  | O => mret n
  | S k =>
      pid ← call sys_fork;
      if pid <? 0 then mret n else if pid =? 0 then exit else fork_loop k (n + 1)
  end.
Fixpoint wait_loop (n : nat) : U W unit :=
  match n with
  | O => mret tt
  | S n => r ← call sys_wait; if r <? 0 then ft_printf 1 (line "wait stopped early");; exit else wait_loop n
  end.
Definition forktest : U W unit :=
  ft_printf 1 (line "fork test");;
  n ← fork_loop (Z.to_nat 1000) 0;
  if n =? 1000 then ft_printf 1 (line "fork claimed to work N times!");; exit else
  wait_loop (Z.to_nat n);;
  r ← call sys_wait;
  if negb (r =? -1) then ft_printf 1 (line "wait got too many");; exit else
  ft_printf 1 (line "fork test OK").
Definition forktest_main : U W unit := forktest;; exit.

End Code.
End Utils.
