(* ===== verification/UtilsSpec.v ===== *)
(** * What the user programs print

    The laws of the system calls as a process sees them, and the outputs of the programs of
    Utils.v proved from them; then worlds in which the laws hold. *)

From S2P Require Export Utils.
Local Open Scope Z_scope.

(** What a program does from [w]: [Q] if it goes on, [E] if it exits. *)
Definition utri {W A} (m : U W A) (w : W) (Q : A -> W -> Prop) (E : W -> Prop) : Prop :=
  match m w with UDone a w' => Q a w' | UExit w' => E w' | UFuel _ => False end.

Lemma utri_bind {W A B} (m : U W A) (f : A -> U W B) w Q E :
  utri m w (fun a w' => utri (f a) w' Q E) E -> utri (m ≫= f) w Q E.
Proof. unfold utri, mbind, U_bind. by destruct (m w). Qed.

Lemma utri_ret {W A} (a : A) (w : W) (Q : A -> W -> Prop) E : Q a w -> utri (mret a) w Q E.
Proof. done. Qed.

Lemma utri_exit {W A} (w : W) (Q : A -> W -> Prop) (E : W -> Prop) : E w -> utri exit w Q E.
Proof. done. Qed.

Lemma utri_mono {W A} (m : U W A) w (Q Q' : A -> W -> Prop) (E E' : W -> Prop) :
  utri m w Q E -> (forall a w', Q a w' -> Q' a w') -> (forall w', E w' -> E' w') -> utri m w Q' E'.
Proof. unfold utri. destruct (m w); auto. Qed.

(** Files are read to their end and then give nothing; a read of at least one byte gets at
    least one unless it is at the end, and may get fewer than asked for.  The outputs 1 and 2
    take everything, and are not among the files read.  [results] are the results of the
    calls of [wait] to come. *)
Class SysLaws (W : Type) `{!SysOps W} : Type := {
  unread : W -> Z -> option (list Z);
  sent : W -> Z -> list Z;
  contents : W -> list Z -> option (list Z);
  room : W -> nat;  (* descriptors that are free *)
  results : W -> list Z;
  law_read w fd n data : unread w fd = Some data -> (0 < n)%nat ->
    exists k w', sys_read fd n w = (Z.of_nat k, take k data, w') /\ (k <= n)%nat /\ (k <= length data)%nat /\
      (data <> [] -> (0 < k)%nat) /\ unread w' fd = Some (drop k data) /\ sent w' = sent w /\ contents w' = contents w /\
      room w' = room w;
  law_write w fd b : fd = 1 \/ fd = 2 ->
    exists w', sys_write fd b w = (Z.of_nat (length b), w') /\ sent w' fd = sent w fd ++ b /\
      (forall fd', fd' <> fd -> sent w' fd' = sent w fd') /\ unread w' = unread w /\ contents w' = contents w /\
      room w' = room w /\ results w' = results w;
  law_open w path data : contents w path = Some data -> (0 < room w)%nat ->
    exists fd w', sys_open path 0 w = (fd, w') /\ 0 <= fd /\ unread w' fd = Some data /\ sent w' = sent w /\
      contents w' = contents w /\ S (room w') = room w;
  law_no_file w path : contents w path = None -> exists fd, sys_open path 0 w = (fd, w) /\ fd < 0;
  law_close w fd data : unread w fd = Some data ->
    exists r w', sys_close fd w = (r, w') /\ sent w' = sent w /\ contents w' = contents w /\ room w' = S (room w);
  law_wait w r l : results w = r :: l ->
    exists w', sys_wait w = (r, w') /\ results w' = l /\ sent w' = sent w
}.

(** Processes as a parent sees them: [slots] can still be made, [kids] have not been waited for. *)
Class ForkLaws (W : Type) `{!SysOps W} : Type := {
  slots : W -> nat;
  kids : W -> nat;
  shown_text : W -> list Z;
  law_fork w n : slots w = S n -> exists pid w', sys_fork w = (pid, w') /\ 0 < pid /\ slots w' = n /\ kids w' = S (kids w) /\
    shown_text w' = shown_text w;
  law_full w : slots w = 0%nat -> sys_fork w = (-1, w);
  law_reap w n : kids w = S n -> exists pid w', sys_wait w = (pid, w') /\ 0 <= pid /\ kids w' = n /\ shown_text w' = shown_text w;
  law_none w : kids w = 0%nat -> sys_wait w = (-1, w);
  law_show w b : exists r w', sys_write 1 b w = (r, w') /\ shown_text w' = shown_text w ++ b /\ slots w' = slots w /\ kids w' = kids w
}.

Module UtilsSpec.
Import CString Printf Utils.

Section Spec.
Context {W : Type} `{!SysOps W} `{!SysLaws W}.
Implicit Types w : W.

(** [w'] is [w] but for the bytes [b] more on the output [fd]. *)
Definition printed (w w' : W) (fd : Z) (b : list Z) : Prop :=
  sent w' fd = sent w fd ++ b /\ (forall fd', fd' <> fd -> sent w' fd' = sent w fd') /\ unread w' = unread w /\
  contents w' = contents w /\ room w' = room w /\ results w' = results w.

Lemma printed_nil w fd : printed w w fd [].
Proof. split_and!; try done. by rewrite app_nil_r. Qed.

Lemma printed_app w w1 w2 fd b1 b2 : printed w w1 fd b1 -> printed w1 w2 fd b2 -> printed w w2 fd (b1 ++ b2).
Proof.
  intros (A1 & A2 & A3 & A4 & A5 & A6) (B1 & B2 & B3 & B4 & B5 & B6).
  split_and!; [rewrite B1, A1; by rewrite app_assoc|intros fd' H; by rewrite B2, A2|congruence..].
Qed.

Lemma write_utri fd b w Q E :
  fd = 1 \/ fd = 2 -> (forall w', printed w w' fd b -> Q (Z.of_nat (length b)) w') -> utri (write fd b) w Q E.
Proof.
  intros Hfd HQ. destruct (law_write w fd b Hfd) as (w' & Hr & H). unfold utri, write, call. rewrite Hr. by apply HQ.
Qed.

Lemma putcs_utri fd l : forall w Q E,
  fd = 1 \/ fd = 2 -> (forall w', printed w w' fd l -> Q tt w') -> utri (putcs fd l) w Q E.
Proof.
  induction l as [|c l IH]; intros w Q E Hfd HQ; cbn [putcs].
  - apply utri_ret, HQ, printed_nil.
  - apply utri_bind, write_utri; [done|]. intros w1 H1. apply IH; [done|]. intros w2 H2. apply HQ.
    change (c :: l) with ([c] ++ l). by eapply printed_app.
Qed.

Lemma uprintf_utri fd fmt args w Q E :
  fd = 1 \/ fd = 2 -> (forall w', printed w w' fd (printf (pstr args) fmt (pwords args)) -> Q tt w') ->
  utri (uprintf fd fmt args) w Q E.
Proof. apply putcs_utri. Qed.

(** ** cat *)

(** [w'] is [w] after [b] more on the output 1, as far as the files are concerned. *)
Definition output (w w' : W) (b : list Z) : Prop :=
  sent w' 1 = sent w 1 ++ b /\ contents w' = contents w /\ room w' = room w.

Lemma output_app w w1 w2 b1 b2 : output w w1 b1 -> output w1 w2 b2 -> output w w2 (b1 ++ b2).
Proof. intros (A1 & A2 & A3) (B1 & B2 & B3). split_and!; [by rewrite B1, A1, app_assoc|congruence..]. Qed.

Lemma printed_output w w' b : printed w w' 1 b -> output w w' b.
Proof. intros (H1 & _ & _ & H4 & H5 & _). by split_and!. Qed.

Lemma cat_loop_utri fuel : forall fd data w,
  unread w fd = Some data -> (length data < fuel)%nat ->
  utri (cat_loop fuel fd) w (fun n w' => n = 0 /\ unread w' fd = Some [] /\ output w w' data) (fun _ => False).
Proof.
  induction fuel as [|fuel IH]; intros fd data w Hu Hf; [lia|]. cbn [cat_loop].
  destruct (law_read w fd 512 data Hu ltac:(lia)) as (k & w1 & Hr & Hk & Hkl & Hpos & Hu1 & Hs1 & Hc1 & Hro1).
  apply utri_bind. unfold utri at 1, read. rewrite Hr. destruct (decide (data = [])) as [->|Hne].
  - assert (k = 0%nat) as -> by (cbn in Hkl; lia). cbn [Z.ltb Z.compare Z.of_nat]. apply utri_ret. split; [done|].
    split; [done|]. split_and!; [by rewrite Hs1, app_nil_r|done|done].
  - specialize (Hpos Hne). rewrite (proj2 (Z.ltb_lt _ _)) by lia. rewrite Nat2Z.id, take_take, Nat.min_id.
    apply utri_bind, write_utri; [by left|]. intros w2 Hp. rewrite length_take, Nat.min_l by lia. rewrite Z.eqb_refl. cbn [negb].
    eapply utri_mono; [apply (IH fd (drop k data) w2)| |done].
    + destruct Hp as (_ & _ & Hp & _). by rewrite Hp.
    + rewrite length_drop. lia.
    + intros n w3 (-> & Hu3 & Ho3). split; [done|]. split; [done|]. rewrite <- (take_drop k data). eapply output_app; [|exact Ho3].
      apply printed_output in Hp as (P1 & P2 & P3). split_and!; [by rewrite P1, Hs1|congruence|congruence].
Qed.

Lemma cat_utri fuel fd data w :
  unread w fd = Some data -> (length data < fuel)%nat ->
  utri (cat fuel fd) w (fun _ w' => unread w' fd = Some [] /\ output w w' data) (fun _ => False).
Proof.
  intros Hu Hf. apply utri_bind. eapply utri_mono; [by apply (cat_loop_utri fuel fd data)| |done].
  intros n w' (-> & H). by apply utri_ret.
Qed.

(** Each argument is opened, given to [body], and closed. *)
Lemma each_file (body : Z -> U W unit) path data text w (k : U W unit) Q E :
  contents w path = Some data -> (0 < room w)%nat ->
  (forall fd w1, unread w1 fd = Some data -> utri (body fd) w1 (fun _ w2 => unread w2 fd = Some [] /\ output w1 w2 text) (fun _ => False)) ->
  (forall w', output w w' text -> utri k w' Q E) ->
  forall bad : U W unit,
  utri (fd ← call (sys_open path 0); if fd <? 0 then bad else body fd;; _ ← call (sys_close fd); k) w Q E.
Proof.
  intros Hc Hroom Hb Hk bad. destruct (law_open w path data Hc Hroom) as (fd & w1 & Hr & Hfd & Hu & Hs & Hc1 & Hro).
  apply utri_bind. unfold utri at 1, call. rewrite Hr. rewrite (proj2 (Z.ltb_ge _ _)) by lia. apply utri_bind.
  eapply utri_mono; [by apply (Hb fd w1)| |done]. intros [] w2 (Hu2 & H1 & H2 & H3). apply utri_bind.
  destruct (law_close w2 fd [] Hu2) as (r & w3 & Hr3 & Hs3 & Hc3 & Hro3). unfold utri at 1, call. rewrite Hr3. apply Hk.
  split_and!; [rewrite Hs3, H1; by rewrite Hs|congruence|lia].
Qed.

Lemma cat_args_utri fuel paths : forall datas w Q E,
  Forall2 (fun p d => contents w p = Some d /\ (length d < fuel)%nat) paths datas -> (0 < room w)%nat ->
  (forall w', output w w' (concat datas) -> Q tt w') -> utri (cat_args fuel paths) w Q E.
Proof.
  induction paths as [|p paths IH]; intros datas w Q E HF Hroom HQ; cbn [cat_args].
  - apply Forall2_nil_inv_l in HF as ->. apply utri_ret, HQ. split_and!; [by rewrite app_nil_r|done|done].
  - apply Forall2_cons_inv_l in HF as (d & ds & [Hc Hl] & HF & ->).
    eapply (each_file (cat fuel) p d d); [done|done|intros; by apply cat_utri|]. intros w1 Ho. pose proof Ho as (_ & Hc1 & Hr1).
    apply (IH ds); [by rewrite Hc1|by rewrite Hr1|]. intros w2 Ho2. apply HQ. cbn [concat]. by eapply output_app.
Qed.

(** [cat] with files as arguments writes their contents, one after the other and nothing
    else, to its output, and exits; whatever pieces [read] returns them in. *)
Theorem cat_copies fuel paths datas w :
  paths <> [] -> Forall2 (fun p d => contents w p = Some d /\ (length d < fuel)%nat) paths datas -> (0 < room w)%nat ->
  utri (cat_main fuel paths) w (fun _ _ => False) (fun w' => sent w' 1 = sent w 1 ++ concat datas).
Proof.
  intros Hne HF Hroom. destruct paths as [|p paths]; [done|]. unfold cat_main. apply utri_bind.
  eapply cat_args_utri; [exact HF|done|]. intros w' (H & _). by apply utri_exit.
Qed.

(** ** wc *)

(** What separates words: tab, newline, vertical tab, carriage return and space. *)
Definition separator (c : Z) : bool := bool_decide (c ∈ [9; 10; 11; 13; 32]).

Lemma is_space_separator c : is_space c = separator c.
Proof.
  unfold is_space, separator. cbn [strchr nth]. change (32 =? 0) with false. change (13 =? 0) with false. change (9 =? 0) with false.
  change (10 =? 0) with false. change (11 =? 0) with false. change (0 =? 0) with true. cbv iota.
  repeat match goal with |- context [?a =? c] => destruct (Z.eqb_spec a c); [subst; reflexivity|] end.
  symmetry. apply bool_decide_eq_false_2. rewrite !not_elem_of_cons. split_and!; try congruence. apply not_elem_of_nil.
Qed.

(** The words of a text: what is left between the spaces. *)
Definition split : list Z -> list (list Z) :=
  foldr (fun c acc => if separator c then [] :: acc else match acc with h :: t => (c :: h) :: t | [] => [[c]] end) [[]].
Definition words (l : list Z) : list (list Z) := filter (fun x => x <> []) (split l).
Definition lines (l : list Z) : list Z := filter (fun c => c = 10) l.

(** The words that begin in [l], when the character before is in a word or not. *)
Definition new_words (inw : bool) (l : list Z) : nat :=
  match split l with
  | h :: t => (if inw then 0 else if decide (h = []) then 0 else 1) + length (filter (fun x => x <> []) t)
  | [] => 0
  end%nat.

Lemma split_step c l :
  split (c :: l) = if separator c then [] :: split l else match split l with h :: t => (c :: h) :: t | [] => [[c]] end.
Proof. done. Qed.

Lemma split_cons l : exists h t, split l = h :: t.
Proof. destruct l as [|c l]; [by eexists _, _|]. rewrite split_step. destruct (separator c), (split l); by eexists _, _. Qed.

Lemma new_words_false l : new_words false l = length (words l).
Proof.
  unfold new_words, words. destruct (split_cons l) as (h & t & ->). rewrite filter_cons.
  destruct (decide (h = [])) as [->|Hne]; [by rewrite decide_False by tauto|by rewrite decide_True by done].
Qed.

Lemma new_words_cons inw c l :
  new_words inw (c :: l) = if separator c then new_words false l else ((if inw then 0 else 1) + new_words true l)%nat.
Proof.
  unfold new_words at 1. rewrite split_step.
  destruct (separator c).
  - rewrite new_words_false. unfold words. by destruct inw.
  - unfold new_words. destruct (split_cons l) as (h & t & ->). rewrite decide_False by done. by destruct inw.
Qed.

Lemma new_words_le inw l : (new_words inw l <= length l)%nat.
Proof.
  revert inw. induction l as [|c l IH]; intros inw; [unfold new_words; cbn; by destruct inw|]. rewrite new_words_cons. cbn [length].
  destruct (separator c); [specialize (IH false); lia|]. specialize (IH true). destruct inw; lia.
Qed.

Lemma wc_chars_spec l : forall s,
  0 <= wl s -> 0 <= ww s -> 0 <= wch s ->
  wl s + Z.of_nat (length l) < 2 ^ 31 -> ww s + Z.of_nat (length l) < 2 ^ 31 -> wch s + Z.of_nat (length l) < 2 ^ 31 ->
  let s' := foldl wc_char s l in
  wl s' = wl s + Z.of_nat (length (lines l)) /\ ww s' = ww s + Z.of_nat (new_words (inword s) l) /\
  wch s' = wch s + Z.of_nat (length l).
Proof.
  induction l as [|c l IH]; intros s H1 H2 H3 B1 B2 B3; cbn [foldl length lines] in *.
  { change (length (lines [])) with 0%nat. replace (new_words (inword s) []) with 0%nat by (by destruct (inword s)). lia. }
  rewrite new_words_cons. unfold lines. rewrite filter_cons.
  assert (s32 (wl s + 1) = wl s + 1 /\ s32 (ww s + 1) = ww s + 1 /\ s32 (wch s + 1) = wch s + 1) as (E1 & E2 & E3)
    by (split_and!; apply s32_small; lia).
  set (s1 := wc_char s c).
  assert (wl s1 = wl s + (if decide (c = 10) then 1 else 0) /\
    ww s1 = ww s + (if separator c then 0 else if inword s then 0 else 1) /\ wch s1 = wch s + 1 /\
    inword s1 = negb (separator c)) as (F1 & F2 & F3 & F4).
  { unfold s1, wc_char. rewrite is_space_separator, E1, E2, E3. destruct (Z.eqb_spec c 10) as [->|Hc]; [rewrite decide_True by done|rewrite decide_False by done].
    - change (separator 10) with true. cbn. lia.
    - destruct (separator c); [cbn; lia|]. destruct (inword s) eqn:Ei; cbn; rewrite ?Ei; lia. }
  specialize (IH s1). rewrite F1, F2, F3, F4 in IH.
  destruct (separator c) eqn:Es; cbn [negb] in IH; destruct (inword s), (decide (c = 10)); cbn [length] in *;
    unfold lines in IH; destruct IH as (G1 & G2 & G3); lia.
Qed.

(** A line that [wc] prints. *)
Definition wc_line (name data : list Z) : list Z :=
  printint (Z.of_nat (length (lines data))) 10 true ++ [32] ++ printint (Z.of_nat (length (words data))) 10 true ++ [32] ++
  printint (Z.of_nat (length data)) 10 true ++ [32] ++ name ++ [10].

Lemma wc_loop_utri fuel : forall fd data s w,
  unread w fd = Some data -> (length data < fuel)%nat ->
  utri (wc_loop fuel fd s) w (fun ns w' => ns = (0, foldl wc_char s data) /\ unread w' fd = Some [] /\ output w w' []) (fun _ => False).
Proof.
  induction fuel as [|fuel IH]; intros fd data s w Hu Hf; [lia|]. cbn [wc_loop].
  destruct (law_read w fd 512 data Hu ltac:(lia)) as (k & w1 & Hr & Hk & Hkl & Hpos & Hu1 & Hs1 & Hc1 & Hro1).
  apply utri_bind. unfold utri at 1, read. rewrite Hr. destruct (decide (data = [])) as [->|Hne].
  - assert (k = 0%nat) as -> by (cbn in Hkl; lia). cbn [Z.ltb Z.compare Z.of_nat]. apply utri_ret. split; [done|].
    split; [done|]. split_and!; [by rewrite Hs1, app_nil_r|done|done].
  - specialize (Hpos Hne). rewrite (proj2 (Z.ltb_lt _ _)) by lia. rewrite Nat2Z.id, take_take, Nat.min_id.
    eapply utri_mono; [apply (IH fd (drop k data) _ w1 Hu1)| |done]; [rewrite length_drop; lia|].
    intros [n s'] w2 (E & Hu2 & O1 & O2 & O3). injection E as -> ->.
    split; [by rewrite <- foldl_app, take_drop|]. split; [done|]. split_and!; [by rewrite O1, Hs1|congruence|congruence].
Qed.

Lemma wc_format a b c name :
  let args := [PInt a; PInt b; PInt c; PStr name] in
  printf (pstr args) (line "%d %d %d %s") (pwords args) =
  printint (s32 a) 10 true ++ [32] ++ printint (s32 b) 10 true ++ [32] ++ printint (s32 c) 10 true ++ [32] ++ name ++ [10].
Proof. reflexivity. Qed.

Lemma wc_utri fuel fd name data w :
  unread w fd = Some data -> (length data < fuel)%nat -> Z.of_nat (length data) < 2 ^ 31 ->
  utri (wc fuel fd name) w (fun _ w' => unread w' fd = Some [] /\ output w w' (wc_line name data)) (fun _ => False).
Proof.
  intros Hu Hf Hb. apply utri_bind. eapply utri_mono; [by apply (wc_loop_utri fuel fd data)| |done].
  intros [n s] w1 (E & Hu1 & Ho). injection E as -> ->. cbn [Z.ltb Z.compare].
  destruct (wc_chars_spec data (mkcounts 0 0 0 false)) as (G1 & G2 & G3); [cbn; lia..|]. cbn [wl ww wch inword] in *.
  rewrite new_words_false in G2. pose proof (new_words_le false data) as Hle. rewrite new_words_false in Hle.
  assert (length (lines data) <= length data)%nat as Hll by (unfold lines; apply length_filter).
  apply uprintf_utri; [by left|]. intros w2 Hp. pose proof Hp as (_ & _ & Hun & _). split; [by rewrite Hun|].
  change (wc_line name data) with ([] ++ wc_line name data). eapply output_app; [exact Ho|]. apply printed_output in Hp.
  rewrite wc_format, G1, G2, G3, !Z.add_0_l, !s32_small in Hp by lia. exact Hp.
Qed.

Lemma wc_args_utri fuel paths : forall datas w Q E,
  Forall2 (fun p d => contents w p = Some d /\ (length d < fuel)%nat /\ Z.of_nat (length d) < 2 ^ 31) paths datas -> (0 < room w)%nat ->
  (forall w', output w w' (concat (zip_with wc_line paths datas)) -> Q tt w') -> utri (wc_args fuel paths) w Q E.
Proof.
  induction paths as [|p paths IH]; intros datas w Q E HF Hroom HQ; cbn [wc_args].
  - apply Forall2_nil_inv_l in HF as ->. apply utri_ret, HQ. split_and!; [by rewrite app_nil_r|done|done].
  - apply Forall2_cons_inv_l in HF as (d & ds & (Hc & Hl & Hb) & HF & ->).
    eapply (each_file (fun fd => wc fuel fd p) p d (wc_line p d)); [done|done|intros; by apply wc_utri|]. intros w1 Ho. pose proof Ho as (_ & Hc1 & Hr1).
    apply (IH ds); [by rewrite Hc1|by rewrite Hr1|]. intros w2 Ho2. apply HQ. cbn [zip_with concat]. by eapply output_app.
Qed.

(** C40: [wc] with files as arguments prints, for each, the number of its lines, of its words
    (the non-empty pieces between tabs, newlines, vertical tabs, carriage returns and
    spaces) and of its characters, and its name; whatever pieces [read] returns the file
    in, within a word included. *)
Theorem wc_counts fuel paths datas w :
  paths <> [] ->
  Forall2 (fun p d => contents w p = Some d /\ (length d < fuel)%nat /\ Z.of_nat (length d) < 2 ^ 31) paths datas -> (0 < room w)%nat ->
  utri (wc_main fuel paths) w (fun _ _ => False) (fun w' => sent w' 1 = sent w 1 ++ concat (zip_with wc_line paths datas)).
Proof.
  intros Hne HF Hroom. destruct paths as [|p paths]; [done|]. unfold wc_main. apply utri_bind.
  eapply wc_args_utri; [exact HF|done|]. intros w' (H & _). by apply utri_exit.
Qed.

(** ** echo *)

Fixpoint echo_text (args : list (list Z)) : list Z :=
  match args with
  | [] => []
  | [a] => a ++ [10]
  | a :: args => a ++ [32] ++ echo_text args
  end.

Lemma echo_format a b : printf (pstr [PStr a; PStr b]) (chars "%s%s") (pwords [PStr a; PStr b]) = a ++ b ++ [].
Proof. reflexivity. Qed.

Lemma echo_args_utri args : forall w Q E,
  (forall w', printed w w' 1 (echo_text args) -> Q tt w') -> utri (echo_args args) w Q E.
Proof.
  induction args as [|a args IH]; intros w Q E HQ; cbn [echo_args].
  - apply utri_ret, HQ, printed_nil.
  - apply utri_bind, uprintf_utri; [by left|]. intros w1 H1. rewrite echo_format, app_nil_r in H1. apply IH. intros w2 H2. apply HQ.
    destruct args as [|b args]; cbn [echo_text] in *.
    + rewrite <- (app_nil_r (a ++ [10])). by eapply printed_app.
    + rewrite app_assoc. by eapply printed_app.
Qed.

(** [echo] prints its arguments, with a space between two and a newline at the end. *)
Theorem echo_prints args w :
  utri (echo_main args) w (fun _ _ => False) (fun w' => sent w' 1 = sent w 1 ++ echo_text args).
Proof. apply utri_bind, echo_args_utri. intros w' (H & _). by apply utri_exit. Qed.

(** ** init *)

(** Waiting for the shell [pid], [init] reports each other process that ends, once. *)
Theorem init_reaps fuel pid zs rest w :
  results w = zs ++ pid :: rest -> 0 <= pid -> Forall (fun z => 0 <= z /\ z <> pid) zs -> (length zs < fuel)%nat ->
  utri (init_wait fuel pid) w (fun _ w' => results w' = rest /\
    sent w' 1 = sent w 1 ++ concat (replicate (length zs) (line "zombie!"))) (fun _ => False).
Proof.
  revert fuel w. induction zs as [|z zs IH]; intros fuel w Hr Hp HF Hf; destruct fuel as [|fuel]; cbn [length] in Hf; try lia;
    cbn [app] in Hr; destruct (law_wait w _ _ Hr) as (w1 & Hw & Hr1 & Hs1); cbn [init_wait]; apply utri_bind;
    unfold utri at 1, call; rewrite Hw.
  - rewrite Z.eqb_refl, andb_false_r. apply utri_ret. split; [done|]. by rewrite Hs1, app_nil_r.
  - apply Forall_cons in HF as [[Hz Hne] HF]. rewrite (proj2 (Z.leb_le _ _)), (proj2 (Z.eqb_neq _ _)) by done. cbn [negb andb].
    apply utri_bind, uprintf_utri; [by left|]. intros w2 (P1 & _ & _ & _ & _ & P6).
    eapply utri_mono; [apply (IH fuel w2); [congruence|done|done|lia]| |done]. intros [] w3 [Hr3 Hs3]. split; [done|].
    rewrite Hs3, P1, Hs1. cbn [length replicate concat]. by rewrite app_assoc.
Qed.

End Spec.

(** ** ls *)

Lemma last_slash_le path n : (last_slash path n <= S n)%nat.
Proof. induction n as [|n IH]; cbn [last_slash]; destruct (_ =? 47); lia. Qed.

Lemma last_slash_name (dir name : list Z) n :
  Forall (fun c => c <> 47) name -> (length dir <= n <= length dir + S (length name))%nat ->
  last_slash (dir ++ [47] ++ name) n = S (length dir).
Proof.
  intros Hn. induction n as [|n IH]; intros Hr.
  - assert (dir = []) as -> by (destruct dir; cbn in Hr; [done|lia]). done.
  - cbn [last_slash]. destruct (decide (S n = length dir)) as [E|E].
    + rewrite E. rewrite app_nth2, Nat.sub_diag by lia. done.
    + replace (nth (S n) (dir ++ [47] ++ name) 0 =? 47) with false; [apply IH; lia|]. symmetry. apply Z.eqb_neq.
      rewrite app_nth2 by lia. destruct (S n - length dir)%nat as [|k] eqn:Ek; [lia|]. cbn [app nth].
      destruct (decide (k < length name)%nat) as [Hk|Hk]; [|by rewrite nth_overflow by lia].
      rewrite Forall_forall in Hn. apply Hn. apply list_elem_of_In, nth_In. done.
Qed.

(** [fmtname] of a path is its last component, blank-padded to the width of a name. *)
Theorem fmtname_pads (dir name : list Z) :
  Forall (fun c => c <> 47) name -> (length name <= DIRSIZ)%nat ->
  fmtname (dir ++ [47] ++ name) = name ++ replicate (DIRSIZ - length name) 32 /\ length (fmtname (dir ++ [47] ++ name)) = DIRSIZ.
Proof.
  intros Hn Hl. unfold fmtname. rewrite last_slash_name by (done || (rewrite length_app; cbn [length app]; lia)).
  replace (drop (S (length dir)) (dir ++ [47] ++ name)) with name
    by (rewrite drop_app_ge by lia; by replace (S (length dir) - length dir)%nat with 1%nat by lia).
  destruct (Nat.leb_spec DIRSIZ (length name)) as [Hge|Hlt].
  - replace (DIRSIZ - length name)%nat with 0%nat by lia. rewrite app_nil_r. split; [done|lia].
  - split; [done|]. rewrite length_app, length_replicate. lia.
Qed.

Lemma fmtname_pads_witness : fmtname (chars "a/wc") = chars "wc            ".
Proof.
  destruct (fmtname_pads (chars "a") (chars "wc")) as [H _]; [repeat constructor; discriminate|apply Nat.leb_le; reflexivity|exact H].
Defined.

(** ** forktest *)

Section Fork.
Context {W : Type} `{!SysOps W} `{!ForkLaws W}.
Implicit Types w : W.

Lemma ft_printf_utri s w Q E :
  (forall w', shown_text w' = shown_text w ++ s -> slots w' = slots w -> kids w' = kids w -> Q tt w') -> utri (ft_printf 1 s) w Q E.
Proof. intros HQ. destruct (law_show w s) as (r & w' & Hr & H1 & H2 & H3). unfold utri, ft_printf, write, call, mbind, U_bind. rewrite Hr. by apply HQ. Qed.

Lemma fork_loop_utri k : forall n w Q E,
  (slots w < k)%nat ->
  (forall w', shown_text w' = shown_text w -> kids w' = (kids w + slots w)%nat -> Q (n + Z.of_nat (slots w)) w') ->
  utri (fork_loop k n) w Q E.
Proof.
  induction k as [|k IH]; intros n w Q E Hk HQ; [lia|]. cbn [fork_loop]. apply utri_bind. unfold utri at 1, call.
  destruct (slots w) as [|j] eqn:Hs.
  - rewrite law_full by done. cbn [Z.ltb Z.compare]. apply utri_ret. rewrite <- (Z.add_0_r n). apply HQ; [done|lia].
  - destruct (law_fork w j Hs) as (pid & w1 & Hr & Hp & Hs1 & Hk1 & Ht1). rewrite Hr.
    rewrite (proj2 (Z.ltb_ge _ _)), (proj2 (Z.eqb_neq _ _)) by lia. apply IH; [lia|]. intros w2 Ht2 Hk2.
    replace (n + 1 + Z.of_nat (slots w1)) with (n + Z.of_nat (S j)) by lia. apply HQ; [congruence|lia].
Qed.

Lemma wait_loop_utri k : forall w Q E,
  kids w = k -> (forall w', shown_text w' = shown_text w -> kids w' = 0%nat -> Q tt w') -> utri (wait_loop k) w Q E.
Proof.
  induction k as [|k IH]; intros w Q E Hk HQ; cbn [wait_loop]; [by apply utri_ret, HQ|]. apply utri_bind. unfold utri at 1, call.
  destruct (law_reap w k Hk) as (pid & w1 & Hr & Hp & Hk1 & Ht1). rewrite Hr. rewrite (proj2 (Z.ltb_ge _ _)) by lia.
  apply IH; [done|]. intros w2 Ht2 Hk2. apply HQ; [congruence|done].
Qed.

(** [forktest] reports success when processes can be made until there are no more, fewer
    than a thousand, and each can be waited for exactly once. *)
Theorem forktest_ok w :
  (slots w < Z.to_nat 1000)%nat -> kids w = 0%nat ->
  utri forktest_main w (fun _ _ => False) (fun w' => shown_text w' = shown_text w ++ line "fork test" ++ line "fork test OK").
Proof.
  intros Hs Hk. apply utri_bind. unfold forktest. apply utri_bind, ft_printf_utri. intros w1 T1 S1 K1.
  apply utri_bind, fork_loop_utri; [by rewrite S1|]. intros w2 T2 K2. rewrite (proj2 (Z.eqb_neq _ _)) by lia.
  apply utri_bind, wait_loop_utri; [rewrite K2; lia|]. intros w3 T3 K3. apply utri_bind. unfold utri at 1, call.
  rewrite law_none by done. cbn [negb Z.eqb]. apply ft_printf_utri. intros w4 T4 _ _. apply utri_exit.
  rewrite T4, T3, T2, T1. by rewrite <- app_assoc.
Qed.

End Fork.

End UtilsSpec.

(** ** Worlds *)

Module World.
Import CString Printf Utils UtilsSpec.

(** Files by name; [read] returns three bytes at most. *)
Record world : Type := mkworld {
  w_files : list (list Z * list Z); w_fds : Z -> option (list Z); w_sent : Z -> list Z;
  w_room : nat; w_next : nat; w_results : list Z }.

Definition upd {A} (f : Z -> A) (k : Z) (v : A) : Z -> A := fun x => if x =? k then v else f x.

Fixpoint assoc (l : list (list Z * list Z)) (p : list Z) : option (list Z) :=
  match l with [] => None | (q, d) :: l => if decide (p = q) then Some d else assoc l p end.

Definition w_read (fd : Z) (n : nat) (w : world) : Z * list Z * world :=
  match w_fds w fd with
  | None => (-1, [], w)
  | Some d =>
      let k := Nat.min (Nat.min n 3) (length d) in
      (Z.of_nat k, take k d, mkworld (w_files w) (upd (w_fds w) fd (Some (drop k d))) (w_sent w) (w_room w) (w_next w) (w_results w))
  end.
Definition w_write (fd : Z) (b : list Z) (w : world) : Z * world :=
  (Z.of_nat (length b), mkworld (w_files w) (w_fds w) (upd (w_sent w) fd (w_sent w fd ++ b)) (w_room w) (w_next w) (w_results w)).
Definition w_open (p : list Z) (flags : Z) (w : world) : Z * world :=
  match assoc (w_files w) p, w_room w with
  | Some d, S r => let fd := Z.of_nat (w_next w) in
      (fd, mkworld (w_files w) (upd (w_fds w) fd (Some d)) (w_sent w) r (S (w_next w)) (w_results w))
  | _, _ => (-1, w)
  end.
Definition w_close (fd : Z) (w : world) : Z * world :=
  match w_fds w fd with
  | None => (-1, w)
  | Some _ => (0, mkworld (w_files w) (upd (w_fds w) fd None) (w_sent w) (S (w_room w)) (w_next w) (w_results w))
  end.
Definition w_wait (w : world) : Z * world :=
  match w_results w with
  | [] => (-1, w)
  | r :: l => (r, mkworld (w_files w) (w_fds w) (w_sent w) (w_room w) (w_next w) l)
  end.
Definition fails (w : world) : Z * world := (-1, w).

#[export] Instance WorldOps : SysOps world := {|
  sys_read := w_read; sys_write := w_write; sys_open := w_open; sys_close := w_close; sys_wait := w_wait;
  sys_fstat := fun _ w => (-1, mkustat 0 0 0 0 0, w); sys_link := fun _ _ => fails; sys_unlink := fun _ => fails;
  sys_mkdir := fun _ => fails; sys_mknod := fun _ _ _ => fails; sys_dup := fun _ => fails; sys_kill := fun _ => fails;
  sys_fork := fails; sys_exec := fun _ _ => fails; sys_sleep := fun _ => fails;
  sys_date := fun w => (-1, mkrtcdate 0 0 0 0 0 0, w) |}.

Lemma upd_same {A} (f : Z -> A) k v : upd f k v k = v.
Proof. unfold upd. by rewrite Z.eqb_refl. Qed.

#[export] Instance WorldLaws : SysLaws world.
Proof.
  refine {| unread := w_fds; sent := w_sent; contents := fun w => assoc (w_files w); room := w_room; results := w_results |}.
  - intros w fd n data Hu Hn. cbn. unfold w_read. rewrite Hu. eexists _, _. split; [reflexivity|]. cbn [w_fds w_sent w_files w_room].
    rewrite upd_same. split_and!; try done; try lia. destruct data; [done|]. cbn [length]. lia.
  - intros w fd b _. cbn. eexists. split; [reflexivity|]. cbn. rewrite upd_same. split_and!; try done.
    intros fd' Hne. unfold upd. by rewrite (proj2 (Z.eqb_neq _ _)).
  - intros w p data Hc Hr. cbn. unfold w_open. rewrite Hc. destruct (w_room w) as [|r]; [lia|]. eexists _, _. split; [reflexivity|].
    cbn. rewrite upd_same. split_and!; done || lia.
  - intros w p Hc. cbn. unfold w_open. rewrite Hc. by eexists.
  - intros w fd data Hu. cbn. unfold w_close. rewrite Hu. eexists _, _. by split_and!.
  - intros w r l Hr. cbn. unfold w_wait. rewrite Hr. eexists. by split_and!.
Defined.

Definition w0 : world :=
  mkworld [(chars "a", line "one two"); (chars "b", chars "three")] (fun _ => None) (fun _ => []) 13 3 [7; 9; 4; 5].

Lemma cat_copies_witness :
  utri (cat_main 20 [chars "a"; chars "b"]) w0 (fun _ _ => False) (fun w' => sent w' 1 = sent w0 1 ++ concat [line "one two"; chars "three"]).
Proof.
  apply (cat_copies 20 [chars "a"; chars "b"] [line "one two"; chars "three"] w0); [discriminate| |apply Nat.ltb_lt; reflexivity].
  repeat constructor; apply Nat.ltb_lt; reflexivity.
Defined.

Lemma wc_counts_witness :
  utri (wc_main 20 [chars "a"; chars "b"]) w0 (fun _ _ => False)
    (fun w' => sent w' 1 = sent w0 1 ++ concat (zip_with wc_line [chars "a"; chars "b"] [line "one two"; chars "three"])).
Proof.
  apply (wc_counts 20 [chars "a"; chars "b"] [line "one two"; chars "three"] w0); [discriminate| |apply Nat.ltb_lt; reflexivity].
  repeat constructor; apply Nat.ltb_lt; reflexivity.
Defined.

(** The line for the first file. *)
Lemma wc_line_example : wc_line (chars "a") (line "one two") = line "1 2 8 a".
Proof. by vm_compute. Qed.

Lemma init_reaps_witness :
  utri (init_wait 10 4) w0 (fun _ w' => results w' = [5] /\
    sent w' 1 = sent w0 1 ++ concat (replicate (length [7; 9]) (line "zombie!"))) (fun _ => False).
Proof.
  apply (init_reaps 10 4 [7; 9] [5] w0); [reflexivity|discriminate|repeat constructor; discriminate|apply Nat.ltb_lt; reflexivity].
Defined.

(** A process table. *)
Record table : Type := mktable { t_slots : nat; t_kids : nat; t_text : list Z }.

#[export] Instance TableOps : SysOps table := {|
  sys_read := fun _ _ w => (-1, [], w); sys_write := fun _ b w => (Z.of_nat (length b), mktable (t_slots w) (t_kids w) (t_text w ++ b));
  sys_open := fun _ _ w => (-1, w); sys_close := fun _ w => (-1, w);
  sys_wait := fun w => match t_kids w with O => (-1, w) | S n => (Z.of_nat n, mktable (S (t_slots w)) n (t_text w)) end;
  sys_fstat := fun _ w => (-1, mkustat 0 0 0 0 0, w); sys_link := fun _ _ w => (-1, w); sys_unlink := fun _ w => (-1, w);
  sys_mkdir := fun _ w => (-1, w); sys_mknod := fun _ _ _ w => (-1, w); sys_dup := fun _ w => (-1, w); sys_kill := fun _ w => (-1, w);
  sys_fork := fun w => match t_slots w with O => (-1, w) | S n => (Z.of_nat (S n), mktable n (S (t_kids w)) (t_text w)) end;
  sys_exec := fun _ _ w => (-1, w); sys_sleep := fun _ w => (-1, w); sys_date := fun w => (-1, mkrtcdate 0 0 0 0 0 0, w) |}.

#[export] Instance TableLaws : ForkLaws table.
Proof.
  refine {| slots := t_slots; kids := t_kids; shown_text := t_text |}; intros w; cbn.
  - intros n ->. eexists _, _. split; [reflexivity|]. split_and!; done || lia.
  - by intros ->.
  - intros n ->. eexists _, _. split; [reflexivity|]. split_and!; done || lia.
  - by intros ->.
  - intros b. by eexists _, _.
Defined.

Lemma forktest_ok_witness :
  utri forktest_main (mktable 61 0 []) (fun _ _ => False)
    (fun w' => shown_text w' = shown_text (mktable 61 0 []) ++ line "fork test" ++ line "fork test OK").
Proof. apply (forktest_ok (mktable 61 0 [])); [apply Nat.ltb_lt; reflexivity|reflexivity]. Defined.

End World.
