(* ===== verification/Console.v ===== *)
(** * The console

    console.c: the input line editor ([consoleintr], [consoleread]) and the
    screen ([cgaputc], [consputc]).  Characters given to [consputc] are collected
    as the output.

    Shown: the ring buffer with its three wrapping indices implements a line editor
    that keeps the lines entered and the line being edited; [consoleread] takes one
    line at most; the cursor never leaves the screen. *)

From S2P Require Export Prelude.
Local Open Scope Z_scope.

Module Console.

Definition INPUT_BUF : Z := 128.
Definition BACKSPACE : Z := 256.
Definition ctrl (x : Z) : Z := x - 64.  (* C(x) *)

Record input : Type := mkinput {
  ibuf : list Z;
  ir : Z;  (* Read index *)
  iw : Z;  (* Write index *)
  ie : Z   (* Edit index *)
}.

(** [input.buf[x % INPUT_BUF]] *)
Definition slot (x : Z) : nat := Z.to_nat (x mod INPUT_BUF).
Definition char_at (s : input) (x : Z) : Z := default 0 (ibuf s !! slot x).

(** ** The code *)

(** The loop of control-U; at most INPUT_BUF characters are being edited. *)
Fixpoint kill_line (fuel : nat) (s : input) : input * list Z :=
  match fuel with
  | O => (s, [])
  | S fuel =>
      if (negb (ie s =? iw s) && negb (char_at s (ie s -u 1) =? 10))%bool
      then let '(s', out) := kill_line fuel (mkinput (ibuf s) (ir s) (iw s) (ie s -u 1)) in
           (s', BACKSPACE :: out)
      else (s, [])
  end.

(** One character of [consoleintr]: the new state, what is echoed, and whether
    sleeping readers are woken.  A character is a byte, 0 to 255, and stands in the buffer
    as such; in the code the buffer is of [char]. *)
Definition consoleintr_char (c : Z) (s : input) : input * list Z * bool :=
  if c =? ctrl 80 then (s, [], false)  (* doprocdump = 1 *)
  else if c =? ctrl 85 then let '(s', out) := kill_line 128 s in (s', out, false)
  else if ((c =? ctrl 72) || (c =? 127))%bool then
    if negb (ie s =? iw s) then (mkinput (ibuf s) (ir s) (iw s) (ie s -u 1), [BACKSPACE], false)
    else (s, [], false)
  else if (negb (c =? 0) && (ie s -u ir s <? INPUT_BUF))%bool then
    let c := if c =? 13 then 10 else c in
    let buf := <[slot (ie s) := c]> (ibuf s) in
    let e := ie s +u 1 in
    if ((c =? 10) || (c =? ctrl 68) || (e =? ir s +u INPUT_BUF))%bool
    then (mkinput buf (ir s) e e, [c], true)
    else (mkinput buf (ir s) (iw s) e, [c], false)
  else (s, [], false).

(** [consoleintr]: the characters [getc] returns until it has none. *)
Fixpoint consoleintr (cs : list Z) (s : input) : input * list Z * bool :=
  match cs with
  | [] => (s, [], false)
  | c :: cs =>
      let '(s1, out1, w1) := consoleintr_char c s in
      let '(s2, out2, w2) := consoleintr cs s1 in
      (s2, out1 ++ out2, (w1 || w2)%bool)
  end.

(** [consoleread] from one sleep to the next: [n] characters are still wanted of
    [target], [got] have been copied. *)
Inductive cread : Type :=
  | CRet (got : list Z)              (* returns target - n *)
  | CKilled
  | CSleep (n : nat) (got : list Z).

Fixpoint consoleread (killed : bool) (n : nat) (target : nat) (got : list Z) (s : input) : input * cread :=
  match n with
  | O => (s, CRet got)
  | S k =>
      if ir s =? iw s then if killed then (s, CKilled) else (s, CSleep n got)
      else
        let c := char_at s (ir s) in
        let s1 := mkinput (ibuf s) (ir s +u 1) (iw s) (ie s) in
        if c =? ctrl 68 then
          ((if Nat.ltb n target then mkinput (ibuf s) (ir s1 -u 1) (iw s) (ie s) else s1), CRet got)
        else if c =? 10 then (s1, CRet (got ++ [c]))
        else consoleread killed k target (got ++ [c]) s1
  end.

(** The CGA screen: 25 rows of 80 cells, and the cursor position the controller
    holds.  The result is [None] when the code panics or writes off the screen. *)
Record cga : Type := mkcga { crt : list Z; pos : Z }.

Definition cgaputc (c : Z) (s : cga) : option cga :=
  let p := pos s in
  r ← (if c =? 10 then Some (crt s, p + (80 - p mod 80))
       else if c =? BACKSPACE then Some (crt s, if p >? 0 then p - 1 else p)
       else if (0 <=? p) && (p <? 2000) then Some (<[Z.to_nat p := Z.lor (Z.land c 255) 1792]> (crt s), p + 1)
       else None);
  let '(m, p) := (r : list Z * Z) in
  if ((p <? 0) || (p >? 25 * 80))%bool then None (* panic("pos under/overflow") *)
  else
    let '(m, p) :=
      if p / 80 >=? 24 then
        let m := take (23 * 80) (drop 80 m) ++ drop (23 * 80) m in
        let p := p - 80 in
        (take (Z.to_nat p) m ++ replicate (Z.to_nat (24 * 80 - p)) 0 ++ drop (24 * 80) m, p)
      else (m, p) in
  if (0 <=? p) && (p <? 2000) then Some (mkcga (<[Z.to_nat p := Z.lor 32 1792]> m) p) else None.

(** The terminal: what was sent to the serial port, and the screen. *)
Record term : Type := mkterm { uart : list Z; screen : cga }.

Definition consputc (c : Z) (t : term) : option term :=
  let u := uart t ++ (if c =? BACKSPACE then [8; 32; 8] else [c]) in
  s ← cgaputc c (screen t); Some (mkterm u s).

Fixpoint consolewrite_loop (buf : list Z) (t : term) : option term :=
  match buf with
  | [] => Some t
  | c :: buf => t' ← consputc (Z.land c 255) t; consolewrite_loop buf t'
  end.
Definition consolewrite (buf : list Z) (t : term) : option (Z * term) :=
  t' ← consolewrite_loop buf t; Some (Z.of_nat (length buf), t').

(** ** The abstract line editor *)

(** The characters readers can take, and the line being edited. *)
Record editor : Type := mked { entered : list Z; line : list Z }.

Definition edit (c : Z) (s : editor) : editor :=
  if c =? ctrl 80 then s
  else if c =? ctrl 85 then mked (entered s) []
  else if ((c =? ctrl 72) || (c =? 127))%bool then mked (entered s) (removelast (line s))
  else if (c =? 0) || (INPUT_BUF <=? Z.of_nat (length (entered s) + length (line s))) then s
  else
    let c := if c =? 13 then 10 else c in
    let l := line s ++ [c] in
    if ((c =? 10) || (c =? ctrl 68) || (Z.of_nat (length (entered s) + length l) =? INPUT_BUF))%bool
    then mked (entered s ++ l) [] else mked (entered s) l.

(** The ring between two indices. *)
Definition ring (buf : list Z) (a : Z) (n : nat) : list Z :=
  (fun i => default 0 (buf !! slot (a + Z.of_nat i))) <$> seq 0 n.

Definition n_entered (s : input) : Z := iw s -u ir s.
Definition n_line (s : input) : Z := ie s -u iw s.

Definition abs (s : input) : editor :=
  mked (ring (ibuf s) (ir s) (Z.to_nat (n_entered s))) (ring (ibuf s) (iw s) (Z.to_nat (n_line s))).

Definition input_ok (s : input) : Prop :=
  length (ibuf s) = 128%nat /\ 0 <= ir s < 2 ^ 32 /\ 0 <= iw s < 2 ^ 32 /\ 0 <= ie s < 2 ^ 32 /\
  n_entered s + n_line s <= INPUT_BUF /\ Forall (fun c => c <> 10) (line (abs s)).

(** ** Ring arithmetic *)

Lemma slot_u32 x y : slot (u32 x + y) = slot (x + y).
Proof.
  unfold slot, INPUT_BUF. f_equal. change 128 with (2 ^ 7).
  rewrite <- Zplus_mod_idemp_l, u32_mod_pow2, Zplus_mod_idemp_l by lia. done.
Qed.

Lemma slot_wrap x : slot (u32 x) = slot x.
Proof. rewrite <- (Z.add_0_r (u32 x)), slot_u32. f_equal. lia. Qed.

Lemma slot_ne x y : 0 < y - x < 128 -> slot x <> slot y.
Proof.
  unfold slot, INPUT_BUF. intros H Heq. apply Z2Nat.inj in Heq; [|apply Z.mod_pos_bound; lia..].
  assert ((y - x) mod 128 = 0) as Hz by (rewrite Zminus_mod, Heq, Z.sub_diag; done).
  rewrite Z.mod_small in Hz; lia.
Qed.

Lemma slot_lt x : (slot x < 128)%nat.
Proof. unfold slot, INPUT_BUF. pose proof (Z.mod_pos_bound x 128). lia. Qed.

Lemma length_ring buf a n : length (ring buf a n) = n.
Proof. unfold ring. by rewrite length_fmap, length_seq. Qed.

Lemma ring_u32 buf a n : ring buf (u32 a) n = ring buf a n.
Proof. unfold ring. apply list_fmap_ext. intros i x _. by rewrite slot_u32. Qed.

Lemma ring_app buf a n m : ring buf a (n + m) = ring buf a n ++ ring buf (a + Z.of_nat n) m.
Proof.
  unfold ring. rewrite seq_app, fmap_app. f_equal. cbn. rewrite <- (Nat.add_0_r n) at 1.
  rewrite <- fmap_add_seq, <- list_fmap_compose. apply list_fmap_ext. intros i x _. cbn. do 3 f_equal. lia.
Qed.

Lemma ring_one buf a : ring buf a 1 = [default 0 (buf !! slot a)].
Proof. unfold ring. cbn. by rewrite Z.add_0_r. Qed.

Lemma ring_insert buf a n x c :
  (forall i, (i < n)%nat -> slot (a + Z.of_nat i) <> slot x) -> ring (<[slot x := c]> buf) a n = ring buf a n.
Proof.
  intros H. unfold ring. apply list_fmap_ext. intros i y Hi. apply lookup_seq in Hi as [-> Hi].
  rewrite list_lookup_insert_ne; [done|]. intros Heq. by apply (H (0 + i)%nat Hi).
Qed.

(** A state in terms of the numbers of characters entered and being edited. *)
Definition canon (buf : list Z) (r : Z) (a b : nat) : input :=
  mkinput buf r (u32 (r + Z.of_nat a)) (u32 (r + Z.of_nat a + Z.of_nat b)).

Lemma canon_counts buf r a b :
  (a + b <= 128)%nat -> n_entered (canon buf r a b) = Z.of_nat a /\ n_line (canon buf r a b) = Z.of_nat b.
Proof.
  intros H. unfold n_entered, n_line, canon; cbn. rewrite u32_sub_l. split.
  - rewrite u32_small; lia.
  - rewrite u32_sub_l, u32_sub_r, u32_small; lia.
Qed.

Lemma canon_abs buf r a b :
  (a + b <= 128)%nat -> abs (canon buf r a b) = mked (ring buf r a) (ring buf (r + Z.of_nat a) b).
Proof.
  intros H. unfold abs. destruct (canon_counts buf r a b H) as [-> ->].
  cbn [canon ibuf ir iw]. by rewrite ring_u32, !Nat2Z.id.
Qed.

Lemma input_canon s : input_ok s ->
  exists a b, (a + b <= 128)%nat /\ s = canon (ibuf s) (ir s) a b.
Proof.
  intros (Hl & Hr & Hw & He & Hn & _). exists (Z.to_nat (n_entered s)), (Z.to_nat (n_line s)).
  pose proof (u32_range (iw s - ir s)). pose proof (u32_range (ie s - iw s)).
  unfold n_entered, n_line, INPUT_BUF in *. split; [lia|]. destruct s as [buf r w e]. unfold canon; cbn in *.
  rewrite !Z2Nat.id by lia. f_equal.
  - rewrite u32_add_r. replace (r + (w - r)) with w by lia. by rewrite u32_small.
  - rewrite u32_add_r. replace (r + u32 (w - r) + (e - w)) with (u32 (w - r) + (r + e - w)) by lia.
    rewrite u32_add_l. replace (w - r + (r + e - w)) with e by lia. by rewrite u32_small.
Qed.

Lemma canon_ok buf r a b :
  length buf = 128%nat -> 0 <= r < 2 ^ 32 -> (a + b <= 128)%nat ->
  Forall (fun c => c <> 10) (ring buf (r + Z.of_nat a) b) -> input_ok (canon buf r a b).
Proof.
  intros Hl Hr H Hf. destruct (canon_counts buf r a b H) as [Ha Hb]. unfold input_ok.
  rewrite Ha, Hb, canon_abs by done. unfold INPUT_BUF. cbn. split_and!; try done; try apply u32_range; lia.
Qed.

Lemma canon_editing buf r a b : (a + b <= 128)%nat -> (ie (canon buf r a b) =? iw (canon buf r a b)) = (b =? 0)%nat.
Proof.
  intros H. destruct (canon_counts buf r a b H) as [_ Hb]. unfold n_line in Hb.
  destruct (Nat.eqb_spec b 0) as [->|Hne]; [cbn; rewrite Z.add_0_r; apply Z.eqb_refl|].
  apply Z.eqb_neq. intros Heq. rewrite Heq, Z.sub_diag in Hb. change (u32 0) with 0 in Hb. lia.
Qed.

Lemma ring_snoc buf a n : ring buf a (S n) = ring buf a n ++ [default 0 (buf !! slot (a + Z.of_nat n))].
Proof. replace (S n) with (n + 1)%nat by lia. by rewrite ring_app, ring_one. Qed.

Lemma canon_back buf r a b :
  mkinput buf r (u32 (r + Z.of_nat a)) (u32 (r + Z.of_nat a + Z.of_nat (S b)) -u 1) = canon buf r a b.
Proof. unfold canon. f_equal. rewrite u32_sub_l. f_equal. lia. Qed.

Lemma canon_last buf r a b :
  char_at (canon buf r a (S b)) (ie (canon buf r a (S b)) -u 1) =
  default 0 (buf !! slot (r + Z.of_nat a + Z.of_nat b)).
Proof.
  unfold char_at, canon; cbn. do 2 f_equal. rewrite u32_sub_l.
  rewrite <- (Z.add_0_r (u32 _)), slot_u32. f_equal. lia.
Qed.

Lemma kill_line_canon buf r a b : forall fuel,
  (a + b <= 128)%nat -> (b <= fuel)%nat -> Forall (fun c => c <> 10) (ring buf (r + Z.of_nat a) b) ->
  kill_line fuel (canon buf r a b) = (canon buf r a 0, replicate b BACKSPACE).
Proof.
  induction b as [|b IH]; intros [|fuel] Hab Hf Hl; try done; try lia; cbn [kill_line].
  - by rewrite canon_editing.
  - rewrite canon_editing by done. cbn [Nat.eqb negb andb]. rewrite canon_last.
    rewrite ring_snoc in Hl. apply Forall_app in Hl as [Hl Hc]. rewrite Forall_singleton in Hc.
    rewrite (proj2 (Z.eqb_neq _ 10) Hc). cbn [negb]. cbn [canon ibuf ir iw ie]. rewrite canon_back.
    rewrite IH by (done || lia). done.
Qed.

(** Adding a character. *)
Lemma canon_put buf r a b c :
  length buf = 128%nat -> (a + b < 128)%nat ->
  let buf' := <[slot (r + Z.of_nat a + Z.of_nat b) := c]> buf in
  ring buf' r a = ring buf r a /\ ring buf' (r + Z.of_nat a) (S b) = ring buf (r + Z.of_nat a) b ++ [c] /\
  ring buf' r (a + S b) = ring buf r a ++ ring buf (r + Z.of_nat a) b ++ [c].
Proof.
  intros Hl Hab buf'.
  assert (ring buf' r a = ring buf r a) as H1.
  { apply ring_insert. intros i Hi. apply slot_ne. lia. }
  assert (ring buf' (r + Z.of_nat a) (S b) = ring buf (r + Z.of_nat a) b ++ [c]) as H2.
  { rewrite ring_snoc. f_equal.
    - apply ring_insert. intros i Hi. apply slot_ne. lia.
    - unfold buf'. rewrite list_lookup_insert_eq; [done|]. rewrite Hl. apply slot_lt. }
  split_and!; [done..|]. by rewrite ring_app, H1, H2.
Qed.

Lemma canon_next r a b : u32 (r + Z.of_nat a + Z.of_nat b) +u 1 = u32 (r + Z.of_nat a + Z.of_nat (S b)).
Proof. rewrite u32_add_l. f_equal. lia. Qed.

Lemma canon_full r n : (n <= 128)%nat -> (u32 (r + Z.of_nat n) =? r +u INPUT_BUF) = (Z.of_nat n =? INPUT_BUF).
Proof.
  intros Hn. unfold INPUT_BUF. destruct (Z.eqb_spec (Z.of_nat n) 128) as [->|Hne]; [apply Z.eqb_refl|].
  apply Z.eqb_neq. intros H. apply (f_equal (fun x => u32 (x - r))) in H. rewrite !u32_sub_l in H.
  rewrite !u32_small in H; lia.
Qed.

(** An ordinary character that fits. *)
Lemma put_refines buf r a b c :
  length buf = 128%nat -> 0 <= r < 2 ^ 32 -> (a + b < 128)%nat ->
  Forall (fun c => c <> 10) (ring buf (r + Z.of_nat a) b) ->
  let s := canon buf r a b in
  let buf' := <[slot (ie s) := c]> buf in
  let e := ie s +u 1 in
  let commit := ((c =? 10) || (c =? ctrl 68) || (e =? r +u INPUT_BUF))%bool in
  let s' := if commit then mkinput buf' r e e else mkinput buf' r (iw s) e in
  let l := ring buf (r + Z.of_nat a) b ++ [c] in
  input_ok s' /\
  abs s' = if ((c =? 10) || (c =? ctrl 68) || (Z.of_nat (a + S b) =? INPUT_BUF))%bool
           then mked (ring buf r a ++ l) [] else mked (ring buf r a) l.
Proof.
  intros Hl Hr Hab Hf. cbn [canon ie iw]. cbv zeta.
  rewrite !slot_wrap. destruct (canon_put buf r a b c Hl Hab) as (P1 & P2 & P3).
  set (buf' := <[slot (r + Z.of_nat a + Z.of_nat b) := c]> buf) in *.
  assert (length buf' = 128%nat) as Hl' by (unfold buf'; by rewrite length_insert).
  rewrite canon_next.
  assert (u32 (r + Z.of_nat a + Z.of_nat (S b)) = u32 (r + Z.of_nat (a + S b))) as He by (f_equal; lia).
  rewrite He, canon_full by lia.
  destruct ((c =? 10) || (c =? ctrl 68) || (Z.of_nat (a + S b) =? INPUT_BUF))%bool eqn:E.
  - assert (mkinput buf' r (u32 (r + Z.of_nat (a + S b))) (u32 (r + Z.of_nat (a + S b))) = canon buf' r (a + S b) 0) as ->.
    { unfold canon. f_equal. f_equal. lia. }
    rewrite canon_abs, P3 by lia. split; [apply canon_ok; [done|done|lia|constructor]|done].
  - assert (mkinput buf' r (u32 (r + Z.of_nat a)) (u32 (r + Z.of_nat (a + S b))) = canon buf' r a (S b)) as ->.
    { unfold canon. f_equal. f_equal. lia. }
    rewrite canon_abs, P1, P2 by lia. split; [|done]. apply canon_ok; [done|done|lia|]. rewrite P2.
    apply Forall_app. split; [done|]. apply Forall_singleton. intros ->. done.
Qed.

Lemma consoleintr_char_edit c s :
  input_ok s ->
  input_ok (consoleintr_char c s).1.1 /\ abs (consoleintr_char c s).1.1 = edit c (abs s).
Proof.
  intros Hok. pose proof Hok as (Hl & Hr & _ & _ & _ & Hf).
  destruct (input_canon s Hok) as (a & b & Hab & Hs). set (buf := ibuf s) in *. set (r := ir s) in *.
  clearbody buf r. subst s. rewrite canon_abs in Hf |- * by done. cbn [line] in Hf.
  unfold consoleintr_char, edit. cbn [entered line].
  destruct (c =? ctrl 80); [split; [done|by apply canon_abs]|].
  destruct (c =? ctrl 85).
  { rewrite kill_line_canon by (done || lia). cbn [fst]. rewrite canon_abs by lia.
    split; [apply canon_ok; [done|done|lia|constructor]|done]. }
  destruct ((c =? ctrl 72) || (c =? 127))%bool.
  { rewrite canon_editing by done. destruct b as [|b]; cbn [Nat.eqb negb fst].
    - split; [done|]. by apply canon_abs.
    - cbn [canon ibuf ir iw ie]. rewrite canon_back, canon_abs by lia. rewrite ring_snoc in Hf |- *.
      rewrite removelast_last. apply Forall_app in Hf as [Hf _]. split; [apply canon_ok; [done|done|lia|done]|done]. }
  assert (ie (canon buf r a b) -u ir (canon buf r a b) = Z.of_nat (a + b)) as Hlen.
  { unfold canon; cbn. rewrite u32_sub_l, u32_small; lia. }
  rewrite Hlen, length_app, !length_ring. destruct (Z.eqb_spec c 0) as [->|Hc]; cbn [negb andb orb fst].
  { split; [done|]. by apply canon_abs. }
  destruct (Z.ltb_spec (Z.of_nat (a + b)) INPUT_BUF) as [Hlt|Hge]; unfold INPUT_BUF in Hlt || unfold INPUT_BUF in Hge.
  - rewrite (proj2 (Z.leb_gt _ _)) by (unfold INPUT_BUF; lia).
    pose proof (put_refines buf r a b (if c =? 13 then 10 else c) Hl Hr ltac:(lia) Hf) as HP. cbv zeta in HP.
    cbn [length]. replace (a + (b + 1))%nat with (a + S b)%nat by lia.
    cbn [canon ibuf ir iw ie] in HP |- *. by destruct (_ || _ || (_ +u 1 =? _))%bool.
  - rewrite (proj2 (Z.leb_le _ _)) by (unfold INPUT_BUF; lia). cbn [fst]. split; [done|]. by apply canon_abs.
Qed.

(** C29: The ring buffer of the console with its three wrapping 32-bit indices
    implements the line editor: for every character [consoleintr] handles (control-U,
    backspace, control-D, ordinary characters and those that do not fit), the state
    after it stands for the editor's state after it, and stays well formed. *)
Theorem consoleintr_refines c s :
  input_ok s ->
  input_ok (consoleintr_char c s).1.1 /\ abs (consoleintr_char c s).1.1 = edit c (abs s).
Proof. apply consoleintr_char_edit. Qed.

Definition input0 : input := mkinput (replicate 128 0) 0 0 0.

Lemma input0_ok : input_ok input0.
Proof. apply (canon_ok (replicate 128 0) 0 0 0); [done|lia|lia|constructor]. Qed.

Lemma consoleintr_refines_witness : abs (consoleintr_char 97 input0).1.1 = mked [] [97].
Proof. rewrite (proj2 (consoleintr_refines 97 input0 input0_ok)). reflexivity. Defined.

(** ** Reading *)

Lemma ring_S buf a n : ring buf a (S n) = default 0 (buf !! slot a) :: ring buf (a + 1) n.
Proof. change (S n) with (1 + n)%nat. by rewrite ring_app, ring_one. Qed.

(** Taking the first character entered. *)
Lemma canon_take buf r a b :
  0 <= r < 2 ^ 32 ->
  mkinput buf (r +u 1) (u32 (r + Z.of_nat (S a))) (u32 (r + Z.of_nat (S a) + Z.of_nat b)) =
    canon buf (r +u 1) a b.
Proof.
  intros Hr. unfold canon; cbn [iw ie]. f_equal.
  - rewrite u32_add_l. f_equal. lia.
  - replace (r +u 1 + Z.of_nat a + Z.of_nat b) with (r +u 1 + (Z.of_nat a + Z.of_nat b)) by lia.
    rewrite u32_add_l. f_equal. lia.
Qed.

Lemma consoleread_line_canon l : forall buf r a b rest killed n target got,
  length buf = 128%nat -> 0 <= r < 2 ^ 32 -> (a + b <= 128)%nat ->
  Forall (fun c => c <> 10) (ring buf (r + Z.of_nat a) b) ->
  ring buf r a = l ++ 10 :: rest -> Forall (fun c => c <> 10 /\ c <> ctrl 68) l -> (length l < n)%nat ->
  exists s', consoleread killed n target got (canon buf r a b) = (s', CRet (got ++ l ++ [10])) /\
    input_ok s' /\ abs s' = mked rest (ring buf (r + Z.of_nat a) b).
Proof.
  induction l as [|c l IH]; intros buf r a b rest killed n target got Hlen Hr Hab Hf Hent Hl Hn;
    (destruct n as [|n]; [cbn in Hn; lia|]); (destruct a as [|a]; [discriminate|]);
    rewrite ring_S in Hent; cbn [app] in Hent; injection Hent as Hc Hent;
    cbn [consoleread]; unfold char_at; cbn [canon ibuf ir iw ie];
    (assert ((r =? u32 (r + Z.of_nat (S a))) = false) as ->;
      [apply Z.eqb_neq; intros H; apply (f_equal (fun x => u32 (x - r))) in H;
       rewrite u32_sub_l, !u32_small in H; lia|]);
    rewrite Hc; assert (Forall (fun c => c <> 10) (ring buf (r +u 1 + Z.of_nat a) b)) as Hf'
      by (rewrite <- (ring_u32 _ (r +u 1 + _)), u32_add_l, ring_u32;
          replace (r + 1 + Z.of_nat a) with (r + Z.of_nat (S a)) by lia; done);
    assert (ring buf (r +u 1) a = ring buf (r + 1) a) as He by apply ring_u32.
  - cbn [Z.eqb Pos.eqb]. change (10 =? ctrl 68) with false. cbv iota. eexists. split; [done|].
    rewrite (canon_take buf r a b Hr). split; [apply canon_ok; [done|apply u32_range|lia|done]|].
    rewrite canon_abs, He by lia. f_equal; [done|].
    rewrite <- (ring_u32 _ (r +u 1 + _)), u32_add_l, ring_u32. f_equal. lia.
  - apply Forall_cons in Hl as [[H10 H4] Hl]. rewrite (proj2 (Z.eqb_neq c _) H4), (proj2 (Z.eqb_neq c _) H10).
    rewrite (canon_take buf r a b Hr).
    destruct (IH buf (r +u 1) a b rest killed n target (got ++ [c])) as (s' & Hrun & Hok & Habs);
      [done|apply u32_range|lia|done|by rewrite He|done|cbn in Hn; lia|].
    exists s'. split_and!; [by rewrite Hrun, <- app_assoc|done|]. rewrite Habs. f_equal.
    rewrite <- (ring_u32 _ (r +u 1 + _)), u32_add_l, ring_u32. f_equal. lia.
Qed.

(** [consoleread] returns one line: when a line is among the characters entered,
    a read with room for it returns exactly that line with its newline, takes it from
    the buffer, and leaves what follows it and the line being edited. *)
Theorem consoleread_line s l rest n :
  input_ok s -> entered (abs s) = l ++ 10 :: rest ->
  Forall (fun c => c <> 10 /\ c <> ctrl 68) l -> (length l < n)%nat ->
  exists s', consoleread false n n [] s = (s', CRet (l ++ [10])) /\
    input_ok s' /\ abs s' = mked rest (line (abs s)).
Proof.
  intros Hok Hent Hl Hn. pose proof Hok as (Hlen & Hr & _ & _ & _ & Hf).
  destruct (input_canon s Hok) as (a & b & Hab & Hs). set (buf := ibuf s) in *. set (r := ir s) in *.
  clearbody buf r. subst s. rewrite canon_abs in Hf, Hent |- * by done. cbn [line entered] in *.
  by apply (consoleread_line_canon l buf r a b rest false n n []).
Qed.

Lemma consoleread_line_witness :
  exists s', consoleread false 10 10 [] (consoleintr [97; 98; 13; 99] input0).1.1 = (s', CRet [97; 98; 10]).
Proof.
  destruct (consoleread_line (consoleintr [97; 98; 13; 99] input0).1.1 [97; 98] [] 10) as (s' & H & _).
  - apply (canon_ok _ 0 3 1); [reflexivity|lia|lia|]. vm_compute. constructor; [discriminate|constructor].
  - reflexivity.
  - apply Forall_cons. split; [done|]. apply Forall_singleton. done.
  - cbn; lia.
  - exists s'. exact H.
Defined.

(** ** The screen *)

Definition cga_ok (s : cga) : Prop := length (crt s) = 2000%nat /\ 0 <= pos s < 24 * 80.

(** The cursor stays on the first 24 of the 25 rows. *)
Lemma cgaputc_ok c s :
  cga_ok s -> exists s', cgaputc c s = Some s' /\ cga_ok s'.
Proof.
  intros [Hl Hp]. unfold cgaputc, mbind, option_bind.
  assert (exists m p, (if c =? 10 then Some (crt s, pos s + (80 - pos s mod 80))
       else if c =? BACKSPACE then Some (crt s, if pos s >? 0 then pos s - 1 else pos s)
       else if (0 <=? pos s) && (pos s <? 2000)
         then Some (<[Z.to_nat (pos s) := Z.lor (Z.land c 255) 1792]> (crt s), pos s + 1)
       else None) = Some (m, p) /\ length m = 2000%nat /\ 0 <= p <= 24 * 80) as (m & p & -> & Hm & Hpp).
  { destruct (c =? 10).
    - do 2 eexists. split; [done|]. split; [done|]. pose proof (Z.mod_pos_bound (pos s) 80).
      pose proof (Z.div_mod (pos s) 80). assert (pos s / 80 < 24) by (apply Z.div_lt_upper_bound; lia). lia.
    - destruct (c =? BACKSPACE).
      + do 2 eexists. split; [done|]. split; [done|]. rewrite Z.gtb_ltb. destruct (Z.ltb_spec 0 (pos s)); lia.
      + rewrite (proj2 (Z.leb_le _ _)), (proj2 (Z.ltb_lt _ _)) by lia. do 2 eexists. split; [done|].
        rewrite length_insert. split; [done|lia]. }
  rewrite Z.gtb_ltb, (proj2 (Z.ltb_ge p 0)), (proj2 (Z.ltb_ge (25 * 80) p)) by lia. cbn [orb].
  rewrite Z.geb_leb. destruct (Z.leb_spec 24 (p / 80)) as [H24|H24].
  - assert (p = 24 * 80) as -> by (pose proof (Z.div_mod p 80); pose proof (Z.mod_pos_bound p 80); lia).
    change (24 * 80 - 80) with 1840. cbn [andb Z.leb Z.ltb Z.compare Pos.compare Pos.compare_cont].
    eexists. split; [done|]. split; [|cbn; lia]. cbn [crt]. rewrite length_insert, !length_app, length_replicate.
    rewrite !length_take, !length_drop, !length_app, !length_take, !length_drop. lia.
  - assert (p < 24 * 80) by (pose proof (Z.div_mod p 80); pose proof (Z.mod_pos_bound p 80); lia).
    rewrite (proj2 (Z.leb_le 0 p)), (proj2 (Z.ltb_lt p 2000)) by lia. cbn [andb].
    eexists. split; [done|]. split; [cbn; by rewrite length_insert|cbn; lia].
Qed.

(** [consolewrite] sends every byte to the serial port, in order, and never panics:
    the cursor stays on the first 24 of the 25 rows, no cell outside the screen is
    written, and the screen scrolls when it must. *)
Theorem consolewrite_on_screen buf t :
  cga_ok (screen t) ->
  exists s', consolewrite buf t = Some (Z.of_nat (length buf), mkterm (uart t ++ ((fun c => Z.land c 255) <$> buf)) s') /\
    cga_ok s'.
Proof.
  intros Hok. unfold consolewrite.
  enough (exists s', consolewrite_loop buf t = Some (mkterm (uart t ++ ((fun c => Z.land c 255) <$> buf)) s') /\ cga_ok s')
    as (s' & -> & Hs) by (by exists s').
  revert t Hok. induction buf as [|c buf IH]; intros t Hok; cbn [consolewrite_loop fmap list_fmap].
  - exists (screen t). rewrite app_nil_r. by destruct t.
  - destruct (cgaputc_ok (Z.land c 255) (screen t) Hok) as (s1 & H1 & Hok1).
    unfold consputc, mbind, option_bind. rewrite H1. assert (Z.land c 255 <> BACKSPACE) as Hb.
    { change 255 with (Z.ones 8). rewrite Z.land_ones by lia. pose proof (Z.mod_pos_bound c (2 ^ 8)). unfold BACKSPACE. lia. }
    rewrite (proj2 (Z.eqb_neq _ _) Hb). destruct (IH (mkterm (uart t ++ [Z.land c 255]) s1) Hok1) as (s' & -> & Hs).
    exists s'. split; [|done]. cbn [uart]. by rewrite <- app_assoc.
Qed.

Lemma consolewrite_on_screen_witness :
  exists s', consolewrite [104; 10] (mkterm [] (mkcga (replicate 2000 0) 1919)) = Some (2, mkterm [104; 10] s') /\ cga_ok s'.
Proof.
  apply (consolewrite_on_screen [104; 10] (mkterm [] (mkcga (replicate 2000 0) 1919))).
  split; [apply length_replicate|cbn; lia].
Defined.

End Console.
