(* ===== verification/Kbd.v ===== *)
(** * The keyboard (kbd.c, kbd.h)

    [kbdgetc] turns the scan codes of the keyboard controller into characters.  The
    controller is its queue of bytes: the status port says whether there is one, and the
    data port takes the first.  The static variable [shift] holds the modifier keys.

    A key has a code below 256; those from 128 on send an escape byte first.  Pressing and
    releasing a key send different bytes.

    Shown: from the bytes that a sequence of key presses and releases sends, [kbdgetc] makes
    the characters those presses stand for, with the shift, control and lock keys as they
    are at that moment; and a line typed on a US keyboard, whose layout is written out here
    apart from the tables of kbd.h, is what a process reads from the console, in whatever
    portions the interrupts find its bytes. *)

From S2P Require Export Console.
Local Open Scope Z_scope.

Module Kbd.
Import Console.

(** ** kbd.h *)

Definition KBS_DIB : Z := 1.
Definition SHIFT : Z := 1.
Definition CTL : Z := 2.
Definition ALT : Z := 4.
Definition CAPSLOCK : Z := 8.
Definition NUMLOCK : Z := 16.
Definition SCROLLLOCK : Z := 32.
Definition E0ESC : Z := 64.

Definition NO : Z := 0.
Definition C (x : Z) : Z := x - 64.

(** An initialiser of an array of 256: the first elements, and some by index. *)
Definition table256 (row : list Z) (at_ : list (nat * Z)) : list Z :=
  foldl (fun l p => <[p.1 := p.2]> l) (row ++ replicate (256 - length row) 0) at_.

Definition shiftcode : list Z :=
  table256 [] [(29%nat, CTL); (42%nat, SHIFT); (54%nat, SHIFT); (56%nat, ALT); (157%nat, CTL); (184%nat, ALT)].
Definition togglecode : list Z := table256 [] [(58%nat, CAPSLOCK); (69%nat, NUMLOCK); (70%nat, SCROLLLOCK)].

(** KEY_UP, KEY_DN, KEY_PGUP, KEY_PGDN, KEY_LF, KEY_RT, KEY_HOME, KEY_END, KEY_INS, KEY_DEL *)
Definition specials : list (nat * Z) :=
  [(200%nat, 226); (208%nat, 227); (201%nat, 230); (209%nat, 231); (203%nat, 228); (205%nat, 229);
   (151%nat, 224); (207%nat, 225); (210%nat, 232); (211%nat, 233)].

Definition normalmap : list Z := table256
  [NO; 27; 49; 50; 51; 52; 53; 54;            (* 0x00 *)
   55; 56; 57; 48; 45; 61; 8; 9;
   113; 119; 101; 114; 116; 121; 117; 105;    (* 0x10 *)
   111; 112; 91; 93; 10; NO; 97; 115;
   100; 102; 103; 104; 106; 107; 108; 59;     (* 0x20 *)
   39; 96; NO; 92; 122; 120; 99; 118;
   98; 110; 109; 44; 46; 47; NO; 42;          (* 0x30 *)
   NO; 32; NO; NO; NO; NO; NO; NO;
   NO; NO; NO; NO; NO; NO; NO; 55;            (* 0x40 *)
   56; 57; 45; 52; 53; 54; 43; 49;
   50; 51; 48; 46; NO; NO; NO; NO]            (* 0x50 *)
  ([(156%nat, 10); (181%nat, 47)] ++ specials).

Definition shiftmap : list Z := table256
  [NO; 27; 33; 64; 35; 36; 37; 94;            (* 0x00 *)
   38; 42; 40; 41; 95; 43; 8; 9;
   81; 87; 69; 82; 84; 89; 85; 73;            (* 0x10 *)
   79; 80; 123; 125; 10; NO; 65; 83;
   68; 70; 71; 72; 74; 75; 76; 58;            (* 0x20 *)
   34; 126; NO; 124; 90; 88; 67; 86;
   66; 78; 77; 60; 62; 63; NO; 42;            (* 0x30 *)
   NO; 32; NO; NO; NO; NO; NO; NO;
   NO; NO; NO; NO; NO; NO; NO; 55;            (* 0x40 *)
   56; 57; 45; 52; 53; 54; 43; 49;
   50; 51; 48; 46; NO; NO; NO; NO]            (* 0x50 *)
  ([(156%nat, 10); (181%nat, 47)] ++ specials).

Definition ctlmap : list Z := table256
  [NO; NO; NO; NO; NO; NO; NO; NO;
   NO; NO; NO; NO; NO; NO; NO; NO;
   C 81; C 87; C 69; C 82; C 84; C 89; C 85; C 73;
   C 79; C 80; NO; NO; 13; NO; C 65; C 83;
   C 68; C 70; C 71; C 72; C 74; C 75; C 76; NO;
   NO; NO; NO; C 92; C 90; C 88; C 67; C 86;
   C 66; C 78; C 77; NO; NO; u8 (C 47); NO; NO]
  ([(156%nat, 13); (181%nat, u8 (C 47))] ++ specials).

(** [charcode[i]] *)
Definition charcode (i : Z) : list Z := if i =? 0 then normalmap else if i =? 1 then shiftmap else ctlmap.

(** ** kbd.c *)

Record kbd : Type := mkkbd {
  shift : Z;
  fifo : list Z    (* the bytes in the controller *)
}.

(** [t[data]] of a table of 256. *)
Definition at_code (t : list Z) (data : Z) : Z := default 0 (t !! Z.to_nat data).

Definition kbdgetc (s : kbd) : Z * kbd :=
  match fifo s with
  | [] => (-1, s)
  | data :: rest =>
      let sh := shift s in
      if data =? 224 then (0, mkkbd (Z.lor sh E0ESC) rest)
      else if negb (Z.land data 128 =? 0) then
        (* Key released *)
        let data := if negb (Z.land sh E0ESC =? 0) then data else Z.land data 127 in
        (0, mkkbd (Z.land sh (Z.lnot (Z.lor (at_code shiftcode data) E0ESC))) rest)
      else
        (* Last character was an E0 escape; or with 0x80 *)
        let '(data, sh) := if negb (Z.land sh E0ESC =? 0) then (Z.lor data 128, Z.land sh (Z.lnot E0ESC)) else (data, sh) in
        let sh := Z.lor sh (at_code shiftcode data) in
        let sh := Z.lxor sh (at_code togglecode data) in
        let c := at_code (charcode (Z.land sh (Z.lor CTL SHIFT))) data in
        let c := if negb (Z.land sh CAPSLOCK =? 0) then
                   if ((97 <=? c) && (c <=? 122))%bool then c + (65 - 97)
                   else if ((65 <=? c) && (c <=? 90))%bool then c + (97 - 65) else c
                 else c in
        (c, mkkbd sh rest)
  end.

(** The calls of [kbdgetc] by [consoleintr], until one returns -1. *)
Fixpoint getc_loop (fuel : nat) (s : kbd) : list Z * kbd :=
  match fuel with
  | O => ([], s)
  | S fuel =>
      let '(c, s') := kbdgetc s in
      if c <? 0 then ([], s') else let '(l, s'') := getc_loop fuel s' in (c :: l, s'')
  end.

Definition kbdintr (s : kbd) (i : input) : kbd * (input * list Z * bool) :=
  let '(cs, s') := getc_loop (S (length (fifo s))) s in (s', consoleintr cs i).

(** ** Keys *)

(** The keys held, and the locks that are on. *)
Record mods : Type := mkmods { m_shift : bool; m_ctl : bool; m_alt : bool; m_caps : bool; m_num : bool; m_scroll : bool }.

Inductive event : Type := Down (k : Z) | Up (k : Z).

(** The bytes an event sends. *)
Definition scan (e : event) : list Z :=
  match e with
  | Down k => if k <? 128 then [k] else [224; k - 128]
  | Up k => if k <? 128 then [k + 128] else [224; k]
  end.

(** The release of the key 96 sends the byte of the escape. *)
Definition event_ok (e : event) : Prop :=
  match e with Down k => 0 <= k < 256 | Up k => 0 <= k < 256 /\ k <> 96 /\ k <> 224 end.

Definition press (k : Z) (m : mods) : mods :=
  if (k =? 42) || (k =? 54) then mkmods true (m_ctl m) (m_alt m) (m_caps m) (m_num m) (m_scroll m)
  else if (k =? 29) || (k =? 157) then mkmods (m_shift m) true (m_alt m) (m_caps m) (m_num m) (m_scroll m)
  else if (k =? 56) || (k =? 184) then mkmods (m_shift m) (m_ctl m) true (m_caps m) (m_num m) (m_scroll m)
  else if k =? 58 then mkmods (m_shift m) (m_ctl m) (m_alt m) (negb (m_caps m)) (m_num m) (m_scroll m)
  else if k =? 69 then mkmods (m_shift m) (m_ctl m) (m_alt m) (m_caps m) (negb (m_num m)) (m_scroll m)
  else if k =? 70 then mkmods (m_shift m) (m_ctl m) (m_alt m) (m_caps m) (m_num m) (negb (m_scroll m))
  else m.
Definition unpress (k : Z) (m : mods) : mods :=
  if (k =? 42) || (k =? 54) then mkmods false (m_ctl m) (m_alt m) (m_caps m) (m_num m) (m_scroll m)
  else if (k =? 29) || (k =? 157) then mkmods (m_shift m) false (m_alt m) (m_caps m) (m_num m) (m_scroll m)
  else if (k =? 56) || (k =? 184) then mkmods (m_shift m) (m_ctl m) false (m_caps m) (m_num m) (m_scroll m)
  else m.

Definition swap_case (c : Z) : Z :=
  if ((97 <=? c) && (c <=? 122))%bool then c - 32 else if ((65 <=? c) && (c <=? 90))%bool then c + 32 else c.

(** The character of a key; 0 if it has none. *)
Definition glyph (m : mods) (k : Z) : Z :=
  let c := at_code (if m_ctl m then ctlmap else if m_shift m then shiftmap else normalmap) k in
  if m_caps m then swap_case c else c.

Definition after (m : mods) (e : event) : mods := match e with Down k => press k m | Up k => unpress k m end.

(** The characters typed. *)
Fixpoint typed (m : mods) (evs : list event) : list Z :=
  match evs with
  | [] => []
  | e :: evs =>
      let m' := after m e in
      match e with Down k => if glyph m' k =? 0 then [] else [glyph m' k] | Up _ => [] end ++ typed m' evs
  end.

(** ** What [shift] holds *)

Definition enc (m : mods) : Z :=
  (if m_shift m then SHIFT else 0) + (if m_ctl m then CTL else 0) + (if m_alt m then ALT else 0) +
  (if m_caps m then CAPSLOCK else 0) + (if m_num m then NUMLOCK else 0) + (if m_scroll m then SCROLLLOCK else 0).

(** One call, as a function of [shift] and the byte. *)
Definition decode (sh data : Z) : Z * Z := let r := kbdgetc (mkkbd sh [data]) in (r.1, shift r.2).

Lemma kbdgetc_decode sh data rest :
  kbdgetc (mkkbd sh (data :: rest)) = ((decode sh data).1, mkkbd (decode sh data).2 rest).
Proof.
  unfold decode, kbdgetc. cbn [fifo shift]. destruct (data =? 224); [done|]. destruct (negb (Z.land data 128 =? 0)); [done|].
  by destruct (negb (Z.land sh E0ESC =? 0)).
Qed.

Definition bools : list bool := [false; true].
Definition all_mods : list mods :=
  a ← bools; b ← bools; c ← bools; d ← bools; e ← bools; f ← bools; [mkmods a b c d e f].

Lemma in_all_mods m : In m all_mods.
Proof. destruct m as [[] [] [] [] [] []]; vm_compute; tauto. Qed.

Definition eqZZ (p q : Z * Z) : bool := ((p.1 =? q.1) && (p.2 =? q.2))%bool.

(** What [decode] does with the bytes of the events, for every modifier and key. *)
Definition decode_check (m : mods) (k : Z) : bool :=
  (eqZZ (decode (enc m) k) (glyph (press k m) k, enc (press k m)) &&
   eqZZ (decode (enc m) 224) (0, enc m + E0ESC) &&
   eqZZ (decode (enc m + E0ESC) k) (glyph (press (k + 128) m) (k + 128), enc (press (k + 128) m)) &&
   ((k =? 96) || (eqZZ (decode (enc m) (k + 128)) (0, enc (unpress k m)) &&
                  eqZZ (decode (enc m + E0ESC) (k + 128)) (0, enc (unpress (k + 128) m)))) &&
   (0 <=? glyph (press k m) k) && (0 <=? glyph (press (k + 128) m) (k + 128)))%bool.

Lemma decode_checked : forallb (fun m => forallb (decode_check m) (seqZ 0 128)) all_mods = true.
Proof. vm_compute. reflexivity. Qed.

Lemma decode_spec m k : 0 <= k < 128 -> decode_check m k = true.
Proof.
  intros Hk. pose proof decode_checked as H. rewrite forallb_forall in H. specialize (H m (in_all_mods m)). rewrite forallb_forall in H.
  apply H. apply list_elem_of_In, elem_of_seqZ. lia.
Qed.

Lemma eqZZ_eq p q : eqZZ p q = true -> p = q.
Proof. destruct p, q. unfold eqZZ. cbn. intros H. bool_hyps. by subst. Qed.

(** ** Sequences of events *)

(** What the calls return for an event. *)
Definition codes (m : mods) (e : event) : list Z :=
  match e with
  | Down k => if k <? 128 then [glyph (press k m) k] else [0; glyph (press k m) k]
  | Up k => if k <? 128 then [0] else [0; 0]
  end.

Lemma getc_loop_more sh data rest n c sh' l s :
  decode sh data = (c, sh') -> 0 <= c -> getc_loop n (mkkbd sh' rest) = (l, s) ->
  getc_loop (S n) (mkkbd sh (data :: rest)) = (c :: l, s).
Proof.
  intros Hd Hc Hl. cbn [getc_loop]. rewrite kbdgetc_decode, Hd. cbn [fst snd]. rewrite (proj2 (Z.ltb_ge _ _)) by done. by rewrite Hl.
Qed.

Lemma getc_event m e rest n l s :
  event_ok e -> getc_loop n (mkkbd (enc (after m e)) rest) = (l, s) ->
  getc_loop (length (scan e) + n) (mkkbd (enc m) (scan e ++ rest)) = (codes m e ++ l, s).
Proof.
  intros He Hl. destruct e as [k|k]; cbn [event_ok after scan codes] in *.
  - destruct (Z.ltb_spec k 128) as [Hk|Hk].
    + pose proof (decode_spec m k ltac:(lia)) as Hc. unfold decode_check in Hc. bool_hyps.
      eapply getc_loop_more; [by apply eqZZ_eq|done|exact Hl].
    + pose proof (decode_spec m (k - 128) ltac:(lia)) as Hc. unfold decode_check in Hc.
      replace (k - 128 + 128) with k in Hc by lia. bool_hyps. cbn [length Nat.add app].
      eapply getc_loop_more; [by apply eqZZ_eq|done|]. eapply getc_loop_more; [by apply eqZZ_eq|done|exact Hl].
  - destruct He as (Hr & H96 & H224). destruct (Z.ltb_spec k 128) as [Hk|Hk].
    + pose proof (decode_spec m k ltac:(lia)) as Hc. unfold decode_check in Hc. rewrite (proj2 (Z.eqb_neq k 96)) in Hc by done.
      cbn [orb] in Hc. bool_hyps. eapply getc_loop_more; [by apply eqZZ_eq|done|exact Hl].
    + pose proof (decode_spec m (k - 128) ltac:(lia)) as Hc. unfold decode_check in Hc. rewrite (proj2 (Z.eqb_neq (k - 128) 96)) in Hc by lia.
      replace (k - 128 + 128) with k in Hc by lia. cbn [orb] in Hc. bool_hyps. cbn [length Nat.add app].
      eapply getc_loop_more; [by apply eqZZ_eq|done|]. eapply getc_loop_more; [by apply eqZZ_eq|done|exact Hl].
Qed.

Fixpoint all_codes (m : mods) (evs : list event) : list Z :=
  match evs with [] => [] | e :: evs => codes m e ++ all_codes (after m e) evs end.

Lemma getc_events evs : forall m,
  Forall event_ok evs ->
  getc_loop (S (length (concat (scan <$> evs)))) (mkkbd (enc m) (concat (scan <$> evs))) =
    (all_codes m evs, mkkbd (enc (foldl after m evs)) []).
Proof.
  induction evs as [|e evs IH]; intros m Hok; [done|]. apply Forall_cons in Hok as [He Hok].
  rewrite fmap_cons. cbn [concat]. rewrite length_app, <- Nat.add_succ_r. apply getc_event; [done|]. by apply IH.
Qed.

Lemma typed_codes evs : forall m, base.filter (fun c => c <> 0) (all_codes m evs) = typed m evs.
Proof.
  induction evs as [|e evs IH]; intros m; [done|]. cbn [all_codes typed]. rewrite filter_app, IH. f_equal.
  destruct e as [k|k]; cbn [codes after]; destruct (k <? 128); rewrite ?filter_cons, ?filter_nil; repeat case_decide; try done;
    destruct (Z.eqb_spec (glyph (press k m) k) 0); done.
Qed.

(** [kbdgetc] decodes the keyboard: called until it returns -1 on the bytes that a sequence of
    key presses and releases sends, it returns, besides zeros, exactly the characters
    of the keys pressed, with the shift, control and caps lock keys as they are at that
    moment, and leaves the modifiers in [shift], with no escape pending. *)
Theorem kbd_decodes m evs :
  Forall event_ok evs ->
  let bytes := concat (scan <$> evs) in
  let r := getc_loop (S (length bytes)) (mkkbd (enc m) bytes) in
  base.filter (fun c => c <> 0) r.1 = typed m evs /\ r.2 = mkkbd (enc (foldl after m evs)) [].
Proof. intros Hok bytes r. unfold r, bytes. rewrite getc_events by done. split; [apply typed_codes|done]. Qed.

Lemma kbd_decodes_witness :
  let evs := [Down 42; Down 35; Up 35; Up 42; Down 23; Down 181] in
  Forall event_ok evs /\
  base.filter (fun c => c <> 0) (getc_loop 20 (mkkbd 0 (concat (scan <$> evs)))).1 = typed (mkmods false false false false false false) evs /\
  typed (mkmods false false false false false false) evs = [72; 105; 47].
Proof.
  assert (Forall event_ok [Down 42; Down 35; Up 35; Up 42; Down 23; Down 181]) as Hok by (repeat constructor; done).
  split; [exact Hok|]. split; [|reflexivity].
  exact (proj1 (kbd_decodes (mkmods false false false false false false) _ Hok)).
Defined.

(** ** Typing text *)

Definition no_mods : mods := mkmods false false false false false false.

(** A US keyboard: for each key that types something its scan code, what it types, and what
    it types with a shift key held. *)
Record key : Type := mkkey { key_code : Z; key_plain : Z; key_shifted : Z }.

Definition chars (s : string) : list Z := (fun a => Z.of_nat (Ascii.nat_of_ascii a)) <$> String.list_ascii_of_string s.

(** Keys with successive scan codes. *)
Definition key_row (first : Z) (plain shifted : string) : list key :=
  imap (fun i p => mkkey (first + Z.of_nat i) p.1 p.2) (zip (chars plain) (chars shifted)).

Definition us_keyboard : list key :=
  key_row 2 "1234567890-=" "!@#$%^&*()_+" ++
  key_row 16 "qwertyuiop[]" "QWERTYUIOP{}" ++ [mkkey 28 10 10] ++
  key_row 30 "asdfghjkl;" "ASDFGHJKL:" ++ [mkkey 40 39 34] ++ key_row 41 "`" "~" ++
  key_row 43 "\zxcvbnm,./" "|ZXCVBNM<>?" ++ [mkkey 57 32 32].

(** The keys that type a character: one key, or one with the left shift key held. *)
Definition strokes (c : Z) : list event :=
  match find (fun k => key_plain k =? c) us_keyboard with
  | Some k => [Down (key_code k); Up (key_code k)]
  | None =>
      match find (fun k => key_shifted k =? c) us_keyboard with
      | Some k => [Down 42; Down (key_code k); Up (key_code k); Up 42]
      | None => []
      end
  end.

Definition typeable (c : Z) : bool := ((32 <=? c) && (c <=? 126) || (c =? 10))%bool.

Definition event_okb (e : event) : bool :=
  match e with Down k => ((0 <=? k) && (k <? 256))%bool | Up k => ((0 <=? k) && (k <? 256) && negb (k =? 96) && negb (k =? 224))%bool end.
Lemma event_okb_ok e : event_okb e = true -> event_ok e.
Proof. destruct e; cbn; intros H; bool_hyps; lia. Qed.

Definition mods_eqb (m m' : mods) : bool := enc m =? enc m'.

Definition strokes_check (c : Z) : bool :=
  (forallb event_okb (strokes c) && bool_decide (typed no_mods (strokes c) = [c]) &&
   bool_decide (enc (foldl after no_mods (strokes c)) = 0))%bool.

Lemma strokes_checked : forallb (fun c => negb (typeable c) || strokes_check c)%bool (seqZ 0 127) = true.
Proof. vm_compute. reflexivity. Qed.

Lemma enc_zero m : enc m = 0 -> m = no_mods.
Proof. destruct m as [[] [] [] [] [] []]; vm_compute; done. Qed.

Lemma strokes_spec c : typeable c = true ->
  Forall event_ok (strokes c) /\ typed no_mods (strokes c) = [c] /\ foldl after no_mods (strokes c) = no_mods.
Proof.
  intros Hc. pose proof strokes_checked as H. rewrite forallb_forall in H. specialize (H c). rewrite Hc in H. cbn [negb orb] in H.
  assert (strokes_check c = true) as Hs.
  { apply H. apply list_elem_of_In, elem_of_seqZ. unfold typeable in Hc.
    apply orb_true_iff in Hc as [Hc|Hc]; bool_hyps; lia. }
  unfold strokes_check in Hs. bool_hyps. split; [|split; [done|by apply enc_zero]].
  apply Forall_forall. intros e He. apply event_okb_ok. eapply forallb_forall; [eassumption|]. by apply list_elem_of_In.
Qed.

Lemma typed_app evs : forall m evs', typed m (evs ++ evs') = typed m evs ++ typed (foldl after m evs) evs'.
Proof. induction evs as [|e evs IH]; intros m evs'; [done|]. cbn [app typed foldl]. by rewrite IH, app_assoc. Qed.

Definition type_text (text : list Z) : list event := concat (strokes <$> text).

Lemma type_text_spec text : Forall (fun c => typeable c = true) text ->
  Forall event_ok (type_text text) /\ typed no_mods (type_text text) = text /\ foldl after no_mods (type_text text) = no_mods.
Proof.
  induction 1 as [|c text Hc Ht (IH1 & IH2 & IH3)]; [done|]. destruct (strokes_spec c Hc) as (H1 & H2 & H3).
  unfold type_text in *. rewrite fmap_cons. cbn [concat]. rewrite Forall_app, typed_app, foldl_app, H2, H3, IH2, IH3. done.
Qed.

(** ** From the keyboard to the reader *)

Lemma consoleintr_edit cs : forall i, input_ok i ->
  input_ok (consoleintr cs i).1.1 /\ abs (consoleintr cs i).1.1 = foldl (fun s c => edit c s) (abs i) cs.
Proof.
  induction cs as [|c cs IH]; intros i Hi; [done|]. cbn [consoleintr foldl].
  destruct (consoleintr_char_edit c i Hi) as [Hok Habs]. destruct (consoleintr_char c i) as [[i1 out1] w1]. cbn [fst] in *.
  destruct (IH i1 Hok) as [Hok2 Habs2]. destruct (consoleintr cs i1) as [[i2 out2] w2]. cbn [fst] in *. by rewrite Habs2, Habs.
Qed.

(** The zeros make no difference to the editor. *)
Lemma edit_filter cs : forall s, foldl (fun s c => edit c s) s cs = foldl (fun s c => edit c s) s (base.filter (fun c => c <> 0) cs).
Proof.
  induction cs as [|c cs IH]; intros s; [done|]. rewrite filter_cons. cbn [foldl]. case_decide as Hc; [apply IH|].
  rewrite <- IH. f_equal. assert (c = 0) as -> by lia. done.
Qed.

Lemma edit_line text : forall l, Forall (fun c => typeable c = true /\ c <> 10) text -> (length l + length text <= 126)%nat ->
  foldl (fun s c => edit c s) (mked [] l) (text ++ [10]) = mked (l ++ text ++ [10]) [].
Proof.
  induction text as [|c text IH]; intros l Ht Hl.
  - cbn [foldl app length] in *. unfold edit. cbn [entered line length]. change (10 =? ctrl 80) with false. change (10 =? ctrl 85) with false.
    change ((10 =? ctrl 72) || (10 =? 127))%bool with false. change (10 =? 0) with false. change (10 =? 13) with false. cbn [orb Z.eqb Pos.eqb].
    unfold INPUT_BUF. rewrite (proj2 (Z.leb_gt _ _)) by lia. done.
  - apply Forall_cons in Ht as [[Hc H10] Ht]. cbn [length] in Hl. cbn [app foldl].
    assert (edit c (mked [] l) = mked [] (l ++ [c])) as ->.
    { unfold typeable in Hc. rewrite (proj2 (Z.eqb_neq c 10)), orb_false_r in Hc by done. bool_hyps.
      unfold edit, ctrl, INPUT_BUF. cbn [entered line length]. rewrite !(proj2 (Z.eqb_neq c _)) by lia. cbn [orb].
      rewrite (proj2 (Z.leb_gt _ _)) by lia. repeat rewrite (proj2 (Z.eqb_neq c _)) by lia. cbn [orb].
      rewrite (proj2 (Z.eqb_neq _ _)); [done|]. rewrite length_app. cbn [length]. lia. }
    rewrite IH; [by rewrite <- app_assoc|done|]. rewrite length_app. cbn. lia.
Qed.

(** ** Interrupts *)

(** Bytes arrive in the controller, and the interrupt handler runs; and so on for each
    portion of the bytes. *)
Fixpoint interrupts (portions : list (list Z)) (s : kbd) (i : input) : kbd * input :=
  match portions with
  | [] => (s, i)
  | p :: portions => let '(s', (i', _, _)) := kbdintr (mkkbd (shift s) (fifo s ++ p)) i in interrupts portions s' i'
  end.

Lemma table_nonneg t data : forallb (Z.leb 0) t = true -> 0 <= at_code t data.
Proof.
  intros Ht. unfold at_code. destruct (t !! _) as [x|] eqn:E; cbn; [|lia]. rewrite forallb_forall in Ht.
  apply Z.leb_le, Ht, list_elem_of_In. by eapply list_elem_of_lookup_2.
Qed.

(** [kbdgetc] returns -1 only when there is no byte. *)
Lemma decode_nonneg sh data : 0 <= (decode sh data).1.
Proof.
  unfold decode, kbdgetc. cbn [fifo shift]. destruct (data =? 224); [done|]. destruct (negb (Z.land data 128 =? 0)); [done|].
  assert (forall i d, 0 <= at_code (charcode i) d) as Hc.
  { intros i d. unfold charcode. repeat case_match; apply table_nonneg; vm_compute; reflexivity. }
  assert (forall i d (b : bool), 0 <= (let c := at_code (charcode i) d in
    if b then if ((97 <=? c) && (c <=? 122))%bool then c + (65 - 97) else if ((65 <=? c) && (c <=? 90))%bool then c + (97 - 65) else c else c)) as Hs.
  { intros i d b. specialize (Hc i d). revert Hc. generalize (at_code (charcode i) d). intros c Hc. cbv zeta. destruct b; [|lia].
    destruct ((97 <=? c) && (c <=? 122))%bool eqn:E; [bool_hyps; lia|]. destruct ((65 <=? c) && (c <=? 90))%bool; lia. }
  destruct (negb (Z.land sh E0ESC =? 0)); apply Hs.
Qed.

(** What the calls of [kbdgetc] return for the bytes, and [shift] after them. *)
Fixpoint getcs (sh : Z) (bytes : list Z) : list Z * Z :=
  match bytes with
  | [] => ([], sh)
  | b :: bytes => let '(l, sh') := getcs (decode sh b).2 bytes in ((decode sh b).1 :: l, sh')
  end.

Lemma getc_loop_getcs bytes : forall sh,
  getc_loop (S (length bytes)) (mkkbd sh bytes) = ((getcs sh bytes).1, mkkbd (getcs sh bytes).2 []).
Proof.
  induction bytes as [|b bytes IH]; intros sh; [done|]. cbn [length getcs].
  erewrite getc_loop_more; [|apply surjective_pairing|apply decode_nonneg|apply IH]. by destruct (getcs _ bytes).
Qed.

Lemma getcs_app a b sh : getcs sh (a ++ b) = ((getcs sh a).1 ++ (getcs (getcs sh a).2 b).1, (getcs (getcs sh a).2 b).2).
Proof.
  revert sh. induction a as [|x a IH]; intros sh; [apply surjective_pairing|]. cbn [app getcs]. rewrite IH. by destruct (getcs (decode sh x).2 a).
Qed.

Lemma consoleintr_app a b i : (consoleintr (a ++ b) i).1.1 = (consoleintr b (consoleintr a i).1.1).1.1.
Proof.
  revert i. induction a as [|c a IH]; intros i; [done|]. cbn [app consoleintr]. destruct (consoleintr_char c i) as [[i1 o1] w1].
  specialize (IH i1). destruct (consoleintr (a ++ b) i1) as [[? ?] ?], (consoleintr a i1) as [[? ?] ?]. exact IH.
Qed.

(** The portions make no difference. *)
Lemma interrupts_concat portions sh i :
  interrupts portions (mkkbd sh []) i =
    (mkkbd (getcs sh (concat portions)).2 [], (consoleintr (getcs sh (concat portions)).1 i).1.1).
Proof.
  revert sh i. induction portions as [|p ps IH]; intros sh i; [done|]. cbn [interrupts concat shift fifo app]. unfold kbdintr. cbn [fifo].
  rewrite getc_loop_getcs, getcs_app. cbn [fst snd]. rewrite consoleintr_app.
  destruct (consoleintr (getcs sh p).1 i) as [[i1 o1] w1]. cbn [fst]. apply IH.
Qed.

(** C30: From the keys to the reader: when a line of at most 126 characters is typed on a US
    keyboard and the console's buffer is empty, the interrupt handler, called each time
    some of the bytes of the keyboard have arrived, takes them, and a process that reads
    from the console gets exactly that line with its newline; keyboard and console are then
    as before. *)
Theorem typed_line_is_read text portions i n :
  Forall (fun c => typeable c = true /\ c <> 10) text -> (length text <= 126)%nat -> (length text < n)%nat ->
  input_ok i -> abs i = mked [] [] -> concat portions = concat (scan <$> type_text (text ++ [10])) ->
  let '(k', i') := interrupts portions (mkkbd 0 []) i in
  k' = mkkbd 0 [] /\ exists i'', consoleread false n n [] i' = (i'', CRet (text ++ [10])) /\ input_ok i'' /\ abs i'' = mked [] [].
Proof.
  intros Ht Hl Hn Hi Ha Hp. assert (Forall (fun c => typeable c = true) (text ++ [10])) as Hty.
  { apply Forall_app. split; [|by repeat constructor]. eapply Forall_impl; [exact Ht|]. by intros c [? _]. }
  destruct (type_text_spec _ Hty) as (Hev & Htyped & Hmods). rewrite interrupts_concat, Hp.
  pose proof (getc_events (type_text (text ++ [10])) no_mods Hev) as Hg. rewrite getc_loop_getcs, Hmods in Hg.
  change (enc no_mods) with 0 in Hg. injection Hg as Hc Hs. rewrite Hc, Hs.
  set (cs := all_codes _ _) in *. destruct (consoleintr_edit cs i Hi) as [Hok Habs].
  rewrite Ha, edit_filter in Habs. unfold cs in Habs. rewrite typed_codes, Htyped, edit_line in Habs by done. fold cs in Habs.
  destruct (consoleintr cs i) as [[i' out] w]. cbn [fst] in *. split; [done|]. cbn [app] in Habs.
  destruct (consoleread_line i' text [] n Hok) as (i'' & Hrd & Hok'' & Habs''); [by rewrite Habs| |done|].
  - eapply Forall_impl; [exact Ht|]. intros c [Hc' H10]. split; [done|]. intros ->. done.
  - exists i''. split; [done|]. split; [done|]. by rewrite Habs'', Habs.
Qed.

(** [Ls "x"], one byte at a time. *)
Lemma typed_line_is_read_witness :
  let portions := [[42]; [38]; [166]; [170]; [31]; [159]; [57]; [185]; [42]; [40]; [168]; [170]; [45]; [173];
                   [42]; [40]; [168]; [170]; [28]; [156]] in
  exists i'', consoleread false 100 100 [] (interrupts portions (mkkbd 0 []) input0).2 = (i'', CRet [76; 115; 32; 34; 120; 34; 10]).
Proof.
  intros portions.
  pose proof (typed_line_is_read [76; 115; 32; 34; 120; 34] portions input0 100 ltac:(repeat constructor; done) ltac:(cbn; lia) ltac:(cbn; lia)
    input0_ok eq_refl eq_refl) as H.
  destruct (interrupts _ _ _) as [k i']. destruct H as (_ & i'' & Hr & _). exists i''. exact Hr.
Defined.

End Kbd.
