(* ===== verification/Kalloc.v ===== *)
(** * The physical memory allocator

    kalloc.c over byte-addressed memory: the free list is threaded through the
    free pages themselves.  Addresses are kernel virtual addresses.  [end_] is the
    first address after the kernel, which the linker gives.

    Shown: the list of free pages as an abstract list that [kfree], [kalloc] and
    [freerange] change as a stack, without repetitions, so that a page is never
    handed out twice. *)

From S2P Require Export CString.
Local Open Scope Z_scope.

Definition PGSIZE : Z := 4096.
Definition KERNBASE : Z := 2147483648.  (* 0x80000000 *)
Definition PHYSTOP : Z := 234881024.    (* 0xE000000 *)
Definition EXTMEM : Z := 1048576.       (* 0x100000 *)
Definition DEVSPACE : Z := 4261412864.  (* 0xFE000000 *)
Definition V2P (a : Z) : Z := a -u KERNBASE.
Definition P2V (a : Z) : Z := a +u KERNBASE.
Definition PGROUNDUP (sz : Z) : Z := Z.land (sz +u (PGSIZE - 1)) (u32 (Z.lnot (PGSIZE - 1))).
Definition PGROUNDDOWN (a : Z) : Z := Z.land a (u32 (Z.lnot (PGSIZE - 1))).

Lemma land_page x : 0 <= x < 2 ^ 32 -> Z.land x (u32 (Z.lnot (PGSIZE - 1))) = x - x mod PGSIZE.
Proof.
  intros Hx. change (u32 (Z.lnot (PGSIZE - 1))) with (Z.shiftl (Z.ones 20) 12).
  assert (x - x mod PGSIZE = Z.shiftl (Z.shiftr x 12) 12) as ->.
  { rewrite Z.shiftl_mul_pow2, Z.shiftr_div_pow2 by lia. change (2 ^ 12) with PGSIZE.
    pose proof (Z.div_mod x PGSIZE). unfold PGSIZE in *. lia. }
  apply Z.bits_inj'. intros n Hn. rewrite Z.land_spec, !Z.shiftl_spec by lia.
  destruct (Z.ltb_spec n 12) as [H12|H12].
  { rewrite (Z.testbit_neg_r (Z.ones 20)), (Z.testbit_neg_r (Z.shiftr x 12)) by lia. apply andb_false_r. }
  rewrite Z.shiftr_spec by lia. replace (n - 12 + 12) with n by lia.
  destruct (Z.ltb_spec (n - 12) 20) as [H20|H20].
  - rewrite Z.ones_spec_low by lia. apply andb_true_r.
  - rewrite Z.ones_spec_high by lia. rewrite andb_false_r. symmetry.
    destruct (decide (x = 0)) as [->|Hne]; [apply Z.bits_0|]. apply Z.bits_above_log2; [lia|].
    apply Z.log2_lt_pow2; [lia|]. apply Z.lt_le_trans with (2 ^ 32); [lia|]. apply Z.pow_le_mono_r; lia.
Qed.

Lemma pgrounddown_spec x : 0 <= x < 2 ^ 32 -> PGROUNDDOWN x = x - x mod PGSIZE.
Proof. apply land_page. Qed.

(** [PGROUNDUP] is the first page boundary from [x] on, when that is an address. *)
Lemma pgroundup_spec x :
  0 <= x -> x + PGSIZE <= 2 ^ 32 ->
  PGROUNDUP x mod PGSIZE = 0 /\ x <= PGROUNDUP x < x + PGSIZE.
Proof.
  intros H0 H1. unfold PGROUNDUP. rewrite u32_small by (unfold PGSIZE in *; lia).
  rewrite land_page by (unfold PGSIZE in *; lia). pose proof (Z.mod_pos_bound (x + (PGSIZE - 1)) PGSIZE) as Hb.
  split; [by rewrite Zminus_mod_idemp_r, Z.sub_diag|]. unfold PGSIZE in *. lia.
Qed.

(** ** Words in memory *)

Module Words.
Import CString.

Definition load32 (m : mem) (a : Z) : Z :=
  u8 (m a) + u8 (m (a + 1)) * 2 ^ 8 + u8 (m (a + 2)) * 2 ^ 16 + u8 (m (a + 3)) * 2 ^ 24.

Lemma split_word w : u8 w + u8 (w / 2 ^ 8) * 2 ^ 8 + u8 (w / 2 ^ 16) * 2 ^ 16 + u8 (w / 2 ^ 24) * 2 ^ 24 = u32 w.
Proof.
  unfold u8, u32. change (2 ^ 16) with (2 ^ 8 * 2 ^ 8). change (2 ^ 24) with (2 ^ 8 * 2 ^ 8 * 2 ^ 8).
  rewrite <- !Z.div_div by lia.
  remember (w / 2 ^ 8) as a eqn:Ha. remember (a / 2 ^ 8) as b eqn:Hb. remember (b / 2 ^ 8) as c eqn:Hc.
  pose proof (Z.div_mod w (2 ^ 8) ltac:(lia)). pose proof (Z.div_mod a (2 ^ 8) ltac:(lia)).
  pose proof (Z.div_mod b (2 ^ 8) ltac:(lia)). pose proof (Z.div_mod c (2 ^ 8) ltac:(lia)).
  pose proof (Z.mod_pos_bound w (2 ^ 8) ltac:(lia)). pose proof (Z.mod_pos_bound a (2 ^ 8) ltac:(lia)).
  pose proof (Z.mod_pos_bound b (2 ^ 8) ltac:(lia)). pose proof (Z.mod_pos_bound c (2 ^ 8) ltac:(lia)).
  apply (Z.mod_unique _ _ (c / 2 ^ 8)); [left|]; lia.
Qed.

Lemma u8_u8 x : u8 (u8 x) = u8 x.
Proof. apply u8_small, u8_range. Qed.

Lemma load_poke_same m a w : load32 (poke32 m a w) a = u32 w.
Proof.
  unfold load32, poke32. rewrite <- split_word.
  repeat (rewrite poke_same || rewrite poke_ne by lia). by rewrite !u8_u8.
Qed.

Lemma load_ext m m' a : (forall x, a <= x < a + 4 -> m' x = m x) -> load32 m' a = load32 m a.
Proof. intros H. unfold load32. by rewrite !H by lia. Qed.

Lemma poke32_out m a w x : x < a \/ a + 4 <= x -> poke32 m a w x = m x.
Proof. intros H. unfold poke32. by rewrite !poke_ne by lia. Qed.

Lemma load_poke_ne m a b w : b + 4 <= a \/ a + 4 <= b -> load32 (poke32 m a w) b = load32 m b.
Proof. intros H. apply load_ext. intros x Hx. apply poke32_out. lia. Qed.

Lemma load32_range m a : 0 <= load32 m a < 2 ^ 32.
Proof.
  unfold load32. pose proof (u8_range (m a)). pose proof (u8_range (m (a + 1))).
  pose proof (u8_range (m (a + 2))). pose proof (u8_range (m (a + 3))). lia.
Qed.
End Words.

Module Kalloc.
Import CString Words.

Record kmem : Type := mkkmem { kmemory : mem; freelist : Z }.

Section Kalloc.
Context (end_ : Z).

(** ** The code *)

Definition kfree (v : Z) (s : kmem) : option kmem :=
  if (negb (v mod PGSIZE =? 0) || (v <? end_) || (PHYSTOP <=? V2P v))%bool
  then None  (* panic("kfree") *)
  else
    let m := memset (kmemory s) v 1 4096 in
    Some (mkkmem (poke32 m v (freelist s)) v).

Definition kalloc (s : kmem) : Z * kmem :=
  let r := freelist s in
  if r =? 0 then (0, s) else (r, mkkmem (kmemory s) (load32 (kmemory s) r)).

(** The loop of [freerange]; [n] bounds the number of pages. *)
Fixpoint freerange_loop (n : nat) (p vend : Z) (s : kmem) : option kmem :=
  match n with
  | O => Some s
  | S n => if p + PGSIZE <=? vend then s' ← kfree p s; freerange_loop n (p + PGSIZE) vend s' else Some s
  end.
Definition freerange (vstart vend : Z) (s : kmem) : option kmem :=
  let p := PGROUNDUP vstart in
  freerange_loop (Z.to_nat ((vend - p) / PGSIZE + 1)) p vend s.

Definition kinit1 (vstart vend : Z) (s : kmem) : option kmem := freerange vstart vend s.
Definition kinit2 (vstart vend : Z) (s : kmem) : option kmem := freerange vstart vend s.

(** ** The abstract free list *)

Definition page_ok (v : Z) : Prop := v mod PGSIZE = 0 /\ end_ <= v < KERNBASE + PHYSTOP.

(** The pages linked from [r]. *)
Fixpoint chain (m : mem) (r : Z) (l : list Z) : Prop :=
  match l with [] => r = 0 | v :: l => r = v /\ chain m (load32 m v) l end.

Definition kmem_ok (s : kmem) (l : list Z) : Prop :=
  chain (kmemory s) (freelist s) l /\ NoDup l /\ Forall page_ok l.

(** The chain depends on the first words of its pages only. *)
Lemma chain_ext m m' r l : (forall v, v ∈ l -> load32 m' v = load32 m v) -> chain m r l -> chain m' r l.
Proof.
  revert r. induction l as [|v l IH]; intros r He; cbn; [done|]. intros [-> Hc]. split; [done|].
  rewrite He by set_solver. apply IH; [|done]. intros w Hw. apply He. set_solver.
Qed.

Context (Hend : KERNBASE <= end_).

Lemma page_ok_range v : page_ok v -> 0 < v < 2 ^ 32.
Proof. intros [_ H]. unfold KERNBASE, PHYSTOP in *. lia. Qed.

Lemma pages_apart v w : page_ok v -> page_ok w -> v <> w -> v + PGSIZE <= w \/ w + PGSIZE <= v.
Proof.
  intros [Hv _] [Hw _] Hne. unfold PGSIZE in *.
  apply Z.mod_divide in Hv as [a ->]; [|lia]. apply Z.mod_divide in Hw as [b ->]; [|lia]. lia.
Qed.

Lemma kfree_valid v : page_ok v ->
  (negb (v mod PGSIZE =? 0) || (v <? end_) || (PHYSTOP <=? V2P v))%bool = false.
Proof.
  intros [Ha Hr]. rewrite Ha. cbn [Z.eqb negb orb]. rewrite (proj2 (Z.ltb_ge _ _)) by lia. cbn [orb].
  apply Z.leb_gt. unfold V2P. rewrite u32_small; unfold KERNBASE, PHYSTOP in *; lia.
Qed.

(** The memory after [kfree] outside the page. *)
Lemma kfree_frame v s x : x < v \/ v + PGSIZE <= x ->
  poke32 (memset (kmemory s) v 1 4096) v (freelist s) x = kmemory s x.
Proof.
  intros Hx. unfold PGSIZE in Hx. rewrite poke32_out by lia. rewrite memset_spec.
  destruct (Z.leb_spec v x), (Z.ltb_spec x (v + Z.of_nat 4096)); cbn [andb]; done || lia.
Qed.

Lemma kfree_spec v s l :
  kmem_ok s l -> page_ok v -> (v ∉ l) ->
  exists s', kfree v s = Some s' /\ kmem_ok s' (v :: l) /\
    forall x, x < v \/ v + PGSIZE <= x -> kmemory s' x = kmemory s x.
Proof.
  intros (Hc & Hnd & Hok) Hv Hni. unfold kfree. rewrite kfree_valid by done. eexists. split; [done|].
  split; [|intros x Hx; by apply kfree_frame].
  split_and!; [|by constructor|by constructor]. cbn [chain freelist kmemory]. split; [done|].
  rewrite load_poke_same. rewrite u32_small.
  - eapply chain_ext; [|exact Hc]. intros w Hw. apply load_ext. intros x Hx. apply kfree_frame.
    rewrite Forall_forall in Hok. destruct (pages_apart v w Hv (Hok w Hw)) as [?|?]; [set_solver|..];
      unfold PGSIZE in *; lia.
  - destruct l as [|w l]; cbn in Hc; [rewrite Hc; lia|]. destruct Hc as [-> _].
    apply Forall_cons in Hok as [Hw _]. apply page_ok_range in Hw. lia.
Qed.

Lemma kalloc_empty s : kmem_ok s [] -> kalloc s = (0, s).
Proof. intros (Hc & _). cbn in Hc. unfold kalloc. by rewrite Hc. Qed.

Lemma kalloc_spec s v l :
  kmem_ok s (v :: l) ->
  exists s', kalloc s = (v, s') /\ kmem_ok s' l /\ (v ∉ l) /\ page_ok v /\ kmemory s' = kmemory s.
Proof.
  intros ([Hv Hc] & Hnd & Hok). apply NoDup_cons in Hnd as [Hni Hnd]. apply Forall_cons in Hok as [Hpv Hok].
  unfold kalloc. rewrite Hv. pose proof (page_ok_range v Hpv). rewrite (proj2 (Z.eqb_neq v 0)) by lia.
  eexists. split; [done|]. split_and!; done.
Qed.

(** [kalloc] and [kfree] keep the list of free pages.  With [l] the free pages:
    [kalloc] fails exactly when there is none, and otherwise returns a page that was
    free and is no more, without changing memory; [kfree] of an allocated page makes
    it free, and changes no byte outside that page. *)
Theorem kalloc_kfree s l :
  kmem_ok s l ->
  (if decide (l = []) then kalloc s = (0, s)
   else exists v l' s', l = v :: l' /\ kalloc s = (v, s') /\ v <> 0 /\ kmem_ok s' l' /\ (v ∉ l') /\
     kmemory s' = kmemory s) /\
  (forall v, page_ok v -> (v ∉ l) -> exists s', kfree v s = Some s' /\ kmem_ok s' (v :: l) /\
     forall x, x < v \/ v + PGSIZE <= x -> kmemory s' x = kmemory s x).
Proof.
  intros Hok. split; [|intros v; by apply kfree_spec].
  destruct l as [|v l]; [rewrite decide_True by done; by apply kalloc_empty|]. rewrite decide_False by done.
  destruct (kalloc_spec s v l Hok) as (s' & H1 & H2 & H3 & H4 & H5). exists v, l, s'.
  apply page_ok_range in H4. split_and!; try done. lia.
Qed.

(** The pages from [p] on that end by [vend]. *)
Definition pages_from (p : Z) (n : nat) : list Z := (fun i => p + PGSIZE * Z.of_nat i) <$> seq 0 n.

Lemma pages_from_S p n : pages_from p (S n) = p :: pages_from (p + PGSIZE) n.
Proof.
  unfold pages_from. cbn [seq]. rewrite fmap_cons. f_equal; [unfold PGSIZE; lia|].
  rewrite <- (fmap_S_seq 0 n), <- list_fmap_compose. apply list_fmap_ext. intros i x _. cbn. unfold PGSIZE. lia.
Qed.

Lemma elem_of_pages_from p n v : v ∈ pages_from p n -> exists i, (i < n)%nat /\ v = p + PGSIZE * Z.of_nat i.
Proof. intros (i & -> & Hi)%list_elem_of_fmap. apply elem_of_seq in Hi. exists i. split; [lia|done]. Qed.

Lemma freerange_loop_spec n : forall fuel p vend s l,
  kmem_ok s l -> (n <= fuel)%nat ->
  p + PGSIZE * Z.of_nat n <= vend < p + PGSIZE * Z.of_nat (S n) ->
  (forall v, v ∈ pages_from p n -> page_ok v /\ (v ∉ l)) ->
  exists s', freerange_loop fuel p vend s = Some s' /\ kmem_ok s' (reverse (pages_from p n) ++ l).
Proof.
  induction n as [|n IH]; intros fuel p vend s l Hok Hf Hv Hp.
  - exists s. split; [|done]. destruct fuel as [|fuel]; [done|]. cbn [freerange_loop].
    rewrite (proj2 (Z.leb_gt _ _)) by (unfold PGSIZE in *; lia). done.
  - destruct fuel as [|fuel]; [lia|]. cbn [freerange_loop].
    rewrite (proj2 (Z.leb_le _ _)) by (unfold PGSIZE in *; lia).
    rewrite pages_from_S in Hp. destruct (Hp p) as [Hpp Hpl]; [set_solver|].
    destruct (kfree_spec p s l Hok Hpp Hpl) as (s1 & Hrun & Hok1 & _). rewrite Hrun. cbn [mbind option_bind].
    destruct (IH fuel (p + PGSIZE) vend s1 (p :: l)) as (s' & Hs' & Hok'); [done|lia|unfold PGSIZE in *; lia| |].
    + intros v Hv'. destruct (Hp v) as [H1 H2]; [set_solver|]. split; [done|].
      apply elem_of_pages_from in Hv' as (i & _ & ->). unfold PGSIZE in *. rewrite not_elem_of_cons. split; [lia|done].
    + exists s'. split; [done|]. rewrite pages_from_S, reverse_cons, <- app_assoc. done.
Qed.

(** [freerange] puts on the free list exactly the pages that lie whole between
    its bounds, the highest first. *)
Theorem freerange_frees vstart vend s :
  end_ <= vstart -> vstart + PGSIZE <= vend <= KERNBASE + PHYSTOP -> kmem_ok s [] ->
  exists n s', freerange vstart vend s = Some s' /\
    kmem_ok s' (reverse (pages_from (PGROUNDUP vstart) n)) /\
    (forall v, v mod PGSIZE = 0 -> vstart <= v -> v + PGSIZE <= vend ->
       v ∈ pages_from (PGROUNDUP vstart) n).
Proof.
  intros He Hv Hok. unfold freerange. cbv zeta. unfold KERNBASE, PHYSTOP in *.
  destruct (pgroundup_spec vstart) as [Ha Hr]; [lia|unfold PGSIZE in *; lia|].
  set (p := PGROUNDUP vstart) in *. clearbody p.
  assert (0 <= (vend - p) / PGSIZE) as Hn by (apply Z.div_pos; unfold PGSIZE in *; lia).
  set (n := Z.to_nat ((vend - p) / PGSIZE)). exists n.
  pose proof (Z.div_mod (vend - p) PGSIZE ltac:(done)) as Hdm. pose proof (Z.mod_pos_bound (vend - p) PGSIZE ltac:(done)) as Hmb.
  destruct (freerange_loop_spec n (Z.to_nat ((vend - p) / PGSIZE + 1)) p vend s []) as (s' & Hrun & Hok').
  - done.
  - unfold n. lia.
  - unfold n. rewrite Nat2Z.inj_succ, Z2Nat.id by done. unfold PGSIZE in *. lia.
  - intros v (i & Hi & ->)%elem_of_pages_from. split; [|apply not_elem_of_nil]. unfold n in Hi.
    split; [by rewrite Z.mul_comm, Z.mod_add by done|]. unfold PGSIZE, KERNBASE, PHYSTOP in *. lia.
  - exists s'. rewrite app_nil_r in Hok'. split; [done|split; [done|]].
    intros v Hvm Hv1 Hv2. apply list_elem_of_fmap. exists (Z.to_nat ((v - p) / PGSIZE)).
    assert ((v - p) mod PGSIZE = 0) as Hm by (rewrite Zminus_mod, Hvm, Ha; done).
    assert (p <= v) as Hpv.
    { apply Z.mod_divide in Hvm as [a ->]; [|done]. apply Z.mod_divide in Ha as [b ->]; [|done].
      unfold PGSIZE in *. lia. }
    pose proof (Z.div_mod (v - p) PGSIZE ltac:(done)) as Hd2. assert (0 <= (v - p) / PGSIZE) by (apply Z.div_pos; unfold PGSIZE in *; lia).
    rewrite Z2Nat.id by done. split; [unfold PGSIZE in *; lia|]. apply elem_of_seq. unfold n. split; [lia|].
    cbn. apply Z2Nat.inj_lt; [done|done|]. unfold PGSIZE in *. lia.
Qed.
End Kalloc.

Lemma freerange_frees_witness :
  exists n s', freerange 2148532224 2148532225 2148540416 (mkkmem (fun _ => 0) 0) = Some s' /\
    kmem_ok 2148532224 s' (reverse (pages_from (PGROUNDUP 2148532225) n)).
Proof.
  destruct (freerange_frees 2148532224 ltac:(unfold KERNBASE; lia) 2148532225 2148540416 (mkkmem (fun _ => 0) 0))
    as (n & s' & H1 & H2 & _); [lia|unfold PGSIZE, KERNBASE, PHYSTOP; lia| |].
  - split; [reflexivity|]. split; [apply NoDup_nil_2|constructor].
  - exists n, s'. split; [exact H1|exact H2].
Defined.

Lemma kalloc_kfree_witness :
  exists s', kfree 2148532224 2148532224 (mkkmem (fun _ => 0) 0) = Some s' /\
    kmem_ok 2148532224 s' [2148532224].
Proof.
  destruct (kalloc_kfree 2148532224 ltac:(unfold KERNBASE; lia) (mkkmem (fun _ => 0) 0) []) as [_ H].
  - split; [reflexivity|]. split; [apply NoDup_nil_2|constructor].
  - destruct (H 2148532224) as (s' & H1 & H2 & _).
    + split; [reflexivity|]. unfold KERNBASE, PHYSTOP. lia.
    + apply not_elem_of_nil.
    + exists s'. split; [exact H1|exact H2].
Defined.
End Kalloc.
