(* ===== verification/Mp.v ===== *)
(** * Finding the processors (mp.c)

    The BIOS describes the processors of the machine in a table in memory, with a pointer to
    the table in one of three places.  [mpinit] finds the table and enters the processors in
    [cpus].  Memory is a function from the kernel's virtual addresses to bytes; what [inb]
    reads from the port of the IMCR is an argument.

    Shown: [mpsearch1] returns the first structure with the signature and a correct
    checksum; from a table of the five known kinds of entries [mpinit] takes the first NCPU
    processors, in their order, and the last I/O APIC; and on a table with an entry of
    another kind it loops for ever, before it reaches the panic that is meant for it. *)

From S2P Require Export Kalloc Bytes.
Local Open Scope Z_scope.

Module Mp.
Import CString Kalloc.

Definition NCPU : nat := 8.

(** What mp.c changes; [out] is the bytes written to ports. *)
Record machine : Type := mkmachine {
  memory : mem;
  cpus : list Z;       (* the field apicid of each *)
  ncpu : nat;
  ioapicid : Z;
  lapic : Z;
  out : list (Z * Z)
}.

Definition set_cpus (l : list Z) (n : nat) (s : machine) : machine := mkmachine (memory s) l n (ioapicid s) (lapic s) (out s).
Definition set_ioapicid (i : Z) (s : machine) : machine := mkmachine (memory s) (cpus s) (ncpu s) i (lapic s) (out s).
Definition set_lapic (a : Z) (s : machine) : machine := mkmachine (memory s) (cpus s) (ncpu s) (ioapicid s) a (out s).
Definition mp_outb (port v : Z) (s : machine) : machine := mkmachine (memory s) (cpus s) (ncpu s) (ioapicid s) (lapic s) (out s ++ [(port, v)]).

(** Fields of the structures of mp.h at an address. *)
Definition byte_at (m : mem) (a : Z) : Z := m (u32 a).
Definition half_at (m : mem) (a : Z) : Z := byte_at m a + 2 ^ 8 * byte_at m (a + 1).
Definition word_at (m : mem) (a : Z) : Z := half_at m a + 2 ^ 16 * half_at m (a + 2).

Definition mp_physaddr (m : mem) (p : Z) : Z := word_at m (p + 4).
Definition mp_imcrp (m : mem) (p : Z) : Z := byte_at m (p + 12).
Definition mp_size : Z := 16.
Definition mpconf_length (m : mem) (c : Z) : Z := half_at m (c + 4).
Definition mpconf_version (m : mem) (c : Z) : Z := byte_at m (c + 6).
Definition mpconf_lapicaddr (m : mem) (c : Z) : Z := word_at m (c + 36).
Definition mpconf_size : Z := 44.
Definition mpproc_size : Z := 20.
Definition mpioapic_size : Z := 8.
Definition entry_id (m : mem) (p : Z) : Z := byte_at m (p + 1).  (* mpproc.apicid, mpioapic.apicno *)

Definition MPPROC : Z := 0.
Definition MPBUS : Z := 1.
Definition MPIOAPIC : Z := 2.
Definition MPIOINTR : Z := 3.
Definition MPLINTR : Z := 4.

Fixpoint sum_loop (n : nat) (m : mem) (addr acc : Z) : Z :=
  match n with O => acc | S n => sum_loop n m (addr + 1) (s32 (acc + byte_at m addr)) end.
Definition sum (m : mem) (addr : Z) (len : nat) : Z := u8 (sum_loop len m addr 0).

(** [memcmp(p, sig, 4)] *)
Definition has_signature (m : mem) (p : Z) (sig : list Z) : bool :=
  memcmp 4 (fun i => byte_at m (p + Z.of_nat i)) (fun i => default 0 (sig !! i)) =? 0.
Definition sig_MP : list Z := [95; 77; 80; 95].
Definition sig_PCMP : list Z := [80; 67; 77; 80].

Fixpoint mpsearch1_loop (fuel : nat) (m : mem) (p e : Z) : option Z :=
  match fuel with
  | O => None
  | S fuel =>
      if p <? e then
        if (has_signature m p sig_MP && (sum m p (Z.to_nat mp_size) =? 0))%bool then Some p
        else mpsearch1_loop fuel m (p +u mp_size) e
      else None
  end.

(** Look for an MP structure in the len bytes at addr. *)
Definition mpsearch1 (m : mem) (a len : Z) : option Z :=
  let addr := P2V a in mpsearch1_loop (Z.to_nat (len / mp_size + 1)) m addr (addr +u len).

Definition mpsearch (m : mem) : option Z :=
  let bda := P2V 1024 in
  let p := Z.shiftl (Z.lor (Z.shiftl (byte_at m (bda + 15)) 8) (byte_at m (bda + 14))) 4 in
  let rom := mpsearch1 m 983040 65536 in
  if negb (p =? 0) then
    match mpsearch1 m p 1024 with Some mp => Some mp | None => rom end
  else
    let p := Z.lor (Z.shiftl (byte_at m (bda + 20)) 8) (byte_at m (bda + 19)) * 1024 in
    match mpsearch1 m (p -u 1024) 1024 with Some mp => Some mp | None => rom end.

(** The MP structure and the configuration table. *)
Definition mpconfig (m : mem) : option (Z * Z) :=
  match mpsearch m with
  | None => None
  | Some mp =>
      if mp_physaddr m mp =? 0 then None else
      let conf := P2V (mp_physaddr m mp) in
      if negb (has_signature m conf sig_PCMP) then None else
      if (negb (mpconf_version m conf =? 1) && negb (mpconf_version m conf =? 4))%bool then None else
      if negb (sum m conf (Z.to_nat (mpconf_length m conf)) =? 0) then None else
      Some (mp, conf)
  end.

(** The loop over the table, at [p]; the result is [ismp].  The [break] of the default case
    leaves the [switch] only. *)
Fixpoint mpinit_loop (fuel : nat) (p e : Z) (ismp : bool) : K machine bool :=
  match fuel with
  | O => sleep_on (ChSpin 0)
  | S fuel =>
      if p <? e then
        m ← gets memory;
        let ty := byte_at m p in
        if ty =? MPPROC then
          n ← gets ncpu;
          l ← gets cpus;
          (if (n <? NCPU)%nat then modify (set_cpus (<[n := entry_id m p]> l) (S n)) else mret tt);;
          mpinit_loop fuel (p +u mpproc_size) e ismp
        else if ty =? MPIOAPIC then
          modify (set_ioapicid (entry_id m p));;
          mpinit_loop fuel (p +u mpioapic_size) e ismp
        else if ((ty =? MPBUS) || (ty =? MPIOINTR) || (ty =? MPLINTR))%bool then
          mpinit_loop fuel (p +u 8) e ismp
        else mpinit_loop fuel p e false
      else mret ismp
  end.

Section Init.
Context (imcr : Z).  (* inb(0x23) *)

Definition mpinit (fuel : nat) : K machine unit :=
  m ← gets memory;
  match mpconfig m with
  | None => panic "Expect to run on an SMP"
  | Some (mp, conf) =>
      modify (set_lapic (mpconf_lapicaddr m conf));;
      ismp ← mpinit_loop fuel (conf +u mpconf_size) (conf +u mpconf_length m conf) true;
      if negb ismp then panic "Didn't find a suitable machine" else
      if negb (mp_imcrp m mp =? 0) then
        modify (mp_outb 34 112);;  (* Select IMCR *)
        modify (mp_outb 35 (Z.lor imcr 1))  (* Mask external interrupts. *)
      else mret tt
  end.

End Init.

(** ** The search *)

(** An MP structure. *)
Definition is_mp (m : mem) (p : Z) : Prop := has_signature m p sig_MP = true /\ sum m p 16 = 0.

(** [mpsearch1] finds the first one of the range, or says that there is none. *)
Lemma mpsearch1_first m a n :
  0 <= a -> a + 16 * Z.of_nat n < 2 ^ 31 ->
  match mpsearch1 m a (16 * Z.of_nat n) with
  | Some p => exists k, (k < n)%nat /\ p = P2V a + 16 * Z.of_nat k /\ is_mp m p /\
      forall j, (j < k)%nat -> ~ is_mp m (P2V a + 16 * Z.of_nat j)
  | None => forall j, (j < n)%nat -> ~ is_mp m (P2V a + 16 * Z.of_nat j)
  end.
Proof.
  intros Ha Hn. unfold mpsearch1, mp_size. rewrite Z.mul_comm, Z.div_mul by lia. rewrite Z.mul_comm.
  replace (Z.to_nat (Z.of_nat n + 1)) with (S n) by lia. cbv zeta.
  assert (P2V a = a + 2147483648) as -> by (unfold P2V, KERNBASE; apply u32_small; lia).
  set (b := a + 2147483648). rewrite (u32_small (b + _)) by lia.
  assert (forall i, (i <= n)%nat -> (forall j, (j < i)%nat -> ~ is_mp m (b + 16 * Z.of_nat j)) ->
    match mpsearch1_loop (S n - i) m (b + 16 * Z.of_nat i) (b + 16 * Z.of_nat n) with
    | Some p => exists k, (k < n)%nat /\ p = b + 16 * Z.of_nat k /\ is_mp m p /\ forall j, (j < k)%nat -> ~ is_mp m (b + 16 * Z.of_nat j)
    | None => forall j, (j < n)%nat -> ~ is_mp m (b + 16 * Z.of_nat j)
    end) as Hloop.
  { intros i. remember (n - i)%nat as d eqn:Hd. revert i Hd. induction d as [|d IH]; intros i Hd Hi Hno.
    - replace (S n - i)%nat with 1%nat by lia. replace i with n in * by lia. cbn [mpsearch1_loop]. by rewrite Z.ltb_irrefl.
    - replace (S n - i)%nat with (S (S n - S i)) by lia. cbn [mpsearch1_loop].
      rewrite (proj2 (Z.ltb_lt _ _)) by lia. change (Z.to_nat mp_size) with 16%nat.
      destruct (has_signature m (b + 16 * Z.of_nat i) sig_MP && (sum m (b + 16 * Z.of_nat i) 16 =? 0))%bool eqn:Hf.
      + apply andb_prop in Hf as [Hf1 Hf2%Z.eqb_eq]. exists i. split_and!; [lia|done|done|done].
      + unfold mp_size. rewrite u32_small by lia. replace (b + 16 * Z.of_nat i + 16) with (b + 16 * Z.of_nat (S i)) by lia.
        apply IH; [lia|lia|]. intros j Hj [H1 H2]. destruct (decide (j = i)) as [->|]; [|apply (Hno j); [lia|done]].
        rewrite H1, H2 in Hf. done. }
  specialize (Hloop 0%nat ltac:(lia) ltac:(lia)). replace (b + 16 * Z.of_nat 0) with b in Hloop by lia. exact Hloop.
Qed.

(** ** The table *)

(** The entries, with the bytes behind the identifier or the type. *)
Inductive ent : Type :=
  | EProc (apicid : Z) (rest : list Z)
  | EIoapic (apicno : Z) (rest : list Z)
  | EOther (ty : Z) (rest : list Z).

Definition ent_bytes (x : ent) : list Z :=
  match x with EProc i r => MPPROC :: i :: r | EIoapic i r => MPIOAPIC :: i :: r | EOther ty r => ty :: r end.
Definition ent_ok (x : ent) : Prop :=
  match x with
  | EProc _ r => length r = 18%nat
  | EIoapic _ r => length r = 6%nat
  | EOther ty r => length r = 7%nat /\ (ty = MPBUS \/ ty = MPIOINTR \/ ty = MPLINTR)
  end.

(** What [mpinit] makes of the entries. *)
Definition proc_ids (es : list ent) : list Z := omap (fun x => match x with EProc i _ => Some i | _ => None end) es.
Definition ioapic_ids (es : list ent) : list Z := omap (fun x => match x with EIoapic i _ => Some i | _ => None end) es.

Definition enter_cpu (l : list Z * nat) (i : Z) : list Z * nat :=
  if (l.2 <? NCPU)%nat then (<[l.2 := i]> l.1, S l.2) else l.

(** The bytes [l] are at [a]. *)
Definition holds (m : mem) (a : Z) (l : list Z) : Prop := forall i x, l !! i = Some x -> byte_at m (a + Z.of_nat i) = x.

Lemma holds_app m a l k : holds m a (l ++ k) -> holds m a l /\ holds m (a + Z.of_nat (length l)) k.
Proof.
  intros H. split; intros i x Hi.
  - apply H. by apply lookup_app_l_Some.
  - replace (a + Z.of_nat (length l) + Z.of_nat i) with (a + Z.of_nat (length l + i)) by lia. apply H.
    rewrite lookup_app_r by lia. by replace (length l + i - length l)%nat with i by lia.
Qed.

(** The state after the entries [es]. *)
Definition entered (es : list ent) (s : machine) : machine :=
  let c := foldl enter_cpu (cpus s, ncpu s) (proc_ids es) in
  mkmachine (memory s) c.1 c.2 (default (ioapicid s) (last (ioapic_ids es))) (lapic s) (out s).

Lemma entered_proc i r es s : entered (EProc i r :: es) s = let c := enter_cpu (cpus s, ncpu s) i in entered es (set_cpus c.1 c.2 s).
Proof. unfold entered. cbn -[enter_cpu]. by destruct (enter_cpu _ _). Qed.

Lemma entered_ioapic i r es s : entered (EIoapic i r :: es) s = entered es (set_ioapicid i s).
Proof. unfold entered, ioapic_ids. cbn. rewrite last_cons. by destruct (last _). Qed.

(** The loop gets over the entries it knows. *)
Lemma mpinit_loop_table es s p e fuel :
  Forall ent_ok es -> holds (memory s) p (concat (ent_bytes <$> es)) -> 0 <= p ->
  p + Z.of_nat (length (concat (ent_bytes <$> es))) <= e -> e < 2 ^ 32 ->
  mpinit_loop (length es + fuel) p e true s =
  mpinit_loop fuel (p + Z.of_nat (length (concat (ent_bytes <$> es)))) e true (entered es s).
Proof.
  revert s p. induction es as [|x es IH]; intros s p Hok Hh Hp Hle Hlt.
  - cbn. rewrite Z.add_0_r. by destruct s.
  - apply Forall_cons in Hok as [Hx Hok]. rewrite fmap_cons in *. cbn [concat] in *. rewrite length_app in *.
    destruct (holds_app _ _ _ _ Hh) as [H1 H2]. cbn [length].
    set (k := length (concat (ent_bytes <$> es))) in *. set (n := length (ent_bytes x)) in *.
    assert (forall s', memory s' = memory s ->
      mpinit_loop (length es + fuel) (p +u Z.of_nat n) e true s' = mpinit_loop fuel (p + Z.of_nat (n + k)) e true (entered es s')) as Hnext.
    { intros s' Hs'. rewrite u32_small by lia. replace (p + Z.of_nat (n + k)) with (p + Z.of_nat n + Z.of_nat k) by lia.
      apply IH; [done|by rewrite Hs'|lia|lia|lia]. }
    assert (0 < n)%nat as Hn by (unfold n; destruct x; cbn; lia).
    cbn [mpinit_loop Nat.add]. rewrite (proj2 (Z.ltb_lt _ _)) by lia. unfold mbind, K_bind, gets, modify.
    assert (byte_at (memory s) p = match x with EProc _ _ => 0 | EIoapic _ _ => 2 | EOther ty _ => ty end) as ->.
    { pose proof (H1 0%nat) as H0. replace (p + Z.of_nat 0) with p in H0 by lia. destruct x; by apply H0. }
    destruct x as [i r|i r|ty r]; cbn [ent_ok] in Hx.
    + assert (entry_id (memory s) p = i) as -> by (apply (H1 1%nat); done). change (0 =? MPPROC) with true. cbv iota.
      assert (mpproc_size = Z.of_nat n) as -> by (unfold n, mpproc_size; cbn; lia). rewrite entered_proc. unfold enter_cpu.
      cbn [fst snd]. destruct (ncpu s <? NCPU)%nat; cbn [mret K_ret fst snd]; rewrite Hnext by done; [done|]. by destruct s.
    + assert (entry_id (memory s) p = i) as -> by (apply (H1 1%nat); done).
      change (2 =? MPPROC) with false. change (2 =? MPIOAPIC) with true. cbv iota.
      assert (mpioapic_size = Z.of_nat n) as -> by (unfold n, mpioapic_size; cbn; lia). by rewrite Hnext, entered_ioapic.
    + destruct Hx as [Hr Hty]. assert ((ty =? MPPROC) = false /\ (ty =? MPIOAPIC) = false /\ ((ty =? MPBUS) || (ty =? MPIOINTR) || (ty =? MPLINTR))%bool = true) as (-> & -> & ->).
      { unfold MPBUS, MPIOINTR, MPLINTR in *. by destruct Hty as [-> |[-> | ->]]. }
      assert (8 = Z.of_nat n) as -> by (unfold n; cbn; lia). by apply Hnext.
Qed.

Lemma enter_all l n ids : (n <= length l)%nat -> length l = NCPU ->
  let c := foldl enter_cpu (l, n) ids in
  c.2 = Nat.min NCPU (n + length ids) /\ length c.1 = NCPU /\ take c.2 c.1 = take NCPU (take n l ++ ids).
Proof.
  revert l n. induction ids as [|i ids IH]; intros l n Hn Hl; cbn zeta.
  - cbn [foldl fst snd length]. split_and!; [lia|done|]. by rewrite app_nil_r, take_take, Nat.min_r by lia.
  - cbn [foldl]. change (enter_cpu (l, n) i) with (if (n <? NCPU)%nat then (<[n := i]> l, S n) else (l, n)). destruct (Nat.ltb_spec n NCPU).
    + destruct (IH (<[n := i]> l) (S n)) as (H1 & H2 & H3); [rewrite length_insert; lia|by rewrite length_insert|]. cbn zeta in *.
      split_and!; [rewrite H1; cbn [length]; lia|done|]. rewrite H3. f_equal. rewrite (take_S_r _ n i) by (apply list_lookup_insert_eq; lia).
      rewrite take_insert_ge by lia. by rewrite <- app_assoc.
    + assert (n = NCPU) as -> by lia. destruct (IH l NCPU ltac:(lia) Hl) as (H1 & H2 & H3). cbn zeta in *. split_and!; [rewrite H1; cbn [length]; lia|done|].
      rewrite H3. rewrite !take_app_le by (rewrite length_take; lia). done.
Qed.

Section Parsed.
Context (imcr : Z) (s : machine) (mp conf : Z) (es : list ent).
Hypothesis Hconf : mpconfig (memory s) = Some (mp, conf).
Hypothesis Hes : Forall ent_ok es.
Hypothesis Hh : holds (memory s) (conf + mpconf_size) (concat (ent_bytes <$> es)).
Hypothesis Hc : 0 <= conf.
Hypothesis Hend : conf + mpconf_length (memory s) conf < 2 ^ 32.

Let n : Z := Z.of_nat (length (concat (ent_bytes <$> es))).
Let s1 : machine := entered es (set_lapic (mpconf_lapicaddr (memory s) conf) s).

Lemma mpinit_table fuel :
  mpconf_size + n <= mpconf_length (memory s) conf ->
  mpinit imcr (length es + fuel) s =
  (ismp ← mpinit_loop fuel (conf + mpconf_size + n) (conf + mpconf_length (memory s) conf) true;
   if negb (ismp : bool) then panic "Didn't find a suitable machine" else
   if negb (mp_imcrp (memory s) mp =? 0) then modify (mp_outb 34 112);; modify (mp_outb 35 (Z.lor imcr 1)) else mret tt) s1.
Proof.
  intros Hlen. unfold mpinit. unfold mbind at 1, K_bind at 1, gets at 1. rewrite Hconf. unfold mbind at 1, K_bind at 1, modify at 1.
  unfold n, s1 in *. unfold mpconf_size in *. rewrite !(u32_small (conf + _)) by lia.
  unfold mbind at 1 4, K_bind at 1 4. rewrite mpinit_loop_table; [done|done|done|lia|lia|lia].
Qed.

End Parsed.

(** From a configuration table that [mpconfig] accepts and whose entries are of the five
    known kinds, [mpinit] enters the processors in the order of the table, as many as there
    is room for, and the last I/O APIC, and takes the address of the local APIC. *)
Theorem mpinit_finds_cpus imcr s mp conf es fuel :
  mpconfig (memory s) = Some (mp, conf) -> Forall ent_ok es ->
  holds (memory s) (conf + mpconf_size) (concat (ent_bytes <$> es)) ->
  mpconf_length (memory s) conf = mpconf_size + Z.of_nat (length (concat (ent_bytes <$> es))) ->
  0 <= conf -> conf + mpconf_length (memory s) conf < 2 ^ 32 ->
  length (cpus s) = NCPU -> ncpu s = 0%nat -> (length es < fuel)%nat ->
  exists s', mpinit imcr fuel s = Ret tt s' /\
    ncpu s' = Nat.min NCPU (length (proc_ids es)) /\ take (ncpu s') (cpus s') = take NCPU (proc_ids es) /\
    ioapicid s' = default (ioapicid s) (last (ioapic_ids es)) /\
    lapic s' = mpconf_lapicaddr (memory s) conf /\ memory s' = memory s.
Proof.
  intros Hconf Hes Hh Hlen Hc Hend Hcpus Hn Hf. replace fuel with (length es + S (fuel - S (length es)))%nat by lia.
  rewrite (mpinit_table imcr s mp conf es Hconf Hes Hh Hc Hend) by lia. unfold mbind at 1, K_bind at 1. cbn [mpinit_loop].
  rewrite Hlen, Z.add_assoc, Z.ltb_irrefl. cbn [mret K_ret negb].
  destruct (enter_all (cpus s) 0 (proc_ids es)) as (H1 & _ & H3); [lia|done|]. cbn zeta in *. rewrite take_0 in H3. cbn [app Nat.add] in *.
  destruct (mp_imcrp (memory s) mp =? 0); cbn [negb]; (eexists; split; [reflexivity|]); cbn; rewrite Hn; done.
Qed.

(** A table with an entry of another kind is never done with. *)
Lemma mpinit_unknown_loops imcr s mp conf es fuel :
  mpconfig (memory s) = Some (mp, conf) -> Forall ent_ok es ->
  holds (memory s) (conf + mpconf_size) (concat (ent_bytes <$> es)) ->
  let n := Z.of_nat (length (concat (ent_bytes <$> es))) in
  mpconf_size + n < mpconf_length (memory s) conf -> 4 < byte_at (memory s) (conf + mpconf_size + n) ->
  0 <= conf -> conf + mpconf_length (memory s) conf < 2 ^ 32 ->
  exists s', mpinit imcr (length es + fuel) s = Sleep (ChSpin 0) s'.
Proof.
  intros Hconf Hes Hh n Hlen Hty Hc Hend. rewrite (mpinit_table imcr s mp conf es Hconf Hes Hh Hc Hend) by lia.
  set (s1 := entered _ _). assert (memory s1 = memory s) as Hm by done.
  assert (forall ismp, mpinit_loop fuel (conf + mpconf_size + n) (conf + mpconf_length (memory s) conf) ismp s1 = Sleep (ChSpin 0) s1) as Hloop.
  { induction fuel as [|fuel IH]; intros ismp; [done|]. cbn [mpinit_loop]. rewrite (proj2 (Z.ltb_lt _ _)) by lia.
    unfold mbind, K_bind, gets. rewrite Hm. unfold MPPROC, MPIOAPIC, MPBUS, MPIOINTR, MPLINTR. rewrite !(proj2 (Z.eqb_neq _ _)) by lia. apply IH. }
  exists s1. unfold mbind at 1, K_bind at 1. by rewrite Hloop.
Qed.

(** ** A machine with two processors *)

Fixpoint holdsb (m : mem) (a : Z) (l : list Z) : bool :=
  match l with [] => true | x :: l => ((byte_at m a =? x) && holdsb m (a + 1) l)%bool end.

Lemma holdsb_holds m a l : holdsb m a l = true -> holds m a l.
Proof.
  revert a. induction l as [|y l IH]; intros a Hb i x Hi; [done|]. cbn in Hb. apply andb_prop in Hb as [Hy%Z.eqb_eq Hb].
  destruct i as [|i]; [injection Hi as <-; by rewrite Z.add_0_r|].
  replace (a + Z.of_nat (S i)) with (a + 1 + Z.of_nat i) by lia. by apply IH.
Qed.

Definition checksum (l : list Z) : Z := u8 (- foldr Z.add 0 l).
Definition table2 : list ent := [EProc 0 (replicate 18 7); EProc 4 (replicate 18 7); EOther 1 (replicate 7 3); EIoapic 2 (replicate 6 1)].
Definition conf2 : list Z :=
  let head c := sig_PCMP ++ [100; 0; 4; c] ++ replicate 28 0 ++ [0; 0; 224; 254] ++ replicate 4 0 in
  let body := concat (ent_bytes <$> table2) in
  head (checksum (head 0 ++ body)) ++ body.
Definition float2 : list Z := let s c := sig_MP ++ [0; 16; 0; 0; 1; 4; c; 0; 0; 0; 0; 0] in s (checksum (s 0)).
Definition bytes_at (base : Z) (l : list Z) (a : Z) : Z := if a <? base then 0 else default 0 (l !! Z.to_nat (a - base)).
Definition memory2 : mem := fun a =>
  if a <? KERNBASE + 983040 then bytes_at (KERNBASE + 4096) conf2 a else bytes_at (KERNBASE + 983040) float2 a.
Definition machine2 : machine := mkmachine memory2 (replicate NCPU 0) 0 0 0 [].

Lemma mpinit_finds_cpus_witness :
  exists s', mpinit 0 100 machine2 = Ret tt s' /\ ncpu s' = 2%nat /\ take (ncpu s') (cpus s') = [0; 4] /\ ioapicid s' = 2.
Proof.
  destruct (mpinit_finds_cpus 0 machine2 (KERNBASE + 983040) (KERNBASE + 4096) table2 100) as (s' & H1 & H2 & H3 & H4 & _).
  - vm_compute. reflexivity.
  - repeat constructor; auto.
  - apply holdsb_holds. vm_compute. reflexivity.
  - vm_compute. reflexivity.
  - vm_compute. discriminate.
  - vm_compute. reflexivity.
  - reflexivity.
  - reflexivity.
  - apply Nat.ltb_lt. reflexivity.
  - exists s'. split; [exact H1|]. split; [exact H2|]. split; [exact H3|exact H4].
Defined.

End Mp.
