(* ===== verification/Boot.v ===== *)
(** * The boot loader (bootmain.c)

    [bootmain] reads the kernel, an ELF file that starts at sector 1 of the disk, into memory
    and jumps to its entry.  The state is physical memory and the disk controller, which is
    driven by polling: the class [IdeOps] of Ide.v with the laws [PollLaws].

    Shown: [readseg] reads whole sectors, and so writes before and behind the bytes it is asked
    for; the segments of a kernel whose segments, apart from empty ones, are in increasing
    order are all in memory when [bootmain] jumps, with zeros where their size in
    memory exceeds that in the file. *)

From S2P Require Export IdeSystem Mp.
Local Open Scope Z_scope.

(** What polling the controller does: it becomes ready, first for a command and then with the
    data of the sector. *)
Class PollLaws (D : Type) `{!IdeOps D} : Type := {
  pl_idle : disks -> D -> Prop;
  pl_loaded : disks -> Z -> D -> Prop;
  pl_idle_status c d : pl_idle c d -> exists r d', poll hw_polls d = Some (r, d') /\ pl_idle c d';
  pl_read c n d :
    pl_idle c d -> 0 <= n < 2 ^ 28 ->
    exists r d', poll hw_polls (hw_outb 503 32 (hw_outb 502 (Z.lor (Z.shiftr n 24) 224)
      (hw_outb 501 (u8 (Z.shiftr n 16)) (hw_outb 500 (u8 (Z.shiftr n 8)) (hw_outb 499 (u8 n) (hw_outb 498 1 d)))))) = Some (r, d') /\
      pl_loaded c n d';
  pl_insl c n d : pl_loaded c n d -> (hw_insl 496 128 d).1 = c 0 n /\ pl_idle c (hw_insl 496 128 d).2
}.

Module Boot.
Import CString Mp.

Definition SECTSIZE : Z := 512.
Definition ELF_MAGIC : Z := 1179403647.  (* 0x464C457F *)

Section Loader.
Context {D : Type} `{!IdeOps D}.

Record boot : Type := mkboot { bmem : mem; bhw : D }.

Definition set_bmem (m : mem) (s : boot) : boot := mkboot m (bhw s).
Definition set_bhw (d : D) (s : boot) : boot := mkboot (bmem s) d.
Definition b_outb (port v : Z) : K boot unit := modify (fun s => set_bhw (hw_outb port (u8 v) (bhw s)) s).

(** [insl(port, dst, cnt)]: the bytes go to the addresses from [dst] on. *)
Definition store (m : mem) (dst : Z) (l : list Z) : mem :=
  fun x => if u32 (x - dst) <? Z.of_nat (length l) then default 0 (l !! Z.to_nat (u32 (x - dst))) else m x.
Definition b_insl (port dst : Z) (cnt : nat) : K boot unit := fun s =>
  let '(l, d) := hw_insl port cnt (bhw s) in Ret tt (mkboot (store (bmem s) dst l) d).

(** Wait for disk ready: the status register is read at most [n] times. *)
Fixpoint waitdisk (n : nat) : K boot unit := fun s =>
  match n with
  | O => Sleep (ChSpin 0) s
  | S n =>
      let '(r, d) := hw_inb 503 (bhw s) in
      if negb (Z.land r 192 =? 64) then waitdisk n (set_bhw d s) else Ret tt (set_bhw d s)
  end.

(** Read a single sector at offset into dst. *)
Definition readsect (dst offset : Z) : K boot unit :=
  (* Issue command. *)
  waitdisk hw_polls;;
  b_outb 498 1;;  (* count = 1 *)
  b_outb 499 offset;;
  b_outb 500 (Z.shiftr offset 8);;
  b_outb 501 (Z.shiftr offset 16);;
  b_outb 502 (Z.lor (Z.shiftr offset 24) 224);;
  b_outb 503 32;;  (* cmd 0x20 - read sectors *)
  (* Read data. *)
  waitdisk hw_polls;;
  b_insl 496 dst (Z.to_nat (SECTSIZE / 4)).

Fixpoint readseg_loop (fuel : nat) (pa epa offset : Z) : K boot unit :=
  match fuel with
  | O => fault "readseg"
  | S fuel =>
      if pa <? epa then readsect pa offset;; readseg_loop fuel (pa +u SECTSIZE) epa (offset +u 1) else mret tt
  end.

(** Read 'count' bytes at 'offset' from kernel into physical address 'pa'.  Might copy more
    than asked. *)
Definition readseg (pa count offset : Z) : K boot unit :=
  let epa := pa +u count in
  (* Round down to sector boundary. *)
  let pa := pa -u offset mod SECTSIZE in
  (* Translate from bytes to sectors; kernel starts at sector 1. *)
  let offset := offset / SECTSIZE +u 1 in
  readseg_loop (Z.to_nat (count / SECTSIZE + 3)) pa epa offset.

(** Load a program segment (ignores ph flags). *)
Definition load_one (ph : Z) : K boot unit :=
  m ← gets bmem;
  let pa := word_at m (ph + 12) in
  readseg pa (word_at m (ph + 16)) (word_at m (ph + 4));;
  m ← gets bmem;
  let filesz := word_at m (ph + 16) in
  let memsz := word_at m (ph + 20) in
  if filesz <? memsz then modify (fun s => set_bmem (stosb (Z.to_nat (memsz - filesz)) (bmem s) (pa +u filesz) 0) s) else mret tt.

Fixpoint load_loop (fuel : nat) (ph eph : Z) : K boot unit :=
  match fuel with
  | O => fault "bootmain"
  | S fuel => if ph <? eph then load_one ph;; load_loop fuel (ph +u 32) eph else mret tt
  end.

(** The result is the address of the entry, to which [bootmain] jumps; [None] if it returns. *)
Definition bootmain : K boot (option Z) :=
  let elf := 65536 in  (* scratch space *)
  (* Read 1st page off disk *)
  readseg elf 4096 0;;
  m ← gets bmem;
  (* Is this an ELF executable? *)
  if negb (word_at m elf =? ELF_MAGIC) then mret None else
  let ph := elf +u word_at m (elf + 28) in
  let eph := ph +u 32 * half_at m (elf + 44) in
  load_loop (S (Z.to_nat (half_at m (elf + 44)))) ph eph;;
  (* Call the entry point from the ELF header. *)
  m ← gets bmem;
  mret (Some (word_at m (elf + 24))).

End Loader.
Arguments boot D : clear implicits.

(** ** The file on the disk *)

(** Byte [i] of the kernel's file. *)
Definition kbyte (c : disks) (i : Z) : Z := default 0 (c 0 (1 + i / 512) !! Z.to_nat (i mod 512)).
Definition fword (c : disks) (i : Z) : Z := word_at (kbyte c) i.

(** Program header [i]. *)
Definition phoff (c : disks) : Z := fword c 28.
Definition phnum (c : disks) : Z := half_at (kbyte c) 44.
Definition seg_off (c : disks) (i : Z) : Z := fword c (phoff c + 32 * i + 4).
Definition seg_pa (c : disks) (i : Z) : Z := fword c (phoff c + 32 * i + 12).
Definition seg_filesz (c : disks) (i : Z) : Z := fword c (phoff c + 32 * i + 16).
Definition seg_memsz (c : disks) (i : Z) : Z := fword c (phoff c + 32 * i + 20).

(** Where reading segment [i] begins to write, and where the segment ends. *)
Definition seg_base (c : disks) (i : Z) : Z := seg_pa c i - seg_off c i mod 512.
Definition seg_end (c : disks) (i : Z) : Z := seg_pa c i + Z.max (seg_filesz c i) (seg_memsz c i).

(** A header for which nothing is read and nothing cleared, such as the one by which the
    linker says what the stack may do. *)
Definition seg_empty (c : disks) (i : Z) : Prop := seg_off c i mod 512 = 0 /\ seg_filesz c i = 0 /\ seg_memsz c i = 0.
#[global] Instance seg_empty_dec c i : Decision (seg_empty c i).
Proof. unfold seg_empty. apply _. Defined.

(** A kernel that can be loaded: its headers are in the first page of the file, and the
    segments that are not empty are above the scratch space, in increasing order. *)
Record kernel_file (c : disks) : Prop := {
  kf_bytes : forall n, length (c 0 n) = 512%nat /\ Forall (fun b => 0 <= b < 256) (c 0 n);
  kf_magic : fword c 0 = ELF_MAGIC;
  kf_headers : phoff c + 32 * phnum c <= 4096;
  kf_low : forall i, 0 <= i < phnum c -> ~ seg_empty c i -> 65536 + 4096 <= seg_base c i;
  kf_high : forall i, 0 <= i < phnum c -> ~ seg_empty c i -> seg_end c i + 512 < 2 ^ 32;
  kf_order : forall i j, 0 <= i < j -> j < phnum c -> ~ seg_empty c i -> ~ seg_empty c j -> seg_end c i <= seg_base c j
}.

(** Segment [i] is in memory. *)
Definition loaded (c : disks) (m : mem) (i : Z) : Prop :=
  (forall k, 0 <= k < seg_filesz c i -> m (seg_pa c i + k) = kbyte c (seg_off c i + k)) /\
  (forall k, seg_filesz c i <= k < seg_memsz c i -> m (seg_pa c i + k) = 0).

(** ** Reading sectors *)

Lemma half_bound m a : (forall x, 0 <= m x < 256) -> 0 <= half_at m a < 2 ^ 16.
Proof. intros Hm. unfold half_at, byte_at. pose proof (Hm (u32 a)). pose proof (Hm (u32 (a + 1))). lia. Qed.

Lemma word_bound m a : (forall x, 0 <= m x < 256) -> 0 <= word_at m a < 2 ^ 32.
Proof. intros Hm. unfold word_at. pose proof (half_bound m a Hm). pose proof (half_bound m (a + 2) Hm). lia. Qed.

(** Two memories with the same bytes from [a] on. *)
Lemma word_agree (m m' : mem) a a' : (forall k, 0 <= k < 4 -> byte_at m (a + k) = byte_at m' (a' + k)) -> word_at m a = word_at m' a'.
Proof.
  intros H. unfold word_at, half_at. pose proof (H 0 ltac:(lia)) as H0. rewrite !Z.add_0_r in H0.
  replace (a + 2 + 1) with (a + 3) by lia. replace (a' + 2 + 1) with (a' + 3) by lia.
  by rewrite H0, (H 1 ltac:(lia)), (H 2 ltac:(lia)), (H 3 ltac:(lia)).
Qed.

Section Reading.
Context {D : Type} `{!IdeOps D} `{!PollLaws D}.
Context (c : disks).
Hypothesis Hc : forall n, length (c 0 n) = 512%nat.
Implicit Types (s : boot D).

Lemma waitdisk_wp n s r d (Q : unit -> boot D -> Prop) :
  poll n (bhw s) = Some (r, d) -> Q tt (set_bhw d s) -> wp (waitdisk n) s Q.
Proof.
  revert s. induction n as [|n IH]; intros s Hp HQ; [done|]. cbn [poll] in Hp. unfold wp. cbn [waitdisk].
  destruct (hw_inb 503 (bhw s)) as [r' d']. destruct (Z.land r' 192 =? 64); cbn [negb].
  - by injection Hp as <- <-.
  - by apply (IH (set_bhw d' s)).
Qed.

Lemma readsect_wp s dst n (Q : unit -> boot D -> Prop) :
  pl_idle c (bhw s) -> 0 <= n < 2 ^ 28 ->
  (forall d, pl_idle c d -> Q tt (mkboot (store (bmem s) dst (c 0 n)) d)) -> wp (readsect dst n) s Q.
Proof.
  intros Hi Hn HQ. destruct (pl_idle_status c _ Hi) as (r & d & Hp & Hd). apply wp_bind. eapply waitdisk_wp; [exact Hp|].
  do 6 (apply wp_bind, wp_modify). destruct (pl_read c n d Hd Hn) as (r' & d' & Hp' & Hd').
  assert (u8 (Z.lor (Z.shiftr n 24) 224) = Z.lor (Z.shiftr n 24) 224) as He.
  { apply u8_small. rewrite Z.shiftr_div_pow2 by lia. change (2 ^ 24) with 16777216.
    assert (0 <= n / 16777216 < 16) as Hk by (split; [apply Z.div_pos; lia|apply Z.div_lt_upper_bound; lia]).
    assert (n / 16777216 ∈ seqZ 0 16) as Hin by (apply elem_of_seqZ; lia). revert Hin. generalize (n / 16777216). apply Forall_forall.
    vm_compute. repeat constructor; discriminate. }
  rewrite He. apply wp_bind. eapply waitdisk_wp; [exact Hp'|]. destruct (pl_insl c n d' Hd') as [H1 H2].
  unfold wp, b_insl. cbn [bhw set_bhw bmem]. change (Z.to_nat (SECTSIZE / 4)) with 128%nat.
  destruct (hw_insl 496 128 d') as [l d'']. cbn [fst snd] in *. subst l. by apply HQ.
Qed.

Lemma store_in m dst l x : 0 <= dst -> dst <= x < dst + Z.of_nat (length l) -> x < 2 ^ 32 -> store m dst l x = default 0 (l !! Z.to_nat (x - dst)).
Proof. intros H1 H2 H3. unfold store. rewrite u32_small by lia. by rewrite (proj2 (Z.ltb_lt _ _)) by lia. Qed.

Lemma store_out m dst l x : 0 <= x < dst -> dst + Z.of_nat (length l) <= 2 ^ 32 -> store m dst l x = m x.
Proof.
  intros H1 H2. unfold store. replace (u32 (x - dst)) with (x - dst + 2 ^ 32) by (unfold u32; rewrite <- (Z.mod_add _ 1) by lia; rewrite Z.mod_small; lia).
  by rewrite (proj2 (Z.ltb_ge _ _)) by lia.
Qed.

Lemma readseg_loop_wp fuel s pa epa o (Q : unit -> boot D -> Prop) :
  pl_idle c (bhw s) -> 0 <= pa -> epa + 512 <= 2 ^ 32 -> pa < 2 ^ 32 -> 1 <= o -> o + Z.of_nat fuel < 2 ^ 28 -> epa <= pa + 512 * (Z.of_nat fuel - 1) -> (1 <= fuel)%nat ->
  (forall m d, pl_idle c d -> (forall x, 0 <= x < pa -> m x = bmem s x) ->
     (forall x, pa <= x < epa -> m x = kbyte c (512 * (o - 1) + (x - pa))) -> Q tt (mkboot m d)) ->
  wp (readseg_loop fuel pa epa o) s Q.
Proof.
  revert s pa o. induction fuel as [|fuel IH]; intros s pa o Hi Hpa Hepa Hpa2 Ho Hf He H1 HQ; cbn [readseg_loop]; [lia|].
  destruct (Z.ltb_spec pa epa) as [Hlt|Hge].
  - apply wp_bind. eapply readsect_wp; [exact Hi|lia|]. intros d Hd. unfold SECTSIZE. rewrite !u32_small by lia.
    apply IH; [exact Hd|lia|lia|lia|lia|lia|lia|lia|]. intros m d' Hd' Hlow Hin. cbn [bmem] in *. apply HQ; [done| |].
    + intros x Hx. rewrite Hlow by lia. apply store_out; [lia|]. rewrite Hc. lia.
    + intros x Hx. destruct (decide (x < pa + 512)) as [Hx'|Hx'].
      * rewrite Hlow by lia. rewrite store_in by (rewrite ?Hc; lia). unfold kbyte.
        rewrite Z.mul_comm, Z.div_add_l, Z.add_comm, Z.mod_add, Z.div_small, Z.mod_small by lia. do 4 f_equal. lia.
      * rewrite Hin by lia. f_equal. lia.
  - apply wp_ret. destruct s as [m d]. apply HQ; [done|done|]. intros x Hx. lia.
Qed.

Lemma readseg_wp s pa n off (Q : unit -> boot D -> Prop) :
  pl_idle c (bhw s) -> off mod 512 <= pa -> 0 <= n < 2 ^ 32 -> pa + n + 512 <= 2 ^ 32 -> 0 <= off < 2 ^ 32 ->
  (forall m d, pl_idle c d -> (forall x, 0 <= x < pa - off mod 512 -> m x = bmem s x) ->
     (forall k, 0 <= k < n -> m (pa + k) = kbyte c (off + k)) -> Q tt (mkboot m d)) ->
  wp (readseg pa n off) s Q.
Proof.
  intros Hi Hpa Hn Hend Hoff HQ. unfold readseg, SECTSIZE. pose proof (Z.mod_pos_bound off 512). pose proof (Z.div_mod off 512 ltac:(lia)).
  pose proof (Z.div_mod n 512 ltac:(lia)). pose proof (Z.mod_pos_bound n 512).
  assert (0 <= off / 512) by (apply Z.div_pos; lia). assert (0 <= n / 512) by (apply Z.div_pos; lia).
  rewrite !u32_small by lia. eapply readseg_loop_wp; [exact Hi|lia|lia|lia|lia|lia|lia|lia|].
  intros m d Hd Hlow Hin. apply HQ; [done|done|]. intros k Hk. rewrite Hin by lia. f_equal. lia.
Qed.

(** Nothing is read when no bytes are asked for at the start of a sector. *)
Lemma readseg_empty s pa off (Q : unit -> boot D -> Prop) :
  0 <= pa < 2 ^ 32 -> off mod 512 = 0 -> Q tt s -> wp (readseg pa 0 off) s Q.
Proof.
  intros Hpa Ho HQ. unfold readseg, SECTSIZE. rewrite Ho, Z.add_0_r, Z.sub_0_r, !u32_small by lia. change (Z.to_nat (0 / 512 + 3)) with 3%nat.
  cbn [readseg_loop]. rewrite Z.ltb_irrefl. by apply wp_ret.
Qed.

End Reading.

(** ** Loading *)

Section Loading.
Context {D : Type} `{!IdeOps D} `{!PollLaws D}.
Context (c : disks).
Hypothesis Hk : kernel_file c.
Implicit Types (s : boot D).

Lemma kbyte_byte x : 0 <= kbyte c x < 256.
Proof.
  unfold kbyte. destruct (c 0 (1 + x / 512) !! Z.to_nat (x mod 512)) as [b|] eqn:E; cbn; [|lia].
  destruct (kf_bytes _ Hk (1 + x / 512)) as [_ Hb]. exact (proj1 (Forall_lookup _ _) Hb _ _ E).
Qed.

(** The headers are in the scratch space. *)
Definition headers (m : mem) : Prop := forall k, 0 <= k < 4096 -> m (65536 + k) = kbyte c k.

Lemma header_word m a : headers m -> 0 <= a -> a + 4 <= 4096 -> word_at m (65536 + a) = fword c a.
Proof.
  intros Hm H1 H2. apply word_agree. intros k Hkk. unfold byte_at. rewrite !u32_small by lia. rewrite <- Hm by lia. f_equal. lia.
Qed.

Lemma header_half m a : headers m -> 0 <= a -> a + 2 <= 4096 -> half_at m (65536 + a) = half_at (kbyte c) a.
Proof.
  intros Hm H1 H2. unfold half_at, byte_at. rewrite !u32_small by lia. rewrite <- !Hm by lia.
  by replace (65536 + (a + 1)) with (65536 + a + 1) by lia.
Qed.

Lemma phnum_bound : 0 <= phnum c < 2 ^ 16.
Proof. apply half_bound, kbyte_byte. Qed.
Lemma phoff_bound : 0 <= phoff c < 2 ^ 32.
Proof. apply word_bound, kbyte_byte. Qed.

Lemma seg_bounds i : 0 <= seg_off c i < 2 ^ 32 /\ 0 <= seg_pa c i < 2 ^ 32 /\ 0 <= seg_filesz c i < 2 ^ 32 /\ 0 <= seg_memsz c i < 2 ^ 32.
Proof. split_and!; apply word_bound, kbyte_byte. Qed.

(** What is kept when segment [i] is loaded. *)
Lemma loaded_below m m' i j :
  0 <= j < i -> i < phnum c -> ~ seg_empty c i -> (forall x, 0 <= x < seg_base c i -> m' x = m x) -> loaded c m j -> loaded c m' j.
Proof.
  intros Hj Hi Hne Hb [H1 H2]. destruct (decide (seg_empty c j)) as [(_ & Hf & Hm)|Hnj]; [unfold loaded; rewrite Hf, Hm; split; intros; lia|].
  pose proof (kf_order _ Hk j i Hj Hi Hnj Hne) as Ho. unfold seg_end in Ho. pose proof (seg_bounds j) as (_ & ? & ? & ?).
  split; intros k Hkk; rewrite Hb by lia; [by apply H1|by apply H2].
Qed.

Lemma headers_below m m' i : 0 <= i < phnum c -> ~ seg_empty c i -> (forall x, 0 <= x < seg_base c i -> m' x = m x) -> headers m -> headers m'.
Proof. intros Hi Hne Hb Hm k Hkk. pose proof (kf_low _ Hk i Hi Hne). rewrite Hb by lia. by apply Hm. Qed.

Definition seg_state (i : Z) s : Prop :=
  pl_idle c (bhw s) /\ headers (bmem s) /\ forall j, 0 <= j < i -> loaded c (bmem s) j.

Lemma load_seg i s (Q : unit -> boot D -> Prop) :
  0 <= i < phnum c -> seg_state i s -> (forall s', seg_state (i + 1) s' -> Q tt s') ->
  wp (load_one (65536 + phoff c + 32 * i)) s Q.
Proof.
  intros Hi (Hidle & Hh & Hl) HQ. pose proof (seg_bounds i) as (? & ? & ? & ?). pose proof (kf_headers _ Hk). pose proof phoff_bound.
  assert (forall m a, headers m -> 0 <= a <= 28 -> word_at m (65536 + phoff c + 32 * i + a) = fword c (phoff c + 32 * i + a)) as Hw.
  { intros m a Hm Ha. rewrite <- (header_word m) by (done || lia). f_equal. lia. }
  unfold load_one. apply wp_bind, wp_gets. cbv zeta. rewrite !(Hw (bmem s)) by (done || lia). fold (seg_pa c i) (seg_off c i) (seg_filesz c i).
  destruct (decide (seg_empty c i)) as [(Ho & Hf & Hm)|Hne].
  { rewrite Hf. apply wp_bind, readseg_empty; [lia|done|]. apply wp_bind, wp_gets. cbv zeta. rewrite !(Hw (bmem s)) by (done || lia).
    fold (seg_filesz c i) (seg_memsz c i). rewrite Hf, Hm. apply wp_ret, HQ. split_and!; [done|done|]. intros j Hj.
    destruct (decide (j = i)) as [-> |]; [unfold loaded; rewrite Hf, Hm; split; intros; lia|apply Hl; lia]. }
  pose proof (kf_low _ Hk i Hi Hne) as Hlow. pose proof (kf_high _ Hk i Hi Hne) as Hhigh. unfold seg_base, seg_end in Hlow, Hhigh.
  apply wp_bind. eapply (readseg_wp c); [intros n; apply (kf_bytes _ Hk)|exact Hidle|lia|lia|lia|lia|].
  intros m d Hd Hb Hin. apply wp_bind, wp_gets. cbn [bmem]. cbv zeta.
  assert (headers m) as Hm by (by eapply headers_below).
  assert (forall j, 0 <= j < i -> loaded c m j) as Hl' by (intros j Hj; eapply loaded_below; [exact Hj|lia|exact Hne|exact Hb|by apply Hl]).
  rewrite !(Hw m) by (done || lia). fold (seg_filesz c i) (seg_memsz c i). destruct (Z.ltb_spec (seg_filesz c i) (seg_memsz c i)).
  - apply wp_modify. cbn [bmem]. rewrite u32_small by lia. set (m' := stosb _ _ _ _).
    assert (forall x, m' x = if ((seg_pa c i + seg_filesz c i <=? x) && (x <? seg_pa c i + seg_memsz c i))%bool then 0 else m x) as Hm'.
    { intros x. unfold m'. rewrite stosb_spec. rewrite Z2Nat.id by lia.
      replace (seg_pa c i + seg_filesz c i + (seg_memsz c i - seg_filesz c i)) with (seg_pa c i + seg_memsz c i) by lia. done. }
    assert (forall x, 0 <= x < seg_base c i -> m' x = m x) as Hb'.
    { intros x Hx. rewrite Hm'. unfold seg_base in Hx. pose proof (Z.mod_pos_bound (seg_off c i) 512).
      rewrite (proj2 (Z.leb_gt _ _)) by lia. done. }
    apply HQ. split_and!; [done|by eapply headers_below|]. intros j Hj. cbn [bmem set_bmem].
    destruct (decide (j = i)) as [-> |]; [|eapply loaded_below; [|exact (proj2 Hi)|exact Hne|exact Hb'|apply Hl']; lia].
    split; intros k Hkk; rewrite Hm'.
    + rewrite (proj2 (Z.leb_gt _ _)) by lia. cbn [andb]. by apply Hin.
    + by rewrite (proj2 (Z.leb_le _ _)), (proj2 (Z.ltb_lt _ _)) by lia.
  - apply wp_ret. apply HQ. split_and!; [done|done|]. intros j Hj. destruct (decide (j = i)) as [-> |]; [|apply Hl'; lia].
    split; [exact Hin|]. intros k Hkk. lia.
Qed.

Lemma load_loop_wp n i s (Q : unit -> boot D -> Prop) :
  0 <= i -> i + Z.of_nat n = phnum c -> seg_state i s -> (forall s', seg_state (phnum c) s' -> Q tt s') ->
  wp (load_loop (S n) (65536 + phoff c + 32 * i) (65536 + phoff c + 32 * phnum c)) s Q.
Proof.
  revert i s. induction n as [|n IH]; intros i s H0 Hi Hs HQ.
  - cbn [load_loop]. rewrite (proj2 (Z.ltb_ge _ _)) by lia. apply wp_ret. apply HQ. by replace (phnum c) with i by lia.
  - pose proof (kf_headers _ Hk). pose proof phoff_bound. pose proof phnum_bound.
    change (load_loop (S (S n)) ?ph ?eph) with (if ph <? eph then load_one ph;; load_loop (S n) (ph +u 32) eph else mret tt).
    rewrite (proj2 (Z.ltb_lt _ _)) by lia. apply wp_bind. apply (load_seg i); [lia|exact Hs|]. intros s' Hs'. rewrite u32_small by lia.
    replace (65536 + phoff c + 32 * i + 32) with (65536 + phoff c + 32 * (i + 1)) by lia. apply IH; [lia|lia|exact Hs'|exact HQ].
Qed.

(** The kernel is loaded. *)
Lemma bootmain_wp s (Q : option Z -> boot D -> Prop) :
  pl_idle c (bhw s) ->
  (forall s', (forall i, 0 <= i < phnum c -> loaded c (bmem s') i) -> Q (Some (fword c 24)) s') -> wp bootmain s Q.
Proof.
  intros Hidle HQ. pose proof (kf_headers _ Hk). pose proof phoff_bound. pose proof phnum_bound. unfold bootmain. cbv zeta.
  apply wp_bind. eapply (readseg_wp c); [intros n; apply (kf_bytes _ Hk)|exact Hidle|done|lia|lia|lia|]. intros m d Hd _ Hin.
  assert (headers m) as Hm by exact Hin. apply wp_bind, wp_gets. cbn [bmem].
  change (word_at m 65536) with (word_at m (65536 + 0)). rewrite !header_word, header_half by (done || lia).
  fold (phoff c) (phnum c). rewrite (kf_magic _ Hk), Z.eqb_refl. cbn [negb]. apply wp_bind. rewrite (u32_small (65536 + _)), (u32_small (_ + _)) by lia.
  assert (seg_state 0 (mkboot m d)) as Hs by (split_and!; [done|done|lia]).
  replace (65536 + phoff c) with (65536 + phoff c + 32 * 0) at 1 by lia.
  apply load_loop_wp; [lia|lia|exact Hs|]. intros s' (_ & Hh & Hl). apply wp_bind, wp_gets, wp_ret. rewrite header_word by (done || lia). by apply HQ.
Qed.

End Loading.

(** C31: From a disk with a kernel whose segments lie above the scratch space in increasing
    order, empty ones anywhere, as those of the repository's kernel do, [bootmain] reads every
    segment into memory at its physical address, with the bytes of the file and then zeros up
    to its size in memory, and jumps to the entry point of the file. *)
Theorem bootmain_loads {D : Type} `{!IdeOps D} `{!PollLaws D} (c : disks) (s : boot D) :
  kernel_file c -> pl_idle c (bhw s) ->
  exists s', bootmain s = Ret (Some (fword c 24)) s' /\ forall i, 0 <= i < phnum c -> loaded c (bmem s') i.
Proof.
  intros Hk Hi. assert (wp bootmain s (fun r s' => r = Some (fword c 24) /\ forall i, 0 <= i < phnum c -> loaded c (bmem s') i)) as Hwp
    by (by apply (bootmain_wp c Hk)).
  unfold wp in Hwp. destruct (bootmain s) as [r s'| | |]; [|done..]. destruct Hwp as [-> ?]. by exists s'.
Qed.

(** ** A controller that is polled *)

Record pctl : Type := mkpctl { p_disks : disks; p_reg : Z -> Z; p_ready : option Z; p_busy : nat }.

Definition p_sector (d : pctl) : Z := p_reg d 499 + 256 * p_reg d 500 + 65536 * p_reg d 501 + 16777216 * (p_reg d 502 mod 16).
Definition p_inb (port : Z) (d : pctl) : Z * pctl :=
  match p_busy d with O => (64, d) | S k => (128, mkpctl (p_disks d) (p_reg d) (p_ready d) k) end.
Definition p_outb (port v : Z) (d : pctl) : pctl :=
  if port =? 503 then mkpctl (p_disks d) (p_reg d) (Some (p_sector d)) 2
  else mkpctl (p_disks d) (fun p => if p =? port then v else p_reg d p) (p_ready d) (p_busy d).
Definition p_insl (port : Z) (cnt : nat) (d : pctl) : list Z * pctl :=
  match p_ready d with Some n => (p_disks d 0 n, mkpctl (p_disks d) (p_reg d) None (p_busy d)) | None => ([], d) end.

#[export] Instance PolledOps : IdeOps pctl :=
  {| hw_inb := p_inb; hw_outb := p_outb; hw_insl := p_insl; hw_outsl := fun _ _ d => d; hw_polls := 3 |}.

Lemma polled_poll (d : pctl) : (p_busy d <= 2)%nat -> poll 3 d = Some (64, mkpctl (p_disks d) (p_reg d) (p_ready d) 0).
Proof. intros Hb. destruct d as [c r q [|[|[|k]]]]; cbn in Hb; [done..|lia]. Qed.

Lemma polled_reg p q v (d : pctl) : p <> 503 -> p_reg (hw_outb p v d) q = if q =? p then v else p_reg d q.
Proof. intros Hp. unfold hw_outb, PolledOps, p_outb. by rewrite (proj2 (Z.eqb_neq _ _) Hp). Qed.

Lemma polled_keep p v (d : pctl) : p <> 503 -> p_disks (hw_outb p v d) = p_disks d /\ p_busy (hw_outb p v d) = p_busy d.
Proof. intros Hp. unfold hw_outb, PolledOps, p_outb. by rewrite (proj2 (Z.eqb_neq _ _) Hp). Qed.

#[export] Instance PolledLaws : PollLaws pctl.
Proof.
  refine {| pl_idle := fun c d => p_disks d = c /\ (p_busy d <= 2)%nat;
            pl_loaded := fun c n d => p_disks d = c /\ p_ready d = Some n /\ (p_busy d <= 2)%nat |}; change (@hw_polls pctl _) with 3%nat.
  - intros c d [H1 H2]. rewrite (polled_poll d H2). do 2 eexists. split; [done|]. cbn. split; [done|lia].
  - intros c n d [H1 H2] Hn. set (d1 := hw_outb 502 _ _).
    assert (p_disks d1 = c) as Hd1 by (unfold d1; by rewrite !(fun p v e H => proj1 (polled_keep p v e H)) by done).
    assert (p_sector d1 = n) as Hsec.
    { unfold p_sector, d1. rewrite !polled_reg by done. cbn [Z.eqb Pos.eqb]. rewrite <- (IdeSystem.sector_decode n Hn) at 5.
      change 255 with (2 ^ 8 - 1). change 15 with (2 ^ 4 - 1). rewrite !IdeSystem.land_low by lia. unfold u8. do 2 f_equal.
      assert (0 <= Z.shiftr n 24 < 16) as Hk by (rewrite Z.shiftr_div_pow2 by lia; change (2 ^ 24) with 16777216; split; [apply Z.div_pos; lia|apply Z.div_lt_upper_bound; lia]).
      assert (Z.shiftr n 24 ∈ seqZ 0 16) as Hin by (apply elem_of_seqZ; lia). revert Hin. generalize (Z.shiftr n 24). apply Forall_forall.
      vm_compute. repeat constructor. }
    change (hw_outb 503 32 d1) with (mkpctl (p_disks d1) (p_reg d1) (Some (p_sector d1)) 2). rewrite polled_poll by (cbn; lia).
    rewrite Hsec. do 2 eexists. split; [done|]. split_and!; [done|done|cbn; lia].
  - intros c n d (H1 & H2 & H3). unfold hw_insl, PolledOps, p_insl. rewrite H2, H1. done.
Defined.

(** ** The kernel of the repository

    The headers are those of the file [kernel]: one segment, of 42262 bytes and 88008 in
    memory, and the header of the stack, which is empty.  The bytes of the segment are not
    those of the file. *)

Definition elf_bytes : list Z :=
  [127; 69; 76; 70; 1; 1; 1; 0; 0; 0; 0; 0; 0; 0; 0; 0; 2; 0; 3; 0; 1; 0; 0; 0; 12; 0; 16; 0; 52; 0;
   0; 0; 88; 101; 2; 0; 0; 0; 0; 0; 52; 0; 32; 0; 2; 0; 40; 0; 20; 0; 17; 0; 1; 0; 0; 0; 0; 16; 0;
   0; 0; 0; 16; 128; 0; 0; 16; 0; 22; 165; 0; 0; 200; 87; 1; 0; 7; 0; 0; 0; 0; 16; 0; 0; 81; 229;
   116; 100; 0; 0; 0; 0; 0; 0; 0; 0; 0; 0; 0; 0; 0; 0; 0; 0; 0; 0; 0; 0; 7; 0; 0; 0; 16; 0; 0; 0].
Definition kernel_byte (i : Z) : Z := match elf_bytes !! Z.to_nat i with Some b => u8 b | None => u8 (i / 7) end.
Definition kernel_disk : disks := fun _ n => (fun k => kernel_byte (512 * (n - 1) + k)) <$> seqZ 0 512.

Lemma two_cases i (P : Z -> Prop) : 0 <= i < 2 -> P 0 -> P 1 -> P i.
Proof. intros Hi H0 H1. assert (i = 0 \/ i = 1) as [-> | ->] by lia; done. Qed.

Lemma kernel_disk_headers :
  phnum kernel_disk = 2 /\ phoff kernel_disk = 52 /\ fword kernel_disk 0 = ELF_MAGIC /\ fword kernel_disk 24 = 1048588 /\
  seg_off kernel_disk 0 = 4096 /\ seg_pa kernel_disk 0 = 1048576 /\ seg_filesz kernel_disk 0 = 42262 /\ seg_memsz kernel_disk 0 = 88008 /\
  seg_empty kernel_disk 1.
Proof. vm_compute. split_and!; reflexivity. Qed.

Lemma kernel_disk_ok : kernel_file kernel_disk.
Proof.
  destruct kernel_disk_headers as (Hn & Ho & Hm & _ & H1 & H2 & H3 & H4 & He). split; rewrite ?Hn, ?Ho; [|exact Hm|lia| | |].
  - intros n. unfold kernel_disk. rewrite length_fmap, length_seqZ. split; [done|]. apply Forall_fmap, Forall_true. intros k.
    unfold compose, kernel_byte. destruct (elf_bytes !! _); apply u8_range.
  - intros i Hi. apply (two_cases i); [done|intros _|done]. unfold seg_base. rewrite H1, H2. vm_compute. discriminate.
  - intros i Hi. apply (two_cases i); [done|intros _|done]. unfold seg_end. rewrite H2, H3, H4. vm_compute. reflexivity.
  - intros i j Hi Hj _ Hne. assert (j = 1) as -> by lia. by destruct Hne.
Qed.

Lemma bootmain_loads_witness :
  exists s' : boot pctl, bootmain (mkboot (fun _ => 255) (mkpctl kernel_disk (fun _ => 0) None 2)) = Ret (Some 1048588) s' /\
    bmem s' (1048576 + 999) = u8 (5095 / 7) /\ bmem s' (1048576 + 88007) = 0.
Proof.
  destruct (bootmain_loads kernel_disk (mkboot (fun _ => 255) (mkpctl kernel_disk (fun _ => 0) None 2))) as (s' & Hs & Hl);
    [exact kernel_disk_ok|split; [reflexivity|apply Nat.leb_le; reflexivity]|].
  destruct kernel_disk_headers as (Hn & _ & _ & He & H1 & H2 & H3 & H4 & _). rewrite He in Hs.
  assert (kbyte kernel_disk (4096 + 999) = u8 (5095 / 7)) as Hb by (vm_compute; reflexivity).
  exists s'. split; [exact Hs|]. destruct (Hl 0) as [H H']; [rewrite Hn; lia|]. rewrite H1, H2, H3 in H. rewrite H2, H3, H4 in H'.
  rewrite <- Hb. split; [apply H; lia|apply H'; lia].
Defined.

End Boot.
