(* ===== verification/Apic.v ===== *)
(** * Interrupt controllers (ioapic.c, picirq.c, lapic.c)

    The controllers are programmed by writes to their registers.  A device is an argument: the
    operations on memory-mapped registers and on ports, with what the data sheets say of them
    as laws.  [IoapicLaws] says that the I/O APIC is a window onto its registers; [LapicLaws]
    that the local APIC has registers, and that a write of the interrupt command register
    sends an interrupt to the processor named in the other half of it.

    Shown: after [ioapicinit] and any calls of [ioapicenable] exactly the interrupts that were
    enabled get through, each to the processor given last; [lapicinit] leaves the timer
    running and the other sources masked; [lapicstartap] sends INIT and two STARTUP
    interrupts to the processor it is to start, with the page of the code.

    The real-time clock is in Rtc.v. *)

From S2P Require Export Kalloc.
Local Open Scope Z_scope.

Class MmioOps (D : Type) : Type := {
  mm_read : Z -> D -> Z * D;
  mm_write : Z -> Z -> D -> D
}.
Class PortOps (D : Type) : Type := {
  port_in : Z -> D -> Z * D;
  port_out : Z -> Z -> D -> D
}.

(** Traps of traps.h. *)
Definition T_IRQ0 : Z := 32.
Definition IRQ_TIMER : Z := 0.
Definition IRQ_KBD : Z := 1.
Definition IRQ_COM1 : Z := 4.
Definition IRQ_IDE : Z := 14.
Definition IRQ_ERROR : Z := 19.
Definition IRQ_SPURIOUS : Z := 31.

Module Ioapic.

Definition IOAPIC : Z := 4273995776.  (* 0xFEC00000 *)
Definition REG_ID : Z := 0.
Definition REG_VER : Z := 1.
Definition REG_TABLE : Z := 16.
Definition INT_DISABLED : Z := 65536.

Section Code.
Context {D : Type} `{!MmioOps D}.

(** [ioapic->reg] and [ioapic->data] *)
Definition reg_addr : Z := IOAPIC.
Definition data_addr : Z := IOAPIC + 16.

Definition ioapicread (reg : Z) : K D Z := fun d =>
  let '(v, d) := mm_read data_addr (mm_write reg_addr reg d) in Ret v d.
Definition ioapicwrite (reg data : Z) : K D unit := fun d => Ret tt (mm_write data_addr data (mm_write reg_addr reg d)).

(** Mark all interrupts edge-triggered, active high, disabled, and not routed to any CPUs. *)
Fixpoint ioapicinit_loop (n : nat) (i : Z) : K D unit :=
  match n with
  | O => mret tt
  | S n =>
      ioapicwrite (REG_TABLE + 2 * i) (Z.lor INT_DISABLED (T_IRQ0 + i));;
      ioapicwrite (REG_TABLE + 2 * i + 1) 0;;
      ioapicinit_loop n (i + 1)
  end.

(** The result is whether the warning is printed. *)
Definition ioapicinit (ioapicid : Z) : K D bool :=
  v ← ioapicread REG_VER;
  let maxintr := Z.land (Z.shiftr v 16) 255 in
  w ← ioapicread REG_ID;
  let id := Z.shiftr w 24 in
  ioapicinit_loop (Z.to_nat (maxintr + 1)) 0;;
  mret (negb (id =? ioapicid)).

(** Mark interrupt edge-triggered, active high, enabled, and routed to the given cpunum,
    which happens to be that cpu's APIC ID. *)
Definition ioapicenable (irq cpunum : Z) : K D unit :=
  ioapicwrite (REG_TABLE + 2 * irq) (T_IRQ0 + irq);;
  ioapicwrite (REG_TABLE + 2 * irq + 1) (u32 (Z.shiftl cpunum 24)).

End Code.
End Ioapic.

(** A window onto registers: write reg, then read or write data.  The version register says
    how many entries the table has; registers have numbers of 8 bits. *)
Class IoapicLaws (D : Type) `{!MmioOps D} : Type := {
  io_reg : D -> Z -> Z;
  io_read r d : (mm_read Ioapic.data_addr (mm_write Ioapic.reg_addr r d)).1 = io_reg d r;
  io_read_keeps r d r' : io_reg (mm_read Ioapic.data_addr (mm_write Ioapic.reg_addr r d)).2 r' = io_reg d r';
  io_entries d : Z.land (Z.shiftr (io_reg d Ioapic.REG_VER) 16) 255 <= 119;
  io_write r v d r' : Ioapic.REG_TABLE <= r <= 255 ->
    io_reg (mm_write Ioapic.data_addr v (mm_write Ioapic.reg_addr r d)) r' = if r' =? r then v else io_reg d r'
}.

Module IoapicSpec.
Import Ioapic.
Section Spec.
Context {D : Type} `{!MmioOps D} `{!IoapicLaws D}.
Implicit Types d : D.

Definition maxintr d : Z := Z.land (Z.shiftr (io_reg d REG_VER) 16) 255.

(** The entry of interrupt [i]. *)
Definition low d (i : Z) : Z := io_reg d (REG_TABLE + 2 * i).
Definition high d (i : Z) : Z := io_reg d (REG_TABLE + 2 * i + 1).

(** The routing that a sequence of calls of [ioapicenable] asks for. *)
Definition route (l : list (Z * Z)) (i : Z) : option Z := snd <$> last (base.filter (fun p => p.1 = i) l).
Definition routed d (l : list (Z * Z)) (i : Z) : Prop :=
  match route l i with
  | Some cpu => low d i = T_IRQ0 + i /\ high d i = u32 (Z.shiftl cpu 24)
  | None => low d i = Z.lor INT_DISABLED (T_IRQ0 + i) /\ high d i = 0
  end.

Lemma write_wp r v d (Q : unit -> D -> Prop) :
  REG_TABLE <= r <= 255 -> (forall d', (forall r', io_reg d' r' = if r' =? r then v else io_reg d r') -> Q tt d') -> wp (ioapicwrite r v) d Q.
Proof. intros Hr HQ. apply HQ. intros r'. by apply io_write. Qed.

(** Writing both halves of an entry. *)
Lemma entry_wp i v w d (Q : unit -> D -> Prop) :
  0 <= i <= 119 ->
  (forall d', low d' i = v -> high d' i = w -> (forall j, j <> i -> low d' j = low d j /\ high d' j = high d j) ->
     (forall r, r < REG_TABLE -> io_reg d' r = io_reg d r) -> Q tt d') ->
  wp (ioapicwrite (REG_TABLE + 2 * i) v;; ioapicwrite (REG_TABLE + 2 * i + 1) w) d Q.
Proof.
  intros Hi HQ. apply wp_bind. apply write_wp; [unfold REG_TABLE; lia|]. intros d1 H1. apply write_wp; [unfold REG_TABLE; lia|]. intros d2 H2.
  apply HQ; unfold low, high.
  - rewrite H2, H1, Z.eqb_refl. by rewrite (proj2 (Z.eqb_neq _ _)) by lia.
  - by rewrite H2, Z.eqb_refl.
  - intros j Hj. rewrite !H2, !H1. by rewrite !(proj2 (Z.eqb_neq _ _)) by lia.
  - intros r Hr. rewrite H2, H1. by rewrite !(proj2 (Z.eqb_neq _ _)) by lia.
Qed.

Lemma init_loop_wp n i d (Q : unit -> D -> Prop) :
  0 <= i -> i + Z.of_nat n <= 120 ->
  (forall d', (forall j, i <= j < i + Z.of_nat n -> routed d' [] j) -> (forall j, j < i -> low d' j = low d j /\ high d' j = high d j) ->
     (forall r, r < REG_TABLE -> io_reg d' r = io_reg d r) -> Q tt d') ->
  wp (ioapicinit_loop n i) d Q.
Proof.
  revert i d. induction n as [|n IH]; intros i d Hi Hn HQ; cbn [ioapicinit_loop].
  - apply wp_ret, HQ; [lia|done|done].
  - apply wp_bind_assoc, wp_bind. apply entry_wp; [lia|]. intros d1 H1 H2 H3 H4. apply IH; [lia|lia|]. intros d2 Hin Hlo Hreg. apply HQ.
    + intros j Hj. destruct (decide (j = i)) as [-> |]; [|apply Hin; lia]. destruct (Hlo i ltac:(lia)) as [E1 E2].
      unfold routed. cbn. by rewrite E1, E2.
    + intros j Hj. destruct (Hlo j ltac:(lia)) as [-> ->]. apply H3. lia.
    + intros r Hr. by rewrite Hreg, H4.
Qed.

Lemma read_wp r d (Q : Z -> D -> Prop) : (forall d', (forall r', io_reg d' r' = io_reg d r') -> Q (io_reg d r) d') -> wp (ioapicread r) d Q.
Proof.
  intros HQ. unfold wp, ioapicread. pose proof (io_read r d) as H1. pose proof (io_read_keeps r d) as H2.
  destruct (mm_read _ _) as [v d']. cbn in H1, H2. subst v. by apply HQ.
Qed.

Lemma ioapicinit_wp id d (Q : bool -> D -> Prop) :
  (forall b d', (forall i, 0 <= i <= maxintr d -> routed d' [] i) -> maxintr d' = maxintr d -> Q b d') -> wp (ioapicinit id) d Q.
Proof.
  intros HQ. unfold ioapicinit. apply wp_bind, read_wp. intros d1 H1. cbv zeta. apply wp_bind, read_wp. intros d2 H2.
  assert (0 <= maxintr d) as Hm by (apply Z.land_nonneg; right; lia).
  pose proof (io_entries d) as He. fold (maxintr d) in He.
  apply wp_bind, init_loop_wp; [lia|fold (maxintr d); lia|]. intros d3 Hin _ Hreg. apply wp_ret, HQ.
  - intros i Hi. apply Hin. fold (maxintr d). lia.
  - unfold maxintr. rewrite Hreg by (unfold REG_VER, REG_TABLE; lia). by rewrite H2, H1.
Qed.

Lemma route_snoc l irq cpu i : route (l ++ [(irq, cpu)]) i = if decide (i = irq) then Some cpu else route l i.
Proof.
  unfold route. rewrite filter_app. rewrite filter_cons, filter_nil. cbn [fst]. destruct (decide (irq = i)) as [->|].
  - rewrite decide_True by done. by rewrite last_snoc.
  - rewrite decide_False by congruence. by rewrite app_nil_r.
Qed.

Lemma enable_wp l irq cpu d (Q : unit -> D -> Prop) :
  0 <= irq <= 119 -> (forall i, 0 <= i <= maxintr d -> routed d l i) ->
  (forall d', maxintr d' = maxintr d -> (forall i, 0 <= i <= maxintr d -> routed d' (l ++ [(irq, cpu)]) i) -> Q tt d') ->
  wp (ioapicenable irq cpu) d Q.
Proof.
  intros Hirq Hl HQ. apply entry_wp; [done|]. intros d' H1 H2 H3 H4. apply HQ.
  - unfold maxintr. by rewrite H4.
  - intros i Hi. unfold routed. rewrite route_snoc. destruct (decide (i = irq)) as [->|Hne]; [done|].
    destruct (H3 i Hne) as [-> ->]. apply (Hl i Hi).
Qed.

(** [ioapicinit], then calls of [ioapicenable]. *)
Fixpoint enables (l : list (Z * Z)) : K D unit :=
  match l with [] => mret tt | (irq, cpu) :: l => ioapicenable irq cpu;; enables l end.

Lemma enables_wp l done d (Q : unit -> D -> Prop) :
  Forall (fun p => 0 <= p.1 <= 119) l -> (forall i, 0 <= i <= maxintr d -> routed d done i) ->
  (forall d', (forall i, 0 <= i <= maxintr d -> routed d' (done ++ l) i) -> Q tt d') -> wp (enables l) d Q.
Proof.
  revert done d. induction l as [|[irq cpu] l IH]; intros dn d Hl Hd HQ; cbn [enables].
  - apply wp_ret, HQ. by rewrite app_nil_r.
  - apply Forall_cons in Hl as [H0 Hl]. apply wp_bind. eapply enable_wp; [exact H0|exact Hd|]. intros d1 Hm H1.
    eapply IH; [done|rewrite Hm; exact H1|]. rewrite Hm, <- app_assoc. exact HQ.
Qed.

(** after [ioapicinit] and any sequence of calls of [ioapicenable], an interrupt that was
    enabled is sent with its vector to the processor given last, and every other one is
    masked. *)
Theorem ioapic_routes id l d :
  Forall (fun p => 0 <= p.1 <= 119) l ->
  wp (_ ← ioapicinit id; enables l) d (fun _ d' => forall i, 0 <= i <= maxintr d -> routed d' l i).
Proof.
  intros Hl. apply wp_bind, ioapicinit_wp. intros _ d1 H1 Hm. eapply (enables_wp l []); [done|by rewrite Hm|]. by rewrite Hm.
Qed.

End Spec.
End IoapicSpec.

(** Don't use the 8259A interrupt controllers.  Xv6 assumes SMP hardware. *)
Definition IO_PIC1 : Z := 32.
Definition IO_PIC2 : Z := 160.
Definition picinit {D} `{!PortOps D} : K D unit :=
  (* mask all interrupts *)
  modify (port_out (IO_PIC1 + 1) 255);;
  modify (port_out (IO_PIC2 + 1) 255).

Module Lapic.
Import CString Kalloc.

(** Local APIC registers, divided by 4 for use as uint[] indices. *)
Definition ID : Z := 8.
Definition VER : Z := 12.
Definition TPR : Z := 32.
Definition EOI : Z := 44.
Definition SVR : Z := 60.
Definition ENABLE : Z := 256.
Definition ESR : Z := 160.
Definition ICRLO : Z := 192.
Definition INIT : Z := 1280.
Definition STARTUP : Z := 1536.
Definition DELIVS : Z := 4096.
Definition ASSERT : Z := 16384.
Definition LEVEL : Z := 32768.
Definition BCAST : Z := 524288.
Definition ICRHI : Z := 196.
Definition TIMER : Z := 200.
Definition X1 : Z := 11.
Definition PERIODIC : Z := 131072.
Definition PCINT : Z := 208.
Definition LINT0 : Z := 212.
Definition LINT1 : Z := 216.
Definition ERROR : Z := 220.
Definition MASKED : Z := 65536.
Definition TICR : Z := 224.
Definition TDCR : Z := 248.
Definition CMOS_PORT : Z := 112.

Section Code.
Context {D : Type} `{!MmioOps D} `{!PortOps D}.
Context (lapic : Z) (polls : nat).  (* the address mpinit found; how often a register is polled at most *)

(** The device and memory. *)
Record env : Type := mkenv { dev : D; ram : mem }.
Definition set_dev (d : D) (s : env) : env := mkenv d (ram s).

Definition lapicr (index : Z) : K env Z := fun s => let '(v, d) := mm_read (lapic + 4 * index) (dev s) in Ret v (set_dev d s).
Definition lapicw (index value : Z) : K env unit :=
  modify (fun s => set_dev (mm_write (lapic + 4 * index) (u32 value) (dev s)) s);;
  _ ← lapicr ID;  (* wait for write to finish, by reading *)
  mret tt.

(** [while(lapic[ICRLO] & DELIVS)] *)
Fixpoint wait_delivered (n : nat) : K env unit :=
  match n with
  | O => sleep_on (ChSpin 0)
  | S n => v ← lapicr ICRLO; if truthy (Z.land v DELIVS) then wait_delivered n else mret tt
  end.

Definition lapicinit : K env unit :=
  if lapic =? 0 then mret tt else
  (* Enable local APIC; set spurious interrupt vector. *)
  lapicw SVR (Z.lor ENABLE (T_IRQ0 + IRQ_SPURIOUS));;
  (* The timer repeatedly counts down at bus frequency from lapic[TICR] and then issues an
     interrupt. *)
  lapicw TDCR X1;;
  lapicw TIMER (Z.lor PERIODIC (T_IRQ0 + IRQ_TIMER));;
  lapicw TICR 10000000;;
  (* Disable logical interrupt lines. *)
  lapicw LINT0 MASKED;;
  lapicw LINT1 MASKED;;
  (* Disable performance counter overflow interrupts on machines that provide that interrupt
     entry. *)
  v ← lapicr VER;
  (if 4 <=? Z.land (Z.shiftr v 16) 255 then lapicw PCINT MASKED else mret tt);;
  (* Map error interrupt to IRQ_ERROR. *)
  lapicw ERROR (T_IRQ0 + IRQ_ERROR);;
  (* Clear error status register (requires back-to-back writes). *)
  lapicw ESR 0;;
  lapicw ESR 0;;
  (* Ack any outstanding interrupts. *)
  lapicw EOI 0;;
  (* Send an Init Level De-Assert to synchronise arbitration ID's. *)
  lapicw ICRHI 0;;
  lapicw ICRLO (Z.lor (Z.lor BCAST INIT) LEVEL);;
  wait_delivered polls;;
  (* Enable interrupts on the APIC (but not on the processor). *)
  lapicw TPR 0.

Definition lapicid : K env Z := if lapic =? 0 then mret 0 else v ← lapicr ID; mret (Z.shiftr v 24).

(** Acknowledge interrupt. *)
Definition lapiceoi : K env unit := if lapic =? 0 then mret tt else lapicw EOI 0.

Definition poke16 (m : mem) (a v : Z) : mem := poke (poke m a (u8 v)) (a + 1) (u8 (v / 256)).
Definition e_outb (port v : Z) : K env unit := modify (fun s => set_dev (port_out port (u8 v) (dev s)) s).

(** Start additional processor running entry code at addr. *)
Definition lapicstartap (apicid addr : Z) : K env unit :=
  e_outb CMOS_PORT 15;;  (* offset 0xF is shutdown code *)
  e_outb (CMOS_PORT + 1) 10;;
  let wrv := P2V 1127 in  (* Warm reset vector *)
  modify (fun s => mkenv (dev s) (poke16 (poke16 (ram s) wrv 0) (wrv + 2) (u16 (Z.shiftr addr 4))));;
  (* Send INIT (level-triggered) interrupt to reset other CPU. *)
  lapicw ICRHI (Z.shiftl apicid 24);;
  lapicw ICRLO (Z.lor (Z.lor INIT LEVEL) ASSERT);;
  lapicw ICRLO (Z.lor INIT LEVEL);;
  (* Send startup IPI (twice!) to enter code. *)
  lapicw ICRHI (Z.shiftl apicid 24);;
  lapicw ICRLO (Z.lor STARTUP (Z.shiftr addr 12));;
  lapicw ICRHI (Z.shiftl apicid 24);;
  lapicw ICRLO (Z.lor STARTUP (Z.shiftr addr 12)).

End Code.
Arguments env D : clear implicits.
End Lapic.

(** Reading [ICRLO] until the interrupt is delivered. *)
Fixpoint deliver {D} `{!MmioOps D} (lapic : Z) (n : nat) (d : D) : option D :=
  match n with
  | O => None
  | S n =>
      let '(v, d') := mm_read (lapic + 4 * Lapic.ICRLO) d in
      if truthy (Z.land v Lapic.DELIVS) then deliver lapic n d' else Some d'
  end.

(** The registers that hold what is written to them; a write to [ICRLO] sends an interrupt to
    the processor in [ICRHI]; [EOI] and [ESR] act on other state of the device. *)
Class LapicLaws (D : Type) `{!MmioOps D} `{!PortOps D} (lapic : Z) (polls : nat) : Type := {
  la_reg : D -> Z -> Z;
  la_sent : D -> list (Z * Z);
  la_read i d : 0 <= i < 1024 -> i <> Lapic.ICRLO ->
    (mm_read (lapic + 4 * i) d).1 = la_reg d i /\
    la_reg (mm_read (lapic + 4 * i) d).2 = la_reg d /\ la_sent (mm_read (lapic + 4 * i) d).2 = la_sent d;
  la_write i v d :
    i ∈ [Lapic.SVR; Lapic.TDCR; Lapic.TIMER; Lapic.TICR; Lapic.LINT0; Lapic.LINT1; Lapic.PCINT; Lapic.ERROR; Lapic.ICRHI; Lapic.TPR] ->
    (forall j, la_reg (mm_write (lapic + 4 * i) v d) j = if j =? i then v else la_reg d j) /\
    la_sent (mm_write (lapic + 4 * i) v d) = la_sent d;
  la_write_other i v d : i = Lapic.EOI \/ i = Lapic.ESR ->
    la_reg (mm_write (lapic + 4 * i) v d) = la_reg d /\ la_sent (mm_write (lapic + 4 * i) v d) = la_sent d;
  la_write_icrlo v d :
    la_reg (mm_write (lapic + 4 * Lapic.ICRLO) v d) = la_reg d /\
    la_sent (mm_write (lapic + 4 * Lapic.ICRLO) v d) = la_sent d ++ [(la_reg d Lapic.ICRHI, v)];
  la_delivered d : exists d', deliver lapic polls d = Some d' /\ la_reg d' = la_reg d /\ la_sent d' = la_sent d;
  la_port p v d : la_reg (port_out p v d) = la_reg d /\ la_sent (port_out p v d) = la_sent d
}.

Module LapicSpec.
Import Lapic CString Kalloc.
Section Spec.
Context {D : Type} `{!MmioOps D} `{!PortOps D} (lapic : Z) (polls : nat) `{!LapicLaws D lapic polls}.
Implicit Types s : env D.

Local Notation reg s := (la_reg (dev s)).
Local Notation sent s := (la_sent (dev s)).

Lemma lapicw_reg i v s (Q : unit -> env D -> Prop) :
  i ∈ [SVR; TDCR; TIMER; TICR; LINT0; LINT1; PCINT; ERROR; ICRHI; TPR] ->
  (forall s', (forall j, reg s' j = if j =? i then u32 v else reg s j) -> sent s' = sent s -> ram s' = ram s -> Q tt s') ->
  wp (lapicw lapic i v) s Q.
Proof.
  intros Hi HQ. destruct (la_write i (u32 v) (dev s) Hi) as [H1 H2]. apply wp_bind, wp_modify, wp_bind. unfold wp at 1, lapicr. cbn [dev set_dev].
  set (d := mm_write _ _ _) in *. destruct (la_read ID d ltac:(done) ltac:(done)) as (_ & H3 & H4). destruct (mm_read _ d) as [x d']. cbn in H3, H4.
  apply HQ; cbn; [|by rewrite H4|done]. intros j. by rewrite H3.
Qed.

Lemma lapicw_other i v s (Q : unit -> env D -> Prop) :
  i = EOI \/ i = ESR -> (forall s', reg s' = reg s -> sent s' = sent s -> ram s' = ram s -> Q tt s') -> wp (lapicw lapic i v) s Q.
Proof.
  intros Hi HQ. destruct (la_write_other i (u32 v) (dev s) Hi) as [H1 H2]. apply wp_bind, wp_modify, wp_bind. unfold wp at 1, lapicr. cbn [dev set_dev].
  set (d := mm_write _ _ _) in *. destruct (la_read ID d ltac:(done) ltac:(done)) as (_ & H3 & H4). destruct (mm_read _ d) as [x d']. cbn in H3, H4.
  apply HQ; cbn; [by rewrite H3|by rewrite H4|done].
Qed.

Lemma lapicw_send v s (Q : unit -> env D -> Prop) :
  (forall s', reg s' = reg s -> sent s' = sent s ++ [(reg s ICRHI, u32 v)] -> ram s' = ram s -> Q tt s') -> wp (lapicw lapic ICRLO v) s Q.
Proof.
  intros HQ. destruct (la_write_icrlo (u32 v) (dev s)) as [H1 H2]. apply wp_bind, wp_modify, wp_bind. unfold wp at 1, lapicr. cbn [dev set_dev].
  set (d := mm_write _ _ _) in *. destruct (la_read ID d ltac:(done) ltac:(done)) as (_ & H3 & H4). destruct (mm_read _ d) as [x d']. cbn in H3, H4.
  apply HQ; cbn; [by rewrite H3|by rewrite H4|done].
Qed.

Lemma lapicr_wp i s (Q : Z -> env D -> Prop) :
  0 <= i < 1024 -> i <> ICRLO -> (forall s', reg s' = reg s -> sent s' = sent s -> ram s' = ram s -> Q (reg s i) s') -> wp (lapicr lapic i) s Q.
Proof.
  intros Hi Hn HQ. unfold wp, lapicr. destruct (la_read i (dev s) Hi Hn) as (H1 & H2 & H3). destruct (mm_read _ _) as [x d']. cbn in *. subst x. by apply HQ.
Qed.

Lemma wait_delivered_wp s (Q : unit -> env D -> Prop) :
  (forall s', reg s' = reg s -> sent s' = sent s -> ram s' = ram s -> Q tt s') -> wp (wait_delivered lapic polls) s Q.
Proof.
  intros HQ. destruct (la_delivered (dev s)) as (d & Hd & H1 & H2).
  assert (forall n s', deliver lapic n (dev s') = Some d -> ram s' = ram s -> wp (wait_delivered lapic n) s' Q) as Hloop; [|by apply Hloop].
  induction n as [|n IH]; intros s' Hs' Hr; [done|]. cbn [deliver wait_delivered] in *. apply wp_bind. unfold wp at 1, lapicr.
  destruct (mm_read _ (dev s')) as [v d']. destruct (truthy _); [by apply IH|]. injection Hs' as ->. apply HQ; [done|done|exact Hr].
Qed.

Lemma mask_if (c : bool) s (Q : unit -> env D -> Prop) :
  (forall s', (c = true -> reg s' PCINT = MASKED) -> (forall j, j <> PCINT -> reg s' j = reg s j) -> sent s' = sent s -> ram s' = ram s -> Q tt s') ->
  wp (if c then lapicw lapic PCINT MASKED else mret tt) s Q.
Proof.
  intros HQ. destruct c.
  - apply lapicw_reg; [by repeat (left || right)|]. intros s' R S M. apply HQ; [by rewrite R| |done|done].
    intros j Hj. by rewrite R, (proj2 (Z.eqb_neq _ _) Hj).
  - by apply wp_ret, HQ.
Qed.

Ltac write_step := apply lapicw_reg; [by repeat (left || right)|]; intros ?s ?R ?S ?M.
Ltac other_step := apply lapicw_other; [by (left + right)|]; intros ?s ?R ?S ?M.

(** The value of a register after some writes. *)
Ltac read_back :=
  repeat match goal with
  | H : la_reg (dev ?s) = _ |- context [la_reg (dev ?s)] => rewrite H
  | H : forall j, la_reg (dev ?s) j = _ |- context [la_reg (dev ?s) ?k] => rewrite (H k)
  | H : forall j, j <> PCINT -> la_reg (dev ?s) j = _ |- context [la_reg (dev ?s) ?k] => rewrite (H k) by done
  | |- context [?a =? ?b] => let v := eval vm_compute in (a =? b) in change (a =? b) with v; cbv iota
  end.

(** The local APIC as [lapicinit] leaves it, on a machine that had the state [s]. *)
Definition programmed s s' : Prop :=
  reg s' SVR = 319 /\ reg s' TIMER = 131104 /\ reg s' TICR = 10000000 /\ reg s' TDCR = X1 /\ reg s' LINT0 = MASKED /\
  reg s' LINT1 = MASKED /\ (4 <= Z.land (Z.shiftr (reg s VER) 16) 255 -> reg s' PCINT = MASKED) /\ reg s' ERROR = 51 /\ reg s' TPR = 0 /\
  sent s' = sent s ++ [(0, Z.lor (Z.lor BCAST INIT) LEVEL)] /\ ram s' = ram s.

(** [lapicinit] enables the local APIC with its timer running, periodically, at interrupt 32,
    sends errors to interrupt 51, and masks the two lines of external interrupts. *)
Theorem lapicinit_programs s : lapic <> 0 -> wp (lapicinit lapic polls) s (fun _ s' => programmed s s').
Proof.
  intros Hl. unfold lapicinit. rewrite (proj2 (Z.eqb_neq _ _) Hl). do 6 (apply wp_bind; write_step).
  apply wp_bind. apply lapicr_wp; [done|done|]. intros s6 R6 S6 M6. apply wp_bind, mask_if. intros s7 HP R7 S7 M7.
  apply wp_bind; write_step. do 3 (apply wp_bind; other_step). apply wp_bind; write_step.
  apply wp_bind, lapicw_send. intros s13 R13 S13 M13. apply wp_bind, wait_delivered_wp. intros s14 R14 S14 M14. write_step.
  split_and!; try (read_back; reflexivity); try congruence.
  - intros H4. read_back. apply HP. apply Z.leb_le. by read_back.
  - match goal with H : la_sent (dev s13) = _ |- _ => rename H into Hsend end. transitivity (la_sent (dev s13)); [congruence|]. rewrite Hsend.
    f_equal; [congruence|]. repeat f_equal. by read_back.
Qed.

(** [lapicstartap] sets the warm reset vector to the code and sends the processor INIT, its
    end, and twice STARTUP with the page of the code, and sends nothing to any other. *)
Theorem lapicstartap_starts apicid addr s :
  0 <= apicid < 256 -> 0 <= addr < 2 ^ 20 ->
  wp (lapicstartap lapic apicid addr) s (fun _ s' =>
    sent s' = sent s ++ (pair (apicid * 2 ^ 24) <$> [Z.lor (Z.lor INIT LEVEL) ASSERT; Z.lor INIT LEVEL; Z.lor STARTUP (addr / 4096); Z.lor STARTUP (addr / 4096)]) /\
    ram s' = poke16 (poke16 (ram s) (P2V 1127) 0) (P2V 1127 + 2) (u16 (addr / 16))).
Proof.
  intros Ha Haddr. unfold lapicstartap. cbv zeta. do 3 apply wp_bind, wp_modify.
  rewrite !Z.shiftr_div_pow2, !Z.shiftl_mul_pow2 by lia. change (2 ^ 12) with 4096 in *. change (2 ^ 4) with 16. set (s0 := mkenv _ _).
  assert (sent s0 = sent s) as S0 by (unfold s0; cbn; by rewrite !(fun p v d => proj2 (la_port p v d))).
  assert (forall v, 0 <= v < 4096 -> u32 (Z.lor STARTUP v) = Z.lor STARTUP v) as Hv.
  { intros v Hv. apply u32_small. apply lor_lt; unfold STARTUP; lia. }
  apply wp_bind; write_step. apply wp_bind, lapicw_send; intros s2 R2 S2 M2. apply wp_bind, lapicw_send; intros s3 R3 S3 M3.
  apply wp_bind; write_step. apply wp_bind, lapicw_send; intros s5 R5 S5 M5. apply wp_bind; write_step. apply lapicw_send; intros s7 R7 S7 M7.
  assert (u32 (apicid * 2 ^ 24) = apicid * 2 ^ 24) as He by (apply u32_small; lia).
  assert (0 <= addr / 4096 < 4096) by (split; [apply Z.div_pos; lia|apply Z.div_lt_upper_bound; lia]).
  split; [|repeat match goal with H : ram ?s = _ |- context [ram ?s] => rewrite H end; done].
  rewrite S7. repeat match goal with H : la_sent (dev ?s) = _ |- context [la_sent (dev ?s)] => rewrite H end.
  rewrite <- !app_assoc. f_equal. cbn [app fmap list_fmap]. read_back. rewrite He, Hv by lia. done.
Qed.

End Spec.
End LapicSpec.

(** ** A board with both controllers *)

Module Board.
Import Ioapic Lapic.

Record board : Type := mkboard {
  io_sel : Z; io_regs : Z -> Z;
  la_regs : Z -> Z; la_ipis : list (Z * Z); la_busy : bool
}.

Definition LAPIC : Z := 4276092928.  (* 0xFEE00000 *)

(** The version register says 24 entries. *)
Definition io_view (b : board) (r : Z) : Z := if r =? REG_VER then 1507345 else io_regs b r.

Definition board_read (a : Z) (b : board) : Z * board :=
  if a =? data_addr then (io_view b (io_sel b), b)
  else let i := (a - LAPIC) / 4 in
    if i =? ICRLO then
      if la_busy b then (DELIVS, mkboard (io_sel b) (io_regs b) (la_regs b) (la_ipis b) false) else (0, b)
    else (la_regs b i, b).
Definition board_write (a v : Z) (b : board) : board :=
  if a =? reg_addr then mkboard v (io_regs b) (la_regs b) (la_ipis b) (la_busy b)
  else if a =? data_addr then
    mkboard (io_sel b) (fun r => if r =? io_sel b then (if r <? REG_TABLE then io_regs b r else v) else io_regs b r) (la_regs b) (la_ipis b) (la_busy b)
  else let i := (a - LAPIC) / 4 in
    if i =? ICRLO then mkboard (io_sel b) (io_regs b) (la_regs b) (la_ipis b ++ [(la_regs b ICRHI, v)]) true
    else if ((i =? EOI) || (i =? ESR))%bool then b
    else mkboard (io_sel b) (io_regs b) (fun j => if j =? i then v else la_regs b j) (la_ipis b) (la_busy b).

#[export] Instance BoardMmio : MmioOps board := {| mm_read := board_read; mm_write := board_write |}.
#[export] Instance BoardPorts : PortOps board := {| port_in := fun _ b => (0, b); port_out := fun _ _ b => b |}.

#[export] Instance BoardIoapic : IoapicLaws board.
Proof.
  refine {| io_reg := io_view |}; try done.
  intros r v d r' Hr.
  change (mm_write data_addr v (mm_write reg_addr r d)) with
    (mkboard r (fun q => if q =? r then (if q <? REG_TABLE then io_regs d q else v) else io_regs d q) (la_regs d) (la_ipis d) (la_busy d)).
  unfold io_view. cbn [io_regs]. unfold REG_TABLE, REG_VER in *. destruct (Z.eqb_spec r' r) as [->|]; [|done].
  rewrite (proj2 (Z.eqb_neq _ _)) by lia. by rewrite (proj2 (Z.ltb_ge _ _)) by lia.
Defined.

(** The register behind an address of the local APIC. *)
Lemma lapic_index i : 0 <= i < 1024 ->
  (LAPIC + 4 * i =? data_addr) = false /\ (LAPIC + 4 * i =? reg_addr) = false /\ (LAPIC + 4 * i - LAPIC) / 4 = i.
Proof.
  intros Hi. unfold LAPIC, data_addr, reg_addr, IOAPIC. split_and!; [apply Z.eqb_neq; lia|apply Z.eqb_neq; lia|].
  rewrite Z.add_simpl_l, Z.mul_comm. by apply Z.div_mul.
Qed.

#[export] Instance BoardLapic : LapicLaws board LAPIC 3.
Proof.
  refine {| la_reg := la_regs; la_sent := la_ipis |}.
  - intros i d Hi Hn. unfold mm_read, BoardMmio, board_read. destruct (lapic_index i Hi) as (-> & _ & ->).
    by rewrite (proj2 (Z.eqb_neq _ _) Hn).
  - intros i v d Hi. unfold mm_write, BoardMmio, board_write.
    assert (0 <= i < 1024 /\ (i =? ICRLO) = false /\ ((i =? EOI) || (i =? ESR))%bool = false) as (Hb & H1 & H2).
    { revert i Hi. apply Forall_forall. repeat constructor; done. }
    destruct (lapic_index i Hb) as (-> & -> & ->). by rewrite H1, H2.
  - intros i v d Hi. unfold mm_write, BoardMmio, board_write.
    assert (0 <= i < 1024 /\ (i =? ICRLO) = false /\ ((i =? EOI) || (i =? ESR))%bool = true) as (Hb & H1 & H2) by (by destruct Hi as [-> | ->]).
    destruct (lapic_index i Hb) as (-> & -> & ->). by rewrite H1, H2.
  - intros v d. unfold mm_write, BoardMmio, board_write. by destruct (lapic_index ICRLO ltac:(done)) as (-> & -> & ->).
  - intros d. exists (mkboard (io_sel d) (io_regs d) (la_regs d) (la_ipis d) false). by destruct d as [a b c e []].
  - done.
Defined.

Definition board0 : board := mkboard 0 (fun _ => 0) (fun _ => 327701) [] true.
Definition env0 : Lapic.env board := mkenv board0 (fun _ => 0).

Lemma ioapic_routes_witness :
  exists d, (_ ← ioapicinit 0; IoapicSpec.enables [(IRQ_KBD, 0); (IRQ_IDE, 3)]) board0 = Ret tt d /\
    IoapicSpec.low d IRQ_IDE = 46 /\ IoapicSpec.high d IRQ_IDE = 3 * 2 ^ 24 /\ IoapicSpec.low d 0 = Z.lor INT_DISABLED 32.
Proof.
  destruct (wp_elim _ _ _ (IoapicSpec.ioapic_routes 0 [(IRQ_KBD, 0); (IRQ_IDE, 3)] board0 ltac:(repeat (apply Forall_cons; split; [split; discriminate|]); apply Forall_nil; exact I))) as ([] & d & Hd & Hr).
  exists d. split; [exact Hd|]. destruct (Hr IRQ_IDE ltac:(vm_compute; split; discriminate)) as [H1 H2].
  destruct (Hr 0 ltac:(vm_compute; split; discriminate)) as [H3 H4]. split; [exact H1|]. split; [exact H2|exact H3].
Defined.

Lemma lapicinit_programs_witness : wp (lapicinit LAPIC 3) env0 (fun _ s => LapicSpec.programmed LAPIC 3 env0 s).
Proof. apply (LapicSpec.lapicinit_programs LAPIC 3 env0). discriminate. Defined.

Lemma lapicstartap_starts_witness :
  wp (lapicstartap LAPIC 4 28672) env0 (fun _ s => la_ipis (dev s) =
    [(4 * 2 ^ 24, 50432); (4 * 2 ^ 24, 34048); (4 * 2 ^ 24, 1543); (4 * 2 ^ 24, 1543)]).
Proof.
  eapply wp_mono; [apply (LapicSpec.lapicstartap_starts LAPIC 3 4 28672 env0); split; reflexivity || discriminate|].
  intros [] s [H _]. exact H.
Defined.

End Board.
