(* ===== verification/Uart.v ===== *)
(** * The serial port (uart.c)

    The port is a device behind input and output ports ([PortOps] of Apic.v), with what its data
    sheet says as the laws [UartLaws]: a queue of received bytes, and a transmitter that takes
    a byte when its status says so.

    Shown: after [uartinit] the bytes given to [uartputc] are sent in order, behind the
    announcement; [uartintr] passes all bytes received to the console and leaves none.
    Without a serial port the functions do nothing. *)

From S2P Require Export Apic Console.
Local Open Scope Z_scope.

Module Uart.
Import Console.

Definition COM1 : Z := 1016.  (* 0x3f8 *)

Section Code.
Context {D : Type} `{!PortOps D} `{!MmioOps D}.

Record st : Type := mkst { u_dev : D; uart : bool (* is there a uart? *) }.
Definition set_udev (d : D) (s : st) : st := mkst d (uart s).

Definition u_outb (port v : Z) : K st unit := modify (fun s => set_udev (port_out port (u8 v) (u_dev s)) s).
Definition u_inb (port : Z) : K st Z := fun s => let '(v, d) := port_in port (u_dev s) in Ret v (set_udev d s).

(** [for(i = 0; i < 128 && !(inb(COM1+5) & 0x20); i++)] *)
Fixpoint wait_transmit (n : nat) : K st unit :=
  match n with
  | O => mret tt
  | S n => v ← u_inb (COM1 + 5); if truthy (Z.land v 32) then mret tt else wait_transmit n
  end.

Definition uartputc (c : Z) : K st unit :=
  u ← gets uart;
  if negb u then mret tt else
  wait_transmit 128;;
  u_outb (COM1 + 0) c.

Fixpoint putc_all (l : list Z) : K st unit := match l with [] => mret tt | c :: l => uartputc c;; putc_all l end.

(** "xv6...\n" *)
Definition announce : list Z := [120; 118; 54; 46; 46; 46; 10].

Definition uartinit : K st unit :=
  (* Turn off the FIFO *)
  u_outb (COM1 + 2) 0;;
  (* 9600 baud, 8 data bits, 1 stop bit, parity off. *)
  u_outb (COM1 + 3) 128;;  (* Unlock divisor *)
  u_outb (COM1 + 0) (115200 / 9600);;
  u_outb (COM1 + 1) 0;;
  u_outb (COM1 + 3) 3;;  (* Lock divisor, 8 data bits. *)
  u_outb (COM1 + 4) 0;;
  u_outb (COM1 + 1) 1;;  (* Enable receive interrupts. *)
  (* If status is 0xFF, no serial port. *)
  v ← u_inb (COM1 + 5);
  if v =? 255 then mret tt else
  modify (fun s => mkst (u_dev s) true);;
  (* Acknowledge pre-existing interrupt conditions; enable interrupts. *)
  _ ← u_inb (COM1 + 2);
  _ ← u_inb (COM1 + 0);
  zoom u_dev set_udev (Ioapic.ioapicenable IRQ_COM1 0);;
  (* Announce that we're here. *)
  putc_all announce.

Definition uartgetc : K st Z :=
  u ← gets uart;
  if negb u then mret (-1) else
  v ← u_inb (COM1 + 5);
  if negb (truthy (Z.land v 1)) then mret (-1) else
  u_inb (COM1 + 0).

(** The calls of [uartgetc] by [consoleintr], until one returns -1. *)
Fixpoint uart_loop (fuel : nat) : K st (list Z) :=
  match fuel with
  | O => sleep_on (ChSpin 0)
  | S fuel => c ← uartgetc; if c <? 0 then mret [] else l ← uart_loop fuel; mret (c :: l)
  end.

Definition uartintr (fuel : nat) (i : input) : K st (input * list Z * bool) := l ← uart_loop fuel; mret (consoleintr l i).

End Code.
Arguments st D : clear implicits.

End Uart.

(** A serial port: bytes received and sent, and whether it takes a byte now.  [us_raw] is the
    port before it is programmed. *)
Class UartLaws (D : Type) `{!PortOps D} `{!MmioOps D} : Type := {
  us_raw : D -> Prop;
  us_ok : D -> Prop;
  us_rx : D -> list Z;
  us_tx : D -> list Z;
  us_ready : D -> bool;
  us_patience : D -> nat;  (* how many more reads of the status say not ready *)
  us_program d : us_raw d ->
    let d' := port_out 1017 1 (port_out 1020 0 (port_out 1019 3 (port_out 1017 0 (port_out 1016 12 (port_out 1019 128 (port_out 1018 0 d)))))) in
    us_ok d' /\ us_rx d' = [] /\ us_tx d' = [];
  us_status d : us_ok d ->
    let r := (port_in 1021 d).1 in let d' := (port_in 1021 d).2 in
    us_ok d' /\ us_rx d' = us_rx d /\ us_tx d' = us_tx d /\ r <> 255 /\
    (truthy (Z.land r 1) = bool_decide (us_rx d <> [])) /\
    (truthy (Z.land r 32) = true -> us_ready d' = true) /\
    (truthy (Z.land r 32) = false -> (us_patience d' < us_patience d)%nat);
  us_slow d : us_ok d -> (us_patience d < 128)%nat;
  us_other d : us_ok d -> let d' := (port_in 1018 d).2 in us_ok d' /\ us_rx d' = us_rx d /\ us_tx d' = us_tx d;
  us_receive d : us_ok d ->
    let d' := (port_in 1016 d).2 in us_ok d' /\ us_rx d' = tail (us_rx d) /\ us_tx d' = us_tx d /\
    (forall c l, us_rx d = c :: l -> (port_in 1016 d).1 = c);
  us_send d c : us_ok d -> us_ready d = true ->
    let d' := port_out 1016 c d in us_ok d' /\ us_rx d' = us_rx d /\ us_tx d' = us_tx d ++ [c];
  us_mmio a v d : us_ok d -> us_ok (mm_write a v d) /\ us_rx (mm_write a v d) = us_rx d /\ us_tx (mm_write a v d) = us_tx d
}.

Module UartSpec.
Import Console Uart.
Section Spec.
Context {D : Type} `{!PortOps D} `{!MmioOps D} `{!UartLaws D}.
Implicit Types s : st D.

(** There is a port with [rx] received and [tx] sent. *)
Definition port s (rx tx : list Z) : Prop := us_ok (u_dev s) /\ uart s = true /\ us_rx (u_dev s) = rx /\ us_tx (u_dev s) = tx.

Lemma wait_transmit_wp n s rx tx (Q : unit -> st D -> Prop) :
  port s rx tx -> (us_patience (u_dev s) < n)%nat -> (forall s', port s' rx tx -> us_ready (u_dev s') = true -> Q tt s') -> wp (wait_transmit n) s Q.
Proof.
  revert s. induction n as [|n IH]; intros s Hp Hn HQ; [lia|]. destruct Hp as (Hok & Hu & Hrx & Htx). cbn [wait_transmit].
  destruct (us_status (u_dev s) Hok) as (H1 & H2 & H3 & _ & _ & H4 & H5). apply wp_bind. unfold wp at 1, u_inb. change (COM1 + 5) with 1021.
  destruct (port_in 1021 (u_dev s)) as [r d]. cbn [fst snd] in *. assert (port (set_udev d s) rx tx) as Hp by (split_and!; [done|done|by cbn; congruence|by cbn; congruence]).
  destruct (truthy (Z.land r 32)).
  - apply wp_ret, HQ; [done|by apply H4].
  - apply IH; [done|specialize (H5 eq_refl); cbn; lia|exact HQ].
Qed.

Lemma uartputc_wp c s rx tx (Q : unit -> st D -> Prop) :
  0 <= c < 256 -> port s rx tx -> (forall s', port s' rx (tx ++ [c]) -> Q tt s') -> wp (uartputc c) s Q.
Proof.
  intros Hc Hp HQ. unfold uartputc. apply wp_bind, wp_gets. rewrite (proj1 (proj2 Hp)). cbn [negb]. apply wp_bind.
  eapply (wait_transmit_wp _ _ rx tx); [exact Hp|apply us_slow, Hp|]. intros s' (Hok & Hu & Hrx & Htx) Hr. apply wp_modify.
  rewrite (u8_small c) by done. destruct (us_send (u_dev s') c Hok Hr) as (H1 & H2 & H3).
  apply HQ. rewrite <- Hrx, <- Htx. split_and!; [exact H1|exact Hu|exact H2|exact H3].
Qed.

Lemma putc_all_wp l s rx tx (Q : unit -> st D -> Prop) :
  Forall (fun c => 0 <= c < 256) l -> port s rx tx -> (forall s', port s' rx (tx ++ l) -> Q tt s') -> wp (putc_all l) s Q.
Proof.
  revert s tx. induction l as [|c l IH]; intros s tx Hl Hp HQ; cbn [putc_all].
  - apply wp_ret, HQ. by rewrite app_nil_r.
  - apply Forall_cons in Hl as [Hc Hl]. apply wp_bind. eapply uartputc_wp; [exact Hc|exact Hp|]. intros s' Hp'.
    eapply IH; [done|exact Hp'|]. by rewrite <- app_assoc.
Qed.

Lemma enable_port s rx tx (Q : unit -> st D -> Prop) :
  port s rx tx -> (forall s', port s' rx tx -> Q tt s') -> wp (zoom u_dev set_udev (Ioapic.ioapicenable IRQ_COM1 0)) s Q.
Proof.
  intros (Hok & Hu & Hrx & Htx) HQ. apply wp_zoom. unfold wp, Ioapic.ioapicenable, mbind, K_bind, Ioapic.ioapicwrite. apply HQ.
  assert (forall a v d, us_ok d -> us_rx d = rx -> us_tx d = tx -> us_ok (mm_write a v d) /\ us_rx (mm_write a v d) = rx /\ us_tx (mm_write a v d) = tx) as Hm.
  { intros a v d H1 H2 H3. destruct (us_mmio a v d H1) as (? & ? & ?). split_and!; [done|congruence|congruence]. }
  unfold port. cbn [u_dev set_udev uart].
  destruct (Hm Ioapic.reg_addr (Ioapic.REG_TABLE + 2 * IRQ_COM1) _ Hok Hrx Htx) as (H1 & H2 & H3).
  destruct (Hm Ioapic.data_addr (T_IRQ0 + IRQ_COM1) _ H1 H2 H3) as (H4 & H5 & H6).
  destruct (Hm Ioapic.reg_addr (Ioapic.REG_TABLE + 2 * IRQ_COM1 + 1) _ H4 H5 H6) as (H7 & H8 & H9).
  destruct (Hm Ioapic.data_addr (u32 (Z.shiftl 0 24)) _ H7 H8 H9) as (H10 & H11 & H12). done.
Qed.

Lemma uartinit_wp s (Q : unit -> st D -> Prop) :
  us_raw (u_dev s) -> (forall s', port s' [] announce -> Q tt s') -> wp uartinit s Q.
Proof.
  intros Hr HQ. unfold uartinit. do 7 (apply wp_bind, wp_modify). destruct (us_program (u_dev s) Hr) as (H1 & H2 & H3).
  apply wp_bind. unfold wp at 1, u_inb. cbn [u_dev set_udev]. change (COM1 + 5) with 1021.
  set (d1 := port_out (COM1 + 1) (u8 1) _). assert (us_ok d1 /\ us_rx d1 = [] /\ us_tx d1 = []) as (K1 & K2 & K3) by done.
  destruct (us_status d1 K1) as (K4 & K5 & K6 & Hne & _). destruct (port_in 1021 d1) as [r d2]. cbn [fst snd] in *.
  rewrite (proj2 (Z.eqb_neq _ _) Hne). apply wp_bind, wp_modify, wp_bind. unfold wp at 1, u_inb. cbn [u_dev set_udev].
  destruct (us_other d2 K4) as (K7 & K8 & K9). change (COM1 + 2) with 1018. destruct (port_in 1018 d2) as [r3 d3]. cbn [fst snd] in *.
  apply wp_bind. unfold wp at 1. change (COM1 + 0) with 1016. cbn [u_dev set_udev].
  destruct (us_receive d3 K7) as (K10 & K11 & K12 & _). destruct (port_in 1016 d3) as [r4 d4]. cbn [fst snd] in *.
  apply wp_bind. eapply (enable_port _ [] []); [split_and!; [done|done|by cbn; rewrite K11, K8, K5, K2|by cbn; rewrite K12, K9, K6, K3]|].
  intros s' Hs'. eapply putc_all_wp; [repeat constructor; done|exact Hs'|exact HQ].
Qed.

Lemma uart_loop_wp rx s tx fuel (Q : list Z -> st D -> Prop) :
  Forall (fun c => 0 <= c) rx -> port s rx tx -> (length rx < fuel)%nat -> (forall s', port s' [] tx -> Q rx s') -> wp (uart_loop fuel) s Q.
Proof.
  revert s fuel Q. induction rx as [|c rx IH]; intros s fuel Q Hpos (Hok & Hu & Hrx & Htx) Hf HQ; destruct fuel as [|fuel]; cbn in Hf; try lia.
  all: cbn [uart_loop]; apply wp_bind; unfold uartgetc; apply wp_bind, wp_gets; rewrite Hu; cbn [negb]; apply wp_bind; unfold wp at 1, u_inb at 1;
    change (COM1 + 5) with 1021; destruct (us_status (u_dev s) Hok) as (H1 & H2 & H3 & _ & H4 & _); destruct (port_in 1021 (u_dev s)) as [r d];
    cbn [fst snd] in *; rewrite H4, Hrx.
  - rewrite bool_decide_eq_false_2 by (by intros []). cbn [negb]. apply wp_ret. cbn [Z.ltb Z.compare]. apply wp_ret, HQ.
    split_and!; [done|done|cbn; congruence|cbn; congruence].
  - rewrite bool_decide_eq_true_2 by done. cbn [negb]. unfold wp at 1, u_inb. cbn [u_dev set_udev]. change (COM1 + 0) with 1016.
    destruct (us_receive d H1) as (H5 & H6 & H7 & H8). rewrite H2, Hrx in H6, H8. specialize (H8 c rx eq_refl). destruct (port_in 1016 d) as [c' d']. cbn [fst snd tail] in *. subst c'.
    apply Forall_cons in Hpos as [Hc Hpos]. rewrite (proj2 (Z.ltb_ge _ _)) by lia. apply wp_bind. apply (IH _ fuel); [done|split_and!; [done|done|done|cbn; congruence]|lia|].
    intros s' Hs'. by apply wp_ret, HQ.
Qed.

(** After [uartinit] the bytes given to [uartputc] go out on the line, in order and behind
    the announcement, and nothing is lost or sent twice. *)
Theorem uart_sends l s :
  us_raw (u_dev s) -> Forall (fun c => 0 <= c < 256) l ->
  wp (uartinit;; putc_all l) s (fun _ s' => us_tx (u_dev s') = announce ++ l).
Proof.
  intros Hr Hl. apply wp_bind, uartinit_wp; [done|]. intros s' Hs'. eapply putc_all_wp; [done|exact Hs'|]. by intros s'' (_ & _ & _ & ?).
Qed.

(** [uartintr] gives all the bytes received to the line editor of the console. *)
Theorem uartintr_feeds_console rx tx s i fuel :
  port s rx tx -> Forall (fun c => 0 <= c) rx -> (length rx < fuel)%nat ->
  wp (uartintr fuel i) s (fun r s' => r = consoleintr rx i /\ port s' [] tx).
Proof. intros Hp Hpos Hf. apply wp_bind. eapply uart_loop_wp; [done|exact Hp|done|]. intros s' Hs'. by apply wp_ret. Qed.

End Spec.
End UartSpec.

(** ** A serial port *)

Module Line.
Import Console Uart UartSpec.

Record line : Type := mkline { rx : list Z; tx : list Z; busy : nat; latch : bool }.

Definition line_in (p : Z) (d : line) : Z * line :=
  if p =? 1021 then
    ((if decide (rx d = []) then 0 else 1) + (if decide (busy d = 0%nat) then 32 else 0), mkline (rx d) (tx d) (pred (busy d)) (latch d))
  else if p =? 1016 then (default 0 (head (rx d)), mkline (tail (rx d)) (tx d) (busy d) (latch d))
  else (0, d).
Definition line_out (p v : Z) (d : line) : line :=
  if p =? 1019 then mkline (rx d) (tx d) (busy d) (v =? 128)
  else if ((p =? 1016) && negb (latch d))%bool then mkline (rx d) (tx d ++ [v]) 2 (latch d)
  else d.

#[export] Instance LinePorts : PortOps line := {| port_in := line_in; port_out := line_out |}.
#[export] Instance LineMmio : MmioOps line := {| mm_read := fun _ d => (0, d); mm_write := fun _ _ d => d |}.

#[export] Instance LineLaws : UartLaws line.
Proof.
  refine {| us_raw := fun d => rx d = [] /\ tx d = [] /\ (busy d <= 2)%nat; us_ok := fun d => (busy d <= 2)%nat /\ latch d = false;
            us_rx := rx; us_tx := tx; us_ready := fun d => bool_decide (busy d = 0%nat); us_patience := busy |}.
  - intros [r t b l] (H1 & H2 & H3). cbn in *. by destruct l.
  - intros [[|c r] t [|[|[|b]]] l] [H1 H2]; cbn in H1, H2; try lia; subst l; cbn; split_and!; try done; lia.
  - intros d [H1 H2]. lia.
  - by intros d H.
  - intros [r t b l] [H1 H2]. cbn in *. split_and!; try done. by intros c l' ->.
  - intros [r t b l] c [H1 H2] _. cbn in *. by subst l.
  - by intros a v d H.
Defined.

Definition line0 : st line := mkst (mkline [] [] 2 false) false.
Definition line1 : st line := mkst (mkline [108; 115; 10] [] 1 false) true.

Lemma uart_sends_witness : wp (uartinit;; putc_all [36; 32]) line0 (fun _ s' => us_tx (u_dev s') = announce ++ [36; 32]).
Proof. apply (uart_sends [36; 32] line0); [split_and!; [reflexivity|reflexivity|apply Nat.leb_le; reflexivity]|repeat constructor; discriminate || reflexivity]. Defined.

Lemma uartintr_feeds_console_witness : wp (uartintr 10 (mkinput (replicate 128 0) 0 0 0)) line1 (fun r s => r = consoleintr [108; 115; 10] (mkinput (replicate 128 0) 0 0 0) /\ port s [] []).
Proof.
  apply (uartintr_feeds_console [108; 115; 10] [] line1 (mkinput (replicate 128 0) 0 0 0) 10).
  - split_and!; [split; [apply Nat.leb_le|]; reflexivity|reflexivity|reflexivity|reflexivity].
  - repeat constructor; discriminate.
  - apply Nat.ltb_lt. reflexivity.
Defined.

End Line.
