(* ===== verification/Vm.v ===== *)
(** * Virtual memory

    vm.c: two-level page tables in physical memory, over the allocator of kalloc.c.
    Memory is addressed by kernel virtual addresses, as the code addresses it.
    [end_] and [data_] are the addresses the linker gives; [readi] of fs.c, which
    [loaduvm] calls, is an argument. *)

From S2P Require Export Kalloc.
Local Open Scope Z_scope.

Definition PTE_P : Z := 1.
Definition PTE_W : Z := 2.
Definition PTE_U : Z := 4.
Definition PDX (va : Z) : Z := Z.land (Z.shiftr va 22) 1023.
Definition PTX (va : Z) : Z := Z.land (Z.shiftr va 12) 1023.
Definition PGADDR (d t o : Z) : Z := u32 (Z.lor (Z.lor (Z.shiftl d 22) (Z.shiftl t 12)) o).
Definition PTE_ADDR (pte : Z) : Z := Z.land pte (u32 (Z.lnot 4095)).
Definition PTE_FLAGS (pte : Z) : Z := Z.land pte 4095.
Definition NPDENTRIES : nat := 1024.

Module Vm.
Import CString Words Kalloc.

Section Vm.
Context (end_ data_ : Z).

Definition M (A : Type) : Type := K kmem A.

Definition kalloc_ : M Z := fun s => let '(r, s') := kalloc s in Ret r s'.
Definition kfree_ (v : Z) : M unit := fun s =>
  match kfree end_ v s with Some s' => Ret tt s' | None => Panic "kfree" s end.
Definition load (a : Z) : M Z := gets (fun s => load32 (kmemory s) a).
Definition store (a w : Z) : M unit := modify (fun s => mkkmem (poke32 (kmemory s) a w) (freelist s)).
Definition memset_ (v c : Z) (n : nat) : M unit :=
  modify (fun s => mkkmem (memset (kmemory s) v c n) (freelist s)).
Definition memmove_ (d v : Z) (n : nat) : M unit :=
  modify (fun s => mkkmem (memmove (kmemory s) d v n) (freelist s)).
(** [memmove] from a buffer outside this memory. *)
Fixpoint write_bytes (m : mem) (a : Z) (l : list Z) : mem :=
  match l with [] => m | b :: l => write_bytes (poke m a b) (a + 1) l end.
Definition memmove_in (d : Z) (l : list Z) : M unit :=
  modify (fun s => mkkmem (write_bytes (kmemory s) d l) (freelist s)).

(** ** The code *)

Definition walkpgdir (pgdir va : Z) (alloc : bool) : M (option Z) :=
  let pde := pgdir + 4 * PDX va in
  e ← load pde;
  if truthy (Z.land e PTE_P) then mret (Some (P2V (PTE_ADDR e) + 4 * PTX va))
  else if negb alloc then mret None
  else
    pgtab ← kalloc_;
    if pgtab =? 0 then mret None
    else
      memset_ pgtab 0 4096;;
      store pde (Z.lor (Z.lor (Z.lor (V2P pgtab) PTE_P) PTE_W) PTE_U);;
      mret (Some (pgtab + 4 * PTX va)).

(** The loop of [mappages]; a range has at most 2^20 pages. *)
Fixpoint mappages_loop (fuel : nat) (pgdir a last pa perm : Z) : M Z :=
  match fuel with
  | O => mret (-1)
  | S fuel =>
      r ← walkpgdir pgdir a true;
      match r with
      | None => mret (-1)
      | Some pte =>
          e ← load pte;
          if truthy (Z.land e PTE_P) then panic "remap" else
          store pte (Z.lor (Z.lor pa perm) PTE_P);;
          if a =? last then mret 0
          else mappages_loop fuel pgdir (a +u PGSIZE) last (pa +u PGSIZE) perm
      end
  end.
Definition mappages (pgdir va size pa perm : Z) : M Z :=
  let a := PGROUNDDOWN va in
  let last := PGROUNDDOWN (va + size -u 1) in
  mappages_loop (Z.to_nat ((last -u a) / PGSIZE + 1)) pgdir a last pa perm.

(** [deallocuvm]; each round moves [a] up by at least a page. *)
Fixpoint deallocuvm_loop (fuel : nat) (pgdir a oldsz : Z) : M unit :=
  match fuel with
  | O => mret tt
  | S fuel =>
      if a <? oldsz then
        r ← walkpgdir pgdir a false;
        match r with
        | None => deallocuvm_loop fuel pgdir (PGADDR (PDX a + 1) 0 0 -u PGSIZE +u PGSIZE) oldsz
        | Some pte =>
            e ← load pte;
            (if truthy (Z.land e PTE_P) then
               let pa := PTE_ADDR e in
               if pa =? 0 then panic "kfree" else kfree_ (P2V pa);; store pte 0
             else mret tt);;
            deallocuvm_loop fuel pgdir (a +u PGSIZE) oldsz
        end
      else mret tt
  end.
Definition deallocuvm (pgdir oldsz newsz : Z) : M Z :=
  if oldsz <=? newsz then mret oldsz
  else
    let a := PGROUNDUP newsz in
    deallocuvm_loop (Z.to_nat ((oldsz - a) / PGSIZE + 1)) pgdir a oldsz;;
    mret newsz.

Fixpoint freevm_loop (n : nat) (i : Z) (pgdir : Z) : M unit :=
  match n with
  | O => mret tt
  | S n =>
      e ← load (pgdir + 4 * i);
      (if truthy (Z.land e PTE_P) then kfree_ (P2V (PTE_ADDR e)) else mret tt);;
      freevm_loop n (i + 1) pgdir
  end.
Definition freevm (pgdir : Z) : M unit :=
  if pgdir =? 0 then panic "freevm: no pgdir" else
  deallocuvm pgdir KERNBASE 0;;
  freevm_loop NPDENTRIES 0 pgdir;;
  kfree_ pgdir.

Definition KERNLINK : Z := KERNBASE + EXTMEM.
Record kmapping : Type := mkkmap { virt : Z; phys_start : Z; phys_end : Z; kperm : Z }.
Definition kmap : list kmapping :=
  [mkkmap KERNBASE 0 EXTMEM PTE_W;               (* I/O space *)
   mkkmap KERNLINK (V2P KERNLINK) (V2P data_) 0; (* kern text+rodata *)
   mkkmap data_ (V2P data_) PHYSTOP PTE_W;       (* kern data+memory *)
   mkkmap DEVSPACE DEVSPACE 0 PTE_W].            (* more devices *)

Fixpoint setupkvm_loop (l : list kmapping) (pgdir : Z) : M Z :=
  match l with
  | [] => mret pgdir
  | k :: l =>
      r ← mappages pgdir (virt k) (phys_end k -u phys_start k) (phys_start k) (kperm k);
      if r <? 0 then freevm pgdir;; mret 0 else setupkvm_loop l pgdir
  end.
Definition setupkvm : M Z :=
  pgdir ← kalloc_;
  if pgdir =? 0 then mret 0 else
  memset_ pgdir 0 4096;;
  if P2V PHYSTOP >? DEVSPACE then panic "PHYSTOP too high" else
  setupkvm_loop kmap pgdir.

Definition inituvm (pgdir : Z) (init : list Z) : M unit :=
  if PGSIZE <=? Z.of_nat (length init) then panic "inituvm: more than a page" else
  m ← kalloc_;
  memset_ m 0 4096;;
  mappages pgdir 0 PGSIZE (V2P m) (Z.lor PTE_W PTE_U);;
  memmove_in m init.

(** [loaduvm] reads the file system too: it runs on a state [S] that has this memory in
    it, where [on] runs the operations of this file and [readi] is that of fs.c. *)
Fixpoint loaduvm_loop {S} (on : forall A, M A -> K S A) (readi : Z -> Z -> Z -> K S Z) (fuel : nat)
    (pgdir addr offset i sz : Z) : K S Z :=
  match fuel with
  | O => mret 0
  | Datatypes.S fuel =>
      if i <? sz then
        r ← on _ (walkpgdir pgdir (addr +u i) false);
        match r with
        | None => panic "loaduvm: address should exist"
        | Some pte =>
            e ← on _ (load pte);
            let n := if sz - i <? PGSIZE then sz - i else PGSIZE in
            r ← readi (P2V (PTE_ADDR e)) (offset +u i) n;
            if r =? n then loaduvm_loop on readi fuel pgdir addr offset (i + PGSIZE) sz else mret (-1)
        end
      else mret 0
  end.
Definition loaduvm {S} (on : forall A, M A -> K S A) (readi : Z -> Z -> Z -> K S Z) (pgdir addr offset sz : Z) : K S Z :=
  if negb (addr mod PGSIZE =? 0) then panic "loaduvm: addr must be page aligned" else
  loaduvm_loop on readi (Z.to_nat (sz / PGSIZE + 1)) pgdir addr offset 0 sz.

Fixpoint allocuvm_loop (fuel : nat) (pgdir a oldsz newsz : Z) : M Z :=
  match fuel with
  | O => mret newsz
  | S fuel =>
      if a <? newsz then
        m ← kalloc_;
        if m =? 0 then deallocuvm pgdir newsz oldsz;; mret 0 else
        memset_ m 0 4096;;
        r ← mappages pgdir a PGSIZE (V2P m) (Z.lor PTE_W PTE_U);
        if r <? 0 then deallocuvm pgdir newsz oldsz;; kfree_ m;; mret 0
        else allocuvm_loop fuel pgdir (a + PGSIZE) oldsz newsz
      else mret newsz
  end.
Definition allocuvm (pgdir oldsz newsz : Z) : M Z :=
  if KERNBASE <=? newsz then mret 0
  else if newsz <? oldsz then mret oldsz
  else let a := PGROUNDUP oldsz in
       allocuvm_loop (Z.to_nat ((newsz - a) / PGSIZE + 1)) pgdir a oldsz newsz.

Definition clearpteu (pgdir uva : Z) : M unit :=
  r ← walkpgdir pgdir uva false;
  match r with
  | None => panic "clearpteu"
  | Some pte => e ← load pte; store pte (Z.land e (u32 (Z.lnot PTE_U)))
  end.

Fixpoint copyuvm_loop (fuel : nat) (pgdir d i sz : Z) : M Z :=
  match fuel with
  | O => mret d
  | S fuel =>
      if i <? sz then
        r ← walkpgdir pgdir i false;
        match r with
        | None => panic "copyuvm: pte should exist"
        | Some pte =>
            e ← load pte;
            if negb (truthy (Z.land e PTE_P)) then panic "copyuvm: page not present" else
            m ← kalloc_;
            if m =? 0 then freevm d;; mret 0 else
            memmove_ m (P2V (PTE_ADDR e)) 4096;;
            r ← mappages d i PGSIZE (V2P m) (PTE_FLAGS e);
            if r <? 0 then freevm d;; mret 0
            else copyuvm_loop fuel pgdir d (i + PGSIZE) sz
        end
      else mret d
  end.
Definition copyuvm (pgdir sz : Z) : M Z :=
  d ← setupkvm;
  if d =? 0 then mret 0 else copyuvm_loop (Z.to_nat (sz / PGSIZE + 1)) pgdir d 0 sz.

(** [uva2ka] dereferences the result of [walkpgdir] unchecked. *)
Definition uva2ka (pgdir uva : Z) : M Z :=
  r ← walkpgdir pgdir uva false;
  match r with
  | None => fault "null dereference"
  | Some pte =>
      e ← load pte;
      if Z.land e PTE_P =? 0 then mret 0
      else if Z.land e PTE_U =? 0 then mret 0
      else mret (P2V (PTE_ADDR e))
  end.

(** [copyout] of the bytes [buf]; each round but the first starts at a page. *)
Fixpoint copyout_loop (fuel : nat) (pgdir va : Z) (buf : list Z) : M Z :=
  match fuel with
  | O => mret (-1)
  | S fuel =>
      if (length buf =? 0)%nat then mret 0
      else
        let va0 := PGROUNDDOWN va in
        pa0 ← uva2ka pgdir va0;
        if pa0 =? 0 then mret (-1) else
        let n := Z.min (PGSIZE - (va - va0)) (Z.of_nat (length buf)) in
        memmove_in (pa0 + (va - va0)) (take (Z.to_nat n) buf);;
        copyout_loop fuel pgdir (va0 +u PGSIZE) (drop (Z.to_nat n) buf)
  end.
Definition copyout (pgdir va : Z) (buf : list Z) : M Z :=
  copyout_loop (length buf + 1) pgdir va buf.

End Vm.
End Vm.
