(* ===== verification/VmSpec.v ===== *)
(** * Virtual memory: page tables as maps

    The page table in memory as a map from virtual pages to page table entries, and
    what the functions of vm.c do to it.

    Shown: [walkpgdir] finds the entry of an address, allocating a page table if it
    must, without changing any translation; [mappages] maps exactly the pages it is
    asked to; [copyout] writes through the page table; and where the code fails:
    [uva2ka] dereferences a null pointer. *)

From S2P Require Export Vm.
Local Open Scope Z_scope.

Module VmSpec.
Import CString Words Kalloc Vm.

(** ** Addresses *)

Lemma PDX_spec va : 0 <= va < 2 ^ 32 -> PDX va = va / 2 ^ 22 /\ 0 <= PDX va < 1024.
Proof.
  intros H. unfold PDX. rewrite Z.shiftr_div_pow2 by lia. change 1023 with (Z.ones 10).
  rewrite Z.land_ones by lia. assert (0 <= va / 2 ^ 22 < 1024).
  { split; [apply Z.div_pos; lia|apply Z.div_lt_upper_bound; lia]. }
  rewrite Z.mod_small by (change (2 ^ 10) with 1024; lia). lia.
Qed.

Lemma PTX_spec va : PTX va = (va / 2 ^ 12) mod 1024 /\ 0 <= PTX va < 1024.
Proof.
  unfold PTX. rewrite Z.shiftr_div_pow2 by lia. change 1023 with (Z.ones 10).
  rewrite Z.land_ones by lia. change (2 ^ 10) with 1024. split; [done|apply Z.mod_pos_bound; lia].
Qed.

Definition same_page (va va' : Z) : Prop := va / PGSIZE = va' / PGSIZE.

#[global] Instance same_page_dec va va' : Decision (same_page va va').
Proof. unfold same_page. apply _. Defined.

Lemma same_page_index va va' :
  0 <= va < 2 ^ 32 -> 0 <= va' < 2 ^ 32 ->
  same_page va va' <-> PDX va = PDX va' /\ PTX va = PTX va'.
Proof.
  intros H H'. destruct (PDX_spec va H) as [-> _]. destruct (PDX_spec va' H') as [-> _].
  destruct (PTX_spec va) as [-> _]. destruct (PTX_spec va') as [-> _]. unfold same_page, PGSIZE.
  change 4096 with (2 ^ 12). change (2 ^ 22) with (2 ^ 12 * 1024). rewrite <- !Z.div_div by lia.
  split; [by intros ->|]. intros [H1 H2].
  rewrite (Z.div_mod (va / 2 ^ 12) 1024), (Z.div_mod (va' / 2 ^ 12) 1024) by lia. by rewrite H1, H2.
Qed.

(** An entry: the address of a page, and flags. *)
Lemma lor_flags a f : a mod PGSIZE = 0 -> 0 <= f < PGSIZE -> Z.lor a f = a + f.
Proof.
  intros Ha Hf. apply Z.mod_divide in Ha as [k ->]; [|done].
  assert (Z.land (k * PGSIZE) f = 0) as Hl.
  { change PGSIZE with (2 ^ 12). rewrite <- Z.shiftl_mul_pow2 by lia. apply Z.bits_inj'. intros n Hn.
    rewrite Z.land_spec, Z.bits_0. destruct (Z.ltb_spec n 12) as [H12|H12].
    - rewrite Z.shiftl_spec_low by lia. done.
    - apply andb_false_intro2. destruct (decide (f = 0)) as [->|]; [apply Z.bits_0|].
      apply Z.bits_above_log2; [lia|]. apply Z.log2_lt_pow2; [lia|].
      apply Z.lt_le_trans with (2 ^ 12); [unfold PGSIZE in Hf; lia|]. apply Z.pow_le_mono_r; lia. }
  rewrite Z.add_nocarry_lxor by done. by rewrite <- Z.lxor_lor.
Qed.

Lemma entry_addr a f : 0 <= a < 2 ^ 32 -> a mod PGSIZE = 0 -> 0 <= f < PGSIZE -> PTE_ADDR (Z.lor a f) = a.
Proof.
  intros Hr Ha Hf. rewrite lor_flags by done. unfold PTE_ADDR. change 4095 with (PGSIZE - 1).
  assert (a + f < 2 ^ 32).
  { apply Z.mod_divide in Ha as [k ->]; [|done]. unfold PGSIZE in *. lia. }
  rewrite land_page by lia. rewrite <- Zplus_mod_idemp_l, Ha, Z.mod_small by lia. lia.
Qed.

Lemma entry_present e : truthy (Z.land (Z.lor e PTE_P) PTE_P) = true.
Proof.
  unfold truthy, PTE_P. apply negb_true_iff, Z.eqb_neq. intros H.
  apply (f_equal (fun z => Z.testbit z 0)) in H. rewrite Z.land_spec, Z.lor_spec in H. cbn in H.
  by rewrite orb_true_r in H.
Qed.

Section Spec.
Context (end_ : Z) (Hend : KERNBASE <= end_).

Local Abbreviation page_ok := (page_ok end_).
Local Abbreviation kmem_ok := (kmem_ok end_).

Lemma page_P2V v : page_ok v -> P2V (V2P v) = v /\ 0 <= V2P v < PHYSTOP /\ V2P v mod PGSIZE = 0 /\ 0 <= v < 2 ^ 32.
Proof.
  intros [Ha Hr]. unfold V2P, P2V, KERNBASE, PHYSTOP in *. rewrite (u32_small (v - _)) by lia.
  rewrite u32_small by lia. split_and!; try lia. rewrite Zminus_mod, Ha. done.
Qed.

(** ** The page table as a map *)

Definition pde (m : mem) (pgdir d : Z) : Z := load32 m (pgdir + 4 * d).
Definition present (e : Z) : Prop := truthy (Z.land e PTE_P) = true.
Definition table (m : mem) (pgdir d : Z) : Z := P2V (PTE_ADDR (pde m pgdir d)).
Definition pte_addr (m : mem) (pgdir va : Z) : Z := table m pgdir (PDX va) + 4 * PTX va.

(** The page table entry of [va]; zero, that is not present, if there is no table. *)
Definition pte (m : mem) (pgdir va : Z) : Z :=
  if truthy (Z.land (pde m pgdir (PDX va)) PTE_P) then load32 m (pte_addr m pgdir va) else 0.

(** [v] is a page of the page table. *)
Definition pt_page (m : mem) (pgdir v : Z) : Prop :=
  v = pgdir \/ exists d, 0 <= d < 1024 /\ present (pde m pgdir d) /\ table m pgdir d = v.

Definition pt_ok (m : mem) (pgdir : Z) (l : list Z) : Prop :=
  page_ok pgdir /\ (pgdir ∉ l) /\
  (forall d, 0 <= d < 1024 -> present (pde m pgdir d) ->
     page_ok (table m pgdir d) /\ (table m pgdir d ∉ l) /\ table m pgdir d <> pgdir) /\
  (forall d d', 0 <= d < 1024 -> 0 <= d' < 1024 -> present (pde m pgdir d) -> present (pde m pgdir d') ->
     table m pgdir d = table m pgdir d' -> d = d').

Definition vm_ok (s : kmem) (pgdir : Z) (l : list Z) : Prop :=
  kmem_ok s l /\ pt_ok (kmemory s) pgdir l.

Definition va_ok (va : Z) : Prop := 0 <= va < 2 ^ 32.

(** Memory outside the page table and the free pages. *)
Definition frame (m m' : mem) (pgdir : Z) (l : list Z) : Prop :=
  forall v, page_ok v -> (v ∉ l) -> ~ pt_page m pgdir v ->
    ~ pt_page m' pgdir v /\ forall x, v <= x < v + PGSIZE -> m' x = m x.

Lemma frame_refl m pgdir l : frame m m pgdir l.
Proof. intros v _ _ Hn. done. Qed.

Lemma page_apart v w x : page_ok v -> page_ok w -> v <> w -> v <= x < v + PGSIZE -> x < w \/ w + PGSIZE <= x.
Proof. intros Hv Hw Hne Hx. destruct (pages_apart end_ v w Hv Hw Hne); lia. Qed.

Lemma kmem_ok_ext s m' l :
  kmem_ok s l -> (forall v, v ∈ l -> forall x, v <= x < v + PGSIZE -> m' x = kmemory s x) ->
  kmem_ok (mkkmem m' (freelist s)) l.
Proof.
  intros (Hc & Hnd & Hok) He. split_and!; [|done|done]. cbn. eapply chain_ext; [|exact Hc].
  intros v Hv. apply load_ext. intros x Hx. apply (He v Hv). unfold PGSIZE. lia.
Qed.

(** Writing inside the page [t], which is neither free nor the directory. *)
Lemma pde_frame m m' pgdir t d :
  page_ok pgdir -> page_ok t -> t <> pgdir -> 0 <= d < 1024 ->
  (forall x, x < t \/ t + PGSIZE <= x -> m' x = m x) -> pde m' pgdir d = pde m pgdir d.
Proof.
  intros Hp Ht Hne Hd He. apply load_ext. intros x Hx. apply He.
  apply (page_apart pgdir t x); [done|done|done|]. unfold PGSIZE. lia.
Qed.

Lemma pt_ok_ext m m' pgdir l :
  (forall d, 0 <= d < 1024 -> pde m' pgdir d = pde m pgdir d) -> pt_ok m pgdir l -> pt_ok m' pgdir l.
Proof.
  intros He (H1 & H2 & H3 & H4). split_and!; [done..| |].
  - intros d Hd. unfold table. rewrite He by done. by apply H3.
  - intros d d' Hd Hd'. unfold table. rewrite !He by done. by apply H4.
Qed.

Lemma pt_page_ext m m' pgdir v :
  (forall d, 0 <= d < 1024 -> pde m' pgdir d = pde m pgdir d) -> pt_page m' pgdir v <-> pt_page m pgdir v.
Proof.
  intros He. unfold pt_page, table. split; intros [->|(d & Hd & Hp & Ht)]; [by left| |by left|]; right; exists d.
  - by rewrite <- He.
  - by rewrite He.
Qed.

Lemma store_pte s pgdir l va w :
  vm_ok s pgdir l -> va_ok va -> present (pde (kmemory s) pgdir (PDX va)) ->
  let m := kmemory s in let m' := poke32 m (pte_addr m pgdir va) w in
  vm_ok (mkkmem m' (freelist s)) pgdir l /\ frame m m' pgdir l /\
  (forall d, 0 <= d < 1024 -> pde m' pgdir d = pde m pgdir d) /\
  forall va', va_ok va' -> pte m' pgdir va' = if decide (same_page va va') then u32 w else pte m pgdir va'.
Proof.
  intros [Hk Hpt] Hva Hpr m m'. fold m in Hpt, Hpr. pose proof Hpt as (Hpd & Hpl & Htab & Hinj).
  destruct (PDX_spec va Hva) as [_ Hdx]. destruct (PTX_spec va) as [_ Htx].
  destruct (Htab (PDX va) Hdx Hpr) as (Ht & Htl & Htp). set (t := table m pgdir (PDX va)) in *.
  assert (forall x, x < t \/ t + PGSIZE <= x -> m' x = m x) as Hout.
  { intros x Hx. apply poke32_out. unfold pte_addr. fold t. unfold PGSIZE in Hx. lia. }
  assert (forall d, 0 <= d < 1024 -> pde m' pgdir d = pde m pgdir d) as Hpde by (intros; by apply (pde_frame m m' pgdir t)).
  split; [split|split; [|split]].
  - apply (kmem_ok_ext s); [done|]. intros v Hv x Hx. apply Hout.
    destruct Hk as (_ & _ & Hok). rewrite Forall_forall in Hok.
    apply (page_apart v t x); [by apply Hok|done|by intros ->|done].
  - by apply (pt_ok_ext m).
  - intros v Hv _ Hn. split; [by rewrite (pt_page_ext m m')|]. intros x Hx. apply Hout.
    apply (page_apart v t x); [done..| |done]. intros ->. apply Hn. right. by exists (PDX va).
  - done.
  - intros va' Hva'. unfold pte at 1, pte_addr, table.
    destruct (PDX_spec va' Hva') as [_ Hdx']. destruct (PTX_spec va') as [_ Htx']. rewrite Hpde by done.
    case_decide as Hsame.
    + apply same_page_index in Hsame as [<- <-]; [|done|done]. unfold present in Hpr. fold m in Hpr. rewrite Hpr.
      apply load_poke_same.
    + unfold pte. destruct (truthy (Z.land (pde m pgdir (PDX va')) PTE_P)) eqn:E; [|done].
      apply load_poke_ne. unfold pte_addr. fold t. destruct (decide (PDX va = PDX va')) as [Heq|Hne].
      * assert (PTX va <> PTX va') by (intros ?; apply Hsame; by apply same_page_index).
        unfold t, table. rewrite <- Heq. lia.
      * destruct (Htab (PDX va') Hdx' E) as (Ht' & _ & _). fold (table m pgdir (PDX va')).
        set (t' := table m pgdir (PDX va')) in *. destruct (pages_apart end_ t t' Ht Ht') as [?|?];
          [intros ?; apply Hne; by apply Hinj|unfold PGSIZE in *; lia..].
Qed.

Lemma entry_table v : page_ok v ->
  let e := Z.lor (Z.lor (Z.lor (V2P v) PTE_P) PTE_W) PTE_U in
  present e /\ P2V (PTE_ADDR e) = v /\ 0 <= e < 2 ^ 32.
Proof.
  intros Hv. destruct (page_P2V v Hv) as (Hp & Hr & Ha & Hv32). cbv zeta.
  assert (Z.lor (Z.lor (Z.lor (V2P v) PTE_P) PTE_W) PTE_U = Z.lor (V2P v) 7) as -> by (by rewrite <- !Z.lor_assoc).
  rewrite entry_addr by (unfold PGSIZE, PHYSTOP in *; lia || done). split_and!; [|done|..].
  - unfold present. change 7 with (Z.lor 6 PTE_P). rewrite Z.lor_assoc. apply entry_present.
  - rewrite lor_flags by (done || (unfold PGSIZE; lia)). lia.
  - rewrite lor_flags by (done || (unfold PGSIZE; lia)). unfold PHYSTOP in *. lia.
Qed.

(** The memory after [walkpgdir] has made the new page [t] the table of [d]. *)
Definition new_table (m : mem) (pgdir d t : Z) : mem :=
  poke32 (memset m t 0 4096) (pgdir + 4 * d) (Z.lor (Z.lor (Z.lor (V2P t) PTE_P) PTE_W) PTE_U).

Lemma new_table_out m pgdir d t x :
  0 <= d < 1024 -> (x < t \/ t + PGSIZE <= x) -> (x < pgdir \/ pgdir + PGSIZE <= x) ->
  new_table m pgdir d t x = m x.
Proof.
  intros Hd Ht Hp. unfold new_table, PGSIZE in *. rewrite poke32_out by lia. rewrite memset_spec.
  destruct (Z.leb_spec t x), (Z.ltb_spec x (t + Z.of_nat 4096)); cbn [andb]; done || lia.
Qed.

Lemma new_table_spec s pgdir l t d :
  vm_ok s pgdir (t :: l) -> 0 <= d < 1024 -> ~ present (pde (kmemory s) pgdir d) ->
  let m := kmemory s in let m' := new_table m pgdir d t in
  (forall d', 0 <= d' < 1024 -> d' <> d -> pde m' pgdir d' = pde m pgdir d') /\
  present (pde m' pgdir d) /\ table m' pgdir d = t /\
  (forall i, 0 <= i < 1024 -> load32 m' (t + 4 * i) = 0).
Proof.
  intros [(Hc & Hnd & Hok) (Hpd & Hpl & Htab & Hinj)] Hd Hnp m m'.
  apply Forall_cons in Hok as [Ht Hok]. assert (t <> pgdir) as Htp by set_solver.
  destruct (entry_table t Ht) as (He1 & He2 & He3). split_and!.
  - intros d' Hd' Hne. unfold pde, m', new_table. rewrite load_poke_ne by lia. apply load_ext. intros x Hx.
    rewrite memset_spec. pose proof (page_apart pgdir t x Hpd Ht ltac:(done) ltac:(unfold PGSIZE; lia)) as Hap.
    unfold PGSIZE in Hap. destruct (Z.leb_spec t x), (Z.ltb_spec x (t + Z.of_nat 4096)); cbn [andb]; done || lia.
  - unfold pde, m', new_table. by rewrite load_poke_same, u32_small.
  - unfold table, pde, m', new_table. by rewrite load_poke_same, u32_small.
  - intros i Hi. unfold m', new_table. rewrite load_poke_ne.
    + unfold load32. rewrite !memset_spec. rewrite !(proj2 (Z.leb_le _ _)), !(proj2 (Z.ltb_lt _ _)) by lia. done.
    + destruct (pages_apart end_ t pgdir Ht Hpd Htp); unfold PGSIZE in *; lia.
Qed.

(** ** [walkpgdir] *)

Lemma walk_present s pgdir va alloc :
  present (pde (kmemory s) pgdir (PDX va)) ->
  walkpgdir pgdir va alloc s = Ret (Some (pte_addr (kmemory s) pgdir va)) s.
Proof. intros Hp. unfold walkpgdir, load, gets, mbind, K_bind. unfold present, pde in Hp. by rewrite Hp. Qed.

Lemma walk_absent s pgdir va :
  ~ present (pde (kmemory s) pgdir (PDX va)) -> walkpgdir pgdir va false s = Ret None s.
Proof.
  intros Hp. unfold walkpgdir, load, gets, mbind, K_bind. unfold present, pde in Hp.
  by destruct (truthy _) eqn:E.
Qed.

(** From [m] to [m'] the page table has got the pages [used], at least. *)
Definition grows (m m' : mem) (pgdir : Z) (used : list Z) : Prop :=
  forall v, pt_page m pgdir v \/ v ∈ used -> pt_page m' pgdir v.

Lemma grows_refl m pgdir : grows m m pgdir [].
Proof. intros v [?|?%elem_of_nil]; done. Qed.

Lemma grows_same m m' pgdir : (forall d, 0 <= d < 1024 -> pde m' pgdir d = pde m pgdir d) -> grows m m' pgdir [].
Proof. intros H v [?|?%elem_of_nil]; [by apply (pt_page_ext m m')|done]. Qed.

Lemma grows_trans m m1 m2 pgdir u1 u2 : grows m m1 pgdir u1 -> grows m1 m2 pgdir u2 -> grows m m2 pgdir (u1 ++ u2).
Proof. intros H1 H2 v Hv. apply H2. rewrite elem_of_app in Hv. destruct Hv as [?|[?|?]]; auto. Qed.

(** After [walkpgdir] with allocation: all entries are as they were, and that of
    [va] is in memory at the address returned. *)
Definition walked (s s' : kmem) (pgdir va : Z) (l l' : list Z) (p : Z) : Prop :=
  vm_ok s' pgdir l' /\ (exists used, l = used ++ l' /\ grows (kmemory s) (kmemory s') pgdir used) /\
  present (pde (kmemory s') pgdir (PDX va)) /\ p = pte_addr (kmemory s') pgdir va /\
  (forall va', va_ok va' -> pte (kmemory s') pgdir va' = pte (kmemory s) pgdir va') /\
  frame (kmemory s) (kmemory s') pgdir l.

Lemma walk_new s pgdir va t l :
  vm_ok s pgdir (t :: l) -> va_ok va -> ~ present (pde (kmemory s) pgdir (PDX va)) ->
  walked s (mkkmem (new_table (kmemory s) pgdir (PDX va) t) (load32 (kmemory s) t)) pgdir va (t :: l) l
    (t + 4 * PTX va).
Proof.
  intros Hvm Hva Hnp. destruct (PDX_spec va Hva) as [_ Hdx]. destruct (PTX_spec va) as [_ Htx].
  destruct (new_table_spec s pgdir l t (PDX va) Hvm Hdx Hnp) as (Hother & Hpr & Htb & Hz).
  destruct Hvm as [(Hc & Hnd & Hok) (Hpd & Hpl & Htab & Hinj)].
  set (m := kmemory s) in *. set (m' := new_table m pgdir (PDX va) t) in *.
  apply Forall_cons in Hok as [Ht Hok]. apply NoDup_cons in Hnd as [Htl Hnd]. cbn [chain] in Hc. destruct Hc as [_ Hc].
  assert (t <> pgdir) as Htp by set_solver. assert (pgdir ∉ l) as Hpl' by set_solver.
  assert (forall d, 0 <= d < 1024 -> d <> PDX va -> table m' pgdir d = table m pgdir d) as Htab'
    by (intros d Hd Hne; unfold table; by rewrite Hother).
  unfold walked. cbn [kmemory freelist]. change (kmemory s) with m. fold m'.
  split; [split|split; [exists [t]; split; [done|]|split; [done|split; [unfold pte_addr; by rewrite Htb|split]]]].
  - split_and!; [|done|done]. eapply chain_ext; [|exact Hc]. intros v Hv. apply load_ext. intros x Hx.
    rewrite Forall_forall in Hok.
    apply new_table_out; [done|apply (page_apart v t x); [by apply Hok|done|by intros ->|unfold PGSIZE; lia]|].
    apply (page_apart v pgdir x); [by apply Hok|done|by intros ->|unfold PGSIZE; lia].
  - change (pt_ok m' pgdir l). split_and!; [done|done| |].
    + intros d Hd Hpd'. destruct (decide (d = PDX va)) as [->|Hne]; [by rewrite Htb|].
      rewrite Htab' by done. rewrite Hother in Hpd' by done. destruct (Htab d Hd Hpd') as (? & ? & ?). set_solver.
    + intros d d' Hd Hd' Hp1 Hp2 Heq.
      destruct (decide (d = PDX va)) as [->|Hne], (decide (d' = PDX va)) as [->|Hne']; try done.
      * rewrite Htb, Htab' in Heq by done. rewrite Hother in Hp2 by done. destruct (Htab d' Hd' Hp2). set_solver.
      * rewrite Htb, Htab' in Heq by done. rewrite Hother in Hp1 by done. destruct (Htab d Hd Hp1). set_solver.
      * rewrite !Htab' in Heq by done. rewrite Hother in Hp1, Hp2 by done. by apply Hinj.
  - intros v [[->|(d & Hd & Hp & Htd)]| ->%list_elem_of_singleton]; [by left| |right; by exists (PDX va)]. right. exists d.
    assert (d <> PDX va) by (by intros ->). by rewrite Hother, Htab' by done.
  - intros va' Hva'. destruct (PDX_spec va' Hva') as [_ Hdx']. destruct (PTX_spec va') as [_ Htx'].
    unfold pte, pte_addr. destruct (decide (PDX va' = PDX va)) as [Heq|Hne].
    + rewrite Heq, Htb, Hz by done. unfold present in Hpr, Hnp. rewrite Hpr.
      destruct (truthy (Z.land (pde m pgdir (PDX va)) PTE_P)); [by destruct Hnp|done].
    + rewrite Hother, Htab' by done. destruct (truthy (Z.land (pde m pgdir (PDX va')) PTE_P)) eqn:E; [|done].
      destruct (Htab (PDX va') Hdx' E) as (H1 & H2 & H3). apply load_ext. intros x Hx.
      apply new_table_out; [done|apply (page_apart (table m pgdir (PDX va')) t x); [done|done|set_solver|unfold PGSIZE; lia]|].
      apply (page_apart (table m pgdir (PDX va')) pgdir x); [done..|unfold PGSIZE; lia].
  - intros v Hv Hvl Hnv. split.
    + intros [->|(d & Hd & Hp & Htd)]; [apply Hnv; by left|]. destruct (decide (d = PDX va)) as [->|Hne].
      * rewrite Htb in Htd. set_solver.
      * apply Hnv. right. exists d. rewrite Hother in Hp by done. rewrite Htab' in Htd by done. done.
    + intros x Hx. apply new_table_out; [done|apply (page_apart v t x); [done|done|set_solver|done]|].
      apply (page_apart v pgdir x); [done..| |done]. intros ->. apply Hnv. by left.
Qed.

Lemma walk_alloc s pgdir va l :
  vm_ok s pgdir l -> va_ok va ->
  wp (walkpgdir pgdir va true) s (fun r s' =>
    match r with
    | None => l = [] /\ ~ present (pde (kmemory s) pgdir (PDX va)) /\ s' = s
    | Some p => (l <> [] \/ present (pde (kmemory s) pgdir (PDX va))) /\ exists l', walked s s' pgdir va l l' p
    end).
Proof.
  intros Hvm Hva. destruct (decide (truthy (Z.land (pde (kmemory s) pgdir (PDX va)) PTE_P) = true)) as [Hp|Hp].
  - eapply wp_eq; [by apply walk_present|]. split; [by right|]. exists l. split; [done|]. split; [exists []; split; [done|apply grows_refl]|].
    split; [done|]. split; [done|]. split; [done|apply frame_refl].
  - pose proof Hvm as [Hk _]. unfold wp, walkpgdir, load, gets, mbind, K_bind.
    unfold pde in Hp. destruct (truthy _) eqn:E; [done|]. cbn [negb]. unfold kalloc_.
    destruct l as [|t l].
    + rewrite (kalloc_empty end_) by done. split_and!; [done| |done]. unfold present, pde. by rewrite E.
    + destruct (kalloc_spec end_ Hend s t l Hk) as (s1 & Hrun & Hk1 & Htl & Ht & Hmem). unfold kalloc in Hrun |- *.
      destruct (freelist s =? 0) eqn:Ef; [injection Hrun as <- <-; apply page_ok_range in Ht; [lia|done]|].
      injection Hrun as Hfl Hs1. rewrite Hfl. apply page_ok_range in Ht; [|done].
      rewrite (proj2 (Z.eqb_neq t 0)) by lia. split; [by left|]. exists l.
      apply (walk_new s pgdir va t l Hvm Hva). unfold present, pde. by rewrite E.
Qed.

(** ** [mappages] *)

(** The entry [mappages] writes for the page at physical address [pa]. *)
Definition entry (pa perm : Z) : Z := Z.lor (Z.lor pa perm) PTE_P.

Lemma entry_range pa perm : 0 <= pa < 2 ^ 32 -> 0 <= perm < PGSIZE -> 0 <= entry pa perm < 2 ^ 32.
Proof.
  intros Hpa Hperm. unfold entry, PTE_P, PGSIZE in *. apply lor_lt; [lia| |lia]. apply lor_lt; lia.
Qed.

Lemma frame_trans m m1 m2 pgdir l l1 :
  frame m m1 pgdir l -> frame m1 m2 pgdir l1 -> (forall v, v ∈ l1 -> v ∈ l) -> frame m m2 pgdir l.
Proof.
  intros H1 H2 Hs v Hv Hl Hn. destruct (H1 v Hv Hl Hn) as [Hn1 He1].
  destruct (H2 v Hv ltac:(auto) Hn1) as [Hn2 He2]. split; [done|]. intros x Hx. by rewrite He2, He1.
Qed.

(** [k] pages from [a] on are mapped to those from [pa] on; the other entries are as
    in [s].  [l'] are the free pages left. *)
Definition mapped (s s' : kmem) (pgdir : Z) (l l' : list Z) (a pa perm : Z) (k : nat) : Prop :=
  vm_ok s' pgdir l' /\ (exists used, l = used ++ l' /\ grows (kmemory s) (kmemory s') pgdir used) /\
  frame (kmemory s) (kmemory s') pgdir l /\
  forall va, va_ok va -> pte (kmemory s') pgdir va =
    if decide (a <= va < a + PGSIZE * Z.of_nat k)
    then entry (pa + (va / PGSIZE * PGSIZE - a)) perm else pte (kmemory s) pgdir va.

Lemma mapped_none s pgdir l a pa perm : vm_ok s pgdir l -> mapped s s pgdir l l a pa perm 0.
Proof.
  intros H. split; [done|]. split; [exists []; split; [done|apply grows_refl]|]. split; [apply frame_refl|]. intros va _.
  rewrite decide_False by lia. done.
Qed.

(** One page. *)
Lemma map_one s pgdir l a pa perm :
  vm_ok s pgdir l -> va_ok a -> a mod PGSIZE = 0 -> 0 <= pa < 2 ^ 32 -> 0 <= perm < PGSIZE ->
  ~ present (pte (kmemory s) pgdir a) ->
  wp (r ← walkpgdir pgdir a true;
      match r with
      | None => mret false
      | Some p => e ← load p; if truthy (Z.land e PTE_P) then panic "remap" else store p (entry pa perm);; mret true
      end) s
    (fun ok s' => if (ok : bool)
       then (l <> [] \/ present (pde (kmemory s) pgdir (PDX a))) /\ exists l', mapped s s' pgdir l l' a pa perm 1
       else l = [] /\ ~ present (pde (kmemory s) pgdir (PDX a)) /\ s' = s).
Proof.
  intros Hvm Ha Hal Hpa Hperm Hnp. apply wp_bind. eapply wp_mono; [by apply walk_alloc|].
  intros [p|] s1; [|intros (-> & ? & ->); by apply wp_ret]. intros (Hroom & l' & Hvm1 & (used & -> & Hg) & Hpr & -> & Hsame & Hfr).
  unfold load. wp_steps.
  assert (load32 (kmemory s1) (pte_addr (kmemory s1) pgdir a) = pte (kmemory s) pgdir a) as Hld.
  { rewrite <- Hsame by done. unfold pte, present in *. by rewrite Hpr. }
  rewrite Hld. unfold present in Hnp. destruct (truthy (Z.land (pte (kmemory s) pgdir a) PTE_P)) eqn:E; [done|].
  unfold store. wp_steps. split; [exact Hroom|]. destruct (store_pte s1 pgdir l' a (entry pa perm) Hvm1 Ha Hpr) as (Hvm2 & Hfr2 & Hpde & Hpte).
  exists l'. split; [done|]. split; [exists used; split; [done|]; rewrite <- (app_nil_r used);
    eapply grows_trans; [exact Hg|by apply grows_same]|]. split.
  - eapply frame_trans; [exact Hfr|exact Hfr2|]. set_solver.
  - intros va Hva. cbn [kmemory]. rewrite Hpte by done. rewrite Hsame by done.
    assert (same_page a va <-> a <= va < a + PGSIZE * Z.of_nat 1) as Hiff.
    { unfold same_page. apply Z.mod_divide in Hal as [k ->]; [|done]. rewrite Z.div_mul by done.
      pose proof (Z.div_mod va PGSIZE ltac:(done)). pose proof (Z.mod_pos_bound va PGSIZE ltac:(done)).
      unfold PGSIZE in *. nia. }
    destruct (decide (same_page a va)) as [Hs|Hs].
    + rewrite decide_True by tauto. rewrite u32_small by (by apply entry_range). f_equal.
      unfold same_page in Hs. rewrite <- Hs. apply Z.mod_divide in Hal as [k ->]; [|done].
      rewrite Z.div_mul by done. lia.
    + rewrite decide_False by tauto. done.
Qed.

Lemma mappages_loop_S fuel pgdir a last pa perm s :
  mappages_loop (S fuel) pgdir a last pa perm s =
  (ok ← (r ← walkpgdir pgdir a true;
         match r with
         | None => mret false
         | Some p => e ← load p; if truthy (Z.land e PTE_P) then panic "remap" else store p (entry pa perm);; mret true
         end);
   if (ok : bool)
   then if a =? last then mret 0 else mappages_loop fuel pgdir (a +u PGSIZE) last (pa +u PGSIZE) perm
   else mret (-1)) s.
Proof.
  cbn [mappages_loop]. unfold mbind, K_bind. destruct (walkpgdir pgdir a true s) as [[p|] s1| | |]; try done.
  unfold load, gets. by destruct (truthy _).
Qed.

Lemma mapped_trans s s1 s2 pgdir l l1 l2 a pa perm k :
  a mod PGSIZE = 0 ->
  mapped s s1 pgdir l l1 a pa perm 1 ->
  mapped s1 s2 pgdir l1 l2 (a + PGSIZE) (pa + PGSIZE) perm k ->
  mapped s s2 pgdir l l2 a pa perm (S k).
Proof.
  intros Ha (Hv1 & (u1 & -> & Hg1) & Hf1 & Hp1) (Hv2 & (u2 & -> & Hg2) & Hf2 & Hp2). split; [done|].
  split; [exists (u1 ++ u2); split; [by rewrite app_assoc|by eapply grows_trans]|]. split.
  - eapply frame_trans; [exact Hf1|exact Hf2|set_solver].
  - intros va Hva. rewrite Hp2, Hp1 by done. apply Z.mod_divide in Ha as [c ->]; [|done].
    unfold PGSIZE in *. repeat case_decide; try lia; f_equal; lia.
Qed.

(** The range of [n] pages from [a] on that [mappages] is asked to map. *)
Definition range_ok (m : mem) (pgdir a pa perm : Z) (n : nat) : Prop :=
  a mod PGSIZE = 0 /\ 0 <= a /\ a + PGSIZE * Z.of_nat n <= 2 ^ 32 /\
  0 <= pa /\ pa + PGSIZE * Z.of_nat n <= 2 ^ 32 /\ 0 <= perm < PGSIZE /\
  forall va, a <= va < a + PGSIZE * Z.of_nat n -> ~ present (pte m pgdir va).

Lemma mappages_loop_spec n s pgdir l a pa perm :
  vm_ok s pgdir l -> range_ok (kmemory s) pgdir a pa perm (S n) ->
  wp (mappages_loop (S n) pgdir a (a + PGSIZE * Z.of_nat n) pa perm) s (fun r s' =>
    exists l' k, mapped s s' pgdir l l' a pa perm k /\
      (r = 0 /\ k = S n \/ r = -1 /\ l' = [] /\ (k <= n)%nat)).
Proof.
  revert s l a pa. induction n as [|n IH]; intros s l a pa Hvm (Hal & Ha & Ha32 & Hpa & Hpa32 & Hperm & Habs).
  all: unfold wp; rewrite mappages_loop_S; apply wp_bind; eapply wp_mono;
    [apply map_one; [done|unfold va_ok, PGSIZE in *; lia|done|unfold PGSIZE in *; lia|done|apply Habs; unfold PGSIZE; lia]|].
  all: intros [] s1; [intros (_ & l1 & Hm1)|intros (-> & _ & ->); apply wp_ret; exists [], 0%nat; split; [by apply mapped_none|right; split_and!; lia || done]].
  - rewrite (proj2 (Z.eqb_eq _ _)) by lia. apply wp_ret. exists l1, 1%nat. split; [done|by left].
  - rewrite (proj2 (Z.eqb_neq _ _)) by (unfold PGSIZE; lia).
    rewrite (u32_small (a + PGSIZE)), (u32_small (pa + PGSIZE)) by (unfold PGSIZE in *; lia).
    replace (a + PGSIZE * Z.of_nat (S n)) with (a + PGSIZE + PGSIZE * Z.of_nat n) by lia.
    eapply wp_mono; [apply (IH s1 l1)|].
    + by destruct Hm1.
    + split; [by rewrite Z.add_mod, Hal|]. unfold PGSIZE in *. split; [lia|]. split; [lia|]. split; [lia|].
      split; [lia|]. split; [done|]. intros va Hva. destruct Hm1 as (_ & _ & _ & Hp1).
      rewrite Hp1 by (unfold va_ok; lia). unfold PGSIZE. rewrite decide_False by lia. apply Habs. lia.
    + intros r s2 (l2 & k & Hm2 & Hr). exists l2, (S k). split; [by eapply (mapped_trans s s1)|].
      destruct Hr as [[-> ->]|(-> & -> & Hk)]; [by left|right; split_and!; lia || done].
Qed.

Lemma mappages_range n s pgdir a pa perm :
  range_ok (kmemory s) pgdir a pa perm (S n) ->
  mappages pgdir a (PGSIZE * Z.of_nat (S n)) pa perm = mappages_loop (S n) pgdir a (a + PGSIZE * Z.of_nat n) pa perm.
Proof.
  intros (Hal & Ha & Ha32 & _). unfold mappages.
  replace (PGROUNDDOWN a) with a by (rewrite pgrounddown_spec by (unfold PGSIZE in *; lia); lia).
  replace (PGROUNDDOWN _) with (a + PGSIZE * Z.of_nat n).
  - rewrite (u32_small (_ - a)) by (unfold PGSIZE in *; lia). f_equal.
    replace (a + PGSIZE * Z.of_nat n - a) with (Z.of_nat n * PGSIZE) by lia. rewrite Z.div_mul by done. lia.
  - rewrite (u32_small (_ - 1)), pgrounddown_spec by (unfold PGSIZE in *; lia).
    apply Z.mod_divide in Hal as [c ->]; [|done].
    replace (c * PGSIZE + PGSIZE * Z.of_nat (S n) - 1) with (PGSIZE - 1 + (c + Z.of_nat n) * PGSIZE) by lia.
    rewrite Z.mod_add by done. rewrite (Z.mod_small (PGSIZE - 1)) by (unfold PGSIZE; lia). lia.
Qed.

Lemma mappages_spec n s pgdir l a pa perm :
  vm_ok s pgdir l -> (0 < n)%nat -> range_ok (kmemory s) pgdir a pa perm n ->
  wp (mappages pgdir a (PGSIZE * Z.of_nat n) pa perm) s (fun r s' =>
    exists l' k, mapped s s' pgdir l l' a pa perm k /\
      (r = 0 /\ k = n \/ r = -1 /\ l' = [] /\ (k < n)%nat)).
Proof.
  intros Hvm Hn Hr. destruct n as [|n]; [lia|]. rewrite (mappages_range n s) by done.
  eapply wp_mono; [by apply mappages_loop_spec|]. intros r s' (l' & k & Hm & Hk). exists l', k. split; [done|].
  destruct Hk as [?|(? & ? & ?)]; [by left|right; split_and!; lia || done].
Qed.

(** One page can be mapped exactly when its table exists or a page is free for it. *)
Lemma mappages_room s pgdir l a pa perm :
  vm_ok s pgdir l -> range_ok (kmemory s) pgdir a pa perm 1 ->
  wp (mappages pgdir a (PGSIZE * Z.of_nat 1) pa perm) s (fun r s' => r = 0 <-> l <> [] \/ present (pde (kmemory s) pgdir (PDX a))).
Proof.
  intros Hvm Hr. rewrite (mappages_range 0 s) by done. destruct Hr as (Hal & Ha & Ha32 & Hpa & Hpa32 & Hperm & Habs).
  unfold wp. rewrite mappages_loop_S. apply wp_bind. eapply wp_mono;
    [apply map_one; [done|unfold va_ok, PGSIZE in *; lia|done|unfold PGSIZE in *; lia|done|apply Habs; unfold PGSIZE; lia]|].
  intros [] s1; [intros (Hroom & _)|intros (-> & Hn & _)].
  - rewrite (proj2 (Z.eqb_eq _ _)) by lia. by apply wp_ret.
  - apply wp_ret. split; [done|]. intros [?|?]; done.
Qed.

(** C26: [mappages] on a page-aligned range of [n] unmapped pages either returns 0, and
    then exactly the pages of the range are mapped, each to the physical page at the
    same distance from [pa] with the permissions given; or returns -1, and then no free
    page is left and a prefix of the range is mapped.  In both cases every other entry
    of the page table is unchanged, as is every page that is not a page table or free. *)
Theorem mappages_maps n s pgdir l a pa perm :
  vm_ok s pgdir l -> (0 < n)%nat -> range_ok (kmemory s) pgdir a pa perm n ->
  wp (mappages pgdir a (PGSIZE * Z.of_nat n) pa perm) s (fun r s' =>
    exists l' k, mapped s s' pgdir l l' a pa perm k /\
      (r = 0 /\ k = n \/ r = -1 /\ l' = [] /\ (k < n)%nat)).
Proof. apply mappages_spec. Qed.

(** ** User memory through the page table *)

(** The kernel address of the page that [va] is mapped to. *)
Definition upage (m : mem) (pgdir va : Z) : Z := P2V (PTE_ADDR (pte m pgdir va)).
Definition uaddr (m : mem) (pgdir va : Z) : Z := upage m pgdir va + va mod PGSIZE.

(** [lo..hi) is mapped, for the user, to pages of its own: neither free, nor part of
    the page table, nor mapped twice. *)
Definition user_ok (m : mem) (pgdir : Z) (l : list Z) (lo hi : Z) : Prop :=
  0 <= lo /\ hi <= KERNBASE /\
  (forall va, lo <= va < hi ->
     present (pte m pgdir va) /\ truthy (Z.land (pte m pgdir va) PTE_U) = true /\
     page_ok (upage m pgdir va) /\ ~ pt_page m pgdir (upage m pgdir va) /\ (upage m pgdir va ∉ l)) /\
  (forall va va', lo <= va < hi -> lo <= va' < hi -> upage m pgdir va = upage m pgdir va' -> same_page va va').

(** A write inside a page that is not part of the page table leaves the table as it is. *)
Lemma pte_outside m m' pgdir l v va :
  pt_ok m pgdir l -> page_ok v -> ~ pt_page m pgdir v -> va_ok va ->
  (forall x, x < v \/ v + PGSIZE <= x -> m' x = m x) ->
  (forall d, 0 <= d < 1024 -> pde m' pgdir d = pde m pgdir d) /\ pte m' pgdir va = pte m pgdir va.
Proof.
  intros (Hpd & _ & Htab & _) Hv Hn Hva He.
  assert (forall d, 0 <= d < 1024 -> pde m' pgdir d = pde m pgdir d) as Hpde.
  { intros d Hd. apply (pde_frame m m' pgdir v); [done..| |done|done]. intros ->. apply Hn. by left. }
  split; [done|]. destruct (PDX_spec va Hva) as [_ Hdx]. destruct (PTX_spec va) as [_ Htx].
  unfold pte, pte_addr, table. rewrite Hpde by done. destruct (truthy _) eqn:E; [|done].
  apply load_ext. intros x Hx. apply He. destruct (Htab (PDX va) Hdx E) as (Ht & _ & _). unfold table in Ht.
  apply (page_apart (P2V (PTE_ADDR (pde m pgdir (PDX va)))) v x); [done|done| |unfold PGSIZE; lia].
  intros Heq. apply Hn. right. exists (PDX va). split; [done|]. split; [done|exact Heq].
Qed.

Lemma write_bytes_spec bs : forall m a x,
  write_bytes m a bs x = if decide (a <= x < a + Z.of_nat (length bs)) then bs !!! Z.to_nat (x - a) else m x.
Proof.
  induction bs as [|b bs IH]; intros m a x; cbn [write_bytes length].
  - rewrite decide_False by lia. done.
  - rewrite IH. destruct (decide (x = a)) as [->|Hne].
    + rewrite decide_False by lia. rewrite decide_True by lia. rewrite Z.sub_diag. apply poke_same.
    + rewrite poke_ne by done. repeat case_decide; try lia.
      replace (Z.to_nat (x - a)) with (S (Z.to_nat (x - (a + 1)))) by lia. done.
Qed.

(** The memory [m'] is [m] with the bytes [bs] at the user address [va]. *)
Definition user_write (m m' : mem) (pgdir lo hi va : Z) (bs : list Z) : Prop :=
  (forall va', va_ok va' -> pte m' pgdir va' = pte m pgdir va') /\
  (forall va', lo <= va' < hi -> m' (uaddr m pgdir va') =
     if decide (va <= va' < va + Z.of_nat (length bs)) then bs !!! Z.to_nat (va' - va) else m (uaddr m pgdir va')) /\
  (forall v, page_ok v -> (forall va', lo <= va' < hi -> v <> upage m pgdir va') ->
     forall x, v <= x < v + PGSIZE -> m' x = m x).

Lemma user_write_nil m pgdir lo hi va : user_write m m pgdir lo hi va [].
Proof. split_and!; [done| |done]. intros va' _. rewrite decide_False by (cbn; lia). done. Qed.

Lemma uaddr_eq m m' pgdir va : pte m' pgdir va = pte m pgdir va -> upage m' pgdir va = upage m pgdir va /\ uaddr m' pgdir va = uaddr m pgdir va.
Proof. intros H. unfold uaddr, upage. by rewrite H. Qed.

Lemma user_write_app m m1 m2 pgdir lo hi va b1 b2 :
  0 <= lo -> hi <= KERNBASE ->
  user_write m m1 pgdir lo hi va b1 -> user_write m1 m2 pgdir lo hi (va + Z.of_nat (length b1)) b2 ->
  user_write m m2 pgdir lo hi va (b1 ++ b2).
Proof.
  intros Hlo Hhi (Hp1 & Hw1 & Hf1) (Hp2 & Hw2 & Hf2).
  assert (forall va', lo <= va' < hi -> va_ok va') as Hva by (unfold va_ok, KERNBASE in *; lia).
  split_and!.
  - intros va' H. by rewrite Hp2, Hp1.
  - intros va' H. destruct (uaddr_eq m m1 pgdir va') as [_ Hu]; [by apply Hp1, Hva|]. rewrite <- Hu, Hw2, Hu, Hw1 by done.
    rewrite length_app. repeat case_decide; try lia.
    + rewrite lookup_total_app_r by lia. f_equal. lia.
    + rewrite lookup_total_app_l by lia. done.
  - intros v Hv Hn x Hx. rewrite Hf2 with (v := v); [by apply Hf1 with (v := v)|done| |done].
    intros va' H. destruct (uaddr_eq m m1 pgdir va') as [Hu _]; [by apply Hp1, Hva|]. rewrite Hu. by apply Hn.
Qed.

Lemma pte_same_page m pgdir va va' : va_ok va -> va_ok va' -> same_page va va' -> pte m pgdir va = pte m pgdir va'.
Proof.
  intros H H' Hs. apply same_page_index in Hs as [H1 H2]; [|done|done]. unfold pte, pte_addr. by rewrite H1, H2.
Qed.

Lemma page_offset va : va = va / PGSIZE * PGSIZE + va mod PGSIZE /\ 0 <= va mod PGSIZE < PGSIZE.
Proof. pose proof (Z.div_mod va PGSIZE ltac:(done)). pose proof (Z.mod_pos_bound va PGSIZE ltac:(done)). lia. Qed.

Lemma same_page_shift va k : 0 <= k -> va mod PGSIZE + k < PGSIZE -> same_page va (va + k) /\ (va + k) mod PGSIZE = va mod PGSIZE + k.
Proof.
  intros Hk Hl. destruct (page_offset va) as [He Hr]. split.
  - apply (Z.div_unique (va + k) PGSIZE (va / PGSIZE) (va mod PGSIZE + k)); [left; lia|lia].
  - symmetry. apply (Z.mod_unique (va + k) PGSIZE (va / PGSIZE) (va mod PGSIZE + k)); [left; lia|lia].
Qed.

Lemma user_ok_ext m m' pgdir l lo hi :
  (forall d, 0 <= d < 1024 -> pde m' pgdir d = pde m pgdir d) ->
  (forall va, va_ok va -> pte m' pgdir va = pte m pgdir va) ->
  user_ok m pgdir l lo hi -> user_ok m' pgdir l lo hi.
Proof.
  intros Hd Hp (Hlo & Hhi & Hm & Hi).
  assert (forall va, lo <= va < hi -> va_ok va) as Hva by (unfold va_ok, KERNBASE in *; lia).
  assert (forall va, lo <= va < hi -> upage m' pgdir va = upage m pgdir va) as Hu
    by (intros va H; unfold upage; by rewrite Hp by auto).
  split_and!; [done|done| |].
  - intros va H. rewrite Hu, Hp, (pt_page_ext m m') by auto. by apply Hm.
  - intros va va' H H'. rewrite !Hu by done. by apply Hi.
Qed.

(** Bytes written within one page of user memory. *)
Lemma user_store s pgdir l lo hi va bs :
  vm_ok s pgdir l -> user_ok (kmemory s) pgdir l lo hi ->
  lo <= va -> va + Z.of_nat (length bs) <= hi -> va < hi -> va mod PGSIZE + Z.of_nat (length bs) <= PGSIZE ->
  let m := kmemory s in let m' := write_bytes m (uaddr m pgdir va) bs in
  vm_ok (mkkmem m' (freelist s)) pgdir l /\ user_ok m' pgdir l lo hi /\ user_write m m' pgdir lo hi va bs.
Proof.
  intros [Hk Hpt] Hu Hlo Hhi Hvh Hpg m m'. fold m in Hpt, Hu. pose proof Hu as (H0 & HK & Hm & Hi).
  destruct (Hm va ltac:(lia)) as (_ & _ & Hpv & Hnv & Hvl). destruct (page_offset va) as [_ Hr].
  assert (forall x, x < upage m pgdir va \/ upage m pgdir va + PGSIZE <= x -> m' x = m x) as Hout.
  { intros x Hx. unfold m'. rewrite write_bytes_spec. unfold uaddr. rewrite decide_False by lia. done. }
  assert (forall va', va_ok va' -> pte m' pgdir va' = pte m pgdir va') as Hpte
    by (intros va' H; by apply (pte_outside m m' pgdir l (upage m pgdir va) va')).
  assert (forall d, 0 <= d < 1024 -> pde m' pgdir d = pde m pgdir d) as Hpde
    by (apply (pte_outside m m' pgdir l (upage m pgdir va) 0); done).
  split; [split|split; [by apply (user_ok_ext m)|split; [done|split]]].
  - apply (kmem_ok_ext s); [done|]. intros v Hv x Hx. apply Hout.
    destruct Hk as (_ & _ & Hok). rewrite Forall_forall in Hok.
    apply (page_apart v (upage m pgdir va) x); [by apply Hok|done|by intros ->|done].
  - by apply (pt_ok_ext m).
  - intros va' Hva'. unfold m'. rewrite write_bytes_spec. destruct (page_offset va') as [He' Hr'].
    destruct (decide (va <= va' < va + Z.of_nat (length bs))) as [Hin|Hin].
    + destruct (same_page_shift va (va' - va)) as [Hs Hmod]; [lia|lia|].
      replace (va + (va' - va)) with va' in * by lia.
      assert (upage m pgdir va' = upage m pgdir va) as Hup.
      { unfold upage. f_equal. f_equal. symmetry. apply pte_same_page; [..|done]; unfold va_ok, KERNBASE in *; lia. }
      unfold uaddr. rewrite Hup, Hmod. rewrite decide_True by lia. f_equal. lia.
    + rewrite decide_False; [done|]. unfold uaddr. intros Hx. apply Hin.
      destruct (decide (upage m pgdir va' = upage m pgdir va)) as [Heq|Hne].
      * rewrite Heq in Hx. apply Hi in Heq; [|lia|lia]. unfold same_page in Heq. rewrite Heq in He'.
        destruct (page_offset va) as [He _]. lia.
      * destruct (Hm va' Hva') as (_ & _ & Hp' & _ & _).
        destruct (pages_apart end_ _ _ Hp' Hpv Hne); lia.
  - intros v Hv Hn x Hx. apply Hout. apply (page_apart v (upage m pgdir va) x); [done|done| |done]. apply Hn. lia.
Qed.

Lemma uva2ka_run s pgdir l lo hi va va0 :
  user_ok (kmemory s) pgdir l lo hi -> lo <= va < hi -> va_ok va0 -> same_page va0 va ->
  uva2ka pgdir va0 s = Ret (upage (kmemory s) pgdir va) s.
Proof.
  intros (Hlo & Hhi & Hm & _) Hva Hva0 Hs. destruct (Hm va Hva) as (Hp & Hu & _).
  assert (pte (kmemory s) pgdir va0 = pte (kmemory s) pgdir va) as He.
  { apply pte_same_page; [done| |done]. unfold va_ok, KERNBASE in *. lia. }
  rewrite <- He in Hp, Hu. unfold upage. rewrite <- He.
  assert (present (pde (kmemory s) pgdir (PDX va0))) as Hd.
  { unfold present in *. unfold pte in Hp. by destruct (truthy (Z.land (pde _ _ _) _)). }
  assert (load32 (kmemory s) (pte_addr (kmemory s) pgdir va0) = pte (kmemory s) pgdir va0) as Hl
    by (unfold pte, present in *; by rewrite Hd).
  unfold uva2ka, mbind, K_bind. rewrite walk_present by done. unfold load, gets. rewrite Hl.
  unfold present, truthy in Hp, Hu. apply negb_true_iff in Hp, Hu. by rewrite Hp, Hu.
Qed.

Lemma copyout_loop_spec fuel : forall s pgdir l lo hi va buf,
  vm_ok s pgdir l -> user_ok (kmemory s) pgdir l lo hi ->
  lo <= va -> va + Z.of_nat (length buf) <= hi -> (length buf < fuel)%nat ->
  wp (copyout_loop fuel pgdir va buf) s (fun r s' => r = 0 /\ freelist s' = freelist s /\
    vm_ok s' pgdir l /\ user_write (kmemory s) (kmemory s') pgdir lo hi va buf).
Proof.
  induction fuel as [|fuel IH]; intros s pgdir l lo hi va buf Hvm Hu Hlo Hhi Hf; [lia|]. cbn [copyout_loop].
  destruct (Nat.eqb_spec (length buf) 0) as [H0|H0].
  { apply wp_ret. destruct buf; [|done]. split_and!; [done..|]. apply user_write_nil. }
  pose proof Hu as (Hlo0 & HK & Hm & _). destruct (page_offset va) as [He Hr].
  assert (va_ok va) as Hva by (unfold va_ok, KERNBASE in *; lia).
  rewrite pgrounddown_spec by done. set (va0 := va - va mod PGSIZE).
  assert (same_page va0 va) as Hs.
  { unfold same_page, va0. rewrite He at 1. rewrite Z.add_simpl_r, Z.div_mul by done. done. }
  apply wp_bind. eapply wp_eq; [apply (uva2ka_run s pgdir l lo hi va va0); [done|lia| |done]|].
  { pose proof (Z.mod_le va PGSIZE ltac:(lia) ltac:(done)). unfold va_ok, va0 in *. lia. }
  destruct (Hm va ltac:(lia)) as (_ & _ & Hpg & _). pose proof (page_ok_range end_ Hend _ Hpg) as Hrg.
  rewrite (proj2 (Z.eqb_neq _ 0)) by lia.
  replace (va - va0) with (va mod PGSIZE) by lia. set (n := Z.to_nat _).
  assert (0 < n <= length buf)%nat as Hn by (unfold n; lia).
  assert (va mod PGSIZE + Z.of_nat n <= PGSIZE) as Hnp by (unfold n; lia).
  destruct (user_store s pgdir l lo hi va (take n buf)) as (Hvm1 & Hu1 & Hw1); [done|done|done|rewrite ?length_take; lia..|].
  unfold memmove_in. wp_steps. fold (uaddr (kmemory s) pgdir va). destruct (decide (n = length buf)) as [Heq|Hne].
  - rewrite Heq, take_ge, drop_ge in * by lia. destruct fuel as [|fuel]; [lia|]. cbn [copyout_loop length Nat.eqb].
    by apply wp_ret.
  - rewrite u32_small by (unfold va0, PGSIZE, va_ok, KERNBASE in *; lia).
    replace (va0 + PGSIZE) with (va + Z.of_nat (length (take n buf))) by (rewrite length_take; unfold n, va0 in *; lia).
    eapply wp_mono; [apply (IH _ pgdir l lo hi); [exact Hvm1|exact Hu1|rewrite ?length_drop, ?length_take; lia..]|].
    intros r s' (-> & Hfl & Hvm2 & Hw2). split_and!; [done|done|done|]. rewrite <- (take_drop n buf).
    eapply user_write_app; [done|done|exact Hw1|exact Hw2].
Qed.

(** C37: [copyout] to a range of user memory that is mapped returns 0; afterwards the
    user finds exactly the bytes copied at [va], across page boundaries, and every other
    byte of user memory, every page of anyone else, and every translation is as before. *)
Theorem copyout_copies s pgdir l lo hi va buf :
  vm_ok s pgdir l -> user_ok (kmemory s) pgdir l lo hi -> lo <= va -> va + Z.of_nat (length buf) <= hi ->
  wp (copyout pgdir va buf) s (fun r s' => r = 0 /\ freelist s' = freelist s /\
    vm_ok s' pgdir l /\ user_write (kmemory s) (kmemory s') pgdir lo hi va buf).
Proof. intros. apply copyout_loop_spec; [done..|lia]. Qed.

(** [uva2ka] of an address whose page directory entry is empty, any address of a
    process far enough above its memory, dereferences a null pointer. *)
Theorem uva2ka_null s pgdir uva :
  ~ present (pde (kmemory s) pgdir (PDX uva)) -> uva2ka pgdir uva s = Fault "null dereference" s.
Proof. intros H. unfold uva2ka, mbind, K_bind. by rewrite walk_absent. Qed.

End Spec.

(** ** Examples: memory that is zero but for one page table and one user page *)

Definition pg (n : Z) : Z := KERNBASE + n * PGSIZE.

Lemma pg_ok n : 0 <= n < 1000 -> page_ok KERNBASE (pg n).
Proof. intros H. unfold page_ok, pg, PHYSTOP, KERNBASE, PGSIZE. split; [|lia]. change 2147483648 with (524288 * 4096). by rewrite <- Z.mul_add_distr_r, Z.mod_mul. Qed.

(** The directory is page 1; page 2 is free. *)
Definition blank : kmem := mkkmem (fun _ => 0) (pg 2).

Lemma blank_ok : vm_ok KERNBASE blank (pg 1) [pg 2].
Proof.
  split; [split; [done|split; [apply NoDup_singleton|apply Forall_singleton; by apply pg_ok]]|].
  split; [by apply pg_ok|]. split; [by apply not_elem_of_cons; split; [|apply not_elem_of_nil]|].
  split; intros d; [intros _ Hp|intros d' _ _ Hp]; by vm_compute in Hp.
Qed.

Lemma mappages_maps_witness :
  wp (mappages (pg 1) 0 (PGSIZE * Z.of_nat 1) (V2P (pg 3)) 6) blank (fun r s' =>
    exists l' k, mapped KERNBASE blank s' (pg 1) [pg 2] l' 0 (V2P (pg 3)) 6 k /\
      (r = 0 /\ k = 1%nat \/ r = -1 /\ l' = [] /\ (k < 1)%nat)).
Proof.
  apply (mappages_maps KERNBASE ltac:(done) 1 blank (pg 1) [pg 2] 0); [exact blank_ok|lia|].
  split_and!; done.
Defined.

Lemma uva2ka_null_witness : uva2ka (pg 1) 0 blank = Fault "null dereference" blank.
Proof. apply uva2ka_null. intros Hp. by vm_compute in Hp. Defined.

(** The first page of user memory is page 3, through the page table in page 2. *)
Definition one_page : kmem :=
  mkkmem (poke32 (poke32 (fun _ => 0) (pg 1) (Z.lor (V2P (pg 2)) 7)) (pg 2) (Z.lor (V2P (pg 3)) 7)) 0.

Lemma one_page_pde d : 0 <= d < 1024 ->
  pde (kmemory one_page) (pg 1) d = if decide (d = 0) then Z.lor (V2P (pg 2)) 7 else 0.
Proof.
  intros Hd. unfold pde, one_page. cbn [kmemory]. rewrite load_poke_ne by (unfold pg, PGSIZE; lia).
  case_decide as H0; [subst; by rewrite Z.mul_0_r, Z.add_0_r, load_poke_same|].
  by rewrite load_poke_ne by lia.
Qed.

Lemma one_page_pte va : 0 <= va < PGSIZE -> pte (kmemory one_page) (pg 1) va = Z.lor (V2P (pg 3)) 7.
Proof.
  intros Hva. rewrite (pte_same_page _ _ va 0); [by vm_compute|unfold va_ok, PGSIZE in *; lia|done|].
  unfold same_page. by rewrite !Z.div_small.
Qed.

Lemma one_page_ok : vm_ok KERNBASE one_page (pg 1) [].
Proof.
  split; [split; [done|split; [apply NoDup_nil_2|apply Forall_nil_2]]|].
  assert (forall d, 0 <= d < 1024 -> present (pde (kmemory one_page) (pg 1) d) -> d = 0) as H0.
  { intros d Hd Hp. rewrite one_page_pde in Hp by done. by case_decide. }
  split; [by apply pg_ok|]. split; [apply not_elem_of_nil|]. split.
  - intros d Hd Hp. rewrite (H0 d Hd Hp). change (table (kmemory one_page) (pg 1) 0) with (pg 2).
    split; [by apply pg_ok|]. split; [apply not_elem_of_nil|done].
  - intros d d' Hd Hd' Hp Hp' _. by rewrite (H0 d Hd Hp), (H0 d' Hd' Hp').
Qed.

Lemma one_page_user : user_ok KERNBASE (kmemory one_page) (pg 1) [] 0 PGSIZE.
Proof.
  split; [done|]. split; [done|]. split.
  - intros va Hva. unfold upage. rewrite one_page_pte by done. change (P2V _) with (pg 3).
    split; [done|]. split; [done|]. split; [by apply pg_ok|]. split; [|apply not_elem_of_nil].
    intros [?|(d & Hd & Hp & Ht)]; [done|]. rewrite one_page_pde in Hp by done. case_decide; [subst|done].
    by vm_compute in Ht.
  - intros va va' Hva Hva' _. unfold same_page. by rewrite !Z.div_small.
Qed.

Lemma copyout_copies_witness :
  wp (copyout (pg 1) 4000 [104; 105]) one_page (fun r s' => r = 0 /\ freelist s' = freelist one_page /\
    vm_ok KERNBASE s' (pg 1) [] /\
    user_write KERNBASE (kmemory one_page) (kmemory s') (pg 1) 0 PGSIZE 4000 [104; 105]).
Proof.
  apply (copyout_copies KERNBASE ltac:(done)); [exact one_page_ok|exact one_page_user|done|done].
Defined.

End VmSpec.
