(* ===== verification/VmSpace.v ===== *)
(** * Address spaces: making, copying and freeing them

    What vm.c does to a whole address space, over the page tables of VmSpec.v.  The pages
    of an address space are those of its page table and those its user half maps.

    Shown: [deallocuvm] frees exactly the user pages of the range, [freevm] exactly the
    pages of the address space; [setupkvm] makes an address space with the mappings of
    [kmap] and nothing for the user; [copyuvm], which [fork] calls, gives the child a page of
    its own with the same contents and flags for each of its parent's, changes nothing of
    the parent, and gives back what it took if it runs out of memory, except for one page
    that it can lose. *)

From S2P Require Export VmSpec.
Local Open Scope Z_scope.

Module VmSpace.
Import CString Words Kalloc Vm VmSpec.

(** The page of [va]. *)
Definition pbase (va : Z) : Z := va / PGSIZE * PGSIZE.

Lemma pbase_bounds va : pbase va <= va < pbase va + PGSIZE.
Proof. unfold pbase. destruct (page_offset va). lia. Qed.

Lemma pbase_same va va' : same_page va va' <-> pbase va = pbase va'.
Proof. unfold same_page, pbase, PGSIZE. lia. Qed.

Lemma pbase_aligned a : a mod PGSIZE = 0 -> pbase a = a.
Proof. intros H. unfold pbase. destruct (page_offset a). lia. Qed.

(** Two aligned addresses are a page apart. *)
Lemma pbase_next a va : a mod PGSIZE = 0 -> a <= pbase va < a + PGSIZE <-> same_page a va.
Proof.
  intros H. rewrite pbase_same, (pbase_aligned a H). apply Z.mod_divide in H as [k ->]; [|done].
  unfold pbase, PGSIZE. lia.
Qed.

Lemma pbase_ge a va : a mod PGSIZE = 0 -> a <= pbase va <-> a <= va.
Proof. intros H. apply Z.mod_divide in H as [k ->]; [|done]. pose proof (pbase_bounds va). unfold pbase, PGSIZE in *. lia. Qed.

(** The address the loop of [deallocuvm] goes on with when there is no page table. *)
Lemma next_table a : 0 <= a < KERNBASE ->
  PGADDR (PDX a + 1) 0 0 -u PGSIZE +u PGSIZE = (a / 2 ^ 22 + 1) * 2 ^ 22.
Proof.
  intros Ha. destruct (PDX_spec a) as [-> _]; [unfold KERNBASE in Ha; lia|].
  assert (0 <= a / 2 ^ 22 < 512).
  { split; [apply Z.div_pos; lia|apply Z.div_lt_upper_bound; [lia|]]. unfold KERNBASE in Ha. lia. }
  unfold PGADDR. rewrite Z.shiftl_0_l, !Z.lor_0_r, Z.shiftl_mul_pow2 by lia. unfold PGSIZE.
  generalize dependent (a / 2 ^ 22). intros q Hq. change (2 ^ 22) with 4194304.
  rewrite (u32_small (_ * _)) by lia. rewrite (u32_small (_ - _)) by lia. rewrite u32_small; lia.
Qed.

Lemma pages_of a b : a mod PGSIZE = 0 -> b mod PGSIZE = 0 -> a < b -> exists n, (0 < n)%nat /\ b - a = PGSIZE * Z.of_nat n.
Proof.
  intros Ha Hb Hlt. apply Z.mod_divide in Ha as [x ->]; [|done]. apply Z.mod_divide in Hb as [y ->]; [|done].
  exists (Z.to_nat (y - x)). unfold PGSIZE in *. lia.
Qed.

Lemma aligned_lt a b : a mod PGSIZE = 0 -> b mod PGSIZE = 0 -> a < b -> a + PGSIZE <= b.
Proof. intros Ha Hb H. destruct (pages_of a b Ha Hb H) as (n & Hn & He). unfold PGSIZE in *. lia. Qed.

Lemma pbase_mod va : pbase va mod PGSIZE = 0.
Proof. unfold pbase. by apply Z.mod_mul. Qed.

Lemma kernel_va va : KERNBASE <= va -> ~ pbase va < KERNBASE.
Proof. intros H. apply (pbase_ge KERNBASE) in H; [lia|done]. Qed.

Lemma lor_P e : present e -> Z.lor e PTE_P = e.
Proof.
  intros H. apply Z.bits_inj'. intros n Hn. rewrite Z.lor_spec. unfold PTE_P. destruct (decide (n = 0)) as [->|Hne].
  - change (Z.testbit 1 0) with true. rewrite orb_true_r. symmetry. unfold present, truthy, PTE_P in H.
    apply negb_true_iff, Z.eqb_neq in H. change 1 with (Z.ones 1) in H. rewrite Z.land_ones in H by lia. change (2 ^ 1) with 2 in H.
    rewrite Z.bit0_odd, Zodd_mod. apply Z.eqb_eq. pose proof (Z.mod_pos_bound e 2). lia.
  - change 1 with (2 ^ 0). rewrite Z.pow2_bits_false by lia. apply orb_false_r.
Qed.

Lemma flags_range e : 0 <= PTE_FLAGS e < PGSIZE.
Proof. unfold PTE_FLAGS. change 4095 with (Z.ones 12). rewrite Z.land_ones by lia. apply Z.mod_pos_bound. done. Qed.

Lemma flags_present e : present e -> present (PTE_FLAGS e).
Proof. unfold present, PTE_FLAGS. by rewrite <- Z.land_assoc. Qed.

Section Space.
Context (end_ : Z) (Hend : KERNBASE < end_).

Local Abbreviation page_ok := (page_ok end_).
Local Abbreviation kmem_ok := (kmem_ok end_).
Local Abbreviation pt_ok := (pt_ok end_).
Local Abbreviation vm_ok := (vm_ok end_).
Local Abbreviation frame := (frame end_).

Lemma Hend' : KERNBASE <= end_.
Proof. lia. Qed.

(** ** The user pages of an address space *)

(** The pages mapped from [lo] to [hi] are neither free nor part of the page table, and
    none is mapped twice. *)
Definition space_ok (m : mem) (pgdir : Z) (l : list Z) (lo hi : Z) : Prop :=
  (forall va, va_ok va -> lo <= pbase va < hi -> present (pte m pgdir va) ->
     page_ok (upage m pgdir va) /\ ~ pt_page m pgdir (upage m pgdir va) /\ (upage m pgdir va ∉ l)) /\
  (forall va va', va_ok va -> va_ok va' -> lo <= pbase va < hi -> lo <= pbase va' < hi ->
     present (pte m pgdir va) -> present (pte m pgdir va') ->
     upage m pgdir va = upage m pgdir va' -> same_page va va').

(** [v] is a page mapped from [lo] to [hi]. *)
Definition user_page (m : mem) (pgdir lo hi v : Z) : Prop :=
  exists va, va_ok va /\ lo <= pbase va < hi /\ present (pte m pgdir va) /\ v = upage m pgdir va.

(** From [s] to [s'] the pages mapped from [lo] to [hi], which are [freed], have become
    free; nothing else has changed. *)
Definition unmapped (s s' : kmem) (pgdir : Z) (l freed : list Z) (lo hi : Z) : Prop :=
  vm_ok s' pgdir (freed ++ l) /\ (forall v, v ∈ freed <-> user_page (kmemory s) pgdir lo hi v) /\
  (forall d, 0 <= d < 1024 -> pde (kmemory s') pgdir d = pde (kmemory s) pgdir d) /\
  frame (kmemory s) (kmemory s') pgdir (freed ++ l) /\
  forall va, va_ok va ->
    (lo <= pbase va < hi -> ~ present (pte (kmemory s') pgdir va)) /\
    (~ lo <= pbase va < hi -> pte (kmemory s') pgdir va = pte (kmemory s) pgdir va).

Lemma unmapped_skip s pgdir l lo hi :
  vm_ok s pgdir l -> (forall va, va_ok va -> lo <= pbase va < hi -> ~ present (pte (kmemory s) pgdir va)) ->
  unmapped s s pgdir l [] lo hi.
Proof.
  intros Hvm Hn. split; [done|]. split; [|split; [done|split; [apply frame_refl|]]].
  - intros v. split; [by intros ?%elem_of_nil|]. intros (va & Hva & Hr & Hp & _). by destruct (Hn va Hva Hr).
  - intros va Hva. split; [by apply Hn|done].
Qed.

Lemma unmapped_app s s1 s2 pgdir l f1 f2 lo mid hi :
  lo <= mid ->
  unmapped s s1 pgdir l f1 lo (Z.min mid hi) -> unmapped s1 s2 pgdir (f1 ++ l) f2 mid hi ->
  unmapped s s2 pgdir l (f2 ++ f1) lo hi.
Proof.
  intros Hlm (Hv1 & Hf1 & Hd1 & Hr1 & Hp1) (Hv2 & Hf2 & Hd2 & Hr2 & Hp2).
  assert (forall va, va_ok va -> mid <= pbase va < hi -> pte (kmemory s1) pgdir va = pte (kmemory s) pgdir va) as Hsame.
  { intros va Hva Hr. apply Hp1; [done|lia]. }
  split; [by rewrite <- app_assoc|]. split; [|split; [|split]].
  - intros v. rewrite elem_of_app, Hf1, Hf2. split.
    + intros [(va & Hva & Hr & Hp & ->)|(va & Hva & Hr & Hp & ->)]; exists va; unfold upage in *.
      * rewrite Hsame in * by done. split_and!; [done|lia|lia|done|done].
      * split_and!; [done|lia|lia|done|done].
    + intros (va & Hva & Hr & Hp & ->). destruct (decide (pbase va < mid)).
      * right. exists va. split_and!; [done|lia|lia|done|done].
      * left. exists va. unfold upage. rewrite Hsame by (done || lia). split_and!; [done|lia|lia|done|done].
  - intros d Hd. by rewrite Hd2, Hd1.
  - rewrite <- app_assoc. eapply frame_trans; [|exact Hr2|done]. intros v Hv Hl Hn. apply Hr1; [done| |done]. set_solver.
  - intros va Hva. destruct (Hp1 va Hva) as [Ha1 Hb1]. destruct (Hp2 va Hva) as [Ha2 Hb2]. split; intros Hr.
    + destruct (decide (mid <= pbase va)); [apply Ha2; lia|]. rewrite Hb2 by lia. apply Ha1. lia.
    + rewrite Hb2, Hb1 by lia. done.
Qed.

(** The pages of the rest are still mapped once, and not among those freed. *)
Lemma space_ok_rest s s1 pgdir l f lo mid hi :
  lo <= mid -> space_ok (kmemory s) pgdir l lo hi ->
  unmapped s s1 pgdir l f lo (Z.min mid hi) -> space_ok (kmemory s1) pgdir (f ++ l) mid hi.
Proof.
  intros Hlm [Hs Hi] (Hv1 & Hf1 & Hd1 & Hr1 & Hp1).
  assert (forall va, va_ok va -> mid <= pbase va < hi -> pte (kmemory s1) pgdir va = pte (kmemory s) pgdir va) as Hsame.
  { intros va Hva Hr. apply Hp1; [done|lia]. }
  split.
  - intros va Hva Hr. unfold upage. rewrite Hsame by done. intros Hp. fold (upage (kmemory s) pgdir va).
    destruct (Hs va Hva ltac:(lia) Hp) as (H1 & H2 & H3). split; [done|]. rewrite (pt_page_ext (kmemory s)) by done.
    split; [done|]. rewrite elem_of_app, Hf1. intros [(va' & Hva' & Hr' & Hp' & Heq)|?]; [|done].
    apply (Hi va va') in Heq; [|done|done|lia|lia|done|done]. apply pbase_same in Heq. lia.
  - intros va va' Hva Hva' Hr Hr'. unfold upage. rewrite !Hsame by done. intros Hp Hp'. apply Hi; done || lia.
Qed.

Lemma pt_ok_cons m pgdir l v : pt_ok m pgdir l -> ~ pt_page m pgdir v -> pt_ok m pgdir (v :: l).
Proof.
  intros (H1 & H2 & H3 & H4) Hn. split_and!; [done| | |done].
  - intros [<-|?]%elem_of_cons; [|done]. apply Hn. by left.
  - intros d Hd Hp. destruct (H3 d Hd Hp) as (? & ? & ?). split_and!; [done| |done].
    intros [<-|?]%elem_of_cons; [|done]. apply Hn. right. by exists d.
Qed.

Lemma upage_nonzero e : page_ok (P2V (PTE_ADDR e)) -> PTE_ADDR e <> 0.
Proof. intros [_ H] H0. rewrite H0 in H. change (P2V 0) with KERNBASE in H. lia. Qed.

(** Freeing the page that [a] is mapped to, and clearing the entry. *)
Lemma unmap_one s pgdir l a :
  vm_ok s pgdir l -> va_ok a -> a mod PGSIZE = 0 -> present (pde (kmemory s) pgdir (PDX a)) ->
  present (pte (kmemory s) pgdir a) -> space_ok (kmemory s) pgdir l a (a + PGSIZE) ->
  let v := upage (kmemory s) pgdir a in
  wp (kfree_ end_ v;; store (pte_addr (kmemory s) pgdir a) 0) s (fun _ s' => unmapped s s' pgdir l [v] a (a + PGSIZE)).
Proof.
  intros [Hk Hpt] Ha Hal Hd Hp [Hs _] v.
  destruct (Hs a Ha ltac:(rewrite (pbase_aligned a Hal); unfold PGSIZE; lia) Hp) as (Hv & Hnv & Hvl). fold v in Hv, Hnv, Hvl. set (m := kmemory s) in *.
  destruct (kfree_spec end_ Hend' v s l Hk Hv Hvl) as (s1 & Hrun & Hk1 & Hout). fold m in Hout.
  apply wp_bind. unfold wp at 1, kfree_. rewrite Hrun.
  assert (forall d, 0 <= d < 1024 -> pde (kmemory s1) pgdir d = pde m pgdir d) as Hpde.
  { apply (pte_outside end_ m (kmemory s1) pgdir l v 0); done. }
  assert (forall va, va_ok va -> pte (kmemory s1) pgdir va = pte m pgdir va) as Hpte.
  { intros va Hva. by apply (pte_outside end_ m (kmemory s1) pgdir l v va). }
  assert (vm_ok s1 pgdir (v :: l)) as Hvm1.
  { split; [done|]. apply pt_ok_cons; [by apply (pt_ok_ext end_ m)|by rewrite (pt_page_ext m)]. }
  destruct (PDX_spec a Ha) as [_ Hdx]. destruct (store_pte end_ s1 pgdir (v :: l) a 0 Hvm1 Ha) as (Hvm2 & Hfr & Hpde2 & Hpte2).
  { by rewrite Hpde. }
  apply wp_modify. replace (pte_addr m pgdir a) with (pte_addr (kmemory s1) pgdir a) by (unfold pte_addr, table; by rewrite Hpde).
  split; [exact Hvm2|]. split; [|split; [|split]].
  - intros w. rewrite list_elem_of_singleton. split.
    + intros ->. exists a. rewrite (pbase_aligned a Hal). split_and!; [done|unfold PGSIZE; lia..|done|done].
    + intros (va & Hva & Hr & Hp' & ->). apply pbase_next in Hr; [|done]. unfold v, upage. by rewrite (pte_same_page _ _ a va).
  - intros d Hd'. cbn [kmemory]. by rewrite Hpde2, Hpde.
  - eapply (frame_trans end_ m (kmemory s1)); [|exact Hfr|done]. intros w Hw Hl Hn. split; [by rewrite (pt_page_ext m)|].
    intros x Hx. apply Hout. apply (page_apart end_ w v x); [done|done|set_solver|done].
  - intros va Hva. cbn [kmemory]. rewrite Hpte2, Hpte by done. rewrite (pbase_next a va Hal).
    destruct (decide (same_page a va)); [|done]. split; [|done]. by intros _ ?.
Qed.

Lemma space_ok_sub m pgdir l lo hi lo' hi' :
  lo <= lo' -> hi' <= hi -> space_ok m pgdir l lo hi -> space_ok m pgdir l lo' hi'.
Proof. intros H1 H2 [Hs Hi]. split; [intros va Hva Hr; apply Hs; [done|lia]|]. intros va va' ? ? ? ?. apply Hi; done || lia. Qed.

(** ** [deallocuvm] *)

Lemma pte_load m pgdir va : present (pde m pgdir (PDX va)) -> load32 m (pte_addr m pgdir va) = pte m pgdir va.
Proof. unfold pte, present. by intros ->. Qed.

Lemma pte_present_pde m pgdir va : present (pte m pgdir va) -> present (pde m pgdir (PDX va)).
Proof. unfold present, pte. by destruct (truthy (Z.land (pde _ _ _) _)). Qed.

(** Only the pages with their beginning in the range count. *)
Lemma range_iff s s' pgdir l f lo hi lo' hi' :
  (forall va, lo <= pbase va < hi <-> lo' <= pbase va < hi') ->
  (space_ok (kmemory s) pgdir l lo hi -> space_ok (kmemory s) pgdir l lo' hi') /\
  (unmapped s s' pgdir l f lo hi -> unmapped s s' pgdir l f lo' hi').
Proof.
  intros He. split.
  - intros [Hs Hi]. split; [intros va ? ?%He; by apply Hs|]. intros va va' ? ? ?%He ?%He. by apply Hi.
  - intros (H1 & H2 & H3 & H4 & H5). split; [done|]. split; [|split; [done|split; [done|]]].
    + intros v. rewrite H2. unfold user_page. split; intros (va & ? & ?%He & ?); by exists va.
    + intros va Hva. rewrite <- He. by apply H5.
Qed.

Lemma one_page_range a hi va :
  a mod PGSIZE = 0 -> a < hi -> a <= pbase va < a + PGSIZE <-> a <= pbase va < Z.min (a + PGSIZE) hi.
Proof. intros Hal Hlt. apply Z.mod_divide in Hal as [k ->]; [|done]. unfold pbase, PGSIZE in *. lia. Qed.

(** There is no page table for the rest of the 4 MB of [a]. *)
Lemma no_table s pgdir a va :
  ~ present (pde (kmemory s) pgdir (PDX a)) -> va_ok a -> va_ok va ->
  a <= pbase va < (a / 2 ^ 22 + 1) * 2 ^ 22 -> ~ present (pte (kmemory s) pgdir va).
Proof.
  intros Hd Ha Hva Hr Hp. apply pte_present_pde in Hp. apply Hd. replace (PDX a) with (PDX va); [done|].
  destruct (PDX_spec a Ha) as [-> _]. destruct (PDX_spec va Hva) as [-> _]. pose proof (pbase_bounds va).
  assert (pbase va < (a / 2 ^ 22 + 1) * 2 ^ 22 -> va < (a / 2 ^ 22 + 1) * 2 ^ 22) as Hlt.
  { unfold pbase, PGSIZE in *. generalize (a / 2 ^ 22). intros q. change (2 ^ 22) with (1024 * 4096). lia. }
  symmetry. apply (Z.div_unique va (2 ^ 22) _ (va - a / 2 ^ 22 * 2 ^ 22)); [|lia]. left.
  pose proof (Z.mul_div_le a (2 ^ 22) ltac:(done)). lia.
Qed.

Lemma deallocuvm_loop_spec fuel : forall s pgdir l a oldsz,
  vm_ok s pgdir l -> space_ok (kmemory s) pgdir l a oldsz -> a mod PGSIZE = 0 -> 0 <= a -> oldsz <= KERNBASE ->
  oldsz - a < PGSIZE * Z.of_nat fuel ->
  wp (deallocuvm_loop end_ fuel pgdir a oldsz) s (fun _ s' => exists freed, unmapped s s' pgdir l freed a oldsz).
Proof.
  induction fuel as [|fuel IH]; intros s pgdir l a oldsz Hvm Hsp Hal Ha HK Hf; cbn [deallocuvm_loop].
  { apply wp_ret. exists []. apply unmapped_skip; [done|]. intros va _ Hr. unfold PGSIZE in *. lia. }
  destruct (Z.ltb_spec a oldsz) as [Hlt|Hge].
  2: { apply wp_ret. exists []. apply unmapped_skip; [done|]. lia. }
  assert (va_ok a) as Hva by (unfold va_ok, KERNBASE in *; lia).
  assert (forall s1 f mid, a + PGSIZE <= mid -> mid mod PGSIZE = 0 -> unmapped s s1 pgdir l f a (Z.min mid oldsz) ->
    wp (deallocuvm_loop end_ fuel pgdir mid oldsz) s1 (fun _ s' => exists freed, unmapped s s' pgdir l freed a oldsz)) as Hrest.
  { intros s1 f mid Hmid Hma Hun. assert (a <= mid) as Ham by (unfold PGSIZE in *; lia).
    eapply wp_mono; [apply (IH s1 pgdir (f ++ l)); [by destruct Hun|by eapply space_ok_rest|done|lia|done|unfold PGSIZE in *; lia]|].
    intros _ s2 (f2 & Hun2). exists (f2 ++ f). by eapply unmapped_app. }
  destruct (decide (truthy (Z.land (pde (kmemory s) pgdir (PDX a)) PTE_P) = true)) as [Hd|Hd].
  - apply wp_bind. eapply wp_eq; [by apply walk_present|]. unfold load. apply wp_bind, wp_gets. rewrite pte_load by done.
    rewrite (u32_small (a + PGSIZE)) by (unfold PGSIZE, KERNBASE in *; lia).
    assert ((a + PGSIZE) mod PGSIZE = 0) as Hal' by (by rewrite Z.add_mod, Hal).
    pose proof (fun va => one_page_range a oldsz va Hal Hlt) as Hrg.
    destruct (truthy (Z.land (pte (kmemory s) pgdir a) PTE_P)) eqn:Hp.
    + assert (space_ok (kmemory s) pgdir l a (a + PGSIZE)) as Hsp1.
      { apply (range_iff s s pgdir l [] a (Z.min (a + PGSIZE) oldsz)); [intros va; symmetry; apply Hrg|].
        eapply space_ok_sub; [| |exact Hsp]; lia. }
      destruct Hsp1 as [Hs1 Hi1]. pose proof (Hs1 a Hva ltac:(rewrite (pbase_aligned a Hal); unfold PGSIZE; lia) Hp) as (Hpg & _).
      rewrite (proj2 (Z.eqb_neq _ _)) by (by apply upage_nonzero). apply wp_bind.
      eapply wp_mono; [by apply (unmap_one s pgdir l a)|]. intros [] s1 Hun. eapply Hrest; [lia|done|].
      by apply (range_iff s s1 pgdir l _ a (a + PGSIZE)).
    + apply wp_bind, wp_ret. apply (Hrest s []); [lia|done|]. apply unmapped_skip; [done|].
      intros va Hva' Hr. apply Hrg, pbase_next in Hr; [|done]. rewrite <- (pte_same_page _ _ a va) by done.
      unfold present. by rewrite Hp.
  - apply wp_bind. eapply wp_eq; [by apply walk_absent|]. rewrite next_table by lia. apply (Hrest s []).
    + pose proof (Z.mul_succ_div_gt a (2 ^ 22) ltac:(done)) as Hq. clear - Hq Hal. set (q := a / 2 ^ 22) in *.
      apply Z.mod_divide in Hal as [k ->]; [|done]. clearbody q. change (2 ^ 22) with 4194304 in *. unfold PGSIZE in *. lia.
    + change (2 ^ 22) with (1024 * PGSIZE). rewrite Z.mul_assoc. by apply Z.mod_mul.
    + apply unmapped_skip; [done|]. intros va Hva' Hr. apply (no_table s pgdir a va); [done..|lia].
Qed.

Lemma deallocuvm_spec s pgdir l newsz oldsz :
  vm_ok s pgdir l -> space_ok (kmemory s) pgdir l (PGROUNDUP newsz) oldsz -> 0 <= newsz -> oldsz <= KERNBASE -> newsz < oldsz ->
  wp (deallocuvm end_ pgdir oldsz newsz) s (fun r s' => r = newsz /\ exists freed, unmapped s s' pgdir l freed (PGROUNDUP newsz) oldsz).
Proof.
  intros Hvm Hsp Hn HK Hlt. unfold deallocuvm. rewrite (proj2 (Z.leb_gt _ _)) by done.
  destruct (pgroundup_spec newsz) as [Hal Hr]; [done|unfold KERNBASE, PGSIZE in *; lia|]. apply wp_bind.
  eapply wp_mono; [apply (deallocuvm_loop_spec _ s pgdir l); [done|done|done|lia|done|]|].
  - pose proof (Z.mul_succ_div_gt (oldsz - PGROUNDUP newsz) PGSIZE ltac:(done)).
    assert (-1 <= (oldsz - PGROUNDUP newsz) / PGSIZE) by (apply Z.div_le_lower_bound; [done|lia]). unfold PGSIZE in *. lia.
  - intros [] s' Hun. by apply wp_ret.
Qed.

(** ** [freevm] *)

(** The page tables from entry [i] of the directory on. *)
Definition table_page (m : mem) (pgdir i v : Z) : Prop :=
  exists d, i <= d < 1024 /\ present (pde m pgdir d) /\ table m pgdir d = v.

Definition tables_ok (m : mem) (pgdir : Z) (l : list Z) (i : Z) : Prop :=
  page_ok pgdir /\ (pgdir ∉ l) /\
  (forall v, table_page m pgdir i v -> page_ok v /\ (v ∉ l) /\ v <> pgdir) /\
  (forall d d', i <= d < 1024 -> i <= d' < 1024 -> present (pde m pgdir d) -> present (pde m pgdir d') ->
     table m pgdir d = table m pgdir d' -> d = d').

Lemma kfree_wp v s l :
  kmem_ok s l -> page_ok v -> (v ∉ l) ->
  wp (kfree_ end_ v) s (fun _ s' => kmem_ok s' (v :: l) /\
    forall w, page_ok w -> w <> v -> forall x, w <= x < w + PGSIZE -> kmemory s' x = kmemory s x).
Proof.
  intros Hk Hv Hl. destruct (kfree_spec end_ Hend' v s l Hk Hv Hl) as (s1 & Hrun & Hk1 & Hout).
  unfold wp, kfree_. rewrite Hrun. split; [done|]. intros w Hw Hne x Hx. by apply Hout, (page_apart end_ w v x).
Qed.

Lemma pde_page m m' pgdir d :
  (forall x, pgdir <= x < pgdir + PGSIZE -> m' x = m x) -> 0 <= d < 1024 -> pde m' pgdir d = pde m pgdir d.
Proof. intros He Hd. apply load_ext. intros x Hx. apply He. unfold PGSIZE. lia. Qed.

Lemma freevm_loop_spec n : forall s pgdir l i,
  kmem_ok s l -> tables_ok (kmemory s) pgdir l i -> 0 <= i -> i + Z.of_nat n = 1024 ->
  wp (freevm_loop end_ n i pgdir) s (fun _ s' => exists freed, kmem_ok s' (freed ++ l) /\
    (forall v, v ∈ freed <-> table_page (kmemory s) pgdir i v) /\
    forall w, page_ok w -> (w ∉ freed) -> forall x, w <= x < w + PGSIZE -> kmemory s' x = kmemory s x).
Proof.
  induction n as [|n IH]; intros s pgdir l i Hk (Hpd & Hpl & Ht & Hi) H0 Hn; cbn [freevm_loop].
  { apply wp_ret. exists []. split; [done|]. split; [|done]. intros v. split; [by intros ?%elem_of_nil|]. intros (d & Hd & _). lia. }
  unfold load. apply wp_bind, wp_gets. fold (pde (kmemory s) pgdir i). apply wp_bind.
  destruct (truthy (Z.land (pde (kmemory s) pgdir i) PTE_P)) eqn:Hp.
  - fold (table (kmemory s) pgdir i). set (t := table (kmemory s) pgdir i).
    destruct (Ht t) as (Htp & Htl & Htd); [exists i; split_and!; [lia|lia|done|done]|].
    eapply wp_mono; [by apply (kfree_wp t s l)|]. intros [] s1 [Hk1 Hout].
    assert (forall d, 0 <= d < 1024 -> pde (kmemory s1) pgdir d = pde (kmemory s) pgdir d) as Hpde.
    { intros d Hd. apply pde_page; [|done]. by apply Hout. }
    assert (forall v, table_page (kmemory s1) pgdir (i + 1) v <-> table_page (kmemory s) pgdir i v /\ v <> t) as Htab.
    { intros v. unfold table_page, table. split.
      - intros (d & Hd & Hp' & <-). rewrite Hpde in * by lia. split; [exists d; split_and!; [lia|lia|done|done]|].
        intros Heq. apply (Hi d i) in Heq; [|lia|lia|done|done]. lia.
      - intros [(d & Hd & Hp' & <-) Hne]. destruct (decide (d = i)) as [->|]; [done|]. exists d. rewrite Hpde by lia.
        split_and!; [lia|lia|done|done]. }
    eapply wp_mono; [apply (IH s1 pgdir (t :: l)); [done| |lia|lia]|].
    + split_and!; [done|by apply not_elem_of_cons| |].
      * intros v [Hv Hne]%Htab. destruct (Ht v Hv) as (? & ? & ?). split_and!; [done|by apply not_elem_of_cons|done].
      * intros d d' Hd Hd'. unfold table. rewrite !Hpde by lia. apply Hi; lia.
    + intros [] s2 (f & Hk2 & Hf & Hout2). exists (f ++ [t]). rewrite <- app_assoc. split; [done|]. split.
      * intros v. rewrite elem_of_app, list_elem_of_singleton, Hf, Htab. split; [|destruct (decide (v = t)); tauto].
        intros [[? _]| ->]; [done|]. exists i. split_and!; [lia|lia|done|done].
      * intros w Hw Hnw x Hx. apply not_elem_of_app in Hnw as [Hnf Hnt%not_elem_of_cons].
        rewrite (Hout2 w), (Hout w); tauto.
  - apply wp_ret. assert (forall v, table_page (kmemory s) pgdir (i + 1) v <-> table_page (kmemory s) pgdir i v) as Htab.
    { intros v. split; intros (d & Hd & Hp' & Hv); exists d; [split_and!; [lia|lia|done|done]|].
      destruct (decide (d = i)) as [->|]; [unfold present in Hp'; congruence|split_and!; [lia|lia|done|done]]. }
    eapply wp_mono; [apply (IH s pgdir l); [done| |lia|lia]|].
    + split_and!; [done|done| |]; [intros v Hv%Htab; by apply Ht|]. intros d d' Hd Hd'. apply Hi; lia.
    + intros [] s2 (f & Hk2 & Hf & Hout2). exists f. split; [done|]. split; [|done]. intros v. by rewrite Hf, Htab.
Qed.

(** Only the pages [ps] differ. *)
Definition untouched (m m' : mem) (ps : list Z) : Prop :=
  forall w, page_ok w -> (w ∉ ps) -> forall x, w <= x < w + PGSIZE -> m' x = m x.

Lemma untouched_trans m m1 m2 p1 p2 ps :
  untouched m m1 p1 -> untouched m1 m2 p2 -> p1 ⊆ ps -> p2 ⊆ ps -> untouched m m2 ps.
Proof. intros H1 H2 S1 S2 w Hw Hn x Hx. rewrite (H2 w), (H1 w); auto. Qed.

(** The pages of an address space. *)
Definition space_page (m : mem) (pgdir v : Z) : Prop := pt_page m pgdir v \/ user_page m pgdir 0 KERNBASE v.

Lemma freevm_spec s pgdir l :
  vm_ok s pgdir l -> space_ok (kmemory s) pgdir l 0 KERNBASE ->
  wp (freevm end_ pgdir) s (fun _ s' => exists freed, kmem_ok s' (freed ++ l) /\
    (forall v, v ∈ freed <-> space_page (kmemory s) pgdir v) /\
    untouched (kmemory s) (kmemory s') (freed ++ l)).
Proof.
  intros Hvm Hsp. pose proof Hvm as [_ (Hpd & Hpl & _)]. pose proof (page_ok_range end_ Hend' _ Hpd) as Hr0.
  unfold freevm. rewrite (proj2 (Z.eqb_neq pgdir 0)) by lia. apply wp_bind.
  eapply wp_mono; [apply (deallocuvm_spec s pgdir l 0 KERNBASE); done|]. change (PGROUNDUP 0) with 0.
  intros r s1 (-> & f1 & Hvm1 & Hf1 & Hpde & Hfr & _). pose proof Hvm1 as [Hk1 (_ & Hpl1 & Htab1 & Hinj1)].
  assert (forall v, table_page (kmemory s1) pgdir 0 v \/ v = pgdir <-> pt_page (kmemory s) pgdir v) as Hpt.
  { intros v. rewrite <- (pt_page_ext (kmemory s) (kmemory s1)) by done. unfold pt_page, table_page. tauto. }
  apply wp_bind. eapply wp_mono; [apply (freevm_loop_spec NPDENTRIES s1 pgdir (f1 ++ l) 0); [done| |done|done]|].
  { split_and!; [done|done| |done]. intros v (d & Hd & Hp & <-). by apply Htab1. }
  intros [] s2 (f2 & Hk2 & Hf2 & Hout2).
  assert (pgdir ∉ f2 ++ f1 ++ l) as Hnp.
  { rewrite elem_of_app, Hf2. intros [(d & Hd & Hp & He)|?]; [|done]. by apply (Htab1 d Hd Hp). }
  eapply wp_mono; [apply (kfree_wp pgdir s2 (f2 ++ f1 ++ l)); done|]. intros [] s3 [Hk3 Hout3].
  exists ((pgdir :: f2) ++ f1). split; [by rewrite <- app_assoc|]. split.
  - intros v. rewrite elem_of_app, elem_of_cons, Hf2, Hf1. unfold space_page. rewrite <- Hpt. tauto.
  - intros w Hw Hn x Hx. rewrite (Hout3 w), (Hout2 w); [|done|set_solver|done|done|set_solver|done].
    apply (Hfr w); [done|set_solver| |done]. rewrite <- Hpt. intros [H| ->]; [apply Hf2 in H; set_solver|set_solver].
Qed.

(** The pages of the address space are [used]; the free pages are [l]. *)
Definition owns (s : kmem) (pgdir : Z) (used l : list Z) : Prop :=
  vm_ok s pgdir l /\ space_ok (kmemory s) pgdir l 0 KERNBASE /\ NoDup used /\
  forall v, v ∈ used <-> space_page (kmemory s) pgdir v.

(** How many pages those of an address space can be: the directory, a table for each of its
    entries, and the user's pages. *)
Lemma pages_count m d ps lo hi :
  NoDup ps -> 0 <= lo -> lo mod PGSIZE = 0 -> (forall v, v ∈ ps -> pt_page m d v \/ user_page m d lo hi v) ->
  (length ps <= 1025 + Z.to_nat ((hi - lo) / PGSIZE + 1))%nat.
Proof.
  intros Hnd Hlo Hal Hps. set (n := (hi - lo) / PGSIZE + 1).
  assert (ps ⊆+ (d :: (table m d <$> seqZ 0 1024)) ++ ((fun k => upage m d (lo + k * PGSIZE)) <$> seqZ 0 n)) as Hsub.
  { apply NoDup_submseteq; [done|]. intros v Hv. rewrite elem_of_app, elem_of_cons, !list_elem_of_fmap.
    destruct (Hps v Hv) as [[->|(i & Hi & _ & <-)]|(va & Hva & Hr & _ & ->)]; [by left; left|left; right|right].
    - exists i. split; [done|]. apply elem_of_seqZ. lia.
    - apply Z.mod_divide in Hal as [q ->]; [|done]. exists (va / PGSIZE - q).
      assert (pbase va = (va / PGSIZE) * PGSIZE) as Hb by done. split.
      + unfold upage. f_equal. f_equal. replace (q * PGSIZE + (va / PGSIZE - q) * PGSIZE) with (pbase va) by lia.
        pose proof (pbase_bounds va). apply pte_same_page; [done|unfold va_ok in *; lia|]. apply pbase_same. symmetry. apply pbase_aligned, pbase_mod.
      + apply elem_of_seqZ. unfold n. split; [unfold PGSIZE in *; lia|]. enough (va / PGSIZE - q <= (hi - q * PGSIZE) / PGSIZE) by lia.
        apply Z.div_le_lower_bound; [done|]. unfold PGSIZE in *. lia. }
  apply submseteq_length in Hsub. rewrite length_app, length_cons, !length_fmap, !length_seqZ in Hsub. lia.
Qed.

(** [freevm] gives back all the pages of the address space. *)
Lemma freevm_owns s pgdir used l :
  owns s pgdir used l ->
  wp (freevm end_ pgdir) s (fun _ s' => exists l', kmem_ok s' l' /\ l' ≡ₚ used ++ l /\
    untouched (kmemory s) (kmemory s') (used ++ l)).
Proof.
  intros (Hvm & Hsp & Hnd & Hu). eapply wp_mono; [by apply (freevm_spec s pgdir l)|]. intros [] s' (f & Hk & Hf & Hout).
  assert (f ≡ₚ used) as Hp.
  { destruct Hk as (_ & [Hndf _]%NoDup_app & _). apply NoDup_Permutation; [done|done|]. intros v. by rewrite Hf, Hu. }
  exists (f ++ l). split; [done|]. split; [by rewrite Hp|]. intros w Hw Hn. apply Hout; [done|]. by rewrite Hp.
Qed.

#[local] Instance pt_page_dec m pgdir v : Decision (pt_page m pgdir v).
Proof.
  destruct (decide (v = pgdir \/ Exists (fun d => truthy (Z.land (pde m pgdir d) PTE_P) = true /\ table m pgdir d = v) (seqZ 0 1024))) as [H|H].
  - left. destruct H as [->|H]; [by left|right]. apply Exists_exists in H as (d & Hd%elem_of_seqZ & Hp & Ht). exists d. split; [lia|done].
  - right. intros [->|(d & Hd & Hp & Ht)]; apply H; [by left|right]. apply Exists_exists. exists d. rewrite elem_of_seqZ. split; [lia|done].
Defined.

Lemma pt_page_ok m pgdir l v : pt_ok m pgdir l -> pt_page m pgdir v -> page_ok v /\ (v ∉ l).
Proof. intros (H1 & H2 & H3 & _) [->|(d & Hd & Hp & <-)]; [done|]. destruct (H3 d Hd Hp) as (? & ? & _). done. Qed.

(** The pages that [mappages] takes are page tables, and no other page becomes one. *)
Lemma mapped_pages s s' pgdir l l' a pa perm k :
  vm_ok s pgdir l -> mapped end_ s s' pgdir l l' a pa perm k ->
  exists u, l = u ++ l' /\ (forall v, pt_page (kmemory s') pgdir v <-> pt_page (kmemory s) pgdir v \/ v ∈ u).
Proof.
  intros [_ Hpt] ([_ Hpt'] & (u & -> & Hg) & Hfr & _). exists u. split; [done|]. intros v. split; [|apply Hg].
  intros Hv. destruct (pt_page_ok _ _ _ _ Hpt' Hv) as [Hok Hl].
  destruct (decide (pt_page (kmemory s) pgdir v)) as [?|Hn]; [by left|right]. destruct (decide (v ∈ u)) as [?|Hu]; [done|].
  destruct (Hfr v Hok) as [H _]; [|done|done]. rewrite elem_of_app. tauto.
Qed.

(** Mapping pages of the kernel's half takes page tables only. *)
Lemma owns_kernel s s' pgdir used l l' a pa perm k :
  owns s pgdir used l -> mapped end_ s s' pgdir l l' a pa perm k ->
  (forall va, va_ok va -> pbase va < KERNBASE -> pte (kmemory s') pgdir va = pte (kmemory s) pgdir va) ->
  exists u, l = u ++ l' /\ owns s' pgdir (used ++ u) l' /\ untouched (kmemory s) (kmemory s') (used ++ l).
Proof.
  intros (Hvm & [Hs Hi] & Hnd & Hu) Hm Hsame. destruct (mapped_pages s s' pgdir l l' a pa perm k Hvm Hm) as (u & -> & Hpt).
  destruct Hm as (Hvm' & _ & Hfr & _). destruct Hvm as [(_ & Hndl & _) Hpt0]. apply NoDup_app in Hndl as (Hndu & Hdis & _).
  assert (forall v, user_page (kmemory s') pgdir 0 KERNBASE v <-> user_page (kmemory s) pgdir 0 KERNBASE v) as Hup.
  { intros v. split; intros (va & Hva & Hr & Hp & ->); exists va; unfold upage in *; rewrite Hsame in * by (done || lia); done. }
  exists u. split; [done|]. split; [split; [done|split; [split|split]]|].
  - intros va Hva Hr. unfold upage. rewrite Hsame by (done || lia). intros Hp. destruct (Hs va Hva Hr Hp) as (H1 & H2 & H3).
    rewrite elem_of_app in H3. split; [done|]. rewrite Hpt. unfold upage in *. tauto.
  - intros va va' Hva Hva' Hr Hr'. unfold upage. rewrite !Hsame by (done || lia). by apply Hi.
  - apply NoDup_app. split; [done|]. split; [|done]. intros v Hv%Hu Hvu. destruct Hv as [Hv|(va & Hva & Hr & Hp & ->)].
    + destruct (pt_page_ok _ _ _ _ Hpt0 Hv) as [_ H]. apply H, elem_of_app. by left.
    + destruct (Hs va Hva Hr Hp) as (_ & _ & H). apply H, elem_of_app. by left.
  - intros v. rewrite elem_of_app, Hu. unfold space_page. rewrite Hpt, Hup. tauto.
  - intros w Hw Hn x Hx. rewrite !elem_of_app, Hu in Hn. apply (Hfr w); [done|rewrite elem_of_app; tauto|unfold space_page in Hn; tauto|done].
Qed.

(** ** Taking pages *)

(** The entry of the page [v] with the flags of [e]. *)
Lemma entry_copy v e : page_ok v -> present e ->
  let c := entry (V2P v) (PTE_FLAGS e) in present c /\ P2V (PTE_ADDR c) = v /\ PTE_FLAGS c = PTE_FLAGS e.
Proof.
  intros Hv He. destruct (page_P2V end_ ltac:(lia) v Hv) as (Hp & Hr & Ha & _). pose proof (flags_range e) as Hf. cbv zeta.
  assert (entry (V2P v) (PTE_FLAGS e) = Z.lor (V2P v) (PTE_FLAGS e)) as ->.
  { unfold entry. rewrite <- Z.lor_assoc. by rewrite lor_P by (by apply flags_present). }
  split; [|split].
  - rewrite <- (lor_P (PTE_FLAGS e)) by (by apply flags_present). rewrite Z.lor_assoc. apply entry_present.
  - by rewrite entry_addr by (unfold PHYSTOP in *; lia || done).
  - rewrite lor_flags by done. unfold PTE_FLAGS at 1. change 4095 with (Z.ones 12). rewrite Z.land_ones by lia.
    change (2 ^ 12) with PGSIZE. rewrite <- Zplus_mod_idemp_l, Ha. by apply Z.mod_small.
Qed.

(** Nothing of the parent's page table has changed. *)
Lemma parent_same m0 m pgdir l :
  pt_ok m0 pgdir l -> untouched m0 m l ->
  (forall d, 0 <= d < 1024 -> pde m pgdir d = pde m0 pgdir d) /\ (forall va, va_ok va -> pte m pgdir va = pte m0 pgdir va).
Proof.
  intros Hpt Hout. assert (forall d, 0 <= d < 1024 -> pde m pgdir d = pde m0 pgdir d) as Hpde.
  { intros d Hd. apply pde_page; [|done]. apply Hout; apply Hpt. }
  split; [done|]. intros va Hva. destruct (PDX_spec va Hva) as [_ Hdx]. destruct (PTX_spec va) as [_ Htx].
  unfold pte, pte_addr, table. rewrite Hpde by done. destruct (truthy _) eqn:E; [|done]. apply load_ext. intros x Hx.
  destruct Hpt as (_ & _ & Ht & _). destruct (Ht (PDX va) Hdx E) as (H1 & H2 & _). unfold table in *.
  apply (Hout _ H1 H2). unfold PGSIZE. lia.
Qed.

(** After taking the free page [t] and filling it. *)
Lemma owns_take s d used t l m1 :
  owns s d used (t :: l) -> untouched (kmemory s) m1 [t] ->
  let s1 := mkkmem m1 (load32 (kmemory s) t) in
  owns s1 d used l /\ page_ok t /\ (t ∉ used) /\ (t ∉ l) /\ (forall va, va_ok va -> pte m1 d va = pte (kmemory s) d va).
Proof.
  intros (Hvm & [Hs Hi] & Hnd & Hu) Hout s1. pose proof Hvm as [(Hc & Hndl & Hok) Hpt]. destruct Hc as [_ Hc].
  apply NoDup_cons in Hndl as [Htl Hndl]. apply Forall_cons in Hok as [Ht Hok].
  assert (untouched (kmemory s) m1 (t :: l)) as Hout' by (intros w Hw Hn; apply Hout; [done|set_solver]).
  destruct (parent_same (kmemory s) m1 d (t :: l) Hpt Hout') as [Hpde Hpte].
  assert (t ∉ used) as Htu.
  { rewrite Hu. intros [Hv|(va & Hva & Hr & Hp & Heq)].
    - destruct (pt_page_ok _ _ _ _ Hpt Hv) as [_ H]. apply H, elem_of_cons. by left.
    - destruct (Hs va Hva Hr Hp) as (_ & _ & H). apply H. rewrite <- Heq. apply elem_of_cons. by left. }
  split; [|done]. split; [split|split; [split|split; [done|]]].
  - split_and!; [|done|done]. cbn [kmemory freelist]. eapply chain_ext; [|exact Hc]. intros v Hv. apply load_ext. intros x Hx.
    rewrite Forall_forall in Hok. apply (Hout v); [by apply Hok|by intros ->%list_elem_of_singleton|unfold PGSIZE; lia].
  - cbn [kmemory s1]. apply (pt_ok_ext end_ (kmemory s)); [done|]. destruct Hpt as (H1 & H2 & H3 & H4). split_and!; [done|set_solver| |done].
    intros i Hi' Hp. destruct (H3 i Hi' Hp) as (? & ? & ?). split_and!; [done|set_solver|done].
  - intros va Hva Hr. cbn [kmemory s1]. unfold upage. rewrite Hpte by done. intros Hp. destruct (Hs va Hva Hr Hp) as (H1 & H2 & H3).
    split; [done|]. rewrite (pt_page_ext (kmemory s)) by done. split; [done|]. rewrite elem_of_cons in H3. unfold upage in *. tauto.
  - intros va va' Hva Hva' Hr Hr'. cbn [kmemory s1]. unfold upage. rewrite !Hpte by done. by apply Hi.
  - intros v. rewrite Hu. cbn [kmemory s1]. unfold space_page, user_page, upage. rewrite (pt_page_ext (kmemory s) m1) by done.
    split; (intros [?|(va & Hva & Hr & Hp & ->)]; [by left|right]); exists va; rewrite Hpte in * by done; done.
Qed.

(** Mapping the page [t] for the user at [i]. *)
Lemma owns_user s s' d used l l' i t perm :
  owns s d used l -> mapped end_ s s' d l l' i (V2P t) perm 1 -> 0 <= i < KERNBASE -> i mod PGSIZE = 0 ->
  page_ok t -> (t ∉ used) -> (t ∉ l) -> present (entry (V2P t) perm) -> P2V (PTE_ADDR (entry (V2P t) perm)) = t ->
  ~ present (pte (kmemory s) d i) ->
  exists u, l = u ++ l' /\ owns s' d (used ++ t :: u) l' /\ untouched (kmemory s) (kmemory s') (used ++ l) /\
    forall va, va_ok va -> pte (kmemory s') d va = if decide (same_page i va) then entry (V2P t) perm else pte (kmemory s) d va.
Proof.
  intros (Hvm & [Hs Hi] & Hnd & Hu) Hm Hir Hal Ht Htu Htl Hpe Hpt' Hnp.
  destruct (mapped_pages s s' d l l' i (V2P t) perm 1 Hvm Hm) as (u & -> & Hpt).
  destruct Hm as (Hvm' & _ & Hfr & Hpte0). destruct Hvm as [(_ & Hndl & _) Hpt0]. apply NoDup_app in Hndl as (Hndu & Hdis & _).
  assert (forall va, va_ok va -> pte (kmemory s') d va = if decide (same_page i va) then entry (V2P t) perm else pte (kmemory s) d va) as Hpte.
  { intros va Hva. rewrite Hpte0 by done. pose proof (pbase_next i va Hal) as Hiff.
    assert (i <= va < i + PGSIZE * Z.of_nat 1 <-> i <= pbase va < i + PGSIZE) as Hiff2.
    { pose proof (pbase_ge i va Hal). pose proof (pbase_ge (i + PGSIZE) va ltac:(by rewrite Z.add_mod, Hal)). lia. }
    destruct (decide (same_page i va)) as [Hsp|Hsp]; [rewrite decide_True by tauto|by rewrite decide_False by tauto].
    f_equal. apply pbase_same in Hsp. rewrite (pbase_aligned i Hal) in Hsp. unfold pbase in Hsp. lia. }
  assert (~ space_page (kmemory s) d t) as Hnt by (by rewrite <- Hu).
  assert (forall va, va_ok va -> pbase va < KERNBASE -> present (pte (kmemory s') d va) ->
    same_page i va /\ upage (kmemory s') d va = t \/
    ~ same_page i va /\ present (pte (kmemory s) d va) /\ upage (kmemory s') d va = upage (kmemory s) d va) as Hcase.
  { intros va Hva Hr. unfold upage. rewrite Hpte by done. destruct (decide (same_page i va)); [by left|by right]. }
  assert (forall va, va_ok va -> 0 <= pbase va < KERNBASE -> present (pte (kmemory s) d va) -> upage (kmemory s) d va <> t) as Hne.
  { intros va Hva Hr Hp <-. apply Hnt. right. by exists va. }
  exists u. split; [done|]. split; [split; [done|split; [split|split]]|split; [|done]].
  - intros va Hva Hr Hp. rewrite Hpt. destruct (Hcase va Hva ltac:(lia) Hp) as [[_ ->]|(_ & Hp0 & ->)].
    + split; [done|]. rewrite elem_of_app in Htl. split; [|tauto]. intros [H|H]; [|tauto]. apply Hnt. by left.
    + destruct (Hs va Hva Hr Hp0) as (H1 & H2 & H3). rewrite elem_of_app in H3. tauto.
  - intros va va' Hva Hva' Hr Hr' Hp Hp' Heq.
    destruct (Hcase va Hva ltac:(lia) Hp) as [[H1 E]|(_ & Hp0 & E)], (Hcase va' Hva' ltac:(lia) Hp') as [[H1' E']|(_ & Hp0' & E')]; rewrite E, E' in Heq.
    + unfold same_page in *. congruence.
    + by destruct (Hne va' Hva' Hr' Hp0').
    + by destruct (Hne va Hva Hr Hp0).
    + by apply Hi.
  - apply NoDup_app. split; [done|]. split.
    + intros v Hv%Hu [->|Hvu]%elem_of_cons; [done|]. assert (v ∉ u ++ l') as H; [|apply H, elem_of_app; by left].
      destruct Hv as [Hv|(va & Hva & Hr & Hp & ->)]; [by apply (pt_page_ok _ _ _ _ Hpt0 Hv)|by apply (Hs va Hva Hr Hp)].
    + apply NoDup_cons. split; [|done]. intros H. apply Htl, elem_of_app. by left.
  - intros v. rewrite elem_of_app, elem_of_cons, Hu. unfold space_page. rewrite Hpt.
    assert (user_page (kmemory s') d 0 KERNBASE v <-> user_page (kmemory s) d 0 KERNBASE v \/ v = t) as ->; [|tauto]. split.
    + intros (va & Hva & Hr & Hp & ->). destruct (Hcase va Hva ltac:(lia) Hp) as [[_ ->]|(_ & Hp0 & ->)]; [by right|left; by exists va].
    + intros [(va & Hva & Hr & Hp & ->)| ->].
      * exists va. unfold upage. rewrite Hpte by done. rewrite decide_False; [done|]. intros Hsp. apply Hnp.
        by rewrite (pte_same_page _ _ i va) by (done || (unfold va_ok, KERNBASE in *; lia)).
      * exists i. unfold upage. rewrite (pbase_aligned i Hal), Hpte by (unfold va_ok, KERNBASE in *; lia).
        rewrite decide_True by done. split_and!; [unfold va_ok, KERNBASE in *; lia|lia|lia|done|done].
  - intros w Hw Hn x Hx. rewrite !elem_of_app, Hu in Hn. apply (Hfr w); [done|rewrite elem_of_app; tauto|unfold space_page in Hn; tauto|done].
Qed.

(** A page that is neither free nor of the page table is not touched by [mappages]. *)
Lemma owns_outside s d used l t : owns s d used l -> (t ∉ used) -> ~ pt_page (kmemory s) d t.
Proof. intros (_ & _ & _ & Hu) Ht Hp. apply Ht, Hu. by left. Qed.

(** Filling the free page [t] with the parent's page. *)
Lemma fill_page m t src : page_ok t -> untouched m (memmove m t src 4096) [t] /\
  forall x, 0 <= x < PGSIZE -> memmove m t src 4096 (t + x) = m (src + x).
Proof.
  intros Ht. split.
  - intros w Hw Hn x Hx. apply not_elem_of_cons in Hn as [Hne _]. pose proof (page_apart end_ w t x Hw Ht Hne Hx).
    apply memmove_correct. unfold PGSIZE in *. lia.
  - intros x Hx. rewrite <- (Z2Nat.id x) by lia. apply memmove_correct. apply Nat2Z.inj_lt. unfold PGSIZE in Hx. lia.
Qed.

Lemma kalloc_cons s t l : kmem_ok s (t :: l) -> kalloc_ s = Ret t (mkkmem (kmemory s) (load32 (kmemory s) t)) /\ t <> 0.
Proof.
  intros Hk. destruct (kalloc_spec end_ ltac:(lia) s t l Hk) as (s0 & Hrun & _ & _ & Ht & _). apply page_ok_range in Ht; [|lia].
  unfold kalloc_. unfold kalloc in *. destruct (freelist s =? 0); injection Hrun as <- <-; [lia|]. split; [done|lia].
Qed.

(** [freevm] frees exactly the pages of the address space: those of the page table, the
    directory included, and those mapped for the user, each once.  No page that is neither
    of the address space nor free changes. *)
Theorem freevm_frees s pgdir l :
  vm_ok s pgdir l -> space_ok (kmemory s) pgdir l 0 KERNBASE ->
  wp (freevm end_ pgdir) s (fun _ s' => exists freed, kmem_ok s' (freed ++ l) /\
    (forall v, v ∈ freed <-> space_page (kmemory s) pgdir v) /\
    untouched (kmemory s) (kmemory s') (freed ++ l)).
Proof. apply freevm_spec. Qed.

End Space.
(** ** An example: one user page, page 303, at address 0, through the table in page 302 of the
    directory in page 301; page 304 is free.  The kernel ends at page 258. *)

Definition small : kmem :=
  mkkmem (poke32 (poke32 (fun _ => 0) (pg 301) (Z.lor (V2P (pg 302)) 7)) (pg 302) (Z.lor (V2P (pg 303)) 7)) (pg 304).

Lemma small_page n : 258 <= n < 1000 -> page_ok (pg 258) (pg n).
Proof. intros H. destruct (pg_ok n) as [Ha Hr]; [lia|]. split; [done|]. unfold pg, PGSIZE in *. lia. Qed.

Lemma small_pde d : 0 <= d < 1024 -> pde (kmemory small) (pg 301) d = if decide (d = 0) then Z.lor (V2P (pg 302)) 7 else 0.
Proof.
  intros Hd. unfold pde, small. cbn [kmemory]. rewrite load_poke_ne by (unfold pg, PGSIZE; lia).
  case_decide as H0; [subst; by rewrite Z.mul_0_r, Z.add_0_r, load_poke_same|]. by rewrite load_poke_ne by lia.
Qed.

Lemma small_pte va : va_ok va -> pte (kmemory small) (pg 301) va = if decide (va < PGSIZE) then Z.lor (V2P (pg 303)) 7 else 0.
Proof.
  intros Hva. case_decide as Hlt.
  - rewrite (pte_same_page _ _ va 0); [by vm_compute|done|done|]. unfold same_page. rewrite !Z.div_small; unfold va_ok, PGSIZE in *; lia.
  - destruct (PDX_spec va Hva) as [Hd Hdx]. destruct (PTX_spec va) as [Ht Htx]. unfold pte, pte_addr, table. rewrite small_pde by done.
    destruct (decide (PDX va = 0)) as [H0|H0]; [|done].
    assert (PTX va <> 0) as Hne.
    { rewrite Ht, Z.mod_small; [|rewrite Hd in H0; apply Z.div_small_iff in H0; [|done]; unfold va_ok in Hva;
        split; [apply Z.div_pos; lia|apply Z.div_lt_upper_bound; lia]].
      intros H. apply Z.div_small_iff in H; [|done]. unfold va_ok, PGSIZE in *. lia. }
    change (truthy _) with true. cbv iota. change (P2V _) with (pg 302). unfold small. cbn [kmemory].
    rewrite !load_poke_ne by (unfold pg, PGSIZE; lia). done.
Qed.

Lemma small_ok : vm_ok (pg 258) small (pg 301) [pg 304].
Proof.
  split; [split; [done|split; [apply NoDup_singleton|apply Forall_singleton; by apply small_page]]|].
  assert (forall d, 0 <= d < 1024 -> present (pde (kmemory small) (pg 301) d) -> d = 0) as H0.
  { intros d Hd Hp. rewrite small_pde in Hp by done. by case_decide. }
  split; [by apply small_page|]. split; [by intros ?%list_elem_of_singleton|]. split.
  - intros d Hd Hp. rewrite (H0 d Hd Hp). change (table (kmemory small) (pg 301) 0) with (pg 302).
    split; [by apply small_page|]. split; [by intros ?%list_elem_of_singleton|done].
  - intros d d' Hd Hd' Hp Hp' _. by rewrite (H0 d Hd Hp), (H0 d' Hd' Hp').
Qed.

Lemma small_present va : va_ok va -> present (pte (kmemory small) (pg 301) va) -> va < PGSIZE /\ upage (kmemory small) (pg 301) va = pg 303.
Proof. intros Hva. unfold upage. rewrite small_pte by done. by case_decide. Qed.

Lemma small_space : space_ok (pg 258) (kmemory small) (pg 301) [pg 304] 0 KERNBASE.
Proof.
  split.
  - intros va Hva _ Hp. destruct (small_present va Hva Hp) as [_ ->]. split; [by apply small_page|].
    split; [|by intros ?%list_elem_of_singleton]. intros [?|(d & Hd & Hp' & Ht)]; [done|]. rewrite small_pde in Hp' by done.
    case_decide; [subst|done]. by vm_compute in Ht.
  - intros va va' Hva Hva' _ _ Hp Hp' _. destruct (small_present va Hva Hp) as [H _]. destruct (small_present va' Hva' Hp') as [H' _].
    unfold same_page. rewrite !Z.div_small; unfold va_ok in *; lia.
Qed.

Lemma freevm_frees_witness :
  wp (freevm (pg 258) (pg 301)) small (fun _ s' => exists freed, kmem_ok (pg 258) s' (freed ++ [pg 304]) /\
    (forall v, v ∈ freed <-> space_page (kmemory small) (pg 301) v) /\
    untouched (pg 258) (kmemory small) (kmemory s') (freed ++ [pg 304])).
Proof. apply (freevm_frees (pg 258) ltac:(reflexivity) small (pg 301) [pg 304]); [exact small_ok|exact small_space]. Defined.

End VmSpace.
