(* ===== verification/VmCopy.v ===== *)
(** * Address spaces: [setupkvm] and [copyuvm]

    What [fork] does with memory: a new address space with the kernel's mappings, and a
    copy of each page of the parent in it.

    Shown: [setupkvm] makes exactly the mappings of [kmap]; [copyuvm] copies; the pages
    taken are given back when memory runs out, except for one that [copyuvm] can lose; and
    a parent with a page that was never touched makes [copyuvm] panic. *)

From S2P Require Export VmSpace.
Local Open Scope Z_scope.

Module VmCopy.
Import CString Words Kalloc Vm VmSpec VmSpace.

(** ** The kernel's mappings *)

Definition ksize (k : kmapping) : Z := phys_end k -u phys_start k.
Definition in_map (k : kmapping) (va : Z) : Prop := virt k <= va < virt k + ksize k.

#[local] Instance in_map_dec k va : Decision (in_map k va).
Proof. unfold in_map. apply _. Defined.

(** What a table of mappings says of [va]. *)
Fixpoint kpte (ks : list kmapping) (va : Z) : option Z :=
  match ks with
  | [] => None
  | k :: ks => if decide (in_map k va) then Some (entry (phys_start k + (pbase va - virt k)) (kperm k)) else kpte ks va
  end.

Definition kmap_ok (k : kmapping) : Prop :=
  exists n, (0 < n)%nat /\ ksize k = PGSIZE * Z.of_nat n /\ virt k mod PGSIZE = 0 /\ KERNBASE <= virt k /\
    virt k + ksize k <= 2 ^ 32 /\ 0 <= phys_start k /\ phys_start k + ksize k <= 2 ^ 32 /\ 0 <= kperm k < PGSIZE.

(** The mappings do not overlap. *)
Fixpoint disjoint_maps (ks : list kmapping) : Prop :=
  match ks with
  | [] => True
  | k :: ks => (forall k' va, k' ∈ ks -> in_map k va -> ~ in_map k' va) /\ disjoint_maps ks
  end.

Section Copy.
Context (end_ data_ : Z) (Hend : KERNBASE < end_).

Local Abbreviation page_ok := (page_ok end_).
Local Abbreviation kmem_ok := (kmem_ok end_).
Local Abbreviation pt_ok := (pt_ok end_).
Local Abbreviation vm_ok := (vm_ok end_).
Local Abbreviation owns := (owns end_).
Local Abbreviation untouched := (untouched end_).

(** Nothing is mapped for the user. *)
Definition no_user (m : mem) (pgdir : Z) : Prop :=
  forall va, va_ok va -> pbase va < KERNBASE -> ~ present (pte m pgdir va).

(** The pages taken have been given back; there were not enough for a directory and all
    possible tables. *)
Definition given_back (s s' : kmem) (l : list Z) : Prop :=
  (length l <= 1026)%nat /\ exists l', kmem_ok s' l' /\ l' ≡ₚ l /\ untouched (kmemory s) (kmemory s') l.

Lemma no_user_count s d used l : owns s d used l -> no_user (kmemory s) d -> (length used <= 1026)%nat.
Proof.
  intros (_ & _ & Hnd & Hu) Hn. change 1026%nat with (1025 + Z.to_nat ((0 - 0) / PGSIZE + 1))%nat.
  apply (pages_count (kmemory s) d used 0 0); [done|done|done|]. intros v [?|(va & Hva & Hr & Hp & _)]%Hu; [by left|].
  by destruct (Hn va Hva ltac:(lia)).
Qed.

Lemma setupkvm_loop_spec ks : forall s d used l,
  owns s d used l -> no_user (kmemory s) d -> Forall kmap_ok ks -> disjoint_maps ks ->
  (forall k va, k ∈ ks -> in_map k va -> ~ present (pte (kmemory s) d va)) ->
  wp (setupkvm_loop end_ ks d) s (fun r s' =>
    r = d /\ (exists u l', l = u ++ l' /\ owns s' d (used ++ u) l' /\ no_user (kmemory s') d /\
      untouched (kmemory s) (kmemory s') (used ++ l) /\
      forall va, va_ok va -> pte (kmemory s') d va = default (pte (kmemory s) d va) (kpte ks va)) \/
    r = 0 /\ given_back s s' (used ++ l)).
Proof.
  induction ks as [|k ks IH]; intros s d used l Ho Hnu Hok Hdis Habs; cbn [setupkvm_loop].
  { apply wp_ret. left. split; [done|]. exists [], l. rewrite app_nil_r. by split_and!. }
  apply Forall_cons in Hok as [(n & Hn & Hsz & Hal & Hv & Hv32 & Hp & Hp32 & Hperm) Hok].
  cbn [disjoint_maps] in Hdis. destruct Hdis as [Hdk Hdis]. fold (ksize k). apply wp_bind. rewrite Hsz.
  eapply wp_mono; [apply (mappages_spec end_ ltac:(lia) n s d l); [apply Ho|done|]|].
  { unfold KERNBASE in *. split; [done|]. split; [lia|]. split; [lia|]. split; [lia|]. split; [lia|]. split; [done|]. intros va Hva. apply (Habs k); [by apply elem_of_cons; left|]. unfold in_map. lia. }
  intros r s1 (l1 & j & Hm & Hr).
  assert (forall va, va_ok va -> pbase va < KERNBASE -> pte (kmemory s1) d va = pte (kmemory s) d va) as Hsame.
  { intros va Hva Hb. destruct Hm as (_ & _ & _ & Hpte). rewrite Hpte by done. rewrite decide_False; [done|].
    intros [Hge _]. apply (kernel_va va); [lia|done]. }
  destruct (owns_kernel end_ s s1 d used l l1 _ _ _ _ Ho Hm Hsame) as (u & -> & Ho1 & Hout).
  assert (no_user (kmemory s1) d) as Hnu1 by (intros va Hva Hb; rewrite Hsame by done; by apply Hnu).
  destruct Hr as [[-> ->]|(-> & -> & Hj)]; cbn [Z.ltb Z.compare].
  - destruct Hm as (_ & _ & _ & Hpte). rewrite <- Hsz in Hpte.
    eapply wp_mono; [apply (IH s1 d (used ++ u) l1); [done|done|done|done|]|].
    + intros k' va Hk' Hin. destruct (decide (va_ok va)) as [Hva|Hva].
      * rewrite Hpte by done. rewrite decide_False; [by apply (Habs k'); [apply elem_of_cons; right|]|]. intros H. by apply (Hdk k' va).
      * rewrite Forall_forall in Hok. destruct (Hok k' Hk') as (n' & _ & _ & _ & ? & ? & _). unfold in_map, va_ok, KERNBASE in *. lia.
    + intros r s2 [[-> (u2 & l2 & -> & Ho2 & Hnu2 & Hout2 & Hpte2)]|[-> (Hshort & l2 & Hk2 & Hp2 & Hout2)]]; [left|right].
      * split; [done|]. exists (u ++ u2), l2. rewrite !app_assoc in *. split_and!; [done|done|done| |].
        -- eapply untouched_trans; [exact Hout|exact Hout2|done|done].
        -- intros va Hva. rewrite Hpte2, Hpte by done. cbn [kpte]. unfold in_map.
           destruct (decide (virt k <= va < virt k + ksize k)) as [Hin|Hin]; [|by destruct (kpte ks va)].
           cbn [default]. replace (kpte ks va) with (@None Z); [done|]. symmetry. clear - Hdk Hin.
           induction ks as [|k' ks IH]; [done|]. cbn [kpte]. rewrite decide_False.
           ++ apply IH. intros k2 va2 Hk2. apply Hdk. apply elem_of_cons. by right.
           ++ apply (Hdk k' va); [by apply elem_of_cons; left|exact Hin].
      * split; [done|]. rewrite <- app_assoc in *. split; [done|]. exists l2. split_and!; [done|done|].
        eapply untouched_trans; [exact Hout|exact Hout2|done|done].
  - apply wp_bind. eapply wp_mono; [by apply (freevm_owns end_ Hend s1 d (used ++ u) [])|].
    intros [] s2 (l2 & Hk2 & Hp2 & Hout2). apply wp_ret. right. pose proof (no_user_count s1 d (used ++ u) [] Ho1 Hnu1) as Hshort.
    rewrite <- !app_assoc, ?app_nil_r in *. split; [done|]. split; [done|]. exists l2. split_and!; [done|done|].
    eapply untouched_trans; [exact Hout|exact Hout2|done|done].
Qed.

(** ** [setupkvm] *)

Context (Hdata : data_ mod PGSIZE = 0 /\ KERNLINK < data_ < KERNBASE + PHYSTOP).

Lemma data_phys : V2P data_ = data_ - KERNBASE /\ (data_ - KERNBASE) mod PGSIZE = 0.
Proof.
  destruct Hdata as [Ha Hr]. unfold V2P, KERNLINK, KERNBASE, PHYSTOP, EXTMEM in *. rewrite u32_small by lia.
  by rewrite Zminus_mod, Ha.
Qed.

Lemma kmap_table :
  kmap data_ =
  [mkkmap KERNBASE 0 EXTMEM PTE_W; mkkmap KERNLINK EXTMEM (data_ - KERNBASE) 0;
   mkkmap data_ (data_ - KERNBASE) PHYSTOP PTE_W; mkkmap DEVSPACE DEVSPACE 0 PTE_W].
Proof. unfold kmap. by rewrite (proj1 data_phys). Qed.

Lemma kmap_sizes :
  ksize (mkkmap KERNBASE 0 EXTMEM PTE_W) = EXTMEM /\
  ksize (mkkmap KERNLINK EXTMEM (data_ - KERNBASE) 0) = data_ - KERNLINK /\
  ksize (mkkmap data_ (data_ - KERNBASE) PHYSTOP PTE_W) = KERNBASE + PHYSTOP - data_ /\
  ksize (mkkmap DEVSPACE DEVSPACE 0 PTE_W) = 33554432.
Proof.
  destruct Hdata as [_ Hr]. unfold ksize, KERNLINK, KERNBASE, PHYSTOP, EXTMEM in *. cbn [phys_end phys_start].
  split; [reflexivity|]. split; [rewrite u32_small; lia|]. split; [rewrite u32_small; lia|reflexivity].
Qed.

Lemma kmap_fine : Forall kmap_ok (kmap data_) /\ disjoint_maps (kmap data_).
Proof.
  destruct kmap_sizes as (S1 & S2 & S3 & S4). rewrite kmap_table.
  destruct Hdata as [Ha Hr]. destruct data_phys as [_ Hp].
  destruct (pages_of KERNLINK data_ eq_refl Ha ltac:(lia)) as (n2 & Hn2 & E2).
  destruct (pages_of data_ (KERNBASE + PHYSTOP) Ha eq_refl ltac:(lia)) as (n3 & Hn3 & E3).
  unfold KERNLINK, KERNBASE, PHYSTOP, EXTMEM, DEVSPACE, PTE_W, PGSIZE in *. split.
  - rewrite !Forall_cons. split_and!; [..|apply Forall_nil_2].
    + exists 256%nat. rewrite S1. cbn [virt phys_start kperm]. unfold PGSIZE, KERNBASE. split_and!; done || lia.
    + exists n2. rewrite S2. cbn [virt phys_start kperm]. unfold PGSIZE, KERNBASE. split_and!; done || lia.
    + exists n3. rewrite S3. cbn [virt phys_start kperm]. unfold PGSIZE, KERNBASE. split_and!; done || lia.
    + exists (Z.to_nat 8192). rewrite S4. cbn [virt phys_start kperm]. unfold PGSIZE, KERNBASE. split_and!; done || lia.
  - cbn [disjoint_maps]. split_and!; [..|done]; intros k' va Hk';
      repeat (apply elem_of_cons in Hk' as [->|Hk']); try by apply elem_of_nil in Hk'.
    all: unfold in_map; rewrite ?S1, ?S2, ?S3, ?S4; cbn [virt]; lia.
Qed.

(** A fresh page, cleared, is a directory with no entries. *)
Lemma new_dir s d l :
  kmem_ok s (d :: l) ->
  let s1 := mkkmem (memset (kmemory s) d 0 4096) (load32 (kmemory s) d) in
  owns s1 d [d] l /\ (forall va, va_ok va -> pte (kmemory s1) d va = 0) /\ untouched (kmemory s) (kmemory s1) (d :: l).
Proof.
  intros (Hc & Hnd & Hok) s1. apply NoDup_cons in Hnd as [Hdl Hnd]. apply Forall_cons in Hok as [Hd Hok]. destruct Hc as [_ Hc].
  assert (forall i, 0 <= i < 1024 -> pde (kmemory s1) d i = 0) as Hz.
  { intros i Hi. unfold pde, load32, s1. cbn [kmemory]. rewrite !memset_spec.
    rewrite !(proj2 (Z.leb_le _ _)), !(proj2 (Z.ltb_lt _ _)) by lia. done. }
  assert (untouched (kmemory s) (kmemory s1) [d]) as Hout.
  { intros w Hw Hn x Hx. unfold s1. cbn [kmemory]. rewrite memset_spec. apply not_elem_of_cons in Hn as [Hne _].
    pose proof (page_apart end_ w d x Hw Hd Hne Hx). unfold PGSIZE in *.
    destruct (Z.leb_spec d x), (Z.ltb_spec x (d + Z.of_nat 4096)); cbn [andb]; done || lia. }
  assert (forall va, va_ok va -> pte (kmemory s1) d va = 0) as Hpte.
  { intros va Hva. destruct (PDX_spec va Hva) as [_ Hdx]. unfold pte. by rewrite Hz. }
  assert (forall v, pt_page (kmemory s1) d v <-> v = d) as Hpt.
  { intros v. split; [|by left]. intros [?|(i & Hi & Hp & _)]; [done|]. rewrite Hz in Hp by done. done. }
  split; [|split; [done|]].
  - split; [split|split; [split|split]].
    + split_and!; [|done|done]. cbn [kmemory freelist]. eapply chain_ext; [|exact Hc]. intros v Hv. apply load_ext. intros x Hx.
      rewrite Forall_forall in Hok. apply (Hout v); [by apply Hok|by intros ->%list_elem_of_singleton|unfold PGSIZE; lia].
    + split_and!; [done|done|..]; [intros i Hi Hp|intros i i' Hi _ Hp]; rewrite Hz in Hp by done; done.
    + intros va Hva _ Hp. rewrite Hpte in Hp by done. done.
    + intros va va' Hva _ _ _ Hp. rewrite Hpte in Hp by done. done.
    + apply NoDup_singleton.
    + intros v. rewrite list_elem_of_singleton. unfold space_page. rewrite Hpt. split; [by left|].
      intros [?|(va & Hva & _ & Hp & _)]; [done|]. rewrite Hpte in Hp by done. done.
  - intros w Hw Hn. apply Hout; [done|]. intros ->%list_elem_of_singleton. apply Hn, elem_of_cons. by left.
Qed.

(** An address space with the kernel's mappings and none for the user. *)
Definition kernel_only (m : mem) (pgdir : Z) : Prop :=
  no_user m pgdir /\ forall va, va_ok va -> KERNBASE <= va -> pte m pgdir va = default 0 (kpte (kmap data_) va).

Lemma setupkvm_spec s l :
  kmem_ok s l ->
  wp (setupkvm end_ data_) s (fun d s' =>
    d <> 0 /\ (exists used l', l = used ++ l' /\ owns s' d used l' /\ kernel_only (kmemory s') d /\
      untouched (kmemory s) (kmemory s') l) \/
    d = 0 /\ given_back s s' l).
Proof.
  intros Hk. unfold setupkvm. apply wp_bind. unfold wp at 1, kalloc_. destruct l as [|d l].
  { rewrite (kalloc_empty end_) by done. cbn [Z.eqb]. apply wp_ret. right. split; [done|]. split; [cbn; lia|]. by exists []. }
  destruct (kalloc_spec end_ ltac:(lia) s d l Hk) as (s0 & Hrun & _ & _ & Hd & _). apply page_ok_range in Hd; [|lia].
  assert (s0 = mkkmem (kmemory s) (load32 (kmemory s) d)) as ->.
  { unfold kalloc in Hrun. destruct (freelist s =? 0); injection Hrun as <- <-; [lia|done]. }
  rewrite Hrun. rewrite (proj2 (Z.eqb_neq d 0)) by lia. apply wp_bind, wp_modify. cbn [kmemory freelist].
  replace (P2V PHYSTOP >? DEVSPACE) with false by reflexivity. destruct (new_dir s d l Hk) as (Ho & Hz & Hout).
  destruct kmap_fine as [Hok Hdis]. eapply wp_mono; [apply (setupkvm_loop_spec (kmap data_) _ d [d] l Ho); [|done|done|]|].
  - intros va Hva _. by rewrite Hz.
  - intros k va Hin Hva. rewrite Hz; [done|]. rewrite Forall_forall in Hok. destruct (Hok k Hin) as (n & _ & _ & _ & ? & ? & _).
    unfold in_map, va_ok, KERNBASE in *. lia.
  - intros r s' [[-> (u & l' & -> & Ho' & Hnu & Hout' & Hpte)]|[-> (Hshort & l' & Hk' & Hp & Hout')]]; [left|right].
    + split; [lia|]. exists ([d] ++ u), l'. split; [by rewrite <- app_assoc|]. split; [done|]. split; [split; [done|]|].
      * intros va Hva _. by rewrite Hpte, Hz.
      * eapply untouched_trans; [exact Hout|exact Hout'|done|done].
    + split; [done|]. split; [done|]. exists l'. split; [done|]. split; [done|]. eapply untouched_trans; [exact Hout|exact Hout'|done|done].
Qed.

(** ** [copyuvm] *)

(** The parent: its memory below [sz] is mapped, to pages that are not free. *)
Definition parent_ok (m : mem) (pgdir : Z) (l : list Z) (sz : Z) : Prop :=
  pt_ok m pgdir l /\ 0 <= sz <= KERNBASE /\
  forall va, va_ok va -> pbase va < sz ->
    present (pte m pgdir va) /\ page_ok (upage m pgdir va) /\ (upage m pgdir va ∉ l).

(** The child has its own copy, with the same flags, of the page of [va]. *)
Definition copy_of (m0 m : mem) (pgdir d va : Z) : Prop :=
  present (pte m d va) /\ PTE_FLAGS (pte m d va) = PTE_FLAGS (pte m0 pgdir va) /\
  forall x, 0 <= x < PGSIZE -> m (upage m d va + x) = m0 (upage m0 pgdir va + x).

(** The pages below [i] have been copied, from the memory [m0]; the address space of the
    child is made of the pages [used] of those free before. *)
Definition copied (m0 : mem) (s : kmem) (pgdir d : Z) (used l : list Z) (i : Z) : Prop :=
  owns s d used l /\ untouched m0 (kmemory s) (used ++ l) /\
  (forall va, va_ok va -> pbase va < KERNBASE ->
     if decide (pbase va < i) then copy_of m0 (kmemory s) pgdir d va else ~ present (pte (kmemory s) d va)) /\
  (forall va, va_ok va -> KERNBASE <= va -> pte (kmemory s) d va = default 0 (kpte (kmap data_) va)).

(** Copying the page at [i], when there is memory for it. *)
Lemma copied_next m0 s s2 pgdir d used t l l' i sz e :
  copied m0 s pgdir d used (t :: l) i -> parent_ok m0 pgdir (used ++ t :: l) sz ->
  0 <= i < sz -> i mod PGSIZE = 0 -> e = pte m0 pgdir i ->
  let s1 := mkkmem (memmove (kmemory s) t (P2V (PTE_ADDR e)) 4096) (load32 (kmemory s) t) in
  mapped end_ s1 s2 d l l' i (V2P t) (PTE_FLAGS e) 1 ->
  exists u, l = u ++ l' /\ copied m0 s2 pgdir d (used ++ t :: u) l' (i + PGSIZE).
Proof.
  intros (Ho & Hout & Hus & Hke) (Hpt & Hsz & Hpar) Hi Hal -> s1 Hm.
  assert (va_ok i) as Hva by (unfold va_ok, KERNBASE in *; lia). pose proof (pbase_aligned i Hal) as Hbi.
  destruct (Hpar i Hva ltac:(lia)) as (Hpe & Hpg & Hpl).
  assert (page_ok t) as Ht by (destruct Ho as ((( _ & _ & [? _]%Forall_cons) & _) & _); done).
  destruct (fill_page end_ (kmemory s) t (P2V (PTE_ADDR (pte m0 pgdir i))) Ht) as [Hfill Hbytes].
  destruct (owns_take end_ Hend s d used t l _ Ho Hfill) as (Ho1 & _ & Htu & Htl & Hpte1). fold s1 in Ho1.
  destruct (entry_copy end_ Hend t (pte m0 pgdir i) Ht Hpe) as (Hc1 & Hc2 & Hc3).
  assert (~ present (pte (kmemory s) d i)) as Hnp.
  { pose proof (Hus i Hva ltac:(lia)) as H. rewrite decide_False in H by lia. done. }
  destruct (owns_user end_ s1 s2 d used l l' i t (PTE_FLAGS (pte m0 pgdir i))) as (u & -> & Ho2 & Hout2 & Hpte2);
    [done|done|lia|done|done|done|done|done|done|by cbn [kmemory s1]; rewrite Hpte1|].
  assert (forall va, va_ok va -> pte (kmemory s2) d va =
    if decide (same_page i va) then entry (V2P t) (PTE_FLAGS (pte m0 pgdir i)) else pte (kmemory s) d va) as Hpte.
  { intros va Hva'. rewrite Hpte2 by done. case_decide; [done|]. by apply Hpte1. }
  assert (forall w, page_ok w -> (w ∉ u ++ l') -> ~ pt_page (kmemory s1) d w -> forall x, w <= x < w + PGSIZE -> kmemory s2 x = kmemory s1 x) as Hkeep.
  { intros w Hw Hl Hn. destruct Hm as (_ & _ & Hfr & _). by apply Hfr. }
  assert (used ++ t :: u ++ l' = (used ++ t :: u) ++ l') as Happ by (by rewrite <- app_assoc).
  exists u. split; [done|]. split; [done|]. split; [|split].
  - rewrite <- Happ. eapply untouched_trans; [exact Hout| |done|done].
    eapply untouched_trans; [exact Hfill|exact Hout2| |]; intros w; rewrite ?list_elem_of_singleton, !elem_of_app, ?elem_of_cons, ?elem_of_app; tauto.
  - intros va Hva' Hb. pose proof (Hus va Hva' Hb) as Hold. pose proof (pbase_next i va Hal) as Hiff. pose proof (pbase_mod va) as Hbm.
    destruct (decide (same_page i va)) as [Hsp|Hsp].
    + rewrite decide_True by (apply Hiff in Hsp; lia). unfold copy_of, upage. rewrite Hpte by done. rewrite decide_True by done.
      rewrite <- (pte_same_page m0 pgdir i va) by done. split; [done|]. split; [done|]. intros x Hx. rewrite Hc2.
      rewrite (Hkeep t); [|done|done|by eapply owns_outside|lia]. cbn [kmemory s1]. rewrite Hbytes by done.
      apply (Hout _ Hpg Hpl). unfold upage. lia.
    + assert (pbase va < i + PGSIZE <-> pbase va < i) as Hlt.
      { split; [|unfold PGSIZE; lia]. intros H. destruct (decide (pbase va < i)); [done|]. exfalso. apply Hsp, Hiff. lia. }
      destruct (decide (pbase va < i)) as [Hb'|Hb'].
      * rewrite decide_True by tauto. destruct Hold as (H1 & H2 & H3).
        assert (upage (kmemory s2) d va = upage (kmemory s) d va) as Hup by (unfold upage; by rewrite Hpte, decide_False by done).
        unfold copy_of. rewrite Hup, Hpte, decide_False by done. split; [done|]. split; [done|]. intros x Hx. rewrite <- H3 by done.
        destruct Ho as (_ & [Hs _] & _ & Hu). assert (0 <= pbase va) as Hb0 by (apply (pbase_ge 0); [done|apply Hva']).
        destruct (Hs va Hva' ltac:(lia) H1) as (P1 & P2 & P3). rewrite elem_of_cons in P3.
        rewrite (Hkeep (upage (kmemory s) d va)); [|done|tauto| |lia].
        -- apply (Hfill (upage (kmemory s) d va)); [done|rewrite list_elem_of_singleton; tauto|lia].
        -- destruct Ho1 as ([_ Hpt1] & [Hs1 _] & _). replace (upage (kmemory s) d va) with (upage (kmemory s1) d va)
             by (unfold upage; by rewrite Hpte1). apply Hs1; [done|lia|by rewrite Hpte1].
      * rewrite decide_False by tauto. by rewrite Hpte, decide_False by done.
  - intros va Hva' Hk. rewrite Hpte by done. rewrite decide_False; [by apply Hke|]. intros Hsp. apply pbase_same in Hsp.
    apply (kernel_va va); [done|lia].
Qed.

(** The outcomes of [copyuvm], from a state with memory [m0] and free pages [l0]: a copy; or,
    when there were not enough free pages for all possible tables and the copies, a failure
    in which all pages taken are free again except perhaps one. *)
Definition copy_outcome (m0 : mem) (pgdir sz : Z) (l0 : list Z) (r : Z) (s' : kmem) : Prop :=
  r <> 0 /\ (exists used l, l0 = used ++ l /\ copied m0 s' pgdir r used l sz) \/
  r = 0 /\ (length l0 <= 1027 + Z.to_nat (sz / PGSIZE + 1))%nat /\
    exists l', kmem_ok s' l' /\ untouched m0 (kmemory s') l0 /\ (l' ≡ₚ l0 \/ exists t, t :: l' ≡ₚ l0).

(** [freevm] after a failure. *)
Lemma copy_fails m0 s pgdir sz d used l0 :
  owns s d used [] -> (forall va, va_ok va -> pbase va < KERNBASE -> present (pte (kmemory s) d va) -> pbase va < sz) ->
  untouched m0 (kmemory s) l0 -> used ⊆ l0 -> (used ≡ₚ l0 \/ exists t, t :: used ≡ₚ l0) ->
  wp (freevm end_ d;; mret 0) s (copy_outcome m0 pgdir sz l0).
Proof.
  intros Ho Hus Hout Hsub Hp. apply wp_bind. eapply wp_mono; [by apply (freevm_owns end_ Hend s d used [])|].
  intros [] s' (l' & Hk & Hl & Hout'). rewrite app_nil_r in *. apply wp_ret. right. split; [done|]. split.
  - destruct Ho as (_ & _ & Hnd & Hu). enough (length used <= 1025 + Z.to_nat ((sz - 0) / PGSIZE + 1))%nat as Hc.
    { rewrite Z.sub_0_r in Hc. destruct Hp as [Hp|[t Hp]]; apply Permutation_length in Hp; cbn [length] in Hp; lia. }
    apply (pages_count (kmemory s) d); [done|done|done|]. intros v [?|(va & Hva & Hr & Hpr & ->)]%Hu; [by left|right].
    exists va. split; [done|]. split; [|done]. split; [lia|]. apply Hus; [done|lia|done].
  - exists l'. split; [done|]. split; [eapply untouched_trans; [exact Hout|exact Hout'|done|done]|].
    destruct Hp as [Hp|[t Hp]]; [left; by rewrite Hl|right; exists t; by rewrite Hl].
Qed.

Lemma copyuvm_loop_spec fuel m0 pgdir d sz l0 : forall s used l i,
  l0 = used ++ l -> copied m0 s pgdir d used l i -> parent_ok m0 pgdir l0 sz -> d <> 0 ->
  0 <= i -> i mod PGSIZE = 0 -> i < sz + PGSIZE -> sz - i < PGSIZE * Z.of_nat fuel ->
  wp (copyuvm_loop end_ fuel pgdir d i sz) s (copy_outcome m0 pgdir sz l0).
Proof.
  induction fuel as [|fuel IH]; intros s used l i -> Hc Hpar Hd Hi Hal Hle Hf.
  all: cbn [copyuvm_loop]; pose proof Hc as (Ho & Hout & Hus & Hke); pose proof Hpar as (Hpt & Hsz & Hpg).
  all: assert (sz <= i -> wp (mret d) s (copy_outcome m0 pgdir sz (used ++ l))) as Hdone;
    [intros Hge; apply wp_ret; left; split; [done|]; exists used, l; split; [done|]; split; [done|]; split; [done|]; split; [|done];
     intros va Hva Hb; specialize (Hus va Hva Hb); pose proof (aligned_lt (pbase va) i (pbase_mod va) Hal);
     destruct (decide (pbase va < i)); [rewrite decide_True by lia|rewrite decide_False by lia]; done|].
  { apply Hdone. unfold PGSIZE in *. lia. }
  destruct (Z.ltb_spec i sz) as [Hlt|Hge]; [|by apply Hdone]. clear Hdone.
  assert (va_ok i) as Hva by (unfold va_ok, KERNBASE in *; lia). pose proof (pbase_aligned i Hal) as Hbi.
  destruct (parent_same end_ m0 (kmemory s) pgdir _ Hpt Hout) as [Hpde Hpte]. destruct (Hpg i Hva ltac:(lia)) as (Hp & _ & _).
  assert (present (pde (kmemory s) pgdir (PDX i))) as Hpd by (apply pte_present_pde; by rewrite Hpte).
  apply wp_bind. eapply wp_eq; [by apply walk_present|]. unfold load. apply wp_bind, wp_gets.
  rewrite pte_load, Hpte by done. rewrite Hp. cbn [negb]. apply wp_bind.
  destruct l as [|t l].
  { unfold wp at 1, kalloc_. rewrite (kalloc_empty end_) by apply Ho. cbn [Z.eqb].
    rewrite app_nil_r. apply (copy_fails m0 s pgdir sz d used); [done| |by rewrite app_nil_r in Hout|done|by left].
    intros va Hva' Hb Hp'. specialize (Hus va Hva' Hb). case_decide; [lia|done]. }
  destruct (kalloc_cons end_ Hend s t l) as [Hrun Ht0]; [apply Ho|]. eapply wp_eq; [exact Hrun|]. rewrite (proj2 (Z.eqb_neq t 0)) by done.
  apply wp_bind, wp_modify. cbn [kmemory freelist]. set (s1 := mkkmem (memmove _ _ _ _) _).
  assert (page_ok t) as Ht by (destruct Ho as ((( _ & _ & [? _]%Forall_cons) & _) & _); done).
  destruct (fill_page end_ (kmemory s) t (P2V (PTE_ADDR (pte m0 pgdir i))) Ht) as [Hfill _].
  destruct (owns_take end_ Hend s d used t l _ Ho Hfill) as (Ho1 & _ & _ & _ & Hpte1). fold s1 in Ho1.
  destruct (page_P2V end_ ltac:(lia) t Ht) as (_ & Htr & _).
  apply wp_bind. eapply wp_mono; [apply (mappages_spec end_ ltac:(lia) 1 s1 d l i (V2P t) (PTE_FLAGS (pte m0 pgdir i))); [apply Ho1|lia|]|].
  { change (PGSIZE * Z.of_nat 1) with PGSIZE. unfold KERNBASE, PHYSTOP in *. split; [done|]. split; [done|].
    split; [unfold PGSIZE; lia|]. split; [lia|]. split; [unfold PGSIZE; lia|]. split; [apply flags_range|]. intros va Hva'.
    assert (va_ok va) as Hvok by (unfold va_ok, PGSIZE in *; lia). cbn [kmemory s1]. rewrite Hpte1 by done.
    assert (i <= pbase va) by (apply pbase_ge; [done|lia]). pose proof (pbase_bounds va).
    specialize (Hus va Hvok ltac:(pose proof (aligned_lt i KERNBASE Hal eq_refl); unfold KERNBASE in *; lia)). by rewrite decide_False in Hus by lia. }
  intros r s2 (l' & k & Hm & Hr). destruct Hr as [[-> ->]|(-> & -> & Hk)]; cbn [Z.ltb Z.compare].
  - destruct (copied_next m0 s s2 pgdir d used t l l' i sz _ Hc Hpar (conj Hi Hlt) Hal eq_refl Hm) as (u & -> & Hc').
    eapply (IH s2 (used ++ t :: u) l'); [by rewrite <- app_assoc|done|done|done|unfold PGSIZE; lia|by rewrite Z.add_mod, Hal|lia|unfold PGSIZE in *; lia].
  - assert (k = 0%nat) as -> by lia. destruct (owns_kernel end_ s1 s2 d used l [] _ _ _ _ Ho1 Hm) as (u & -> & Ho2 & Hout2).
    { intros va Hva' _. destruct Hm as (_ & _ & _ & H). rewrite H by done. rewrite decide_False by lia. done. }
    rewrite app_nil_r in *. apply (copy_fails m0 s2 pgdir sz d (used ++ u)); [done| | | |].
    + intros va Hva' Hb. destruct Hm as (_ & _ & _ & H). rewrite H by done. rewrite decide_False by lia.
      cbn [kmemory s1]. rewrite Hpte1 by done. intros Hp'. specialize (Hus va Hva' Hb). case_decide; [lia|done].
    + eapply untouched_trans; [exact Hout| |done|done].
      eapply untouched_trans; [exact Hfill|exact Hout2| |]; intros w; rewrite ?list_elem_of_singleton, !elem_of_app, ?elem_of_cons, ?elem_of_app; tauto.
    + intros w. rewrite !elem_of_app, elem_of_cons, ?elem_of_app. tauto.
    + right. exists t. apply Permutation_middle.
Qed.

Lemma copyuvm_spec s pgdir sz l0 :
  kmem_ok s l0 -> parent_ok (kmemory s) pgdir l0 sz ->
  wp (copyuvm end_ data_ pgdir sz) s (copy_outcome (kmemory s) pgdir sz l0).
Proof.
  intros Hk Hpar. unfold copyuvm. apply wp_bind. eapply wp_mono; [by apply (setupkvm_spec s l0)|].
  intros d s1 [[Hd (used & l & -> & Ho & [Hnu Hke] & Hout)]|[-> (Hshort & l' & Hk' & Hl & Hout)]].
  - rewrite (proj2 (Z.eqb_neq d 0)) by done. apply (copyuvm_loop_spec _ _ _ _ _ _ s1 used l 0); [done| |done|done|done|done|..].
    + split; [done|]. split; [done|]. split; [|done]. intros va Hva Hb. rewrite decide_False; [by apply Hnu|].
      assert (0 <= pbase va) by (apply (pbase_ge 0); [done|apply Hva]). lia.
    + destruct Hpar as (_ & Hsz & _). unfold PGSIZE. lia.
    + destruct Hpar as (_ & Hsz & _). pose proof (Z.mul_succ_div_gt sz PGSIZE ltac:(done)).
      assert (0 <= sz / PGSIZE) by (apply Z.div_pos; [lia|done]). unfold PGSIZE in *. lia.
  - cbn [Z.eqb]. apply wp_ret. right. split; [done|]. split; [lia|]. exists l'. split; [done|]. split; [done|]. by left.
Qed.

(** C13: [copyuvm] of a process whose memory is all mapped, from any state of the page tables
    and the allocator that is consistent: when it returns an address space, that has the
    kernel's mappings and, for each page of the parent, a page of its own among those that
    were free, with the same contents and the same flags, and nothing else; when it returns
    0, there was not memory for the copies and all possible tables, and all the pages it took
    are free again, except that one may be lost.  In both cases
    no page that was not free has changed, so none of the parent's. *)
Theorem copyuvm_copies s pgdir sz l0 :
  kmem_ok s l0 -> parent_ok (kmemory s) pgdir l0 sz ->
  wp (copyuvm end_ data_ pgdir sz) s (copy_outcome (kmemory s) pgdir sz l0).
Proof. apply copyuvm_spec. Qed.

(** A page of the parent that was never touched. *)
Lemma copyuvm_untouched s pgdir d i sz fuel :
  i < sz -> ~ present (pte (kmemory s) pgdir i) ->
  exists msg, copyuvm_loop end_ (S fuel) pgdir d i sz s = Panic msg s.
Proof.
  intros Hlt Hn. cbn [copyuvm_loop]. rewrite (proj2 (Z.ltb_lt _ _)) by done. unfold mbind, K_bind.
  destruct (decide (truthy (Z.land (pde (kmemory s) pgdir (PDX i)) PTE_P) = true)) as [Hp|Hp].
  - rewrite walk_present by done. unfold load, gets. rewrite pte_load by done. unfold present in Hn. apply not_true_is_false in Hn.
    rewrite Hn. by eexists.
  - rewrite walk_absent by done. by eexists.
Qed.

Lemma mappages_no_memory s d a pa perm :
  kmem_ok s [] -> 0 <= a < KERNBASE -> a mod PGSIZE = 0 -> ~ present (pde (kmemory s) d (PDX a)) ->
  mappages d a PGSIZE pa perm s = Ret (-1) s.
Proof.
  intros Hk Ha Hal Hn. unfold mappages. replace (PGROUNDDOWN a) with a by (rewrite pgrounddown_spec by (unfold KERNBASE in *; lia); lia).
  destruct (Z.to_nat _) eqn:E; [done|]. rewrite mappages_loop_S. unfold mbind, K_bind, walkpgdir, load, gets.
  unfold mbind, K_bind. fold (pde (kmemory s) d (PDX a)). unfold present in Hn. apply not_true_is_false in Hn. rewrite Hn. cbn [negb].
  unfold kalloc_. by rewrite (kalloc_empty end_).
Qed.

(** The page that is lost: with one free page [t] left, and no page table for the next page of
    the child, [copyuvm] fails and [t] is not free afterwards, nor part of an address space. *)
Lemma copyuvm_loses_page m0 s pgdir d used t i sz fuel :
  copied m0 s pgdir d used [t] i -> parent_ok m0 pgdir (used ++ [t]) sz -> 0 <= i < sz -> i mod PGSIZE = 0 ->
  ~ present (pde (kmemory s) d (PDX i)) ->
  wp (copyuvm_loop end_ (S fuel) pgdir d i sz) s (fun r s' => r = 0 /\ exists l', kmem_ok s' l' /\ l' ≡ₚ used).
Proof.
  intros (Ho & Hout & _ & _) (Hpt & Hsz & Hpg) Hi Hal Hn. cbn [copyuvm_loop]. rewrite (proj2 (Z.ltb_lt _ _)) by lia.
  assert (va_ok i) as Hva by (unfold va_ok, KERNBASE in *; lia). pose proof (pbase_aligned i Hal) as Hbi.
  destruct (parent_same end_ m0 (kmemory s) pgdir _ Hpt Hout) as [Hpde Hpte]. destruct (Hpg i Hva ltac:(lia)) as (Hp & _ & _).
  assert (present (pde (kmemory s) pgdir (PDX i))) as Hpd by (apply pte_present_pde; by rewrite Hpte).
  apply wp_bind. eapply wp_eq; [by apply walk_present|]. unfold load. apply wp_bind, wp_gets.
  rewrite pte_load, Hpte by done. rewrite Hp. cbn [negb]. apply wp_bind.
  destruct (kalloc_cons end_ Hend s t []) as [Hrun Ht0]; [apply Ho|]. eapply wp_eq; [exact Hrun|]. rewrite (proj2 (Z.eqb_neq t 0)) by done.
  apply wp_bind, wp_modify. cbn [kmemory freelist].
  assert (page_ok t) as Ht by (destruct Ho as ((( _ & _ & [? _]%Forall_cons) & _) & _); done).
  destruct (fill_page end_ (kmemory s) t (P2V (PTE_ADDR (pte m0 pgdir i))) Ht) as [Hfill _].
  destruct (owns_take end_ Hend s d used t [] _ Ho Hfill) as (Ho1 & _ & Htu & _). apply wp_bind.
  destruct (PDX_spec i Hva) as [_ Hdx].
  eapply wp_eq; [apply mappages_no_memory; [apply Ho1|lia|done|]|].
  { cbn [kmemory]. rewrite (pde_page (kmemory s)); [done| |done]. apply Hfill.
    - apply Ho.
    - intros He%list_elem_of_singleton. apply Htu. destruct Ho as (_ & _ & _ & Hu). rewrite <- He. apply Hu. left. by left. }
  cbn [Z.ltb Z.compare]. apply wp_bind. eapply wp_mono; [by apply (freevm_owns end_ Hend _ d used [])|].
  intros [] s' (l' & Hk & Hl & _). apply wp_ret. split; [done|]. exists l'. split; [done|]. by rewrite Hl, app_nil_r.
Qed.

End Copy.
Lemma small_parent : parent_ok (pg 258) (kmemory small) (pg 301) [pg 304] PGSIZE.
Proof.
  split; [apply small_ok|]. split; [done|]. intros va Hva Hb.
  assert (va < PGSIZE) as Hlt by (pose proof (pbase_bounds va); pose proof (aligned_lt (pbase va) PGSIZE (pbase_mod va) eq_refl); lia).
  unfold upage. rewrite small_pte by done. rewrite decide_True by done. split; [done|]. change (P2V _) with (pg 303).
  split; [by apply small_page|by intros ?%list_elem_of_singleton].
Qed.

Lemma copyuvm_copies_witness :
  wp (copyuvm (pg 258) (pg 257) (pg 301) PGSIZE) small (copy_outcome (pg 258) (pg 257) (kmemory small) (pg 301) PGSIZE [pg 304]).
Proof.
  apply (copyuvm_copies (pg 258) (pg 257) ltac:(reflexivity) ltac:(repeat split) small (pg 301) PGSIZE [pg 304]);
    [apply small_ok|apply small_parent].
Defined.

End VmCopy.
