(* ===== verification/VmAlloc.v ===== *)
(** * Address spaces: [allocuvm]

    A process that grows, in [growproc] and [exec].

    Shown: [allocuvm] maps a page of zeros, writable and for the user, at each new page of the
    process, and changes no other translation and no other page; when memory runs out it
    undoes all of it, and keeps only the page tables it has made. *)

From S2P Require Export VmCopy.
Local Open Scope Z_scope.

Module VmAlloc.
Import CString Words Kalloc Vm VmSpec VmSpace VmCopy.

Section Alloc.
Context (end_ : Z) (Hend : KERNBASE < end_).

Local Abbreviation page_ok := (page_ok end_).
Local Abbreviation kmem_ok := (kmem_ok end_).
Local Abbreviation vm_ok := (vm_ok end_).
Local Abbreviation owns := (owns end_).
Local Abbreviation frame := (frame end_).

(** A page of zeros among [u], present, writable and for the user. *)
Definition fresh (m : mem) (pgdir : Z) (u : list Z) (va : Z) : Prop :=
  PTE_FLAGS (pte m pgdir va) = 7 /\ upage m pgdir va ∈ u /\
  forall x, 0 <= x < PGSIZE -> m (upage m pgdir va + x) = 0.

(** The process has got the pages from [lo] to [a]; [u] are the pages taken so far, of
    those free at first, [l0]. *)
Definition grown (m0 : mem) (l0 : list Z) (s : kmem) (pgdir : Z) (used u l : list Z) (lo a : Z) : Prop :=
  owns s pgdir (used ++ u) l /\ frame m0 (kmemory s) pgdir l0 /\ u ++ l ⊆ l0 /\
  forall va, va_ok va -> if decide (lo <= pbase va < a) then fresh (kmemory s) pgdir u va
                         else pte (kmemory s) pgdir va = pte m0 pgdir va.

Lemma entry_fresh v : page_ok v ->
  let e := entry (V2P v) (Z.lor PTE_W PTE_U) in present e /\ P2V (PTE_ADDR e) = v /\ PTE_FLAGS e = 7.
Proof.
  intros Hv. assert (entry (V2P v) (Z.lor PTE_W PTE_U) = entry (V2P v) (PTE_FLAGS 7)) as ->.
  { unfold entry. by rewrite <- !Z.lor_assoc. }
  by apply (entry_copy end_ Hend v 7).
Qed.

Lemma clear_page m t : page_ok t ->
  untouched end_ m (memset m t 0 4096) [t] /\ forall x, 0 <= x < PGSIZE -> memset m t 0 4096 (t + x) = 0.
Proof.
  intros Ht. split.
  - intros w Hw Hn x Hx. apply not_elem_of_cons in Hn as [Hne _]. pose proof (page_apart end_ w t x Hw Ht Hne Hx) as H.
    rewrite memset_spec. unfold PGSIZE in H. change (Z.of_nat 4096) with 4096.
    destruct (Z.leb_spec t x), (Z.ltb_spec x (t + 4096)); cbn [andb]; done || lia.
  - intros x Hx. rewrite memset_spec. change (Z.of_nat 4096) with PGSIZE.
    rewrite (proj2 (Z.leb_le _ _)), (proj2 (Z.ltb_lt _ _)) by lia. done.
Qed.

(** Taking the free page [t] and filling it. *)
Lemma frame_take m0 l0 s pgdir used t l m1 :
  owns s pgdir used (t :: l) -> frame m0 (kmemory s) pgdir l0 -> t ∈ l0 -> untouched end_ (kmemory s) m1 [t] ->
  frame m0 m1 pgdir l0.
Proof.
  intros ([_ Hpt] & _) Hfr Ht Hfill v Hv Hn Hp. destruct (Hfr v Hv Hn Hp) as [Hp1 He].
  assert (v ∉ [t]) as Hvt by (by intros ->%list_elem_of_singleton).
  split; [|intros x Hx; rewrite (Hfill v); [by apply He|done|done|done]].
  rewrite (pt_page_ext (kmemory s)); [done|]. intros d Hd. apply pde_page; [|done]. apply Hfill; [apply Hpt|].
  destruct Hpt as (_ & Hpl & _). rewrite list_elem_of_singleton. rewrite elem_of_cons in Hpl. tauto.
Qed.

(** A fresh page stays one while others are mapped. *)
Lemma fresh_keep s s1 s2 pgdir used u w t l va :
  owns s pgdir used (t :: l) -> owns s1 pgdir used l -> untouched end_ (kmemory s) (kmemory s1) [t] ->
  frame (kmemory s1) (kmemory s2) pgdir l -> va_ok va -> pbase va < KERNBASE -> fresh (kmemory s) pgdir u va ->
  pte (kmemory s1) pgdir va = pte (kmemory s) pgdir va -> pte (kmemory s2) pgdir va = pte (kmemory s) pgdir va ->
  fresh (kmemory s2) pgdir (u ++ w) va.
Proof.
  intros (_ & [Hs _] & _) (_ & [Hs1 _] & _) Hfill Hfr2 Hva Hb (H1 & H2 & H3) Hp1 Hp2.
  assert (0 <= pbase va) as Hb0 by (apply pbase_ge; [done|apply Hva]).
  assert (present (pte (kmemory s) pgdir va)) as Hp.
  { unfold present. replace (Z.land _ PTE_P) with 1; [done|]. symmetry. change PTE_P with (Z.land 4095 1). rewrite Z.land_assoc.
    fold (PTE_FLAGS (pte (kmemory s) pgdir va)). by rewrite H1. }
  destruct (Hs va Hva ltac:(lia) Hp) as (P1 & _ & P3). rewrite elem_of_cons in P3.
  destruct (Hs1 va Hva ltac:(lia) ltac:(by rewrite Hp1)) as (_ & P2 & _).
  unfold fresh, upage in *. rewrite Hp2. rewrite Hp1 in P2. split; [done|]. split; [apply elem_of_app; by left|]. intros x Hx.
  destruct (Hfr2 _ P1) as [_ He]; [tauto|done|]. rewrite He by lia.
  rewrite (Hfill _ P1); [by apply H3|rewrite list_elem_of_singleton; tauto|lia].
Qed.

(** One page more. *)
Lemma grown_next m0 l0 s s2 pgdir used u t l l' lo a :
  grown m0 l0 s pgdir used u (t :: l) lo a -> 0 <= a < KERNBASE -> a mod PGSIZE = 0 -> lo <= a ->
  ~ present (pte m0 pgdir a) ->
  let s1 := mkkmem (memset (kmemory s) t 0 4096) (load32 (kmemory s) t) in
  mapped end_ s1 s2 pgdir l l' a (V2P t) (Z.lor PTE_W PTE_U) 1 ->
  exists u', t :: l = u' ++ l' /\ grown m0 l0 s2 pgdir used (u ++ u') l' lo (a + PGSIZE).
Proof.
  intros (Ho & Hfr & Hsub & Hus) Ha Hal Hlo Hnp0 s1 Hm.
  assert (va_ok a) as Hva by (unfold va_ok, KERNBASE in *; lia). pose proof (pbase_aligned a Hal) as Hba.
  assert (page_ok t) as Ht by (destruct Ho as ((( _ & _ & [? _]%Forall_cons) & _) & _); done).
  destruct (clear_page (kmemory s) t Ht) as [Hfill Hbytes].
  destruct (owns_take end_ Hend s pgdir (used ++ u) t l _ Ho Hfill) as (Ho1 & _ & Htu & Htl & Hpte1). fold s1 in Ho1.
  destruct (entry_fresh t Ht) as (Hc1 & Hc2 & Hc3).
  assert (~ present (pte (kmemory s) pgdir a)) as Hnp.
  { pose proof (Hus a Hva) as H. rewrite decide_False in H by lia. by rewrite H. }
  destruct (owns_user end_ s1 s2 pgdir (used ++ u) l l' a t (Z.lor PTE_W PTE_U)) as (u' & -> & Ho2 & Hout2 & Hpte2);
    [done|done|lia|done|done|done|done|done|done|by cbn [kmemory s1]; rewrite Hpte1|].
  destruct Hm as (_ & _ & Hfr2 & _).
  exists (t :: u'). split; [done|]. split; [by rewrite app_assoc|]. split; [|split].
  - eapply (frame_trans end_ m0 (kmemory s1)); [|exact Hfr2|].
    + by apply (frame_take m0 l0 s pgdir (used ++ u) t (u' ++ l')); [| |apply Hsub, elem_of_app; right; apply elem_of_cons; left|].
    + intros v Hv. apply Hsub. rewrite elem_of_app, elem_of_cons. tauto.
  - intros v Hv. apply Hsub. rewrite <- app_assoc in Hv. exact Hv.
  - intros va Hva'. pose proof (Hus va Hva') as Hold. pose proof (pbase_next a va Hal) as Hiff. pose proof (Hpte2 va Hva') as Hp2.
    destruct (decide (same_page a va)) as [Hsp|Hsp].
    + rewrite decide_True by (apply Hiff in Hsp; lia). unfold fresh, upage. rewrite Hp2, Hc2. split; [done|].
      split; [apply elem_of_app; right; apply elem_of_cons; by left|]. intros x Hx.
      destruct (Hfr2 t) as [_ He]; [done|done|by eapply owns_outside|]. rewrite He by lia. cbn [kmemory s1]. by apply Hbytes.
    + rewrite (Hpte1 va Hva' : pte (kmemory s1) pgdir va = _) in Hp2. assert (lo <= pbase va < a + PGSIZE <-> lo <= pbase va < a) as Hlt.
      { split; [|unfold PGSIZE; lia]. intros H. destruct (decide (pbase va < a)); [lia|]. exfalso. apply Hsp, Hiff. lia. }
      destruct (decide (lo <= pbase va < a)) as [Hb|Hb]; [rewrite decide_True by tauto|by rewrite decide_False, Hp2 by tauto].
      eapply (fresh_keep s s1 s2 pgdir (used ++ u) u (t :: u') t (u' ++ l') va); [done|done|done|done|done|lia|done|by apply Hpte1|done].
Qed.

(** No memory for a page table. *)
Lemma grown_fails m0 l0 s s2 pgdir used u t l lo a pa perm :
  grown m0 l0 s pgdir used u (t :: l) lo a -> a <= KERNBASE ->
  let s1 := mkkmem (memset (kmemory s) t 0 4096) (load32 (kmemory s) t) in
  mapped end_ s1 s2 pgdir l [] a pa perm 0 ->
  grown m0 l0 s2 pgdir used (u ++ l) [] lo a /\ page_ok t /\ (t ∉ used ++ u ++ l).
Proof.
  intros (Ho & Hfr & Hsub & Hus) Ha s1 Hm.
  assert (page_ok t) as Ht by (destruct Ho as ((( _ & _ & [? _]%Forall_cons) & _) & _); done).
  destruct (clear_page (kmemory s) t Ht) as [Hfill _].
  destruct (owns_take end_ Hend s pgdir (used ++ u) t l _ Ho Hfill) as (Ho1 & _ & Htu & Htl & Hpte1). fold s1 in Ho1.
  assert (forall va, va_ok va -> pte (kmemory s2) pgdir va = pte (kmemory s) pgdir va) as Hpte2.
  { intros va Hva. destruct Hm as (_ & _ & _ & H). rewrite H by done. rewrite decide_False by lia. by apply Hpte1. }
  destruct (owns_kernel end_ s1 s2 pgdir (used ++ u) l [] _ _ _ _ Ho1 Hm) as (u' & E & Ho2 & _).
  { intros va Hva _. rewrite Hpte2 by done. symmetry. by apply Hpte1. }
  rewrite app_nil_r in E. subst u'. destruct Hm as (_ & _ & Hfr2 & _).
  split; [|split; [done|rewrite app_assoc, elem_of_app; tauto]]. split; [by rewrite app_assoc|]. split; [|split].
  - eapply (frame_trans end_ m0 (kmemory s1)); [|exact Hfr2|].
    + by apply (frame_take m0 l0 s pgdir (used ++ u) t l); [| |apply Hsub, elem_of_app; right; apply elem_of_cons; left|].
    + intros v Hv. apply Hsub. rewrite elem_of_app, elem_of_cons. tauto.
  - intros v. rewrite app_nil_r. intros Hv. apply Hsub. rewrite elem_of_app, elem_of_cons. rewrite elem_of_app in Hv. tauto.
  - intros va Hva. specialize (Hus va Hva). rewrite Hpte2 by done. case_decide; [|done].
    by eapply (fresh_keep s s1 s2 pgdir (used ++ u) u l t l va); [..|lia| |apply Hpte1|apply Hpte2].
Qed.

(** The page tables of before are still there. *)
Lemma grown_tables m0 l0 s pgdir used u l lo a v :
  grown m0 l0 s pgdir used u l lo a -> space_ok end_ m0 pgdir l0 0 KERNBASE -> (forall w, pt_page m0 pgdir w -> w ∈ used) ->
  pt_page m0 pgdir v -> pt_page (kmemory s) pgdir v.
Proof.
  intros ((_ & _ & Hnd & Hu) & _ & _ & Hus) [Hs0 _] Htab Hv. pose proof (Htab v Hv) as Hin.
  assert (v ∈ used ++ u) as Hin' by (apply elem_of_app; by left).
  apply Hu in Hin' as [?|(va & Hva & Hr & Hp & Heq)]; [done|]. specialize (Hus va Hva). case_decide.
  - destruct Hus as (_ & Hvu & _). rewrite <- Heq in Hvu. apply NoDup_app in Hnd as (_ & Hn & _). by destruct (Hn v Hin).
  - unfold upage in Heq. rewrite Hus in Heq, Hp. destruct (Hs0 va Hva Hr Hp) as (_ & Hn & _). unfold upage in Hn. by rewrite <- Heq in Hn.
Qed.

(** How many pages can have been taken. *)
Lemma grown_count m0 l0 s pgdir used u l lo a hi :
  grown m0 l0 s pgdir used u l lo a -> space_ok end_ m0 pgdir l0 0 KERNBASE -> 0 <= lo -> lo mod PGSIZE = 0 ->
  (forall va, va_ok va -> lo <= pbase va < a -> pbase va < hi) -> (length u <= 1025 + Z.to_nat ((hi - lo) / PGSIZE + 1))%nat.
Proof.
  intros ((_ & _ & Hnd & Hu) & _ & Hsub & Hus) [Hs0 _] Hlo Hal Hhi. apply NoDup_app in Hnd as (_ & _ & Hnd).
  apply (pages_count (kmemory s) pgdir); [done|done|done|]. intros v Hv.
  assert (v ∈ used ++ u) as Hin by (apply elem_of_app; by right). apply Hu in Hin as [?|(va & Hva & Hr & Hp & Heq)]; [by left|].
  specialize (Hus va Hva). case_decide as Hd; [right; exists va; split; [done|]; split; [split; [lia|by apply Hhi]|done]|].
  exfalso. unfold upage in Heq. rewrite Hus in Heq, Hp. destruct (Hs0 va Hva Hr Hp) as (_ & _ & Hn). unfold upage in Hn. rewrite <- Heq in Hn.
  apply Hn, Hsub, elem_of_app. by left.
Qed.

(** Undoing it. *)
Lemma undo m0 l0 s pgdir used u l oldsz newsz a :
  grown m0 l0 s pgdir used u l (PGROUNDUP oldsz) a -> space_ok end_ m0 pgdir l0 0 KERNBASE ->
  0 <= oldsz < newsz -> newsz < KERNBASE ->
  (forall va, va_ok va -> PGROUNDUP oldsz <= pbase va < newsz -> ~ present (pte m0 pgdir va)) ->
  (forall va, va_ok va -> PGROUNDUP oldsz <= pbase va < a -> pbase va < newsz) ->
  wp (deallocuvm end_ pgdir newsz oldsz) s (fun _ s1 => exists freed,
    vm_ok s1 pgdir (freed ++ l) /\ freed ⊆ u /\ (forall v, v ∈ u -> v ∈ freed \/ pt_page (kmemory s1) pgdir v) /\
    (forall v, pt_page (kmemory s1) pgdir v <-> pt_page (kmemory s) pgdir v) /\ frame m0 (kmemory s1) pgdir l0 /\
    forall va, va_ok va -> if decide (PGROUNDUP oldsz <= pbase va < newsz) then ~ present (pte (kmemory s1) pgdir va)
                           else pte (kmemory s1) pgdir va = pte m0 pgdir va).
Proof.
  intros (Ho & Hfr & Hsub & Hus) [Hs0 _] Hold HK Habs Hle. destruct (pgroundup_spec oldsz) as [_ Hrd]; [lia|unfold KERNBASE, PGSIZE in *; lia|].
  pose proof Ho as (Hvm & Hsp & _ & Hu).
  eapply wp_mono; [apply (deallocuvm_spec end_ Hend s pgdir l oldsz newsz); [done| |lia|lia|lia]|].
  { eapply space_ok_sub; [| |exact Hsp]; lia. }
  intros r s1 (_ & freed & Hvm1 & Hf & Hpde & Hfr1 & Hpte).
  assert (freed ⊆ u) as Hfu.
  { intros v (va & Hva & Hr & Hp & ->)%Hf. specialize (Hus va Hva). destruct (decide (PGROUNDUP oldsz <= pbase va < a)); [apply Hus|].
    rewrite Hus in Hp. by destruct (Habs va Hva Hr). }
  exists freed. split; [done|]. split; [done|]. split; [|split; [|split]].
  - intros v Hv. rewrite (pt_page_ext (kmemory s)) by done. assert (v ∈ used ++ u) as Hin by (apply elem_of_app; by right).
    apply Hu in Hin as [?|(va & Hva & Hr & Hp & ->)]; [by right|].
    destruct (decide (PGROUNDUP oldsz <= pbase va < newsz)) as [Hin|Hin]; [left; apply Hf; by exists va|].
    specialize (Hus va Hva). rewrite decide_False in Hus by (intros ?; apply Hin; split; [lia|by apply Hle]).
    unfold upage in Hv. rewrite Hus in Hv, Hp. destruct (Hs0 va Hva Hr Hp) as (_ & _ & []). apply Hsub, elem_of_app. by left.
  - intros v. by rewrite (pt_page_ext (kmemory s)) by done.
  - eapply frame_trans; [exact Hfr|exact Hfr1|]. intros v Hv. apply Hsub. apply elem_of_app in Hv as [?%Hfu|?]; apply elem_of_app; tauto.
  - intros va Hva. destruct (Hpte va Hva) as [Hin Hout]. case_decide as Hr; [by apply Hin|]. rewrite Hout by done.
    specialize (Hus va Hva). rewrite decide_False in Hus by (intros ?; apply Hr; split; [lia|by apply Hle]). done.
Qed.

(** The outcomes of [allocuvm]; it fails only when there were not enough free pages for all
    possible tables and the new pages. *)
Definition alloc_outcome (m0 : mem) (pgdir : Z) (used l0 : list Z) (oldsz newsz r : Z) (s' : kmem) : Prop :=
  r = newsz /\ (exists u l, l0 = u ++ l /\ grown m0 l0 s' pgdir used u l (PGROUNDUP oldsz) newsz) \/
  r = 0 /\ (length l0 <= 1026 + Z.to_nat ((newsz - PGROUNDUP oldsz) / PGSIZE + 1))%nat /\
    exists l', vm_ok s' pgdir l' /\ l' ⊆ l0 /\ (forall v, v ∈ l0 -> v ∈ l' \/ pt_page (kmemory s') pgdir v) /\
    (forall v, pt_page m0 pgdir v -> pt_page (kmemory s') pgdir v) /\ frame m0 (kmemory s') pgdir l0 /\
    forall va, va_ok va -> if decide (PGROUNDUP oldsz <= pbase va < newsz) then ~ present (pte (kmemory s') pgdir va)
                           else pte (kmemory s') pgdir va = pte m0 pgdir va.

(** A page that is not part of the address space becomes free. *)
Lemma kfree_vm s pgdir l t :
  vm_ok s pgdir l -> page_ok t -> (t ∉ l) -> ~ pt_page (kmemory s) pgdir t ->
  wp (kfree_ end_ t) s (fun _ s' => vm_ok s' pgdir (t :: l) /\ frame (kmemory s) (kmemory s') pgdir (t :: l) /\
    (forall d, 0 <= d < 1024 -> pde (kmemory s') pgdir d = pde (kmemory s) pgdir d) /\
    forall va, va_ok va -> pte (kmemory s') pgdir va = pte (kmemory s) pgdir va).
Proof.
  intros [Hk Hpt] Ht Htl Hn. eapply wp_mono; [by apply (kfree_wp end_ Hend t s l)|]. intros [] s' [Hk' Hout].
  pose proof (pt_ok_cons end_ _ _ _ t Hpt Hn) as Hpt'.
  assert (untouched end_ (kmemory s) (kmemory s') (t :: l)) as Hun.
  { intros w Hw Hnw. apply Hout; [done|]. intros ->. apply Hnw, elem_of_cons. by left. }
  destruct (parent_same end_ _ _ _ _ Hpt' Hun) as [Hpde Hpte]. split; [split; [done|by apply (pt_ok_ext end_ (kmemory s))]|].
  split; [|done]. intros v Hv Hl Hnv. split; [by rewrite (pt_page_ext (kmemory s))|by apply Hun].
Qed.

Lemma allocuvm_loop_spec fuel m0 l0 pgdir used oldsz newsz : forall s u l a,
  l0 = u ++ l -> grown m0 l0 s pgdir used u l (PGROUNDUP oldsz) a -> space_ok end_ m0 pgdir l0 0 KERNBASE ->
  (forall v, pt_page m0 pgdir v -> v ∈ used) -> 0 <= oldsz <= newsz -> newsz < KERNBASE ->
  (forall va, va_ok va -> PGROUNDUP oldsz <= pbase va < newsz -> ~ present (pte m0 pgdir va)) ->
  a mod PGSIZE = 0 -> PGROUNDUP oldsz <= a < newsz + PGSIZE -> newsz - a < PGSIZE * Z.of_nat fuel ->
  wp (allocuvm_loop end_ fuel pgdir a oldsz newsz) s (alloc_outcome m0 pgdir used l0 oldsz newsz).
Proof.
  induction fuel as [|fuel IH]; intros s u l a -> Hg Hs0 Htab Hold HK Habs Hal Ha Hf; cbn [allocuvm_loop].
  all: assert (forall va, va_ok va -> PGROUNDUP oldsz <= pbase va < a -> pbase va < newsz) as Hle
    by (intros va _ Hr; pose proof (aligned_lt (pbase va) a (pbase_mod va) Hal); lia).
  all: assert (newsz <= a -> wp (mret newsz) s (alloc_outcome m0 pgdir used (u ++ l) oldsz newsz)) as Hdone;
    [intros Hge; apply wp_ret; left; split; [done|]; exists u, l; split; [done|]; destruct Hg as (Ho & Hfr & Hsub & Hus);
     split; [done|]; split; [done|]; split; [done|]; intros va Hva; specialize (Hus va Hva); specialize (Hle va Hva);
     destruct (decide (PGROUNDUP oldsz <= pbase va < a)); [rewrite decide_True by lia|rewrite decide_False by lia]; done|].
  { apply Hdone. unfold PGSIZE in *. lia. }
  destruct (Z.ltb_spec a newsz) as [Hlt|Hge]; [|by apply Hdone]. clear Hdone.
  destruct (pgroundup_spec oldsz) as [Hral Hrd]; [lia|unfold KERNBASE, PGSIZE in *; lia|].
  assert (va_ok a) as Hva by (unfold va_ok, KERNBASE in *; lia). pose proof (pbase_aligned a Hal) as Hba.
  pose proof Hg as (Ho & Hfr & Hsub & Hus). apply wp_bind. destruct l as [|t l].
  { unfold wp at 1, kalloc_. rewrite (kalloc_empty end_) by apply Ho. cbn [Z.eqb]. apply wp_bind.
    eapply wp_mono; [by apply (undo m0 (u ++ []) s pgdir used u [] oldsz newsz a); [..|lia|done|done|done]|].
    intros r s1 (freed & Hvm & Hfu & Huf & Hpt & Hfr1 & Hp1). assert (forall v, pt_page m0 pgdir v -> pt_page (kmemory s1) pgdir v) as Hpt1
      by (intros v Hv; by eapply Hpt, grown_tables). pose proof (grown_count _ _ _ _ _ _ _ _ _ newsz Hg Hs0 ltac:(lia) Hral Hle).
    rewrite app_nil_r in *. apply wp_ret. right. split; [done|]. split; [lia|]. by exists freed. }
  destruct (kalloc_cons end_ Hend s t l) as [Hrun Ht0]; [apply Ho|]. eapply wp_eq; [exact Hrun|]. rewrite (proj2 (Z.eqb_neq t 0)) by done.
  apply wp_bind, wp_modify. cbn [kmemory freelist]. set (s1 := mkkmem (memset _ _ _ _) _).
  assert (page_ok t) as Ht by (destruct Ho as ((( _ & _ & [? _]%Forall_cons) & _) & _); done).
  destruct (clear_page (kmemory s) t Ht) as [Hfill _].
  destruct (owns_take end_ Hend s pgdir (used ++ u) t l _ Ho Hfill) as (Ho1 & _ & Htu & Htl & Hpte1). fold s1 in Ho1.
  destruct (page_P2V end_ ltac:(lia) t Ht) as (_ & Htr & _).
  apply wp_bind. eapply wp_mono; [apply (mappages_spec end_ ltac:(lia) 1 s1 pgdir l a (V2P t) (Z.lor PTE_W PTE_U)); [apply Ho1|lia|]|].
  { change (PGSIZE * Z.of_nat 1) with PGSIZE. unfold KERNBASE, PHYSTOP in *. split; [done|]. split; [lia|].
    split; [unfold PGSIZE; lia|]. split; [lia|]. split; [unfold PGSIZE; lia|]. split; [done|]. intros va Hva'.
    assert (va_ok va) as Hvok by (unfold va_ok, PGSIZE in *; lia). cbn [kmemory s1]. rewrite Hpte1 by done.
    assert (a <= pbase va) by (apply pbase_ge; [done|lia]). pose proof (pbase_bounds va). specialize (Hus va Hvok).
    rewrite decide_False in Hus by lia. rewrite Hus. apply Habs; [done|]. rewrite (proj1 (pbase_same a va)), Hba in *; [lia..|].
    apply pbase_next; [done|lia]. }
  intros r s2 (l' & k & Hm & Hr). destruct Hr as [[-> ->]|(-> & -> & Hk)]; cbn [Z.ltb Z.compare].
  - destruct (grown_next m0 _ s s2 pgdir used u t l l' _ a Hg ltac:(lia) Hal ltac:(lia) ltac:(apply Habs; [done|lia]) Hm) as (u' & E & Hg').
    rewrite E in *. apply (IH s2 (u ++ u') l'); [by rewrite <- app_assoc|done|done|done|done|done|done|by rewrite Z.add_mod, Hal|unfold PGSIZE in *; lia..].
  - assert (k = 0%nat) as -> by lia. destruct (grown_fails m0 _ s s2 pgdir used u t l _ a _ _ Hg ltac:(lia) Hm) as (Hg2 & _ & Htn).
    apply wp_bind. eapply wp_mono; [by apply (undo m0 _ s2 pgdir used (u ++ l) [] oldsz newsz a Hg2); [|lia|..]|].
    intros r s3 (freed & Hvm3 & Hfu & Huf & Hpt & Hfr3 & Hp3). rewrite app_nil_r in Hvm3.
    assert (t ∉ u ++ l) as Htul by (rewrite elem_of_app in Htn; tauto).
    apply wp_bind. eapply wp_mono; [apply (kfree_vm s3 pgdir freed t Hvm3 Ht)|].
    + intros H%Hfu. done.
    + intros H%Hpt. destruct Hg2 as ((_ & _ & _ & Hu2) & _). apply Htn, Hu2. by left.
    + intros [] s4 (Hvm4 & Hfr4 & Hpde4 & Hp4). pose proof (grown_count _ _ _ _ _ _ _ _ _ newsz Hg2 Hs0 ltac:(lia) Hral Hle) as Hc.
      rewrite length_app in Hc. apply wp_ret. right. split; [done|]. split; [rewrite length_app; cbn [length]; lia|]. exists (t :: freed). split; [done|].
      assert (t :: freed ⊆ u ++ t :: l) as Hsub4.
      { intros v [->|Hv%Hfu]%elem_of_cons; rewrite elem_of_app, elem_of_cons; [tauto|]. rewrite elem_of_app in Hv. tauto. }
      split; [done|]. split; [|rewrite (assoc (∧)); split].
      * intros v Hv. rewrite (pt_page_ext (kmemory s3)) by done. rewrite elem_of_cons.
        destruct (decide (v = t)) as [->|Hne]; [by left; left|]. destruct (Huf v) as [?|?]; [|tauto|tauto].
        rewrite elem_of_app, elem_of_cons in Hv. rewrite elem_of_app. tauto.
      * split; [|eapply frame_trans; [exact Hfr3|exact Hfr4|done]]. intros v Hv. rewrite (pt_page_ext (kmemory s3)) by done.
        by eapply Hpt, grown_tables.
      * intros va Hva'. rewrite Hp4 by done. by apply Hp3.
Qed.

Lemma allocuvm_spec s pgdir used l0 oldsz newsz :
  owns s pgdir used l0 -> 0 <= oldsz ->
  (forall va, va_ok va -> PGROUNDUP oldsz <= pbase va < newsz -> ~ present (pte (kmemory s) pgdir va)) ->
  wp (allocuvm end_ pgdir oldsz newsz) s (fun r s' =>
    if KERNBASE <=? newsz then r = 0 /\ s' = s
    else if newsz <? oldsz then r = oldsz /\ s' = s
    else alloc_outcome (kmemory s) pgdir used l0 oldsz newsz r s').
Proof.
  intros Ho H0 Habs. unfold allocuvm. destruct (Z.leb_spec KERNBASE newsz) as [?|HK]; [by apply wp_ret|].
  destruct (Z.ltb_spec newsz oldsz) as [?|Hle]; [by apply wp_ret|].
  destruct (pgroundup_spec oldsz) as [Hal Hrd]; [lia|unfold KERNBASE, PGSIZE in *; lia|].
  eapply (allocuvm_loop_spec _ _ l0 _ used _ _ s [] l0); [done| |apply Ho| |lia|done|done|done|lia|].
  - split; [by rewrite app_nil_r|]. split; [apply frame_refl|]. split; [done|]. intros va _. rewrite decide_False by lia. done.
  - intros v Hv. apply Ho. by left.
  - pose proof (Z.mul_succ_div_gt (newsz - PGROUNDUP oldsz) PGSIZE ltac:(done)).
    assert (-1 <= (newsz - PGROUNDUP oldsz) / PGSIZE) by (apply Z.div_le_lower_bound; [done|lia]). unfold PGSIZE in *. lia.
Qed.

(** C27: [allocuvm] from any consistent state, with nothing mapped above the process: when it
    returns the new size, each page from the old size to the new is a page of zeros of its
    own, writable and for the user; when it returns 0, there was not memory for all possible
    tables and the new pages, none of them is mapped, and every page that was free is free again or has become a page table.  In both
    cases every other translation is as before, and so is every page that was neither free
    nor part of the page table. *)
Theorem allocuvm_grows s pgdir used l0 oldsz newsz :
  owns s pgdir used l0 -> 0 <= oldsz ->
  (forall va, va_ok va -> PGROUNDUP oldsz <= pbase va < newsz -> ~ present (pte (kmemory s) pgdir va)) ->
  wp (allocuvm end_ pgdir oldsz newsz) s (fun r s' =>
    if KERNBASE <=? newsz then r = 0 /\ s' = s
    else if newsz <? oldsz then r = oldsz /\ s' = s
    else alloc_outcome (kmemory s) pgdir used l0 oldsz newsz r s').
Proof. apply allocuvm_spec. Qed.

End Alloc.
Lemma small_owns : owns (pg 258) small (pg 301) [pg 301; pg 302; pg 303] [pg 304].
Proof.
  split; [exact small_ok|]. split; [exact small_space|]. split.
  - apply (bool_decide_eq_true_1 (NoDup [pg 301; pg 302; pg 303])). by vm_compute.
  - intros v. rewrite !elem_of_cons, elem_of_nil. unfold space_page. split.
    + intros [->|[->|[->|[]]]].
      * left. by left.
      * left. right. exists 0. split; [done|]. by vm_compute.
      * right. exists 0. unfold upage. rewrite small_pte by done. split; [done|]. by vm_compute.
    + intros [[->|(d & Hd & Hp & <-)]|(va & Hva & _ & Hp & ->)]; [by left| |].
      * rewrite small_pde in Hp by done. case_decide; [subst d|done]. right. left. by vm_compute.
      * right. right. left. by destruct (small_present va Hva Hp) as [_ ->].
Qed.

Lemma allocuvm_grows_witness :
  wp (allocuvm (pg 258) (pg 301) PGSIZE (2 * PGSIZE)) small (fun r s' =>
    if KERNBASE <=? 2 * PGSIZE then r = 0 /\ s' = small
    else if 2 * PGSIZE <? PGSIZE then r = PGSIZE /\ s' = small
    else alloc_outcome (pg 258) (kmemory small) (pg 301) [pg 301; pg 302; pg 303] [pg 304] PGSIZE (2 * PGSIZE) r s').
Proof.
  apply (allocuvm_grows (pg 258) ltac:(reflexivity) small (pg 301) [pg 301; pg 302; pg 303] [pg 304] PGSIZE (2 * PGSIZE)).
  - exact small_owns.
  - discriminate.
  - intros va Hva Hr Hp. destruct (small_present va Hva Hp) as [H _]. change (PGROUNDUP PGSIZE) with PGSIZE in Hr.
    pose proof (pbase_bounds va). lia.
Defined.

End VmAlloc.
