(* ===== verification/Main.v ===== *)
(** * Starting the kernel (main.c)

    The page directory that entry.S and entryother.S run on, and [startothers], which starts
    the other processors.  The state is the memory, the devices
    and the free list; that another processor has reached [mpmain] is seen in [started],
    which is read from the device side of the state, [ApOps].  [startothers] also gives, for
    each processor, what that finds in memory when it starts, for its theorem.

    Shown: the first page directory maps the first 4 MB of physical memory at 0 and at
    KERNBASE and nothing else; [startothers] starts each of the other processors once, in
    order, with the code at 0x7000 and a stack of its own. *)

From S2P Require Export Apic VmCopy.
Local Open Scope Z_scope.

(** Reading [c->started] of the processor with an APIC id. *)
Class ApOps (D : Type) : Type := { ap_started : Z -> D -> bool * D }.

Module Main.
Import CString Words Kalloc Vm VmSpec VmSpace VmCopy Lapic.

(** ** entrypgdir *)

Definition PTE_PS : Z := 128.  (* 0x080 *)
Definition PDXSHIFT : Z := 22.
Definition entrypgdir (i : Z) : Z :=
  if i =? 0 then Z.lor (Z.lor (Z.lor 0 PTE_P) PTE_W) PTE_PS
  else if i =? Z.shiftr KERNBASE PDXSHIFT then Z.lor (Z.lor (Z.lor 0 PTE_P) PTE_W) PTE_PS
  else 0.

(** What the CPU makes of an entry that is a 4 MB page. *)
Definition big_page (e va : Z) : option Z :=
  if (truthy (Z.land e PTE_P) && truthy (Z.land e PTE_PS))%bool
  then Some (e / 2 ^ 22 * 2 ^ 22 + va mod 2 ^ 22) else None.

(** In the page directory of the start, the first 4 MB of physical memory are at 0 and at
    KERNBASE, and no other address is mapped. *)
Theorem entrypgdir_maps va :
  0 <= va < 2 ^ 32 ->
  big_page (entrypgdir (PDX va)) va =
    if decide (va < 4194304) then Some va
    else if decide (KERNBASE <= va < KERNBASE + 4194304) then Some (va - KERNBASE) else None.
Proof.
  intros Hva. destruct (PDX_spec va Hva) as [-> Hr]. unfold entrypgdir. change (Z.shiftr KERNBASE PDXSHIFT) with 512.
  pose proof (Z.div_mod va (2 ^ 22) ltac:(done)) as Hd. pose proof (Z.mod_pos_bound va (2 ^ 22) ltac:(done)) as Hm.
  change (2 ^ 22) with 4194304 in *. unfold KERNBASE.
  destruct (Z.eqb_spec (va / 4194304) 0) as [E|E]; [|destruct (Z.eqb_spec (va / 4194304) 512) as [E'|E']].
  - rewrite decide_True by lia. unfold big_page. change (truthy _ && truthy _)%bool with true. cbv iota. change (2 ^ 22) with 4194304.
    f_equal. change (_ / 4194304 * 4194304) with 0. lia.
  - rewrite decide_False, decide_True by lia. unfold big_page. change (truthy _ && truthy _)%bool with true. cbv iota.
    change (2 ^ 22) with 4194304. f_equal. change (_ / 4194304 * 4194304) with 0. lia.
  - rewrite !decide_False by lia. done.
Qed.

(** ** startothers *)

Section Others.
Context {D : Type} `{!MmioOps D} `{!PortOps D} `{!ApOps D} (lapic mpenter entrypgdir_addr : Z) (polls : nat).

Record st : Type := mkst { s_dev : D; s_mem : kmem }.
Definition get_env (s : st) : env D := mkenv (s_dev s) (kmemory (s_mem s)).
Definition put_env (e : env D) (s : st) : st := mkst (dev e) (mkkmem (ram e) (freelist (s_mem s))).
Definition put_mem (m : kmem) (s : st) : st := mkst (s_dev s) m.

Definition code : Z := P2V 28672.  (* 0x7000 *)

(** [while(c->started == 0);] *)
Fixpoint wait_started (n : nat) (apicid : Z) : K st unit :=
  match n with
  | O => sleep_on (ChSpin 0)
  | S n => fun s => let '(b, d) := ap_started apicid (s_dev s) in
      let s := mkst d (s_mem s) in if (b : bool) then Ret tt s else wait_started n apicid s
  end.

(** What entryother.S finds below its code: the stack, the function to call, the page directory. *)
Definition seen (s : st) : Z * Z * Z :=
  (load32 (kmemory (s_mem s)) (code - 4), load32 (kmemory (s_mem s)) (code - 8), load32 (kmemory (s_mem s)) (code - 12)).

Fixpoint start_loop (me : nat) (i : nat) (cpus : list Z) : K st (list (Z * (Z * Z * Z))) :=
  match cpus with
  | [] => mret []
  | apicid :: cpus =>
      if (i =? me)%nat then start_loop me (S i) cpus  (* We've started already. *)
      else
        stack ← zoom s_mem put_mem kalloc_;
        zoom s_mem put_mem (store (code - 4) (stack +u 4096));;
        zoom s_mem put_mem (store (code - 8) mpenter);;
        zoom s_mem put_mem (store (code - 12) (V2P entrypgdir_addr));;
        zoom get_env put_env (lapicstartap lapic apicid (V2P code));;
        w ← gets seen;
        wait_started polls apicid;;
        l ← start_loop me (S i) cpus;
        mret ((apicid, w) :: l)
  end.

(** [entryother] is the program linked into the kernel. *)
Definition startothers (entryother : list Z) (me : nat) (cpus : list Z) : K st (list (Z * (Z * Z * Z))) :=
  zoom s_mem put_mem (memmove_in code entryother);;
  start_loop me 0 cpus.

End Others.
Arguments st D : clear implicits.

End Main.

(** Reading [started] until it is set. *)
Fixpoint poll {D} `{!ApOps D} (n : nat) (apicid : Z) (d : D) : option D :=
  match n with
  | O => None
  | S n => let '(b, d') := ap_started apicid d in if (b : bool) then Some d' else poll n apicid d'
  end.

(** A processor that has been sent STARTUP with the page 7 comes up. *)
Class ApLaws (D : Type) `{!MmioOps D} `{!PortOps D} `{!ApOps D} (lapic : Z) (lpolls : nat) `{!LapicLaws D lapic lpolls} (polls : nat) : Type :=
  ap_up : forall (apicid : Z) (d : D), (apicid * 2 ^ 24, Z.lor Lapic.STARTUP 7) ∈ la_sent d ->
    exists d', poll polls apicid d = Some d' /\ la_sent d' = la_sent d.

Module MainSpec.
Import CString Words Kalloc Vm VmSpec VmSpace VmCopy Lapic Main.

Section Spec.
Context {D : Type} `{!MmioOps D} `{!PortOps D} `{!ApOps D} (lapic mpenter entrypgdir_addr : Z) (lpolls polls : nat)
  `{!LapicLaws D lapic lpolls} `{!ApLaws D lapic lpolls polls}.
Context (end_ : Z) (Hend : KERNBASE + EXTMEM <= end_) (Hmp : 0 <= mpenter < 2 ^ 32).
Implicit Types s : st D.

(** The processors other than number [me]. *)
Fixpoint others (me i : nat) (cpus : list Z) : list Z :=
  match cpus with
  | [] => []
  | a :: cpus => if (i =? me)%nat then others me (S i) cpus else a :: others me (S i) cpus
  end.

Definition ipis (apicid : Z) : list (Z * Z) :=
  pair (apicid * 2 ^ 24) <$> [Z.lor (Z.lor INIT LEVEL) ASSERT; Z.lor INIT LEVEL; Z.lor STARTUP 7; Z.lor STARTUP 7].

(** The free list is above the kernel. *)
Lemma kmem_low (k : kmem) m' l :
  kmem_ok end_ k l -> (forall x, end_ <= x -> m' x = kmemory k x) -> kmem_ok end_ (mkkmem m' (freelist k)) l.
Proof.
  intros Hk He. apply kmem_ok_ext; [done|]. intros v Hv x Hx. apply He. destruct Hk as (_ & _ & Hok). rewrite Forall_forall in Hok.
  destruct (Hok v Hv) as [_ ?]. lia.
Qed.

Lemma wait_started_wp n apicid s (Q : unit -> st D -> Prop) :
  (exists d', poll n apicid (s_dev s) = Some d' /\ Q tt (mkst d' (s_mem s))) -> wp (wait_started n apicid) s Q.
Proof.
  revert s. induction n as [|n IH]; intros s (d' & Hp & HQ); cbn [poll] in Hp; [done|]. cbn [wait_started]. unfold wp.
  destruct (ap_started apicid (s_dev s)) as [b d]. destruct b; [by injection Hp as <-|]. apply (IH (mkst d (s_mem s))). by exists d'.
Qed.

(** The bytes of [entryother] are at [code], and the words below them are in order. *)
Definition code_at (m : mem) (entryother : list Z) : Prop :=
  forall i b, entryother !! i = Some b -> m (code + Z.of_nat i) = b.

Lemma code_val : code = 2147512320.
Proof. reflexivity. Qed.

(** One processor. *)
Lemma start_one {A} apicid stack s (k : Z * Z * Z -> K (st D) A) (Q : A -> st D -> Prop) :
  0 <= apicid < 256 -> 0 <= stack < 2 ^ 32 - 4096 ->
  (forall s', la_sent (s_dev s') = la_sent (s_dev s) ++ ipis apicid -> freelist (s_mem s') = freelist (s_mem s) ->
     (forall x, code <= x -> kmemory (s_mem s') x = kmemory (s_mem s) x) ->
     wp (k (stack + 4096, mpenter, u32 (V2P entrypgdir_addr))) s' Q) ->
  wp (zoom s_mem put_mem (store (code - 4) (stack +u 4096));;
      zoom s_mem put_mem (store (code - 8) mpenter);;
      zoom s_mem put_mem (store (code - 12) (V2P entrypgdir_addr));;
      zoom get_env put_env (lapicstartap lapic apicid (V2P code));;
      w ← gets seen;
      wait_started polls apicid;;
      k w) s Q.
Proof.
  intros Ha Hst HQ. do 3 (apply wp_bind, wp_zoom, wp_modify). apply wp_bind, wp_zoom.
  eapply wp_mono; [apply (LapicSpec.lapicstartap_starts lapic lpolls apicid (V2P code)); [done|by rewrite code_val]|].
  change (V2P code / 4096) with 7. intros [] e [Hsent Hram]. cbn [get_env put_mem s_dev s_mem kmemory freelist dev ram] in Hsent, Hram.
  apply wp_bind, wp_gets, wp_bind, wait_started_wp. cbn [put_env put_mem s_dev s_mem freelist].
  destruct (ap_up apicid (dev e)) as (d' & Hp & Hs').
  { rewrite Hsent. apply elem_of_app. right. do 2 (apply elem_of_cons; right). apply elem_of_cons. by left. }
  exists d'. split; [exact Hp|]. unfold seen. cbn [put_env s_mem kmemory]. rewrite Hram.
  assert (forall m x v, x <> P2V 1127 -> x <> P2V 1127 + 1 -> poke16 m (P2V 1127) v x = m x) as P1 by (intros m x v H1 H2; unfold poke16; by rewrite !poke_ne).
  assert (forall m x v, x <> P2V 1127 + 2 -> x <> P2V 1127 + 3 -> poke16 m (P2V 1127 + 2) v x = m x) as P2
    by (intros m x v H1 H2; unfold poke16; by rewrite !poke_ne by lia).
  change (P2V 1127) with 2147484775 in *.
  assert (forall m x, code - 12 <= x -> poke16 (poke16 m 2147484775 0) (2147484775 + 2) (u16 (V2P code / 16)) x = m x) as P3
    by (intros m x Hx; rewrite code_val in Hx; rewrite P2, P1 by lia; done).
  assert (forall m a, code - 12 <= a -> load32 (poke16 (poke16 m 2147484775 0) (2147484775 + 2) (u16 (V2P code / 16))) a = load32 m a) as P4
    by (intros m a Hx; apply load_ext; intros x Hx'; apply P3; lia).
  match goal with |- wp (k ?w) _ _ => replace w with (stack + 4096, mpenter, u32 (V2P entrypgdir_addr)) end.
  - apply HQ; cbn [s_dev s_mem freelist kmemory]; [by rewrite Hs', Hsent|done|]. intros x Hx. rewrite P3 by lia.
    rewrite !poke32_out by lia. done.
  - symmetry. rewrite !P4 by lia. rewrite (load_poke_ne _ (code - 12) (code - 4)), (load_poke_ne _ (code - 8) (code - 4)), load_poke_same by lia.
    rewrite (load_poke_ne _ (code - 12) (code - 8)), load_poke_same, load_poke_same by lia. rewrite !(u32_small (stack + 4096)) by lia.
    rewrite !u32_small by lia. done.
Qed.

Lemma start_loop_wp me cpus : forall i s l (Q : list (Z * (Z * Z * Z)) -> st D -> Prop),
  kmem_ok end_ (s_mem s) l -> (length (others me i cpus) <= length l)%nat -> Forall (fun a => 0 <= a < 256) cpus ->
  (forall s', la_sent (s_dev s') = la_sent (s_dev s) ++ concat (map ipis (others me i cpus)) ->
     kmem_ok end_ (s_mem s') (drop (length (others me i cpus)) l) ->
     (forall x, code <= x -> kmemory (s_mem s') x = kmemory (s_mem s) x) ->
     Q (zip_with (fun a p => (a, (p + 4096, mpenter, u32 (V2P entrypgdir_addr)))) (others me i cpus) l) s') ->
  wp (start_loop lapic mpenter entrypgdir_addr polls me i cpus) s Q.
Proof.
  induction cpus as [|a cpus IH]; intros i s l Q Hk Hl HF HQ; cbn [start_loop others] in *.
  { apply wp_ret. apply HQ; [by rewrite app_nil_r|done|done]. }
  apply Forall_cons in HF as [Ha HF]. destruct (i =? me)%nat; [by apply (IH (S i) s l)|]. cbn [length] in Hl.
  destruct l as [|p l]; [cbn in Hl; lia|]. assert (KERNBASE < end_) as Hend' by (unfold KERNBASE, EXTMEM in *; lia).
  destruct (kalloc_cons end_ Hend' (s_mem s) p l Hk) as [Hrun Hp0]. pose proof Hk as (Hc & Hnd & Hok).
  apply Forall_cons in Hok as [Hp Hok]. apply NoDup_cons in Hnd as [_ Hnd]. destruct Hc as [_ Hc].
  apply wp_bind, wp_zoom. eapply wp_eq; [exact Hrun|].
  assert (0 <= p < 2 ^ 32 - 4096) as Hpr by (destruct Hp as [_ ?]; unfold KERNBASE, PHYSTOP, EXTMEM in *; lia).
  apply start_one; [done|done|]. intros s1 Hs1 Hf1 Hm1. cbn [put_mem s_dev s_mem freelist kmemory] in Hs1, Hf1, Hm1. apply wp_bind.
  apply (IH (S i) s1 l); [|cbn in Hl; lia|done|].
  - destruct s1 as [d1 [m1 f1]]. cbn [s_mem freelist kmemory] in *. subst f1.
    apply (kmem_low (mkkmem (kmemory (s_mem s)) (load32 (kmemory (s_mem s)) p)) m1 l); [by split_and!|].
    intros x Hx. apply Hm1. rewrite code_val. unfold KERNBASE, EXTMEM in *. lia.
  - intros s2 Hs2 Hk2 Hm2. apply wp_ret. cbn [length map concat zip_with drop] in *. apply HQ; [|done|].
    + rewrite Hs2, Hs1. by rewrite <- app_assoc.
    + intros x Hx. by rewrite Hm2, Hm1.
Qed.

(** C32: [startothers], on a machine where a processor that is sent STARTUP comes up, starts the
    processors other than its own, in order, each with INIT, its end and twice STARTUP at
    0x7000, where the code is; each finds a stack of its own, the top of a page that was free,
    and [mpenter] and the page directory below the code; and the pages taken for the stacks are
    not free any more. *)
Theorem startothers_starts entryother me cpus s l :
  kmem_ok end_ (s_mem s) l -> (length (others me 0 cpus) <= length l)%nat -> Forall (fun a => 0 <= a < 256) cpus ->
  Z.of_nat (length entryother) <= 4096 ->
  wp (startothers lapic mpenter entrypgdir_addr polls entryother me cpus) s (fun r s' =>
    r = zip_with (fun a p => (a, (p + 4096, mpenter, u32 (V2P entrypgdir_addr)))) (others me 0 cpus) l /\
    la_sent (s_dev s') = la_sent (s_dev s) ++ concat (map ipis (others me 0 cpus)) /\
    kmem_ok end_ (s_mem s') (drop (length (others me 0 cpus)) l) /\ code_at (kmemory (s_mem s')) entryother).
Proof.
  intros Hk Hl HF He. apply wp_bind, wp_zoom, wp_modify. apply (start_loop_wp me cpus 0 _ l); [|done|done|].
  - cbn [put_mem s_mem]. apply kmem_low; [done|]. intros x Hx. rewrite write_bytes_spec, code_val, decide_False; [done|].
    unfold KERNBASE, EXTMEM in *. lia.
  - cbn [put_mem s_dev s_mem kmemory]. intros s' Hs' Hk' Hm'. split; [done|]. split; [done|]. split; [done|].
    intros i b Hb. rewrite Hm' by lia. rewrite write_bytes_spec. apply lookup_lt_Some in Hb as Hi. rewrite decide_True by lia.
    replace (Z.to_nat (code + Z.of_nat i - code)) with i by lia. by apply list_lookup_total_correct.
Qed.

End Spec.
End MainSpec.

(** ** A board whose processors come up *)

Module MainExample.
Import CString Words Kalloc Vm VmSpec VmSpace VmCopy Lapic Main MainSpec Board.

(** A processor is up when it has been sent STARTUP. *)
#[export] Instance BoardAp : ApOps board :=
  {| ap_started := fun apicid b => (bool_decide ((apicid * 2 ^ 24, Z.lor STARTUP 7) ∈ la_ipis b), b) |}.
#[export] Instance BoardUp : ApLaws board LAPIC 3 1.
Proof. intros apicid d Hin. exists d. cbn [poll ap_started BoardAp]. change (la_ipis d) with (la_sent d) in *. by rewrite bool_decide_eq_true_2. Defined.

Definition boot_state : st board := mkst board0 small.

Lemma startothers_starts_witness :
  wp (startothers LAPIC 2148532224 2148540416 1 [250; 49; 192] 0 [0; 1]) boot_state (fun r s' =>
    r = [(1, (pg 304 + 4096, 2148532224, 1056768))] /\
    la_sent (s_dev s') = la_sent board0 ++ concat (map ipis [1]) /\
    kmem_ok (pg 258) (s_mem s') [] /\ code_at (kmemory (s_mem s')) [250; 49; 192]).
Proof.
  apply (startothers_starts LAPIC 2148532224 2148540416 3 1 (pg 258) ltac:(discriminate) ltac:(split; [discriminate|reflexivity])
    [250; 49; 192] 0 [0; 1] boot_state [pg 304]).
  - apply small_ok.
  - apply Nat.leb_le. reflexivity.
  - repeat constructor; discriminate || reflexivity.
  - discriminate.
Defined.

End MainExample.
