(* ===== verification/Fs.v ===== *)
(** * The file system (fs.c)

    The layers of fs.c over the log: the block allocator, inodes and their cache, file
    contents, directories and path names.

    The block layer below ([bread], the data of a buffer, [log_write], [brelse]) is the
    interface [BlockOps], with the laws [BlockLaws] of FsSpec.v; the log over the
    buffer cache is its implementation.  A pointer into [icache.inode] is an index.
    The tables [devsw] of device functions, and the current directory, are arguments. *)

From S2P Require Export CString Layout.
Local Open Scope Z_scope.

Definition NINODE : nat := 50.
Definition NDEV : Z := 10.
Definition T_DIR : Z := 1.
Definition T_FILE : Z := 2.
Definition T_DEV : Z := 3.

(** What fs.c uses of the layers below; a buffer is named by its index. *)
Class BlockOps (B : Type) : Type := {
  bl_bread : Z -> Z -> K B nat;
  bl_data : nat -> K B block;
  bl_set_data : nat -> block -> K B unit;
  bl_log_write : nat -> K B unit;
  bl_brelse : nat -> K B unit
}.

Module Fs.
Import CString Layout.

(** in-memory copy of an inode *)
Record inode : Type := mkinode {
  i_dev : Z; i_inum : Z;
  i_ref : Z;         (* Reference count *)
  i_locked : bool;   (* lock.locked *)
  i_valid : bool;    (* inode has been read from disk? *)
  i_type : Z; i_major : Z; i_minor : Z; i_nlink : Z;
  i_size : Z; i_addrs : list Z
}.

Record fs (B : Type) : Type := mkfs { blk : B; sb : superblock; icache : list inode }.
Arguments mkfs {B} blk sb icache.
Arguments blk {B} f.
Arguments sb {B} f.
Arguments icache {B} f.

Definition set_ref (r : Z) (x : inode) : inode :=
  mkinode (i_dev x) (i_inum x) r (i_locked x) (i_valid x) (i_type x) (i_major x) (i_minor x) (i_nlink x) (i_size x) (i_addrs x).
Definition set_lock (l : bool) (x : inode) : inode :=
  mkinode (i_dev x) (i_inum x) (i_ref x) l (i_valid x) (i_type x) (i_major x) (i_minor x) (i_nlink x) (i_size x) (i_addrs x).
Definition set_valid (v : bool) (x : inode) : inode :=
  mkinode (i_dev x) (i_inum x) (i_ref x) (i_locked x) v (i_type x) (i_major x) (i_minor x) (i_nlink x) (i_size x) (i_addrs x).
Definition set_type (t : Z) (x : inode) : inode :=
  mkinode (i_dev x) (i_inum x) (i_ref x) (i_locked x) (i_valid x) t (i_major x) (i_minor x) (i_nlink x) (i_size x) (i_addrs x).
Definition set_nlink (n : Z) (x : inode) : inode :=
  mkinode (i_dev x) (i_inum x) (i_ref x) (i_locked x) (i_valid x) (i_type x) (i_major x) (i_minor x) n (i_size x) (i_addrs x).
Definition set_dev_nos (maj min : Z) (x : inode) : inode :=
  mkinode (i_dev x) (i_inum x) (i_ref x) (i_locked x) (i_valid x) (i_type x) maj min (i_nlink x) (i_size x) (i_addrs x).
Definition set_size (n : Z) (x : inode) : inode :=
  mkinode (i_dev x) (i_inum x) (i_ref x) (i_locked x) (i_valid x) (i_type x) (i_major x) (i_minor x) (i_nlink x) n (i_addrs x).
Definition set_addr (i : nat) (a : Z) (x : inode) : inode :=
  mkinode (i_dev x) (i_inum x) (i_ref x) (i_locked x) (i_valid x) (i_type x) (i_major x) (i_minor x) (i_nlink x) (i_size x) (<[i := a]> (i_addrs x)).

(** The copies between [struct inode] and [struct dinode]. *)
Definition of_dinode (di : dinode) (x : inode) : inode :=
  mkinode (i_dev x) (i_inum x) (i_ref x) (i_locked x) (i_valid x)
    (d_type di) (d_major di) (d_minor di) (d_nlink di) (d_size di) (d_addrs di).
Definition to_dinode (x : inode) : dinode :=
  mkdinode (i_type x) (i_major x) (i_minor x) (i_nlink x) (i_size x) (i_addrs x).

Section Fs.
Context {B : Type} `{!BlockOps B}.

Definition F (A : Type) : Type := K (fs B) A.

Definition lift {A} (m : K B A) : F A := zoom blk (fun b s => mkfs b (sb s) (icache s)) m.
Definition bread (dev b : Z) : F nat := lift (bl_bread dev b).
Definition buf_data (i : nat) : F block := lift (bl_data i).
Definition set_buf (i : nat) (d : block) : F unit := lift (bl_set_data i d).
Definition log_write (i : nat) : F unit := lift (bl_log_write i).
Definition brelse (i : nat) : F unit := lift (bl_brelse i).

(** [ip->...] and the assignment to a field of it. *)
Definition inode_at (ip : nat) : F inode := fun s => arr_get (icache s) ip s.
Definition upd_inode (ip : nat) (f : inode -> inode) : F unit :=
  x ← inode_at ip; modify (fun s => mkfs (blk s) (sb s) (<[ip := f x]> (icache s))).

(** ** Blocks *)

Definition readsb (dev : Z) : F superblock :=
  bp ← bread dev 1; d ← buf_data bp; brelse bp;; mret (sb_dec d).
Definition load_sb (dev : Z) : F unit :=
  x ← readsb dev; modify (fun s => mkfs (blk s) x (icache s)).

Definition bzero (dev bno : Z) : F unit :=
  bp ← bread dev bno;
  set_buf bp (replicate 512 0);;
  log_write bp;;
  brelse bp.

Definition bit_of (bi : nat) : Z := Z.shiftl 1 (Z.of_nat (bi mod 8)).
Definition byte_of (d : list Z) (bi : nat) : Z := default 0 (d !! (bi / 8)%nat).
(** [bp->data[bi/8] |= m] and [bp->data[bi/8] &= ~m] *)
Definition mark (d : list Z) (bi : nat) : list Z := <[(bi / 8)%nat := Z.lor (byte_of d bi) (bit_of bi)]> d.
Definition unmark (d : list Z) (bi : nat) : list Z :=
  <[(bi / 8)%nat := Z.land (byte_of d bi) (Z.lnot (bit_of bi))]> d.

(** The inner loop of [balloc] over the [n] bits from [bi] on. *)
Fixpoint find_free (n bi : nat) (d : list Z) : option nat :=
  match n with
  | O => None
  | S n => if Z.land (byte_of d bi) (bit_of bi) =? 0 then Some bi else find_free n (S bi) d
  end.

Fixpoint balloc_loop (fuel : nat) (dev b : Z) : F Z :=
  s ← gets sb;
  if b <? sb_size s then
    match fuel with
    | O => panic "balloc: out of blocks"
    | S fuel =>
        bp ← bread dev (BBLOCK b s);
        d ← buf_data bp;
        match find_free (Z.to_nat (Z.min BPB (sb_size s - b))) 0 d with
        | Some bi =>
            set_buf bp (mark d bi);;  (* Mark block in use. *)
            log_write bp;;
            brelse bp;;
            bzero dev (b + Z.of_nat bi);;
            mret (b + Z.of_nat bi)
        | None => brelse bp;; balloc_loop fuel dev (b + BPB)
        end
    end
  else panic "balloc: out of blocks".

(** The outer loop runs once per block of the bitmap. *)
Definition balloc (dev : Z) : F Z :=
  s ← gets sb; balloc_loop (Z.to_nat (sb_size s / BPB + 1)) dev 0.

Definition bfree (dev b : Z) : F unit :=
  load_sb dev;;
  s ← gets sb;
  bp ← bread dev (BBLOCK b s);
  d ← buf_data bp;
  let bi := Z.to_nat (b mod BPB) in
  if Z.land (byte_of d bi) (bit_of bi) =? 0 then panic "freeing free block" else
  set_buf bp (unmark d bi);;
  log_write bp;;
  brelse bp.

(** ** Inodes *)

Definition iinit (dev : Z) : F unit := load_sb dev.

(** [iget]: the scan of the cache, for the entry or the first empty slot. *)
Fixpoint iget_scan (l : list inode) (i : nat) (empty : option nat) (dev inum : Z) : nat + option nat :=
  match l with
  | [] => inr empty
  | x :: l =>
      if ((0 <? i_ref x) && (i_dev x =? dev) && (i_inum x =? inum))%bool then inl i
      else iget_scan l (S i) (match empty with
                              | Some e => Some e
                              | None => if i_ref x =? 0 then Some i else None
                              end) dev inum
  end.

Definition iget (dev inum : Z) : F nat :=
  l ← gets icache;
  match iget_scan l 0 None dev inum with
  | inl ip => upd_inode ip (fun x => set_ref (i_ref x + 1) x);; mret ip
  | inr None => panic "iget: no inodes"
  | inr (Some ip) =>
      upd_inode ip (fun x => mkinode dev inum 1 (i_locked x) false (i_type x) (i_major x) (i_minor x)
                               (i_nlink x) (i_size x) (i_addrs x));;
      mret ip
  end.

(** [ialloc]: the loop over the inodes from [inum] on. *)
Fixpoint ialloc_loop (n : nat) (dev inum type : Z) : F nat :=
  match n with
  | O => panic "ialloc: no inodes"
  | S n =>
      s ← gets sb;
      bp ← bread dev (IBLOCK inum s);
      d ← buf_data bp;
      let off := dinode_off inum in
      if lds16 d off =? 0 then  (* a free inode *)
        set_buf bp (st16 (splice off (replicate 64 0) d) off type);;
        log_write bp;;  (* mark it allocated on the disk *)
        brelse bp;;
        iget dev inum
      else
        brelse bp;;
        ialloc_loop n dev (inum + 1) type
  end.
Definition ialloc (dev type : Z) : F nat :=
  s ← gets sb; ialloc_loop (Z.to_nat (sb_ninodes s - 1)) dev 1 type.

(** Copy a modified in-memory inode to disk. *)
Definition iupdate (ip : nat) : F unit :=
  x ← inode_at ip;
  s ← gets sb;
  bp ← bread (i_dev x) (IBLOCK (i_inum x) s);
  d ← buf_data bp;
  set_buf bp (store_dinode d (dinode_off (i_inum x)) (to_dinode x));;
  log_write bp;;
  brelse bp.

Definition idup (ip : nat) : F nat := upd_inode ip (fun x => set_ref (i_ref x + 1) x);; mret ip.

Definition ilock_sleep (ip : nat) : F unit :=
  x ← inode_at ip;
  if i_locked x then sleep_on (ChInode ip) else upd_inode ip (set_lock true).

Definition ilock (ip : option nat) : F unit :=
  match ip with
  | None => panic "ilock"
  | Some ip =>
      x ← inode_at ip;
      if i_ref x <? 1 then panic "ilock" else
      ilock_sleep ip;;
      x ← inode_at ip;
      if i_valid x then mret tt else
      s ← gets sb;
      bp ← bread (i_dev x) (IBLOCK (i_inum x) s);
      d ← buf_data bp;
      upd_inode ip (of_dinode (load_dinode d (dinode_off (i_inum x))));;
      brelse bp;;
      upd_inode ip (set_valid true);;
      x ← inode_at ip;
      if i_type x =? 0 then panic "ilock: no type" else mret tt
  end.

Definition iunlock (ip : option nat) : F unit :=
  match ip with
  | None => panic "iunlock"
  | Some ip =>
      x ← inode_at ip;
      if (negb (i_locked x) || (i_ref x <? 1))%bool then panic "iunlock" else
      upd_inode ip (set_lock false)
  end.

(** ** Inode content *)

(** Return the disk block address of the nth block in inode ip.
    If there is no such block, bmap allocates one. *)
Definition bmap (ip : nat) (bn : Z) : F Z :=
  x ← inode_at ip;
  if bn <? Z.of_nat NDIRECT then
    addr ← arr_get (i_addrs x) (Z.to_nat bn);
    if addr =? 0 then
      addr ← balloc (i_dev x);
      upd_inode ip (set_addr (Z.to_nat bn) addr);;
      mret addr
    else mret addr
  else
    let bn := bn - Z.of_nat NDIRECT in
    if bn <? Z.of_nat NINDIRECT then
      (* Load indirect block, allocating if necessary. *)
      a ← arr_get (i_addrs x) NDIRECT;
      ind ← (if a =? 0 then
               addr ← balloc (i_dev x); upd_inode ip (set_addr NDIRECT addr);; mret addr
             else mret a);
      bp ← bread (i_dev x) ind;
      d ← buf_data bp;
      let off := (4 * Z.to_nat bn)%nat in
      addr ← (if ld32 d off =? 0 then
                addr ← balloc (i_dev x);
                d ← buf_data bp;
                set_buf bp (st32 d off addr);;
                log_write bp;;
                mret addr
              else mret (ld32 d off));
      brelse bp;;
      mret addr
    else panic "bmap: out of range".

(** [itrunc]: the loop over the direct blocks, and that over the entries of the
    indirect block, which [bp] holds. *)
Fixpoint itrunc_direct (n i : nat) (ip : nat) : F unit :=
  match n with
  | O => mret tt
  | S n =>
      x ← inode_at ip;
      a ← arr_get (i_addrs x) i;
      (if truthy a then bfree (i_dev x) a;; upd_inode ip (set_addr i 0) else mret tt);;
      itrunc_direct n (S i) ip
  end.
Fixpoint itrunc_indirect (n j : nat) (dev : Z) (bp : nat) : F unit :=
  match n with
  | O => mret tt
  | S n =>
      d ← buf_data bp;
      (if truthy (ld32 d (4 * j)) then bfree dev (ld32 d (4 * j)) else mret tt);;
      itrunc_indirect n (S j) dev bp
  end.

Definition itrunc (ip : nat) : F unit :=
  itrunc_direct NDIRECT 0 ip;;
  x ← inode_at ip;
  a ← arr_get (i_addrs x) NDIRECT;
  (if truthy a then
     bp ← bread (i_dev x) a;
     itrunc_indirect NINDIRECT 0 (i_dev x) bp;;
     brelse bp;;
     bfree (i_dev x) a;;
     upd_inode ip (set_addr NDIRECT 0)
   else mret tt);;
  upd_inode ip (set_size 0);;
  iupdate ip.

(** Drop a reference to an in-memory inode; the last one of an inode without links
    frees it on disk. *)
Definition iput (ip : nat) : F unit :=
  ilock_sleep ip;;
  x ← inode_at ip;
  (if (i_valid x && (i_nlink x =? 0))%bool then
     if i_ref x =? 1 then
       itrunc ip;;
       upd_inode ip (set_type 0);;
       iupdate ip;;
       upd_inode ip (set_valid false)
     else mret tt
   else mret tt);;
  upd_inode ip (set_lock false);;
  upd_inode ip (fun x => set_ref (i_ref x - 1) x).

Definition iunlockput (ip : nat) : F unit := iunlock (Some ip);; iput ip.

Record stat : Type := mkstat { st_type : Z; st_dev : Z; st_ino : Z; st_nlink : Z; st_size : Z }.
Definition stati (ip : nat) : F stat :=
  x ← inode_at ip; mret (mkstat (i_type x) (i_dev x) (i_inum x) (i_nlink x) (i_size x)).

Section Devices.
(** [devsw[major].read] and [.write], where the device has them. *)
Context (devread : Z -> option (nat -> Z -> F (Z * list Z))).
Context (devwrite : Z -> option (nat -> list Z -> F Z)).

(** The loops of [readi] and [writei]; a round ends at a block boundary or is the last. *)
Fixpoint readi_loop (fuel : nat) (ip : nat) (tot off n : Z) (acc : list Z) : F (list Z) :=
  if tot <? n then
    match fuel with
    | O => mret acc
    | S fuel =>
        x ← inode_at ip;
        b ← bmap ip (off / 512);
        bp ← bread (i_dev x) b;
        d ← buf_data bp;
        let m := Z.min (n - tot) (512 - off mod 512) in
        let acc := acc ++ slice (Z.to_nat (off mod 512)) (Z.to_nat m) d in
        brelse bp;;
        readi_loop fuel ip (tot + m) (off + m) n acc
    end
  else mret acc.

(** Read data from inode: the result and the bytes at [dst]. *)
Definition readi (ip : nat) (off n : Z) : F (Z * list Z) :=
  x ← inode_at ip;
  if i_type x =? T_DEV then
    if ((i_major x <? 0) || (NDEV <=? i_major x))%bool then mret (-1, []) else
    match devread (i_major x) with
    | None => mret (-1, [])
    | Some f => f ip (s32 n)
    end
  else if ((i_size x <? off) || (off +u n <? off))%bool then mret (-1, [])
  else
    let n := if i_size x <? off +u n then i_size x - off else n in
    bs ← readi_loop (Z.to_nat (n / 512 + 2)) ip 0 off n [];
    mret (s32 n, bs).

Fixpoint writei_loop (fuel : nat) (ip : nat) (off : Z) (src : list Z) : F Z :=
  match src with
  | [] => mret off
  | _ =>
    match fuel with
    | O => mret off
    | S fuel =>
        x ← inode_at ip;
        b ← bmap ip (off / 512);
        bp ← bread (i_dev x) b;
        d ← buf_data bp;
        let m := Z.to_nat (Z.min (Z.of_nat (length src)) (512 - off mod 512)) in
        set_buf bp (splice (Z.to_nat (off mod 512)) (take m src) d);;
        log_write bp;;
        brelse bp;;
        writei_loop fuel ip (off + Z.of_nat m) (drop m src)
    end
  end.

(** Write the bytes [src] to inode at [off]. *)
Definition writei (ip : nat) (src : list Z) (off : Z) : F Z :=
  x ← inode_at ip;
  let n := Z.of_nat (length src) in
  if i_type x =? T_DEV then
    if ((i_major x <? 0) || (NDEV <=? i_major x))%bool then mret (-1) else
    match devwrite (i_major x) with
    | None => mret (-1)
    | Some f => f ip src
    end
  else if ((i_size x <? off) || (off +u n <? off))%bool then mret (-1)
  else if Z.of_nat (MAXFILE * BSIZE) <? off +u n then mret (-1)
  else
    off' ← writei_loop (Z.to_nat (n / 512 + 2)) ip off src;
    x ← inode_at ip;
    (if ((0 <? n) && (i_size x <? off'))%bool then upd_inode ip (set_size off');; iupdate ip else mret tt);;
    mret (s32 n).

(** ** Directories *)

(** The characters of an array, as a C string function sees them. *)
Definition chars (l : list Z) : nat -> Z := fun i => default 0 (l !! i).

Definition namecmp (s t : list Z) : Z := strncmp DIRSIZ (chars s) (chars t).

(** [struct dirent]: the inode number and the name, 16 bytes. *)
Definition de_inum (de : list Z) : Z := ld16 de 0.
Definition de_name (de : list Z) : list Z := slice 2 DIRSIZ de.

(** Look for a directory entry in a directory: the inode, and the offset of the entry. *)
Fixpoint dirlookup_loop (fuel : nat) (dp : nat) (name : list Z) (off : Z) : F (option (nat * Z)) :=
  x ← inode_at dp;
  if off <? i_size x then
    match fuel with
    | O => mret None
    | S fuel =>
        r ← readi dp off 16;
        let '(n, de) := (r : Z * list Z) in
        if negb (n =? 16) then panic "dirlookup read"
        else if de_inum de =? 0 then dirlookup_loop fuel dp name (off + 16)
        else if namecmp name (de_name de) =? 0 then
          ip ← iget (i_dev x) (de_inum de); mret (Some (ip, off))
        else dirlookup_loop fuel dp name (off + 16)
    end
  else mret None.
Definition dirlookup (dp : nat) (name : list Z) : F (option (nat * Z)) :=
  x ← inode_at dp;
  if negb (i_type x =? T_DIR) then panic "dirlookup not DIR" else
  dirlookup_loop (Z.to_nat (i_size x / 16 + 1)) dp name 0.

(** [dirlink]: the offset of the first empty entry, or the end. *)
Fixpoint dirlink_loop (fuel : nat) (dp : nat) (off : Z) : F Z :=
  x ← inode_at dp;
  if off <? i_size x then
    match fuel with
    | O => mret off
    | S fuel =>
        r ← readi dp off 16;
        let '(n, de) := (r : Z * list Z) in
        if negb (n =? 16) then panic "dirlink read"
        else if de_inum de =? 0 then mret off
        else dirlink_loop fuel dp (off + 16)
    end
  else mret off.

(** The bytes [strncpy] of string.c leaves in an array of [n]. *)
Fixpoint strncpy_bytes (n : nat) (t : list Z) : list Z :=
  match n with
  | O => []
  | S n =>
      let c := default 0 (t !! 0%nat) in
      c :: (if c =? 0 then replicate n 0 else strncpy_bytes n (drop 1 t))
  end.

(** Write a new directory entry (name, inum) into the directory dp. *)
Definition dirlink (dp : nat) (name : list Z) (inum : Z) : F Z :=
  r ← dirlookup dp name;
  match r with
  | Some (ip, _) => iput ip;; mret (-1)
  | None =>
      x ← inode_at dp;
      off ← dirlink_loop (Z.to_nat (i_size x / 16 + 1)) dp 0;
      n ← writei dp (le_enc 2 inum ++ strncpy_bytes DIRSIZ name) off;
      if negb (n =? 16) then panic "dirlink" else mret 0
  end.

(** ** Paths *)

Definition SLASH : Z := 47.

Fixpoint skip_slashes (path : list Z) : list Z :=
  match path with
  | c :: path' => if c =? SLASH then skip_slashes path' else path
  | [] => []
  end.
Fixpoint span_elem (path : list Z) : list Z * list Z :=
  match path with
  | c :: path' => if c =? SLASH then ([], path) else let '(s, r) := span_elem path' in (c :: s, r)
  | [] => ([], [])
  end.

(** Copy the next path element from path into name, an array of DIRSIZ bytes. *)
Definition skipelem (path name : list Z) : option (list Z * list Z) :=
  match skip_slashes path with
  | [] => None
  | path =>
      let '(s, rest) := span_elem path in
      let name := if (DIRSIZ <=? length s)%nat then splice 0 (take DIRSIZ s) name
                  else splice 0 (s ++ [0]) name in
      Some (skip_slashes rest, name)
  end.

(** The loop of [namex]: the inode, or 0, and [name]. *)
Fixpoint namex_loop (fuel : nat) (ip : nat) (path : list Z) (parent : bool) (name : list Z)
    : F (option nat * list Z) :=
  match skipelem path name with
  | None => if parent then iput ip;; mret (None, name) else mret (Some ip, name)
  | Some (path, name) =>
    match fuel with
    | O => mret (None, name)
    | S fuel =>
        ilock (Some ip);;
        x ← inode_at ip;
        if negb (i_type x =? T_DIR) then iunlockput ip;; mret (None, name)
        else if (parent && match path with [] => true | _ => false end)%bool then
          (* Stop one level early. *)
          iunlock (Some ip);; mret (Some ip, name)
        else
          next ← dirlookup ip name;
          match next with
          | None => iunlockput ip;; mret (None, name)
          | Some (next, _) => iunlockput ip;; namex_loop fuel next path parent name
          end
    end
  end.

(** Look up and return the inode for a path name; [cwd] is [myproc()->cwd]. *)
Definition namex (cwd : nat) (path : list Z) (parent : bool) (name : list Z) : F (option nat * list Z) :=
  ip ← (match path with
        | c :: _ => if c =? SLASH then iget ROOTDEV ROOTINO else idup cwd
        | [] => idup cwd
        end);
  namex_loop (length path) ip path parent name.

Definition namei (cwd : nat) (path : list Z) : F (option nat) :=
  r ← namex cwd path false (replicate DIRSIZ 0); mret (fst r).
Definition nameiparent (cwd : nat) (path name : list Z) : F (option nat * list Z) :=
  namex cwd path true name.

End Devices.
End Fs.
End Fs.
