(* ===== verification/FsSpec.v ===== *)
(** * The file system: block layer, block allocator, inodes on disk

    The laws of the block layer that the file system is proved against ([BlockLaws]);
    the bitmap as a set of used blocks, and what [balloc] and [bfree] do to it; the
    inodes on disk, and what [iupdate] and [ilock] do.  Nothing here depends on how
    the block layer is implemented: FsLog.v has the log as an instance of the laws. *)

From S2P Require Export Fs.
Local Open Scope Z_scope.

(** Where the log is; it is the block layer's own. *)
Record geom : Type := mkgeom { g_size : Z; g_logstart : Z; g_nlog : Z }.

(** The blocks fs.c may write. *)
Definition writable (g : geom) (c : Z) : Prop :=
  0 <= c < g_size g /\ c <> 1 /\ ~ (g_logstart g <= c < g_logstart g + g_nlog g).

(** How many blocks a transaction can write. *)
Definition bl_cap (g : geom) : Z := Z.min 29 (g_nlog g - 1).

Definition upd1 (v : Z -> block) (c : Z) (d : block) : Z -> block := fun b => if decide (b = c) then d else v b.

Lemma upd1_same v c d : upd1 v c d c = d.
Proof. unfold upd1. by rewrite decide_True. Qed.
Lemma upd1_ne v c d b : b <> c -> upd1 v c d b = v b.
Proof. intros. unfold upd1. by rewrite decide_False. Qed.

(** [bl_inv g b hs pend L v]: inside a transaction the blocks have the contents [v], as
    far as the kernel can see; [hs] are the buffers held, with their blocks; the blocks
    [pend] were changed and not given to [log_write], the blocks [L] were given to it. *)
Class BlockLaws (B : Type) `{!BlockOps B} : Type := {
  bl_inv : geom -> B -> list (nat * Z) -> list Z -> gset Z -> (Z -> block) -> Prop;
  bl_ok g b hs pend L v c : bl_inv g b hs pend L v -> 0 <= c < g_size g -> block_ok (v c);
  bl_bread_law g b hs pend L v c :
    bl_inv g b hs pend L v -> 0 <= c < g_size g -> (c ∉ hs.*2) ->
    Z.of_nat (length hs) + Z.of_nat (size L) <= bl_cap g ->
    wp (bl_bread 1 c) b (fun i b' => bl_inv g b' ((i, c) :: hs) pend L v);
  bl_data_law g b hs pend L v i c :
    bl_inv g b hs pend L v -> (i, c) ∈ hs -> wp (bl_data i) b (fun d b' => d = v c /\ b' = b);
  bl_set_law g b hs pend L v i c d :
    bl_inv g b hs pend L v -> (i, c) ∈ hs -> block_ok d ->
    wp (bl_set_data i d) b (fun _ b' => bl_inv g b' hs (c :: pend) L (upd1 v c d));
  bl_log_law g b hs pend L v i c :
    bl_inv g b hs pend L v -> (i, c) ∈ hs -> writable g c -> Z.of_nat (size L) < bl_cap g ->
    wp (bl_log_write i) b (fun _ b' =>
      bl_inv g b' hs (base.filter (fun x => x <> c) pend) ({[c]} ∪ L) v);
  bl_brelse_law g b hs pend L v i c :
    bl_inv g b ((i, c) :: hs) pend L v -> (c ∉ pend) ->
    wp (bl_brelse i) b (fun _ b' => bl_inv g b' hs pend L v)
}.

Module FsSpec.
Import CString Layout Fs.

Section Blocks.
Context {B : Type} `{!BlockOps B} `{!BlockLaws B} (g : geom).
Implicit Types (b : B) (S : superblock) (ic : list inode) (L : gset Z) (v : Z -> block) (hs : list (nat * Z)).

(** ** The calls of the block layer, on the state of the file system *)

Lemma wp_bread b S ic hs pend L v c (Q : nat -> fs B -> Prop) :
  bl_inv g b hs pend L v -> 0 <= c < g_size g -> (c ∉ hs.*2) ->
  Z.of_nat (length hs) + Z.of_nat (size L) <= bl_cap g ->
  (forall i b', bl_inv g b' ((i, c) :: hs) pend L v -> Q i (mkfs b' S ic)) ->
  wp (bread 1 c) (mkfs b S ic) Q.
Proof.
  intros Hb Hc Hn Hr HQ. apply wp_zoom. cbn. eapply wp_mono; [by eapply bl_bread_law|]. cbn. auto.
Qed.

Lemma wp_fs_data b S ic hs pend L v i c (Q : block -> fs B -> Prop) :
  bl_inv g b hs pend L v -> (i, c) ∈ hs -> Q (v c) (mkfs b S ic) -> wp (buf_data i) (mkfs b S ic) Q.
Proof.
  intros Hb Hi HQ. apply wp_zoom. cbn. eapply wp_mono; [by eapply bl_data_law|]. cbn. by intros d b' [-> ->].
Qed.

Lemma wp_fs_brelse b S ic hs L v i c (Q : unit -> fs B -> Prop) :
  bl_inv g b ((i, c) :: hs) [] L v -> (forall b', bl_inv g b' hs [] L v -> Q tt (mkfs b' S ic)) ->
  wp (brelse i) (mkfs b S ic) Q.
Proof.
  intros Hb HQ. apply wp_zoom. cbn. eapply wp_mono; [eapply bl_brelse_law; [done|apply not_elem_of_nil]|].
  cbn. intros []. auto.
Qed.

(** A block is changed and logged. *)
Lemma wp_update {A} b S ic hs L v i c d (k : K (fs B) A) Q :
  bl_inv g b hs [] L v -> (i, c) ∈ hs -> block_ok d -> writable g c -> Z.of_nat (size L) < bl_cap g ->
  (forall b', bl_inv g b' hs [] ({[c]} ∪ L) (upd1 v c d) -> wp k (mkfs b' S ic) Q) ->
  wp (set_buf i d;; log_write i;; k) (mkfs b S ic) Q.
Proof.
  intros Hb Hi Hd Hw Hs HQ. apply wp_bind, wp_zoom. cbn. eapply wp_mono; [by eapply bl_set_law|].
  cbn. intros [] b1 H1. apply wp_bind, wp_zoom. cbn. eapply wp_mono; [by eapply bl_log_law|].
  cbn. intros [] b2 H2. apply HQ. rewrite decide_False in H2 by tauto. done.
Qed.

(** Read a block and release it. *)
Lemma wp_read {A} b S ic hs L v c (k : nat -> block -> K (fs B) A) Q :
  bl_inv g b hs [] L v -> 0 <= c < g_size g -> (c ∉ hs.*2) ->
  Z.of_nat (length hs) + Z.of_nat (size L) <= bl_cap g ->
  (forall i b', bl_inv g b' ((i, c) :: hs) [] L v -> wp (k i (v c)) (mkfs b' S ic) Q) ->
  wp (i ← bread 1 c; d ← buf_data i; k i d) (mkfs b S ic) Q.
Proof.
  intros Hb Hc Hn Hr HQ. apply wp_bind. eapply wp_bread; [done..|]. intros i b' Hb'.
  apply wp_bind. eapply wp_fs_data; [done|apply list_elem_of_here|]. by apply HQ.
Qed.

Lemma wp_inode_at b S ic ip x (Q : inode -> fs B -> Prop) :
  ic !! ip = Some x -> Q x (mkfs b S ic) -> wp (inode_at ip) (mkfs b S ic) Q.
Proof. intros Hx HQ. unfold inode_at. unfold wp, arr_get. cbn. by rewrite Hx. Qed.

Lemma wp_upd_inode b S ic ip x f (Q : unit -> fs B -> Prop) :
  ic !! ip = Some x -> Q tt (mkfs b S (<[ip := f x]> ic)) -> wp (upd_inode ip f) (mkfs b S ic) Q.
Proof. intros Hx HQ. apply wp_bind. eapply wp_inode_at; [done|]. done. Qed.

(** ** The layout mkfs makes: superblock, log, inodes, bitmap, data *)

Definition datastart S : Z := sb_bmapstart S + sb_size S / BPB + 1.

Definition sb_ok S v : Prop :=
  sb_dec (v 1) = S /\ 2 <= sb_logstart S /\ sb_logstart S = g_logstart g /\ sb_nlog S = g_nlog g /\ 0 <= sb_nlog S /\
  sb_logstart S + sb_nlog S <= sb_inodestart S /\ 0 <= sb_ninodes S /\
  sb_inodestart S + sb_ninodes S / IPB + 1 <= sb_bmapstart S /\
  datastart S <= sb_size S /\ sb_size S <= g_size g /\ 0 <= sb_size S < 2 ^ 31.

Definition bitmap_block S c : Prop := sb_bmapstart S <= c < datastart S.
Definition data_block S c : Prop := datastart S <= c < sb_size S.

(** Bit [bi] of a block of the bitmap. *)
Definition bit (d : list Z) (bi : nat) : bool := negb (Z.land (byte_of d bi) (bit_of bi) =? 0).
Definition used S v (c : Z) : bool := bit (v (BBLOCK c S)) (Z.to_nat (c mod BPB)).

(** The blocks before the data are in use. *)
Definition bitmap_ok S v : Prop := forall c, 0 <= c < datastart S -> used S v c = true.

Lemma bblock_range S v c : sb_ok S v -> 0 <= c < sb_size S -> bitmap_block S (BBLOCK c S).
Proof.
  intros (_ & ? & ? & ? & ? & ? & ? & ? & ? & ? & _) Hc. unfold bitmap_block, datastart, BBLOCK in *.
  pose proof (Z.div_pos c BPB ltac:(lia) ltac:(done)). pose proof (Z.div_le_mono c (sb_size S) BPB ltac:(done) ltac:(lia)). lia.
Qed.

Lemma bitmap_writable S v c : sb_ok S v -> bitmap_block S c -> writable g c.
Proof.
  intros (_ & ? & ? & ? & ? & ? & ? & ? & ? & ? & _) [Hc1 Hc2]. unfold writable.
  pose proof (Z.div_pos (sb_ninodes S) IPB ltac:(lia) ltac:(done)). lia.
Qed.
Lemma data_writable S v c : sb_ok S v -> data_block S c -> writable g c.
Proof.
  intros (_ & ? & ? & ? & ? & ? & ? & ? & ? & ? & ? & ?) [Hc1 Hc2]. unfold writable, datastart in *.
  pose proof (Z.div_pos (sb_ninodes S) IPB ltac:(lia) ltac:(done)).
  pose proof (Z.div_pos (sb_size S) BPB ltac:(lia) ltac:(done)). lia.
Qed.

Lemma data_pos S v c : sb_ok S v -> data_block S c -> 2 < c.
Proof.
  intros (_ & ? & ? & ? & ? & ? & ? & ? & ? & ? & ? & ?) [Hc1 Hc2]. unfold datastart in *.
  pose proof (Z.div_pos (sb_ninodes S) IPB ltac:(lia) ltac:(done)).
  pose proof (Z.div_pos (sb_size S) BPB ltac:(lia) ltac:(done)). lia.
Qed.

(** ** Bits *)

Lemma bit_of_pow bi : bit_of bi = 2 ^ Z.of_nat (bi mod 8).
Proof. unfold bit_of. rewrite Z.shiftl_mul_pow2 by lia. lia. Qed.

Lemma bit_testbit d bi : bit d bi = Z.testbit (byte_of d bi) (Z.of_nat (bi mod 8)).
Proof.
  unfold bit. rewrite bit_of_pow. destruct (Z.testbit _ _) eqn:E.
  - apply negb_true_iff, Z.eqb_neq. intros H. apply land_pow2_zero in H; [congruence|lia].
  - apply negb_false_iff, Z.eqb_eq, land_pow2_zero; [lia|done].
Qed.

Lemma same_bit j k : (j / 8 = k / 8 -> j mod 8 = k mod 8 -> j = k)%nat.
Proof. intros H1 H2. rewrite (Nat.div_mod j 8), (Nat.div_mod k 8) by lia. by rewrite H1, H2. Qed.

Lemma byte_insert (d : list Z) k j x :
  (k / 8 < length d)%nat ->
  byte_of (<[(k / 8)%nat := x]> d) j = if decide (j / 8 = k / 8)%nat then x else byte_of d j.
Proof.
  intros Hk. unfold byte_of. case_decide as He; [by rewrite He, list_lookup_insert_eq|].
  by rewrite list_lookup_insert_ne by done.
Qed.

Lemma bit_eqb j k : (j / 8 = k / 8)%nat -> (Z.of_nat (k mod 8) =? Z.of_nat (j mod 8)) = (j =? k)%nat.
Proof.
  intros He. destruct (Nat.eqb_spec j k) as [->|Hn]; [apply Z.eqb_refl|]. apply Z.eqb_neq. intros Hm.
  apply Hn, same_bit; [done|lia].
Qed.

Lemma bit_set d k j :
  (k / 8 < length d)%nat ->
  bit (mark d k) j = (bit d j || (j =? k)%nat)%bool.
Proof.
  intros Hk. unfold mark, unmark. rewrite !bit_testbit, byte_insert by done. case_decide as He.
  - rewrite bit_of_pow, Z.lor_spec, Z.pow2_bits_eqb, bit_eqb by (done || lia). unfold byte_of. by rewrite He.
  - destruct (Nat.eqb_spec j k) as [->|]; [done|]. by rewrite orb_false_r.
Qed.

Lemma bit_clear d k j :
  (k / 8 < length d)%nat ->
  bit (unmark d k) j = (bit d j && negb (j =? k)%nat)%bool.
Proof.
  intros Hk. unfold mark, unmark. rewrite !bit_testbit, byte_insert by done. case_decide as He.
  - rewrite bit_of_pow, Z.land_spec, Z.lnot_spec, Z.pow2_bits_eqb, bit_eqb by (done || lia). unfold byte_of. by rewrite He.
  - destruct (Nat.eqb_spec j k) as [->|]; [done|]. by rewrite andb_true_r.
Qed.

Lemma byte_of_range (d : list Z) k : block_ok d -> 0 <= byte_of d k < 256.
Proof.
  intros [_ Hd]. unfold byte_of. destruct (d !! (k / 8)%nat) eqn:E; cbn; [|lia]. exact (Forall_lookup_1 _ _ _ _ Hd E).
Qed.

Lemma block_ok_insert (d : list Z) i x : block_ok d -> 0 <= x < 256 -> block_ok (<[i := x]> d).
Proof. intros [Hl Hd] Hx. split; [by rewrite length_insert|]. by apply Forall_insert. Qed.

Lemma lor_byte a k : 0 <= a < 256 -> 0 <= Z.lor a (bit_of k) < 256.
Proof.
  intros Ha. rewrite bit_of_pow. assert (k mod 8 < 8)%nat by (apply Nat.mod_upper_bound; lia).
  assert (0 < 2 ^ Z.of_nat (k mod 8)) by (apply Z.pow_pos_nonneg; lia).
  split; [apply Z.lor_nonneg; lia|]. change 256 with (2 ^ 8). apply Z.log2_lt_cancel.
  rewrite Z.log2_lor, (Z.log2_pow2 8), Z.log2_pow2 by lia.
  destruct (decide (a = 0)) as [->|]; [cbn; lia|]. assert (Z.log2 a < 8) by (apply Z.log2_lt_pow2; lia). lia.
Qed.

Lemma land_byte a m : 0 <= a < 256 -> 0 <= Z.land a m < 256.
Proof.
  intros Ha. assert (0 <= Z.land a m) by (apply Z.land_nonneg; lia). split; [done|].
  destruct (decide (Z.land a m = 0)) as [->|]; [lia|]. change 256 with (2 ^ 8). apply Z.log2_lt_pow2; [lia|].
  destruct (decide (a = 0)) as [->|]; [by rewrite Z.land_0_l in *|]. assert (Z.log2 a < 8) by (apply Z.log2_lt_pow2; lia).
  destruct (Z.lt_ge_cases (Z.log2 (Z.land a m)) 8) as [|Hge]; [done|].
  assert (Z.testbit (Z.land a m) (Z.log2 (Z.land a m)) = true) as Ht by (apply Z.bit_log2; lia).
  rewrite Z.land_spec, (Z.bits_above_log2 a) in Ht by lia. done.
Qed.

(** ** [balloc] and [bfree] *)

Lemma find_free_spec n : forall bi d,
  match find_free n bi d with
  | Some k => (bi <= k < bi + n)%nat /\ bit d k = false /\ forall j, (bi <= j < k)%nat -> bit d j = true
  | None => forall j, (bi <= j < bi + n)%nat -> bit d j = true
  end.
Proof.
  induction n as [|n IH]; intros bi d; cbn [find_free]; [intros j; lia|].
  destruct (Z.land (byte_of d bi) (bit_of bi) =? 0) eqn:E.
  - split; [lia|]. unfold bit. rewrite E. split; [done|]. intros j; lia.
  - assert (bit d bi = true) as Hb by (unfold bit; by rewrite E). specialize (IH (Datatypes.S bi) d).
    destruct (find_free n (Datatypes.S bi) d) as [k|].
    + destruct IH as (H1 & H2 & H3). split; [lia|]. split; [done|]. intros j Hj.
      destruct (decide (j = bi)) as [->|]; [done|]. apply H3. lia.
    + intros j Hj. destruct (decide (j = bi)) as [->|]; [done|]. apply IH. lia.
Qed.

Definition bitno (c : Z) : nat := Z.to_nat (c mod BPB).

Lemma bitno_range c : (bitno c < 4096)%nat /\ Z.of_nat (bitno c) = c mod BPB.
Proof. pose proof (Z.mod_pos_bound c BPB ltac:(done)). unfold bitno, BPB in *. lia. Qed.

Lemma bitno_byte c (d : block) : block_ok d -> (bitno c / 8 < length d)%nat.
Proof.
  intros [-> _]. destruct (bitno_range c) as [H _]. change BSIZE with 512%nat. apply Nat.Div0.div_lt_upper_bound. lia.
Qed.

Lemma same_bitno S c c' : 0 <= c -> 0 <= c' -> BBLOCK c S = BBLOCK c' S -> bitno c = bitno c' -> c = c'.
Proof.
  intros Hc Hc' Hb Hn. unfold BBLOCK in Hb. destruct (bitno_range c) as [_ H1]. destruct (bitno_range c') as [_ H2].
  rewrite (Z.div_mod c BPB), (Z.div_mod c' BPB) by done. rewrite <- H1, <- H2, Hn. f_equal. f_equal. lia.
Qed.

(** The contents after [c] was allocated, and after it was freed. *)
Definition alloc_v S v c : Z -> block :=
  upd1 (upd1 v (BBLOCK c S) (mark (v (BBLOCK c S)) (bitno c))) c zero_block.
Definition free_v S v c : Z -> block := upd1 v (BBLOCK c S) (unmark (v (BBLOCK c S)) (bitno c)).

(** [v'] differs from [v] at the block [c] of data, and in the bit of the bitmap. *)
Lemma alloc_v_used S v c c' :
  sb_ok S v -> block_ok (v (BBLOCK c S)) -> data_block S c -> 0 <= c' < sb_size S ->
  used S (alloc_v S v c) c' = (used S v c' || (c' =? c))%bool.
Proof.
  intros Hsb Hb Hc Hc'. pose proof (bblock_range S v c' Hsb Hc') as Hr. unfold bitmap_block in Hr.
  assert (0 <= c) as H0c. { destruct (data_writable S v c Hsb Hc) as [? _]. lia. }
  unfold used, alloc_v. rewrite upd1_ne by (unfold data_block in Hc; lia). fold (bitno c').
  destruct (decide (BBLOCK c' S = BBLOCK c S)) as [He|He].
  - rewrite He, upd1_same, bit_set by (by apply bitno_byte). f_equal.
    destruct (Z.eqb_spec c' c) as [->|Hn]; [apply Nat.eqb_refl|]. apply Nat.eqb_neq. intros Hbn. apply Hn.
    apply (same_bitno S); [lia|lia|done|done].
  - rewrite upd1_ne by done. destruct (Z.eqb_spec c' c) as [->|]; [done|]. by rewrite orb_false_r.
Qed.

Lemma free_v_used S v c c' :
  sb_ok S v -> block_ok (v (BBLOCK c S)) -> data_block S c -> 0 <= c' < sb_size S ->
  used S (free_v S v c) c' = (used S v c' && negb (c' =? c))%bool.
Proof.
  intros Hsb Hb Hc Hc'. assert (0 <= c) as H0c. { destruct (data_writable S v c Hsb Hc) as [? _]. lia. }
  unfold used, free_v. fold (bitno c'). destruct (decide (BBLOCK c' S = BBLOCK c S)) as [He|He].
  - rewrite He, upd1_same, bit_clear by (by apply bitno_byte). f_equal. f_equal.
    destruct (Z.eqb_spec c' c) as [->|Hn]; [apply Nat.eqb_refl|]. apply Nat.eqb_neq. intros Hbn. apply Hn.
    apply (same_bitno S); [lia|lia|done|done].
  - rewrite upd1_ne by done. destruct (Z.eqb_spec c' c) as [->|]; [done|]. by rewrite andb_true_r.
Qed.

Lemma alloc_v_other S v c c' : c' <> c -> c' <> BBLOCK c S -> alloc_v S v c c' = v c'.
Proof. intros. unfold alloc_v. by rewrite !upd1_ne. Qed.

(** The superblock is not touched. *)
Lemma sb_ok_ext S v v' : v' 1 = v 1 -> sb_ok S v -> sb_ok S v'.
Proof. intros He (H & Hr). split; [by rewrite He|done]. Qed.

Lemma alloc_v_sb S v c : sb_ok S v -> data_block S c -> sb_ok S (alloc_v S v c).
Proof.
  intros Hsb Hc. apply (sb_ok_ext S v); [|done]. destruct (data_writable S v c Hsb Hc) as (? & ? & _).
  destruct (bitmap_writable S v (BBLOCK c S) Hsb) as (? & ? & _); [|by apply alloc_v_other].
  apply (bblock_range S v); [done|]. unfold data_block in Hc. lia.
Qed.

Lemma free_v_sb S v c : sb_ok S v -> data_block S c -> sb_ok S (free_v S v c).
Proof.
  intros Hsb Hc. apply (sb_ok_ext S v); [|done]. destruct (data_writable S v c Hsb Hc) as (? & ? & _).
  destruct (bitmap_writable S v (BBLOCK c S) Hsb) as (? & ? & _); [|by apply upd1_ne].
  apply (bblock_range S v); [done|]. unfold data_block in Hc. lia.
Qed.

(** The first free block. *)
Definition first_free S v c : Prop :=
  0 <= c < sb_size S /\ used S v c = false /\ forall c', 0 <= c' < c -> used S v c' = true.

Lemma first_free_data S v c : bitmap_ok S v -> first_free S v c -> data_block S c.
Proof.
  intros Hok (Hc & Hf & _). unfold data_block. destruct (Z.lt_ge_cases c (datastart S)) as [Hlt|]; [|lia].
  rewrite Hok in Hf by lia. done.
Qed.

(** The blocks whose buffers are held while others are allocated or freed. *)
Definition hs_ok S v hs : Prop := forall h, h ∈ hs.*2 -> data_block S h /\ used S v h = true.

Lemma zero_block_ok : block_ok (replicate 512 0).
Proof. split; [apply length_replicate|]. by apply bytes_ok_replicate. Qed.

Lemma mark_ok d k : block_ok d -> block_ok (mark d k).
Proof. intros H. apply block_ok_insert; [done|]. by apply lor_byte, byte_of_range. Qed.
Lemma unmark_ok d k : block_ok d -> block_ok (unmark d k).
Proof. intros H. apply block_ok_insert; [done|]. by apply land_byte, byte_of_range. Qed.

Lemma size_union_1 (c : Z) L : (size L <= size ({[c]} ∪ L) <= Datatypes.S (size L))%nat.
Proof.
  destruct (decide (c ∈ L)) as [Hin|Hin]; [replace ({[c]} ∪ L) with L by set_solver; lia|].
  rewrite size_union, size_singleton by set_solver. lia.
Qed.

Lemma bzero_spec b S ic hs L v c (Q : unit -> fs B -> Prop) :
  bl_inv g b hs [] L v -> writable g c -> (c ∉ hs.*2) ->
  Z.of_nat (length hs) + Z.of_nat (size L) <= bl_cap g -> Z.of_nat (size L) < bl_cap g ->
  (forall b', bl_inv g b' hs [] ({[c]} ∪ L) (upd1 v c zero_block) -> Q tt (mkfs b' S ic)) ->
  wp (bzero 1 c) (mkfs b S ic) Q.
Proof.
  intros Hb Hw Hn Hr Hs HQ. apply wp_bind. eapply wp_bread; [done|apply Hw|done|done|]. intros i b1 H1.
  eapply wp_update; [done|apply list_elem_of_here|apply zero_block_ok|done|done|]. intros b2 H2.
  eapply wp_fs_brelse; [exact H2|]. intros b3 H3. by apply HQ.
Qed.

Lemma bit_index m j : 0 <= j < BPB -> (m * BPB + j) / BPB = m /\ (m * BPB + j) mod BPB = j.
Proof.
  intros Hj. rewrite Z.div_add_l, Z.div_small by (done || lia). split; [lia|].
  rewrite Z.add_comm, Z.mod_add by done. by apply Z.mod_small.
Qed.

Lemma balloc_loop_spec fuel : forall b S ic hs L v m c (Q : Z -> fs B -> Prop),
  bl_inv g b hs [] L v -> sb_ok S v -> bitmap_ok S v -> first_free S v c -> hs_ok S v hs ->
  (length hs <= 1)%nat -> Z.of_nat (size L) + 2 <= bl_cap g ->
  0 <= m -> m * BPB <= c < (m + Z.of_nat fuel) * BPB ->
  (forall b', bl_inv g b' hs [] ({[c]} ∪ ({[BBLOCK c S]} ∪ L)) (alloc_v S v c) -> Q c (mkfs b' S ic)) ->
  wp (balloc_loop fuel 1 (m * BPB)) (mkfs b S ic) Q.
Proof.
  induction fuel as [|fuel IH]; intros b S ic hs L v m c Q Hb Hsb Hbm Hff Hhs Hl Hsz Hm Hc HQ;
    [unfold BPB in *; lia|]. pose proof Hff as (Hcr & Hcf & Hcu).
  pose proof (first_free_data S v c Hbm Hff) as Hdc. pose proof (data_writable S v c Hsb Hdc) as Hwc.
  cbn [balloc_loop]. apply wp_bind, wp_gets. cbn [sb]. rewrite (proj2 (Z.ltb_lt _ _)) by lia.
  assert (BBLOCK (m * BPB) S = m + sb_bmapstart S) as HBB by (unfold BBLOCK; by rewrite Z.div_mul).
  assert (bitmap_block S (m + sb_bmapstart S)) as Hmb.
  { rewrite <- HBB. apply (bblock_range S v); [done|unfold BPB in *; lia]. }
  assert (m + sb_bmapstart S ∉ hs.*2) as Hmn.
  { intros Hin. destruct (Hhs _ Hin) as [[? _] _]. unfold bitmap_block in Hmb. lia. }
  pose proof (bitmap_writable S v _ Hsb Hmb) as Hmw. pose proof (bl_ok _ _ _ _ _ _ _ Hb (proj1 Hmw)) as Hblk.
  rewrite HBB. eapply wp_read; [done|apply Hmw|done|lia|]. intros i b1 H1.
  assert (forall j : nat, Z.of_nat j < BPB -> m * BPB + Z.of_nat j < sb_size S ->
    used S v (m * BPB + Z.of_nat j) = bit (v (m + sb_bmapstart S)) j) as Hbit.
  { intros j Hj _. unfold used, BBLOCK. destruct (bit_index m (Z.of_nat j)) as [-> ->]; [lia|]. by rewrite Nat2Z.id. }
  pose proof (find_free_spec (Z.to_nat (Z.min BPB (sb_size S - m * BPB))) 0 (v (m + sb_bmapstart S))) as Hfs.
  destruct (find_free _ _ _) as [k|].
  - destruct Hfs as (Hk & Hkf & Hku). assert (m * BPB + Z.of_nat k = c) as Hkc.
    { destruct (Z.lt_trichotomy (m * BPB + Z.of_nat k) c) as [Hlt|[?|Hgt]]; [|done|].
      - rewrite <- Hbit in Hkf by lia. rewrite Hcu in Hkf by (unfold BPB in *; lia). done.
      - assert (used S v c = true) as Hu; [|congruence].
        replace c with (m * BPB + Z.of_nat (Z.to_nat (c - m * BPB))) by lia. rewrite Hbit by lia. apply Hku. lia. }
    destruct (bit_index m (Z.of_nat k)) as [Hdiv Hmod]; [lia|]. rewrite Hkc in Hdiv, Hmod.
    assert (bitno c = k) as Hbn by (unfold bitno; rewrite Hmod; lia).
    assert (BBLOCK c S = m + sb_bmapstart S) as HBc by (unfold BBLOCK; by rewrite Hdiv).
    rewrite Hkc. rewrite <- Hbn, <- HBc in *. pose proof (size_union_1 (BBLOCK c S) L).
    eapply wp_update; [exact H1|apply list_elem_of_here|by apply mark_ok|done|lia|].
    intros b2 H2. apply wp_bind. eapply wp_fs_brelse; [exact H2|]. intros b3 H3.
    apply wp_bind. eapply bzero_spec; [exact H3|done| |lia|lia|].
    { intros Hin. destruct (Hhs _ Hin) as [_ ?]. congruence. }
    intros b4 H4. apply wp_ret. by apply HQ.
  - apply wp_bind. eapply wp_fs_brelse; [exact H1|]. intros b2 H2.
    replace (m * BPB + BPB) with ((m + 1) * BPB) by lia.
    eapply (IH _ _ _ _ _ v _ c); [done..|lia| |done].
    destruct (Z.lt_ge_cases c ((m + 1) * BPB)) as [Hlt|]; [exfalso|lia].
    assert (used S v c = true) as Hu; [|congruence].
    replace c with (m * BPB + Z.of_nat (Z.to_nat (c - m * BPB))) by lia. rewrite Hbit by lia. apply Hfs. lia.
Qed.

Lemma balloc_spec b S ic hs L v c (Q : Z -> fs B -> Prop) :
  bl_inv g b hs [] L v -> sb_ok S v -> bitmap_ok S v -> first_free S v c -> hs_ok S v hs ->
  (length hs <= 1)%nat -> Z.of_nat (size L) + 2 <= bl_cap g ->
  (forall b', bl_inv g b' hs [] ({[c]} ∪ ({[BBLOCK c S]} ∪ L)) (alloc_v S v c) -> Q c (mkfs b' S ic)) ->
  wp (balloc 1) (mkfs b S ic) Q.
Proof.
  intros Hb Hsb Hbm Hff Hhs Hl Hsz HQ. apply wp_bind, wp_gets. cbn [sb]. change 0 with (0 * BPB).
  eapply balloc_loop_spec; [done..| |done]. destruct Hff as (Hc & _).
  pose proof (Z.div_mod (sb_size S) BPB ltac:(done)). pose proof (Z.mod_pos_bound (sb_size S) BPB ltac:(done)).
  pose proof (Z.div_pos (sb_size S) BPB ltac:(lia) ltac:(done)). unfold BPB in *. lia.
Qed.

Lemma bfree_spec b S ic hs L v c (Q : unit -> fs B -> Prop) :
  bl_inv g b hs [] L v -> sb_ok S v -> data_block S c -> used S v c = true -> hs_ok S v hs ->
  (length hs <= 1)%nat -> Z.of_nat (size L) + 1 <= bl_cap g ->
  (forall b', bl_inv g b' hs [] ({[BBLOCK c S]} ∪ L) (free_v S v c) -> Q tt (mkfs b' S ic)) ->
  wp (bfree 1 c) (mkfs b S ic) Q.
Proof.
  intros Hb Hsb Hc Hu Hhs Hl Hsz HQ. pose proof Hsb as (Hdec & _ & _ & _ & _ & _ & _ & _ & Hds & Hgs & Hs0).
  pose proof (data_writable S v c Hsb Hc) as Hwc.
  assert (bitmap_block S (BBLOCK c S)) as Hmb.
  { apply (bblock_range S v); [done|]. destruct Hwc, Hc. lia. }
  pose proof (bitmap_writable S v _ Hsb Hmb) as Hmw. pose proof (bl_ok _ _ _ _ _ _ _ Hb (proj1 Hmw)) as Hblk.
  assert (forall h, h ∈ hs.*2 -> h <> 1 /\ h <> BBLOCK c S) as Hne.
  { intros h Hh. destruct (Hhs h Hh) as [Hd _]. destruct (data_writable S v h Hsb Hd) as (_ & ? & _).
    unfold data_block, bitmap_block in *. lia. }
  assert (0 <= 1 < g_size g) as H1r. { pose proof (data_pos S v c Hsb Hc). destruct Hwc as (? & ? & _). lia. }
  apply wp_bind. unfold load_sb. apply wp_bind. unfold readsb.
  eapply wp_read; [done|done|intros Hin; by apply Hne in Hin as [? _]|lia|]. intros i b1 H1.
  apply wp_bind. eapply wp_fs_brelse; [exact H1|]. intros b2 H2. apply wp_ret, wp_modify. cbn [blk icache]. rewrite Hdec.
  apply wp_bind, wp_gets. cbn [sb].
  eapply wp_read; [exact H2|apply Hmw|intros Hin; by apply Hne in Hin as [_ ?]|lia|]. intros j b3 H3.
  fold (bitno c). unfold used, bit in Hu. fold (bitno c) in Hu. apply negb_true_iff in Hu. rewrite Hu.
  eapply wp_update; [exact H3|apply list_elem_of_here|by apply unmark_ok|done|lia|]. intros b4 H4.
  eapply wp_fs_brelse; [exact H4|]. intros b5 H5. by apply HQ.
Qed.

(** ** Inodes on disk *)

Definition inum_ok S (inum : Z) : Prop := 0 <= inum < sb_ninodes S.
Definition dinode_at S v (inum : Z) : dinode := load_dinode (v (IBLOCK inum S)) (dinode_off inum).

Lemma iblock_range S v inum :
  sb_ok S v -> inum_ok S inum -> sb_inodestart S <= IBLOCK inum S < sb_bmapstart S /\ writable g (IBLOCK inum S).
Proof.
  intros (_ & ? & ? & ? & ? & ? & ? & ? & Hd & ? & ? & ?) Hi. unfold inum_ok, IBLOCK, writable, datastart in *.
  pose proof (Z.div_pos inum IPB ltac:(lia) ltac:(done)).
  pose proof (Z.div_le_mono inum (sb_ninodes S) IPB ltac:(done) ltac:(lia)).
  pose proof (Z.div_pos (sb_size S) BPB ltac:(lia) ltac:(done)). lia.
Qed.

Lemma dinode_off_range inum : exists k, dinode_off inum = (64 * k)%nat /\ (k < 8)%nat /\ Z.of_nat k = inum mod IPB.
Proof.
  pose proof (Z.mod_pos_bound inum IPB ltac:(done)) as Hr. exists (Z.to_nat (inum mod IPB)).
  unfold dinode_off, IPB in *. lia.
Qed.

(** The contents after the inode [inum] was stored. *)
Definition store_v S v (inum : Z) (di : dinode) : Z -> block :=
  upd1 v (IBLOCK inum S) (store_dinode (v (IBLOCK inum S)) (dinode_off inum) di).

Lemma store_v_same S v inum di :
  block_ok (v (IBLOCK inum S)) -> dinode_ok di -> dinode_at S (store_v S v inum di) inum = di.
Proof.
  intros [Hl _] Hok. unfold dinode_at, store_v. rewrite upd1_same. apply load_store_dinode; [|done].
  destruct (dinode_off_range inum) as (k & -> & Hk & _). rewrite Hl. unfold BSIZE. lia.
Qed.

Lemma load_dinode_ext (d d' : list Z) off :
  (forall k n, (k + n <= 64)%nat -> slice (off + k) n d' = slice (off + k) n d) -> load_dinode d' off = load_dinode d off.
Proof.
  intros He. pose proof (He 0%nat 2%nat ltac:(lia)) as H0. rewrite Nat.add_0_r in H0.
  unfold load_dinode, lds16, ld16, ld32. rewrite H0, !He by lia. f_equal.
  apply list_fmap_ext. intros i j Hj. apply lookup_seq in Hj as [-> Hi]. unfold NDIRECT in Hi.
  replace (off + 12 + 4 * (0 + i))%nat with (off + (12 + 4 * i))%nat by lia. by rewrite He by lia.
Qed.

Lemma store_v_other S v inum inum' di :
  block_ok (v (IBLOCK inum S)) -> length (d_addrs di) = 13%nat -> inum <> inum' ->
  dinode_at S (store_v S v inum di) inum' = dinode_at S v inum'.
Proof.
  intros [Hl _] Ha Hne. unfold dinode_at, store_v. destruct (decide (IBLOCK inum' S = IBLOCK inum S)) as [He|He];
    [|by rewrite upd1_ne]. rewrite He, upd1_same. apply load_dinode_ext. intros k n Hk.
  destruct (dinode_off_range inum) as (i & Hoi & Hi & Hmi). destruct (dinode_off_range inum') as (j & Hoj & Hj & Hmj).
  rewrite store_dinode_splice by (done || (rewrite Hl, Hoi; unfold BSIZE; lia)).
  assert (i <> j).
  { intros ->. apply Hne. unfold IBLOCK in He. rewrite (Z.div_mod inum IPB), (Z.div_mod inum' IPB) by done.
    rewrite <- Hmi, <- Hmj. f_equal. f_equal. lia. }
  rewrite Hoi, Hoj. apply slice_splice_disj; rewrite (length_dinode_bytes di Ha); [rewrite Hl; unfold BSIZE; lia|lia].
Qed.

Lemma store_dinode_ok (d : list Z) inum di : block_ok d -> length (d_addrs di) = 13%nat -> block_ok (store_dinode d (dinode_off inum) di).
Proof.
  intros [Hl Hb] Ha. split; [|by apply store_dinode_bytes]. destruct (dinode_off_range inum) as (k & -> & Hk & _).
  rewrite store_dinode_splice by (done || (rewrite Hl; unfold BSIZE; lia)).
  rewrite length_splice; [done|]. rewrite (length_dinode_bytes di Ha), Hl. unfold BSIZE. lia.
Qed.

Lemma iupdate_spec b S ic L v ip x (Q : unit -> fs B -> Prop) :
  bl_inv g b [] [] L v -> sb_ok S v -> ic !! ip = Some x -> i_dev x = 1 -> inum_ok S (i_inum x) ->
  length (i_addrs x) = 13%nat -> Z.of_nat (size L) < bl_cap g ->
  (forall b', bl_inv g b' [] [] ({[IBLOCK (i_inum x) S]} ∪ L) (store_v S v (i_inum x) (to_dinode x)) -> Q tt (mkfs b' S ic)) ->
  wp (iupdate ip) (mkfs b S ic) Q.
Proof.
  intros Hb Hsb Hx Hdev Hi Ha Hs HQ. destruct (iblock_range S v _ Hsb Hi) as [_ Hw].
  apply wp_bind. eapply wp_inode_at; [done|]. apply wp_bind, wp_gets. cbn [sb]. rewrite Hdev.
  eapply wp_read; [done|apply Hw|apply not_elem_of_nil|cbn; lia|]. intros i b1 H1.
  eapply wp_update; [exact H1|apply list_elem_of_here| |done|done|].
  { apply store_dinode_ok; [|done]. exact (bl_ok _ _ _ _ _ _ _ Hb (proj1 Hw)). }
  intros b2 H2. eapply wp_fs_brelse; [exact H2|]. intros b3 H3. by apply HQ.
Qed.

(** The cache entry after [ilock]. *)
Definition locked_inode S v (x : inode) : inode :=
  if i_valid x then set_lock true x else set_valid true (of_dinode (dinode_at S v (i_inum x)) (set_lock true x)).

Lemma ilock_spec b S ic L v ip x (Q : unit -> fs B -> Prop) :
  bl_inv g b [] [] L v -> sb_ok S v -> ic !! ip = Some x -> i_dev x = 1 -> inum_ok S (i_inum x) ->
  1 <= i_ref x -> i_locked x = false -> Z.of_nat (size L) <= bl_cap g ->
  (i_valid x = true \/ d_type (dinode_at S v (i_inum x)) <> 0) ->
  (forall b', bl_inv g b' [] [] L v -> Q tt (mkfs b' S (<[ip := locked_inode S v x]> ic))) ->
  wp (ilock (Some ip)) (mkfs b S ic) Q.
Proof.
  intros Hb Hsb Hx Hdev Hi Href Hl Hs Ht HQ. destruct (iblock_range S v _ Hsb Hi) as [_ Hw].
  pose proof (lookup_lt_Some _ _ _ Hx) as Hlt. unfold ilock. apply wp_bind. eapply wp_inode_at; [done|].
  rewrite (proj2 (Z.ltb_ge _ _)) by lia. apply wp_bind. unfold ilock_sleep. apply wp_bind. eapply wp_inode_at; [done|].
  rewrite Hl. eapply wp_upd_inode; [done|]. apply wp_bind. eapply wp_inode_at; [by apply list_lookup_insert_eq|].
  unfold locked_inode in HQ. cbn [i_valid set_lock]. destruct (i_valid x) eqn:Ev; [apply wp_ret; auto|].
  destruct Ht as [?|Ht]; [done|]. apply wp_bind, wp_gets. cbn [sb i_dev i_inum set_lock]. rewrite Hdev.
  eapply wp_read; [done|apply Hw|apply not_elem_of_nil|cbn; lia|]. intros i b1 H1. fold (dinode_at S v (i_inum x)).
  apply wp_bind. eapply wp_upd_inode; [by apply list_lookup_insert_eq|]. rewrite list_insert_insert_eq.
  apply wp_bind. eapply wp_fs_brelse; [exact H1|]. intros b2 H2.
  apply wp_bind. eapply wp_upd_inode; [by apply list_lookup_insert_eq|]. rewrite list_insert_insert_eq.
  apply wp_bind. eapply wp_inode_at; [by apply list_lookup_insert_eq|]. cbn [i_type set_valid of_dinode].
  rewrite (proj2 (Z.eqb_neq _ _) Ht). apply wp_ret. by apply HQ.
Qed.

End Blocks.
End FsSpec.
