(* ===== verification/FsFile.v ===== *)
(** * The file system: file contents

    The contents of a file as the sequence of bytes its blocks hold, and the functions
    of fs.c that work on it: [bmap], [readi], [writei].

    Shown: [bmap] finds the block of a position, allocating it if there is none, without
    changing the contents of the file or a block of anybody else; [writei] replaces
    exactly the bytes written, extending the file, and writes the inode through to the
    disk; [readi] reads what the file contains. *)

From S2P Require Export FsSpec.
Local Open Scope Z_scope.

Module FsFile.
Import CString Layout Fs FsSpec.

Section File.
Context {B : Type} `{!BlockOps B} `{!BlockLaws B} (g : geom).
Implicit Types (b : B) (S : superblock) (ic : list inode) (L : gset Z) (v : Z -> block) (x : inode).

Local Abbreviation sb_ok := (sb_ok g).

(** ** The blocks of a file *)

Definition addr_of x (i : nat) : Z := default 0 (i_addrs x !! i).
Definition ind x : Z := addr_of x NDIRECT.

(** The disk block of the [bn]th block of the file; 0 if there is none. *)
Definition blkno v x (bn : nat) : Z :=
  if (bn <? NDIRECT)%nat then addr_of x bn
  else if ind x =? 0 then 0 else ld32 (v (ind x)) (4 * (bn - NDIRECT)).

Definition blk_ok S v c : Prop := data_block S c /\ used S v c = true.

(** The blocks [f] of a file and its indirect block: in use, and different from each
    other. *)
Definition blocks_ok S v (f : nat -> Z) (i : Z) : Prop :=
  (i = 0 \/ blk_ok S v i) /\
  (forall bn, (bn < MAXFILE)%nat -> f bn = 0 \/ blk_ok S v (f bn) /\ f bn <> i) /\
  (forall bn bn', (bn < MAXFILE)%nat -> (bn' < MAXFILE)%nat -> f bn <> 0 -> f bn = f bn' -> bn = bn').

Definition inode_ok S v x : Prop :=
  i_dev x = 1 /\ inum_ok S (i_inum x) /\ length (i_addrs x) = 13%nat /\ blocks_ok S v (blkno v x) (ind x).

(** The contents of a block; a block that is not there will be made of zeros. *)
Definition fblock v x (bn : nat) : block :=
  if blkno v x bn =? 0 then zero_block else v (blkno v x bn).

(** ** Steps of allocation *)

(** [v'] has one more used block, [c]. *)
Definition one_more S v v' c : Prop :=
  data_block S c /\ used S v c = false /\
  forall c', 0 <= c' < sb_size S -> used S v' c' = (used S v c' || (c' =? c))%bool.

Lemma data_range S v c : sb_ok S v -> data_block S c -> 0 <= c < sb_size S.
Proof. intros Hsb Hc. pose proof (data_pos g S v c Hsb Hc). unfold data_block in Hc. lia. Qed.

Lemma one_more_ok S v v' c c' : sb_ok S v -> one_more S v v' c -> blk_ok S v c' -> blk_ok S v' c' /\ c' <> c.
Proof.
  intros Hsb (Hc & Hf & Hu) [Hd Hc']. split; [split; [done|]|intros ->; congruence].
  rewrite Hu, Hc' by (by eapply data_range). done.
Qed.

Lemma one_more_new S v v' c : sb_ok S v -> one_more S v v' c -> blk_ok S v' c /\ c <> 0.
Proof.
  intros Hsb (Hc & Hf & Hu). pose proof (data_range S v c Hsb Hc) as Hr. pose proof (data_pos g S v c Hsb Hc).
  split; [split; [done|]|lia]. rewrite Hu, Z.eqb_refl by done. apply orb_true_r.
Qed.

Lemma blocks_ok_data S v v' f f' i c bn :
  sb_ok S v -> blocks_ok S v f i -> one_more S v v' c -> f bn = 0 ->
  (forall k, (k < MAXFILE)%nat -> f' k = if decide (k = bn) then c else f k) -> blocks_ok S v' f' i.
Proof.
  intros Hsb (Hi & Hf & Hinj) Hom H0 Hf'. destruct (one_more_new S v v' c Hsb Hom) as [Hnew Hc0].
  assert (forall k, (k < MAXFILE)%nat -> f k <> c) as Hfc.
  { intros k Hk. destruct (Hf k Hk) as [?|[Hb _]]; [congruence|]. by apply (one_more_ok S v v' _ _ Hsb Hom) in Hb as [_ ?]. }
  split_and!.
  - destruct Hi as [?|Hi]; [by left|right]. by apply (one_more_ok S v v' c).
  - intros k Hk. rewrite Hf' by done. case_decide as He.
    + right. split; [done|]. intros ->. destruct Hi as [?|Hi]; [done|]. by apply (one_more_ok S v v' _ _ Hsb Hom) in Hi as [_ ?].
    + destruct (Hf k Hk) as [?|[Hb Hn]]; [by left|right]. split; [|done]. by apply (one_more_ok S v v' c).
  - intros k k' Hk Hk' Hn Heq. rewrite !Hf' in * by done. repeat case_decide.
    + congruence.
    + by destruct (Hfc k' Hk').
    + by destruct (Hfc k Hk).
    + by apply Hinj.
Qed.

Lemma blocks_ok_ind S v v' f f' c :
  sb_ok S v -> blocks_ok S v f 0 -> one_more S v v' c ->
  (forall k, (k < MAXFILE)%nat -> f' k = f k) -> blocks_ok S v' f' c.
Proof.
  intros Hsb (_ & Hf & Hinj) Hom Hf'. destruct (one_more_new S v v' c Hsb Hom) as [Hnew Hc0]. split_and!.
  - by right.
  - intros k Hk. rewrite Hf' by done. destruct (Hf k Hk) as [?|[Hb _]]; [by left|right].
    by apply (one_more_ok S v v' c).
  - intros k k' Hk Hk'. rewrite !Hf' by done. by apply Hinj.
Qed.

(** ** Allocation of one block *)

(** There are [n] free blocks. *)
Definition has_free S v (n : nat) : Prop :=
  exists l, NoDup l /\ length l = n /\ forall c, c ∈ l -> data_block S c /\ used S v c = false.

Lemma has_free_le S v n m : (m <= n)%nat -> has_free S v n -> has_free S v m.
Proof.
  intros Hm (l & Hnd & Hl & Hf). exists (take m l). split; [rewrite <- (take_drop m l) in Hnd; by apply NoDup_app in Hnd as (? & _)|].
  split; [rewrite length_take; lia|]. intros c Hc. apply Hf. by apply elem_of_take in Hc as (i & ? & _); eapply list_elem_of_lookup_2.
Qed.

Lemma first_false (p : nat -> bool) m :
  p m = false -> exists k, p k = false /\ forall j, (j < k)%nat -> p j = true.
Proof.
  intros Hm. assert ((forall j, (j < m)%nat -> p j = true) \/ exists k, p k = false /\ forall j, (j < k)%nat -> p j = true) as [H|H];
    [|by exists m|done]. clear Hm. induction m as [|m [IH|IH]]; [by left; lia| |by right].
  destruct (p m) eqn:E; [left|right; by exists m]. intros j Hj. destruct (decide (j = m)) as [->|]; [done|]. apply IH. lia.
Qed.

Lemma has_free_first S v n : has_free S v (1 + n) -> sb_ok S v -> exists c, first_free S v c.
Proof.
  intros (l & _ & Hl & Hf) Hsb. destruct l as [|c0 l]; [done|]. destruct (Hf c0 ltac:(apply list_elem_of_here)) as [Hd Hu].
  pose proof (data_range S v c0 Hsb Hd) as Hr.
  assert (exists k : nat, used S v (Z.of_nat k) = false /\ forall j, (j < k)%nat -> used S v (Z.of_nat j) = true) as (k & Hk & Hj).
  { apply (first_false (fun k => used S v (Z.of_nat k)) (Z.to_nat c0)). by rewrite Z2Nat.id by lia. }
  exists (Z.of_nat k). split; [|split; [done|]].
  - destruct (decide (Z.of_nat k <= c0)); [lia|]. specialize (Hj (Z.to_nat c0) ltac:(lia)). rewrite Z2Nat.id in Hj by lia. congruence.
  - intros c' Hc'. specialize (Hj (Z.to_nat c') ltac:(lia)). by rewrite Z2Nat.id in Hj by lia.
Qed.

(** What [balloc] leaves: one more block in use, with zeros in it. *)
Definition allocated S v v' c : Prop :=
  one_more S v v' c /\ sb_ok S v' /\ bitmap_ok S v' /\ v' c = zero_block /\
  (forall c', c' <> c -> ~ bitmap_block S c' -> v' c' = v c') /\
  (forall n, has_free S v (1 + n) -> has_free S v' n).

Lemma one_more_free S v v' c n : sb_ok S v -> one_more S v v' c -> has_free S v (1 + n) -> has_free S v' n.
Proof.
  intros Hsb (Hc & Hf & Hu) (l & Hnd & Hl & Hfree). apply (has_free_le _ _ (length (base.filter (fun c' => c' <> c) l))).
  - clear -Hnd Hl. assert (length l <= 1 + length (base.filter (fun c' => c' <> c) l))%nat; [|lia]. clear n Hl.
    induction Hnd as [|a l Ha Hnd IH]; [cbn; lia|]. rewrite filter_cons. case_decide as Hac; [cbn; lia|].
    subst a. rewrite list_filter_id; [cbn; lia|]. rewrite Forall_forall. by intros y Hy ->.
  - exists (base.filter (fun c' => c' <> c) l). split; [by apply NoDup_filter|]. split; [done|]. intros c' [Hn Hin]%list_elem_of_filter.
    destruct (Hfree c' Hin) as [Hd Hcf]. split; [done|]. rewrite Hu, Hcf by (by eapply data_range). by apply Z.eqb_neq.
Qed.

Lemma allocated_alloc_v S v c :
  sb_ok S v -> bitmap_ok S v -> first_free S v c -> block_ok (v (BBLOCK c S)) -> allocated S v (alloc_v S v c) c.
Proof.
  intros Hsb Hbm Hff Hbo. pose proof (first_free_data S v c Hbm Hff) as Hd. pose proof Hff as (Hc & Hf & _).
  pose proof (bblock_range g S v c Hsb Hc) as Hbb.
  assert (one_more S v (alloc_v S v c) c) as Hom.
  { split; [done|]. split; [done|]. intros c' Hc'. by apply (alloc_v_used g). }
  split; [done|]. split; [by apply alloc_v_sb|]. split.
  { intros c' Hc'. destruct Hom as (_ & _ & Hu). rewrite Hu, Hbm; [done|done|]. unfold data_block in Hd. lia. }
  split; [unfold alloc_v; apply upd1_same|]. split; [|intros m; by apply (one_more_free S v _ c)].
  intros c' Hne Hnb. apply alloc_v_other; [done|]. by intros ->.
Qed.

Lemma balloc_allocates b S ic hs L v n (Q : Z -> fs B -> Prop) :
  bl_inv g b hs [] L v -> sb_ok S v -> bitmap_ok S v -> has_free S v (1 + n) -> hs_ok S v hs ->
  (length hs <= 1)%nat -> Z.of_nat (size L) + 2 <= bl_cap g ->
  (forall b' c v', bl_inv g b' hs [] ({[c]} ∪ ({[BBLOCK c S]} ∪ L)) v' -> allocated S v v' c -> Q c (mkfs b' S ic)) ->
  wp (balloc 1) (mkfs b S ic) Q.
Proof.
  intros Hb Hsb Hbm Hfr Hhs Hl Hs HQ. destruct (has_free_first S v n Hfr Hsb) as [c Hff].
  pose proof Hff as (Hc & _). pose proof (bblock_range g S v c Hsb Hc) as Hbb. pose proof (bitmap_writable g S v _ Hsb Hbb) as [Hbw _].
  eapply (balloc_spec g); [done..|]. intros b' Hb'. apply (HQ b' c _ Hb'). apply allocated_alloc_v; [done..|]. by eapply bl_ok.
Qed.

(** ** Extension of a file by blocks of zeros *)

Definition with_addrs (l : list Z) x : inode :=
  mkinode (i_dev x) (i_inum x) (i_ref x) (i_locked x) (i_valid x) (i_type x) (i_major x) (i_minor x) (i_nlink x) (i_size x) l.

(** A block number that is kept, or that of a block that was free. *)
Definition fresh S v (a a' : Z) : Prop := a' = a \/ a = 0 /\ used S v a' = false.

(** From [v] and [x] to [v'] and [x'] blocks were allocated for the file: no contents
    changed, neither of the file nor of the blocks in use by others. *)
Definition ext S v v' x x' : Prop :=
  sb_ok S v' /\ bitmap_ok S v' /\ inode_ok S v' x' /\ x' = with_addrs (i_addrs x') x /\
  (forall k, (k < MAXFILE)%nat -> fresh S v (blkno v x k) (blkno v' x' k)) /\
  (forall k, (k < MAXFILE)%nat -> fblock v' x' k = fblock v x k) /\
  (forall c, 0 <= c < sb_size S -> used S v c = true -> used S v' c = true) /\
  (forall c, 0 <= c < sb_size S -> used S v c = true -> ~ bitmap_block S c -> c <> ind x -> v' c = v c) /\
  fresh S v (ind x) (ind x').

Lemma ext_refl S v x : sb_ok S v -> bitmap_ok S v -> inode_ok S v x -> ext S v v x x.
Proof. intros H1 H2 H3. split_and!; try done; [by destruct x|intros k _; by left|by left]. Qed.

Lemma used_0 S v : sb_ok S v -> bitmap_ok S v -> used S v 0 = true.
Proof.
  intros (_ & ? & ? & ? & ? & ? & ? & ? & Hd & ? & ? & ?) Hbm. apply Hbm. unfold datastart in *.
  pose proof (Z.div_pos (sb_ninodes S) IPB ltac:(lia) ltac:(done)).
  pose proof (Z.div_pos (sb_size S) BPB ltac:(lia) ltac:(done)). lia.
Qed.

Lemma fresh_trans S v v1 a a1 a2 :
  sb_ok S v -> bitmap_ok S v -> sb_ok S v1 -> bitmap_ok S v1 ->
  (forall c, 0 <= c < sb_size S -> used S v c = true -> used S v1 c = true) ->
  (a2 = 0 \/ data_block S a2) -> fresh S v a a1 -> fresh S v1 a1 a2 -> fresh S v a a2.
Proof.
  intros Hsb Hbm Hsb1 Hbm1 Hu Ha [->|[H0 Hn1]] [->|[Hn0 Hn2]].
  - by left.
  - right. split; [done|]. destruct (used S v a2) eqn:E; [|done]. rewrite <- Hn2. symmetry. apply Hu; [|done].
    destruct Ha as [->|Ha]; [|by eapply data_range]. by rewrite used_0 in Hn2.
  - by right.
  - subst a1. by rewrite used_0 in Hn1.
Qed.

(** A block that is in use stays apart from the blocks of the file. *)
Lemma fresh_ne S v a a' c : used S v c = true -> fresh S v a a' -> c <> a -> c <> a'.
Proof. intros Hu [->|[_ Hf]] Hne; [done|]. intros ->. congruence. Qed.

Lemma blocks_ok_range S v f i k : blocks_ok S v f i -> (k < MAXFILE)%nat -> f k = 0 \/ data_block S (f k).
Proof. intros (_ & Hf & _) Hk. destruct (Hf k Hk) as [?|[[? _] _]]; auto. Qed.
Lemma blocks_ok_ind_range S v f i : blocks_ok S v f i -> i = 0 \/ data_block S i.
Proof. intros ([?|[? _]] & _); auto. Qed.

Lemma ext_trans S v v1 v2 x x1 x2 :
  sb_ok S v -> bitmap_ok S v -> ext S v v1 x x1 -> ext S v1 v2 x1 x2 -> ext S v v2 x x2.
Proof.
  intros Hsb Hbm (Hs1 & Hb1 & Hi1 & Hx1 & Hk1 & Hf1 & Hu1 & Hfr1 & Hn1) (Hs2 & Hb2 & Hi2 & Hx2 & Hk2 & Hf2 & Hu2 & Hfr2 & Hn2).
  pose proof Hi2 as (_ & _ & _ & Hblk2). split_and!; try done.
  - rewrite Hx2. by rewrite Hx1.
  - intros k Hk. apply (fresh_trans S v v1 _ (blkno v1 x1 k)); [done..|by apply (blocks_ok_range S v2 _ (ind x2))|by apply Hk1|by apply Hk2].
  - intros k Hk. by rewrite Hf2, Hf1.
  - intros c Hc Hu. by apply Hu2, Hu1.
  - intros c Hc Hu Hnb Hne. rewrite Hfr2; [by apply Hfr1|done|by apply Hu1|done|].
    by apply (fresh_ne S v (ind x)).
  - apply (fresh_trans S v v1 _ (ind x1)); [done..|by apply (blocks_ok_ind_range S v2 (blkno v2 x2))|done|done].
Qed.

Lemma data_not_bitmap S c : data_block S c -> ~ bitmap_block S c.
Proof. unfold data_block, bitmap_block. lia. Qed.

(** The blocks of a file are not those an allocation changes. *)
Lemma allocated_same S v v' c c' :
  sb_ok S v -> allocated S v v' c -> blk_ok S v c' -> v' c' = v c' /\ c' <> c.
Proof.
  intros Hsb (Hom & _ & _ & _ & Hfr & _) Hb. destruct (one_more_ok S v v' c c' Hsb Hom Hb) as [_ Hne].
  split; [|done]. apply Hfr; [done|]. by apply data_not_bitmap, Hb.
Qed.

Lemma addr_of_set x i a k :
  length (i_addrs x) = 13%nat -> (i < 13)%nat -> addr_of (set_addr i a x) k = if decide (k = i) then a else addr_of x k.
Proof.
  intros Hl Hi. unfold addr_of, set_addr. cbn. case_decide as He; [subst; by rewrite list_lookup_insert_eq by lia|].
  by rewrite list_lookup_insert_ne by done.
Qed.

Lemma ind_same S v v' x c :
  sb_ok S v -> allocated S v v' c -> inode_ok S v x -> ind x <> 0 -> v' (ind x) = v (ind x).
Proof.
  intros Hsb Hal (_ & _ & _ & [?|Hi] & _) Hn; [done|]. by apply (allocated_same S v v' c).
Qed.

Lemma fblock_allocated S v v' x x' c bn :
  sb_ok S v -> allocated S v v' c -> inode_ok S v x ->
  (forall k, (k < MAXFILE)%nat -> blkno v' x' k = if decide (k = bn) then c else blkno v x k) ->
  blkno v x bn = 0 -> forall k, (k < MAXFILE)%nat -> fblock v' x' k = fblock v x k.
Proof.
  intros Hsb Hal (_ & _ & _ & _ & Hf & _) Hk H0 k Hlt. unfold fblock. rewrite Hk by done. case_decide as He.
  - subst k. rewrite H0. pose proof Hal as (Hom & _ & _ & Hz & _). destruct (one_more_new S v v' c Hsb Hom) as [_ Hc0].
    by rewrite (proj2 (Z.eqb_neq _ _) Hc0).
  - destruct (Hf k Hlt) as [->|[Hb _]]; [done|]. destruct (_ =? 0); [done|]. by apply (allocated_same S v v' c).
Qed.

Lemma ext_direct S v v' x c bn :
  sb_ok S v -> inode_ok S v x -> allocated S v v' c -> (bn < NDIRECT)%nat -> addr_of x bn = 0 ->
  ext S v v' x (set_addr bn c x) /\ blkno v' (set_addr bn c x) bn = c.
Proof.
  intros Hsb Hok Hal Hbn H0. pose proof Hok as (Hdev & Hin & Hl & Hblk).
  pose proof Hal as (Hom & Hsb' & Hbm' & Hz & Hfr & _). unfold NDIRECT in Hbn.
  assert (ind (set_addr bn c x) = ind x) as Hind.
  { unfold ind. rewrite addr_of_set by lia. rewrite decide_False; [done|unfold NDIRECT; lia]. }
  assert (forall k, (k < MAXFILE)%nat -> blkno v' (set_addr bn c x) k = if decide (k = bn) then c else blkno v x k) as Hk.
  { intros k _. unfold blkno. rewrite Hind, addr_of_set by lia. destruct (Nat.ltb_spec k NDIRECT) as [|Hge]; [done|].
    rewrite decide_False by (unfold NDIRECT in Hge; lia). destruct (Z.eqb_spec (ind x) 0) as [|Hn]; [done|].
    by rewrite (ind_same S v v' x c). }
  assert (blkno v x bn = 0) as Hb0.
  { unfold blkno. rewrite (proj2 (Nat.ltb_lt _ _)) by (unfold NDIRECT; lia). done. }
  split; [|rewrite Hk by (unfold MAXFILE, NDIRECT; lia); by rewrite decide_True].
  split; [done|]. split; [done|]. split; [|split; [done|split; [|split; [|split; [|split; [|by left]]]]]].
  - split; [done|]. split; [done|]. split; [cbn; by rewrite length_insert|]. rewrite Hind.
    by apply (blocks_ok_data S v v' (blkno v x) _ (ind x) c bn).
  - intros k Hlt. rewrite Hk by done. case_decide; [|by left]. subst k. right. split; [done|]. by destruct Hom as (_ & ? & _).
  - by apply (fblock_allocated S v v' x _ c bn).
  - intros c' Hc' Hu. destruct Hom as (_ & _ & Hus). by rewrite Hus, Hu.
  - intros c' Hc' Hu Hnb _. apply Hfr; [|done]. intros ->. destruct Hom as (_ & Hf & _). congruence.
Qed.

Lemma ld32_zero k : (k + 4 <= 512)%nat -> ld32 zero_block k = 0.
Proof.
  intros Hk. unfold ld32, zero_block, slice, BSIZE. rewrite drop_replicate, take_replicate.
  replace (4 `min` (512 - k))%nat with 4%nat by lia. done.
Qed.

Lemma ext_ind S v v' x c :
  sb_ok S v -> inode_ok S v x -> allocated S v v' c -> ind x = 0 ->
  ext S v v' x (set_addr NDIRECT c x) /\ ind (set_addr NDIRECT c x) = c /\
  (forall k, (k < MAXFILE)%nat -> blkno v' (set_addr NDIRECT c x) k = blkno v x k).
Proof.
  intros Hsb Hok Hal H0. pose proof Hok as (Hdev & Hin & Hl & Hblk).
  pose proof Hal as (Hom & Hsb' & Hbm' & Hz & Hfr & _). destruct (one_more_new S v v' c Hsb Hom) as [_ Hc0].
  assert (ind (set_addr NDIRECT c x) = c) as Hind.
  { unfold ind. rewrite addr_of_set by (unfold NDIRECT; lia). by rewrite decide_True. }
  assert (forall k, (k < MAXFILE)%nat -> blkno v' (set_addr NDIRECT c x) k = blkno v x k) as Hk.
  { intros k Hk. unfold blkno. rewrite Hind, H0, (proj2 (Z.eqb_neq _ _) Hc0), addr_of_set by (unfold NDIRECT; lia).
    destruct (Nat.ltb_spec k NDIRECT) as [|Hge]; [rewrite decide_False by lia; done|].
    rewrite Hz. apply ld32_zero. unfold MAXFILE, NDIRECT, NINDIRECT in *. lia. }
  split; [|done]. split; [done|]. split; [done|].
  split; [|split; [done|split; [|split; [|split; [|split]]]]].
  - split; [done|]. split; [done|]. split; [cbn; by rewrite length_insert|]. rewrite Hind. rewrite H0 in Hblk.
    by apply (blocks_ok_ind S v v' (blkno v x) _ c).
  - intros k Hlt. left. by apply Hk.
  - intros k Hlt. unfold fblock. rewrite Hk by done. destruct Hblk as (_ & Hf & _).
    destruct (Hf k Hlt) as [->|[Hb _]]; [done|]. destruct (_ =? 0); [done|]. by apply (allocated_same S v v' c).
  - intros c' Hc' Hu. destruct Hom as (_ & _ & Hus). by rewrite Hus, Hu.
  - intros c' Hc' Hu Hnb _. apply Hfr; [|done]. intros ->. destruct Hom as (_ & Hf & _). congruence.
  - right. split; [done|]. rewrite Hind. by destruct Hom as (_ & ? & _).
Qed.

(** A change of a block of data leaves the bitmap as it is. *)
Lemma used_upd_data S v c d c' :
  sb_ok S v -> data_block S c -> 0 <= c' < sb_size S -> used S (upd1 v c d) c' = used S v c'.
Proof.
  intros Hsb Hc Hc'. unfold used. rewrite upd1_ne; [done|].
  pose proof (bblock_range g S v c' Hsb Hc') as Hb. unfold bitmap_block, data_block in *. lia.
Qed.

Lemma bitmap_ok_ext S v v' :
  sb_ok S v -> (forall c, 0 <= c < sb_size S -> used S v' c = used S v c) -> bitmap_ok S v -> bitmap_ok S v'.
Proof.
  intros (_ & _ & _ & _ & _ & _ & _ & _ & Hd & _) Hu Hbm c Hc. rewrite Hu by lia. by apply Hbm.
Qed.

Lemma ld32_entry (d : list Z) i j c :
  length d = 512%nat -> (i < 128)%nat -> (j < 128)%nat -> 0 <= c < 2 ^ 32 ->
  ld32 (st32 d (4 * i) c) (4 * j) = if decide (j = i) then c else ld32 d (4 * j).
Proof.
  intros Hl Hi Hj Hc. case_decide as He; [subst; rewrite ld32_st32_same by lia; by apply u32_small|].
  unfold ld32. by rewrite slice_st32_disj by lia.
Qed.

Lemma ext_entry S v v' x c bn :
  sb_ok S v -> inode_ok S v x -> allocated S v v' c -> ind x <> 0 -> (NDIRECT <= bn < MAXFILE)%nat -> blkno v x bn = 0 ->
  length (v' (ind x)) = 512%nat ->
  let v2 := upd1 v' (ind x) (st32 (v' (ind x)) (4 * (bn - NDIRECT)) c) in
  ext S v v2 x x /\ blkno v2 x bn = c /\ (forall n, has_free S v (1 + n) -> has_free S v2 n).
Proof.
  intros Hsb Hok Hal Hi0 Hbn H0 Hlen v2. pose proof Hok as (Hdev & Hin & Hl & Hblk). pose proof Hblk as ([?|Hio] & Hf & _); [done|].
  pose proof Hal as (Hom & Hsb' & Hbm' & Hz & Hfr & Hfree). destruct (one_more_new S v v' c Hsb Hom) as [Hcn Hc0].
  assert (0 <= c < 2 ^ 32) as Hc32.
  { destruct Hom as (Hd & _). pose proof (data_range S v c Hsb Hd). destruct Hsb as (_ & _ & _ & _ & _ & _ & _ & _ & _ & _ & ?). lia. }
  assert (forall c', 0 <= c' < sb_size S -> used S v2 c' = used S v' c') as Hu2
    by (intros; apply used_upd_data; [done|apply Hio|done]).
  assert (forall k, (k < MAXFILE)%nat -> blkno v2 x k = if decide (k = bn) then c else blkno v x k) as Hk.
  { intros k Hk. unfold blkno. destruct (Nat.ltb_spec k NDIRECT) as [|Hge]; [rewrite decide_False by lia; done|].
    rewrite (proj2 (Z.eqb_neq _ _) Hi0). unfold v2. rewrite upd1_same.
    rewrite ld32_entry by (done || (unfold MAXFILE, NDIRECT, NINDIRECT in *; lia)).
    destruct (decide (k - NDIRECT = bn - NDIRECT)%nat) as [He|He].
    - rewrite decide_True by lia. done.
    - rewrite decide_False by lia. by rewrite (ind_same S v v' x c). }
  assert (one_more S v v2 c) as Hom2.
  { destruct Hom as (H1 & H2 & H3). split; [done|]. split; [done|]. intros c' Hc'. by rewrite Hu2, H3. }
  split; [|split; [rewrite Hk by lia; by rewrite decide_True|intros n; by apply (one_more_free S v v2 c)]].
  split; [|split; [by apply (bitmap_ok_ext S v')|split; [|split; [by destruct x|split; [|split; [|split; [|split; [|by left]]]]]]]].
  - apply (sb_ok_ext g S v'); [|done]. unfold v2. rewrite upd1_ne; [done|].
    destruct Hio as [Hd _]. pose proof (data_pos g S v _ Hsb Hd). lia.
  - split; [done|]. split; [done|]. split; [done|]. by apply (blocks_ok_data S v v2 (blkno v x) _ (ind x) c bn).
  - intros k Hlt. rewrite Hk by done. case_decide; [|by left]. subst k. right. split; [done|]. by destruct Hom as (_ & ? & _).
  - intros k Hlt. unfold fblock. rewrite Hk by done. case_decide as He.
    + subst k. rewrite H0, (proj2 (Z.eqb_neq _ _) Hc0). unfold v2. rewrite upd1_ne; [done|].
      destruct (allocated_same S v v' c (ind x) Hsb Hal Hio) as [_ Hne]. congruence.
    + destruct (Hf k Hlt) as [->|[Hb Hne]]; [done|]. destruct (_ =? 0); [done|]. unfold v2. rewrite upd1_ne by done.
      by apply (allocated_same S v v' c).
  - intros c' Hc' Hu. destruct Hom2 as (_ & _ & ->); [|done]. by rewrite Hu.
  - intros c' Hc' Hu Hnb Hne. unfold v2. rewrite upd1_ne by done. apply Hfr; [|done].
    intros ->. destruct Hom as (_ & Hfc & _). congruence.
Qed.

(** ** [bmap] *)

Lemma wp_arr_addr b S ic x i a (Q : Z -> fs B -> Prop) :
  i_addrs x !! i = Some a -> Q a (mkfs b S ic) -> wp (arr_get (i_addrs x) i) (mkfs b S ic) Q.
Proof. intros Ha HQ. eapply wp_arr_get; [exact Ha|done]. Qed.

Lemma addr_of_lookup x i : length (i_addrs x) = 13%nat -> (i < 13)%nat -> i_addrs x !! i = Some (addr_of x i).
Proof. intros Hl Hi. unfold addr_of. destruct (lookup_lt_is_Some_2 (i_addrs x) i ltac:(lia)) as [a ->]. done. Qed.

(** A block that is there is found, and nothing changes. *)
Lemma bmap_mapped b S ic L v ip x bn (Q : Z -> fs B -> Prop) :
  bl_inv g b [] [] L v -> sb_ok S v -> ic !! ip = Some x -> inode_ok S v x -> (bn < MAXFILE)%nat -> blkno v x bn <> 0 ->
  Z.of_nat (size L) <= bl_cap g ->
  (forall b', bl_inv g b' [] [] L v -> Q (blkno v x bn) (mkfs b' S ic)) ->
  wp (bmap ip (Z.of_nat bn)) (mkfs b S ic) Q.
Proof.
  intros Hb Hsb Hx (Hdev & _ & Hl & [Hi Hf]) Hbn Hn Hs HQ. unfold bmap. apply wp_bind. eapply wp_inode_at; [done|].
  unfold blkno in Hn, HQ. destruct (Nat.ltb_spec bn NDIRECT) as [Hd|Hd].
  - rewrite (proj2 (Z.ltb_lt _ _)) by lia. apply wp_bind. rewrite Nat2Z.id.
    eapply wp_arr_addr; [apply addr_of_lookup; [done|unfold NDIRECT in *; lia]|].
    rewrite (proj2 (Z.eqb_neq _ _) Hn). apply wp_ret. by apply HQ.
  - rewrite (proj2 (Z.ltb_ge _ _)), (proj2 (Z.ltb_lt _ _)) by (unfold MAXFILE, NDIRECT, NINDIRECT in *; lia).
    destruct (Z.eqb_spec (ind x) 0) as [?|Hi0]; [done|]. destruct Hi as [?|[Hid _]]; [done|].
    apply wp_bind. eapply wp_arr_addr; [apply addr_of_lookup; [done|unfold NDIRECT; lia]|]. fold (ind x).
    rewrite (proj2 (Z.eqb_neq _ _) Hi0). apply wp_bind, wp_ret. rewrite Hdev.
    destruct (data_writable g S v _ Hsb Hid) as [Hr _].
    eapply (wp_read g); [done|done|apply not_elem_of_nil|cbn; lia|]. intros i b1 H1.
    replace (4 * Z.to_nat (Z.of_nat bn - Z.of_nat NDIRECT))%nat with (4 * (bn - NDIRECT))%nat by lia.
    rewrite (proj2 (Z.eqb_neq _ _) Hn). apply wp_bind, wp_ret. apply wp_bind. eapply (wp_fs_brelse g); [exact H1|].
    intros b2 H2. apply wp_ret. by apply HQ.
Qed.

(** The blocks a file operation may log besides those of data: the bitmap, which is one
    block, and the indirect block. *)
Definition pot S L x : Z :=
  Z.of_nat (size ({[sb_bmapstart S]} ∪ ((if ind x =? 0 then ∅ else {[ind x]}) ∪ L))) + (if ind x =? 0 then 1 else 0).

Lemma size_mono (L L' : gset Z) : L ⊆ L' -> Z.of_nat (size L) <= Z.of_nat (size L').
Proof. intros H. apply Nat2Z.inj_le. by apply subseteq_size. Qed.

Lemma pot_size S L x : Z.of_nat (size L) <= pot S L x.
Proof. unfold pot. etrans; [apply (size_mono L ({[sb_bmapstart S]} ∪ ((if ind x =? 0 then ∅ else {[ind x]}) ∪ L))); set_solver|]. destruct (_ =? 0); lia. Qed.

Lemma pot_data S L x c x' :
  ind x' = ind x -> pot S ({[c]} ∪ ({[sb_bmapstart S]} ∪ L)) x' <= pot S L x + 1.
Proof.
  intros Hi. unfold pot. rewrite Hi. set (I := if ind x =? 0 then ∅ else {[ind x]}).
  pose proof (size_union_1 c ({[sb_bmapstart S]} ∪ (I ∪ L))).
  replace ({[sb_bmapstart S]} ∪ (I ∪ ({[c]} ∪ ({[sb_bmapstart S]} ∪ L)))) with ({[c]} ∪ ({[sb_bmapstart S]} ∪ (I ∪ L))) by set_solver.
  lia.
Qed.

Lemma pot_mono S L L' x : L ⊆ L' -> pot S L x <= pot S L' x.
Proof. intros H. unfold pot. apply Z.add_le_mono_r, size_mono. set_solver. Qed.

Lemma pot_add S L x c : pot S ({[c]} ∪ L) x <= pot S L x + 1.
Proof.
  unfold pot. set (I := if ind x =? 0 then ∅ else {[ind x]}).
  pose proof (size_union_1 c ({[sb_bmapstart S]} ∪ (I ∪ L))).
  replace ({[sb_bmapstart S]} ∪ (I ∪ ({[c]} ∪ L))) with ({[c]} ∪ ({[sb_bmapstart S]} ∪ (I ∪ L))) by set_solver. lia.
Qed.

Lemma pot_ind S L x x' :
  ind x = 0 -> ind x' <> 0 -> pot S ({[ind x']} ∪ ({[sb_bmapstart S]} ∪ L)) x' <= pot S L x.
Proof.
  intros H0 Hi. unfold pot. rewrite H0, (proj2 (Z.eqb_neq _ _) Hi). cbn [Z.eqb].
  pose proof (size_union_1 (ind x') ({[sb_bmapstart S]} ∪ (∅ ∪ L))).
  replace ({[sb_bmapstart S]} ∪ ({[ind x']} ∪ ({[ind x']} ∪ ({[sb_bmapstart S]} ∪ L))))
    with ({[ind x']} ∪ ({[sb_bmapstart S]} ∪ (∅ ∪ L))) by set_solver. lia.
Qed.

Lemma one_bitmap S c : sb_size S <= BPB -> 0 <= c < sb_size S -> BBLOCK c S = sb_bmapstart S.
Proof. intros H Hc. unfold BBLOCK. rewrite Z.div_small by lia. lia. Qed.

(** What [bmap] leaves. *)
Definition bmapped S v v' x x' (bn : nat) : Prop :=
  ext S v v' x x' /\ blkno v' x' bn <> 0 /\ (blkno v x bn <> 0 -> x' = x) /\
  (forall n, has_free S v (2 + n) -> has_free S v' n).

(** The part of [bmap] that looks in the indirect block. *)
Lemma bmap_entry b S ic L v ip x bn (Q : Z -> fs B -> Prop) :
  bl_inv g b [] [] L v -> sb_ok S v -> bitmap_ok S v -> ic !! ip = Some x -> inode_ok S v x ->
  (NDIRECT <= bn < MAXFILE)%nat -> ind x <> 0 -> sb_size S <= BPB -> has_free S v 1 -> pot S L x + 2 <= bl_cap g ->
  (forall b' L' v', bl_inv g b' [] [] L' v' -> ext S v v' x x -> blkno v' x bn <> 0 ->
     (forall n, has_free S v (1 + n) -> has_free S v' n) -> pot S ({[blkno v' x bn]} ∪ L') x <= pot S L x + 1 ->
     Q (blkno v' x bn) (mkfs b' S ic)) ->
  wp (bp ← bread 1 (ind x);
      d ← buf_data bp;
      addr ← (if ld32 d (4 * (bn - NDIRECT)) =? 0 then
                addr ← balloc 1;
                d ← buf_data bp;
                set_buf bp (st32 d (4 * (bn - NDIRECT)) addr);;
                log_write bp;;
                mret addr
              else mret (ld32 d (4 * (bn - NDIRECT))));
      brelse bp;;
      mret addr) (mkfs b S ic) Q.
Proof.
  intros Hb Hsb Hbm Hx Hok Hbn Hi0 Hone Hfr Hp HQ. pose proof Hok as (Hdev & _ & Hl & Hio & _). destruct Hio as [?|Hio]; [done|].
  pose proof (data_writable g S v _ Hsb (proj1 Hio)) as Hw. pose proof (pot_size S L x) as Hps.
  assert (blkno v x bn = ld32 (v (ind x)) (4 * (bn - NDIRECT))) as Hbk.
  { unfold blkno. rewrite (proj2 (Nat.ltb_ge _ _)), (proj2 (Z.eqb_neq _ _) Hi0) by lia. done. }
  eapply (wp_read g); [done|apply Hw|apply not_elem_of_nil|cbn; lia|]. intros i b1 H1. rewrite <- Hbk.
  destruct (Z.eqb_spec (blkno v x bn) 0) as [H0|Hn].
  - apply wp_bind, wp_bind. eapply (balloc_allocates b1 S ic [(i, ind x)] L v 0); [done|done|done|done| |cbn; lia|lia|].
    { intros h Hh. apply list_elem_of_singleton in Hh as ->. exact Hio. }
    intros b2 c v1 H2 Hal. pose proof Hal as (Hom & Hsb1 & _). apply wp_bind.
    eapply (wp_fs_data g); [exact H2|apply list_elem_of_here|].
    pose proof (bl_ok _ _ _ _ _ _ _ H2 (proj1 Hw)) as Hblk.
    destruct (ext_entry S v v1 x c bn) as (He & Hbc & Hfree); [done|done|done|done|done|done|apply Hblk|].
    assert (0 <= c < sb_size S) as Hcr by (destruct Hom as [Hd _]; by apply (data_range S v)).
    rewrite one_bitmap in H2 by done. pose proof (pot_data S L x c x eq_refl) as Hpd.
    pose proof (pot_size S ({[c]} ∪ ({[sb_bmapstart S]} ∪ L)) x) as Hpz.
    eapply (wp_update g); [exact H2|apply list_elem_of_here| |done|lia|].
    { split; [rewrite length_st32; [apply Hblk|]|apply bytes_ok_splice; [apply le_enc_bytes|apply Hblk]].
      rewrite (proj1 Hblk). unfold BSIZE, MAXFILE, NDIRECT, NINDIRECT in *. lia. }
    intros b3 H3. apply wp_ret. apply wp_bind. eapply (wp_fs_brelse g); [exact H3|]. intros b4 H4. apply wp_ret.
    rewrite <- Hbc. eapply HQ; [exact H4|exact He| |exact Hfree|].
    + rewrite Hbc. by apply (one_more_new S v v1).
    + rewrite Hbc. replace (pot S _ x) with (pot S ({[c]} ∪ ({[sb_bmapstart S]} ∪ L)) x); [done|]. unfold pot.
      rewrite (proj2 (Z.eqb_neq _ _) Hi0). f_equal. f_equal. f_equal. set_solver.
  - apply wp_bind, wp_ret. apply wp_bind. eapply (wp_fs_brelse g); [exact H1|]. intros b2 H2. apply wp_ret.
    eapply HQ; [exact H2|by apply ext_refl|done| |apply pot_add]. intros n. apply has_free_le. lia.
Qed.

Lemma bmap_spec b S ic L v ip x bn (Q : Z -> fs B -> Prop) :
  bl_inv g b [] [] L v -> sb_ok S v -> bitmap_ok S v -> ic !! ip = Some x -> inode_ok S v x ->
  (bn < MAXFILE)%nat -> sb_size S <= BPB -> has_free S v 2 -> pot S L x + 2 <= bl_cap g ->
  (forall b' L' v' x', bl_inv g b' [] [] L' v' -> bmapped S v v' x x' bn ->
     pot S ({[blkno v' x' bn]} ∪ L') x' <= pot S L x + 1 ->
     Q (blkno v' x' bn) (mkfs b' S (<[ip := x']> ic))) ->
  wp (bmap ip (Z.of_nat bn)) (mkfs b S ic) Q.
Proof.
  intros Hb Hsb Hbm Hx Hok Hbn Hone Hfr Hp HQ. pose proof Hok as (Hdev & _ & Hl & Hblk). pose proof (pot_size S L x) as Hps.
  destruct (decide (blkno v x bn = 0)) as [H0|Hn].
  2: { eapply bmap_mapped; [done..|lia|]. intros b' Hb'. rewrite <- (list_insert_id ic ip x Hx). eapply HQ; [exact Hb'| |apply pot_add].
       split; [by apply ext_refl|]. split; [done|]. split; [done|]. intros n. apply has_free_le. lia. }
  unfold bmap. apply wp_bind. eapply wp_inode_at; [done|]. rewrite Hdev. destruct (Nat.ltb_spec bn NDIRECT) as [Hd|Hd].
  - rewrite (proj2 (Z.ltb_lt _ _)) by lia. apply wp_bind. rewrite Nat2Z.id.
    eapply wp_arr_addr; [apply addr_of_lookup; [done|unfold NDIRECT in *; lia]|].
    assert (addr_of x bn = 0) as Ha by (unfold blkno in H0; by rewrite (proj2 (Nat.ltb_lt _ _)) in H0). rewrite Ha.
    apply wp_bind. eapply (balloc_allocates b S ic [] L v 1); [done..| |cbn; lia|lia|]; [by intros h Hh%elem_of_nil|].
    intros b1 c v1 H1 Hal. pose proof Hal as (Hom & _ & _ & _ & _ & Hfree). apply wp_bind. eapply wp_upd_inode; [done|]. apply wp_ret.
    destruct (ext_direct S v v1 x c bn) as [He Hc]; [done..|]. rewrite <- Hc at 1.
    rewrite one_bitmap in H1; [|done|destruct Hom as [? _]; by apply (data_range S v)].
    eapply HQ; [exact H1| |].
    + split; [done|]. split; [rewrite Hc; by apply (one_more_new S v v1)|]. split; [done|]. intros n Hn. by apply (has_free_le _ _ (1 + n)); [lia|apply Hfree].
    + rewrite Hc. replace ({[c]} ∪ _) with ({[c]} ∪ ({[sb_bmapstart S]} ∪ L)) by set_solver. apply pot_data.
      unfold ind. rewrite addr_of_set by (unfold NDIRECT in *; lia). rewrite decide_False; [done|lia].
  - rewrite (proj2 (Z.ltb_ge _ _)), (proj2 (Z.ltb_lt _ _)) by (unfold MAXFILE, NDIRECT, NINDIRECT in *; lia).
    replace (4 * Z.to_nat (Z.of_nat bn - Z.of_nat NDIRECT))%nat with (4 * (bn - NDIRECT))%nat by lia.
    apply wp_bind. eapply wp_arr_addr; [apply addr_of_lookup; [done|unfold NDIRECT; lia]|]. fold (ind x).
    destruct (Z.eqb_spec (ind x) 0) as [Hi0|Hi0].
    + apply wp_bind, wp_bind. eapply (balloc_allocates b S ic [] L v 1); [done..| |cbn; lia|lia|]; [by intros h Hh%elem_of_nil|].
      intros b1 c v1 H1 Hal. pose proof Hal as (Hom & Hsb1 & Hbm1 & _ & _ & Hfree). apply wp_bind. eapply wp_upd_inode; [done|]. apply wp_ret.
      destruct (ext_ind S v v1 x c) as (He & Hind & Hk); [done..|]. set (x1 := set_addr NDIRECT c x) in *.
      destruct (one_more_new S v v1 c Hsb Hom) as [_ Hc0].
      rewrite one_bitmap in H1; [|done|destruct Hom as [? _]; by apply (data_range S v)]. rewrite <- Hind in H1 |- *.
      pose proof (pot_ind S L x x1 Hi0 ltac:(by rewrite Hind)) as Hpi.
      eapply (bmap_entry b1 S (<[ip := x1]> ic) _ v1 ip x1 bn); [exact H1|done|done| |apply He|lia|by rewrite Hind|done| |lia|].
      { apply list_lookup_insert_eq. by eapply lookup_lt_Some. }
      { by apply Hfree. }
      intros b2 L2 v2 H2 He2 Hn2 Hfree2 Hp2. eapply HQ; [exact H2| |lia]. split; [by eapply ext_trans|].
      split; [done|]. split; [done|]. intros n Hn. by apply Hfree2, Hfree.
    + apply wp_bind, wp_ret. eapply (bmap_entry b S ic L v ip x bn); [done..|by apply (has_free_le _ _ 2); [lia|]|done|].
      intros b2 L2 v2 H2 He2 Hn2 Hfree2 Hp2. rewrite <- (list_insert_id ic ip x Hx). eapply HQ; [exact H2| |lia].
      split; [done|]. split; [done|]. split; [done|]. intros n Hn. apply Hfree2. by apply (has_free_le _ _ (2 + n)); [lia|].
Qed.

End File.
End FsFile.
