(* ===== verification/FsRw.v ===== *)
(** * The file system: reading and writing files

    [readi] and [writei] of fs.c in terms of the bytes of the file. *)

From S2P Require Export FsFile.
Local Open Scope Z_scope.

Module FsRw.
Import CString Layout Fs FsSpec FsFile.

Section Rw.
Context {B : Type} `{!BlockOps B} `{!BlockLaws B} (g : geom).
Implicit Types (b : B) (S : superblock) (ic : list inode) (L : gset Z) (v : Z -> block) (x : inode).

Local Abbreviation sb_ok := (sb_ok g).
Local Abbreviation bmapped := (bmapped g).

(** ** The bytes of a file *)

Definition fbyte v x (k : nat) : Z := fblock v x (k / 512) !!! (k mod 512)%nat.

(** The blocks the bytes from [off] to [off + n] are in. *)
Definition touched (off n bn : nat) : Prop := (0 < n /\ off / 512 <= bn /\ 512 * bn < off + n)%nat.

(** From [v] and [x] to [v'] and [x'] the bytes [src] were written at [off]. *)
Definition wrote S v v' x x' (off : nat) (src : list Z) : Prop :=
  sb_ok S v' /\ bitmap_ok S v' /\ inode_ok S v' x' /\ x' = with_addrs (i_addrs x') x /\
  (forall k, (k < MAXFILE)%nat -> fresh S v (blkno v x k) (blkno v' x' k)) /\
  (forall bn, touched off (length src) bn -> blkno v' x' bn <> 0) /\
  (forall k, (k < 512 * MAXFILE)%nat -> fbyte v' x' k =
     if decide (off <= k < off + length src)%nat then src !!! (k - off)%nat else fbyte v x k) /\
  (forall c, 0 <= c < sb_size S -> used S v c = true -> used S v' c = true) /\
  (forall c, 0 <= c < sb_size S -> used S v c = true -> ~ bitmap_block S c -> c <> ind x ->
     (forall k, (k < MAXFILE)%nat -> c <> blkno v x k) -> v' c = v c) /\
  fresh S v (ind x) (ind x') /\
  ((forall bn, touched off (length src) bn -> blkno v x bn <> 0) -> x' = x).

Lemma touched_nil off bn : ~ touched off 0 bn.
Proof. intros [H _]. lia. Qed.

Lemma wrote_nil S v x off : sb_ok S v -> bitmap_ok S v -> inode_ok S v x -> wrote S v v x x off [].
Proof.
  intros H1 H2 H3. split_and!; try done; [by destruct x|intros k _; by left| | |by left].
  - intros bn Hb. by apply touched_nil in Hb.
  - intros k _. rewrite decide_False by (cbn; lia). done.
Qed.

Lemma touched_app off n m bn : touched off (n + m) bn -> touched off n bn \/ touched (off + n) m bn.
Proof.
  unfold touched. intros (H0 & H1 & H2). destruct (decide (n = 0)%nat) as [->|]; [right; rewrite Nat.add_0_r; lia|].
  destruct (decide (512 * bn < off + n)%nat) as [|Hge]; [left; lia|right].
  split; [lia|]. split; [|lia]. apply Nat.lt_succ_r. apply Nat.Div0.div_lt_upper_bound.
  pose proof (Nat.div_mod off 512 ltac:(lia)). lia.
Qed.

Lemma touched_l off n m bn : touched off n bn -> touched off (n + m) bn.
Proof. unfold touched. lia. Qed.
Lemma touched_r off n m bn : touched (off + n) m bn -> touched off (n + m) bn.
Proof.
  unfold touched. intros (H0 & H1 & H2). split; [lia|]. split; [|lia]. etrans; [|exact H1]. apply Nat.Div0.div_le_mono. lia.
Qed.

Lemma fresh_nonzero S v v' a a' : sb_ok S v -> bitmap_ok S v -> fresh S v a a' -> a <> 0 -> a' <> 0.
Proof. intros _ _ [->|[? _]]; done. Qed.

Lemma wrote_app S v v1 v2 x x1 x2 off s1 s2 :
  sb_ok S v -> bitmap_ok S v -> (off + length s1 + length s2 <= 512 * MAXFILE)%nat ->
  wrote S v v1 x x1 off s1 -> wrote S v1 v2 x1 x2 (off + length s1) s2 -> wrote S v v2 x x2 off (s1 ++ s2).
Proof.
  intros Hsb Hbm Hlim (Hs1 & Hb1 & Hi1 & Hx1 & Hk1 & Ht1 & Hf1 & Hu1 & Hfr1 & Hn1 & Hno1)
    (Hs2 & Hb2 & Hi2 & Hx2 & Hk2 & Ht2 & Hf2 & Hu2 & Hfr2 & Hn2 & Hno2). pose proof Hi2 as (_ & _ & _ & Hblk2).
  assert (forall bn, touched off (length s1 + length s2) bn -> (bn < MAXFILE)%nat) as Hmax by (unfold touched; lia).
  split_and!; try done.
  - rewrite Hx2. by rewrite Hx1.
  - intros k Hk. apply (fresh_trans g S v v1 _ (blkno v1 x1 k)); [done..|by apply (blocks_ok_range S v2 _ (ind x2))|by apply Hk1|by apply Hk2].
  - intros bn. rewrite length_app. intros Hbn. destruct (touched_app _ _ _ _ Hbn) as [Hb|Hb]; [|by apply Ht2].
    apply (fresh_nonzero S v1 v2 (blkno v1 x1 bn)); [done|done|by apply Hk2, Hmax|by apply Ht1].
  - intros k Hk. rewrite Hf2, Hf1 by done. rewrite length_app. repeat case_decide; try lia.
    + rewrite lookup_total_app_r by lia. f_equal. lia.
    + by rewrite lookup_total_app_l by lia.
  - intros c Hc Hu. by apply Hu2, Hu1.
  - intros c Hc Hu Hnb Hne Hkne. rewrite Hfr2; [by apply Hfr1|done|by apply Hu1|done|by apply (fresh_ne S v (ind x))|].
    intros k Hk. apply (fresh_ne S v (blkno v x k)); [done|by apply Hk1|by apply Hkne].
  - apply (fresh_trans g S v v1 _ (ind x1)); [done..|by apply (blocks_ok_ind_range S v2 (blkno v2 x2))|done|done].
  - rewrite length_app. intros Hall. assert (x1 = x) as -> by (apply Hno1; intros bn Hbn; by apply Hall, touched_l).
    apply Hno2. intros bn Hbn. apply (fresh_nonzero S v v1 (blkno v x bn)); [done|done| |by apply Hall, touched_r].
    apply Hk1, Hmax, touched_r, Hbn.
Qed.

(** ** One block *)

(** A file block is a block of bytes. *)
Lemma fblock_ok b hs pend L S v x bn :
  bl_inv g b hs pend L v -> sb_ok S v -> inode_ok S v x -> (bn < MAXFILE)%nat -> block_ok (fblock v x bn).
Proof.
  intros Hb Hsb (_ & _ & _ & Hblk) Hbn. unfold fblock. destruct (Z.eqb_spec (blkno v x bn) 0) as [|Hn]; [apply zero_block_ok|].
  destruct (blocks_ok_range S v _ _ bn Hblk Hbn) as [?|Hd]; [done|]. by eapply bl_ok; [|apply (data_writable g S v)].
Qed.

(** The block [bn] gets the contents [d]. *)
Lemma data_write S v x bn d :
  sb_ok S v -> bitmap_ok S v -> inode_ok S v x -> (bn < MAXFILE)%nat -> blkno v x bn <> 0 ->
  let v' := upd1 v (blkno v x bn) d in
  sb_ok S v' /\ bitmap_ok S v' /\ inode_ok S v' x /\
  (forall k, (k < MAXFILE)%nat -> blkno v' x k = blkno v x k) /\
  (forall k, (k < MAXFILE)%nat -> fblock v' x k = if decide (k = bn) then d else fblock v x k) /\
  (forall c, 0 <= c < sb_size S -> used S v' c = used S v c) /\
  (forall n, has_free S v n -> has_free S v' n).
Proof.
  intros Hsb Hbm Hok Hbn Hn v'. pose proof Hok as (Hdev & Hin & Hl & Hblk). pose proof Hblk as (Hi & Hf & Hinj).
  destruct (Hf bn Hbn) as [?|[[Hd Hu] Hni]]; [done|].
  assert (forall c, 0 <= c < sb_size S -> used S v' c = used S v c) as Hus by (intros; by apply (used_upd_data g)).
  assert (forall k, blkno v' x k = blkno v x k) as Hk.
  { intros k. unfold blkno. destruct (_ <? _)%nat; [done|]. destruct (_ =? 0); [done|]. unfold v'. by rewrite upd1_ne. }
  assert (forall c, blk_ok S v c -> blk_ok S v' c) as Hbo.
  { intros c [Hc1 Hc2]. split; [done|]. rewrite Hus; [done|]. by apply (data_range g S v). }
  split_and!; try done.
  - apply (sb_ok_ext g S v); [|done]. unfold v'. rewrite upd1_ne; [done|]. pose proof (data_pos g S v _ Hsb Hd). lia.
  - by apply (bitmap_ok_ext g S v).
  - split; [done|]. split; [done|]. split; [done|]. split_and!.
    + destruct Hi as [?|Hi]; [by left|right; by apply Hbo].
    + intros k Hlt. rewrite Hk. destruct (Hf k Hlt) as [?|[Hb ?]]; [by left|right]. split; [by apply Hbo|done].
    + intros k k' H1 H2. rewrite !Hk. by apply Hinj.
  - intros k Hlt. unfold fblock. rewrite Hk. case_decide as He.
    + subst k. rewrite (proj2 (Z.eqb_neq _ _) Hn). unfold v'. apply upd1_same.
    + destruct (Z.eqb_spec (blkno v x k) 0) as [|Hkn]; [done|]. unfold v'. rewrite upd1_ne; [done|].
      intros Heq. apply He. by apply Hinj.
  - intros n (l & Hnd & Hlen & Hfree). exists l. split_and!; [done..|]. intros c Hc. destruct (Hfree c Hc) as [Hcd Hcf].
    split; [done|]. rewrite Hus; [done|]. by apply (data_range g S v).
Qed.

Lemma lookup_total_splice off (bs l : list Z) i :
  (off + length bs <= length l)%nat ->
  splice off bs l !!! i = if decide (off <= i < off + length bs)%nat then bs !!! (i - off)%nat else l !!! i.
Proof.
  intros Hl. rewrite !list_lookup_total_alt. case_decide as Hd; [by rewrite lookup_splice_in by lia|].
  by rewrite lookup_splice_out by lia.
Qed.

(** Bytes written within one block, after [bmap] of it. *)
Lemma wrote_block S v v1 x x1 off src :
  sb_ok S v -> inode_ok S v x -> (off < 512 * MAXFILE)%nat -> src <> [] -> (off mod 512 + length src <= 512)%nat ->
  let bn := (off / 512)%nat in
  bmapped S v v1 x x1 bn -> length (fblock v1 x1 bn) = 512%nat ->
  let v2 := upd1 v1 (blkno v1 x1 bn) (splice (off mod 512) src (v1 (blkno v1 x1 bn))) in
  wrote S v v2 x x1 off src.
Proof.
  intros Hsb Hok Hoff Hne Hfit bn (Hext & Hn & Hsame & Hfree) Hlen v2.
  destruct Hext as (Hs1 & Hb1 & Hi1 & Hx1 & Hk1 & Hf1 & Hu1 & Hfr1 & Hn1).
  assert (bn < MAXFILE)%nat as Hbn by (apply Nat.Div0.div_lt_upper_bound; lia).
  destruct (data_write S v1 x1 bn (splice (off mod 512) src (v1 (blkno v1 x1 bn))) Hs1 Hb1 Hi1 Hbn Hn)
    as (Hs2 & Hb2 & Hi2 & Hk2 & Hf2 & Hu2 & _). fold v2 in Hs2, Hb2, Hi2, Hk2, Hf2, Hu2.
  pose proof (Nat.div_mod off 512 ltac:(lia)) as Hdm. fold bn in Hdm.
  assert (forall k, touched off (length src) k -> k = bn) as Ht.
  { intros k (Hl0 & Hl1 & Hl2). fold bn in Hl1. lia. }
  assert (fblock v1 x1 bn = v1 (blkno v1 x1 bn)) as Hfb by (unfold fblock; by rewrite (proj2 (Z.eqb_neq _ _) Hn)).
  split_and!; try done.
  - intros k Hk. rewrite Hk2 by done. by apply Hk1.
  - intros k Hk. rewrite (Ht k Hk), Hk2 by done. done.
  - intros k Hk. unfold fbyte. assert (k / 512 < MAXFILE)%nat by (apply Nat.Div0.div_lt_upper_bound; lia).
    rewrite Hf2 by done. pose proof (Nat.div_mod k 512 ltac:(lia)) as Hdk. pose proof (Nat.mod_upper_bound k 512 ltac:(lia)).
    case_decide as Hkb.
    + rewrite Hkb in Hdk. rewrite Hfb in Hlen. rewrite lookup_total_splice by lia.
      destruct (decide (off <= k < off + length src)%nat); [rewrite decide_True by lia; f_equal; lia|].
      rewrite decide_False by lia. rewrite <- Hfb, Hf1, Hkb by done. done.
    + assert (k / 512 <> bn)%nat as Hkb' by done. rewrite decide_False; [by rewrite Hf1|]. intros Hin. apply Hkb'.
      unfold bn. symmetry. apply (Nat.div_unique k 512 _ (k mod 512)); fold bn; [done|]. lia.
  - intros c Hc Hu. rewrite Hu2 by done. by apply Hu1.
  - intros c Hc Hu Hnb Hci Hck. unfold v2. rewrite upd1_ne; [by apply Hfr1|].
    apply (fresh_ne S v (blkno v x bn)); [done|by apply Hk1|by apply Hck].
  - intros Hall. apply Hsame, Hall. unfold touched. destruct src; [done|]. cbn [length]. fold bn. lia.
Qed.

(** ** The loop of [writei] *)

Lemma off_block (off : nat) : Z.of_nat off / 512 = Z.of_nat (off / 512) /\ Z.of_nat off mod 512 = Z.of_nat (off mod 512).
Proof. rewrite Nat2Z.inj_div, Nat2Z.inj_mod. done. Qed.

Lemma next_block off m : (off mod 512 + m = 512)%nat -> ((off + m) mod 512 = 0)%nat.
Proof.
  intros Hm. pose proof (Nat.div_mod off 512 ltac:(lia)) as Hd.
  replace (off + m)%nat with ((off / 512 + 1) * 512)%nat by lia. apply Nat.Div0.mod_mul.
Qed.

Lemma writei_loop_nil fuel ip (off : Z) : writei_loop fuel ip off [] = (mret off : K (fs B) Z).
Proof. by destruct fuel. Qed.

Lemma writei_loop_cons fuel ip (off : Z) src :
  src <> [] ->
  writei_loop (Datatypes.S fuel) ip off src =
    (x ← inode_at ip;
     b ← bmap ip (off / 512);
     bp ← bread (i_dev x) b;
     d ← buf_data bp;
     let m := Z.to_nat (Z.min (Z.of_nat (length src)) (512 - off mod 512)) in
     set_buf bp (splice (Z.to_nat (off mod 512)) (take m src) d);;
     log_write bp;;
     brelse bp;;
     writei_loop fuel ip (off + Z.of_nat m) (drop m src) : K (fs B) Z).
Proof. by destruct src. Qed.

Lemma writei_loop_spec n : forall fuel b S ic L v ip x off src (Q : Z -> fs B -> Prop),
  bl_inv g b [] [] L v -> sb_ok S v -> bitmap_ok S v -> ic !! ip = Some x -> inode_ok S v x -> sb_size S <= BPB ->
  bytes_ok src -> (off + length src <= 512 * MAXFILE)%nat -> (src = [] \/ off mod 512 + length src <= 512 * n)%nat -> (n <= fuel)%nat ->
  has_free S v (2 * n) -> pot S L x + Z.of_nat n + 1 <= bl_cap g ->
  (forall b' L' v' x', bl_inv g b' [] [] L' v' -> wrote S v v' x x' off src -> pot S L' x' <= pot S L x + Z.of_nat n ->
     Q (Z.of_nat (off + length src)) (mkfs b' S (<[ip := x']> ic))) ->
  wp (writei_loop fuel ip (Z.of_nat off) src) (mkfs b S ic) Q.
Proof.
  induction n as [|n IH]; intros fuel b S ic L v ip x off src Q Hb Hsb Hbm Hx Hok Hone Hby Hlim Hn Hfu Hfree Hpot HQ.
  all: destruct (decide (src = [])) as [->|Hne].
  1, 3: rewrite writei_loop_nil; apply wp_ret; rewrite <- (list_insert_id ic ip x Hx), <- (Nat.add_0_r off) at 1;
    eapply HQ; [exact Hb|by apply wrote_nil|lia].
  { destruct Hn as [?|Hn]; [done|]. destruct src; [done|]. cbn in Hn. lia. }
  destruct Hn as [?|Hn]; [done|]. destruct fuel as [|fuel]; [lia|]. rewrite writei_loop_cons by done.
  apply wp_bind. eapply wp_inode_at; [done|]. apply wp_bind. destruct (off_block off) as [-> ->].
  assert (0 < length src)%nat as Hlen by (destruct src; [done|cbn; lia]).
  assert (off / 512 < MAXFILE)%nat as Hbn by (apply Nat.Div0.div_lt_upper_bound; lia).
  pose proof (Nat.mod_upper_bound off 512 ltac:(lia)) as Hmod.
  eapply (bmap_spec g); [exact Hb|done..|by apply (has_free_le _ _ (2 * Datatypes.S n)); [lia|]|lia|].
  intros b1 L1 v1 x1 H1 Hbmp Hp1. pose proof Hbmp as (Hext & Hnz & _ & Hfr1). pose proof Hext as (Hs1 & Hb1 & Hi1 & _).
  pose proof (fblock_ok _ _ _ _ S v1 x1 _ H1 Hs1 Hi1 Hbn) as Hfok.
  pose proof Hi1 as (_ & _ & _ & Hblk1). destruct (blocks_ok_range S v1 _ _ _ Hblk1 Hbn) as [?|Hd]; [done|].
  pose proof (data_writable g S v1 _ Hs1 Hd) as Hw. pose proof (pot_size S L1 x1) as Hz1.
  pose proof (pot_mono S L1 ({[blkno v1 x1 (off / 512)%nat]} ∪ L1) x1 ltac:(apply union_subseteq_r)) as Hmono.
  assert (i_dev x = 1) as -> by apply Hok.
  eapply (wp_read g); [exact H1|apply Hw|apply not_elem_of_nil|cbn; lia|]. intros i b2 H2.
  set (m := Z.to_nat (Z.min _ _)). rewrite Nat2Z.id.
  assert (m = Nat.min (length src) (512 - off mod 512)) as Hm by (unfold m; lia). clearbody m.
  set (c := blkno v1 x1 (off / 512)) in *. pose proof (bl_ok _ _ _ _ _ _ _ H2 (proj1 Hw)) as Hcok.
  assert (length (take m src) = m) as Hlt by (rewrite length_take; lia).
  eapply (wp_update g); [exact H2|apply list_elem_of_here| |done|lia|].
  { split; [rewrite length_splice; [apply Hcok|]|apply bytes_ok_splice; [by apply Forall_take|apply Hcok]].
    rewrite (proj1 Hcok), Hlt. unfold BSIZE. lia. }
  intros b3 H3. apply wp_bind. eapply (wp_fs_brelse g); [exact H3|]. intros b4 H4. rewrite <- Nat2Z.inj_add.
  assert (wrote S v (upd1 v1 c (splice (off mod 512) (take m src) (v1 c))) x x1 off (take m src)) as Hw1.
  { apply (wrote_block S v v1 x x1); [done|done|lia|intros Ht; rewrite Ht in Hlt; cbn in Hlt; lia|lia|done|apply Hfok]. }
  destruct Hw1 as (Hs2 & Hb2 & Hi2 & Hw1). eapply (IH fuel b4 S (<[ip := x1]> ic) _ _ ip x1); [exact H4|done|done| |done|done| | | |lia| |lia|].
  - apply list_lookup_insert_eq. by eapply lookup_lt_Some.
  - by apply Forall_drop.
  - rewrite length_drop. lia.
  - destruct (decide (m = length src)) as [->|Hmn]; [left; by apply drop_ge|right].
    rewrite length_drop, next_block by lia. lia.
  - apply (data_write S v1 x1 (off / 512)); [done..|]. apply Hfr1. by replace (2 + 2 * n)%nat with (2 * Datatypes.S n)%nat by lia.
  - intros b' L' v' x' H' Hw' Hp'. rewrite list_insert_insert_eq, length_drop.
    replace (off + m + (length src - m))%nat with (off + length src)%nat by lia. eapply HQ; [exact H'| |lia].
    rewrite <- (take_drop m src). eapply (wrote_app S v _ v' x x1 x'); [done|done|rewrite Hlt, length_drop; lia| |by rewrite Hlt].
    exact (conj Hs2 (conj Hb2 (conj Hi2 Hw1))).
Qed.

(** ** Files *)

(** A file: an inode with a size whose bytes are all in blocks of the file. *)
Definition file_ok S v x : Prop :=
  inode_ok S v x /\ dinode_ok (to_dinode x) /\ i_size x <= Z.of_nat (512 * MAXFILE) /\
  forall bn : nat, 512 * Z.of_nat bn < i_size x -> blkno v x bn <> 0.

Definition contents v x : list Z := fbyte v x <$> seq 0 (Z.to_nat (i_size x)).

(** The inode on disk is that in memory. *)
Definition synced S v x : Prop := dinode_at S v (i_inum x) = to_dinode x.

(** What is not of the file [x] is as it was: the blocks in use by others, and the other
    inodes. *)
Definition untouched S v v' x : Prop :=
  (forall c, 0 <= c < sb_size S -> used S v c = true -> used S v' c = true) /\
  (forall c, 0 <= c < sb_size S -> used S v c = true -> ~ bitmap_block S c -> c <> IBLOCK (i_inum x) S -> c <> ind x ->
     (forall k, (k < MAXFILE)%nat -> c <> blkno v x k) -> v' c = v c) /\
  (forall inum, inum_ok S inum -> inum <> i_inum x -> dinode_at S v' inum = dinode_at S v inum).

(** The blocks of a file depend on the blocks of data and of the bitmap only. *)
Lemma inode_ok_same S v v' x :
  sb_ok S v -> inode_ok S v x ->
  (forall c, 0 <= c < sb_size S -> bitmap_block S c \/ data_block S c -> v' c = v c) ->
  inode_ok S v' x /\ (forall k, blkno v' x k = blkno v x k) /\
  (forall k, (k < MAXFILE)%nat -> fblock v' x k = fblock v x k) /\
  (forall c, 0 <= c < sb_size S -> used S v' c = used S v c).
Proof.
  intros Hsb Hok He. pose proof Hok as (Hdev & Hin & Hl & Hblk). pose proof Hblk as (Hi & Hf & Hinj).
  assert (forall c, 0 <= c < sb_size S -> used S v' c = used S v c) as Hu.
  { intros c Hc. unfold used. rewrite He; [done| |left]; pose proof (bblock_range g S v c Hsb Hc) as Hr; [|done].
    destruct Hsb as (_ & ? & ? & ? & ? & ? & ? & ? & ? & ? & ? & ?). unfold bitmap_block in Hr.
    pose proof (Z.div_pos (sb_ninodes S) IPB ltac:(lia) ltac:(done)). lia. }
  assert (forall c, data_block S c -> v' c = v c) as Hd.
  { intros c Hc. apply He; [by apply (data_range g S v)|by right]. }
  assert (forall k, blkno v' x k = blkno v x k) as Hk.
  { intros k. unfold blkno. destruct (_ <? _)%nat; [done|]. destruct (Z.eqb_spec (ind x) 0) as [|Hn]; [done|].
    destruct Hi as [?|[Hid _]]; [done|]. by rewrite Hd. }
  assert (forall c, blk_ok S v c -> blk_ok S v' c) as Hbo.
  { intros c [Hc1 Hc2]. split; [done|]. rewrite Hu; [done|]. by apply (data_range g S v). }
  split_and!; try done.
  - split; [done|]. split; [done|]. split; [done|]. split_and!.
    + destruct Hi as [?|Hi]; [by left|right; by apply Hbo].
    + intros k Hlt. rewrite Hk. destruct (Hf k Hlt) as [?|[Hb ?]]; [by left|right]. split; [by apply Hbo|done].
    + intros k k' H1 H2. rewrite !Hk. by apply Hinj.
  - intros k Hlt. unfold fblock. rewrite Hk. destruct (_ =? 0) eqn:E; [done|]. apply Hd. apply Z.eqb_neq in E.
    by destruct (blocks_ok_range S v _ _ k Hblk Hlt).
Qed.

Lemma lookup_contents v x k : Z.of_nat k < i_size x -> contents v x !! k = Some (fbyte v x k).
Proof. intros Hk. unfold contents. rewrite list_lookup_fmap, lookup_seq_lt by lia. done. Qed.

Lemma length_file_contents v x : length (contents v x) = Z.to_nat (i_size x).
Proof. unfold contents. by rewrite length_fmap, length_seq. Qed.

(** The bytes after a write, as a list. *)
Lemma contents_wrote v v' x x' off src :
  0 <= i_size x -> Z.of_nat off <= i_size x -> i_size x <= Z.of_nat (512 * MAXFILE) ->
  i_size x' = Z.max (i_size x) (Z.of_nat (off + length src)) -> i_size x' <= Z.of_nat (512 * MAXFILE) ->
  (forall k, (k < 512 * MAXFILE)%nat -> fbyte v' x' k =
     if decide (off <= k < off + length src)%nat then src !!! (k - off)%nat else fbyte v x k) ->
  contents v' x' = take off (contents v x) ++ src ++ drop (off + length src) (contents v x).
Proof.
  intros H0 Hoff Hsz Hsz' Hlim Hby. apply list_eq. intros k.
  destruct (decide (Z.of_nat k < i_size x')) as [Hk|Hk].
  - rewrite lookup_contents, Hby by (done || lia).
    assert (length (take off (contents v x)) = off) as Hlt by (rewrite length_take, length_file_contents; lia).
    destruct (decide (k < off)%nat) as [Hlo|Hlo].
    { rewrite lookup_app_l, lookup_take_lt, lookup_contents by lia. by rewrite decide_False by lia. }
    rewrite lookup_app_r, Hlt by lia. destruct (decide (k < off + length src)%nat) as [Hin|Hin].
    + rewrite decide_True, lookup_app_l by lia. symmetry. apply list_lookup_lookup_total_lt. lia.
    + rewrite decide_False, lookup_app_r, lookup_drop by lia.
      replace (off + length src + (k - off - length src))%nat with k by lia. by rewrite lookup_contents by lia.
  - rewrite !lookup_ge_None_2; [done| |rewrite length_file_contents; lia].
    rewrite !length_app, length_take, length_drop, length_file_contents. lia.
Qed.

(** ** [writei] *)

Lemma set_size_file S v x n :
  blkno v (set_size n x) = blkno v x /\ fbyte v (set_size n x) = fbyte v x /\ ind (set_size n x) = ind x /\
  (inode_ok S v x -> inode_ok S v (set_size n x)).
Proof. done. Qed.

(** The inode stored on disk does not touch the data. *)
Lemma store_v_data S v x di :
  sb_ok S v -> inum_ok S (i_inum x) -> forall c, 0 <= c < sb_size S -> bitmap_block S c \/ data_block S c ->
  store_v S v (i_inum x) di c = v c.
Proof.
  intros Hsb Hin c Hc Hr. unfold store_v. apply upd1_ne. destruct (iblock_range g S v _ Hsb Hin) as [Hi _].
  destruct Hsb as (_ & ? & ? & ? & ? & ? & ? & ? & ? & ? & ? & ?). unfold bitmap_block, data_block, datastart in *.
  pose proof (Z.div_pos (sb_size S) BPB ltac:(lia) ltac:(done)). lia.
Qed.

Lemma store_v_sb S v x di : sb_ok S v -> inum_ok S (i_inum x) -> sb_ok S (store_v S v (i_inum x) di).
Proof.
  intros Hsb Hin. apply (sb_ok_ext g S v); [|done]. unfold store_v. apply upd1_ne.
  destruct (iblock_range g S v _ Hsb Hin) as [_ (_ & ? & _)]. done.
Qed.

(** A write of data leaves the other inodes alone. *)
Lemma wrote_untouched S v v' x x' off src :
  sb_ok S v -> bitmap_ok S v -> inode_ok S v x -> wrote S v v' x x' off src ->
  untouched S v v' x /\ forall inum, inum_ok S inum -> dinode_at S v' inum = dinode_at S v inum.
Proof.
  intros Hsb Hbm Hok (_ & _ & _ & _ & _ & _ & _ & Hu & Hfr & _).
  assert (forall inum, inum_ok S inum -> dinode_at S v' inum = dinode_at S v inum) as Hdi.
  { intros inum Hin. unfold dinode_at. f_equal. destruct (iblock_range g S v _ Hsb Hin) as [Hr Hw].
    pose proof Hsb as (_ & ? & ? & ? & ? & ? & ? & ? & Hds & ? & ? & ?).
    pose proof (Z.div_pos (sb_size S) BPB ltac:(lia) ltac:(done)). pose proof Hok as (_ & _ & _ & Hblk).
    assert (IBLOCK inum S < datastart S) by (unfold datastart; lia).
    assert (forall a, a = 0 \/ data_block S a -> IBLOCK inum S <> a) as Hne.
    { intros a [->|Ha]; [lia|]. unfold data_block in Ha. lia. }
    apply Hfr; [lia|apply Hbm; lia|unfold bitmap_block; lia|by apply Hne, (blocks_ok_ind_range S v (blkno v x))|].
    intros k Hk. by apply Hne, (blocks_ok_range S v _ (ind x)). }
  split; [|done]. split; [done|]. split; [intros; by apply Hfr|]. intros inum Hin _. by apply Hdi.
Qed.

Context (devread : Z -> option (nat -> Z -> K (fs B) (Z * list Z))).
Context (devwrite : Z -> option (nat -> list Z -> K (fs B) Z)).

(** What [writei] leaves of a file. *)
Definition written S v v' x x' (off : nat) (src : list Z) : Prop :=
  sb_ok S v' /\ bitmap_ok S v' /\ file_ok S v' x' /\ (synced S v x -> synced S v' x') /\
  x' = set_size (Z.max (i_size x) (Z.of_nat (off + length src))) (with_addrs (i_addrs x') x) /\
  contents v' x' = take off (contents v x) ++ src ++ drop (off + length src) (contents v x) /\
  untouched S v v' x.

Lemma writei_loop_fuel (off len n : nat) :
  (off mod 512 + len <= 512 * n)%nat -> exists k, (k <= Z.to_nat (Z.of_nat len / 512 + 2))%nat /\ (k <= n)%nat /\
    (off mod 512 + len <= 512 * k)%nat.
Proof.
  intros Hn. exists (Nat.min n (Z.to_nat (Z.of_nat len / 512 + 2))). pose proof (Nat.mod_upper_bound off 512 ltac:(lia)).
  pose proof (Z.div_mod (Z.of_nat len) 512 ltac:(lia)). pose proof (Z.mod_pos_bound (Z.of_nat len) 512 ltac:(lia)).
  pose proof (Z.div_pos (Z.of_nat len) 512 ltac:(lia) ltac:(lia)). lia.
Qed.

Lemma addrs_u32 S v x : sb_ok S v -> inode_ok S v x -> Forall (fun a => 0 <= a < 2 ^ 32) (i_addrs x).
Proof.
  intros Hsb (_ & _ & Hl & Hblk). pose proof Hsb as (_ & _ & _ & _ & _ & _ & _ & _ & _ & _ & Hs).
  assert (forall a, a = 0 \/ data_block S a -> 0 <= a < 2 ^ 32) as Hr.
  { intros a [->|Ha]; [lia|]. pose proof (data_range g S v a Hsb Ha). lia. }
  apply Forall_lookup. intros i a Ha. pose proof (lookup_lt_Some _ _ _ Ha) as Hi. apply Hr.
  assert (addr_of x i = a) as <- by (unfold addr_of; by rewrite Ha). destruct (decide (i = 12)%nat) as [->|Hn].
  - apply (blocks_ok_ind_range S v (blkno v x) _ Hblk).
  - pose proof (blocks_ok_range S v _ _ i Hblk ltac:(unfold MAXFILE, NDIRECT; lia)) as H. unfold blkno in H.
    by rewrite (proj2 (Nat.ltb_lt _ _)) in H by (unfold NDIRECT; lia).
Qed.

Lemma dinode_ok_with S v x l n :
  sb_ok S v -> inode_ok S v (with_addrs l x) -> dinode_ok (to_dinode x) -> 0 <= n < 2 ^ 32 ->
  dinode_ok (to_dinode (set_size n (with_addrs l x))).
Proof.
  intros Hsb Hok (H1 & H2 & H3 & H4 & _) Hn. pose proof (addrs_u32 S v _ Hsb Hok) as Ha. destruct Hok as (_ & _ & Hl & _).
  unfold dinode_ok; cbn in *; split_and!; done || lia.
Qed.

(** The size after the data was written: a file that grew, and one that did not. *)
Lemma written_grown S v v1 x x1 off src :
  sb_ok S v -> bitmap_ok S v -> file_ok S v x -> wrote S v v1 x x1 off src ->
  Z.of_nat off <= i_size x -> i_size x < Z.of_nat (off + length src) -> (off + length src <= 512 * MAXFILE)%nat ->
  block_ok (v1 (IBLOCK (i_inum x) S)) ->
  let x2 := set_size (Z.of_nat (off + length src)) x1 in
  written S v (store_v S v1 (i_inum x) (to_dinode x2)) x x2 off src.
Proof.
  intros Hsb Hbm (Hok & Hdok & Hsz & Hdense) Hw Hoff Hgrow Hlim Hblk x2.
  pose proof (wrote_untouched S v v1 x x1 off src Hsb Hbm Hok Hw) as [(Hu & Hfr & _) Hdi].
  destruct Hw as (Hs1 & Hb1 & Hi1 & Hx1 & Hk1 & Ht1 & Hf1 & _ & _ & _ & _).
  pose proof Hok as (_ & Hin & _). assert (i_inum x1 = i_inum x) as Hinum by (by rewrite Hx1).
  set (v2 := store_v S v1 (i_inum x) (to_dinode x2)).
  assert (forall c, 0 <= c < sb_size S -> bitmap_block S c \/ data_block S c -> v2 c = v1 c) as Hsame
    by (apply store_v_data; done).
  destruct (inode_ok_same S v1 v2 x1 Hs1 Hi1 Hsame) as (Hi2 & Hk2 & Hf2 & Hu2).
  assert (x2 = set_size (Z.of_nat (off + length src)) (with_addrs (i_addrs x1) x)) as Hx2 by (unfold x2; by rewrite Hx1).
  assert (0 <= i_size x < 2 ^ 32) as Hs32 by apply Hdok. assert (Z.of_nat (512 * MAXFILE) = 71680) as Hmax by (rewrite Nat2Z.inj_mul; done).
  assert (dinode_ok (to_dinode x2)) as Hd2.
  { rewrite Hx2. apply (dinode_ok_with S v1); [done|by rewrite <- Hx1|done|lia]. }
  split; [by apply store_v_sb|]. split; [by apply (bitmap_ok_ext g S v1)|].
  split; [split; [done|split; [done|split; [change (i_size x2) with (Z.of_nat (off + length src)); lia|]]]|split; [|split; [|split; [|split; [|split]]]]].
  - intros bn Hbn. change (i_size x2) with (Z.of_nat (off + length src)) in Hbn. change (blkno v2 x2 bn) with (blkno v2 x1 bn). rewrite Hk2.
    destruct (decide (512 * Z.of_nat bn < i_size x)) as [Hlo|Hlo].
    + apply (fresh_nonzero S v v1 (blkno v x bn)); [done|done|apply Hk1; lia|by apply Hdense].
    + apply Ht1. split; [lia|]. split; [|lia]. apply Nat.Div0.div_le_upper_bound. lia.
  - intros _. unfold synced. change (i_inum x2) with (i_inum x1). rewrite Hinum. by apply store_v_same.
  - rewrite Hx2. unfold set_size. cbn. f_equal. lia.
  - apply contents_wrote; [lia|lia|exact Hsz|change (i_size x2) with (Z.of_nat (off + length src)); lia..|]. intros k Hk. rewrite <- Hf1 by done.
    unfold fbyte. change (fblock v2 x2) with (fblock v2 x1). rewrite Hf2; [done|]. apply Nat.Div0.div_lt_upper_bound. lia.
  - intros c Hc Huc. rewrite Hu2 by done. by apply Hu.
  - intros c Hc Huc Hnb Hni Hci Hck. unfold v2, store_v. rewrite upd1_ne by done. by apply Hfr.
  - intros inum Hio Hne. unfold v2. rewrite store_v_other; [by apply Hdi|done| |done]. rewrite Hx2. cbn.
    destruct Hi1 as (_ & _ & ? & _). done.
Qed.

Lemma written_inside S v v1 x x1 off src :
  sb_ok S v -> bitmap_ok S v -> file_ok S v x -> wrote S v v1 x x1 off src ->
  Z.of_nat (off + length src) <= i_size x -> written S v v1 x x1 off src.
Proof.
  intros Hsb Hbm (Hok & Hdok & Hsz & Hdense) Hw Hin.
  pose proof (wrote_untouched S v v1 x x1 off src Hsb Hbm Hok Hw) as [Hun Hdi].
  destruct Hw as (Hs1 & Hb1 & Hi1 & Hx1 & Hk1 & Ht1 & Hf1 & _ & _ & _ & Hno).
  assert (x1 = x) as ->. { apply Hno. intros bn (H1 & H2 & H3). apply Hdense. lia. }
  assert (0 <= i_size x < 2 ^ 32) as Hs32 by apply Hdok. pose proof Hok as (_ & Hinum & _).
  split; [done|]. split; [done|]. split; [split; [done|split; [done|split; [exact Hsz|]]]|split; [|split; [|split; [|exact Hun]]]].
  - intros bn Hbn. apply (fresh_nonzero S v v1 (blkno v x bn)); [done|done|apply Hk1; lia|by apply Hdense].
  - unfold synced. intros Hsy. by rewrite Hdi.
  - rewrite Z.max_l by lia. destruct x. reflexivity.
  - apply contents_wrote; [lia|lia|exact Hsz|lia|lia|exact Hf1].
Qed.

Lemma maxfile_bytes : Z.of_nat (MAXFILE * BSIZE) = 71680 /\ Z.of_nat (512 * MAXFILE) = 71680.
Proof. rewrite !Nat2Z.inj_mul. done. Qed.

Lemma writei_spec n b S ic L v ip x (off : nat) src (Q : Z -> fs B -> Prop) :
  bl_inv g b [] [] L v -> sb_ok S v -> bitmap_ok S v -> ic !! ip = Some x -> file_ok S v x -> i_type x <> T_DEV ->
  sb_size S <= BPB -> bytes_ok src -> Z.of_nat off <= i_size x -> (off + length src <= 512 * MAXFILE)%nat ->
  (off mod 512 + length src <= 512 * n)%nat -> has_free S v (2 * n) -> pot S L x + Z.of_nat n + 1 <= bl_cap g ->
  (forall b' L' v' x', bl_inv g b' [] [] L' v' -> written S v v' x x' off src ->
     Z.of_nat (size L') <= pot S L x + Z.of_nat n + 1 -> Q (Z.of_nat (length src)) (mkfs b' S (<[ip := x']> ic))) ->
  wp (writei devwrite ip src (Z.of_nat off)) (mkfs b S ic) Q.
Proof.
  intros Hb Hsb Hbm Hx Hf Ht Hone Hby Hoff Hlim Hn Hfree Hpot HQ. pose proof Hf as (Hok & Hdok & Hsz & _).
  assert (0 <= i_size x < 2 ^ 32) as Hs32 by apply Hdok. destruct maxfile_bytes as [Hm1 Hm2].
  unfold writei. apply wp_bind. eapply wp_inode_at; [done|]. rewrite (proj2 (Z.eqb_neq _ _) Ht).
  rewrite u32_small by lia. rewrite !(proj2 (Z.ltb_ge _ _)) by lia. cbn [orb].
  destruct (writei_loop_fuel off (length src) n Hn) as (k & Hk1 & Hk2 & Hk3).
  apply wp_bind. eapply (writei_loop_spec k); [done|done|done|done|done|done|done|done|by right|done|by apply (has_free_le _ _ (2 * n)); [lia|]|lia|].
  intros b1 L1 v1 x1 H1 Hw Hp1. pose proof (lookup_lt_Some _ _ _ Hx) as Hlt. pose proof (pot_size S L1 x1) as Hz1.
  apply wp_bind. eapply wp_inode_at; [by apply list_lookup_insert_eq|].
  pose proof Hw as (Hs1 & Hb1 & Hi1 & Hx1 & _). assert (i_size x1 = i_size x) as -> by (by rewrite Hx1).
  rewrite s32_small by lia. destruct (decide (i_size x < Z.of_nat (off + length src))) as [Hg|Hg].
  - rewrite (proj2 (Z.ltb_lt _ _) Hg), (proj2 (Z.ltb_lt 0 _)) by lia. cbn [andb]. apply wp_bind, wp_bind.
    eapply wp_upd_inode; [by apply list_lookup_insert_eq|]. rewrite list_insert_insert_eq.
    set (x2 := set_size (Z.of_nat (off + length src)) x1).
    assert (i_inum x2 = i_inum x) as Hin by (unfold x2; by rewrite Hx1).
    pose proof Hi1 as (Hdev1 & Hin1 & Hl1 & _).
    eapply (iupdate_spec g b1 S _ _ v1 ip x2); [exact H1|done|by apply list_lookup_insert_eq|done|done|done|lia|].
    intros b2 H2. apply wp_ret. rewrite Hin in H2. eapply HQ; [exact H2| |].
    + apply (written_grown S v v1 x x1); [done..|]. destruct Hok as (_ & Hino & _).
      eapply bl_ok; [exact H1|]. destruct (iblock_range g S v _ Hsb Hino) as [_ [? _]]. done.
    + pose proof (size_union_1 (IBLOCK (i_inum x) S) L1). lia.
  - rewrite (proj2 (Z.ltb_ge (i_size x) _)) by lia. rewrite andb_false_r. apply wp_bind, wp_ret, wp_ret. eapply HQ; [exact H1| |lia].
    apply written_inside; [done..|lia].
Qed.

(** ** [readi] *)

Lemma readi_loop_spec n : forall fuel b S ic L v ip x (off len tot : nat) acc (Q : list Z -> fs B -> Prop),
  bl_inv g b [] [] L v -> sb_ok S v -> ic !! ip = Some x -> file_ok S v x ->
  Z.of_nat (off + len) <= i_size x -> (len = 0 \/ off mod 512 + len <= 512 * n)%nat -> (n <= fuel)%nat ->
  Z.of_nat (size L) <= bl_cap g ->
  (forall b', bl_inv g b' [] [] L v -> Q (acc ++ (fbyte v x <$> seq off len)) (mkfs b' S ic)) ->
  wp (readi_loop fuel ip (Z.of_nat tot) (Z.of_nat off) (Z.of_nat (tot + len)) acc) (mkfs b S ic) Q.
Proof.
  induction n as [|n IH]; intros fuel b S ic L v ip x off len tot acc Q Hb Hsb Hx Hf Hsz Hn Hfu Hs HQ.
  all: destruct (decide (len = 0)%nat) as [->|Hl].
  1, 3: destruct fuel; cbn [readi_loop]; rewrite (proj2 (Z.ltb_ge _ _)) by lia; apply wp_ret; rewrite <- (app_nil_r acc); by apply HQ.
  { destruct Hn; lia. }
  destruct Hn as [?|Hn]; [done|]. destruct fuel as [|fuel]; [lia|]. cbn [readi_loop]. rewrite (proj2 (Z.ltb_lt _ _)) by lia.
  pose proof Hf as (Hok & _ & Hmax & Hdense). destruct maxfile_bytes as [_ Hm2].
  apply wp_bind. eapply wp_inode_at; [done|]. apply wp_bind. destruct (off_block off) as [-> ->].
  pose proof (Nat.div_mod off 512 ltac:(lia)) as Hdm. pose proof (Nat.mod_upper_bound off 512 ltac:(lia)) as Hmod.
  assert (blkno v x (off / 512) <> 0) as Hnz by (apply Hdense; lia).
  assert (off / 512 < MAXFILE)%nat as Hbn by (apply Nat.Div0.div_lt_upper_bound; lia).
  eapply (bmap_mapped g); [exact Hb|done..|]. intros b1 H1. assert (i_dev x = 1) as -> by apply Hok.
  pose proof Hok as (_ & _ & _ & Hblk). destruct (blocks_ok_range S v _ _ _ Hblk Hbn) as [?|Hd]; [done|].
  pose proof (data_writable g S v _ Hsb Hd) as Hw. pose proof (bl_ok _ _ _ _ _ _ _ Hb (proj1 Hw)) as [Hcl _].
  eapply (wp_read g); [exact H1|apply Hw|apply not_elem_of_nil|cbn; lia|]. intros i b2 H2.
  apply wp_bind. eapply (wp_fs_brelse g); [exact H2|]. intros b3 H3.
  assert (Z.min (Z.of_nat (tot + len) - Z.of_nat tot) (512 - Z.of_nat (off mod 512)) = Z.of_nat (Nat.min len (512 - off mod 512))) as -> by lia.
  set (m := Nat.min len (512 - off mod 512)) in *. assert (m <= len /\ 0 < m /\ off mod 512 + m <= 512)%nat as (Hm1 & Hm3 & Hm4) by lia.
  rewrite <- !Nat2Z.inj_add, !Nat2Z.id.
  assert (slice (off mod 512) m (v (blkno v x (off / 512))) = fbyte v x <$> seq off m) as ->.
  { apply list_eq. intros j. destruct (decide (j < m)%nat) as [Hj|Hj].
    - rewrite lookup_slice, list_lookup_fmap, lookup_seq_lt by lia. cbn [fmap option_fmap option_map]. unfold fbyte, fblock.
      assert ((off + j) / 512 = off / 512 /\ (off + j) mod 512 = off mod 512 + j)%nat as [-> ->].
      { split; symmetry; [apply (Nat.div_unique _ 512 _ (off mod 512 + j))|apply (Nat.mod_unique _ 512 (off / 512))]; lia. }
      rewrite (proj2 (Z.eqb_neq _ _) Hnz). apply list_lookup_lookup_total_lt. rewrite Hcl. unfold BSIZE. lia.
    - rewrite !lookup_ge_None_2; [done|rewrite length_fmap, length_seq; lia|rewrite length_slice; [lia|rewrite Hcl; unfold BSIZE; lia]]. }
  replace (tot + len)%nat with (tot + m + (len - m))%nat by lia.
  eapply (IH fuel b3 S ic L v ip x (off + m)%nat (len - m)%nat); [done..|lia| |lia|done|].
  - destruct (decide (m = len)) as [|Hne]; [left; lia|right]. rewrite next_block by lia. lia.
  - intros b' H'. rewrite <- app_assoc, <- fmap_app, <- seq_app. replace (m + (len - m))%nat with len by lia. by apply HQ.
Qed.

Lemma slice_contents v x (off len : nat) :
  Z.of_nat (off + len) <= i_size x -> slice off len (contents v x) = fbyte v x <$> seq off len.
Proof.
  intros Hl. apply list_eq. intros j. destruct (decide (j < len)%nat) as [Hj|Hj].
  - rewrite lookup_slice, lookup_contents, list_lookup_fmap, lookup_seq_lt by lia. done.
  - rewrite !lookup_ge_None_2; [done|rewrite length_fmap, length_seq; lia|rewrite length_slice; [lia|rewrite length_file_contents; lia]].
Qed.

(** How much [readi] reads. *)
Definition readable (x : inode) (off n : Z) : Z := Z.min n (i_size x - off).

Lemma readi_spec b S ic L v ip x (off n : Z) (Q : Z * list Z -> fs B -> Prop) :
  bl_inv g b [] [] L v -> sb_ok S v -> ic !! ip = Some x -> file_ok S v x -> i_type x <> T_DEV ->
  0 <= off <= i_size x -> 0 <= n -> off + n < 2 ^ 32 -> Z.of_nat (size L) <= bl_cap g ->
  (forall b', bl_inv g b' [] [] L v ->
     Q (readable x off n, slice (Z.to_nat off) (Z.to_nat (readable x off n)) (contents v x)) (mkfs b' S ic)) ->
  wp (readi devread ip off n) (mkfs b S ic) Q.
Proof.
  intros Hb Hsb Hx Hf Ht Hoff Hn Hwrap Hs HQ. pose proof Hf as (Hok & Hdok & Hsz & _).
  assert (0 <= i_size x < 2 ^ 32) as Hs32 by apply Hdok. destruct maxfile_bytes as [_ Hm2].
  unfold readi. apply wp_bind. eapply wp_inode_at; [done|]. rewrite (proj2 (Z.eqb_neq _ _) Ht).
  rewrite u32_small by lia. rewrite !(proj2 (Z.ltb_ge _ off)) by lia. cbn [orb].
  assert ((if i_size x <? off + n then i_size x - off else n) = readable x off n) as ->.
  { unfold readable. destruct (Z.ltb_spec (i_size x) (off + n)); lia. }
  assert (0 <= readable x off n <= i_size x - off) as Hr by (unfold readable; lia).
  set (r := readable x off n) in *. apply wp_bind.
  replace off with (Z.of_nat (Z.to_nat off)) at 1 by lia. replace r with (Z.of_nat (0 + Z.to_nat r)) at 2 by lia.
  pose proof (Nat.mod_upper_bound (Z.to_nat off) 512 ltac:(lia)).
  pose proof (Z.div_mod r 512 ltac:(lia)). pose proof (Z.mod_pos_bound r 512 ltac:(lia)). pose proof (Z.div_pos r 512 ltac:(lia) ltac:(lia)).
  eapply (readi_loop_spec (Z.to_nat (r / 512 + 2)) _ b S ic L v ip x (Z.to_nat off) (Z.to_nat r) 0%nat []);
    [done..|lia|right; lia|lia|done|].
  intros b' H'. apply wp_ret. rewrite s32_small by lia. cbn [app]. rewrite <- slice_contents by lia. by apply HQ.
Qed.

(** The requests [readi] and [writei] refuse: from beyond the end of the file, so long
    that the end wraps around, or, for a write, beyond the largest file. *)
Lemma readi_refuses b S ic ip x off n :
  ic !! ip = Some x -> i_type x <> T_DEV -> i_size x < off \/ off +u n < off ->
  readi devread ip off n (mkfs b S ic) = Ret (-1, []) (mkfs b S ic).
Proof.
  intros Hx Ht Hr. unfold readi, mbind, K_bind, inode_at, arr_get. cbn [icache]. rewrite Hx. cbn.
  rewrite (proj2 (Z.eqb_neq _ _) Ht). destruct (Z.ltb_spec (i_size x) off), (Z.ltb_spec (off +u n) off); done || lia.
Qed.

Lemma writei_refuses b S ic ip x off src :
  ic !! ip = Some x -> i_type x <> T_DEV ->
  let e := off +u Z.of_nat (length src) in i_size x < off \/ e < off \/ Z.of_nat (MAXFILE * BSIZE) < e ->
  writei devwrite ip src off (mkfs b S ic) = Ret (-1) (mkfs b S ic).
Proof.
  intros Hx Ht e Hr. unfold writei, mbind, K_bind, inode_at, arr_get. cbn [icache]. rewrite Hx. unfold mret, K_ret. fold e.
  rewrite (proj2 (Z.eqb_neq _ _) Ht). destruct (Z.ltb_spec (i_size x) off), (Z.ltb_spec e off); try done. cbn [orb].
  rewrite (proj2 (Z.ltb_lt _ _)) by lia. done.
Qed.

(** ** What holds of files *)

(** C4: [writei] of [src] at an offset inside the file or at its end writes all of it: the
    file then has the bytes [src] there and the bytes it had elsewhere, it has grown as
    far as needed, and its inode on disk is up to date.  The blocks others use, and the
    other inodes, are unchanged, and the invariants of the bitmap and of the file hold
    again.  [n] bounds the number of blocks the bytes are in; the transaction needs
    room for them, the bitmap block, the indirect block and the inode. *)
Theorem writei_writes n b S ic L v ip x (off : nat) src :
  bl_inv g b [] [] L v -> sb_ok S v -> bitmap_ok S v -> ic !! ip = Some x -> file_ok S v x -> i_type x <> T_DEV ->
  sb_size S <= BPB -> bytes_ok src -> Z.of_nat off <= i_size x -> (off + length src <= 512 * MAXFILE)%nat ->
  (off mod 512 + length src <= 512 * n)%nat -> has_free S v (2 * n) -> pot S L x + Z.of_nat n + 1 <= bl_cap g ->
  wp (writei devwrite ip src (Z.of_nat off)) (mkfs b S ic) (fun r s' =>
    exists b' L' v' x', s' = mkfs b' S (<[ip := x']> ic) /\ r = Z.of_nat (length src) /\
      bl_inv g b' [] [] L' v' /\ written S v v' x x' off src).
Proof.
  intros Hb Hsb Hbm Hx Hf Ht Hone Hby Hoff Hlim Hn Hfree Hpot.
  eapply (writei_spec n); [done..|]. intros b' L' v' x' H' Hw _. by exists b', L', v', x'.
Qed.

(** C36: [readi] reads the bytes of the file from the offset on, as many as asked for or as
    there are, and changes nothing. *)
Theorem readi_reads b S ic L v ip x (off n : Z) :
  bl_inv g b [] [] L v -> sb_ok S v -> ic !! ip = Some x -> file_ok S v x -> i_type x <> T_DEV ->
  0 <= off <= i_size x -> 0 <= n -> off + n < 2 ^ 32 -> Z.of_nat (size L) <= bl_cap g ->
  wp (readi devread ip off n) (mkfs b S ic) (fun r s' =>
    exists b', s' = mkfs b' S ic /\ bl_inv g b' [] [] L v /\
      r = (readable x off n, slice (Z.to_nat off) (Z.to_nat (readable x off n)) (contents v x))).
Proof.
  intros Hb Hsb Hx Hf Ht Hoff Hn Hwrap Hs. eapply readi_spec; [done..|]. intros b' H'. by exists b'.
Qed.

(** [balloc] returns the first free block, in use from then on and filled with zeros;
    [bfree] of it makes it free again.  After both the same blocks are in use as before,
    and no other block of data has changed. *)
Theorem balloc_bfree b S ic L v c :
  bl_inv g b [] [] L v -> sb_ok S v -> bitmap_ok S v -> first_free S v c -> Z.of_nat (size L) + 3 <= bl_cap g ->
  wp (balloc 1) (mkfs b S ic) (fun c' s1 => c' = c /\ exists b1 L1 v1, s1 = mkfs b1 S ic /\ bl_inv g b1 [] [] L1 v1 /\
    allocated g S v v1 c /\
    wp (bfree 1 c) s1 (fun _ s2 => exists b2 L2 v2, s2 = mkfs b2 S ic /\ bl_inv g b2 [] [] L2 v2 /\ sb_ok S v2 /\
      (forall k, 0 <= k < sb_size S -> used S v2 k = used S v k) /\
      (forall k, k <> c -> ~ bitmap_block S k -> v2 k = v k))).
Proof.
  intros Hb Hsb Hbm Hff Hs. pose proof (first_free_data S v c Hbm Hff) as Hd. pose proof Hff as (Hc & Hf & _).
  pose proof (bblock_range g S v c Hsb Hc) as Hbb. pose proof (bitmap_writable g S v _ Hsb Hbb) as [Hbw _].
  assert (hs_ok S v []) as Hhs by (by intros h Hh%elem_of_nil).
  eapply (balloc_spec g b S ic [] L v c); [done..|cbn; lia|lia|]. intros b1 H1. split; [done|]. do 3 eexists. split; [done|].
  split; [exact H1|]. pose proof (bl_ok _ _ _ _ _ _ _ Hb Hbw) as Hbo.
  pose proof (allocated_alloc_v g S v c Hsb Hbm Hff Hbo) as Hal. split; [done|].
  pose proof Hal as (Hom & Hsb1 & Hbm1 & _ & Hfr & _). destruct (one_more_new g S v _ c Hsb Hom) as [[_ Hu] _].
  assert (hs_ok S (alloc_v S v c) []) as Hhs1 by (by intros h Hh%elem_of_nil).
  pose proof (size_union_1 c ({[BBLOCK c S]} ∪ L)). pose proof (size_union_1 (BBLOCK c S) L).
  eapply (bfree_spec g b1 S ic [] _ _ c); [exact H1|done|done|done|done|cbn; lia|lia|]. intros b2 H2. do 3 eexists.
  split; [done|]. split; [exact H2|]. split; [by apply free_v_sb|]. split.
  - intros k Hk. rewrite (free_v_used g); [|done|by eapply bl_ok|done|done]. destruct Hom as (_ & _ & ->); [|done].
    destruct (Z.eqb_spec k c) as [->|]; [by rewrite Hf|]. by rewrite orb_false_r, andb_true_r.
  - intros k Hk Hnb. unfold free_v. rewrite upd1_ne; [by apply Hfr|]. by intros ->.
Qed.

(** The inode cache is write-through: [iupdate] stores all fields of the inode in its
    place on disk and leaves every other inode as it is, so that, once the cache entry was
    recycled, an [ilock] of whatever entry the inode is given finds the same fields. *)
Theorem iupdate_ilock b S ic L v ip x :
  bl_inv g b [] [] L v -> sb_ok S v -> ic !! ip = Some x -> i_dev x = 1 -> inum_ok S (i_inum x) ->
  dinode_ok (to_dinode x) -> i_type x <> 0 -> Z.of_nat (size L) + 1 <= bl_cap g ->
  wp (iupdate ip) (mkfs b S ic) (fun _ s1 => exists b1 L1 v1, s1 = mkfs b1 S ic /\ bl_inv g b1 [] [] L1 v1 /\
    (forall inum, inum_ok S inum -> inum <> i_inum x -> dinode_at S v1 inum = dinode_at S v inum) /\
    forall ic' jp y, ic' !! jp = Some y -> i_dev y = 1 -> i_inum y = i_inum x -> 1 <= i_ref y ->
      i_locked y = false -> i_valid y = false ->
      wp (ilock (Some jp)) (mkfs b1 S ic') (fun _ s2 => exists b2, bl_inv g b2 [] [] L1 v1 /\
        s2 = mkfs b2 S (<[jp := set_valid true (of_dinode (to_dinode x) (set_lock true y))]> ic'))).
Proof.
  intros Hb Hsb Hx Hdev Hin Hok Ht Hs. pose proof Hok as (_ & _ & _ & _ & _ & Hl & _).
  destruct (iblock_range g S v _ Hsb Hin) as [_ [Hib _]]. pose proof (bl_ok _ _ _ _ _ _ _ Hb Hib) as Hibo.
  eapply (iupdate_spec g); [exact Hb|done|exact Hx|done|done|done|lia|]. intros b1 H1.
  pose proof (size_union_1 (IBLOCK (i_inum x) S) L). pose proof (store_v_same S v (i_inum x) (to_dinode x) Hibo Hok) as Hsame.
  do 3 eexists. split; [done|]. split; [exact H1|]. split; [intros inum _ Hne; by apply store_v_other|].
  intros ic' jp y Hy Hdy Hiy Hry Hly Hvy.
  eapply (ilock_spec g b1 S ic' _ _ jp y); [exact H1|by apply store_v_sb|done|done|by rewrite Hiy|done|done|lia| |].
  { right. by rewrite Hiy, Hsame. }
  intros b2 H2. exists b2. split; [exact H2|]. unfold locked_inode. by rewrite Hvy, Hiy, Hsame.
Qed.

End Rw.
End FsRw.
