(* ===== verification/FsLog.v ===== *)
(** * The log as the block layer of the file system

    The operations of bio.c and log.c inside a transaction satisfy the laws the file
    system is proved against ([BlockLaws]).

    Shown: whatever the file system does between [begin_op] and [end_op], a crash leaves
    all of it or nothing of it; in particular for a write to a file. *)

From S2P Require Export Txn FsRw.
Local Open Scope Z_scope.

Module FsLog.
Import Bio Log LogSpec LogCrash Txn.

#[export] Instance log_ops : BlockOps lst := {|
  bl_bread dv c := bio (Bio.bread dv c);
  bl_data i := bio (Bio.buf_data i);
  bl_set_data i d := bio (Bio.set_data i d);
  bl_log_write i := Log.log_write i;
  bl_brelse i := bio (Bio.brelse i)
|}.

(** [o] operations are running; the disk is [d0], with the history [w0]. *)
Definition log_layer (d0 : gmap Z block) (w0 : list (Z * block)) (o : Z)
    (g : geom) (s : lst) (hs : list (nat * Z)) (pend : list Z) (L : gset Z) (v : Z -> block) : Prop :=
  txn s hs pend /\ disksize (bs s) = g_size g /\ l_start (lg s) = g_logstart g /\ l_size (lg s) = g_nlog g /\
  l_outstanding (lg s) = o /\ l_committing (lg s) = false /\ 1 <= o /\ disk (bs s) = d0 /\ writes (bs s) = w0 /\
  (forall b, view (bs s) b = v b) /\ L = list_to_set (logged s).

Section Laws.
Context (d0 : gmap Z block) (w0 : list (Z * block)) (o : Z).
Local Abbreviation log_layer := (log_layer d0 w0 o).

Lemma size_logged s hs pend : txn s hs pend -> Z.of_nat (size (list_to_set (logged s) : gset Z)) = lh_n (l_lh (lg s)).
Proof.
  intros (_ & _ & _ & _ & (_ & Hl & Hn & _ & Hnd & _) & _). rewrite size_list_to_set by done.
  unfold logged. rewrite length_take. lia.
Qed.

Lemma layer_room g s hs pend L v :
  log_layer g s hs pend L v -> Z.of_nat (length hs) + Z.of_nat (size L) <= bl_cap g -> (pinned (bs s) < NBUF)%nat.
Proof.
  intros (Ht & _ & _ & Hsz & _ & _ & _ & _ & _ & _ & ->) Hr. apply (txn_room s hs pend Ht). rewrite (size_logged s hs pend Ht) in Hr.
  unfold budget, bl_cap in *. lia.
Qed.

(** A call that leaves the log alone. *)
Lemma layer_keeps g s s' hs hs' pend pend' L v v' :
  log_layer g s hs pend L v -> txn s' hs' pend' -> keeps s s' v' -> lg s' = lg s -> log_layer g s' hs' pend' L v'.
Proof.
  intros (Ht & Hsz & Hst & Hnl & Ho & Hc & H1 & Hd & Hw & Hv & HL) Ht' (Hsz' & Hd' & Hw' & Hv') Hlg.
  split_and!; try (by rewrite Hlg); try congruence; try done. unfold logged in *. by rewrite Hlg.
Qed.

Lemma layer_ok g s hs pend L v c : log_layer g s hs pend L v -> 0 <= c < g_size g -> block_ok (v c).
Proof.
  intros (Ht & Hsz & _ & _ & _ & _ & _ & _ & _ & Hv & _) Hc. rewrite <- Hv.
  destruct Ht as (Hinv & _). apply view_ok; [done|]. by rewrite Hsz.
Qed.

Lemma layer_log_write g s hs pend L v i c :
  log_layer g s hs pend L v -> (i, c) ∈ hs -> writable g c -> Z.of_nat (size L) < bl_cap g ->
  wp (Log.log_write i) s (fun _ s' => log_layer g s' hs (base.filter (fun x => x <> c) pend) ({[c]} ∪ L) v).
Proof.
  intros (Ht & Hsz & Hst & Hnl & Ho & Hcm & H1 & Hd & Hw & Hv & HL) Hin (Hc & Hc1 & Hcl) Hs.
  pose proof (size_logged s hs pend Ht) as Hsl. rewrite HL, Hsl in Hs.
  eapply txn_log_write; [done|done|lia|unfold budget; unfold bl_cap in Hs; lia|done|unfold in_log; lia|].
  intros s' Ht' (Hsz' & Hd' & Hw' & Hv') (Hl1 & Hl2 & Hl3 & Hl4 & _) _ Hlog. split_and!; try congruence; try done.
  apply set_eq. intros y. rewrite HL, elem_of_union, elem_of_singleton, !elem_of_list_to_set, Hlog. tauto.
Qed.

Definition log_laws : BlockLaws lst.
Proof.
  refine {| bl_inv := log_layer; bl_ok := layer_ok; bl_log_law := layer_log_write |}.
  - intros g s hs pend L v c Hl Hc Hni Hr. pose proof (layer_room _ _ _ _ _ _ Hl Hr) as Hroom. pose proof Hl as (Ht & Hsz & _).
    eapply txn_bread; [done|by rewrite Hsz|done|by right|]. intros i s' Ht' Hk Hlg.
    eapply layer_keeps; [exact Hl|done| |done]. destruct Hk as (? & ? & ? & Hv'). split_and!; try done.
    intros b. rewrite Hv'. by apply Hl.
  - intros g s hs pend L v i c (Ht & _ & _ & _ & _ & _ & _ & _ & _ & Hv & _) Hin. eapply txn_data; [done|done|]. by rewrite Hv.
  - intros g s hs pend L v i c d Hl Hin Hd. pose proof Hl as (Ht & _).
    eapply txn_set_data; [done|done|done|]. intros s' Ht' Hk Hlg.
    eapply layer_keeps; [exact Hl|done| |done]. destruct Hk as (? & ? & ? & Hv'). split_and!; try done.
    intros b. rewrite Hv'. cbn. unfold upd1. case_decide; [done|]. by apply Hl.
  - intros g s hs pend L v i c Hl Hnp. pose proof Hl as (Ht & _). eapply txn_brelse; [done|done|]. intros s' Ht' Hk Hlg.
    eapply layer_keeps; [exact Hl|done| |done]. destruct Hk as (? & ? & ? & Hv'). split_and!; try done.
    intros b. rewrite Hv'. by apply Hl.
Defined.
End Laws.

(** ** Transactions of the file system *)

(** No operation is running, and the log is empty. *)
Definition idle (g : geom) (s : lst) (v : Z -> block) : Prop :=
  log_inv s /\ disksize (bs s) = g_size g /\ l_start (lg s) = g_logstart g /\ l_size (lg s) = g_nlog g /\
  l_outstanding (lg s) = 0 /\ l_committing (lg s) = false /\ lh_n (l_lh (lg s)) = 0 /\ (forall b, view (bs s) b = v b).

Lemma begin_op_layer g s v :
  idle g s v -> wp begin_op s (fun _ s' => log_layer (disk (bs s)) (writes (bs s)) 1 g s' [] [] ∅ v).
Proof.
  intros (Hinv & Hsz & Hst & Hnl & Ho & Hc & Hn & Hv). eapply wp_eq.
  { rewrite begin_op_run. unfold admits. rewrite Hc, Ho, Hn. done. }
  apply log_inv_txn in Hinv. split; [by apply (txn_lg s)|]. cbn. split_and!; try done.
  unfold logged. cbn. by rewrite Hn.
Qed.

(** What a crash leaves: with [w] the writes of the disk since it was [d0], recovery finds,
    outside the log, the contents [v] or the contents [v'], wherever the machine stopped. *)
Definition outside (g : geom) (b : Z) : Prop := ~ (g_logstart g <= b < g_logstart g + g_nlog g).
Definition recovers (g : geom) (d : gmap Z block) (v : Z -> block) : Prop :=
  forall b, outside g b -> recovered (g_logstart g) d b = v b.
Definition all_or_nothing (g : geom) (d0 : gmap Z block) (w : list (Z * block)) (v v' : Z -> block) : Prop :=
  forall k, let d := apply_writes (take k w) d0 in
    bootable (g_logstart g) (g_nlog g) (g_size g) d /\ (recovers g d v \/ recovers g d v').

Lemma end_op_layer g s v v' L d0 w0 :
  log_layer d0 w0 1 g s [] [] L v' -> (forall b, d0 !!! b = v b) ->
  wp end_op s (fun _ s' => exists w, writes (bs s') = w0 ++ w /\ all_or_nothing g d0 w v v' /\
    log_inv s' /\ l_outstanding (lg s') = 0 /\ l_committing (lg s') = false /\ lh_n (l_lh (lg s')) = 0 /\
    forall b, outside g b -> view (bs s') b = v' b).
Proof.
  intros (Ht & Hsz & Hst & Hnl & Ho & Hc & _ & Hd & Hw & Hv & _) Hclean. apply log_inv_txn in Ht.
  assert (forall b, outside g b <-> ~ in_log (lg s) b) as Hout by (intros b; unfold outside, in_log; by rewrite Hst, Hnl).
  eapply wp_mono; [by apply end_op_last|]. cbv beta. intros _ s' (Hinv & Hn & Ho' & Hc' & _ & _ & _ & (w & Hw' & Hcr) & Hview).
  exists w. rewrite Hw', Hw. split; [done|]. split.
  - intros k. specialize (Hcr k). rewrite Hd, Hsz, Hst, Hnl in Hcr. destruct Hcr as [Hb Hr]. split; [done|].
    destruct Hr as [Hr|Hr]; [left|right]; intros b Hnb; rewrite <- Hst, (Hr b) by (by apply Hout); [apply Hclean|apply Hv].
  - split_and!; try done. intros b Hb. apply Hout in Hb. destruct (Hview b Hb) as [-> _]. apply Hv.
Qed.

Lemma idle_clean g s v : idle g s v -> forall b, disk (bs s) !!! b = v b.
Proof.
  intros (Hinv & _ & _ & _ & _ & _ & Hn & Hv) b. apply log_inv_txn in Hinv as (_ & _ & _ & _ & _ & Hcl).
  rewrite <- Hv. symmetry. apply Hcl; [|apply not_elem_of_nil]. unfold logged. rewrite Hn. apply not_elem_of_nil.
Qed.

(** A body that works in a transaction, between [begin_op] and [end_op]. *)
Lemma transaction_atomic {A} g b S ic v (m : K (Fs.fs lst) A) (P : A -> list Fs.inode -> (Z -> block) -> Prop) :
  idle g b v ->
  (forall d0 w0 b1, log_layer d0 w0 1 g b1 [] [] ∅ v -> wp m (Fs.mkfs b1 S ic) (fun a s' =>
     exists b' ic' L' v', s' = Fs.mkfs b' S ic' /\ log_layer d0 w0 1 g b' [] [] L' v' /\ P a ic' v')) ->
  wp (Fs.lift begin_op;; a ← m; Fs.lift end_op;; mret a) (Fs.mkfs b S ic) (fun a s' =>
    exists b' ic' v' w, s' = Fs.mkfs b' S ic' /\ P a ic' v' /\ writes (bs b') = writes (bs b) ++ w /\
      all_or_nothing g (disk (bs b)) w v v' /\ log_inv b' /\ forall c, outside g c -> view (bs b') c = v' c).
Proof.
  intros Hid Hm. apply wp_bind. unfold Fs.lift. apply wp_zoom. cbn [Fs.blk]. eapply wp_mono; [by apply begin_op_layer|].
  cbn. intros _ b1 H1. apply wp_bind. eapply wp_mono; [by apply (Hm (disk (bs b)) (writes (bs b)))|].
  cbv beta. intros a s' (b2 & ic' & L' & v' & -> & H2 & HP). apply wp_bind. apply wp_zoom. cbn [Fs.blk].
  eapply wp_mono; [eapply (end_op_layer g b2 v); [exact H2|by eapply idle_clean]|].
  cbn. intros _ b3 (w & Hw & Hall & Hinv & _ & _ & _ & Hv). exists b3, ic', v', w. by split_and!.
Qed.

Import Layout Fs FsSpec FsFile FsRw.

(** C1: A write to a file is atomic with respect to crashes.  Between [begin_op] and
    [end_op] the bytes are written as [writei] promises; if the machine stops after any
    of the disk writes, recovery finds the file system as it was before the write, or
    with all of the write done: data, bitmap, indirect block and inode. *)
Theorem file_write_atomic n g b S ic v ip x (off : nat) src dw :
  idle g b v -> sb_ok g S v -> bitmap_ok S v -> ic !! ip = Some x -> file_ok S v x -> i_type x <> T_DEV ->
  sb_size S <= BPB -> bytes_ok src -> Z.of_nat off <= i_size x -> (off + length src <= 512 * MAXFILE)%nat ->
  (off mod 512 + length src <= 512 * n)%nat -> has_free S v (2 * n) -> pot S ∅ x + Z.of_nat n + 1 <= bl_cap g ->
  wp (lift begin_op;; r ← writei dw ip src (Z.of_nat off); lift end_op;; mret r) (mkfs b S ic) (fun r s' =>
    exists b' ic' v' w, s' = mkfs b' S ic' /\
      (r = Z.of_nat (length src) /\ exists x', ic' = <[ip := x']> ic /\ written g S v v' x x' off src) /\
      writes (bs b') = writes (bs b) ++ w /\ all_or_nothing g (disk (bs b)) w v v' /\ log_inv b' /\
      forall c, outside g c -> view (bs b') c = v' c).
Proof.
  intros Hid Hsb Hbm Hx Hf Ht Hone Hby Hoff Hlim Hn Hfree Hpot.
  apply (transaction_atomic g b S ic v (writei dw ip src (Z.of_nat off))
    (fun r ic' v' => r = Z.of_nat (length src) /\ exists x', ic' = <[ip := x']> ic /\ written g S v v' x x' off src) Hid).
  intros d0 w0 b1 H1. eapply (writei_spec (BlockLaws0 := log_laws d0 w0 1) g dw n b1 S ic ∅ v ip x off); [exact H1|done..|].
  intros b' L' v' x' H' Hw _. exists b', (<[ip := x']> ic), L', v'. split; [done|]. split; [exact H'|].
  split; [done|]. by exists x'.
Qed.

End FsLog.
