(* ===== verification/FsDir.v ===== *)
(** * The file system: the inode cache and directories

    [iget] and the inode cache; [dirlookup] and [dirlink] in terms of the entries of the
    directory.

    Shown: the cache never holds an inode twice; [dirlink] makes a name that was not there
    refer to the inode given and leaves the other names alone; and [dirlink] of a name by
    which the directory contains itself waits for a lock its caller holds. *)

From S2P Require Export FsRw.
Local Open Scope Z_scope.

Module FsDir.
Import CString Layout Fs FsSpec FsFile FsRw.

(** ** The inode cache *)

Definition is_entry (dev inum : Z) (x : inode) : Prop := 0 < i_ref x /\ i_dev x = dev /\ i_inum x = inum.

(** An inode is in the cache at most once. *)
Definition icache_ok (ic : list inode) : Prop :=
  (forall i x, ic !! i = Some x -> 0 <= i_ref x) /\
  (forall i j x y, ic !! i = Some x -> ic !! j = Some y -> is_entry (i_dev y) (i_inum y) x -> 0 < i_ref y -> i = j).

Lemma iget_scan_spec l : forall i e dev inum,
  match iget_scan l i e dev inum with
  | inl k => exists x, (i <= k)%nat /\ l !! (k - i)%nat = Some x /\ is_entry dev inum x
  | inr r => (forall j x, l !! j = Some x -> ~ is_entry dev inum x) /\
      match r with
      | Some k => e = Some k \/ e = None /\ exists x, (i <= k)%nat /\ l !! (k - i)%nat = Some x /\ i_ref x = 0
      | None => e = None /\ forall j x, l !! j = Some x -> i_ref x <> 0
      end
  end.
Proof.
  induction l as [|x l IH]; intros i e dev inum; cbn [iget_scan].
  - split; [done|]. destruct e; [by left|done].
  - destruct ((0 <? i_ref x) && (i_dev x =? dev) && (i_inum x =? inum))%bool eqn:E.
    + bool_hyps. exists x. split; [lia|]. rewrite Nat.sub_diag. split; [done|]. split; [lia|]. lia.
    + assert (~ is_entry dev inum x) as Hx.
      { intros (H1 & H2 & H3). by rewrite (proj2 (Z.ltb_lt _ _) H1), (proj2 (Z.eqb_eq _ _) H2), (proj2 (Z.eqb_eq _ _) H3) in E. }
      specialize (IH (S i) (match e with Some e => Some e | None => if i_ref x =? 0 then Some i else None end) dev inum).
      destruct (iget_scan _ _ _ _ _) as [k|r].
      * destruct IH as (y & Hk & Hy & He). exists y. split; [lia|]. split; [|done].
        replace (k - i)%nat with (S (k - S i)) by lia. done.
      * destruct IH as [Hno Hr]. split; [intros [|j] y Hy; [by injection Hy as <-|by apply (Hno j)]|].
        destruct r as [k|].
        -- destruct e as [e|]; [by destruct Hr as [?|[? _]]; [left|]|right]. split; [done|].
           destruct (Z.eqb_spec (i_ref x) 0) as [H0|H0].
           ++ destruct Hr as [[= <-]|[? _]]; [|done]. exists x. by rewrite Nat.sub_diag.
           ++ destruct Hr as [?|(_ & y & Hk & Hy & Hyr)]; [done|]. exists y. split; [lia|].
              replace (k - i)%nat with (S (k - S i)) by lia. done.
        -- destruct e as [e|]; [by destruct Hr|]. split; [done|]. destruct (Z.eqb_spec (i_ref x) 0) as [H0|H0]; [by destruct Hr|].
           intros [|j] y Hy; [by injection Hy as <-|]. by apply (proj2 Hr j).
Qed.

(** The cache after [iget]. *)
Definition got (dev inum : Z) (ic ic' : list inode) (ip : nat) : Prop :=
  exists x x', ic !! ip = Some x /\ ic' = <[ip := x']> ic /\ is_entry dev inum x' /\
    (is_entry dev inum x /\ x' = set_ref (i_ref x + 1) x \/
     i_ref x = 0 /\ (forall j y, ic !! j = Some y -> ~ is_entry dev inum y) /\ i_ref x' = 1 /\ i_valid x' = false /\
       i_locked x' = i_locked x).

(** There is an entry for the inode, or one that is free. *)
Definition iget_room (dev inum : Z) (ic : list inode) : Prop :=
  exists k x, ic !! k = Some x /\ (is_entry dev inum x \/ i_ref x = 0).

Lemma got_ok dev inum ic ic' ip : icache_ok ic -> got dev inum ic ic' ip -> icache_ok ic'.
Proof.
  intros [Hr Hu] (x & x' & Hx & -> & He' & Hc). pose proof (lookup_lt_Some _ _ _ Hx) as Hlt. split.
  - intros i y Hy. apply list_lookup_insert_Some in Hy as [(<- & <- & _)|[_ Hy]]; [|by apply (Hr i)].
    destruct He' as [? _]. lia.
  - assert (forall j y, j <> ip -> ic !! j = Some y -> ~ is_entry dev inum y) as Hno.
    { intros j y Hne Hy Hey. destruct Hc as [[Hex _]|(_ & Hno & _)]; [|by apply (Hno j y)].
      apply Hne. destruct Hex as (H1 & H2 & H3). apply (Hu j ip y x); [done|done|by rewrite H2, H3|done]. }
    destruct He' as (Hp & Hd & Hi).
    intros i j y z Hy Hz He Hpz. apply list_lookup_insert_Some in Hy as [(<- & <- & _)|[Hni Hy]];
      apply list_lookup_insert_Some in Hz as [(<- & <- & _)|[Hnj Hz]]; [done| | |].
    + destruct (Hno j z); [done|done|]. destruct He as (_ & H2 & H3). split; [done|]. by rewrite <- H2, <- H3.
    + destruct (Hno i y); [done|done|]. by rewrite <- Hd, <- Hi.
    + by apply (Hu i j y z).
Qed.

Section Cache.
Context {B : Type} `{!BlockOps B}.

Lemma iget_spec (b : B) S ic dev inum (Q : nat -> fs B -> Prop) :
  iget_room dev inum ic -> (forall ip ic', got dev inum ic ic' ip -> Q ip (mkfs b S ic')) -> wp (iget dev inum) (mkfs b S ic) Q.
Proof.
  intros (k0 & x0 & Hx0 & Hroom) HQ. unfold iget. apply wp_bind, wp_gets. cbn [icache].
  pose proof (iget_scan_spec ic 0 None dev inum) as Hs. destruct (iget_scan _ _ _ _ _) as [k|[k|]].
  - destruct Hs as (x & _ & Hx & He). rewrite Nat.sub_0_r in Hx. apply wp_bind. eapply wp_upd_inode; [done|]. apply wp_ret.
    apply HQ. exists x, (set_ref (i_ref x + 1) x). split_and!; [done..| |by left]. destruct He as (? & ? & ?). split; [cbn; lia|done].
  - destruct Hs as (Hno & [?|(_ & x & _ & Hx & H0)]); [done|]. rewrite Nat.sub_0_r in Hx.
    apply wp_bind. eapply wp_upd_inode; [done|]. apply wp_ret. apply HQ. do 2 eexists. split; [done|]. split; [done|].
    split; [done|]. right. by split_and!.
  - destruct Hs as (Hno & _ & Hall). destruct Hroom as [?|?]; [by apply (Hno k0) in Hx0|by apply (Hall k0) in Hx0].
Qed.
End Cache.

(** [iget] returns the cache entry of the inode with its reference counted: the entry
    there is, or, if there is none, a free one made into it, not yet read from disk.  It
    keeps every inode in the cache at most once, and leaves the other entries alone. *)
Theorem iget_unique {B} `{!BlockOps B} (b : B) S ic dev inum :
  icache_ok ic -> iget_room dev inum ic ->
  wp (iget dev inum) (mkfs b S ic) (fun ip s' =>
    exists ic', s' = mkfs b S ic' /\ icache_ok ic' /\ got dev inum ic ic' ip).
Proof. intros Hok Hroom. apply iget_spec; [done|]. intros ip ic' Hg. exists ic'. split; [done|]. split; [by eapply got_ok|done]. Qed.

(** ** Directories *)

(** Entry [k] of a directory with the contents [c]. *)
Definition entry (c : list Z) (k : nat) : list Z := slice (16 * k) 16 c.

(** Whether entry [k] is in use and has the name. *)
Definition hit (c name : list Z) (k : nat) : bool :=
  (negb (de_inum (entry c k) =? 0) && (namecmp name (de_name (entry c k)) =? 0))%bool.

(** The first entry with the name among the [n] from [k] on. *)
Fixpoint dir_find (n k : nat) (c name : list Z) : option nat :=
  match n with
  | O => None
  | S n => if hit c name k then Some k else dir_find n (S k) c name
  end.

(** The first entry that is not in use, or the end. *)
Fixpoint dir_empty (n k : nat) (c : list Z) : nat :=
  match n with
  | O => k
  | S n => if de_inum (entry c k) =? 0 then k else dir_empty n (S k) c
  end.

Definition entries (c : list Z) : nat := length c / 16.

(** The inode a name refers to. *)
Definition lookup_name (c name : list Z) : option Z :=
  (fun k => de_inum (entry c k)) <$> dir_find (entries c) 0 c name.

Lemma dir_find_ext n : forall k c c' name,
  (forall j, (k <= j < k + n)%nat -> hit c' name j = hit c name j) -> dir_find n k c' name = dir_find n k c name.
Proof.
  induction n as [|n IH]; intros k c c' name He; cbn [dir_find]; [done|]. rewrite He by lia.
  destruct (hit c name k); [done|]. apply IH. intros j Hj. apply He. lia.
Qed.

Lemma dir_find_snoc n : forall k c name,
  dir_find (S n) k c name =
    match dir_find n k c name with Some j => Some j | None => if hit c name (k + n) then Some (k + n)%nat else None end.
Proof.
  induction n as [|n IH]; intros k c name; [cbn; by rewrite Nat.add_0_r|].
  change (dir_find (S (S n)) k c name) with (if hit c name k then Some k else dir_find (S n) (S k) c name).
  rewrite IH. change (dir_find (S n) k c name) with (if hit c name k then Some k else dir_find n (S k) c name).
  destruct (hit c name k); [done|]. by rewrite Nat.add_succ_comm.
Qed.

Lemma dir_find_spec n : forall k c name,
  match dir_find n k c name with
  | Some j => (k <= j < k + n)%nat /\ hit c name j = true
  | None => forall j, (k <= j < k + n)%nat -> hit c name j = false
  end.
Proof.
  induction n as [|n IH]; intros k c name; cbn [dir_find]; [intros j; lia|]. destruct (hit c name k) eqn:E; [split; [lia|done]|].
  specialize (IH (S k) c name). destruct (dir_find n (S k) c name) as [j|]; [destruct IH; split; [lia|done]|].
  intros j Hj. destruct (decide (j = k)) as [->|]; [done|]. apply IH. lia.
Qed.

Lemma dir_find_none n k c name : (forall j, (k <= j < k + n)%nat -> hit c name j = false) -> dir_find n k c name = None.
Proof.
  revert k. induction n as [|n IH]; intros k H; cbn [dir_find]; [done|]. rewrite H by lia. apply IH. intros j Hj. apply H. lia.
Qed.

(** Of several hits the first is found. *)
Lemma dir_find_first n k c name j :
  (k <= j < k + n)%nat -> hit c name j = true -> (forall i, (k <= i < j)%nat -> hit c name i = false) ->
  dir_find n k c name = Some j.
Proof.
  revert k. induction n as [|n IH]; intros k Hj Hh Hno; [lia|]. cbn [dir_find].
  destruct (decide (k = j)) as [->|Hne]; [by rewrite Hh|]. rewrite Hno by lia. apply IH; [lia|done|]. intros i Hi. apply Hno. lia.
Qed.

Lemma dir_empty_spec n : forall k c,
  let e := dir_empty n k c in (k <= e <= k + n)%nat /\ ((e < k + n)%nat -> de_inum (entry c e) = 0).
Proof.
  induction n as [|n IH]; intros k c; cbn [dir_empty]; [split; [lia|lia]|].
  destruct (Z.eqb_spec (de_inum (entry c k)) 0) as [H0|H0]; [split; [lia|done]|].
  destruct (IH (S k) c) as [H1 H2]. split; [lia|]. intros H. apply H2. lia.
Qed.

(** A directory entry written at index [e]. *)
Definition link_at (c : list Z) (e : nat) (ent : list Z) : list Z := take (16 * e) c ++ ent ++ drop (16 * e + 16) c.

Lemma entry_link_at c e ent k :
  length ent = 16%nat -> (16 * e <= length c)%nat -> (16 * k + 16 <= length (link_at c e ent))%nat ->
  entry (link_at c e ent) k = if decide (k = e) then ent else entry c k.
Proof.
  intros He Hl Hk. unfold entry, link_at in *. apply list_eq. intros i.
  assert (length (take (16 * e) c) = 16 * e)%nat as Ht by (rewrite length_take; lia).
  rewrite !length_app, Ht, He, length_drop in Hk.
  destruct (decide (i < 16)%nat) as [Hi|Hi].
  - rewrite lookup_slice by lia. case_decide as Hke.
    + subst k. rewrite lookup_app_r, Ht, lookup_app_l by lia. f_equal. lia.
    + rewrite lookup_slice by lia. destruct (decide (k < e)%nat).
      * rewrite lookup_app_l, lookup_take_lt by lia. done.
      * rewrite lookup_app_r, Ht, lookup_app_r, lookup_drop, He by lia. f_equal. lia.
  - rewrite lookup_ge_None_2 by (unfold slice; rewrite length_take; lia). symmetry. apply lookup_ge_None_2.
    case_decide; [lia|]. unfold slice. rewrite length_take. lia.
Qed.

Lemma entries_link_at c e ent n :
  length ent = 16%nat -> length c = (16 * n)%nat -> (e <= n)%nat -> entries (link_at c e ent) = Nat.max n (S e).
Proof.
  intros He Hc Hn. unfold entries, link_at. rewrite !length_app, length_take, length_drop, He, Hc.
  replace (Nat.min (16 * e) (16 * n) + (16 + (16 * n - (16 * e + 16))))%nat with (Nat.max n (S e) * 16)%nat by lia.
  by apply Nat.div_mul.
Qed.

(** ** Names *)

Lemma strncmp_ext n : forall p p' q, (forall i, p i = p' i) -> strncmp n p q = strncmp n p' q.
Proof.
  induction n as [|n IH]; intros p p' q He; cbn [strncmp]; [done|]. rewrite (He 0%nat).
  destruct (_ && _)%bool; [|done]. apply IH. intros i. apply He.
Qed.

(** What [strncpy] leaves compares equal to the name. *)
Lemma strncmp_strncpy n : forall t, strncmp n (chars t) (chars (strncpy_bytes n t)) = 0.
Proof.
  induction n as [|n IH]; intros t; cbn [strncmp strncpy_bytes]; [done|].
  change (chars t 0%nat) with (default 0 (t !! 0%nat)).
  set (c := default 0 (t !! 0%nat)). change (chars (c :: _) 0%nat) with c. rewrite Z.eqb_refl, andb_true_r. unfold truthy.
  destruct (Z.eqb_spec c 0) as [->|Hc]; [done|]. cbn [negb]. etrans; [|apply (IH (drop 1 t))]. clear IH Hc.
  change (fun i => chars (c :: strncpy_bytes n (drop 1 t)) (S i)) with (chars (strncpy_bytes n (drop 1 t))).
  apply strncmp_ext. intros i. unfold chars. by rewrite lookup_drop.
Qed.

Lemma length_strncpy_bytes n : forall t, length (strncpy_bytes n t) = n.
Proof.
  induction n as [|n IH]; intros t; cbn [strncpy_bytes length]; [done|]. f_equal.
  destruct (_ =? 0); [apply length_replicate|apply IH].
Qed.

(** The new entry of [dirlink]. *)
Definition new_entry (name : list Z) (inum : Z) : list Z := le_enc 2 inum ++ strncpy_bytes DIRSIZ name.

Lemma new_entry_spec name inum :
  0 < inum < 2 ^ 16 ->
  length (new_entry name inum) = 16%nat /\ de_inum (new_entry name inum) = inum /\
  de_name (new_entry name inum) = strncpy_bytes DIRSIZ name.
Proof.
  intros Hi. unfold new_entry. split; [rewrite length_app, length_le_enc, length_strncpy_bytes; done|]. split.
  - unfold de_inum, ld16, slice. rewrite drop_0. rewrite take_app_length' by done. rewrite le_dec_enc. apply Z.mod_small. lia.
  - unfold de_name, slice. rewrite drop_app_length' by done. apply take_ge. rewrite length_strncpy_bytes. lia.
Qed.

(** The names of a directory after an entry was written: the new name refers to its
    inode, the others to what they did. *)
Lemma lookup_link_at c n name inum e :
  length c = (16 * n)%nat -> 0 < inum < 2 ^ 16 -> (e <= n)%nat -> ((e < n)%nat -> de_inum (entry c e) = 0) ->
  dir_find n 0 c name = None ->
  let c' := link_at c e (new_entry name inum) in
  lookup_name c' name = Some inum /\
  forall name', namecmp name' (strncpy_bytes DIRSIZ name) <> 0 -> lookup_name c' name' = lookup_name c name'.
Proof.
  intros Hc Hi He Hee Hnone c'. destruct (new_entry_spec name inum Hi) as (Hl & Hin & Hnm).
  assert (entries c' = Nat.max n (S e)) as Hn' by (by apply entries_link_at).
  assert (entries c = n) as Hn by (unfold entries; rewrite Hc, Nat.mul_comm; by apply Nat.div_mul).
  assert (length c' = 16 * Nat.max n (S e))%nat as Hlc'.
  { unfold c', link_at. rewrite !length_app, length_take, length_drop, Hl, Hc. lia. }
  assert (forall k, (k < Nat.max n (S e))%nat -> entry c' k = if decide (k = e) then new_entry name inum else entry c k) as Hent
    by (intros k Hk; apply entry_link_at; [done|lia|unfold c' in Hlc'; lia]).
  pose proof (dir_find_spec n 0 c name) as Hnh. rewrite Hnone in Hnh. unfold lookup_name. rewrite Hn', Hn. split.
  - rewrite (dir_find_first _ _ _ _ e); [|lia| |].
    + cbn [fmap option_fmap option_map]. rewrite Hent by lia. by rewrite decide_True, Hin.
    + unfold hit. rewrite Hent by lia. rewrite decide_True, Hin, Hnm by done. unfold namecmp.
      rewrite strncmp_strncpy, (proj2 (Z.eqb_neq inum 0)) by lia. done.
    + intros i Hie. unfold hit. rewrite Hent by lia. rewrite decide_False by lia. apply Hnh. lia.
  - intros name' Hne.
    assert (forall j, (j < n)%nat -> hit c' name' j = hit c name' j) as Hhit.
    { intros j Hj. unfold hit. rewrite Hent by lia. case_decide as Hje; [|done]. subst j. rewrite Hee by done.
      by rewrite Hnm, (proj2 (Z.eqb_neq _ _) Hne), andb_false_r. }
    assert (dir_find (Nat.max n (S e)) 0 c' name' = dir_find n 0 c name') as ->.
    { destruct (decide (e < n)%nat) as [Hlt|Hge]; [rewrite Nat.max_l by lia; apply dir_find_ext; intros j Hj; apply Hhit; lia|].
      assert (e = n) as -> by lia. rewrite Nat.max_r, dir_find_snoc by lia. rewrite (dir_find_ext n 0 c c') by (intros j Hj; apply Hhit; lia).
      destruct (dir_find n 0 c name'); [done|]. unfold hit. cbn [Nat.add]. rewrite Hent by lia.
      by rewrite decide_True, Hnm, (proj2 (Z.eqb_neq _ _) Hne), andb_false_r. }
    pose proof (dir_find_spec n 0 c name') as Hfs. destruct (dir_find n 0 c name') as [j|]; [|done]. cbn [fmap option_fmap option_map]. f_equal.
    destruct Hfs as [Hj Hh]. rewrite Hent by lia. case_decide as Hje; [|done]. subst j.
    unfold hit in Hh. rewrite Hee in Hh by lia. done.
Qed.

(** ** [dirlookup] and [dirlink] *)

Section Dir.
Context {B : Type} `{!BlockOps B} `{!BlockLaws B} (g : geom).
Context (devread : Z -> option (nat -> Z -> K (fs B) (Z * list Z))).
Context (devwrite : Z -> option (nat -> list Z -> K (fs B) Z)).
Implicit Types (b : B) (S : superblock) (ic : list inode) (L : gset Z) (v : Z -> block) (x : inode).
Local Abbreviation sb_ok := (sb_ok g).

(** A directory of [n] entries. *)
Definition dir_ok S v x (n : nat) : Prop := file_ok S v x /\ i_type x = T_DIR /\ i_size x = 16 * Z.of_nat n.

Lemma dir_contents S v x n : dir_ok S v x n -> length (contents v x) = (16 * n)%nat /\ entries (contents v x) = n.
Proof.
  intros (_ & _ & Hs). assert (length (contents v x) = (16 * n)%nat) as Hl by (rewrite length_file_contents, Hs; lia).
  split; [done|]. unfold entries. rewrite Hl, Nat.mul_comm. by apply Nat.div_mul.
Qed.

(** Entry [k] is read. *)
Lemma read_entry b S ic L v dp x n k (Q : Z * list Z -> fs B -> Prop) :
  bl_inv g b [] [] L v -> sb_ok S v -> ic !! dp = Some x -> dir_ok S v x n -> (k < n)%nat -> Z.of_nat (size L) <= bl_cap g ->
  (forall b', bl_inv g b' [] [] L v -> Q (16, entry (contents v x) k) (mkfs b' S ic)) ->
  wp (readi devread dp (16 * Z.of_nat k) 16) (mkfs b S ic) Q.
Proof.
  intros Hb Hsb Hx (Hf & Ht & Hs) Hk HL HQ. pose proof Hf as (_ & Hd & _). assert (i_size x < 2 ^ 32) by apply Hd.
  pose proof Hf as (_ & _ & Hsz & _). destruct maxfile_bytes as [_ Hm].
  eapply (readi_spec g); [exact Hb|done|done|done|by rewrite Ht|lia|lia|lia|done|]. intros b' H'.
  assert (readable x (16 * Z.of_nat k) 16 = 16) as -> by (unfold readable; lia).
  replace (Z.to_nat (16 * Z.of_nat k)) with (16 * k)%nat by lia. by apply HQ.
Qed.

Lemma dirlookup_loop_spec m : forall fuel b S ic L v dp x n k name (Q : option (nat * Z) -> fs B -> Prop),
  bl_inv g b [] [] L v -> sb_ok S v -> ic !! dp = Some x -> dir_ok S v x n -> (k + m = n)%nat -> (m <= fuel)%nat ->
  Z.of_nat (size L) <= bl_cap g ->
  match dir_find m k (contents v x) name with
  | None => forall b', bl_inv g b' [] [] L v -> Q None (mkfs b' S ic)
  | Some j => iget_room 1 (de_inum (entry (contents v x) j)) ic /\ forall b' ip ic', bl_inv g b' [] [] L v ->
      got 1 (de_inum (entry (contents v x) j)) ic ic' ip -> Q (Some (ip, 16 * Z.of_nat j)) (mkfs b' S ic')
  end -> wp (dirlookup_loop devread fuel dp name (16 * Z.of_nat k)) (mkfs b S ic) Q.
Proof.
  induction m as [|m IH]; intros fuel b S ic L v dp x n k name Q Hb Hsb Hx Hd Hn Hfu HL HQ; pose proof Hd as (_ & _ & Hsz).
  { destruct fuel; cbn [dirlookup_loop]; apply wp_bind; (eapply wp_inode_at; [done|]);
      rewrite (proj2 (Z.ltb_ge _ _)) by lia; apply wp_ret; by apply HQ. }
  destruct fuel as [|fuel]; [lia|]. cbn [dirlookup_loop dir_find] in *. apply wp_bind. eapply wp_inode_at; [done|].
  rewrite (proj2 (Z.ltb_lt _ _)) by lia. apply wp_bind. eapply read_entry; [done..|lia|done|]. intros b1 H1. cbn [Z.eqb Pos.eqb negb].
  replace (16 * Z.of_nat k + 16) with (16 * Z.of_nat (Datatypes.S k)) by lia. unfold hit in HQ.
  destruct (Z.eqb_spec (de_inum (entry (contents v x) k)) 0) as [H0|H0]; cbn [negb andb] in HQ.
  { eapply (IH fuel b1 S ic L v dp x n (Datatypes.S k)); [done..|lia|lia|done|exact HQ]. }
  destruct (namecmp name (de_name (entry (contents v x) k)) =? 0).
  - destruct HQ as [Hroom HQ]. assert (i_dev x = 1) as -> by apply Hd. apply wp_bind. eapply iget_spec; [done|].
    intros ip ic' Hg. apply wp_ret. by apply HQ.
  - eapply (IH fuel b1 S ic L v dp x n (Datatypes.S k)); [done..|lia|lia|done|exact HQ].
Qed.

Lemma dirlookup_spec b S ic L v dp x n name (Q : option (nat * Z) -> fs B -> Prop) :
  bl_inv g b [] [] L v -> sb_ok S v -> ic !! dp = Some x -> dir_ok S v x n -> Z.of_nat (size L) <= bl_cap g ->
  match dir_find n 0 (contents v x) name with
  | None => forall b', bl_inv g b' [] [] L v -> Q None (mkfs b' S ic)
  | Some j => iget_room 1 (de_inum (entry (contents v x) j)) ic /\ forall b' ip ic', bl_inv g b' [] [] L v ->
      got 1 (de_inum (entry (contents v x) j)) ic ic' ip -> Q (Some (ip, 16 * Z.of_nat j)) (mkfs b' S ic')
  end -> wp (dirlookup devread dp name) (mkfs b S ic) Q.
Proof.
  intros Hb Hsb Hx Hd HL HQ. pose proof Hd as (_ & Ht & Hsz). unfold dirlookup. apply wp_bind. eapply wp_inode_at; [done|].
  rewrite Ht. cbn [Z.eqb Pos.eqb negb T_DIR]. change 0 with (16 * Z.of_nat 0).
  eapply (dirlookup_loop_spec n); [done..|rewrite Hsz, Z.mul_comm, Z.div_mul by lia; lia|done|done].
Qed.

Lemma dirlink_loop_spec m : forall fuel b S ic L v dp x n k (Q : Z -> fs B -> Prop),
  bl_inv g b [] [] L v -> sb_ok S v -> ic !! dp = Some x -> dir_ok S v x n -> (k + m = n)%nat -> (m <= fuel)%nat ->
  Z.of_nat (size L) <= bl_cap g ->
  (forall b', bl_inv g b' [] [] L v -> Q (16 * Z.of_nat (dir_empty m k (contents v x))) (mkfs b' S ic)) ->
  wp (dirlink_loop devread fuel dp (16 * Z.of_nat k)) (mkfs b S ic) Q.
Proof.
  induction m as [|m IH]; intros fuel b S ic L v dp x n k Q Hb Hsb Hx Hd Hn Hfu HL HQ; pose proof Hd as (_ & _ & Hsz).
  { destruct fuel; cbn [dirlink_loop]; apply wp_bind; (eapply wp_inode_at; [done|]);
      rewrite (proj2 (Z.ltb_ge _ _)) by lia; apply wp_ret; by apply HQ. }
  destruct fuel as [|fuel]; [lia|]. cbn [dirlink_loop dir_empty] in *. apply wp_bind. eapply wp_inode_at; [done|].
  rewrite (proj2 (Z.ltb_lt _ _)) by lia. apply wp_bind. eapply read_entry; [done..|lia|done|]. intros b1 H1. cbn [Z.eqb Pos.eqb negb].
  replace (16 * Z.of_nat k + 16) with (16 * Z.of_nat (Datatypes.S k)) by lia.
  destruct (Z.eqb_spec (de_inum (entry (contents v x) k)) 0) as [H0|H0].
  - apply wp_ret. by apply HQ.
  - eapply (IH fuel b1 S ic L v dp x n (Datatypes.S k)); [done..|lia|lia|done|exact HQ].
Qed.

Lemma new_entry_bytes name inum : bytes_ok name -> bytes_ok (new_entry name inum).
Proof.
  intros Hn. apply Forall_app. split; [apply le_enc_bytes|]. generalize DIRSIZ. intros k. revert name Hn.
  induction k as [|k IH]; intros t Ht; cbn [strncpy_bytes]; [constructor|].
  assert (0 <= default 0 (t !! 0%nat) < 256) as H0.
  { destruct t as [|c t]; cbn; [lia|]. by apply Forall_cons in Ht as [? _]. }
  constructor; [done|]. destruct (_ =? 0); [by apply Forall_replicate|]. apply IH. by apply Forall_drop.
Qed.

(** The directory after [dirlink] of a new name. *)
Definition linked S v v' x x' (name : list Z) (inum : Z) : Prop :=
  sb_ok S v' /\ bitmap_ok S v' /\ (exists n', dir_ok S v' x' n') /\ (synced S v x -> synced S v' x') /\
  i_ref x' = i_ref x /\ i_inum x' = i_inum x /\ i_locked x' = i_locked x /\
  lookup_name (contents v' x') name = Some inum /\
  (forall name', namecmp name' (strncpy_bytes DIRSIZ name) <> 0 ->
     lookup_name (contents v' x') name' = lookup_name (contents v x) name') /\
  untouched S v v' x.

Lemma dirlink_spec b S ic L v dp x n name inum (Q : Z -> fs B -> Prop) :
  bl_inv g b [] [] L v -> sb_ok S v -> bitmap_ok S v -> ic !! dp = Some x -> dir_ok S v x n -> sb_size S <= BPB ->
  (16 * n + 16 <= 512 * MAXFILE)%nat -> bytes_ok name -> 0 < inum < 2 ^ 16 -> lookup_name (contents v x) name = None ->
  has_free S v 2 -> pot S L x + 2 <= bl_cap g ->
  (forall b' L' v' x', bl_inv g b' [] [] L' v' -> linked S v v' x x' name inum -> Z.of_nat (size L') <= bl_cap g ->
     Q 0 (mkfs b' S (<[dp := x']> ic))) ->
  wp (dirlink devread devwrite dp name inum) (mkfs b S ic) Q.
Proof.
  intros Hb Hsb Hbm Hx Hd Hone Hmax Hby Hi Hno Hfree Hpot HQ. destruct (dir_contents _ _ _ _ Hd) as [Hl He].
  pose proof Hd as (Hf & Ht & Hs). pose proof (pot_size S L x) as HzL.
  unfold lookup_name in Hno. rewrite He in Hno. apply fmap_None in Hno.
  unfold dirlink. apply wp_bind. eapply dirlookup_spec; [done..|lia|]. rewrite Hno. intros b1 H1.
  apply wp_bind. eapply wp_inode_at; [done|]. apply wp_bind. change 0 with (16 * Z.of_nat 0).
  eapply (dirlink_loop_spec n); [done..|rewrite Hs, Z.mul_comm, Z.div_mul by lia; lia|lia|]. intros b2 H2.
  destruct (dir_empty_spec n 0 (contents v x)) as [He1 He2]. set (e := dir_empty n 0 (contents v x)) in *.
  destruct (new_entry_spec name inum Hi) as (Hln & _). fold (new_entry name inum).
  replace (16 * Z.of_nat e) with (Z.of_nat (16 * e)) by lia. apply wp_bind.
  eapply (writei_spec g devwrite 1); [exact H2|done|done|done|done|by rewrite Ht|done|by apply new_entry_bytes|lia|rewrite Hln; lia| |done|lia|].
  { rewrite Hln. replace (16 * e)%nat with (16 * e)%nat by lia. change 512%nat with (16 * 32)%nat.
    rewrite Nat.Div0.mul_mod_distr_l. pose proof (Nat.mod_upper_bound e 32). lia. }
  intros b' L' v' x' H' (Hsb' & Hbm' & Hf' & Hsy & Hx' & Hc & Hun) HL'. rewrite Hln in *. cbn [Z.of_nat Pos.of_succ_nat Pos.succ Z.eqb Pos.eqb negb].
  apply wp_ret. apply (HQ b' L' v' x'); [done| |lia].
  destruct (lookup_link_at (contents v x) n name inum e) as [Hn1 Hn2]; [done|done|lia|intros; apply He2; lia|done|].
  unfold linked. rewrite Hc. split_and!; try done; try (by rewrite Hx').
  exists (Nat.max n (Datatypes.S e)). split; [done|]. split; [by rewrite Hx'|]. rewrite Hx'. cbn [i_size set_size]. lia.
Qed.

(** C5: [dirlink] of a name the directory does not have makes the name refer to the inode
    given: [dirlookup] of it then returns the cache entry of that inode.  The other names
    refer to what they did, the directory remains well formed, and nothing outside it is
    changed. *)
Theorem dirlink_dirlookup b S ic L v dp x n name inum :
  bl_inv g b [] [] L v -> sb_ok S v -> bitmap_ok S v -> ic !! dp = Some x -> dir_ok S v x n -> sb_size S <= BPB ->
  (16 * n + 16 <= 512 * MAXFILE)%nat -> bytes_ok name -> 0 < inum < 2 ^ 16 -> lookup_name (contents v x) name = None ->
  has_free S v 2 -> pot S L x + 2 <= bl_cap g -> iget_room 1 inum ic ->
  wp (dirlink devread devwrite dp name inum) (mkfs b S ic) (fun r s1 => r = 0 /\ exists b1 L1 v1 x1,
    s1 = mkfs b1 S (<[dp := x1]> ic) /\ bl_inv g b1 [] [] L1 v1 /\ linked S v v1 x x1 name inum /\
    wp (dirlookup devread dp name) s1 (fun r s2 => exists b2 ip off ic2, r = Some (ip, off) /\ s2 = mkfs b2 S ic2 /\
      bl_inv g b2 [] [] L1 v1 /\ got 1 inum (<[dp := x1]> ic) ic2 ip)).
Proof.
  intros Hb Hsb Hbm Hx Hd Hone Hmax Hby Hi Hno Hfree Hpot Hroom. eapply dirlink_spec; [done..|].
  intros b1 L1 v1 x1 H1 Hlk HL1. split; [done|]. exists b1, L1, v1, x1. do 3 (split; [done|]).
  pose proof (lookup_lt_Some _ _ _ Hx) as Hlt.
  destruct Hlk as (Hsb1 & _ & (n1 & Hd1) & _ & Hr1 & Hi1 & _ & Hname & _).
  destruct (dir_contents _ _ _ _ Hd1) as [_ He1]. unfold lookup_name in Hname. rewrite He1 in Hname.
  eapply dirlookup_spec; [done|done|by apply list_lookup_insert_eq|done|done|].
  destruct (dir_find n1 0 (contents v1 x1) name) as [j|]; [|done]. injection Hname as ->. split.
  - destruct Hroom as (k & y & Hk & Hy). destruct (decide (k = dp)) as [->|Hne].
    + exists dp, x1. rewrite list_lookup_insert_eq by done. split; [done|]. simplify_eq. unfold is_entry.
      assert (i_dev x1 = 1) as -> by apply Hd1. assert (i_dev x = 1) as Hdx by apply Hd. rewrite Hr1, Hi1.
      unfold is_entry in Hy. by rewrite Hdx in Hy.
    + exists k, y. by rewrite list_lookup_insert_ne.
  - intros b2 ip ic2 H2 Hg. by exists b2, ip, (16 * Z.of_nat j), ic2.
Qed.

(** [iput] of an inode that is locked waits. *)
Lemma iput_locked (s : fs B) ip x : icache s !! ip = Some x -> i_locked x = true -> iput ip s = Sleep (ChInode ip) s.
Proof. intros Hx Hl. unfold iput, ilock_sleep, inode_at, arr_get, mbind, K_bind. rewrite Hx. cbn. by rewrite Hl. Qed.

(** [dirlink] of a name by which the directory, locked by the caller as [dirlink]
    needs it, contains itself (such as the one [sys_link] is given in [link(f, d/.)]) never
    returns: it finds the directory, and to drop the reference it got waits for the lock
    of the inode, which the caller holds. *)
Theorem dirlink_self_deadlock b S ic L v dp x n name inum :
  bl_inv g b [] [] L v -> sb_ok S v -> ic !! dp = Some x -> dir_ok S v x n -> Z.of_nat (size L) <= bl_cap g ->
  icache_ok ic -> 0 < i_ref x -> i_locked x = true -> lookup_name (contents v x) name = Some (i_inum x) ->
  exists s', dirlink devread devwrite dp name inum (mkfs b S ic) = Sleep (ChInode dp) s'.
Proof.
  intros Hb Hsb Hx Hd HL Hic Hr Hlk Hname. destruct (dir_contents _ _ _ _ Hd) as [_ He].
  unfold lookup_name in Hname. rewrite He in Hname. assert (i_dev x = 1) as Hdev by apply Hd.
  assert (is_entry 1 (i_inum x) x) as Hex by done.
  assert (wp (dirlookup devread dp name) (mkfs b S ic) (fun r s' => exists b' off,
    r = Some (dp, off) /\ s' = mkfs b' S (<[dp := set_ref (i_ref x + 1) x]> ic))) as Hl.
  { eapply dirlookup_spec; [done..|]. destruct (dir_find n 0 (contents v x) name) as [j|]; [|done]. injection Hname as ->.
    split; [exists dp, x; by split; [|left]|]. intros b' ip ic' _ (y & y' & Hy & -> & Hy' & [[Hey ->]|(_ & Hno & _)]).
    - assert (ip = dp) as ->. { apply (proj2 Hic ip dp y x); [done|done|by rewrite Hdev|done]. }
      simplify_eq. by exists b', (16 * Z.of_nat j).
    - by destruct (Hno dp x Hx). }
  apply wp_elim in Hl as (r & s' & Hrun & b' & off & -> & ->). unfold dirlink, mbind, K_bind. rewrite Hrun.
  erewrite iput_locked; [by eexists|apply list_lookup_insert_eq; by eapply lookup_lt_Some|done].
Qed.

End Dir.
End FsDir.
