(* ===== verification/FsExample.v ===== *)
(** * The file system on a concrete disk

    A disk of 100 blocks with a log of 30 blocks, 8 inodes, a root directory and a file, and
    the theorems on the file system applied to the kernel booted from it. *)

From S2P Require Export FsLog FsDir LogExample.
Local Open Scope Z_scope.

Module FsExample.
Import Bio Log LogSpec LogCrash Txn LogExample CString Layout Fs FsSpec FsFile FsRw FsDir FsLog.

(** ** The disk *)

Definition sb0 : superblock := mksb 100 65 8 30 2 32 34.
Definition g0 : geom := mkgeom 100 2 30.

Definition padded (l : list Z) : block := l ++ replicate (512 - length l) 0.
Definition addrs1 (a : Z) : list Z := a :: replicate 12 0.
(** The root directory, inode 1, in block 35, and a file of five bytes, inode 2, in block 36. *)
Definition root_di : dinode := mkdinode T_DIR 0 0 1 32 (addrs1 35).
Definition file_di : dinode := mkdinode T_FILE 0 0 1 5 (addrs1 36).
Definition di_bytes (d : dinode) : list Z :=
  le_enc 2 (d_type d) ++ le_enc 2 (d_major d) ++ le_enc 2 (d_minor d) ++ le_enc 2 (d_nlink d) ++
  le_enc 4 (d_size d) ++ addrs_bytes (d_addrs d).
Definition dot_name : list Z := [46].
Definition img_sb : block := padded (addrs_bytes [100; 65; 8; 30; 2; 32; 34]).
Definition img_inodes : block := padded (replicate 64 0 ++ di_bytes root_di ++ di_bytes file_di).
Definition img_bitmap : block := padded [255; 255; 255; 255; 31].
Definition img_root : block := padded (new_entry dot_name 1 ++ new_entry (dot_name ++ dot_name) 1).
Definition img_file : block := padded [104; 101; 108; 108; 111].
Definition img (c : Z) : block :=
  if c =? 1 then img_sb else if c =? 32 then img_inodes else if c =? 34 then img_bitmap
  else if c =? 35 then img_root else if c =? 36 then img_file else zero_block.

Definition byteb (b : Z) : bool := ((0 <=? b) && (b <? 256))%bool.
Definition blockb (d : list Z) : bool := ((length d =? 512)%nat && forallb byteb d)%bool.
Lemma blockb_ok d : blockb d = true -> block_ok d.
Proof.
  unfold blockb. intros [Hl%Nat.eqb_eq H]%andb_true_iff. split; [exact Hl|]. apply Forall_forall. intros b Hb.
  assert (byteb b = true) as Hbb by (by eapply forallb_forall; [|apply list_elem_of_In]). unfold byteb in Hbb. bool_hyps.
  unfold is_byte. lia.
Qed.

Lemma img_ok c : block_ok (img c).
Proof. unfold img. repeat (destruct (_ =? _); [apply blockb_ok; vm_compute; done|]). exact zero_ok. Qed.

Definition disk0 : gmap Z block := mkdisk 100 img.
Lemma disk0_bootable : bootable 2 30 100 disk0.
Proof. apply mkdisk_bootable; [intros; apply img_ok|vm_compute; done|vm_compute; done|lia|lia|lia|vm_compute; done]. Qed.

Lemma disk0_total c : 0 <= c < 100 -> disk0 !!! c = img c.
Proof. apply mkdisk_total. Qed.

(** What the kernel sees of the disk. *)
Definition sees (v : Z -> block) : Prop := forall c, 32 <= c < 100 \/ c = 1 -> v c = img c.

#[local] Opaque disk0.
Lemma booted_fs : exists b v, idle g0 b v /\ sees v.
Proof.
  destruct (wp_elim _ _ _ (initlog_inv _ _ _ _ disk0_bootable)) as ([] & s & Hrun & Hinv & Hlg & H1 & H2 & H3 & H4 & H5 & Hv).
  exists s, (view (bs s)). split.
  - split_and!; try done. pose proof (length_logged s Hinv) as Hl. rewrite Hlg in Hl.
    destruct Hinv as (_ & _ & _ & _ & ? & _). cbn in Hl. lia.
  - intros c Hc. destruct (Hv c) as [-> _]. rewrite recovered_empty.
    + apply disk0_total. lia.
    + rewrite disk0_total by lia. vm_compute. done.
    + lia.
Qed.

Lemma in_operation : exists d0 w0 b v, log_layer d0 w0 1 g0 b [] [] ∅ v /\ sees v.
Proof.
  destruct booted_fs as (b & v & Hid & Hs). destruct (wp_elim _ _ _ (begin_op_layer g0 b v Hid)) as (_ & b' & _ & Hl).
  by exists (disk (bs b)), (writes (bs b)), b', v.
Qed.

(** ** The invariants of the file system hold *)

Lemma sees_sb v : sees v -> sb_ok g0 sb0 v.
Proof.
  intros Hv. unfold sb_ok. rewrite (Hv 1) by lia. split; [vm_compute; done|]. vm_compute. repeat (split; try done).
Qed.

Lemma sees_used v c : sees v -> 0 <= c < 100 -> used sb0 v c = bit img_bitmap (Z.to_nat c).
Proof.
  intros Hv Hc. unfold used. assert (BBLOCK c sb0 = 34) as ->.
  { unfold BBLOCK. rewrite Z.div_small by (unfold BPB, BSIZE; lia). done. }
  rewrite (Hv 34), Z.mod_small by (unfold BPB, BSIZE; lia). done.
Qed.

Lemma bitmap_37 : forall c, 0 <= c < 100 -> bit img_bitmap (Z.to_nat c) = (c <? 37).
Proof.
  intros c Hc. assert (forallb (fun k => Bool.eqb (bit img_bitmap k) (Z.of_nat k <? 37)) (seq 0 100) = true) as H by (vm_compute; done).
  rewrite forallb_forall in H. specialize (H (Z.to_nat c)). rewrite Z2Nat.id in H by lia.
  apply eqb_prop, H, in_seq. lia.
Qed.

Lemma used_37 v c : sees v -> 0 <= c < 100 -> used sb0 v c = (c <? 37).
Proof. intros Hv Hc. rewrite sees_used by done. by apply bitmap_37. Qed.

Lemma sees_bitmap v : sees v -> bitmap_ok sb0 v.
Proof.
  intros Hv c Hc. change (datastart sb0) with 35 in Hc. rewrite used_37 by (done || lia). apply Z.ltb_lt. lia.
Qed.

Lemma sees_free v : sees v -> has_free sb0 v 2.
Proof.
  intros Hv. exists [37; 38]. split; [by apply (bool_decide_unpack (NoDup [37; 38]))|].
  split; [done|]. intros c Hc. assert (c = 37 \/ c = 38) as H by set_solver.
  split; [unfold data_block; change (datastart sb0) with 35; cbn; lia|]. rewrite used_37 by (done || lia). apply Z.ltb_ge. lia.
Qed.

Lemma small_dinode t n s a :
  0 <= t < 100 -> 0 <= n < 100 -> 0 <= s < 1000 -> 0 <= a < 100 -> dinode_ok (mkdinode t 0 0 n s (addrs1 a)).
Proof.
  intros Ht Hn Hs Ha. unfold dinode_ok. cbn [d_type d_major d_minor d_nlink d_size d_addrs]. split_and!; try lia; [done|].
  constructor; [lia|]. by apply Forall_replicate.
Qed.

(** The cache entry of an inode with one block. *)
Definition entry1 (inum : Z) (lk : bool) (di : dinode) : inode :=
  of_dinode di (mkinode 1 inum 1 lk true 0 0 0 0 0 []).

Lemma entry1_blkno v inum lk di a bn :
  d_addrs di = addrs1 a -> blkno v (entry1 inum lk di) bn = if decide (bn = 0%nat) then a else 0.
Proof.
  intros Ha. assert (i_addrs (entry1 inum lk di) = addrs1 a) as Had by done.
  assert (ind (entry1 inum lk di) = 0) as Hind by (unfold ind, addr_of; by rewrite Had).
  unfold blkno. rewrite Hind. destruct (bn <? NDIRECT)%nat eqn:E; [|case_decide; [by subst bn|done]].
  unfold addr_of. rewrite Had. destruct bn as [|bn]; [done|]. change (addrs1 a !! S bn) with (replicate 12 0 !! bn).
  apply Nat.ltb_lt in E. rewrite lookup_replicate_2; [done|]. unfold NDIRECT in E. lia.
Qed.

Lemma entry1_ok v inum lk di a :
  sees v -> 0 <= inum < 8 -> dinode_ok di -> d_addrs di = addrs1 a -> 35 <= a < 37 -> d_size di <= 512 -> file_ok sb0 v (entry1 inum lk di).
Proof.
  intros Hv Hi Hd Ha Ha2 Hs. assert (i_addrs (entry1 inum lk di) = addrs1 a) as Had by done.
  assert (ind (entry1 inum lk di) = 0) as Hind by (unfold ind, addr_of; by rewrite Had).
  pose proof (fun bn => entry1_blkno v inum lk di a bn Ha) as Hb.
  split; [|split; [done|split]].
  - split; [done|]. split; [done|]. split; [by rewrite Had|]. split; [by left|]. split.
    + intros bn _. rewrite Hb, Hind. case_decide; [right|by left]. split; [|lia]. split.
      * unfold data_block. change (datastart sb0) with 35. change (sb_size sb0) with 100. lia.
      * rewrite used_37 by (done || lia). apply Z.ltb_lt. lia.
    + intros bn bn' _ _. rewrite !Hb. repeat case_decide; congruence.
  - destruct maxfile_bytes as [_ Hm]. change (i_size (entry1 inum lk di)) with (d_size di). lia.
  - intros bn Hbn. cbn [i_size entry1 of_dinode] in Hbn. rewrite Hb. rewrite decide_True by lia. lia.
Qed.

Definition root_i : inode := entry1 1 true root_di.
Definition file_i : inode := entry1 2 true file_di.
Definition free_i : inode := mkinode 0 0 0 false false 0 0 0 0 0 [].
Definition ic0 : list inode := [root_i; file_i; free_i].

Lemma root_ok v : sees v -> dir_ok sb0 v root_i 2.
Proof.
  intros Hv. split; [|done]. eapply (entry1_ok v 1 true root_di 35); [done|lia| |done|lia|cbn; lia].
  by apply small_dinode.
Qed.
Lemma file_ok0 v : sees v -> file_ok sb0 v file_i.
Proof.
  intros Hv. eapply (entry1_ok v 2 true file_di 36); [done|lia| |done|lia|cbn; lia].
  by apply small_dinode.
Qed.

Lemma pot0 x : ind x = 0 -> pot sb0 ∅ x = 2.
Proof. intros Hx. unfold pot. rewrite Hx. done. Qed.

Lemma entry1_contents v inum lk di a :
  d_addrs di = addrs1 a -> a <> 0 -> d_size di <= 512 ->
  contents v (entry1 inum lk di) = (fun k => v a !!! k) <$> seq 0 (Z.to_nat (d_size di)).
Proof.
  intros Ha Hne Hs. unfold contents. apply list_fmap_ext. intros i k Hk. apply lookup_seq in Hk as [-> Hk].
  change (i_size (entry1 inum lk di)) with (d_size di) in Hk. unfold fbyte, fblock.
  rewrite Nat.div_small, Nat.mod_small by lia. rewrite (entry1_blkno v inum lk di a 0 Ha), decide_True by done.
  by rewrite (proj2 (Z.eqb_neq a 0) Hne).
Qed.

Lemma root_contents v : sees v -> contents v root_i = new_entry dot_name 1 ++ new_entry (dot_name ++ dot_name) 1.
Proof.
  intros Hv. unfold root_i. rewrite (entry1_contents v 1 true root_di 35), (Hv 35) by (done || lia). vm_compute. done.
Qed.

Lemma root_lookup v : sees v ->
  lookup_name (contents v root_i) dot_name = Some 1 /\ lookup_name (contents v root_i) [97] = None.
Proof. intros Hv. rewrite root_contents by done. by vm_compute. Qed.

Lemma ic0_ok : icache_ok ic0.
Proof.
  split.
  - intros i x Hx. assert (x ∈ ic0) as H by (by eapply list_elem_of_lookup_2). unfold ic0 in H.
    by apply elem_of_cons in H as [->|[->|H%list_elem_of_singleton]%elem_of_cons]; [| |subst x].
  - intros [|[|[|i]]] [|[|[|j]]] x y Hx Hy He Hp; try done; cbn in Hx, Hy; simplify_eq; unfold is_entry in He; cbn in *; lia.
Qed.

(** ** The theorems applied *)

Lemma writei_writes_witness : exists d0 w0 b v, log_layer d0 w0 1 g0 b [] [] ∅ v /\ contents v file_i = [104; 101; 108; 108; 111] /\
  wp (writei (fun _ => None) 1 [112; 33] 3) (mkfs b sb0 ic0) (fun r s' =>
    exists b' L' v' x', s' = mkfs b' sb0 (<[1%nat := x']> ic0) /\ r = 2 /\
      log_layer d0 w0 1 g0 b' [] [] L' v' /\ written g0 sb0 v v' file_i x' 3 [112; 33]).
Proof.
  destruct in_operation as (d0 & w0 & b & v & Hl & Hv). exists d0, w0, b, v. split; [exact Hl|]. split.
  { unfold file_i. rewrite (entry1_contents v 2 true file_di 36), (Hv 36) by (done || lia). vm_compute. done. }
  eapply (writei_writes (BlockLaws0 := log_laws d0 w0 1) g0 (fun _ => None) 1 b sb0 ic0 ∅ v 1 file_i 3 [112; 33]);
    [exact Hl|by apply sees_sb|by apply sees_bitmap|done|by apply file_ok0|done|done| |done|
     apply Nat2Z.inj_le; destruct maxfile_bytes; cbn [length]; lia|cbn; lia|by apply sees_free|rewrite pot0; done].
  repeat constructor; done.
Defined.

Lemma readi_reads_witness : exists d0 w0 b v, log_layer d0 w0 1 g0 b [] [] ∅ v /\
  wp (readi (fun _ => None) 1 3 100) (mkfs b sb0 ic0) (fun r s' =>
    exists b', s' = mkfs b' sb0 ic0 /\ log_layer d0 w0 1 g0 b' [] [] ∅ v /\ r = (2, slice 3 2 (contents v file_i))).
Proof.
  destruct in_operation as (d0 & w0 & b & v & Hl & Hv). exists d0, w0, b, v. split; [exact Hl|].
  eapply (readi_reads (BlockLaws0 := log_laws d0 w0 1) g0 (fun _ => None) b sb0 ic0 ∅ v 1 file_i 3 100);
    [exact Hl|by apply sees_sb|done|by apply file_ok0|done|done|lia|lia|done].
Defined.

Lemma balloc_bfree_witness : exists d0 w0 b v, log_layer d0 w0 1 g0 b [] [] ∅ v /\
  wp (balloc 1) (mkfs b sb0 ic0) (fun c s1 => c = 37 /\ exists b1 L1 v1, s1 = mkfs b1 sb0 ic0 /\
    log_layer d0 w0 1 g0 b1 [] [] L1 v1 /\ allocated g0 sb0 v v1 37 /\
    wp (bfree 1 37) s1 (fun _ s2 => exists b2 L2 v2, s2 = mkfs b2 sb0 ic0 /\ log_layer d0 w0 1 g0 b2 [] [] L2 v2 /\
      sb_ok g0 sb0 v2 /\ (forall k, 0 <= k < sb_size sb0 -> used sb0 v2 k = used sb0 v k) /\
      (forall k, k <> 37 -> ~ bitmap_block sb0 k -> v2 k = v k))).
Proof.
  destruct in_operation as (d0 & w0 & b & v & Hl & Hv). exists d0, w0, b, v. split; [exact Hl|].
  eapply (balloc_bfree (BlockLaws0 := log_laws d0 w0 1) g0 b sb0 ic0 ∅ v 37);
    [exact Hl|by apply sees_sb|by apply sees_bitmap| |done].
  split; [done|]. split; [by rewrite used_37|]. intros c Hc. rewrite used_37 by (done || lia). apply Z.ltb_lt. lia.
Defined.

Lemma iupdate_ilock_witness : exists d0 w0 b v, log_layer d0 w0 1 g0 b [] [] ∅ v /\
  wp (iupdate 1) (mkfs b sb0 ic0) (fun _ s1 => exists b1 L1 v1, s1 = mkfs b1 sb0 ic0 /\ log_layer d0 w0 1 g0 b1 [] [] L1 v1 /\
    (forall inum, inum_ok sb0 inum -> inum <> 2 -> dinode_at sb0 v1 inum = dinode_at sb0 v inum) /\
    forall ic' jp y, ic' !! jp = Some y -> i_dev y = 1 -> i_inum y = 2 -> 1 <= i_ref y ->
      i_locked y = false -> i_valid y = false ->
      wp (ilock (Some jp)) (mkfs b1 sb0 ic') (fun _ s2 => exists b2, log_layer d0 w0 1 g0 b2 [] [] L1 v1 /\
        s2 = mkfs b2 sb0 (<[jp := set_valid true (of_dinode file_di (set_lock true y))]> ic'))).
Proof.
  destruct in_operation as (d0 & w0 & b & v & Hl & Hv). exists d0, w0, b, v. split; [exact Hl|].
  eapply (iupdate_ilock (BlockLaws0 := log_laws d0 w0 1) g0 b sb0 ic0 ∅ v 1 file_i);
    [exact Hl|by apply sees_sb|done|done|done|by apply small_dinode|done|done].
Defined.

(** The free entry of the cache is used for inode 5. *)
Lemma iget_unique_witness : exists b : lst, icache_ok ic0 /\
  wp (iget 1 5) (mkfs b sb0 ic0) (fun ip s' =>
    exists ic', s' = mkfs b sb0 ic' /\ icache_ok ic' /\ got 1 5 ic0 ic' ip).
Proof.
  exists (boot_state disk0 100). split; [exact ic0_ok|]. apply iget_unique; [exact ic0_ok|].
  exists 2%nat, free_i. split; [done|by right].
Defined.

(** The file is linked into the root directory under the name "a". *)
Lemma dirlink_dirlookup_witness : exists d0 w0 b v, log_layer d0 w0 1 g0 b [] [] ∅ v /\
  wp (dirlink (fun _ => None) (fun _ => None) 0 [97] 2) (mkfs b sb0 ic0) (fun r s1 => r = 0 /\ exists b1 L1 v1 x1,
    s1 = mkfs b1 sb0 (<[0%nat := x1]> ic0) /\ log_layer d0 w0 1 g0 b1 [] [] L1 v1 /\ linked g0 sb0 v v1 root_i x1 [97] 2 /\
    wp (dirlookup (fun _ => None) 0 [97]) s1 (fun r s2 => exists b2 ip off ic2, r = Some (ip, off) /\ s2 = mkfs b2 sb0 ic2 /\
      log_layer d0 w0 1 g0 b2 [] [] L1 v1 /\ got 1 2 (<[0%nat := x1]> ic0) ic2 ip)).
Proof.
  destruct in_operation as (d0 & w0 & b & v & Hl & Hv). exists d0, w0, b, v. split; [exact Hl|].
  eapply (dirlink_dirlookup (BlockLaws0 := log_laws d0 w0 1) g0 (fun _ => None) (fun _ => None) b sb0 ic0 ∅ v 0 root_i 2 [97] 2);
    [exact Hl|by apply sees_sb|by apply sees_bitmap|done|by apply root_ok|done|
     apply Nat2Z.inj_le; destruct maxfile_bytes; lia| |done|by apply root_lookup|by apply sees_free|rewrite pot0; done| ].
  - by repeat constructor.
  - exists 1%nat, file_i. split; [done|by left].
Defined.

(** [link(f, "/.")]. *)
Lemma dirlink_self_deadlock_witness : exists d0 w0 b v, log_layer d0 w0 1 g0 b [] [] ∅ v /\
  exists s', dirlink (fun _ => None) (fun _ => None) 0 dot_name 2 (mkfs b sb0 ic0) = Sleep (ChInode 0) s'.
Proof.
  destruct in_operation as (d0 & w0 & b & v & Hl & Hv). exists d0, w0, b, v. split; [exact Hl|].
  eapply (dirlink_self_deadlock (BlockLaws0 := log_laws d0 w0 1) g0 (fun _ => None) (fun _ => None) b sb0 ic0 ∅ v 0 root_i 2 dot_name 2);
    [exact Hl|by apply sees_sb|done|by apply root_ok|done|exact ic0_ok|done|done|by apply root_lookup].
Defined.

Lemma file_write_atomic_witness : exists b v, idle g0 b v /\ contents v file_i = [104; 101; 108; 108; 111] /\
  wp (lift begin_op;; r ← writei (fun _ => None) 1 [112; 33] 3; lift end_op;; mret r) (mkfs b sb0 ic0) (fun r s' =>
    exists b' ic' v' w, s' = mkfs b' sb0 ic' /\
      (r = 2 /\ exists x', ic' = <[1%nat := x']> ic0 /\ written g0 sb0 v v' file_i x' 3 [112; 33]) /\
      writes (bs b') = writes (bs b) ++ w /\ all_or_nothing g0 (disk (bs b)) w v v' /\ log_inv b' /\
      forall c, outside g0 c -> view (bs b') c = v' c).
Proof.
  destruct booted_fs as (b & v & Hid & Hv). exists b, v. split; [exact Hid|]. split.
  { unfold file_i. rewrite (entry1_contents v 2 true file_di 36), (Hv 36) by (done || lia). vm_compute. done. }
  eapply (file_write_atomic 1 g0 b sb0 ic0 v 1 file_i 3 [112; 33] (fun _ => None));
    [exact Hid|by apply sees_sb|by apply sees_bitmap|done|by apply file_ok0|done|done| |done|
     apply Nat2Z.inj_le; destruct maxfile_bytes; cbn [length]; lia|cbn; lia|by apply sees_free|rewrite pot0; done].
  repeat constructor; done.
Defined.

End FsExample.
