(* ===== verification/Spinlock.v ===== *)
(** * Spin locks and interrupts

    spinlock.c with [mycpu], the checks of [sched], and the timer interrupt of trap.c as
    far as they are about locks.  The state is the CPUs, with the interrupt flag of each,
    and the locks; the acting CPU is an argument.  [acquire] and [release] are made of the
    pieces between which other CPUs may act: the check of the lock, the atomic exchange,
    and each store to the lock; stores become visible in the order of the program.  A CPU
    that finds a lock taken spins.  The debugging fields [name] and [pcs] of a lock are
    left out.

    Shown: whatever the CPUs do with locks, in any interleaving of these pieces, a lock
    has one owner at most, every other CPU spins, and the owner's interrupts are off until
    it has released all its locks, except while [filealloc] looks through its table with
    interrupts on; and that [filealloc] panics the kernel when the timer interrupts it. *)

From S2P Require Export Prelude.
Local Open Scope Z_scope.

Module Spinlock.

Record cpu : Type := mkcpu {
  ncli : Z;        (* Depth of pushcli nesting. *)
  intena : bool;   (* Were interrupts enabled before pushcli? *)
  intr : bool      (* FL_IF *)
}.
Record spinlock : Type := mkspin { locked : bool; lkcpu : option nat }.
Record mach : Type := mkmach { cpus : list cpu; locks : list spinlock }.

Definition cpu_at (c : nat) : K mach cpu := fun s => arr_get (cpus s) c s.
Definition set_cpu (c : nat) (x : cpu) : K mach unit := modify (fun s => mkmach (<[c := x]> (cpus s)) (locks s)).
Definition lock_at (l : nat) : K mach spinlock := fun s => arr_get (locks s) l s.
Definition set_lock (l : nat) (k : spinlock) : K mach unit := modify (fun s => mkmach (cpus s) (<[l := k]> (locks s))).

Definition sti (c : nat) : K mach unit := x ← cpu_at c; set_cpu c (mkcpu (ncli x) (intena x) true).
Definition cli (c : nat) : K mach unit := x ← cpu_at c; set_cpu c (mkcpu (ncli x) (intena x) false).

(** [mycpu()], called on CPU [c]. *)
Definition mycpu (c : nat) : K mach cpu :=
  x ← cpu_at c;
  if intr x then panic "mycpu called with interrupts enabled" else mret x.

Definition initlock (l : nat) : K mach unit := set_lock l (mkspin false None).

Definition pushcli (c : nat) : K mach unit :=
  e ← cpu_at c;
  cli c;;
  x ← mycpu c;
  set_cpu c (mkcpu (ncli x + 1) (if ncli x =? 0 then intr e else intena x) (intr x)).

Definition popcli (c : nat) : K mach unit :=
  e ← cpu_at c;
  if intr e then panic "popcli - interruptible" else
  x ← mycpu c;
  set_cpu c (mkcpu (ncli x - 1) (intena x) (intr x));;
  x ← mycpu c;
  if ncli x <? 0 then panic "popcli" else
  if ((ncli x =? 0) && intena x)%bool then sti c else mret tt.

Definition holding (c l : nat) : K mach bool :=
  k ← lock_at l;
  if locked k then _ ← mycpu c; mret (bool_decide (lkcpu k = Some c)) else mret false.

(** The pieces of [acquire]: up to the loop; one round of the loop, which tells whether the
    lock was taken; and the record of the owner. *)
Definition acquire_enter (c l : nat) : K mach unit :=
  pushcli c;;
  h ← holding c l;
  if (h : bool) then panic "acquire" else mret tt.
Definition xchg (l : nat) : K mach bool :=
  k ← lock_at l;
  set_lock l (mkspin true (lkcpu k));;
  mret (locked k).
Definition acquire_own (c l : nat) : K mach unit :=
  _ ← mycpu c;
  k ← lock_at l;
  set_lock l (mkspin (locked k) (Some c)).

Definition acquire (c l : nat) : K mach unit :=
  acquire_enter c l;;
  taken ← xchg l;
  if (taken : bool) then sleep_on (ChSpin l) else acquire_own c l.

(** The pieces of [release], before [popcli]: the check, and the two stores. *)
Definition release_enter (c l : nat) : K mach unit :=
  h ← holding c l;
  if negb h then panic "release" else mret tt.
Definition release_clear (l : nat) : K mach unit := k ← lock_at l; set_lock l (mkspin (locked k) None).
Definition release_open (l : nat) : K mach unit := k ← lock_at l; set_lock l (mkspin false (lkcpu k)).

Definition release (c l : nat) : K mach unit :=
  release_enter c l;;
  release_clear l;;
  release_open l;;
  popcli c.

(** The locks of this model: those of ftable and ptable, and tickslock. *)
Definition FTABLE : nat := 0.
Definition PTABLE : nat := 1.
Definition TICKS : nat := 2.

(** [sched()] up to the switch; [running]: the process is still RUNNING. *)
Definition sched_enter (c : nat) (running : bool) : K mach unit :=
  h ← holding c PTABLE;
  if negb h then panic "sched ptable.lock" else
  x ← mycpu c;
  if negb (ncli x =? 1) then panic "sched locks" else
  if running then panic "sched running" else
  e ← cpu_at c;
  if intr e then panic "sched interruptible" else mret tt.

(** [yield()], up to the switch. *)
Definition yield_enter (c : nat) : K mach unit :=
  acquire c PTABLE;;
  sched_enter c false.

(** A timer interrupt while a process runs on CPU [c]: the gate turns interrupts off;
    [trap] counts the tick and wakes sleepers on CPU 0, and yields. *)
Definition timer (c : nat) : K mach unit :=
  cli c;;
  (if (c =? 0)%nat then
     acquire c TICKS;;
     (* wakeup(&ticks) *)
     acquire c PTABLE;; release c PTABLE;;
     release c TICKS
   else mret tt);;
  yield_enter c.

(** [filealloc()] up to its scan of the table. *)
Definition filealloc_enter (c : nat) : K mach unit :=
  acquire c FTABLE;;
  sti c.

(** ** How CPUs use locks *)

(** Where the code of a CPU is in [acquire] or [release]. *)
Inductive pos : Type :=
  | Out
  | Spinning (l : nat)   (* in the loop of acquire *)
  | Taken (l : nat)      (* after it *)
  | Checked (l : nat)    (* in release, after the check *)
  | Cleared (l : nat)    (* after lk->cpu = 0 *)
  | Opened.              (* after lk->locked = 0 *)

(** Whether it is in the loop of [filealloc], or in the handler of an interrupt of it. *)
Inductive scan : Type := NoScan | Scanning | Handler.

(** [pushes]: the calls of [pushcli] it has open, those of [acquire] apart. *)
Record ctx : Type := mkctx { at_pos : pos; pushes : nat; in_scan : scan }.

Record sys : Type := mksys { m : mach; ctxs : list ctx }.

(** CPU [c] has made the machine [s'] and is at [t']. *)
Definition moved (σ : sys) (c : nat) (s' : mach) (t' : ctx) : sys := mksys s' (<[c := t']> (ctxs σ)).

Inductive step : sys -> sys -> Prop :=
  | step_enter σ c l n f s' : ctxs σ !! c = Some (mkctx Out n f) -> f <> Scanning ->
      acquire_enter c l (m σ) = Ret tt s' -> step σ (moved σ c s' (mkctx (Spinning l) n f))
  | step_xchg σ c l n f taken s' : ctxs σ !! c = Some (mkctx (Spinning l) n f) ->
      xchg l (m σ) = Ret taken s' -> step σ (moved σ c s' (mkctx (if taken then Spinning l else Taken l) n f))
  | step_own σ c l n f s' : ctxs σ !! c = Some (mkctx (Taken l) n f) ->
      acquire_own c l (m σ) = Ret tt s' -> step σ (moved σ c s' (mkctx Out n f))
  (* no handler releases ftable.lock *)
  | step_check σ c l n f s' : ctxs σ !! c = Some (mkctx Out n f) -> f <> Scanning -> (l = FTABLE -> f = NoScan) ->
      release_enter c l (m σ) = Ret tt s' -> step σ (moved σ c s' (mkctx (Checked l) n f))
  | step_clear σ c l n f s' : ctxs σ !! c = Some (mkctx (Checked l) n f) ->
      release_clear l (m σ) = Ret tt s' -> step σ (moved σ c s' (mkctx (Cleared l) n f))
  | step_open σ c l n f s' : ctxs σ !! c = Some (mkctx (Cleared l) n f) ->
      release_open l (m σ) = Ret tt s' -> step σ (moved σ c s' (mkctx Opened n f))
  | step_leave σ c n f s' : ctxs σ !! c = Some (mkctx Opened n f) ->
      popcli c (m σ) = Ret tt s' -> step σ (moved σ c s' (mkctx Out n f))
  | step_push σ c n f s' : ctxs σ !! c = Some (mkctx Out n f) -> f <> Scanning ->
      pushcli c (m σ) = Ret tt s' -> step σ (moved σ c s' (mkctx Out (S n) f))
  | step_pop σ c n f s' : ctxs σ !! c = Some (mkctx Out (S n) f) -> f <> Scanning ->
      popcli c (m σ) = Ret tt s' -> step σ (moved σ c s' (mkctx Out n f))
  (* interrupts are turned on by the scheduler's loop and by the return from a handler *)
  | step_sti σ c n f x s' : ctxs σ !! c = Some (mkctx Out n f) -> cpus (m σ) !! c = Some x -> ncli x = 0 ->
      sti c (m σ) = Ret tt s' -> step σ (moved σ c s' (mkctx Out n f))
  (* and off by an interrupt gate *)
  | step_gate σ c n f s' : ctxs σ !! c = Some (mkctx Out n f) -> cli c (m σ) = Ret tt s' ->
      step σ (moved σ c s' (mkctx Out n (match f with Scanning => Handler | _ => f end)))
  (* filealloc, whose callers hold no lock, turns them on with its lock held, and off *)
  | step_scan σ c n x s' : ctxs σ !! c = Some (mkctx Out n NoScan) -> cpus (m σ) !! c = Some x -> ncli x = 1 ->
      locks (m σ) !! FTABLE = Some (mkspin true (Some c)) -> sti c (m σ) = Ret tt s' ->
      step σ (moved σ c s' (mkctx Out n Scanning))
  | step_scanned σ c n s' : ctxs σ !! c = Some (mkctx Out n Scanning) -> cli c (m σ) = Ret tt s' ->
      step σ (moved σ c s' (mkctx Out n NoScan))
  (* the handler of an interrupt of filealloc returns, its own locks released *)
  | step_return σ c n x s' : ctxs σ !! c = Some (mkctx Out n Handler) -> cpus (m σ) !! c = Some x -> ncli x = 1 ->
      sti c (m σ) = Ret tt s' -> step σ (moved σ c s' (mkctx Out n Scanning))
  (* sched restores intena *)
  | step_intena σ c n f x b : ctxs σ !! c = Some (mkctx Out n f) -> cpus (m σ) !! c = Some x -> 0 < ncli x ->
      step σ (moved σ c (mkmach (<[c := mkcpu (ncli x) b (intr x)]> (cpus (m σ))) (locks (m σ))) (mkctx Out n f)).

(** The CPUs start with interrupts off and all locks free. *)
Definition initial (ncpu nlock : nat) : sys :=
  mksys (mkmach (replicate ncpu (mkcpu 0 false false)) (replicate nlock (mkspin false None))) (replicate ncpu (mkctx Out 0 NoScan)).
Definition reachable (ncpu nlock : nat) (σ : sys) : Prop := rtc step (initial ncpu nlock) σ.

(** ** The invariant *)

Definition holds (s : mach) (c l : nat) : Prop := locks s !! l = Some (mkspin true (Some c)).
Definition held (s : mach) (c : nat) : nat := length (base.filter (fun k => lkcpu k = Some c) (locks s)).

(** The CPU has taken the lock and not recorded it, or is about to give it back. *)
Definition between (t : ctx) (l : nat) : Prop := at_pos t = Taken l \/ at_pos t = Cleared l.

(** The CPU that owns a lock, from the exchange to the store that opens it. *)
Definition owns (σ : sys) (c l : nat) : Prop :=
  holds (m σ) c l \/ exists t, ctxs σ !! c = Some t /\ between t l.

(** The [pushcli] of an [acquire] or [release] that is running, where the lock is not yet or
    no longer recorded. *)
Definition weight (p : pos) : nat := match p with Out | Checked _ => 0 | _ => 1 end.

Definition lock_ok (n : nat) (ts : list ctx) (l : nat) (k : spinlock) : Prop :=
  match lkcpu k with
  | Some c => locked k = true /\ (c < n)%nat /\ forall c' t, ts !! c' = Some t -> ~ between t l
  | None =>
      if locked k
      then exists c t, ts !! c = Some t /\ between t l /\ forall c' t', ts !! c' = Some t' -> between t' l -> c' = c
      else forall c' t, ts !! c' = Some t -> ~ between t l
  end.

Record cpu_ok (s : mach) (c : nat) (x : cpu) (t : ctx) : Prop := {
  co_ncli : ncli x = Z.of_nat (held s c) + Z.of_nat (weight (at_pos t)) + Z.of_nat (pushes t);
  co_intr : intr x = true -> at_pos t = Out /\ (ncli x = 0 \/ in_scan t = Scanning);
  co_check : forall l, at_pos t = Checked l -> holds s c l /\ (l = FTABLE -> in_scan t = NoScan);
  co_ftable : in_scan t <> NoScan -> holds s c FTABLE;
  co_scan : in_scan t = Scanning -> at_pos t = Out /\ ncli x = 1
}.

Record inv (σ : sys) : Prop := {
  in_length : length (ctxs σ) = length (cpus (m σ));
  in_locks : forall l k, locks (m σ) !! l = Some k -> lock_ok (length (cpus (m σ))) (ctxs σ) l k;
  in_cpus : forall c x t, cpus (m σ) !! c = Some x -> ctxs σ !! c = Some t -> cpu_ok (m σ) c x t
}.

Definition with_cpu (s : mach) (c : nat) (x : cpu) : mach := mkmach (<[c := x]> (cpus s)) (locks s).
Definition pushed (x : cpu) : cpu := mkcpu (ncli x + 1) (if ncli x =? 0 then intr x else intena x) false.
Definition popped (x : cpu) : cpu := mkcpu (ncli x - 1) (intena x) ((ncli x - 1 =? 0) && intena x).

(** ** What the operations do *)

Lemma arr_get_ret {S A} (l : list A) i (s s' : S) x : arr_get l i s = Ret x s' -> l !! i = Some x /\ s' = s.
Proof. unfold arr_get. destruct (l !! i); [|done]. by intros [= -> ->]. Qed.

Section Ops.
Context (s : mach) (c : nat).
Local Ltac run := cbv [mbind K_bind mret K_ret cpu_at lock_at set_cpu set_lock modify arr_get mycpu panic cli sti with_cpu]; cbn [cpus locks ncli intena intr locked lkcpu negb andb].

Lemma pushcli_run x : cpus s !! c = Some x -> pushcli c s = Ret tt (with_cpu s c (pushed x)).
Proof.
  intros Hx. pose proof (lookup_lt_Some _ _ _ Hx) as Hlt. unfold pushcli. run. rewrite Hx. run. rewrite Hx. run.
  rewrite list_lookup_insert_eq by done. run. by rewrite list_insert_insert_eq.
Qed.

Lemma popcli_run x : cpus s !! c = Some x -> intr x = false -> 0 < ncli x -> popcli c s = Ret tt (with_cpu s c (popped x)).
Proof.
  intros Hx Hi Hn. pose proof (lookup_lt_Some _ _ _ Hx) as Hlt. unfold popcli, popped. run. rewrite Hx. run. rewrite Hi. run. rewrite Hx. run. rewrite Hi. run.
  rewrite list_lookup_insert_eq by done. run. rewrite Hi. run. rewrite (proj2 (Z.ltb_ge _ _)) by lia.
  destruct ((ncli x - 1 =? 0) && intena x)%bool; [|by rewrite ?Hi].
  run. rewrite list_lookup_insert_eq by done. run. by rewrite list_insert_insert_eq.
Qed.

Lemma pushcli_ret s' : pushcli c s = Ret tt s' -> exists x, cpus s !! c = Some x /\ s' = with_cpu s c (pushed x).
Proof.
  destruct (cpus s !! c) as [x|] eqn:Hx.
  - rewrite (pushcli_run x Hx). intros [= <-]. by exists x.
  - unfold pushcli. run. by rewrite Hx.
Qed.

Lemma popcli_ret s' : popcli c s = Ret tt s' ->
  exists x, cpus s !! c = Some x /\ intr x = false /\ 0 < ncli x /\ s' = with_cpu s c (popped x).
Proof.
  destruct (cpus s !! c) as [x|] eqn:Hx; [|unfold popcli; run; by rewrite Hx].
  pose proof (lookup_lt_Some _ _ _ Hx) as Hlt. destruct (intr x) eqn:Hi; [unfold popcli; run; rewrite Hx; run; by rewrite Hi|].
  destruct (Z.ltb_spec 0 (ncli x)) as [Hn|Hn]; [rewrite (popcli_run x) by done; intros [= <-]; by exists x|].
  unfold popcli. run. rewrite Hx. run. rewrite Hi. run. rewrite Hx. run. rewrite Hi. run.
  rewrite list_lookup_insert_eq by done. run. rewrite Hi. run. by rewrite (proj2 (Z.ltb_lt _ _)) by lia.
Qed.

Lemma holding_run l x k : cpus s !! c = Some x -> intr x = false -> locks s !! l = Some k ->
  holding c l s = Ret (locked k && bool_decide (lkcpu k = Some c))%bool s.
Proof. intros Hx Hi Hk. unfold holding. run. rewrite Hk. run. destruct (locked k); [|done]. run. rewrite Hx. run. by rewrite Hi. Qed.

Lemma acquire_enter_run l x k : cpus s !! c = Some x -> locks s !! l = Some k ->
  acquire_enter c l s =
    if (locked k && bool_decide (lkcpu k = Some c))%bool then Panic "acquire" (with_cpu s c (pushed x)) else Ret tt (with_cpu s c (pushed x)).
Proof.
  intros Hx Hk. pose proof (lookup_lt_Some _ _ _ Hx) as Hlt. unfold acquire_enter. unfold mbind at 1, K_bind at 1. rewrite (pushcli_run x Hx).
  unfold holding. run. rewrite Hk. run. destruct (locked k); run; [|done]. rewrite list_lookup_insert_eq by done. run.
  change (intr (pushed x)) with false. run. by case_bool_decide.
Qed.

Lemma xchg_run l k : locks s !! l = Some k -> xchg l s = Ret (locked k) (mkmach (cpus s) (<[l := mkspin true (lkcpu k)]> (locks s))).
Proof. intros Hk. unfold xchg. run. by rewrite Hk. Qed.

(** A lock that is taken stays as it is. *)
Lemma xchg_taken l k : locks s !! l = Some k -> locked k = true -> xchg l s = Ret true s.
Proof. intros Hk Ht. rewrite (xchg_run l k Hk), Ht. rewrite list_insert_id; [by destruct s|]. rewrite Hk. destruct k. cbn in *. by subst. Qed.

Lemma acquire_own_run l x k : cpus s !! c = Some x -> intr x = false -> locks s !! l = Some k ->
  acquire_own c l s = Ret tt (mkmach (cpus s) (<[l := mkspin (locked k) (Some c)]> (locks s))).
Proof. intros Hx Hi Hk. unfold acquire_own. run. rewrite Hx. run. rewrite Hi. run. by rewrite Hk. Qed.
End Ops.

(** [acquire] of a lock, by what the lock is. *)
Lemma acquire_run s c l x k : cpus s !! c = Some x -> locks s !! l = Some k ->
  acquire c l s =
    if locked k then
      if bool_decide (lkcpu k = Some c) then Panic "acquire" (with_cpu s c (pushed x)) else Sleep (ChSpin l) (with_cpu s c (pushed x))
    else Ret tt (mkmach (<[c := pushed x]> (cpus s)) (<[l := mkspin true (Some c)]> (locks s))).
Proof.
  intros Hx Hk. pose proof (lookup_lt_Some _ _ _ Hx) as Hlt. pose proof (lookup_lt_Some _ _ _ Hk) as Hlk.
  unfold acquire, mbind, K_bind. rewrite (acquire_enter_run s c l x k Hx Hk). destruct (locked k) eqn:E; cbn [andb].
  - case_bool_decide; [done|]. by rewrite (xchg_taken _ l k).
  - rewrite (xchg_run _ l k) by done. rewrite E. rewrite (acquire_own_run _ c l (pushed x) (mkspin true (lkcpu k))).
    + cbn [locked locks cpus with_cpu]. by rewrite list_insert_insert_eq.
    + by apply list_lookup_insert_eq.
    + done.
    + by apply list_lookup_insert_eq.
Qed.

Lemma acquire_enter_ret s c l s' : acquire_enter c l s = Ret tt s' -> exists x k, cpus s !! c = Some x /\ locks s !! l = Some k /\
  ~ holds s c l /\ s' = with_cpu s c (pushed x).
Proof.
  intros H. destruct (cpus s !! c) as [x|] eqn:Hx.
  2: { unfold acquire_enter, mbind, K_bind in H. destruct (pushcli c s) as [[] s1| | |] eqn:Hp; [|done..].
       apply pushcli_ret in Hp as (x & Hx' & _). congruence. }
  destruct (locks s !! l) as [k|] eqn:Hk.
  - rewrite (acquire_enter_run s c l x k Hx Hk) in H. destruct (_ && _)%bool eqn:E; [done|]. injection H as <-. exists x, k.
    split_and!; [done..| |done]. intros Hh. unfold holds in Hh. rewrite Hk in Hh. injection Hh as ->. cbn in E. by rewrite bool_decide_eq_true_2 in E.
  - unfold acquire_enter, mbind, K_bind in H. rewrite (pushcli_run s c x Hx) in H. unfold holding, lock_at, arr_get, mbind, K_bind in H.
    cbn in H. by rewrite Hk in H.
Qed.

Lemma xchg_ret s l b s' : xchg l s = Ret b s' -> exists k, locks s !! l = Some k /\ b = locked k /\
  (b = true -> s' = s) /\ (b = false -> s' = mkmach (cpus s) (<[l := mkspin true (lkcpu k)]> (locks s))).
Proof.
  intros H. destruct (locks s !! l) as [k|] eqn:Hk.
  - exists k. split; [done|]. destruct (locked k) eqn:E.
    + rewrite (xchg_taken s l k Hk E) in H. by injection H as <- <-.
    + rewrite (xchg_run s l k Hk), E in H. by injection H as <- <-.
  - unfold xchg, lock_at, arr_get, mbind, K_bind in H. by rewrite Hk in H.
Qed.

Lemma acquire_own_ret s c l s' : acquire_own c l s = Ret tt s' -> exists k, locks s !! l = Some k /\
  s' = mkmach (cpus s) (<[l := mkspin (locked k) (Some c)]> (locks s)).
Proof.
  unfold acquire_own, mycpu, cpu_at, lock_at, arr_get, mbind, K_bind. destruct (cpus s !! c) as [x|]; [|done]. cbn. destruct (intr x); [done|].
  cbn. unfold arr_get. destruct (locks s !! l) as [k|]; [|done]. intros [= <-]. by exists k.
Qed.

Lemma release_enter_ret s c l s' : release_enter c l s = Ret tt s' -> s' = s /\ holds s c l.
Proof.
  unfold release_enter, mbind, K_bind. destruct (holding c l s) as [h s1| | |] eqn:Hh; [|done..].
  assert (s1 = s /\ (h = true -> holds s c l)) as [-> Hhold].
  { unfold holding, lock_at, arr_get, mycpu, cpu_at, mbind, K_bind in Hh. destruct (locks s !! l) as [[lk lc]|] eqn:Hk; [|done]. cbn in Hh.
    destruct lk; [|by injection Hh as <- <-]. cbn in Hh. unfold arr_get in Hh. destruct (cpus s !! c) as [x|]; [|done]. cbn in Hh.
    destruct (intr x); [done|]. injection Hh as <- <-. split; [done|]. intros ->%bool_decide_eq_true_1. done. }
  destruct h; [|done]. intros [= <-]. auto.
Qed.

Lemma release_clear_ret s l s' : release_clear l s = Ret tt s' -> exists k, locks s !! l = Some k /\
  s' = mkmach (cpus s) (<[l := mkspin (locked k) None]> (locks s)).
Proof.
  unfold release_clear, lock_at, arr_get, mbind, K_bind. destruct (locks s !! l) as [k|]; [|done]. intros [= <-]. by exists k.
Qed.
Lemma release_open_ret s l s' : release_open l s = Ret tt s' -> exists k, locks s !! l = Some k /\
  s' = mkmach (cpus s) (<[l := mkspin false (lkcpu k)]> (locks s)).
Proof.
  unfold release_open, lock_at, arr_get, mbind, K_bind. destruct (locks s !! l) as [k|]; [|done]. intros [= <-]. by exists k.
Qed.

Lemma sti_ret s c s' : sti c s = Ret tt s' -> exists x, cpus s !! c = Some x /\ s' = with_cpu s c (mkcpu (ncli x) (intena x) true).
Proof. unfold sti, cpu_at, arr_get, mbind, K_bind. destruct (cpus s !! c) as [x|]; [|done]. intros [= <-]. by exists x. Qed.
Lemma cli_ret s c s' : cli c s = Ret tt s' -> exists x, cpus s !! c = Some x /\ s' = with_cpu s c (mkcpu (ncli x) (intena x) false).
Proof. unfold cli, cpu_at, arr_get, mbind, K_bind. destruct (cpus s !! c) as [x|]; [|done]. intros [= <-]. by exists x. Qed.

(** ** The invariant is kept *)

Definition counts (c : nat) (k : spinlock) : nat := if decide (lkcpu k = Some c) then 1 else 0.

Lemma held_insert s cs c l k k' : locks s !! l = Some k ->
  (held (mkmach cs (<[l := k']> (locks s))) c + counts c k = held s c + counts c k')%nat.
Proof.
  unfold held, counts. cbn [locks]. generalize (locks s). intros ls. revert l. induction ls as [|y ls IH]; intros [|l] Hl; [done..| |].
  - cbn in Hl. injection Hl as ->. change (<[0%nat := k']> (k :: ls)) with (k' :: ls).
    rewrite !filter_cons. repeat case_decide; cbn [length]; lia.
  - cbn in Hl. specialize (IH l Hl). change (<[S l := k']> (y :: ls)) with (y :: <[l := k']> ls).
    rewrite !filter_cons. repeat case_decide; cbn [length] in *; lia.
Qed.

Lemma counts_other c k : lkcpu k <> Some c -> counts c k = 0%nat.
Proof. intros H. unfold counts. by rewrite decide_False. Qed.
Lemma counts_own c k : lkcpu k = Some c -> counts c k = 1%nat.
Proof. intros H. unfold counts. by rewrite decide_True. Qed.

(** Who is between the exchange and the record of a lock, after CPU [c] has moved. *)
Lemma between_moved (ts : list ctx) c t t' l : ts !! c = Some t -> (between t' l <-> between t l) ->
  forall c' u, <[c := t']> ts !! c' = Some u -> exists u', ts !! c' = Some u' /\ (between u l <-> between u' l).
Proof.
  intros Ht Hb c' u Hu. apply list_lookup_insert_Some in Hu as [(<- & <- & _)|[Hne Hu]]; [by exists t|by exists u].
Qed.

Lemma lock_ok_moved n (ts : list ctx) c t t' l k : ts !! c = Some t -> (between t' l <-> between t l) -> lock_ok n ts l k -> lock_ok n (<[c := t']> ts) l k.
Proof.
  intros Ht Hb. pose proof (lookup_lt_Some _ _ _ Ht) as Hlt. pose proof (between_moved ts c t t' l Ht Hb) as Hm. unfold lock_ok.
  assert ((forall c' u, ts !! c' = Some u -> ~ between u l) -> forall c' u, <[c := t']> ts !! c' = Some u -> ~ between u l) as Hnone.
  { intros H c' u Hu. destruct (Hm c' u Hu) as (u' & Hu' & ->). by eapply H. }
  destruct (lkcpu k); [intros (H1 & H2 & H3); split; [done|]; split; [done|by apply Hnone]|]. destruct (locked k); [|by auto].
  intros (c0 & t0 & Ht0 & Hb0 & Hu0). exists c0. destruct (decide (c0 = c)) as [->|Hne].
  - exists t'. rewrite list_lookup_insert_eq by done. split; [done|]. rewrite Ht in Ht0. injection Ht0 as <-. split; [by apply Hb|].
    intros c' u Hu Hbu. destruct (Hm c' u Hu) as (u' & Hu' & Hiff). apply (Hu0 c' u' Hu'). by apply Hiff.
  - exists t0. rewrite list_lookup_insert_ne by done. split; [done|]. split; [done|].
    intros c' u Hu Hbu. destruct (Hm c' u Hu) as (u' & Hu' & Hiff). apply (Hu0 c' u' Hu'). by apply Hiff.
Qed.

(** A step of CPU [c] that leaves the locks alone. *)
Lemma inv_cpu σ c x' t t' :
  inv σ -> ctxs σ !! c = Some t -> (forall l, between t' l <-> between t l) -> cpu_ok (m σ) c x' t' ->
  inv (moved σ c (with_cpu (m σ) c x') t').
Proof.
  intros [Hlen Hlk Hcpu] Ht Hb Hok. split; cbn [moved with_cpu m ctxs cpus locks].
  - by rewrite !length_insert.
  - intros l k Hk. rewrite length_insert. eapply lock_ok_moved; [exact Ht|apply Hb|by apply Hlk].
  - intros c' y u Hy Hu. assert (forall s, locks s = locks (m σ) -> forall c x t, cpu_ok (m σ) c x t -> cpu_ok s c x t) as Hext.
    { intros s Hs c0 x0 t0 []. split; unfold holds, held in *; by rewrite ?Hs. }
    apply Hext; [done|]. apply list_lookup_insert_Some in Hy as [(<- & <- & _)|[Hne Hy]].
    + apply list_lookup_insert_Some in Hu as [(_ & <- & _)|[? _]]; done.
    + rewrite list_lookup_insert_ne in Hu by done. by apply Hcpu.
Qed.

(** A step of CPU [c] that changes a lock that no other CPU holds. *)
Lemma inv_lock σ c x t t' l k k' :
  inv σ -> cpus (m σ) !! c = Some x -> ctxs σ !! c = Some t -> locks (m σ) !! l = Some k ->
  (forall c', c' <> c -> lkcpu k <> Some c' /\ lkcpu k' <> Some c') -> (forall l', l' <> l -> between t' l' <-> between t l') ->
  lock_ok (length (cpus (m σ))) (<[c := t']> (ctxs σ)) l k' ->
  cpu_ok (mkmach (cpus (m σ)) (<[l := k']> (locks (m σ)))) c x t' ->
  inv (moved σ c (mkmach (cpus (m σ)) (<[l := k']> (locks (m σ)))) t').
Proof.
  intros [Hlen Hlk Hcpu] Hx Ht Hk Hoth Hb Hl Hok. split; cbn [moved m ctxs cpus locks].
  - by rewrite length_insert.
  - intros l' y Hy. apply list_lookup_insert_Some in Hy as [(<- & <- & _)|[Hne Hy]]; [done|].
    eapply lock_ok_moved; [exact Ht|by apply Hb|by apply Hlk].
  - intros c' y u Hy Hu. apply list_lookup_insert_Some in Hu as [(<- & <- & _)|[Hne Hu]]; [rewrite Hx in Hy; by injection Hy as <-|].
    destruct (Hoth c' ltac:(congruence)) as [Ho Ho']. destruct (Hcpu c' y u Hy Hu) as [Hn Hi Hch Hf Hs].
    assert (forall l', holds (m σ) c' l' -> holds (mkmach (cpus (m σ)) (<[l := k']> (locks (m σ)))) c' l') as Hh.
    { intros l' Hl'. unfold holds in *. cbn. rewrite list_lookup_insert_ne; [done|]. intros ->. rewrite Hk in Hl'. injection Hl' as ->. done. }
    split; [|done| | |done].
    + pose proof (held_insert (m σ) (cpus (m σ)) c' l k k' Hk) as Hc. rewrite !counts_other in Hc by done. lia.
    + intros l' Hl'. destruct (Hch l' Hl') as [? ?]. auto.
    + auto.
Qed.

(** What [held] becomes for the CPU that changes the lock. *)
Lemma held_after s cs c l k k' : locks s !! l = Some k ->
  Z.of_nat (held (mkmach cs (<[l := k']> (locks s))) c) = Z.of_nat (held s c) + Z.of_nat (counts c k') - Z.of_nat (counts c k).
Proof. intros Hk. pose proof (held_insert s cs c l k k' Hk). lia. Qed.

Lemma held_pos s c l : holds s c l -> (0 < held s c)%nat.
Proof.
  intros Hh. pose proof (held_insert s [] c l _ (mkspin false None) Hh) as H. rewrite (counts_other c (mkspin false None)), counts_own in H by done. lia.
Qed.

Lemma ctx_cpu σ c t : inv σ -> ctxs σ !! c = Some t -> exists x, cpus (m σ) !! c = Some x /\ cpu_ok (m σ) c x t.
Proof.
  intros Hinv Ht. destruct (lookup_lt_is_Some_2 (cpus (m σ)) c) as [x Hx]; [rewrite <- (in_length _ Hinv); by eapply lookup_lt_Some|].
  exists x. split; [done|]. by apply (in_cpus _ Hinv).
Qed.

(** The steps that change a lock. *)
Section LockSteps.
Context (σ : sys) (Hinv : inv σ) (c l n : nat) (f : scan).

(** A lock other than [ftable.lock], or one that its holder may change. *)
Lemma keeps_ftable p x k k' : cpu_ok (m σ) c x (mkctx p n f) -> locks (m σ) !! l = Some k -> (l = FTABLE -> f <> NoScan -> k' = k) ->
  f <> NoScan -> holds (mkmach (cpus (m σ)) (<[l := k']> (locks (m σ)))) c FTABLE.
Proof.
  intros Hok Hk Hl Hf. pose proof (co_ftable _ _ _ _ Hok Hf) as Hh. unfold holds in *. cbn. destruct (decide (l = FTABLE)) as [->|Hne].
  - rewrite (Hl eq_refl Hf), list_lookup_insert_eq by (by eapply lookup_lt_Some). by rewrite <- Hk, Hh.
  - by rewrite list_lookup_insert_ne.
Qed.

Lemma inv_xchg k : ctxs σ !! c = Some (mkctx (Spinning l) n f) -> locks (m σ) !! l = Some k -> locked k = false ->
  inv (moved σ c (mkmach (cpus (m σ)) (<[l := mkspin true (lkcpu k)]> (locks (m σ)))) (mkctx (Taken l) n f)).
Proof.
  intros Ht Hk Hf. destruct (ctx_cpu _ _ _ Hinv Ht) as (x & Hx & Hok). pose proof (in_locks _ Hinv l k Hk) as Hlk. unfold lock_ok in Hlk.
  destruct (lkcpu k) as [c0|] eqn:Hc; [destruct Hlk; congruence|]. rewrite Hf in Hlk.
  eapply inv_lock; [exact Hinv|exact Hx|exact Ht|exact Hk|by rewrite Hc| | |].
  - intros l' Hne. unfold between. cbn. split; intros [?|?]; congruence.
  - unfold lock_ok. cbn [lkcpu locked]. exists c, (mkctx (Taken l) n f). rewrite list_lookup_insert_eq by (by eapply lookup_lt_Some).
    split; [done|]. split; [by left|]. intros c' u Hu Hb. apply list_lookup_insert_Some in Hu as [(<- & _)|[_ Hu]]; [done|]. by destruct (Hlk c' u Hu).
  - destruct Hok as [Hn Hi Hch Hft Hs] eqn:E. split; cbn [at_pos pushes in_scan weight] in *; try done.
    + rewrite (held_after _ _ _ _ k), !counts_other by (done || by rewrite Hc). lia.
    + intros H. by destruct (Hi H).
    + apply (keeps_ftable (Spinning l) x k); [exact Hok|exact Hk|]. intros -> Hf'. pose proof (Hft Hf') as Hh. unfold holds in Hh.
      rewrite Hk in Hh. injection Hh as ->. done.
    + intros H. by destruct (Hs H).
Qed.

Lemma inv_own k : ctxs σ !! c = Some (mkctx (Taken l) n f) -> locks (m σ) !! l = Some k ->
  inv (moved σ c (mkmach (cpus (m σ)) (<[l := mkspin (locked k) (Some c)]> (locks (m σ)))) (mkctx Out n f)).
Proof.
  intros Ht Hk. destruct (ctx_cpu _ _ _ Hinv Ht) as (x & Hx & Hok). pose proof (in_locks _ Hinv l k Hk) as Hlk. unfold lock_ok in Hlk.
  assert (between (mkctx (Taken l) n f) l) as Hbt by by left.
  destruct (lkcpu k) as [c0|] eqn:Hc; [destruct Hlk as (_ & _ & H); by destruct (H c _ Ht)|].
  destruct (locked k) eqn:Hlo; [|by destruct (Hlk c _ Ht)]. destruct Hlk as (c0 & t0 & _ & _ & Huni).
  eapply inv_lock; [exact Hinv|exact Hx|exact Ht|exact Hk| | | |].
  - intros c' Hne. rewrite Hc. cbn. split; congruence.
  - intros l' Hne. unfold between. cbn. split; intros [?|?]; congruence.
  - unfold lock_ok. cbn [lkcpu locked]. split; [done|]. split; [by eapply lookup_lt_Some|]. intros c' u Hu Hb.
    apply list_lookup_insert_Some in Hu as [(_ & <- & _)|[Hne Hu]]; [by destruct Hb|].
    apply Hne. by rewrite (Huni c' u Hu Hb), (Huni c _ Ht Hbt).
  - destruct Hok as [Hn Hi Hch Hft Hs] eqn:E. split; cbn [at_pos pushes in_scan weight] in *; try done.
    + rewrite (held_after _ _ _ _ k), counts_own, counts_other by (done || by rewrite Hc). lia.
    + intros H. by destruct (Hi H).
    + apply (keeps_ftable (Taken l) x k); [exact Hok|exact Hk|]. intros -> Hf'. pose proof (Hft Hf') as Hh. unfold holds in Hh.
      rewrite Hk in Hh. injection Hh as ->. done.
    + intros H. by destruct (Hs H).
Qed.

Lemma inv_clear k : ctxs σ !! c = Some (mkctx (Checked l) n f) -> locks (m σ) !! l = Some k ->
  inv (moved σ c (mkmach (cpus (m σ)) (<[l := mkspin (locked k) None]> (locks (m σ)))) (mkctx (Cleared l) n f)).
Proof.
  intros Ht Hk. destruct (ctx_cpu _ _ _ Hinv Ht) as (x & Hx & Hok). pose proof (in_locks _ Hinv l k Hk) as Hlk.
  destruct (co_check _ _ _ _ Hok l eq_refl) as [Hh Hno]. unfold holds in Hh. rewrite Hk in Hh. injection Hh as ->.
  destruct Hlk as (_ & _ & Hlk). eapply inv_lock; [exact Hinv|exact Hx|exact Ht|exact Hk| | | |].
  - intros c' Hne. cbn. split; congruence.
  - intros l' Hne. unfold between. cbn. split; intros [?|?]; congruence.
  - unfold lock_ok. cbn [lkcpu locked]. exists c, (mkctx (Cleared l) n f). rewrite list_lookup_insert_eq by (by eapply lookup_lt_Some).
    split; [done|]. split; [by right|]. intros c' u Hu Hb. apply list_lookup_insert_Some in Hu as [(<- & _)|[_ Hu]]; [done|]. by destruct (Hlk c' u Hu).
  - destruct Hok as [Hn Hi Hch Hft Hs] eqn:E. split; cbn [at_pos pushes in_scan weight] in *; try done.
    + rewrite (held_after _ _ _ _ _ _ Hk), (counts_own c (mkspin true (Some c))), (counts_other c (mkspin _ None)) by done. lia.
    + intros H. by destruct (Hi H).
    + apply (keeps_ftable (Checked l) x _ _ Hok Hk). intros Hl Hf'. by rewrite Hno in Hf'.
    + intros H. by destruct (Hs H).
Qed.

Lemma inv_open k : ctxs σ !! c = Some (mkctx (Cleared l) n f) -> locks (m σ) !! l = Some k ->
  inv (moved σ c (mkmach (cpus (m σ)) (<[l := mkspin false (lkcpu k)]> (locks (m σ)))) (mkctx Opened n f)).
Proof.
  intros Ht Hk. destruct (ctx_cpu _ _ _ Hinv Ht) as (x & Hx & Hok). pose proof (in_locks _ Hinv l k Hk) as Hlk. unfold lock_ok in Hlk.
  assert (between (mkctx (Cleared l) n f) l) as Hbt by by right.
  destruct (lkcpu k) as [c0|] eqn:Hc; [destruct Hlk as (_ & _ & H); by destruct (H c _ Ht)|].
  destruct (locked k) eqn:Hlo; [|by destruct (Hlk c _ Ht)]. destruct Hlk as (c0 & t0 & _ & _ & Huni).
  eapply inv_lock; [exact Hinv|exact Hx|exact Ht|exact Hk| | | |].
  - intros c' Hne. rewrite Hc. cbn. split; congruence.
  - intros l' Hne. unfold between. cbn. split; intros [?|?]; congruence.
  - unfold lock_ok. cbn [lkcpu locked]. intros c' u Hu Hb.
    apply list_lookup_insert_Some in Hu as [(_ & <- & _)|[Hne Hu]]; [by destruct Hb|].
    apply Hne. by rewrite (Huni c' u Hu Hb), (Huni c _ Ht Hbt).
  - destruct Hok as [Hn Hi Hch Hft Hs] eqn:E. split; cbn [at_pos pushes in_scan weight] in *; try done.
    + rewrite (held_after _ _ _ _ k), !counts_other by (done || by rewrite Hc). lia.
    + intros H. by destruct (Hi H).
    + apply (keeps_ftable (Cleared l) x k); [exact Hok|exact Hk|]. intros -> Hf'. pose proof (Hft Hf') as Hh. unfold holds in Hh.
      rewrite Hk in Hh. injection Hh as ->. done.
    + intros H. by destruct (Hs H).
Qed.
End LockSteps.

(** A CPU that is not in [acquire] or [release] is between nothing. *)
Lemma not_between p n f l : match p with Taken _ | Cleared _ => False | _ => True end -> between (mkctx p n f) l <-> False.
Proof. unfold between. cbn. destruct p; intros ?; split; try done; intros [?|?]; done. Qed.

Local Ltac cpu_step Hinv Ht :=
  eapply inv_cpu; [exact Hinv|exact Ht|intros l'; by rewrite !not_between|];
  split; cbn [at_pos pushes in_scan weight ncli intena intr pushed popped] in *; try done.

Lemma locks_step_inv σ σ' : inv σ -> step σ σ' -> inv σ'.
Proof.
  intros Hinv Hs. destruct Hs as
    [σ c l n f s' Ht Hf H|σ c l n f b s' Ht H|σ c l n f s' Ht H|σ c l n f s' Ht Hf Hl H|σ c l n f s' Ht H|σ c l n f s' Ht H|σ c n f s' Ht H
    |σ c n f s' Ht Hf H|σ c n f s' Ht Hf H|σ c n f x s' Ht Hx Hz H|σ c n f s' Ht H|σ c n x s' Ht Hx Hz Hh H|σ c n s' Ht H|σ c n x s' Ht Hx Hz H
    |σ c n f x b Ht Hx Hz].
  all: destruct (ctx_cpu _ _ _ Hinv Ht) as (y & Hy & [Hn Hi Hch Hft Hsc]).
  - apply acquire_enter_ret in H as (x & k & Hx & _ & _ & ->). simplify_eq. cpu_step Hinv Ht. lia.
  - apply xchg_ret in H as (k & Hk & -> & H1 & H2). destruct (locked k) eqn:E.
    + rewrite (H1 eq_refl). unfold moved. rewrite list_insert_id by done. by destruct σ.
    + rewrite (H2 eq_refl). by apply inv_xchg.
  - apply acquire_own_ret in H as (k & Hk & ->). by apply inv_own.
  - apply release_enter_ret in H as (-> & Hh). assert (m σ = with_cpu (m σ) c y) as E.
    { unfold with_cpu. rewrite list_insert_id by done. by destruct (m σ). }
    rewrite E. cpu_step Hinv Ht.
    + intros H. destruct (Hi H) as [_ [H0|H0]]; [|done]. pose proof (held_pos _ _ _ Hh). lia.
    + intros l' [= <-]. done.
  - apply release_clear_ret in H as (k & Hk & ->). by apply inv_clear.
  - apply release_open_ret in H as (k & Hk & ->). by apply (inv_open σ Hinv c l).
  - apply popcli_ret in H as (x & Hx & Hio & Hpos & ->). simplify_eq. cpu_step Hinv Ht; [lia| |].
    + intros H. bool_hyps. split; [done|]. by left.
    + intros H. by destruct (Hsc H).
  - apply pushcli_ret in H as (x & Hx & ->). simplify_eq. cpu_step Hinv Ht. lia.
  - apply popcli_ret in H as (x & Hx & Hio & Hpos & ->). simplify_eq. cpu_step Hinv Ht; [lia|].
    intros H. bool_hyps. split; [done|]. by left.
  - apply sti_ret in H as (x' & Hx' & ->). simplify_eq. cpu_step Hinv Ht. intros _. split; [done|]. by left.
  - apply cli_ret in H as (x & Hx & ->). simplify_eq. destruct f; cpu_step Hinv Ht.
    intros _. by apply Hft.
  - apply sti_ret in H as (x' & Hx' & ->). simplify_eq. cpu_step Hinv Ht. intros _. split; [done|by right].
  - apply cli_ret in H as (x & Hx & ->). simplify_eq. cpu_step Hinv Ht.
  - apply sti_ret in H as (x' & Hx' & ->). simplify_eq. cpu_step Hinv Ht; [|by auto]. intros _. split; [done|by right].
  - simplify_eq. change (mkmach (<[c := mkcpu (ncli x) b (intr x)]> (cpus (m σ))) (locks (m σ))) with (with_cpu (m σ) c (mkcpu (ncli x) b (intr x))).
    cpu_step Hinv Ht.
Qed.

Lemma locks_initial_inv ncpu nlock : inv (initial ncpu nlock).
Proof.
  split; cbn.
  - by rewrite !length_replicate.
  - intros l k Hk. apply lookup_replicate_1 in Hk as [-> _]. cbn. intros c t Ht. apply lookup_replicate_1 in Ht as [-> _]. by intros [?|?].
  - intros c x t Hx Ht. apply lookup_replicate_1 in Hx as [-> Hc]. apply lookup_replicate_1 in Ht as [-> _]. split; cbn; try done.
    assert (forall n, base.filter (fun k => lkcpu k = Some c) (replicate n (mkspin false None)) = []) as Hf.
    { intros n. induction n as [|n IH]; [done|]. cbn [replicate]. rewrite filter_cons, decide_False by done. exact IH. }
    unfold held. cbn. by rewrite Hf.
Qed.

Lemma locks_reachable_inv ncpu nlock σ : reachable ncpu nlock σ -> inv σ.
Proof. apply (rtc_ind_r inv); [apply locks_initial_inv|]. intros σ1 σ2 _ Hs Hi. by eapply locks_step_inv. Qed.

(** A lock that has an owner is taken, and recorded as no other CPU's. *)
Lemma owned_lock σ c l k : inv σ -> owns σ c l -> locks (m σ) !! l = Some k -> locked k = true /\ forall c', owns σ c' l -> c' = c.
Proof.
  intros Hinv Ho Hk. pose proof (in_locks _ Hinv l k Hk) as Hlk. unfold lock_ok in Hlk.
  assert (forall c, holds (m σ) c l -> k = mkspin true (Some c)) as Hh by (intros c0 H; unfold holds in H; congruence).
  destruct (lkcpu k) as [c0|] eqn:E.
  - destruct Hlk as (Hl & _ & Hnb). split; [done|]. assert (forall c, owns σ c l -> c = c0) as Hu; [|intros c' H'; by rewrite (Hu c' H'), (Hu c Ho)].
    intros c1 [H|(t & Ht & Hb)]; [apply Hh in H as ->; by injection E as <-|by destruct (Hnb c1 t Ht)].
  - assert (forall c, owns σ c l -> exists t, ctxs σ !! c = Some t /\ between t l) as Hb by (intros c1 [H|?]; [apply Hh in H as ->; done|done]).
    destruct (Hb c Ho) as (t & Ht & Hbt). destruct (locked k); [|by destruct (Hlk c t Ht)]. destruct Hlk as (c0 & _ & _ & _ & Hu).
    split; [done|]. intros c' (t' & Ht' & Hbt')%Hb. by rewrite (Hu _ _ Ht' Hbt'), (Hu _ _ Ht Hbt).
Qed.

(** C16: Locks exclude each other.  However the instructions of the CPUs on locks and
    interrupts are interleaved, a lock has one owner at most, from the exchange that takes
    it to the store that opens it.  The interrupts of the owner are off, unless the lock is
    that of ftable and it is looking through the table in [filealloc]; [ncli] counts its
    locks, its open calls of [pushcli] and the [acquire] or [release] it is in.  The exchange
    of any CPU finds the lock taken and leaves it as it is, so that every other CPU that
    wants it spins; an attempt of another to release it panics, as does that of a holder to
    take it again. *)
Theorem lock_discipline ncpu nlock σ c l k :
  reachable ncpu nlock σ -> locks (m σ) !! l = Some k -> owns σ c l ->
  (forall c', owns σ c' l -> c' = c) /\
  (exists x t, cpus (m σ) !! c = Some x /\ ctxs σ !! c = Some t /\
     (intr x = false \/ l = FTABLE /\ in_scan t = Scanning) /\
     ncli x = Z.of_nat (held (m σ) c) + Z.of_nat (weight (at_pos t)) + Z.of_nat (pushes t)) /\
  xchg l (m σ) = Ret true (m σ) /\
  (holds (m σ) c l -> exists s', acquire c l (m σ) = Panic "acquire" s') /\
  forall c' y, c' <> c -> cpus (m σ) !! c' = Some y ->
    (exists s', acquire c' l (m σ) = Sleep (ChSpin l) s') /\
    (intr y = false -> release c' l (m σ) = Panic "release" (m σ)).
Proof.
  intros Hr Hk Ho. pose proof (locks_reachable_inv _ _ _ Hr) as Hinv. destruct (owned_lock σ c l k Hinv Ho Hk) as [Hl Hu].
  assert (forall c', lkcpu k = Some c' -> c' = c) as Hc.
  { intros c' Hc'. apply Hu. left. unfold holds. rewrite Hk. destruct k. cbn in *. by subst. }
  assert (c < length (cpus (m σ)))%nat as Hlt.
  { destruct Ho as [H|(t & Ht & _)]; [|rewrite <- (in_length _ Hinv); by eapply lookup_lt_Some]. by destruct (in_locks _ Hinv l _ H) as (_ & H' & _). }
  destruct (lookup_lt_is_Some_2 _ _ Hlt) as [x Hx]. rewrite <- (in_length _ Hinv) in Hlt. destruct (lookup_lt_is_Some_2 _ _ Hlt) as [t Ht].
  destruct (in_cpus _ Hinv c x t Hx Ht) as [Hn Hi _ Hf Hs]. split; [done|]. split; [|split; [by apply (xchg_taken _ l k)|split]].
  - exists x, t. split_and!; [done..| |done]. destruct (intr x) eqn:E; [right|by left]. destruct (Hi eq_refl) as [Hp Hz].
    destruct Ho as [Hh|(t' & Ht' & [Hb|Hb])]; [|congruence..]. pose proof (held_pos _ _ _ Hh).
    destruct Hz as [Hz|Hz]; [lia|]. split; [|done]. destruct (decide (l = FTABLE)) as [|Hne]; [done|]. exfalso.
    destruct (Hs Hz) as [_ H1]. pose proof (Hf ltac:(congruence)) as Hft.
    pose proof (held_insert (m σ) [] c l _ (mkspin false None) Hh) as H2. rewrite counts_own, counts_other in H2 by done.
    assert (0 < held (mkmach [] (<[l := mkspin false None]> (locks (m σ)))) c)%nat by (apply (held_pos _ _ FTABLE); unfold holds; cbn; by rewrite list_lookup_insert_ne).
    lia.
  - intros Hh. rewrite (acquire_run _ c l x _ Hx Hh). cbn [locked lkcpu]. rewrite bool_decide_eq_true_2 by done. by eexists.
  - intros c' y Hne Hy. assert (lkcpu k <> Some c') as Hnc by (intros H; by apply Hne, Hc). split.
    + rewrite (acquire_run _ c' l y k Hy Hk), Hl, bool_decide_eq_false_2 by done. by eexists.
    + intros Hiy. unfold release, release_enter, mbind, K_bind. rewrite (holding_run _ c' l y k Hy Hiy Hk), Hl. cbn [andb].
      by rewrite bool_decide_eq_false_2.
Qed.

(** The first of two CPUs has taken the first of three locks, and not recorded it; the
    second spins. *)
Definition two_cpus : sys :=
  mksys (mkmach [mkcpu 1 false false; mkcpu 1 false false] [mkspin true None; mkspin false None; mkspin false None])
    [mkctx (Taken 0) 0 NoScan; mkctx (Spinning 0) 0 NoScan].

Lemma two_cpus_reachable : reachable 2 3 two_cpus.
Proof.
  eapply rtc_l; [apply (step_enter (initial 2 3) 0 0 0 NoScan); reflexivity || done|].
  eapply rtc_l; [apply (step_enter _ 1 0 0 NoScan); reflexivity || done|].
  eapply rtc_l; [apply (step_xchg _ 0 0 0 NoScan false); reflexivity|]. 
  eapply rtc_l; [apply (step_xchg _ 1 0 0 NoScan true); reflexivity|]. apply rtc_refl.
Qed.

Lemma lock_discipline_witness : (forall c', owns two_cpus c' 0 -> c' = 0%nat) /\ xchg 0 (m two_cpus) = Ret true (m two_cpus).
Proof.
  destruct (lock_discipline 2 3 two_cpus 0 0 (mkspin true None) two_cpus_reachable eq_refl) as (H & _ & Hx & _).
  - right. exists (mkctx (Taken 0) 0 NoScan). split; [reflexivity|by left].
  - split; [exact H|exact Hx].
Defined.

(** The operations on a CPU whose state is known, as rewriting rules. *)
Definition on (cs : list cpu) (c : nat) (x : cpu) (ls : list spinlock) : mach := mkmach (<[c := x]> cs) ls.

Section On.
Context (cs : list cpu) (c : nat) (Hc : (c < length cs)%nat).

Lemma on_acquire x ls l k : ls !! l = Some k -> locked k = false ->
  acquire c l (on cs c x ls) = Ret tt (on cs c (pushed x) (<[l := mkspin true (Some c)]> ls)).
Proof.
  intros Hk Hf. rewrite (acquire_run _ c l x k) by (done || by apply list_lookup_insert_eq). rewrite Hf. unfold on. cbn.
  by rewrite list_insert_insert_eq.
Qed.

Lemma on_release x ls l : ls !! l = Some (mkspin true (Some c)) -> intr x = false -> 0 < ncli x ->
  release c l (on cs c x ls) = Ret tt (on cs c (popped x) (<[l := mkspin false None]> ls)).
Proof.
  intros Hk Hi Hn. assert (cpus (on cs c x ls) !! c = Some x) as Hx by by apply list_lookup_insert_eq.
  unfold release, release_enter, mbind, K_bind. rewrite (holding_run _ c l x _ Hx Hi Hk). cbn [locked lkcpu andb].
  rewrite bool_decide_eq_true_2 by done. cbn [negb]. unfold release_clear, release_open, lock_at, arr_get, set_lock, modify, mbind, K_bind, mret, K_ret.
  cbn [locks on]. rewrite Hk. cbn. unfold arr_get. rewrite list_lookup_insert_eq by (by eapply lookup_lt_Some). cbn.
  rewrite list_insert_insert_eq. rewrite (popcli_run _ c x) by done. unfold with_cpu, on. cbn. by rewrite list_insert_insert_eq.
Qed.

Lemma on_sti x ls : sti c (on cs c x ls) = Ret tt (on cs c (mkcpu (ncli x) (intena x) true) ls).
Proof. unfold sti, set_cpu, modify, cpu_at, arr_get, mbind, K_bind, on. cbn. rewrite list_lookup_insert_eq by done. cbn. by rewrite list_insert_insert_eq. Qed.
Lemma on_cli x ls : cli c (on cs c x ls) = Ret tt (on cs c (mkcpu (ncli x) (intena x) false) ls).
Proof. unfold cli, set_cpu, modify, cpu_at, arr_get, mbind, K_bind, on. cbn. rewrite list_lookup_insert_eq by done. cbn. by rewrite list_insert_insert_eq. Qed.

(** [sched] with another lock held. *)
Lemma on_sched x ls r : ls !! PTABLE = Some (mkspin true (Some c)) -> intr x = false -> ncli x <> 1 ->
  sched_enter c r (on cs c x ls) = Panic "sched locks" (on cs c x ls).
Proof.
  intros Hk Hi Hn. assert (cpus (on cs c x ls) !! c = Some x) as Hx by by apply list_lookup_insert_eq.
  unfold sched_enter, mbind, K_bind. rewrite (holding_run _ c PTABLE x _ Hx Hi Hk). cbn [locked lkcpu andb].
  rewrite bool_decide_eq_true_2 by done. cbn [negb]. unfold mycpu, cpu_at, arr_get, mbind, K_bind. rewrite Hx. cbn. rewrite Hi. cbn.
  by rewrite (proj2 (Z.eqb_neq _ _) Hn).
Qed.
End On.

(** [filealloc] turns interrupts on between [acquire] and [release] of [ftable.lock]:
    from any state in which the CPU holds no lock and the locks are free, a timer
    interrupt during its scan makes [yield] panic. *)
Theorem filealloc_interrupted s c x :
  cpus s !! c = Some x -> ncli x = 0 ->
  locks s = [mkspin false None; mkspin false None; mkspin false None] ->
  exists s', (filealloc_enter c;; timer c) s = Panic "sched locks" s'.
Proof.
  intros Hx Hn Hlk. pose proof (lookup_lt_Some _ _ _ Hx) as Hlt.
  assert (s = on (cpus s) c x [mkspin false None; mkspin false None; mkspin false None]) as ->.
  { destruct s as [cs ls]. cbn in *. unfold on. by rewrite list_insert_id, Hlk. }
  generalize dependent (cpus s). intros cs _ Hlt.
  unfold filealloc_enter, timer, yield_enter, mbind, K_bind. rewrite (on_acquire _ _ Hlt _ _ _ (mkspin false None)) by done.
  rewrite on_sti, on_cli by done. destruct (c =? 0)%nat.
  - rewrite (on_acquire _ _ Hlt _ _ _ (mkspin false None)) by done. rewrite (on_acquire _ _ Hlt _ _ _ (mkspin false None)) by done.
    rewrite (on_release _ _ Hlt) by (done || (cbn; lia)). rewrite (on_release _ _ Hlt) by (done || (cbn; rewrite ?Hn; done)).
    rewrite (on_acquire _ _ Hlt _ _ _ (mkspin false None)) by done. rewrite (on_sched _ _ Hlt) by (done || (cbn; lia)). by eexists.
  - cbn [mret K_ret]. rewrite (on_acquire _ _ Hlt _ _ _ (mkspin false None)) by done.
    rewrite (on_sched _ _ Hlt) by (done || (cbn; lia)). by eexists.
Qed.

Lemma filealloc_interrupted_witness :
  exists s', (filealloc_enter 1;; timer 1) (mkmach [mkcpu 0 false true; mkcpu 0 false true]
    [mkspin false None; mkspin false None; mkspin false None]) = Panic "sched locks" s'.
Proof. apply (filealloc_interrupted _ 1 (mkcpu 0 false true)); reflexivity. Defined.

End Spinlock.
