(* ===== verification/Sleeplock.v ===== *)
(** * Sleep locks

    sleeplock.c, with the processes that use a lock as sequences of accesses to it in any
    interleaving.  The spin lock inside is held by one process at a time; [sleep] gives it up
    and puts the process to sleep in one step, as [ptable.lock] makes it, and the process
    takes it again after [wakeup].  The name of the lock is left out.

    Shown: one process at a time holds the lock and it is the one whose pid the lock has; a
    process sleeps only while another holds the lock, so that no wakeup is lost; and there is
    always a process that can go on. *)

From stdpp Require Import relations.
From S2P Require Export Prelude.
Local Open Scope Z_scope.

Module Sleeplock.

(** Where a process is. *)
Inductive pc : Type :=
  | Idle       (* does not use the lock *)
  | Acquire    (* in [acquiresleep], before [acquire(&lk->lk)] *)
  | Test       (* at [while(lk->locked)], with the spin lock *)
  | Asleep     (* in [sleep(lk, &lk->lk)] *)
  | Woken      (* woken, before [sleep] takes the spin lock again *)
  | Leave      (* after [lk->pid = ...], before [release(&lk->lk)] *)
  | Holds      (* has the sleep lock *)
  | Release    (* in [releasesleep], before [acquire(&lk->lk)] *)
  | Clear      (* before [lk->locked = 0], with the spin lock *)
  | Wake       (* before [wakeup(lk)] *)
  | Done.      (* before [release(&lk->lk)] *)
#[global] Instance pc_eq_dec : EqDecision pc.
Proof. solve_decision. Defined.

Record sleeplock : Type := mklock { locked : bool; spin : option nat; pid : Z }.
Record sys : Type := mksys { lk : sleeplock; procs : list pc }.

(** Process [i] has the pid [i + 1]. *)
Definition pid_of (i : nat) : Z := Z.of_nat i + 1.

Definition initsleeplock : sleeplock := mklock false None 0.
Definition init (n : nat) : sys := mksys initsleeplock (replicate n Idle).

Definition goto (i : nat) (p : pc) (l : sleeplock) (s : sys) : sys := mksys l (<[i := p]> (procs s)).
Definition set_spin (o : option nat) (l : sleeplock) : sleeplock := mklock (locked l) o (pid l).
Definition wakeup (p : pc) : pc := match p with Asleep => Woken | p => p end.

(** [acquire(&lk->lk)] of process [i], which goes on at [p] when the spin lock is free. *)
Definition take_spin (i : nat) (p : pc) (s : sys) : option sys :=
  match spin (lk s) with None => Some (goto i p (set_spin (Some i) (lk s)) s) | Some _ => None end.

(** A step of [acquiresleep]. *)
Definition acquiresleep (i : nat) (p : pc) (s : sys) : option sys :=
  match p with
  | Acquire => take_spin i Test s
  | Test =>
      if locked (lk s) then Some (goto i Asleep (set_spin None (lk s)) s)
      else Some (goto i Leave (mklock true (spin (lk s)) (pid_of i)) s)
  | Woken => take_spin i Test s
  | Leave => Some (goto i Holds (set_spin None (lk s)) s)
  | _ => None
  end.

(** A step of [releasesleep]. *)
Definition releasesleep (i : nat) (p : pc) (s : sys) : option sys :=
  match p with
  | Release => take_spin i Clear s
  | Clear => Some (goto i Wake (mklock false (spin (lk s)) 0) s)
  | Wake => Some (mksys (lk s) (wakeup <$> <[i := Done]> (procs s)))
  | Done => Some (goto i Idle (set_spin None (lk s)) s)
  | _ => None
  end.

(** [holdingsleep]: acquires the spin lock when it is free, reads the flag and releases the
    spin lock, which leaves the state as it was. *)
Definition holdingsleep (s : sys) : option bool :=
  match spin (lk s) with None => Some (locked (lk s)) | Some _ => None end.

(** A step of process [i]: of the functions, or a call of one. *)
Definition step_of (i : nat) (s : sys) : option sys :=
  match procs s !! i with
  | None => None
  | Some Idle => Some (goto i Acquire (lk s) s)
  | Some Holds => Some (goto i Release (lk s) s)
  | Some p => match acquiresleep i p s with Some s' => Some s' | None => releasesleep i p s end
  end.
Definition step (s s' : sys) : Prop := exists i, step_of i s = Some s'.

(** ** Invariant *)

(** Processes with the spin lock. *)
Definition inside (p : pc) : bool := match p with Test | Leave | Clear | Wake | Done => true | _ => false end.
(** Processes with the sleep lock. *)
Definition owner (p : pc) : bool := match p with Leave | Holds | Release | Clear => true | _ => false end.

Record inv (s : sys) : Prop := {
  inv_spin i p : procs s !! i = Some p -> inside p = true -> spin (lk s) = Some i;
  inv_spin' i : spin (lk s) = Some i -> exists p, procs s !! i = Some p /\ inside p = true;
  inv_own i p : procs s !! i = Some p -> owner p = true -> locked (lk s) = true /\ pid (lk s) = pid_of i;
  inv_own' : locked (lk s) = true -> exists i p, procs s !! i = Some p /\ owner p = true;
  inv_asleep i : procs s !! i = Some Asleep ->
    locked (lk s) = true \/ exists j, procs s !! j = Some Wake
}.

Lemma sl_init_inv n : inv (init n).
Proof.
  assert (forall i p, procs (init n) !! i = Some p -> p = Idle) as H by (intros i p Hp; by apply lookup_replicate_1 in Hp as [-> _]).
  split; cbn [init lk initsleeplock spin locked]; try done; intros i; intros.
  - by rewrite (H i p) in *.
  - by rewrite (H i p) in *.
  - by specialize (H i Asleep ltac:(done)).
Qed.

Lemma pid_of_inj i j : pid_of i = pid_of j -> i = j.
Proof. unfold pid_of. lia. Qed.

(** Each case of a step is a change of one process and of the lock. *)
Lemma lookup_goto i p l s j q :
  procs (goto i p l s) !! j = Some q -> (j = i /\ q = p) \/ (j <> i /\ procs s !! j = Some q).
Proof.
  cbn [goto procs]. destruct (decide (j = i)) as [->|Hne].
  - intros H. left. split; [done|]. apply list_lookup_insert_Some in H as [(_ & ? & _)|[? _]]; [done|done].
  - rewrite list_lookup_insert_ne by done. by right.
Qed.

Lemma goto_self i p q l s : procs s !! i = Some q -> procs (goto i p l s) !! i = Some p.
Proof. intros H. cbn [goto procs]. apply list_lookup_insert_eq. by eapply lookup_lt_Some. Qed.

Lemma goto_other i j p l s : i <> j -> procs (goto i p l s) !! j = procs s !! j.
Proof. intros H. cbn [goto procs]. by rewrite list_lookup_insert_ne. Qed.

(** Only one process has the sleep lock. *)
Lemma owner_unique s i j p q :
  inv s -> procs s !! i = Some p -> owner p = true -> procs s !! j = Some q -> owner q = true -> i = j.
Proof.
  intros Hi Hp Op Hq Oq. destruct (inv_own s Hi i p Hp Op) as [_ H1]. destruct (inv_own s Hi j q Hq Oq) as [_ H2].
  apply pid_of_inj. congruence.
Qed.

(** When a step of process [i] from [q] to [p] that makes the lock [l] keeps the invariant. *)
Lemma inv_goto i q p l s :
  inv s -> procs s !! i = Some q ->
  (if inside p then spin l = Some i /\ (spin (lk s) = None \/ spin (lk s) = Some i)
   else if inside q then spin l = None else spin l = spin (lk s)) ->
  (locked l = locked (lk s) /\ pid l = pid (lk s) /\ owner p = owner q \/
   locked l = true /\ pid l = pid_of i /\ owner p = true /\ locked (lk s) = false \/
   locked l = false /\ owner q = true /\ owner p = false /\ p = Wake) ->
  (p = Asleep -> locked l = true) -> q <> Wake ->
  inv (goto i p l s).
Proof.
  intros Hi Hq Hspin Hown Hsl Hw. split; cbn [goto lk].
  - intros j r Hj Hr. apply lookup_goto in Hj as [[-> ->]|[Hne Hj]]; [rewrite Hr in Hspin; tauto|].
    pose proof (inv_spin s Hi j r Hj Hr) as Hs. destruct (inside p); [destruct Hspin as (_ & [?|?]); congruence|].
    destruct (inside q) eqn:Eq; [|congruence]. pose proof (inv_spin s Hi i q Hq Eq). congruence.
  - intros j Hj. destruct (decide (j = i)) as [->|Hne].
    + exists p. split; [by eapply goto_self|]. destruct (inside p); [done|]. destruct (inside q) eqn:Eq; [congruence|].
      rewrite Hspin in Hj. destruct (inv_spin' s Hi i Hj) as (r & Hr & Ir). congruence.
    + assert (spin (lk s) = Some j) as Hs by (destruct (inside p), (inside q); destruct_and?; congruence).
      destruct (inv_spin' s Hi j Hs) as (r & Hr & Ir). exists r. by rewrite goto_other.
  - intros j r Hj Hr. apply lookup_goto in Hj as [[-> ->]|[Hne Hj]].
    + destruct Hown as [(-> & -> & E)|[(? & ? & _)|(_ & _ & E & _)]]; [|done|congruence]. rewrite Hr in E. by apply (inv_own s Hi i q).
    + destruct (inv_own s Hi j r Hj Hr) as [H1 H2]. destruct Hown as [(-> & -> & E)|[(? & ? & _ & ?)|(_ & E & _ & _)]]; [done|congruence|].
      by destruct (Hne (owner_unique s j i r q Hi Hj Hr Hq E)).
  - intros Hl. destruct Hown as [(E1 & _ & E2)|[(_ & _ & E & _)|(? & _)]]; [|exists i, p; split; [by eapply goto_self|done]|congruence].
    rewrite E1 in Hl. destruct (inv_own' s Hi Hl) as (j & r & Hj & Hr). destruct (decide (j = i)) as [->|Hne].
    + exists i, p. split; [by eapply goto_self|congruence].
    + exists j, r. by rewrite goto_other.
  - intros j Hj. apply lookup_goto in Hj as [[-> E]|[Hne Hj]]; [left; by apply Hsl|].
    destruct (inv_asleep s Hi j Hj) as [Hl|(k & Hk)].
    + destruct Hown as [(E1 & _)|[(E1 & _)|(_ & _ & _ & ->)]]; [left; congruence|by left|]. right. exists i. by eapply goto_self.
    + right. exists k. rewrite goto_other; [done|]. intros ->. congruence.
Qed.

Lemma inv_wake i s : inv s -> procs s !! i = Some Wake -> inv (mksys (lk s) (wakeup <$> <[i := Done]> (procs s))).
Proof.
  intros Hi Hq.
  assert (forall j r, (wakeup <$> <[i := Done]> (procs s)) !! j = Some r ->
    exists r', procs s !! j = Some r' /\ inside r = inside r' /\ owner r = owner r' /\ r <> Asleep) as Hback.
  { intros j r Hj. rewrite list_lookup_fmap in Hj. destruct (decide (j = i)) as [->|Hne].
    - rewrite list_lookup_insert_eq in Hj by (by eapply lookup_lt_Some). injection Hj as <-. by exists Wake.
    - rewrite list_lookup_insert_ne in Hj by done. destruct (procs s !! j) as [r'|]; [|done]. injection Hj as <-. exists r'. by destruct r'. }
  assert (forall j r, procs s !! j = Some r -> exists r', (wakeup <$> <[i := Done]> (procs s)) !! j = Some r' /\
    inside r' = inside r /\ owner r' = owner r) as Hfwd.
  { intros j r Hj. rewrite list_lookup_fmap. destruct (decide (j = i)) as [->|Hne].
    - rewrite list_lookup_insert_eq by (by eapply lookup_lt_Some). exists Done. assert (r = Wake) as -> by congruence. done.
    - rewrite list_lookup_insert_ne by done. rewrite Hj. exists (wakeup r). by destruct r. }
  split; cbn [lk procs].
  - intros j r Hj Hr. destruct (Hback j r Hj) as (r' & H & E & _). apply (inv_spin s Hi j r'); congruence.
  - intros j Hj. destruct (inv_spin' s Hi j Hj) as (r & Hr & Ir). destruct (Hfwd j r Hr) as (r' & H & E & _). exists r'. split; [done|congruence].
  - intros j r Hj Hr. destruct (Hback j r Hj) as (r' & H & _ & E & _). apply (inv_own s Hi j r'); congruence.
  - intros Hl. destruct (inv_own' s Hi Hl) as (j & r & Hr & Or). destruct (Hfwd j r Hr) as (r' & H & _ & E). exists j, r'. split; [done|congruence].
  - intros j Hj. by destruct (Hback j Asleep Hj) as (r' & _ & _ & _ & []).
Qed.

Lemma sl_step_inv s s' : inv s -> step s s' -> inv s'.
Proof.
  intros Hi (i & Hs). unfold step_of in Hs. destruct (procs s !! i) as [q|] eqn:Hq; [|done].
  pose proof (inv_spin s Hi i q Hq) as Hsp. pose proof (inv_own s Hi i q Hq) as Hown.
  assert (forall p s1, inside q = false -> inside p = true -> owner p = owner q -> q <> Wake -> take_spin i p s = Some s1 -> inv s1) as Htake.
  { intros p s1 Iq Ip Eo Hw H1. unfold take_spin in H1. destruct (spin (lk s)) eqn:Es; [done|]. injection H1 as <-.
    apply (inv_goto i q); try done; [rewrite Ip; cbn; auto|by left|by intros ->]. }
  destruct q; cbn [acquiresleep releasesleep] in Hs; try (injection Hs as <-).
  - apply (inv_goto i Idle); try done. by left.
  - destruct (take_spin i Test s) as [s1|] eqn:E; [|done]. injection Hs as <-. by apply (Htake Test).
  - destruct (locked (lk s)) eqn:El; injection Hs as <-; apply (inv_goto i Test); try done.
    + left. cbn. auto.
    + cbn. auto.
    + right. left. done.
  - done.
  - destruct (take_spin i Test s) as [s1|] eqn:E; [|done]. injection Hs as <-. by apply (Htake Test).
  - apply (inv_goto i Leave); try done. by left.
  - apply (inv_goto i Holds); try done. by left.
  - by apply (Htake Clear).
  - apply (inv_goto i Clear); try done; [cbn; auto|]. right. right. done.
  - by apply inv_wake.
  - apply (inv_goto i Done); try done. by left.
Qed.

Lemma sl_reachable_inv n s : rtc step (init n) s -> inv s.
Proof. intros H. pose proof (sl_init_inv n) as Hi. induction H as [|s1 s2 s3 Hs _ IH]; [done|]. apply IH. by eapply sl_step_inv. Qed.

(** Someone can go on: the process with the spin lock, or any process when it is free. *)
Lemma can_step s i p : inv s -> procs s !! i = Some p -> p <> Asleep -> exists s', step s s'.
Proof.
  intros Hi Hp Hne. destruct (spin (lk s)) as [j|] eqn:Es.
  - destruct (inv_spin' s Hi j Es) as (q & Hq & Iq).
    assert (exists s', step_of j s = Some s') as [s' H]; [|by exists s', j]. unfold step_of. rewrite Hq.
    destruct q; try done; cbn [acquiresleep releasesleep]; try by eexists. destruct (locked (lk s)); by eexists.
  - assert (exists s', step_of i s = Some s') as [s' H]; [|by exists s', i]. unfold step_of. rewrite Hp.
    destruct p; try done; cbn [acquiresleep releasesleep]; unfold take_spin; rewrite ?Es; try by eexists.
    destruct (locked (lk s)); by eexists.
Qed.

(** C17: However the processes that use a sleep lock are interleaved: at most one has it, the
    lock says so and has its pid; a process is asleep in [acquiresleep] only while another
    has the lock or is about to wake it; and unless no process is there, some process that is not
    asleep can go on. *)
Theorem sleeplock_exclusive n s :
  rtc step (init n) s ->
  (forall i j p q, procs s !! i = Some p -> owner p = true -> procs s !! j = Some q -> owner q = true -> i = j) /\
  (forall i p, procs s !! i = Some p -> owner p = true ->
    (spin (lk s) = None -> holdingsleep s = Some true) /\ pid (lk s) = pid_of i) /\
  (forall i, procs s !! i = Some Asleep -> exists j q, procs s !! j = Some q /\ (owner q = true \/ q = Wake)) /\
  (procs s <> [] -> exists s', step s s').
Proof.
  intros Hr. pose proof (sl_reachable_inv n s Hr) as Hi. split; [|split; [|split]].
  - intros i j p q Hp Op Hq Oq. by apply (owner_unique s i j p q).
  - intros i p Hp Op. destruct (inv_own s Hi i p Hp Op) as [Hl Hpid]. split; [|done].
    intros Hs. unfold holdingsleep. by rewrite Hs, Hl.
  - intros i Ha. destruct (inv_asleep s Hi i Ha) as [Hl|(j & Hj)]; [|exists j, Wake; auto].
    destruct (inv_own' s Hi Hl) as (j & q & Hq & Oq). exists j, q. auto.
  - intros Hn. destruct (procs s !! 0%nat) as [p|] eqn:Hp; [|by destruct (procs s)].
    destruct (decide (p = Asleep)) as [->|Hne]; [|by apply (can_step s 0 p)].
    destruct (inv_asleep s Hi 0 Hp) as [Hlk|(j & Hj)]; [|by apply (can_step s j Wake)].
    destruct (inv_own' s Hi Hlk) as (j & q & Hq & Oq). apply (can_step s j q Hi Hq). by intros ->.
Qed.

(** Two processes: the second is asleep while the first has the lock. *)
Lemma sleeplock_exclusive_witness :
  exists s, rtc step (init 2) s /\ procs s = [Holds; Asleep] /\
  (forall i, procs s !! i = Some Asleep -> exists j q, procs s !! j = Some q /\ (owner q = true \/ q = Wake)).
Proof.
  assert (rtc step (init 2) (mksys (mklock true None 1) [Holds; Asleep])) as Hr.
  { eapply rtc_l; [exists 0%nat; reflexivity|]. eapply rtc_l; [exists 0%nat; reflexivity|]. eapply rtc_l; [exists 0%nat; reflexivity|].
    eapply rtc_l; [exists 0%nat; reflexivity|]. eapply rtc_l; [exists 1%nat; reflexivity|]. eapply rtc_l; [exists 1%nat; reflexivity|].
    eapply rtc_l; [exists 1%nat; reflexivity|]. apply rtc_refl. }
  exists (mksys (mklock true None 1) [Holds; Asleep]). split; [exact Hr|]. split; [reflexivity|].
  destruct (sleeplock_exclusive 2 _ Hr) as (_ & _ & H & _). exact H.
Defined.

End Sleeplock.
