(* ===== verification/Proc.v ===== *)
(** * The process table

    proc.h, and the parts of proc.c that work on the process table with [ptable.lock]
    held: looking for a free slot, waking, killing, exiting, waiting, sleeping and
    scheduling.  A process is named by its index in the table.  What [fork], [exit] and
    [wait] do besides, with memory, files and inodes, is in [Kernel].

    Shown, for every interleaving of these: every process but the first has a parent
    that has not exited, no two processes have the same pid, and a process asleep in
    [wait] has a child, none that has exited, and was not killed.  And [kill(0)] succeeds
    and kills a process that is created later. *)

From S2P Require Export Prelude.
Local Open Scope Z_scope.

Definition NPROC : nat := 64.
Definition NOFILE : nat := 16.

Module Proc.

Inductive procstate : Type := UNUSED | EMBRYO | SLEEPING | RUNNABLE | RUNNING | ZOMBIE.
#[global] Instance procstate_eq_dec : EqDecision procstate.
Proof. solve_decision. Defined.

Record trapframe : Type := mktf {
  edi : Z; esi : Z; ebp : Z; oesp : Z; ebx : Z; edx : Z; ecx : Z; eax : Z;
  gs : Z; fs : Z; es : Z; ds : Z; trapno : Z;
  err : Z; eip : Z; cs : Z; eflags : Z;
  esp : Z; ss : Z
}.
Definition tf0 : trapframe := mktf 0 0 0 0 0 0 0 0 0 0 0 0 0 0 0 0 0 0 0.
Definition set_eax (v : Z) (t : trapframe) : trapframe :=
  mktf (edi t) (esi t) (ebp t) (oesp t) (ebx t) (edx t) (ecx t) v (gs t) (fs t) (es t) (ds t) (trapno t)
    (err t) (eip t) (cs t) (eflags t) (esp t) (ss t).
Definition set_eip_esp (pc sp : Z) (t : trapframe) : trapframe :=
  mktf (edi t) (esi t) (ebp t) (oesp t) (ebx t) (edx t) (ecx t) (eax t) (gs t) (fs t) (es t) (ds t) (trapno t)
    (err t) pc (cs t) (eflags t) sp (ss t).

(** Per-process state.  A pointer to a file or an inode is its index in the table of
    files or in the inode cache; a page is its address.  [context] is left out: a
    process is resumed where it called [swtch], a new one in [forkret]. *)
Record proc : Type := mkproc {
  p_sz : Z;                       (* Size of process memory (bytes) *)
  p_pgdir : Z;                    (* Page table *)
  p_kstack : Z;                   (* Bottom of kernel stack for this process *)
  p_state : procstate;            (* Process state *)
  p_pid : Z;                      (* Process ID *)
  p_parent : option nat;          (* Parent process *)
  p_tf : trapframe;               (* Trap frame for current syscall *)
  p_chan : option chan;           (* If non-zero, sleeping on chan *)
  p_killed : bool;                (* If non-zero, have been killed *)
  p_ofile : list (option nat);    (* Open files *)
  p_cwd : option nat;             (* Current directory *)
  p_name : list Z;                (* Process name (debugging) *)
  p_alarmticks : Z;
  p_alarmhandler : Z;
  p_ticks : Z
}.

Definition set_mem (sz pgdir : Z) (p : proc) : proc :=
  mkproc sz pgdir (p_kstack p) (p_state p) (p_pid p) (p_parent p) (p_tf p) (p_chan p) (p_killed p) (p_ofile p) (p_cwd p)
    (p_name p) (p_alarmticks p) (p_alarmhandler p) (p_ticks p).
Definition set_kstack (k : Z) (p : proc) : proc :=
  mkproc (p_sz p) (p_pgdir p) k (p_state p) (p_pid p) (p_parent p) (p_tf p) (p_chan p) (p_killed p) (p_ofile p) (p_cwd p)
    (p_name p) (p_alarmticks p) (p_alarmhandler p) (p_ticks p).
Definition set_state (st : procstate) (p : proc) : proc :=
  mkproc (p_sz p) (p_pgdir p) (p_kstack p) st (p_pid p) (p_parent p) (p_tf p) (p_chan p) (p_killed p) (p_ofile p) (p_cwd p)
    (p_name p) (p_alarmticks p) (p_alarmhandler p) (p_ticks p).
Definition set_pid (pid : Z) (p : proc) : proc :=
  mkproc (p_sz p) (p_pgdir p) (p_kstack p) (p_state p) pid (p_parent p) (p_tf p) (p_chan p) (p_killed p) (p_ofile p) (p_cwd p)
    (p_name p) (p_alarmticks p) (p_alarmhandler p) (p_ticks p).
Definition set_parent (q : option nat) (p : proc) : proc :=
  mkproc (p_sz p) (p_pgdir p) (p_kstack p) (p_state p) (p_pid p) q (p_tf p) (p_chan p) (p_killed p) (p_ofile p) (p_cwd p)
    (p_name p) (p_alarmticks p) (p_alarmhandler p) (p_ticks p).
Definition set_tf (t : trapframe) (p : proc) : proc :=
  mkproc (p_sz p) (p_pgdir p) (p_kstack p) (p_state p) (p_pid p) (p_parent p) t (p_chan p) (p_killed p) (p_ofile p) (p_cwd p)
    (p_name p) (p_alarmticks p) (p_alarmhandler p) (p_ticks p).
Definition set_chan (c : option chan) (p : proc) : proc :=
  mkproc (p_sz p) (p_pgdir p) (p_kstack p) (p_state p) (p_pid p) (p_parent p) (p_tf p) c (p_killed p) (p_ofile p) (p_cwd p)
    (p_name p) (p_alarmticks p) (p_alarmhandler p) (p_ticks p).
Definition set_killed (k : bool) (p : proc) : proc :=
  mkproc (p_sz p) (p_pgdir p) (p_kstack p) (p_state p) (p_pid p) (p_parent p) (p_tf p) (p_chan p) k (p_ofile p) (p_cwd p)
    (p_name p) (p_alarmticks p) (p_alarmhandler p) (p_ticks p).
Definition set_ofile (l : list (option nat)) (p : proc) : proc :=
  mkproc (p_sz p) (p_pgdir p) (p_kstack p) (p_state p) (p_pid p) (p_parent p) (p_tf p) (p_chan p) (p_killed p) l (p_cwd p)
    (p_name p) (p_alarmticks p) (p_alarmhandler p) (p_ticks p).
Definition set_cwd (c : option nat) (p : proc) : proc :=
  mkproc (p_sz p) (p_pgdir p) (p_kstack p) (p_state p) (p_pid p) (p_parent p) (p_tf p) (p_chan p) (p_killed p) (p_ofile p) c
    (p_name p) (p_alarmticks p) (p_alarmhandler p) (p_ticks p).
Definition set_name (n : list Z) (p : proc) : proc :=
  mkproc (p_sz p) (p_pgdir p) (p_kstack p) (p_state p) (p_pid p) (p_parent p) (p_tf p) (p_chan p) (p_killed p) (p_ofile p) (p_cwd p)
    n (p_alarmticks p) (p_alarmhandler p) (p_ticks p).
Definition set_alarm (a h t : Z) (p : proc) : proc :=
  mkproc (p_sz p) (p_pgdir p) (p_kstack p) (p_state p) (p_pid p) (p_parent p) (p_tf p) (p_chan p) (p_killed p) (p_ofile p) (p_cwd p)
    (p_name p) a h t.

(** A slot of the table when the kernel starts. *)
Definition proc0 : proc :=
  mkproc 0 0 0 UNUSED 0 None tf0 None false (replicate NOFILE None) None (replicate 16 0) 0 0 0.

Record ptab : Type := mkptab { procs : list proc; nextpid : Z; initproc : option nat }.
Definition ptab0 : ptab := mkptab (replicate NPROC proc0) 1 None.

(** ** With ptable.lock held *)

Definition is_state (st : procstate) (p : proc) : bool := bool_decide (p_state p = st).

(** The first slot a test accepts. *)
Fixpoint first_slot (test : proc -> bool) (l : list proc) (i : nat) : option nat :=
  match l with
  | [] => None
  | p :: l => if test p then Some i else first_slot test l (S i)
  end.

(** [allocproc], while it holds the lock. *)
Definition alloc_slot (t : ptab) : option (nat * ptab) :=
  match first_slot (is_state UNUSED) (procs t) 0 with
  | Some i => Some (i, mkptab (alter (fun p => set_pid (nextpid t) (set_state EMBRYO p)) i (procs t))
                         (s32 (nextpid t + 1)) (initproc t))
  | None => None
  end.

Definition wakeup1_proc (ch : chan) (p : proc) : proc :=
  if (is_state SLEEPING p && bool_decide (p_chan p = Some ch))%bool then set_state RUNNABLE p else p.
Definition wakeup1 (ch : chan) (l : list proc) : list proc := wakeup1_proc ch <$> l.

Definition kill (pid : Z) (l : list proc) : Z * list proc :=
  match first_slot (fun p => p_pid p =? pid) l 0 with
  | Some i => (0, alter (fun p => let p := set_killed true p in
                           if is_state SLEEPING p then set_state RUNNABLE p else p) i l)
  | None => (-1, l)
  end.

(** Pass abandoned children to init: the rounds from [i] on, [n] of them. *)
Fixpoint reparent (n i : nat) (cur init : nat) (l : list proc) : list proc :=
  match n with
  | O => l
  | S n =>
      reparent n (S i) cur init
        (match l !! i with
         | Some p =>
             if bool_decide (p_parent p = Some cur) then
               let l := <[i := set_parent (Some init) p]> l in
               if is_state ZOMBIE p then wakeup1 (ChProc init) l else l
             else l
         | None => l
         end)
  end.

(** [exit], from where it takes the lock to where it calls [sched]. *)
Definition exit_slot (cur init : nat) (l : list proc) : list proc :=
  let l := match l !! cur with
           | Some p => match p_parent p with Some q => wakeup1 (ChProc q) l | None => l end
           | None => l
           end in
  alter (set_state ZOMBIE) cur (reparent (length l) 0 cur init l).

(** The scan of [wait]: an exited child, or whether there are children. *)
Fixpoint wait_scan (l : list proc) (i : nat) (cur : nat) (havekids : bool) : nat + bool :=
  match l with
  | [] => inr havekids
  | p :: l =>
      if negb (bool_decide (p_parent p = Some cur)) then wait_scan l (S i) cur havekids
      else if is_state ZOMBIE p then inl i
      else wait_scan l (S i) cur true
  end.
(** What is left of an exited child. *)
Definition reaped (p : proc) : proc :=
  set_state UNUSED (set_killed false (set_name (<[0%nat := 0]> (p_name p)) (set_parent None (set_pid 0 (set_kstack 0 p))))).

Inductive waited : Type := Reaped (i : nat) (pid : Z) | NoChild | Waits.
Definition wait_round (cur : nat) (l : list proc) : waited * list proc :=
  match wait_scan l 0 cur false with
  | inl i => (Reaped i (default 0 (p_pid <$> l !! i)), alter reaped i l)
  | inr havekids =>
      if (negb havekids || default false (p_killed <$> l !! cur))%bool then (NoChild, l)
      else (Waits, alter (fun p => set_state SLEEPING (set_chan (Some (ChProc cur)) p)) cur l)
  end.

(** [sleep] to where it calls [sched], and from there on. *)
Definition sleep_slot (cur : nat) (ch : chan) (l : list proc) : list proc :=
  alter (fun p => set_state SLEEPING (set_chan (Some ch) p)) cur l.
Definition awake_slot (cur : nat) (l : list proc) : list proc := alter (set_chan None) cur l.
Definition yield_slot (cur : nat) (l : list proc) : list proc := alter (set_state RUNNABLE) cur l.
(** The scheduler switches to a process. *)
Definition run_slot (i : nat) (l : list proc) : list proc := alter (set_state RUNNING) i l.

(** ** Processes running side by side

    [forking] says which processes are in [fork], after [allocproc] gave them a slot.
    Each step is what a process does between taking [ptable.lock] and releasing it. *)
Record sys : Type := mksys { tab : ptab; forking : list (option nat) }.
Definition with_procs (σ : sys) (l : list proc) : sys := mksys (mkptab l (nextpid (tab σ)) (initproc (tab σ))) (forking σ).
Definition ps (σ : sys) : list proc := procs (tab σ).

(** Process [i] executes in the kernel. *)
Definition runs (σ : sys) (i : nat) : Prop := exists p, ps σ !! i = Some p /\ p_state p = RUNNING /\ p_chan p = None.
Definition is_wait (ch : chan) : bool := match ch with ChProc _ => true | _ => false end.

Inductive step : sys -> sys -> Prop :=
  (* scheduler() runs a process, which continues in sleep(), and in wait() if that called it *)
  | step_run σ i p : ps σ !! i = Some p -> p_state p = RUNNABLE -> (forall ch, p_chan p = Some ch -> is_wait ch = false) ->
      step σ (with_procs σ (awake_slot i (run_slot i (ps σ))))
  | step_run_wait σ i p : ps σ !! i = Some p -> p_state p = RUNNABLE -> p_chan p = Some (ChProc i) ->
      step σ (with_procs σ (snd (wait_round i (awake_slot i (run_slot i (ps σ))))))
  (* fork(): allocproc() finds a slot; the child becomes RUNNABLE, or the slot is given back *)
  | step_alloc σ i j t' : runs σ i -> forking σ !! i = Some None -> nextpid (tab σ) < 2 ^ 31 - 1 ->
      alloc_slot (tab σ) = Some (j, t') -> step σ (mksys t' (<[i := Some j]> (forking σ)))
  | step_ready σ i j : runs σ i -> forking σ !! i = Some (Some j) ->
      step σ (mksys (tab (with_procs σ (alter (fun p => set_state RUNNABLE (set_parent (Some i) p)) j (ps σ)))) (<[i := None]> (forking σ)))
  | step_fail σ i j : runs σ i -> forking σ !! i = Some (Some j) ->
      step σ (mksys (tab (with_procs σ (alter (fun p => set_state UNUSED (set_kstack 0 p)) j (ps σ)))) (<[i := None]> (forking σ)))
  | step_exit σ i init : runs σ i -> forking σ !! i = Some None -> initproc (tab σ) = Some init -> i <> init ->
      step σ (with_procs σ (exit_slot i init (ps σ)))
  | step_wait σ i : runs σ i -> forking σ !! i = Some None -> step σ (with_procs σ (snd (wait_round i (ps σ))))
  | step_kill σ i pid : runs σ i -> step σ (with_procs σ (snd (kill pid (ps σ))))
  | step_sleep σ i ch : runs σ i -> forking σ !! i = Some None -> is_wait ch = false ->
      step σ (with_procs σ (sleep_slot i ch (ps σ)))
  | step_wakeup σ ch : is_wait ch = false -> step σ (with_procs σ (wakeup1 ch (ps σ)))
  | step_yield σ i : runs σ i -> step σ (with_procs σ (yield_slot i (ps σ))).

(** After [userinit] the first process is ready to run. *)
Definition initial : sys :=
  mksys (mkptab (set_state RUNNABLE (set_pid 1 proc0) :: replicate 63 proc0) 2 (Some 0%nat)) (replicate NPROC None).
Definition reachable (σ : sys) : Prop := rtc step initial σ.

(** ** The invariant *)

Definition alive (p : proc) : Prop := p_state p = SLEEPING \/ p_state p = RUNNABLE \/ p_state p = RUNNING.
Definition child (i : nat) (p : proc) : Prop := p_parent p = Some i.
(** The state up to what wakes and sleeps. *)
Definition class (p : proc) : procstate :=
  match p_state p with SLEEPING | RUNNABLE | RUNNING => RUNNING | st => st end.

Lemma alive_class p : alive p <-> class p = RUNNING.
Proof. unfold alive, class. destruct (p_state p); split; intros; naive_solver. Qed.

(** A slot that is free or being filled has no parent; every other but the first
    process has one that has not exited. *)
Definition tree_ok (init : nat) (l : list proc) : Prop :=
  (exists p, l !! init = Some p /\ class p = RUNNING) /\
  forall j p, l !! j = Some p ->
    match class p with
    | RUNNING | ZOMBIE => j = init \/ exists q pq, p_parent p = Some q /\ l !! q = Some pq /\ class pq = RUNNING /\ q <> j
    | _ => p_parent p = None
    end.
Definition pids_ok (next : Z) (l : list proc) : Prop :=
  next <= 2 ^ 31 - 1 /\ (forall j p, l !! j = Some p -> class p <> UNUSED -> 1 <= p_pid p < next) /\
  forall i j p q, l !! i = Some p -> l !! j = Some q -> class p <> UNUSED -> class q <> UNUSED -> p_pid p = p_pid q -> i = j.
(** A process asleep in [wait] waits for a child that runs. *)
Definition waits_ok (l : list proc) : Prop :=
  forall i p k, l !! i = Some p -> p_chan p = Some (ChProc k) -> p_state p = SLEEPING ->
    k = i /\ p_killed p = false /\ (exists j q, l !! j = Some q /\ child i q) /\
    forall j q, l !! j = Some q -> child i q -> p_state q <> ZOMBIE.
Definition forks_ok (f : list (option nat)) (l : list proc) : Prop :=
  forall i j, f !! i = Some (Some j) ->
    (exists p, l !! i = Some p /\ (p_state p = RUNNING \/ p_state p = RUNNABLE) /\ p_chan p = None) /\
    (exists q, l !! j = Some q /\ p_state q = EMBRYO) /\ forall i', f !! i' = Some (Some j) -> i' = i.

Definition inv (σ : sys) : Prop :=
  initproc (tab σ) = Some 0%nat /\ tree_ok 0 (ps σ) /\ pids_ok (nextpid (tab σ)) (ps σ) /\ waits_ok (ps σ) /\
  forks_ok (forking σ) (ps σ).

(** ** Steps that wake and put to sleep *)

(** The same process, running or not. *)
Definition same (p p' : proc) : Prop := p_pid p' = p_pid p /\ p_parent p' = p_parent p /\ class p' = class p.
Definition mild (p p' : proc) : Prop :=
  same p p' /\
  (p_state p' = SLEEPING -> forall k, p_chan p' = Some (ChProc k) ->
     p_state p = SLEEPING /\ p_chan p = Some (ChProc k) /\ p_killed p' = p_killed p).

Lemma same_refl p : same p p.
Proof. by split_and!. Qed.
Lemma mild_refl p : mild p p.
Proof. by split_and!. Qed.
Lemma mild_trans p q r : mild p q -> mild q r -> mild p r.
Proof.
  intros [(H1 & H2 & H3) H4] [(H1' & H2' & H3') H4']. split; [split_and!; congruence|].
  intros Hs k Hk. destruct (H4' Hs k Hk) as (Hs' & Hk' & E). destruct (H4 Hs' k Hk') as (? & ? & E'). split_and!; congruence.
Qed.
Lemma mild_same_list l l' : Forall2 mild l l' -> Forall2 same l l'.
Proof. intros H. eapply Forall2_impl; [exact H|]. by intros p q [? _]. Qed.

Lemma alter_rel (R : proc -> proc -> Prop) (f : proc -> proc) (i : nat) (l : list proc) :
  (forall p, R p p) -> (forall p, l !! i = Some p -> R p (f p)) -> Forall2 R l (alter f i l).
Proof.
  intros Hr Hf. apply Forall2_same_length_lookup_2; [by rewrite length_alter|]. intros j p p' Hp Hp'.
  destruct (decide (i = j)) as [<-|Hne].
  - rewrite list_lookup_alter_eq, Hp in Hp'. injection Hp' as <-. by apply Hf.
  - rewrite list_lookup_alter_ne, Hp in Hp' by done. injection Hp' as <-. apply Hr.
Qed.
Lemma mild_alter (f : proc -> proc) (i : nat) l : (forall p, l !! i = Some p -> mild p (f p)) -> Forall2 mild l (alter f i l).
Proof. apply alter_rel, mild_refl. Qed.
Lemma same_alter (f : proc -> proc) (i : nat) l : (forall p, l !! i = Some p -> same p (f p)) -> Forall2 same l (alter f i l).
Proof. apply alter_rel, same_refl. Qed.

Lemma mild_wakeup1_proc ch p : mild p (wakeup1_proc ch p).
Proof.
  unfold wakeup1_proc, is_state.
  destruct (bool_decide (p_state p = SLEEPING) && bool_decide (p_chan p = Some ch))%bool eqn:E; [|apply mild_refl].
  apply andb_true_iff in E as [E%bool_decide_eq_true_1 _]. split; [|done]. split_and!; try done. unfold class. by rewrite E.
Qed.
Lemma mild_wakeup1 ch l : Forall2 mild l (wakeup1 ch l).
Proof. apply Forall2_fmap_r, Forall_Forall2_diag, Forall_forall. intros p _. apply mild_wakeup1_proc. Qed.

Lemma mild_trans_list l1 l2 l3 : Forall2 mild l1 l2 -> Forall2 mild l2 l3 -> Forall2 mild l1 l3.
Proof. intros H. revert l3. induction H; intros l3 H3; inversion_clear H3; constructor; eauto using mild_trans. Qed.

Lemma zombie_class p : p_state p = ZOMBIE <-> class p = ZOMBIE.
Proof. unfold class. destruct (p_state p); naive_solver. Qed.
Lemma embryo_class p : p_state p = EMBRYO <-> class p = EMBRYO.
Proof. unfold class. destruct (p_state p); naive_solver. Qed.

(** The processes in [fork] keep running. *)
Definition forkers_run (f : list (option nat)) (l : list proc) : Prop :=
  forall i j p, f !! i = Some (Some j) -> l !! i = Some p -> (p_state p = RUNNING \/ p_state p = RUNNABLE) /\ p_chan p = None.
Lemma forks_run f l : forks_ok f l -> forkers_run f l.
Proof. intros Hf i j p Hij Hp. destruct (Hf i j Hij) as ((p' & Hp' & ?) & _). by simplify_eq. Qed.

Section Same.
Context (l l' : list proc) (Hm : Forall2 same l l').

Lemma same_back j p' : l' !! j = Some p' -> exists p, l !! j = Some p /\ same p p'.
Proof. intros H. destruct (Forall2_lookup_r _ _ _ _ _ Hm H) as (p & ? & ?). by exists p. Qed.
Lemma same_forth j p : l !! j = Some p -> exists p', l' !! j = Some p' /\ same p p'.
Proof. intros H. destruct (Forall2_lookup_l _ _ _ _ _ Hm H) as (p' & ? & ?). by exists p'. Qed.

Lemma tree_same init : tree_ok init l -> tree_ok init l'.
Proof.
  intros [(p & Hp & Hc) Ht]. split.
  - destruct (same_forth _ _ Hp) as (p' & Hp' & _ & _ & Hc'). exists p'. by rewrite Hc'.
  - intros j q' Hq'. destruct (same_back _ _ Hq') as (q & Hq & _ & Hpar & Hcl). specialize (Ht j q Hq). rewrite Hcl, Hpar.
    destruct (class q); try done; (destruct Ht as [->|(k & pk & H1 & H2 & H3 & H4)]; [by left|right]);
      destruct (same_forth _ _ H2) as (pk' & Hk' & _ & _ & Hck); exists k, pk'; by rewrite Hck.
Qed.

Lemma pids_same next : pids_ok next l -> pids_ok next l'.
Proof.
  intros (H0 & H1 & H2). split; [done|]. split.
  - intros j p' Hp'. destruct (same_back _ _ Hp') as (p & Hp & -> & _ & ->). by apply (H1 j).
  - intros i j p' q' Hp' Hq'. destruct (same_back _ _ Hp') as (p & Hp & -> & _ & ->).
    destruct (same_back _ _ Hq') as (q & Hq & -> & _ & ->). by apply H2.
Qed.

Lemma forks_same f : forks_ok f l -> forkers_run f l' -> forks_ok f l'.
Proof.
  intros Hf Hr i j Hij. destruct (Hf i j Hij) as ((p & Hp & _) & (q & Hq & He) & Hu).
  destruct (same_forth _ _ Hp) as (p' & Hp' & _). destruct (same_forth _ _ Hq) as (q' & Hq' & _ & _ & Hc).
  split; [exists p'; split; [done|by eapply Hr]|]. split; [|done]. exists q'. split; [done|]. by rewrite embryo_class, Hc, <- embryo_class.
Qed.

(** The children of a process are its children. *)
Lemma kids_same i : (exists j q, l !! j = Some q /\ child i q) -> (forall j q, l !! j = Some q -> child i q -> p_state q <> ZOMBIE) ->
  (exists j q, l' !! j = Some q /\ child i q) /\ (forall j q, l' !! j = Some q -> child i q -> p_state q <> ZOMBIE).
Proof.
  intros (j & q & Hq & Hcq) Hz. split.
  - destruct (same_forth _ _ Hq) as (q' & Hq' & _ & Hpar & _). exists j, q'. unfold child in *. by rewrite Hpar.
  - intros j' r' Hr' Hcr. destruct (same_back _ _ Hr') as (r & Hr & _ & Hpar & Hcl). unfold child in *. rewrite Hpar in Hcr.
    rewrite zombie_class, Hcl, <- zombie_class. by apply (Hz j').
Qed.
End Same.

Lemma waits_mild l l' : Forall2 mild l l' -> waits_ok l -> waits_ok l'.
Proof.
  intros Hm Hw i p' k Hp' Hch Hst. destruct (Forall2_lookup_r _ _ _ _ _ Hm Hp') as (p & Hp & _ & Hs).
  destruct (Hs Hst k Hch) as (Hst' & Hch' & ->). destruct (Hw i p k Hp Hch' Hst') as (-> & Hk & Hex & Hz).
  split; [done|]. split; [done|]. apply (kids_same l l'); [by apply mild_same_list|done|done].
Qed.

Lemma inv_mild σ l' :
  inv σ -> Forall2 mild (ps σ) l' -> forkers_run (forking σ) l' -> inv (with_procs σ l').
Proof.
  intros (Hi & Ht & Hp & Hw & Hf) Hm Hr. pose proof (mild_same_list _ _ Hm).
  split_and!; [done|by eapply tree_same|by eapply pids_same|by eapply waits_mild|by eapply forks_same].
Qed.

(** Looking up after a change of one slot. *)
Lemma lookup_alter_cases (f : proc -> proc) (i j : nat) (l : list proc) p' :
  alter f i l !! j = Some p' -> (j = i /\ exists p, l !! i = Some p /\ p' = f p) \/ (j <> i /\ l !! j = Some p').
Proof.
  intros H. destruct (decide (i = j)) as [<-|Hne].
  - left. split; [done|]. rewrite list_lookup_alter_eq in H. destruct (l !! i) as [p|]; [|done]. injection H as <-. by exists p.
  - right. split; [done|]. by rewrite list_lookup_alter_ne in H.
Qed.
Lemma lookup_alter_other (f : proc -> proc) (i j : nat) (l : list proc) p : j <> i -> l !! j = Some p -> alter f i l !! j = Some p.
Proof. intros Hne H. by rewrite list_lookup_alter_ne. Qed.
Lemma lookup_alter_at (f : proc -> proc) (i : nat) (l : list proc) p : l !! i = Some p -> alter f i l !! i = Some (f p).
Proof. intros H. by rewrite list_lookup_alter_eq, H. Qed.

(** ** [wait] *)

Lemma wait_scan_spec cur l : forall i hk,
  match wait_scan l i cur hk with
  | inl j => exists p, (i <= j)%nat /\ l !! (j - i)%nat = Some p /\ child cur p /\ p_state p = ZOMBIE
  | inr hk' => (forall j p, l !! j = Some p -> child cur p -> p_state p <> ZOMBIE) /\
      (hk' = true -> hk = true \/ exists j p, l !! j = Some p /\ child cur p)
  end.
Proof.
  induction l as [|p l IH]; intros i hk; cbn [wait_scan]; [split; [done|by left]|].
  case_bool_decide as Hc; cbn [negb].
  - unfold is_state. case_bool_decide as Hz; [exists p; by rewrite Nat.sub_diag|].
    specialize (IH (S i) true). destruct (wait_scan l (S i) cur true) as [j|hk'].
    + destruct IH as (q & Hj & Hq & ?). exists q. split; [lia|]. by replace (j - i)%nat with (S (j - S i)) by lia.
    + destruct IH as [H1 H2]. split; [intros [|j] q Hq; [by injection Hq as <-|by apply (H1 j)]|].
      intros _. right. exists 0%nat, p. done.
  - specialize (IH (S i) hk). destruct (wait_scan l (S i) cur hk) as [j|hk'].
    + destruct IH as (q & Hj & Hq & ?). exists q. split; [lia|]. by replace (j - i)%nat with (S (j - S i)) by lia.
    + destruct IH as [H1 H2]. split; [intros [|j] q Hq Hcq; [by injection Hq as <-|by apply (H1 j q)]|].
      intros H. destruct (H2 H) as [?|(j & q & ? & ?)]; [by left|right]. by exists (S j), q.
Qed.

Lemma reap_inv σ i c : inv σ -> runs σ i -> (exists p, ps σ !! c = Some p /\ child i p /\ p_state p = ZOMBIE) ->
  inv (with_procs σ (alter reaped c (ps σ))).
Proof.
  intros (Hin & [(pi & Hpi & Hci) Ht] & (Hn & Hpid & Hun) & Hw & Hf) (p & Hp & Hrun & _) (z & Hz & Hcz & Hst).
  apply zombie_class in Hst. assert (c <> 0%nat) as Hc0 by (intros ->; congruence).
  assert (c <> i) as Hci' by (intros ->; simplify_eq; unfold class in Hst; by rewrite Hrun in Hst).
  split_and!; [done| | | |].
  - split; [exists pi; split; [by apply lookup_alter_other|done]|]. intros j q Hq.
    apply lookup_alter_cases in Hq as [(-> & y & Hy & ->)|[Hne Hq]]; [done|]. specialize (Ht j q Hq).
    destruct (class q); try done; (destruct Ht as [->|(k & pk & H1 & H2 & H3 & H4)]; [by left|right]);
      exists k, pk; (split; [done|]); (split; [apply lookup_alter_other; [intros ->; congruence|done]|done]).
  - split; [done|]. split.
    + intros j q Hq Hnu. apply lookup_alter_cases in Hq as [(-> & y & Hy & ->)|[Hne Hq]]; [done|by apply (Hpid j)].
    + intros j k q r Hq Hr Hq0 Hr0 E. apply lookup_alter_cases in Hq as [(-> & y & Hy & ->)|[Hne Hq]]; [done|].
      apply lookup_alter_cases in Hr as [(-> & y & Hy & ->)|[Hne' Hr]]; [done|by apply (Hun j k q r)].
  - intros j q k Hq Hch Hsl. apply lookup_alter_cases in Hq as [(-> & y & Hy & ->)|[Hne Hq]]; [done|].
    destruct (Hw j q k Hq Hch Hsl) as (-> & Hk & (a & b & Hb & Hcb) & Hnz). split; [done|]. split; [done|].
    assert (j <> i) as Hji by (intros ->; simplify_eq; congruence). split.
    + exists a, b. split; [|done]. apply lookup_alter_other; [|done]. intros ->. unfold child in *. congruence.
    + intros a' b' Hb' Hcb'. apply lookup_alter_cases in Hb' as [(-> & y & Hy & ->)|[_ Hb']]; [done|by apply (Hnz a')].
  - intros a b Hab. destruct (Hf a b Hab) as ((pa & Hpa & Hra & Hca) & (q & Hq & He) & Hu). split.
    + exists pa. split; [|done]. apply lookup_alter_other; [|done]. intros ->. simplify_eq. unfold class in Hst. by destruct Hra as [E|E]; rewrite E in Hst.
    + split; [|done]. exists q. split; [|done]. apply lookup_alter_other; [|done]. intros ->. simplify_eq. unfold class in Hst. by rewrite He in Hst.
Qed.

Lemma wait_inv σ i : inv σ -> runs σ i -> (forall j, forking σ !! i <> Some (Some j)) ->
  inv (with_procs σ (snd (wait_round i (ps σ)))).
Proof.
  intros Hinv Hr Hnf. pose proof (wait_scan_spec i (ps σ) 0 false) as Hs. unfold wait_round. destruct (wait_scan _ _ _ _) as [c|hk].
  { destruct Hs as (p & _ & Hp & Hc & Hz). rewrite Nat.sub_0_r in Hp. apply (reap_inv σ i); [done|done|by exists p]. }
  destruct Hs as [Hnz Hkid]. destruct Hr as (p & Hp & Hrun & Hch). rewrite Hp. change (default false (p_killed <$> Some p)) with (p_killed p).
  destruct (negb hk || p_killed p)%bool eqn:E; [destruct σ as [[]]; exact Hinv|]. apply orb_false_iff in E as [Hk Hkill]. cbn [snd].
  apply negb_false_iff in Hk. destruct (Hkid Hk) as [?|Hkids]; [done|].
  destruct Hinv as (Hin & Ht & Hpd & Hw & Hf). set (l' := alter _ i (ps σ)).
  assert (Forall2 same (ps σ) l') as Hs.
  { apply same_alter. intros q Hq. simplify_eq. split_and!; [done|done|]. unfold class. by rewrite Hrun. }
  split_and!; [done|by eapply tree_same|by eapply pids_same| |].
  - intros j q k Hq Hc Hsl. assert (j = i \/ ps σ !! j = Some q) as [->|Hq'] by (apply lookup_alter_cases in Hq as [[? _]|[_ ?]]; auto).
    + apply lookup_alter_cases in Hq as [(_ & y & Hy & ->)|[? _]]; [|done]. simplify_eq. injection Hc as <-.
      split; [done|]. split; [done|]. by apply (kids_same (ps σ) l').
    + destruct (Hw j q k Hq' Hc Hsl) as (-> & Hkq & Hex & Hz). split; [done|]. split; [done|]. by apply (kids_same (ps σ) l').
  - eapply forks_same; [done|done|]. intros a b q Hab Hq. apply lookup_alter_cases in Hq as [[-> _]|[_ Hq]]; [by destruct (Hnf b)|].
    by eapply forks_run.
Qed.

(** ** [fork] *)

Lemma first_slot_spec test l : forall i j, first_slot test l i = Some j ->
  exists p, (i <= j)%nat /\ l !! (j - i)%nat = Some p /\ test p = true.
Proof.
  induction l as [|p l IH]; intros i j; cbn [first_slot]; [done|]. destruct (test p) eqn:E.
  - intros [= <-]. exists p. by rewrite Nat.sub_diag.
  - intros H. destruct (IH _ _ H) as (q & Hj & Hq & Ht). exists q. split; [lia|]. by replace (j - i)%nat with (S (j - S i)) by lia.
Qed.

(** A slot without a parent and without children is filled or emptied. *)
Section Slot.
Context (l : list proc) (j : nat) (p p' : proc) (f : proc -> proc).
Context (Hp : l !! j = Some p) (Hf : p' = f p) (Hcl : class p = UNUSED \/ class p = EMBRYO).
Local Abbreviation l' := (alter f j l).

Lemma slot_tree init : tree_ok init l ->
  match class p' with
  | RUNNING | ZOMBIE => exists q pq, p_parent p' = Some q /\ l !! q = Some pq /\ class pq = RUNNING
  | _ => p_parent p' = None
  end -> tree_ok init l'.
Proof.
  intros [(pi & Hpi & Hci) Ht] Hnew. assert (forall q pq, l !! q = Some pq -> class pq = RUNNING -> q <> j) as Hne.
  { intros q pq Hq Hc ->. simplify_eq. by destruct Hcl; congruence. }
  split; [exists pi; split; [apply lookup_alter_other; [by eapply Hne|done]|done]|]. intros k q Hq.
  apply lookup_alter_cases in Hq as [(-> & y & Hy & ->)|[Hk Hq]].
  - simplify_eq. destruct (class (f p)); try done; destruct Hnew as (q & pq & H1 & H2 & H3); right; exists q, pq;
      (split; [done|]); pose proof (Hne q pq H2 H3); (split; [by apply lookup_alter_other|done]).
  - specialize (Ht k q Hq). destruct (class q); try done; (destruct Ht as [->|(a & pa & H1 & H2 & H3 & H4)]; [by left|right]);
      exists a, pa; (split; [done|]); (split; [apply lookup_alter_other; [by eapply Hne|done]|done]).
Qed.

Lemma slot_pids next next' : pids_ok next l -> next <= next' <= 2 ^ 31 - 1 ->
  (class p' <> UNUSED -> p_pid p' = p_pid p /\ class p <> UNUSED \/ p_pid p' = next /\ 1 <= next < next') ->
  pids_ok next' l'.
Proof.
  intros (_ & Hr & Hu) Hn Hnew. split; [lia|]. split.
  - intros k q Hq Hcq. apply lookup_alter_cases in Hq as [(-> & y & Hy & ->)|[_ Hq]]; [|specialize (Hr k q Hq Hcq); lia].
    simplify_eq. destruct (Hnew Hcq) as [[-> Hc]|[-> ?]]; [specialize (Hr j p Hp Hc)|]; lia.
  - assert (forall k q, k <> j -> l !! k = Some q -> class q <> UNUSED -> class p' <> UNUSED -> p_pid p' <> p_pid q) as Hd.
    { intros k q Hne Hq Hcq Hc'. destruct (Hnew Hc') as [[-> Hc]|[-> _]]; [|specialize (Hr k q Hq Hcq); lia].
      intros E. apply Hne. symmetry. by apply (Hu j k p q). }
    intros a b q r Hq Hr' Hcq Hcr E. apply lookup_alter_cases in Hq as [(-> & y & Hy & ->)|[Hna Hq]];
      apply lookup_alter_cases in Hr' as [(-> & y' & Hy' & ->)|[Hnb Hr']]; simplify_eq; [done| | |by apply (Hu a b q r)].
    + by destruct (Hd b r Hnb Hr' Hcr Hcq).
    + by destruct (Hd a q Hna Hq Hcq Hcr).
Qed.

Lemma slot_waits : p_parent p = None -> waits_ok l -> p_state p' <> SLEEPING -> p_state p' <> ZOMBIE ->
  waits_ok l'.
Proof.
  intros Hpar Hw Hs Hz i q k Hq Hch Hsl. apply lookup_alter_cases in Hq as [(-> & y & Hy & ->)|[Hne Hq]]; [by simplify_eq|].
  destruct (Hw i q k Hq Hch Hsl) as (-> & Hk & (a & b & Hb & Hcb) & Hnz). split; [done|]. split; [done|]. split.
  - exists a, b. split; [|done]. apply lookup_alter_other; [|done]. intros ->. simplify_eq. unfold child in Hcb. congruence.
  - intros a' b' Hb' Hcb'. apply lookup_alter_cases in Hb' as [(-> & y & Hy & ->)|[_ Hb']]; [by simplify_eq|by apply (Hnz a')].
Qed.
End Slot.

Lemma alloc_inv σ i j t' :
  inv σ -> runs σ i -> forking σ !! i = Some None -> nextpid (tab σ) < 2 ^ 31 - 1 -> alloc_slot (tab σ) = Some (j, t') ->
  inv (mksys t' (<[i := Some j]> (forking σ))).
Proof.
  intros (Hin & Ht & Hpd & Hw & Hf) (pi & Hpi & Hrun & Hch) Hfi Hn Ha. unfold alloc_slot in Ha.
  destruct (first_slot _ _ _) as [j'|] eqn:Hs; [|done]. injection Ha as -> <-.
  apply first_slot_spec in Hs as (p & _ & Hp & Hst). rewrite Nat.sub_0_r in Hp. apply bool_decide_eq_true_1 in Hst.
  assert (class p = UNUSED) as Hcl by (unfold class; by rewrite Hst).
  assert (p_parent p = None) as Hpar by (pose proof (proj2 Ht j p Hp) as H; by rewrite Hcl in H).
  assert (j <> i) as Hji by (intros ->; unfold ps in Hpi; simplify_eq; congruence).
  assert (1 <= nextpid (tab σ)) as Hpos.
  { destruct Ht as [(q & Hq & Hcq) _]. destruct Hpd as (_ & Hpd & _). specialize (Hpd 0%nat q Hq). rewrite Hcq in Hpd. specialize (Hpd ltac:(done)). lia. }
  unfold inv, ps. cbn [tab procs nextpid initproc forking]. rewrite s32_small by lia. split_and!; [done| | | |].
  - eapply slot_tree; [exact Hp|done|by left|done|]. exact Hpar.
  - eapply slot_pids; [exact Hp|done|exact Hpd|lia|]. intros _. right. cbn. lia.
  - eapply slot_waits; [exact Hp|done|done|done|done|done].
  - intros a b Hab. apply list_lookup_insert_Some in Hab as [(<- & [= <-] & _)|[Hne Hab]].
    + split; [exists pi; split; [by apply lookup_alter_other|by split; [left|]]|]. split; [by eexists; split; [by apply lookup_alter_at|]|].
      intros a Ha. apply list_lookup_insert_Some in Ha as [(<- & _)|[_ Ha]]; [done|].
      destruct (Hf a j Ha) as (_ & (q & Hq & He) & _). unfold ps in Hq. simplify_eq. congruence.
    + destruct (Hf a b Hab) as ((pa & Hpa & Hra) & (q & Hq & He) & Hu).
      assert (a <> j) by (intros ->; unfold ps in Hpa; simplify_eq; destruct Hra as [[]]; congruence).
      assert (b <> j) by (intros ->; unfold ps in Hq; simplify_eq; congruence).
      split; [exists pa; split; [by apply lookup_alter_other|done]|]. split; [exists q; split; [by apply lookup_alter_other|done]|].
      intros a' Ha'. apply list_lookup_insert_Some in Ha' as [(<- & [= <-] & _)|[_ Ha']]; [done|by apply Hu].
Qed.

(** The embryo is made a process, or given back. *)
Lemma forked_inv σ i j f :
  inv σ -> runs σ i -> forking σ !! i = Some (Some j) ->
  (forall p, p_state p = EMBRYO -> p_parent p = None ->
     p_pid (f p) = p_pid p /\ (p_state (f p) = UNUSED /\ p_parent (f p) = None \/ p_state (f p) = RUNNABLE /\ p_parent (f p) = Some i)) ->
  inv (mksys (tab (with_procs σ (alter f j (ps σ)))) (<[i := None]> (forking σ))).
Proof.
  intros (Hin & Ht & Hpd & Hw & Hf) (pi & Hpi & Hrun & Hch) Hfi Hff. destruct (Hf i j Hfi) as (_ & (p & Hp & Hst) & Huj).
  assert (class p = EMBRYO) as Hcl by (by apply embryo_class).
  assert (p_parent p = None) as Hpar by (pose proof (proj2 Ht j p Hp) as H; by rewrite Hcl in H).
  destruct (Hff p Hst Hpar) as [Hpid Hnew]. split_and!; [done| | | |].
  - eapply slot_tree; [exact Hp|done|by right|done|]. unfold class. destruct Hnew as [[-> ->]|[-> ->]]; [done|].
    exists i, pi. split; [done|]. split; [done|]. unfold class. by rewrite Hrun.
  - eapply slot_pids; [exact Hp|done|exact Hpd|destruct Hpd; cbn; lia|]. intros _. left. rewrite Hcl. done.
  - eapply slot_waits; [exact Hp|done|done|done|by destruct Hnew as [[-> _]|[-> _]]|by destruct Hnew as [[-> _]|[-> _]]].
  - cbn [forking]. intros a b Hab. apply list_lookup_insert_Some in Hab as [(_ & ? & _)|[Hne Hab]]; [done|].
    destruct (Hf a b Hab) as ((pa & Hpa & Hra) & (q & Hq & He) & Hu).
    assert (a <> j) by (intros ->; simplify_eq; destruct Hra as [[]]; congruence).
    assert (b <> j) by (intros ->; by apply Hne, eq_sym, Huj).
    split; [exists pa; split; [by apply lookup_alter_other|done]|]. split; [exists q; split; [by apply lookup_alter_other|done]|].
    intros a' Ha'. apply list_lookup_insert_Some in Ha' as [(_ & ? & _)|[_ Ha']]; [done|by apply Hu].
Qed.

(** ** [exit] *)

(** Whether [init] is woken, and the children passed on. *)
Definition woken (w : bool) (init : nat) (p : proc) : proc := if w then wakeup1_proc (ChProc init) p else p.
Definition adopted (cur init : nat) (p : proc) : proc := if decide (p_parent p = Some cur) then set_parent (Some init) p else p.

Lemma wakeup1_idem ch p : wakeup1_proc ch (wakeup1_proc ch p) = wakeup1_proc ch p.
Proof.
  destruct (is_state SLEEPING p && bool_decide (p_chan p = Some ch))%bool eqn:E.
  - assert (wakeup1_proc ch p = set_state RUNNABLE p) as -> by (unfold wakeup1_proc; by rewrite E). done.
  - assert (wakeup1_proc ch p = p) as H by (unfold wakeup1_proc; by rewrite E). by rewrite H.
Qed.
Lemma woken_idem w init p : woken true init (woken w init p) = woken true init p.
Proof. destruct w; [|done]. apply wakeup1_idem. Qed.
Lemma woken_fields w init p : p_parent (woken w init p) = p_parent p /\ is_state ZOMBIE (woken w init p) = is_state ZOMBIE p.
Proof.
  destruct w; [|done]. cbn. unfold wakeup1_proc. destruct (_ && _)%bool eqn:E; [|done].
  apply andb_true_iff in E as [E%bool_decide_eq_true_1 _]. unfold is_state. cbn. by rewrite E.
Qed.
Lemma woken_adopted w init p : woken w init (set_parent (Some init) p) = set_parent (Some init) (woken w init p).
Proof. destruct w; [|done]. cbn. unfold wakeup1_proc. by destruct (_ && _)%bool. Qed.

(** [n] rounds of the loop from [i] on. *)
Lemma reparent_spec cur init n : forall i l, cur <> init -> exists w,
  (forall j p, l !! j = Some p -> reparent n i cur init l !! j =
     Some (if decide (i <= j < i + n)%nat then adopted cur init (woken w init p) else woken w init p)) /\
  length (reparent n i cur init l) = length l /\
  (forall j p, (i <= j < i + n)%nat -> l !! j = Some p -> child cur p -> p_state p = ZOMBIE -> w = true).
Proof.
  induction n as [|n IH]; intros i l Hne; cbn [reparent].
  { exists false. split; [intros j p Hp; rewrite decide_False by lia; done|]. split; [done|]. intros j p Hj. lia. }
  destruct (l !! i) as [q|] eqn:Hq.
  2: { destruct (IH (S i) l Hne) as (w & H1 & H2 & H3). exists w. split; [|split; [done|]].
       - intros j p Hp. rewrite (H1 j p Hp). assert (j <> i) by congruence. f_equal. repeat case_decide; done || lia.
       - intros j p Hj Hp. apply (H3 j p); [|done]. assert (j <> i) by congruence. lia. }
  case_bool_decide as Hc.
  - set (l1 := if is_state ZOMBIE q then wakeup1 (ChProc init) (<[i := set_parent (Some init) q]> l) else <[i := set_parent (Some init) q]> l).
    assert (forall j p, l !! j = Some p -> l1 !! j = Some (woken (is_state ZOMBIE q) init (if decide (j = i) then set_parent (Some init) p else p))) as Hl1.
    { intros j p Hp. pose proof (lookup_lt_Some _ _ _ Hp). unfold l1. destruct (is_state ZOMBIE q); cbn [woken].
      - unfold wakeup1. rewrite list_lookup_fmap. case_decide as Hji; [subst j; rewrite list_lookup_insert_eq by done; by simplify_eq|].
        by rewrite list_lookup_insert_ne, Hp.
      - case_decide as Hji; [subst j; rewrite list_lookup_insert_eq by done; by simplify_eq|]. by rewrite list_lookup_insert_ne. }
    assert (length l1 = length l) as Hlen by (unfold l1; destruct (is_state _ _); unfold wakeup1; by rewrite ?length_fmap, length_insert).
    destruct (IH (S i) l1 Hne) as (w & H1 & H2 & H3). exists (w || is_state ZOMBIE q)%bool. split; [|split; [by rewrite H2|]].
    + intros j p Hp. rewrite (H1 j _ (Hl1 j p Hp)). f_equal. unfold adopted. set (z := is_state ZOMBIE q).
      assert (forall y, woken w init (woken z init y) = woken (w || z) init y) as Hz.
      { intros y. destruct w; [apply woken_idem|]. by destruct z. }
      rewrite !Hz. destruct (decide (j = i)) as [->|Hji].
      * rewrite decide_False by lia. rewrite decide_True by lia. rewrite (proj1 (woken_fields _ _ _)). simplify_eq.
        rewrite decide_True by done. apply woken_adopted.
      * repeat case_decide; done || lia.
    + intros j p Hj Hp Hcp Hz. destruct (decide (j = i)) as [->|Hji].
      * simplify_eq. unfold is_state. rewrite bool_decide_eq_true_2 by done. apply orb_true_r.
      * rewrite (H3 j _ ltac:(lia) (Hl1 j p Hp)); [done| |].
        -- rewrite decide_False by done. unfold child. by rewrite (proj1 (woken_fields _ _ _)).
        -- rewrite decide_False by done. pose proof (proj2 (woken_fields (is_state ZOMBIE q) init p)) as E. unfold is_state in E at 1 3.
           rewrite (bool_decide_eq_true_2 _ Hz) in E. by apply bool_decide_eq_true_1 in E.
  - destruct (IH (S i) l Hne) as (w & H1 & H2 & H3). exists w. split; [|split; [done|]].
    + intros j p Hp. rewrite (H1 j p Hp). f_equal. destruct (decide (j = i)) as [->|Hji]; [|repeat case_decide; done || lia].
      rewrite decide_False, decide_True by lia. simplify_eq. unfold adopted. rewrite (proj1 (woken_fields _ _ _)). by rewrite decide_False.
    + intros j p Hj Hp Hcp. apply H3 with j; [|done..]. assert (j <> i) by (intros ->; simplify_eq; done). lia.
Qed.

(** A process that is woken is not asleep on the channel any more; the rest of it is as
    it was. *)
Lemma wakeup1_cases ch p :
  let p' := wakeup1_proc ch p in
  (p_state p' = SLEEPING -> p' = p /\ p_chan p <> Some ch) /\ (p_state p <> SLEEPING -> p' = p).
Proof.
  cbv zeta. destruct (is_state SLEEPING p && bool_decide (p_chan p = Some ch))%bool eqn:E.
  - assert (wakeup1_proc ch p = set_state RUNNABLE p) as -> by (unfold wakeup1_proc; by rewrite E).
    split; [done|]. apply andb_true_iff in E as [E%bool_decide_eq_true_1 _]. done.
  - assert (wakeup1_proc ch p = p) as -> by (unfold wakeup1_proc; by rewrite E).
    split; [|done]. intros Hs. split; [done|]. intros Hc. unfold is_state in E. by rewrite !bool_decide_eq_true_2 in E.
Qed.

(** What [exit] makes of process [j]. *)
Definition after_exit (cur init j : nat) (parent : option nat) (zombies : Prop) (p p' : proc) : Prop :=
  p_pid p' = p_pid p /\ p_parent p' = (if decide (p_parent p = Some cur) then Some init else p_parent p) /\
  if decide (j = cur) then p_state p' = ZOMBIE else
    class p' = class p /\ (p_state p <> SLEEPING -> p_state p' = p_state p /\ p_chan p' = p_chan p) /\
    (p_state p' = SLEEPING -> p_state p = SLEEPING /\ p_chan p' = p_chan p /\ p_killed p' = p_killed p /\
       (forall k, p_chan p = Some (ChProc k) -> parent <> Some k /\ (zombies -> k <> init))).

Lemma exit_spec cur init l pc : l !! cur = Some pc -> cur <> init -> 
  length (exit_slot cur init l) = length l /\ forall j p, l !! j = Some p -> exists p', exit_slot cur init l !! j = Some p' /\
    after_exit cur init j (p_parent pc) (exists k z, l !! k = Some z /\ child cur z /\ p_state z = ZOMBIE) p p'.
Proof.
  intros Hpc Hne. unfold exit_slot. rewrite Hpc.
  set (wk := fun p => match p_parent pc with Some q => wakeup1_proc (ChProc q) p | None => p end).
  assert (exists l0, l0 = match p_parent pc with Some q => wakeup1 (ChProc q) l | None => l end /\ l0 = wk <$> l) as (l0 & <- & Hl0).
  { eexists. split; [done|]. unfold wk. destruct (p_parent pc); [done|]. by rewrite list_fmap_id. }
  destruct (reparent_spec cur init (length l0) 0 l0 Hne) as (w & H1 & H2 & H3).
  assert (length l0 = length l) as Hlen by (by rewrite Hl0, length_fmap). split; [by rewrite length_alter, H2|].
  intros j p Hp. assert (l0 !! j = Some (wk p)) as Hj by (by rewrite Hl0, list_lookup_fmap, Hp).
  assert (mild p (wk p)) as [(Hw1 & Hw2 & Hw3) _] by (unfold wk; destruct (p_parent pc); [apply mild_wakeup1_proc|apply mild_refl]).
  assert (mild (wk p) (woken w init (wk p))) as [(Hv1 & Hv2 & Hv3) _] by (destruct w; [apply mild_wakeup1_proc|apply mild_refl]).
  pose proof (H1 j _ Hj) as Hr. pose proof (lookup_lt_Some _ _ _ Hj). rewrite decide_True in Hr by lia.
  set (p1 := adopted cur init (woken w init (wk p))) in *.
  assert (p_pid p1 = p_pid p /\ p_parent p1 = (if decide (p_parent p = Some cur) then Some init else p_parent p)) as [Hpid Hpar].
  { unfold p1, adopted. rewrite Hv2, Hw2. case_decide; cbn; split; congruence. }
  assert (p_state p1 = p_state (woken w init (wk p)) /\ p_chan p1 = p_chan (woken w init (wk p)) /\ p_killed p1 = p_killed (woken w init (wk p))) as (Hs1 & Hc1 & Hk1)
    by (destruct (decide (p_parent (woken w init (wk p)) = Some cur)) as [E|E]; unfold p1, adopted; [rewrite !(decide_True _ _ E)|rewrite !(decide_False _ _ E)]; done).
  unfold after_exit. destruct (decide (j = cur)) as [->|Hjc].
  { exists (set_state ZOMBIE p1). split; [by apply lookup_alter_at|]. by split_and!. }
  exists p1. split; [by apply lookup_alter_other|]. split; [done|]. split; [done|]. split; [|split].
  - unfold class in *. rewrite Hs1. congruence.
  - intros Hns. rewrite Hs1, Hc1. assert (wk p = p) as -> by (unfold wk; destruct (p_parent pc); [by apply wakeup1_cases|done]).
    assert (woken w init p = p) as -> by (destruct w; [by apply wakeup1_cases|done]). done.
  - rewrite Hs1, Hc1, Hk1. intros Hsl.
    assert (woken w init (wk p) = wk p /\ (w = true -> p_chan (wk p) <> Some (ChProc init))) as [E1 E2].
    { destruct w; [|done]. cbn [woken] in *. destruct (wakeup1_cases (ChProc init) (wk p)) as [Hx _]. by destruct (Hx Hsl). }
    rewrite E1 in *. assert (wk p = p /\ forall k, p_chan p = Some (ChProc k) -> p_parent pc <> Some k) as [E3 E4].
    { unfold wk in *. destruct (p_parent pc) as [q|]; [|done]. destruct (wakeup1_cases (ChProc q) p) as [Hx _].
      destruct (Hx Hsl) as [? Hq]. split; [done|]. intros k Hk [= ->]. done. }
    rewrite E3 in *. split_and!; try done. intros k Hk. split; [by apply E4|]. intros (a & z & Hz & Hcz & Hzz) ->.
    apply E2; [|done]. pose proof (lookup_lt_Some _ _ _ Hz).
    assert (mild z (wk z)) as [(_ & Hz2 & Hz3) _] by (unfold wk; destruct (p_parent pc); [apply mild_wakeup1_proc|apply mild_refl]).
    apply (H3 a (wk z)); [lia|by rewrite Hl0, list_lookup_fmap, Hz|unfold child in *; congruence|].
    rewrite zombie_class, Hz3, <- zombie_class. done.
Qed.

Section Exit.
Context (l l' : list proc) (i : nat) (pc : proc) (Hne : i <> 0%nat).
Context (Hpc : l !! i = Some pc) (Hrun : class pc = RUNNING) (Hl' : l' = exit_slot i 0 l).
Local Abbreviation zombies := (exists k z, l !! k = Some z /\ child i z /\ p_state z = ZOMBIE).

Lemma exit_forth j p : l !! j = Some p -> exists p', l' !! j = Some p' /\ after_exit i 0 j (p_parent pc) zombies p p'.
Proof. rewrite Hl'. by apply exit_spec. Qed.
Lemma exit_back j p' : l' !! j = Some p' -> exists p, l !! j = Some p /\ after_exit i 0 j (p_parent pc) zombies p p'.
Proof.
  intros Hp'. destruct (exit_spec i 0 l pc Hpc Hne) as [Hlen Hex]. rewrite <- Hl' in *.
  assert (is_Some (l !! j)) as [p Hp] by (apply lookup_lt_is_Some; rewrite <- Hlen; by eapply lookup_lt_Some).
  destruct (Hex j p Hp) as (p'' & Hp'' & H). simplify_eq. by exists p.
Qed.
Lemma exit_class j p p' : after_exit i 0 j (p_parent pc) zombies p p' -> l !! j = Some p ->
  class p' = class p \/ class p = RUNNING /\ class p' = ZOMBIE.
Proof.
  intros (_ & _ & H) Hp. destruct (decide (j = i)) as [->|]; [right|left; apply H]. simplify_eq. split; [done|]. by apply zombie_class.
Qed.
Lemma exit_alive q pq : l !! q = Some pq -> class pq = RUNNING -> q <> i -> exists pq', l' !! q = Some pq' /\ class pq' = RUNNING.
Proof.
  intros Hq Hcq Hqi. destruct (exit_forth q pq Hq) as (pq' & Hq' & _ & _ & H). rewrite decide_False in H by done.
  exists pq'. destruct H as (-> & _). done.
Qed.

Lemma exit_tree : tree_ok 0 l -> tree_ok 0 l'.
Proof.
  intros [(p0 & Hp0 & Hc0) Ht]. split; [apply (exit_alive 0 p0 Hp0 Hc0); by apply not_eq_sym|].
  intros j p' Hp'. destruct (exit_back j p' Hp') as (p & Hp & Ha). specialize (Ht j p Hp).
  pose proof (exit_class _ _ _ Ha Hp) as Hcc. destruct Ha as (_ & Hpar & _).
  assert ((class p = RUNNING \/ class p = ZOMBIE) -> j = 0%nat \/ exists q pq, p_parent p' = Some q /\ l' !! q = Some pq /\ class pq = RUNNING /\ q <> j) as Hlive.
  { intros Hl. destruct (decide (j = 0%nat)) as [->|Hj0]; [by left|right].
    assert (exists q pq, p_parent p = Some q /\ l !! q = Some pq /\ class pq = RUNNING /\ q <> j) as (q & pq & H1 & H2 & H3 & H4)
      by (destruct Hl as [E|E]; rewrite E in Ht; by destruct Ht).
    rewrite Hpar. destruct (decide (p_parent p = Some i)) as [Hpi|Hpi].
    - destruct (exit_alive 0 p0 Hp0 Hc0) as (pq' & ? & ?); [by apply not_eq_sym|]. exists 0%nat, pq'. split_and!; done || by apply not_eq_sym.
    - destruct (exit_alive q pq H2 H3) as (pq' & ? & ?); [congruence|]. exists q, pq'. by split_and!. }
  destruct Hcc as [->|[Hr ->]]; [|apply Hlive; by left].
  destruct (class p); try (by rewrite Hpar, Ht, decide_False); apply Hlive; auto.
Qed.

Lemma exit_pids next : pids_ok next l -> pids_ok next l'.
Proof.
  intros (Hn & Hpid & Hun).
  assert (forall j p', l' !! j = Some p' -> class p' <> UNUSED -> exists p, l !! j = Some p /\ class p <> UNUSED /\ p_pid p' = p_pid p) as Hb.
  { intros j p' Hp' Hc'. destruct (exit_back j p' Hp') as (p & Hp & Ha). exists p. split; [done|].
    split; [destruct (exit_class _ _ _ Ha Hp) as [?|[? _]]; congruence|apply Ha]. }
  split; [done|]. split.
  - intros j p' Hp' Hc'. destruct (Hb j p' Hp' Hc') as (p & Hp & Hc & ->). by apply (Hpid j p).
  - intros a b p' q' Hp' Hq' Hc1 Hc2 E. destruct (Hb a p' Hp' Hc1) as (p & Hp & Hcp & E1). destruct (Hb b q' Hq' Hc2) as (q & Hq & Hcq & E2).
    apply (Hun a b p q); [done|done|done|done|congruence].
Qed.

Lemma exit_waits : tree_ok 0 l -> waits_ok l -> waits_ok l'.
Proof.
  intros [_ Ht] Hw a p' k Hp' Hchp Hsl. destruct (exit_back a p' Hp') as (p & Hp & _ & _ & H).
  destruct (decide (a = i)) as [->|Hai]; [congruence|]. destruct H as (_ & _ & H). destruct (H Hsl) as (Hs & Hc & -> & Hk).
  rewrite Hc in Hchp. destruct (Hw a p k Hp Hchp Hs) as (-> & Hkl & (b & q & Hq & Hcq) & Hnz). destruct (Hk a Hchp) as [Hpa Hza].
  split; [done|]. split; [done|]. split.
  - destruct (exit_forth b q Hq) as (q' & Hq' & _ & Hparq & _). exists b, q'. split; [done|]. unfold child in *. rewrite Hparq, Hcq.
    by rewrite decide_False by congruence.
  - intros b' q' Hq' Hcq'. destruct (exit_back b' q' Hq') as (r & Hr & _ & Hparr & Hclr). unfold child in *. rewrite Hparr in Hcq'.
    assert (p_parent r = Some a \/ p_parent r = Some i /\ a = 0%nat) as Hra
      by (destruct (decide (p_parent r = Some i)); [right; split; [done|congruence]|by left]).
    destruct (decide (b' = i)) as [->|Hbi].
    { simplify_eq. destruct Hra as [?|[Hself _]]; [done|]. specialize (Ht i pc Hpc). rewrite Hrun in Ht.
      destruct Ht as [?|(x & y & Hx & _ & _ & Hxi)]; [done|congruence]. }
    destruct Hclr as (Hcl & _). rewrite zombie_class, Hcl, <- zombie_class. destruct Hra as [Hra|[Hra ->]]; [by apply (Hnz b')|].
    intros Hz. apply Hza; [|done]. by exists b', r.
Qed.

Lemma exit_forks f : (forall j, f !! i <> Some (Some j)) -> forks_ok f l -> forks_ok f l'.
Proof.
  intros Hfi Hf a b Hab. destruct (Hf a b Hab) as ((pa & Hpa & Hra & Hca) & (q & Hq & He) & Hu).
  assert (a <> i) by (intros ->; by destruct (Hfi b)).
  assert (b <> i) by (intros ->; simplify_eq; apply embryo_class in He; congruence).
  destruct (exit_forth a pa Hpa) as (pa' & Hpa' & _ & _ & H1). destruct (exit_forth b q Hq) as (q' & Hq' & _ & _ & H2).
  rewrite decide_False in H1 by done. rewrite decide_False in H2 by done. destruct H1 as (_ & H1 & _). destruct H2 as (_ & H2 & _).
  destruct H1 as [E1 E2]; [by destruct Hra as [->| ->]|]. destruct H2 as [E3 _]; [by rewrite He|].
  split; [exists pa'; by rewrite E1, E2|]. split; [|done]. exists q'. by rewrite E3.
Qed.
End Exit.

Lemma exit_inv σ i : inv σ -> runs σ i -> forking σ !! i = Some None -> i <> 0%nat -> inv (with_procs σ (exit_slot i 0 (ps σ))).
Proof.
  intros (Hin & Ht & Hp & Hw & Hf) (pc & Hpc & Hrun & _) Hfi Hne. assert (class pc = RUNNING) by (unfold class; by rewrite Hrun).
  split_and!; [done|by eapply exit_tree|by eapply exit_pids|by eapply exit_waits|].
  eapply (exit_forks (ps σ) _ i pc); [done|done|done|done| |done]. intros j. cbn [forking with_procs]. by rewrite Hfi.
Qed.

(** ** Every step keeps the invariant *)

Lemma runs_alive σ i (f : proc -> proc) :
  runs σ i -> (forall p, p_state p = RUNNING -> p_chan p = None -> mild p (f p)) -> Forall2 mild (ps σ) (alter f i (ps σ)).
Proof. intros (p & Hp & Hr & Hc) Hf. apply mild_alter. intros q Hq. simplify_eq. by apply Hf. Qed.

Lemma forkers_alter f (l : list proc) (i : nat) (h : proc -> proc) :
  forkers_run f l -> (forall j p, f !! i = Some (Some j) -> l !! i = Some p -> (p_state (h p) = RUNNING \/ p_state (h p) = RUNNABLE) /\ p_chan (h p) = None) ->
  forkers_run f (alter h i l).
Proof.
  intros Hf Hh a b p Hab Hp. apply lookup_alter_cases in Hp as [(-> & y & Hy & ->)|[_ Hp]]; [by eapply Hh|by eapply Hf].
Qed.

(** The scheduler runs a process. *)
Lemma run_inv σ i p : inv σ -> ps σ !! i = Some p -> p_state p = RUNNABLE -> inv (with_procs σ (awake_slot i (run_slot i (ps σ)))).
Proof.
  intros Hinv Hp Hr. pose proof Hinv as (_ & _ & _ & _ & Hf). apply inv_mild; [done| |].
  - unfold awake_slot, run_slot. rewrite list_alter_alter_eq. apply mild_alter. intros q Hq. simplify_eq. split; [|done].
    split_and!; [done|done|]. unfold class. by rewrite Hr.
  - unfold awake_slot, run_slot. rewrite list_alter_alter_eq. apply forkers_alter; [by apply forks_run|]. intros j q _ Hq. split; [by left|done].
Qed.

Lemma procs_step_inv σ σ' : inv σ -> step σ σ' -> inv σ'.
Proof.
  intros Hinv Hs. pose proof Hinv as (Hin & _ & _ & _ & Hf). pose proof (forks_run _ _ Hf) as Hfr.
  destruct Hs as [σ i p Hp Hst _|σ i p Hp Hst Hch|σ i j t' Hr Hfi Hn Ha|σ i j Hr Hfi|σ i j Hr Hfi|σ i init Hr Hfi Hi Hne
    |σ i Hr Hfi|σ i pid Hr|σ i ch Hr Hfi Hw|σ ch Hw|σ i Hr].
  - by eapply run_inv.
  - pose proof (run_inv σ i p Hinv Hp Hst) as Hinv'.
    refine (wait_inv (with_procs σ (awake_slot i (run_slot i (ps σ)))) i Hinv' _ _).
    + exists (set_chan None (set_state RUNNING p)). split; [|done]. by apply lookup_alter_at, lookup_alter_at.
    + cbn [forking with_procs]. intros j Hj. destruct (Hfr i j p Hj Hp) as [_ ?]. congruence.
  - by eapply alloc_inv.
  - apply forked_inv; [done|done|done|]. intros p _ _. split; [done|by right].
  - apply forked_inv; [done|done|done|]. intros p _ Hp. split; [done|by left].
  - rewrite Hin in Hi. injection Hi as <-. by apply exit_inv.
  - apply wait_inv; [done|done|]. intros j. by rewrite Hfi.
  - unfold kill. destruct (first_slot _ _ _) as [k|]; [|by destruct σ as [[]]]. cbn [snd]. apply inv_mild; [done| |].
    + apply mild_alter. intros p _. unfold is_state. cbn [p_state set_killed]. case_bool_decide as E.
      * split; [|done]. split_and!; [done|done|]. unfold class. by rewrite E.
      * split; [by split_and!|]. done.
    + apply forkers_alter; [done|]. intros j p Hj Hp. destruct (Hfr k j p Hj Hp) as [Hst Hc]. unfold is_state. cbn [p_state set_killed].
      case_bool_decide; [by destruct Hst; congruence|done].
  - apply inv_mild; [done| |].
    + apply (runs_alive σ i); [done|]. intros p Hr' _. split; [|cbn; intros _ k [= ->]; done].
      split_and!; [done|done|]. unfold class. by rewrite Hr'.
    + apply forkers_alter; [done|]. intros j p Hj. congruence.
  - apply inv_mild; [done|apply mild_wakeup1|]. intros a b p Hab Hp. unfold wakeup1 in Hp. rewrite list_lookup_fmap in Hp.
    destruct (ps σ !! a) as [q|] eqn:Hq; [|done]. injection Hp as <-. destruct (Hfr a b q Hab Hq) as [Hst Hc].
    rewrite (proj2 (wakeup1_cases ch q)); [done|]. by destruct Hst as [->| ->].
  - apply inv_mild; [done| |].
    + apply (runs_alive σ i); [done|]. intros p Hr' Hc. split; [|done]. split_and!; [done|done|]. unfold class. by rewrite Hr'.
    + apply forkers_alter; [done|]. intros j p Hj Hp. destruct (Hfr i j p Hj Hp) as [_ Hc]. split; [by right|done].
Qed.

Lemma procs_initial_inv : inv initial.
Proof.
  assert (forall j p, ps initial !! j = Some p -> j = 0%nat \/ p = proc0) as Hcase.
  { intros [|j] p Hp; [by left|right]. change (replicate 63 proc0 !! j = Some p) in Hp. by apply lookup_replicate_1 in Hp as [-> _]. }
  assert (class proc0 = UNUSED) as H0 by done. split_and!; [done| | | |].
  - split; [by eexists|]. intros j p Hp. destruct (Hcase j p Hp) as [->| ->]; [injection Hp as <-; by left|by rewrite H0].
  - split; [done|]. split.
    + intros j p Hp Hc. destruct (Hcase j p Hp) as [->| ->]; [injection Hp as <-; cbn; lia|done].
    + intros i j p q Hp Hq Hcp Hcq _. destruct (Hcase i p Hp) as [->| ->]; [|done]. by destruct (Hcase j q Hq) as [->| ->].
  - intros i p k Hp Hc Hs. destruct (Hcase i p Hp) as [->| ->]; [by injection Hp as <-|done].
  - intros i j H. by apply lookup_replicate_1 in H as [? _].
Qed.

Lemma procs_reachable_inv σ : reachable σ -> inv σ.
Proof. apply (rtc_ind_r inv); [apply procs_initial_inv|]. intros σ1 σ2 _ Hs Hi. by eapply procs_step_inv. Qed.

(** C9: No wakeup of [wait] is lost.  Whatever the processes do, one that is asleep in
    [wait] was not killed, has a child, and has none that has exited: [exit] wakes the
    parent, and the first process when it inherits an exited child. *)
Theorem waiting_parent σ i p k :
  reachable σ -> ps σ !! i = Some p -> p_state p = SLEEPING -> p_chan p = Some (ChProc k) ->
  k = i /\ p_killed p = false /\ (exists j q, ps σ !! j = Some q /\ child i q) /\
  forall j q, ps σ !! j = Some q -> child i q -> p_state q <> ZOMBIE.
Proof. intros Hr Hp Hs Hc. destruct (procs_reachable_inv σ Hr) as (_ & _ & _ & Hw & _). by apply (Hw i p k). Qed.

(** C10: The processes form a tree and have different pids.  Every process other than the
    first that runs, sleeps or has exited has a parent that has not exited, so that
    someone can wait for it; and no two processes have the same pid, as long as
    [nextpid] has not wrapped around. *)
Theorem process_tree σ :
  reachable σ ->
  (forall j p, ps σ !! j = Some p -> j <> 0%nat -> alive p \/ p_state p = ZOMBIE ->
     exists q pq, p_parent p = Some q /\ ps σ !! q = Some pq /\ alive pq) /\
  (forall i j p q, ps σ !! i = Some p -> ps σ !! j = Some q -> p_state p <> UNUSED -> p_state q <> UNUSED ->
     p_pid p = p_pid q -> i = j).
Proof.
  intros Hr. destruct (procs_reachable_inv σ Hr) as (_ & [_ Ht] & (_ & _ & Hu) & _). split.
  - intros j p Hp Hj Hl. specialize (Ht j p Hp).
    assert (exists q pq, p_parent p = Some q /\ ps σ !! q = Some pq /\ class pq = RUNNING /\ q <> j) as (q & pq & H1 & H2 & H3 & _)
      by (rewrite alive_class, zombie_class in Hl; destruct Hl as [E|E]; rewrite E in Ht; by destruct Ht).
    exists q, pq. by rewrite alive_class.
  - intros i j p q Hp Hq Hsp Hsq. assert (forall r, p_state r <> UNUSED -> class r <> UNUSED) as Hc by (intros r; unfold class; by destruct (p_state r)).
    apply (Hu i j p q Hp Hq); by apply Hc.
Qed.

(** The first process has forked a child and sleeps in [wait]. *)
Definition first_runs : proc := set_chan None (set_state RUNNING (set_state RUNNABLE (set_pid 1 proc0))).
Definition first_waits : sys :=
  mksys (mkptab (set_state SLEEPING (set_chan (Some (ChProc 0)) first_runs) ::
    set_state RUNNABLE (set_parent (Some 0%nat) (set_pid 2 (set_state EMBRYO proc0))) :: replicate 62 proc0) 3 (Some 0%nat)) (replicate NPROC None).
Lemma first_waits_reachable : reachable first_waits.
Proof.
  assert (forall f, runs (mksys (mkptab (first_runs :: replicate 63 proc0) 2 (Some 0%nat)) f) 0) as Hr1 by (intros f; by exists first_runs).
  eapply rtc_l; [by apply (step_run initial 0 (set_state RUNNABLE (set_pid 1 proc0)))|].
  eapply rtc_l; [by apply (step_alloc _ 0 1); [apply Hr1| | |reflexivity]|].
  eapply rtc_l; [by apply (step_ready _ 0 1); [exists first_runs| ]|].
  eapply rtc_l; [by apply (step_wait _ 0); [exists first_runs| ]|]. apply rtc_refl.
Qed.

Lemma waiting_parent_witness : exists σ i p k,
  reachable σ /\ ps σ !! i = Some p /\ p_state p = SLEEPING /\ p_chan p = Some (ChProc k) /\
  k = i /\ p_killed p = false /\ (exists j q, ps σ !! j = Some q /\ child i q) /\
  forall j q, ps σ !! j = Some q -> child i q -> p_state q <> ZOMBIE.
Proof.
  exists first_waits, 0%nat, (set_state SLEEPING (set_chan (Some (ChProc 0)) first_runs)), 0%nat.
  pose proof first_waits_reachable as Hr. do 4 (split; [done|]).
  exact (waiting_parent first_waits 0 (set_state SLEEPING (set_chan (Some (ChProc 0)) first_runs)) 0 Hr eq_refl eq_refl eq_refl).
Defined.

Lemma process_tree_witness : reachable first_waits /\
  (forall j p, ps first_waits !! j = Some p -> j <> 0%nat -> alive p \/ p_state p = ZOMBIE ->
     exists q pq, p_parent p = Some q /\ ps first_waits !! q = Some pq /\ alive pq) /\
  (forall i j p q, ps first_waits !! i = Some p -> ps first_waits !! j = Some q -> p_state p <> UNUSED -> p_state q <> UNUSED ->
     p_pid p = p_pid q -> i = j).
Proof. split; [exact first_waits_reachable|]. apply process_tree. exact first_waits_reachable. Defined.

(** ** [kill(0)] *)

Lemma first_slot_alter test (f : proc -> proc) l : forall i j,
  (forall p, test (f p) = test p) -> first_slot test (alter f j l) i = first_slot test l i.
Proof.
  induction l as [|p l IH]; intros i [|j] Hf; cbn; [done..|by rewrite Hf|]. destruct (test p); [done|]. by apply IH.
Qed.

(** [kill(0)] succeeds: it finds the first free slot of the table, whose pid is 0.  The
    mark it leaves there is not removed when the slot is taken: the process that is
    created next, in that slot, is ready to run and already killed. *)
Theorem kill_zero σ i j :
  runs σ i -> forking σ !! i = Some None -> nextpid (tab σ) < 2 ^ 31 - 1 ->
  first_slot (fun p => p_pid p =? 0) (ps σ) 0 = Some j -> first_slot (is_state UNUSED) (ps σ) 0 = Some j ->
  fst (kill 0 (ps σ)) = 0 /\ exists σ' p, rtc step σ σ' /\ ps σ' !! j = Some p /\
    p_state p = RUNNABLE /\ p_pid p = nextpid (tab σ) /\ p_parent p = Some i /\ p_killed p = true.
Proof.
  intros (pi & Hpi & Hrun & Hch) Hfi Hn Hz Hu. pose proof (first_slot_spec _ _ _ _ Hu) as (pj & _ & Hpj & Hst).
  rewrite Nat.sub_0_r in Hpj. apply bool_decide_eq_true_1 in Hst. assert (i <> j) as Hij by (intros ->; simplify_eq; congruence).
  pose proof (lookup_lt_Some _ _ _ Hfi) as Hlf.
  split; [unfold kill; by rewrite Hz|]. set (mark := fun p : proc => let p := set_killed true p in if is_state SLEEPING p then set_state RUNNABLE p else p).
  assert (snd (kill 0 (ps σ)) = alter mark j (ps σ)) as Hk by (unfold kill; by rewrite Hz).
  set (σ1 := with_procs σ (alter mark j (ps σ))). set (l2 := alter (fun p => set_pid (nextpid (tab σ)) (set_state EMBRYO p)) j (ps σ1)).
  set (σ2 := mksys (mkptab l2 (s32 (nextpid (tab σ) + 1)) (initproc (tab σ))) (<[i := Some j]> (forking σ))).
  assert (runs σ1 i) as Hr1 by (exists pi; by split; [apply lookup_alter_other|]).
  assert (runs σ2 i) as Hr2 by (exists pi; split; [by apply lookup_alter_other, lookup_alter_other|done]).
  assert (alloc_slot (tab σ1) = Some (j, tab σ2)) as Ha.
  { unfold alloc_slot. cbn [tab σ1 with_procs procs nextpid initproc]. rewrite first_slot_alter, Hu; [done|].
    intros p. unfold mark, is_state. cbn [p_state set_killed]. destruct (decide (p_state p = SLEEPING)) as [E|E].
    - rewrite (bool_decide_eq_true_2 _ E), E. done.
    - by rewrite (bool_decide_eq_false_2 _ E). }
  exists (mksys (tab (with_procs σ2 (alter (fun p => set_state RUNNABLE (set_parent (Some i) p)) j (ps σ2)))) (<[i := None]> (forking σ2))).
  eexists. split; [|split; [apply lookup_alter_at, lookup_alter_at, lookup_alter_at, Hpj|]].
  - eapply (rtc_l _ _ σ1); [unfold σ1; rewrite <- Hk; apply (step_kill σ i 0); by exists pi|].
    eapply rtc_l; [by apply (step_alloc σ1 i j (tab σ2))|].
    eapply rtc_l; [apply (step_ready σ2 i j); [done|by apply list_lookup_insert_eq]|]. apply rtc_refl.
  - split_and!; try done. unfold mark, is_state. cbn [p_state set_killed]. by rewrite Hst.
Qed.

Lemma kill_zero_witness :
  let σ := mksys (mkptab (first_runs :: replicate 63 proc0) 2 (Some 0%nat)) (replicate NPROC None) in
  fst (kill 0 (ps σ)) = 0 /\ exists σ' p, rtc step σ σ' /\ ps σ' !! 1%nat = Some p /\
    p_state p = RUNNABLE /\ p_pid p = 2 /\ p_parent p = Some 0%nat /\ p_killed p = true.
Proof. intros σ. apply (kill_zero σ 0 1); [by exists first_runs|done|done|reflexivity|reflexivity]. Defined.

End Proc.
