(* ===== verification/Entry.v ===== *)
(** * Entry to the kernel, return from it, and context switch

    The assembly code of vectors.S, trapasm.S, swtch.S, usys.S and initcode.S, on a machine of
    registers and memory with the instructions the code uses.  Memory is the word at each
    address of an aligned word; stack pointers are far from the ends of the address space.
    [trap], written in C, is a parameter; [interrupt] and [iret] are what the CPU does.

    Shown: whatever the interrupt, [trap] finds in its trap frame the registers of the
    interrupted program, the number of the interrupt and its error code; a program that is
    interrupted goes on as if nothing had happened, and a system call comes back with its
    result in %eax and nothing else changed; [swtch] comes back in the thread that called it,
    with its stack and its registers, when another thread switches to it. *)

From S2P Require Export Desc Proc.
Local Open Scope Z_scope.

Module Entry.
Import Desc Proc.

(** ** The machine *)

Inductive reg : Type :=
  | EAX | ECX | EDX | EBX | ESP | EBP | ESI | EDI
  | DS | ES | FS | GS | CS | SS | EIP | EFLAGS.
#[global] Instance reg_eq_dec : EqDecision reg.
Proof. solve_decision. Defined.

Record machine : Type := mkmachine { rg : reg -> Z; mw : Z -> Z }.

Definition set_reg (r : reg) (v : Z) (c : machine) : machine :=
  mkmachine (fun x => if decide (x = r) then v else rg c x) (mw c).
Definition set_word (a v : Z) (c : machine) : machine :=
  mkmachine (rg c) (fun x => if decide (x = a) then v else mw c x).

Definition push (v : Z) (c : machine) : machine :=
  let sp := rg c ESP - 4 in set_word sp v (set_reg ESP sp c).
(** The top of the stack. *)
Definition top (c : machine) : Z := mw c (rg c ESP).
Definition drop_words (n : Z) (c : machine) : machine := set_reg ESP (rg c ESP + 4 * n) c.

Inductive instr : Type :=
  | Push (r : reg) | PushI (v : Z) | Pop (r : reg) | PopSeg (r : reg) | Pushal | Popal
  | MovI (v : Z) (r : reg) | MovAx (v : Z) | MovSeg (r : reg) | Mov (src dst : reg)
  | Load (off : Z) (base dst : reg) | Store (src base : reg) | AddEsp (v : Z)
  | Call (f : machine -> machine) | Ret_ | Iret | Int (f : machine -> machine).

(** [pushal] pushes %esp as it was before. *)
Definition pushal (c : machine) : machine :=
  push (rg c EDI) (push (rg c ESI) (push (rg c EBP) (push (rg c ESP)
  (push (rg c EBX) (push (rg c EDX) (push (rg c ECX) (push (rg c EAX) c))))))).
(** [popal] skips the %esp pushed. *)
Definition popal (c : machine) : machine :=
  let sp := rg c ESP in
  set_reg ESP (sp + 32) (set_reg EAX (mw c (sp + 28)) (set_reg ECX (mw c (sp + 24)) (set_reg EDX (mw c (sp + 20))
  (set_reg EBX (mw c (sp + 16)) (set_reg EBP (mw c (sp + 8)) (set_reg ESI (mw c (sp + 4)) (set_reg EDI (mw c sp) c))))))).

(** Whether code of this selector is a user program's. *)
Definition user_cs (v : Z) : bool := v mod 4 =? 3.

(** The stack pointer and segment come back only when going to user code. *)
Definition iret (c : machine) : machine :=
  let sp := rg c ESP in
  let c1 := set_reg EFLAGS (mw c (sp + 8)) (set_reg CS (u16 (mw c (sp + 4))) (set_reg EIP (mw c sp) c)) in
  if user_cs (u16 (mw c (sp + 4)))
  then set_reg SS (u16 (mw c (sp + 16))) (set_reg ESP (mw c (sp + 12)) c1)
  else set_reg ESP (sp + 12) c1.

Definition step (i : instr) (c : machine) : machine :=
  match i with
  | Push r => push (rg c r) c
  | PushI v => push v c
  | Pop r => set_reg r (top c) (drop_words 1 c)
  | PopSeg r => set_reg r (u16 (top c)) (drop_words 1 c)
  | Pushal => pushal c
  | Popal => popal c
  | MovI v r => set_reg r v c
  | MovAx v => set_reg EAX (rg c EAX - u16 (rg c EAX) + v) c
  | MovSeg r => set_reg r (u16 (rg c EAX)) c
  | Mov src dst => set_reg dst (rg c src) c
  | Load off base dst => set_reg dst (mw c (rg c base + off)) c
  | Store src base => set_word (rg c base) (rg c src) c
  | AddEsp v => set_reg ESP (rg c ESP + v) c
  | Call f => f c
  | Ret_ => set_reg EIP (top c) (drop_words 1 c)
  | Iret => iret c
  | Int f => f c
  end.

Definition run (l : list instr) (c : machine) : machine := foldl (fun c i => step i c) c l.

(** ** What the CPU does on interrupt [n]

    From user code it changes to the stack [esp0] of the task state.  Some exceptions have
    an error code [e]. *)
Definition has_error (n : Z) : bool := ((n =? 8) || ((10 <=? n) && (n <=? 14)) || (n =? 17))%bool.

Definition interrupt (esp0 ss0 n e : Z) (c : machine) : machine :=
  let c1 := if user_cs (rg c CS)
            then push (rg c ESP) (push (rg c SS) (set_reg SS ss0 (set_reg ESP esp0 c))) else c in
  let c2 := push (rg c EIP) (push (rg c CS) (push (rg c EFLAGS) c1)) in
  let c3 := if has_error n then push e c2 else c2 in
  set_reg CS (Z.shiftl SEG_KCODE 3) c3.

(** ** vectors.S: [vector n] *)
Definition vector (n : Z) : list instr :=
  (if ((n =? 8) || ((10 <=? n) && (n <=? 14)) || (n =? 17))%bool then [] else [PushI 0]) ++ [PushI n].

(** ** trapasm.S *)

(** [alltraps] up to the call of [trap] *)
Definition build_frame : list instr :=
  [Push DS; Push ES; Push FS; Push GS; Pushal;
   MovAx (Z.shiftl SEG_KDATA 3); MovSeg DS; MovSeg ES;
   Push ESP].
Definition alltraps (trap : machine -> machine) : list instr := build_frame ++ [Call trap; AddEsp 4].
Definition trapret : list instr :=
  [Popal; PopSeg GS; PopSeg FS; PopSeg ES; PopSeg DS; AddEsp 8; Iret].

(** The whole path of an interrupt. *)
Definition handle (trap : machine -> machine) (esp0 ss0 n e : Z) (c : machine) : machine :=
  run (vector n ++ alltraps trap ++ trapret) (interrupt esp0 ss0 n e c).

(** [struct trapframe] at an address *)
Definition frame_at (m : Z -> Z) (a : Z) : trapframe :=
  mktf (m a) (m (a + 4)) (m (a + 8)) (m (a + 12)) (m (a + 16)) (m (a + 20)) (m (a + 24)) (m (a + 28))
    (u16 (m (a + 32))) (u16 (m (a + 36))) (u16 (m (a + 40))) (u16 (m (a + 44))) (m (a + 48))
    (m (a + 52)) (m (a + 56)) (u16 (m (a + 60))) (m (a + 64)) (m (a + 68)) (u16 (m (a + 72))).

(** ** swtch.S *)
Definition swtch : list instr :=
  [Load 4 ESP EAX; Load 8 ESP EDX;
   (* Save old callee-save registers *)
   Push EBP; Push EBX; Push ESI; Push EDI;
   (* Switch stacks *)
   Store ESP EAX; Mov EDX ESP;
   (* Load new callee-save registers *)
   Pop EDI; Pop ESI; Pop EBX; Pop EBP;
   Ret_].

(** ** usys.S and initcode.S; [sys] is what [int $T_SYSCALL] does *)
Definition SYSCALL (sys : machine -> machine) (n : Z) : list instr := [MovI n EAX; Int sys; Ret_].

(** syscall.h *)
Definition usys : list (string * Z) :=
  [("fork", 1); ("exit", 2); ("wait", 3); ("pipe", 4); ("read", 5); ("write", 16); ("close", 21); ("kill", 6);
   ("exec", 7); ("open", 15); ("mknod", 17); ("unlink", 18); ("fstat", 8); ("link", 19); ("mkdir", 20); ("chdir", 9);
   ("dup", 10); ("getpid", 11); ("sbrk", 12); ("sleep", 13); ("uptime", 14); ("date", 22); ("alarm", 23)]%string.

(** [start], up to the system call; [init] and [argv] are the addresses of the strings. *)
Definition start (init argv : Z) : list instr := [PushI argv; PushI init; PushI 0; MovI 7 EAX].

(** ** The stack *)

Definition pushes (l : list Z) (c : machine) : machine := foldl (fun c v => push v c) c l.

Lemma pushes_reg l : forall c r, r <> ESP -> rg (pushes l c) r = rg c r.
Proof.
  induction l as [|v l IH]; intros c r Hr; [done|]. cbn [pushes foldl]. fold (pushes l (push v c)). rewrite IH by done.
  unfold push. cbn. by rewrite decide_False.
Qed.

Lemma pushes_esp l : forall c, rg (pushes l c) ESP = rg c ESP - 4 * Z.of_nat (length l).
Proof.
  induction l as [|v l IH]; intros c; cbn [pushes foldl length]; [lia|]. fold (pushes l (push v c)). rewrite IH.
  cbn [push set_word set_reg rg]. rewrite decide_True by done. lia.
Qed.

(** The words pushed are in memory, the last one first; the rest is as it was. *)
Lemma pushes_mem l : forall c,
  (forall i v, reverse l !! i = Some v -> mw (pushes l c) (rg c ESP - 4 * Z.of_nat (length l) + 4 * Z.of_nat i) = v) /\
  (forall a, rg c ESP <= a \/ a < rg c ESP - 4 * Z.of_nat (length l) -> mw (pushes l c) a = mw c a).
Proof.
  induction l as [|v l IH]; intros c; cbn [pushes foldl length].
  - split; [|done]. intros i w Hi. change (reverse (@nil Z)) with (@nil Z) in Hi. by rewrite lookup_nil in Hi.
  - fold (pushes l (push v c)). destruct (IH (push v c)) as [H1 H2]. cbn [rg push set_word set_reg] in H1, H2.
    rewrite decide_True in H1, H2 by done. split.
    + intros i w. rewrite reverse_cons. intros [Hi|[Hi Hw]]%lookup_app_Some.
      * replace (rg c ESP - 4 * Z.of_nat (S (length l)) + 4 * Z.of_nat i) with (rg c ESP - 4 - 4 * Z.of_nat (length l) + 4 * Z.of_nat i) by lia.
        by apply H1.
      * rewrite length_reverse in *. apply list_lookup_singleton_Some in Hw as [Hi0 ->].
        rewrite H2 by lia. cbn [mw push set_word]. rewrite decide_True; [done|]. lia.
    + intros a Ha. rewrite H2 by (clear - Ha; lia). cbn [mw push set_word]. rewrite decide_False by lia. done.
Qed.

Lemma run_app l1 l2 c : run (l1 ++ l2) c = run l2 (run l1 c).
Proof. unfold run. by rewrite foldl_app. Qed.

(** ** The trap frame *)

(** Where the CPU starts pushing. *)
Definition base (esp0 ss0 : Z) (c : machine) : machine :=
  if user_cs (rg c CS) then set_reg SS ss0 (set_reg ESP esp0 c) else c.

(** The words of the frame in the order in which they are pushed. *)
Definition words (oesp n e : Z) (c : machine) : list Z :=
  (if user_cs (rg c CS) then [rg c SS; rg c ESP] else []) ++
  [rg c EFLAGS; rg c CS; rg c EIP; (if has_error n then e else 0); n; rg c DS; rg c ES; rg c FS; rg c GS;
   rg c EAX; rg c ECX; rg c EDX; rg c EBX; oesp; rg c EBP; rg c ESI; rg c EDI].

(** The frame of [c]; [x] and [y] are the words above it. *)
Definition frame_of (oesp n e x y : Z) (c : machine) : trapframe :=
  mktf (rg c EDI) (rg c ESI) (rg c EBP) oesp (rg c EBX) (rg c EDX) (rg c ECX) (rg c EAX)
    (rg c GS) (rg c FS) (rg c ES) (rg c DS) n (if has_error n then e else 0) (rg c EIP) (rg c CS) (rg c EFLAGS) x y.

Definition segs_ok (c : machine) : Prop :=
  forall r, r ∈ [DS; ES; FS; GS; CS; SS] -> 0 <= rg c r < 65536.

(** The state in which [trap] is called. *)
Definition at_trap (esp0 ss0 n e : Z) (c : machine) : machine := run (vector n ++ build_frame) (interrupt esp0 ss0 n e c).

Lemma push_reg v c r : r <> ESP -> rg (push v c) r = rg c r.
Proof. intros H. cbn [push set_word set_reg rg]. by rewrite decide_False. Qed.

Lemma push_esp v c : rg (push v c) ESP = rg c ESP - 4.
Proof. cbn [push set_word set_reg rg]. by rewrite decide_True. Qed.

(** The same stack. *)
Definition agree (c c' : machine) : Prop := mw c = mw c' /\ rg c ESP = rg c' ESP.

Lemma agree_trans c1 c2 c3 : agree c1 c2 -> agree c2 c3 -> agree c1 c3.
Proof. intros [H1 H2] [H3 H4]. split; congruence. Qed.

Lemma agree_push c c' : agree c c' -> agree (push (rg c ESP) c) (push (rg c' ESP) c').
Proof. intros [Hm Hs]. split; [cbn [push set_word set_reg mw]; by rewrite Hm, Hs|by rewrite !push_esp, Hs]. Qed.

Lemma agree_pushes l : forall c c', agree c c' -> agree (pushes l c) (pushes l c').
Proof.
  induction l as [|v l IH]; intros c c' [Hm Hs]; [done|]. cbn [pushes foldl]. apply (IH (push v c) (push v c')).
  split; [cbn [push set_word set_reg mw]; by rewrite Hm, Hs|by rewrite !push_esp, Hs].
Qed.

Lemma pushes_app l1 l2 c : pushes (l1 ++ l2) c = pushes l2 (pushes l1 c).
Proof. unfold pushes. by rewrite foldl_app. Qed.

Lemma save_regs c :
  run [Push DS; Push ES; Push FS; Push GS; Pushal] c =
  pushes [rg c DS; rg c ES; rg c FS; rg c GS; rg c EAX; rg c ECX; rg c EDX; rg c EBX; rg c ESP - 4 - 4 - 4 - 4;
          rg c EBP; rg c ESI; rg c EDI] c.
Proof.
  cbn [run foldl step]. rewrite !push_reg by done. unfold pushal. rewrite !push_reg by done. by rewrite !push_esp.
Qed.

Lemma kernel_segs d :
  let c := run [MovAx (Z.shiftl SEG_KDATA 3); MovSeg DS; MovSeg ES; Push ESP] d in
  agree c (push (rg d ESP) d) /\ rg c SS = rg d SS /\ forall r, r ∈ [DS; ES] -> rg c r = Z.shiftl SEG_KDATA 3.
Proof.
  split; [done|]. split; [done|]. assert (u16 (rg d EAX - u16 (rg d EAX) + Z.shiftl SEG_KDATA 3) = Z.shiftl SEG_KDATA 3) as Hu.
  { unfold u16. change (2 ^ 16) with 65536. generalize (rg d EAX). intros x.
    replace (x - x mod 65536) with (x / 65536 * 65536) by (pose proof (Z.div_mod x 65536); lia). by rewrite Z.add_comm, Z.mod_add. }
  intros r [->|[->|[]%elem_of_nil]%elem_of_cons]%elem_of_cons; exact Hu.
Qed.

(** The words the CPU and the vector push. *)
Definition hw_words (n e : Z) (c : machine) : list Z :=
  (if user_cs (rg c CS) then [rg c SS; rg c ESP] else []) ++
  [rg c EFLAGS; rg c CS; rg c EIP; (if has_error n then e else 0); n].

Lemma enter_vector esp0 ss0 n e c :
  let d := run (vector n) (interrupt esp0 ss0 n e c) in
  agree d (pushes (hw_words n e c) (base esp0 ss0 c)) /\ forall r, r ∉ [ESP; SS; CS] -> rg d r = rg c r.
Proof.
  unfold interrupt, vector, base, hw_words. fold (has_error n).
  destruct (user_cs (rg c CS)), (has_error n); (split; [done|]); intros r Hr; cbn [app run foldl step push set_word set_reg rg];
    rewrite !decide_False by set_solver; done.
Qed.

Lemma at_trap_mem esp0 ss0 n e c :
  exists oesp, let b := pushes (words oesp n e c) (base esp0 ss0 c) in
    agree (at_trap esp0 ss0 n e c) (push (rg b ESP) b) /\
    forall r, r ∈ [DS; ES] -> rg (at_trap esp0 ss0 n e c) r = Z.shiftl SEG_KDATA 3.
Proof.
  destruct (enter_vector esp0 ss0 n e c) as [Ha Hr]. set (d := run (vector n) _) in *.
  exists (rg d ESP - 4 - 4 - 4 - 4). set (oesp := _ - 4).
  unfold at_trap. rewrite run_app. fold d.
  change build_frame with ([Push DS; Push ES; Push FS; Push GS; Pushal] ++ [MovAx (Z.shiftl SEG_KDATA 3); MovSeg DS; MovSeg ES; Push ESP]).
  rewrite run_app, save_regs. fold oesp. rewrite !Hr by set_solver.
  set (l := [_; _; _; _; _; _; _; _; _; _; _; _]).
  assert (words oesp n e c = hw_words n e c ++ l) as -> by (unfold words, hw_words; by rewrite <- app_assoc).
  rewrite pushes_app. destruct (kernel_segs (pushes l d)) as (Ha2 & _ & Hseg). split; [|exact Hseg].
  eapply agree_trans; [exact Ha2|]. apply agree_push, agree_pushes, Ha.
Qed.

Lemma frame_words esp0 ss0 n e c oesp :
  segs_ok c ->
  let b := pushes (words oesp n e c) (base esp0 ss0 c) in
  exists x y, frame_at (mw b) (rg b ESP) = frame_of oesp n e x y c /\
    (user_cs (rg c CS) = true -> x = rg c ESP /\ y = rg c SS).
Proof.
  intros Hs b. assert (forall r, r ∈ [DS; ES; FS; GS; CS; SS] -> u16 (rg c r) = rg c r) as Hu.
  { intros r Hr. unfold u16. apply Z.mod_small. by apply Hs. }
  assert (forall i v, reverse (words oesp n e c) !! i = Some v -> mw b (rg b ESP + 4 * Z.of_nat i) = v) as Hm.
  { intros i v Hi. unfold b. rewrite pushes_esp. by apply pushes_mem. }
  set (a := rg b ESP) in *. unfold frame_at, frame_of.
  assert (forall k i v, k = 4 * Z.of_nat i -> reverse (words oesp n e c) !! i = Some v -> mw b (a + k) = v) as Hk by (intros k i v ->; apply Hm).
  assert (mw b a = rg c EDI) as H0.
  { rewrite <- (Z.add_0_r a). apply (Hk 0 0%nat); [done|]. unfold words. by destruct (user_cs (rg c CS)). }
  rewrite H0.
  rewrite (Hk 4 1%nat (rg c ESI)), (Hk 8 2%nat (rg c EBP)), (Hk 12 3%nat oesp), (Hk 16 4%nat (rg c EBX)), (Hk 20 5%nat (rg c EDX)),
    (Hk 24 6%nat (rg c ECX)), (Hk 28 7%nat (rg c EAX)), (Hk 32 8%nat (rg c GS)), (Hk 36 9%nat (rg c FS)), (Hk 40 10%nat (rg c ES)),
    (Hk 44 11%nat (rg c DS)), (Hk 48 12%nat n), (Hk 52 13%nat (if has_error n then e else 0)), (Hk 56 14%nat (rg c EIP)),
    (Hk 60 15%nat (rg c CS)), (Hk 64 16%nat (rg c EFLAGS)); try done; try (unfold words; by destruct (user_cs (rg c CS))).
  rewrite !Hu by set_solver. eexists _, _. split; [reflexivity|]. intros Huser.
  assert (words oesp n e c = [rg c SS; rg c ESP] ++ drop 2 (words oesp n e c)) as Hw by (unfold words; by rewrite Huser).
  split; [apply (Hk 68 17%nat); [done|]|].
  - unfold words. by rewrite Huser.
  - rewrite (Hk 72 18%nat (rg c SS)); [apply Hu; set_solver|done|]. unfold words. by rewrite Huser.
Qed.

(** Pushing a word leaves the frame as it is. *)
Lemma frame_push b v : frame_at (mw (push v b)) (rg b ESP) = frame_at (mw b) (rg b ESP).
Proof.
  assert (forall k, 0 <= k -> mw (push v b) (rg b ESP + k) = mw b (rg b ESP + k)) as H.
  { intros k Hk. cbn. rewrite decide_False by lia. done. }
  unfold frame_at. rewrite <- (Z.add_0_r (rg b ESP)) at 1. rewrite (H 0), !H by lia. by rewrite Z.add_0_r.
Qed.

(** What [trap] finds. *)
Lemma at_trap_frame esp0 ss0 n e c :
  segs_ok c ->
  let c1 := at_trap esp0 ss0 n e c in
  top c1 = rg c1 ESP + 4 /\ (forall r, r ∈ [DS; ES] -> rg c1 r = Z.shiftl SEG_KDATA 3) /\
  exists oesp x y, frame_at (mw c1) (top c1) = frame_of oesp n e x y c /\
    (user_cs (rg c CS) = true -> x = rg c ESP /\ y = rg c SS) /\
    top c1 = rg (base esp0 ss0 c) ESP - 4 * Z.of_nat (length (words oesp n e c)).
Proof.
  intros Hs c1. destruct (at_trap_mem esp0 ss0 n e c) as (oesp & [Hm Hsp] & Hseg). fold c1 in Hm, Hsp, Hseg.
  destruct (frame_words esp0 ss0 n e c oesp Hs) as (x & y & Hf & Hu). set (b := pushes _ _) in *. rewrite push_esp in Hsp.
  assert (top c1 = rg b ESP) as Ht by (unfold top; rewrite Hm, Hsp; cbn; by rewrite decide_True).
  split; [rewrite Ht, Hsp; lia|]. split; [done|]. exists oesp, x, y. rewrite Ht, Hm, frame_push. split; [done|]. split; [done|].
  unfold b. apply pushes_esp.
Qed.

(** ** Coming back *)

(** A register that is not in a list of others. *)
Ltac not_listed := let H := fresh in intros H; repeat (apply elem_of_cons in H as [H|H]; [discriminate|]); by apply elem_of_nil in H.

Lemma pop_segs d :
  let c := run [PopSeg GS; PopSeg FS; PopSeg ES; PopSeg DS; AddEsp 8] d in let sp := rg d ESP in
  mw c = mw d /\ rg c ESP = sp + 24 /\ rg c GS = u16 (mw d sp) /\ rg c FS = u16 (mw d (sp + 4)) /\
  rg c ES = u16 (mw d (sp + 8)) /\ rg c DS = u16 (mw d (sp + 12)) /\
  forall r, r ∉ [ESP; GS; FS; ES; DS] -> rg c r = rg d r.
Proof.
  set (sp := rg d ESP). cbn [run foldl step top drop_words set_reg rg mw].
  split; [done|]. split; [change (sp + 4 + 4 + 4 + 4 + 8 = sp + 24); lia|].
  split; [done|]. split; [done|]. split; [change (u16 (mw d (sp + 4 + 4)) = u16 (mw d (sp + 8))); do 2 f_equal; lia|].
  split; [change (u16 (mw d (sp + 4 + 4 + 4)) = u16 (mw d (sp + 12))); do 2 f_equal; lia|].
  intros r Hr. rewrite !decide_False by set_solver. done.
Qed.

Lemma popal_regs c :
  let d := popal c in let sp := rg c ESP in
  mw d = mw c /\ rg d ESP = sp + 32 /\ rg d EDI = mw c sp /\ rg d ESI = mw c (sp + 4) /\ rg d EBP = mw c (sp + 8) /\
  rg d EBX = mw c (sp + 16) /\ rg d EDX = mw c (sp + 20) /\ rg d ECX = mw c (sp + 24) /\ rg d EAX = mw c (sp + 28) /\
  forall r, r ∈ [DS; ES; FS; GS; CS; SS; EIP; EFLAGS] -> rg d r = rg c r.
Proof.
  split_and!; try done. intros r Hr. cbn [popal set_reg rg]. rewrite !decide_False by set_solver. done.
Qed.

Lemma iret_regs c :
  let d := iret c in let sp := rg c ESP in
  rg d EIP = mw c sp /\ rg d CS = u16 (mw c (sp + 4)) /\ rg d EFLAGS = mw c (sp + 8) /\
  (if user_cs (u16 (mw c (sp + 4))) then rg d ESP = mw c (sp + 12) /\ rg d SS = u16 (mw c (sp + 16))
   else rg d ESP = sp + 12 /\ rg d SS = rg c SS) /\
  rg d EDI = rg c EDI /\ rg d ESI = rg c ESI /\ rg d EBP = rg c EBP /\ rg d EBX = rg c EBX /\ rg d EDX = rg c EDX /\
  rg d ECX = rg c ECX /\ rg d EAX = rg c EAX /\ rg d GS = rg c GS /\ rg d FS = rg c FS /\ rg d ES = rg c ES /\ rg d DS = rg c DS.
Proof. unfold iret. destruct (user_cs (u16 (mw c (rg c ESP + 4)))); by split_and!. Qed.

(** The registers that a frame at the top of the stack restores. *)
Lemma trapret_restores c :
  let f := frame_at (mw c) (rg c ESP) in let c' := run trapret c in
  rg c' EDI = edi f /\ rg c' ESI = esi f /\ rg c' EBP = ebp f /\ rg c' EBX = ebx f /\ rg c' EDX = edx f /\
  rg c' ECX = ecx f /\ rg c' EAX = eax f /\ rg c' GS = gs f /\ rg c' FS = fs f /\ rg c' ES = es f /\ rg c' DS = ds f /\
  rg c' EIP = eip f /\ rg c' CS = cs f /\ rg c' EFLAGS = eflags f /\
  (if user_cs (cs f) then rg c' ESP = esp f /\ rg c' SS = ss f else rg c' ESP = rg c ESP + 68 /\ rg c' SS = rg c SS).
Proof.
  cbv zeta. change trapret with ([Popal] ++ [PopSeg GS; PopSeg FS; PopSeg ES; PopSeg DS; AddEsp 8] ++ [Iret]). rewrite !run_app.
  change (run [Popal] c) with (popal c). destruct (popal_regs c) as (Pm & Psp & P1 & P2 & P3 & P4 & P5 & P6 & P7 & Pr). set (d := popal c) in *.
  destruct (pop_segs d) as (Qm & Qsp & Q1 & Q2 & Q3 & Q4 & Qr). set (d2 := run _ d) in *. rewrite Psp, Pm in *.
  change (run [Iret] d2) with (iret d2).
  destruct (iret_regs d2) as (I1 & I2 & I3 & I4 & I5 & I6 & I7 & I8 & I9 & I10 & I11 & I12 & I13 & I14 & I15).
  rewrite (Qr EDI) in I5 by not_listed. rewrite (Qr ESI) in I6 by not_listed. rewrite (Qr EBP) in I7 by not_listed.
  rewrite (Qr EBX) in I8 by not_listed. rewrite (Qr EDX) in I9 by not_listed. rewrite (Qr ECX) in I10 by not_listed.
  rewrite (Qr EAX) in I11 by not_listed.
  rewrite (Qr SS) in I4 by not_listed. rewrite (Pr SS) in I4 by (do 5 (apply elem_of_cons; right); apply elem_of_cons; by left).
  rewrite Qsp, Qm in *. set (sp := rg c ESP) in *.
  replace (sp + 32 + 24 + 4) with (sp + 60) in * by lia. replace (sp + 32 + 24 + 8) with (sp + 64) in * by lia.
  replace (sp + 32 + 24 + 12) with (sp + 68) in * by lia. replace (sp + 32 + 24 + 16) with (sp + 72) in * by lia.
  replace (sp + 32 + 24) with (sp + 56) in * by lia. replace (sp + 32 + 4) with (sp + 36) in * by lia.
  replace (sp + 32 + 8) with (sp + 40) in * by lia. replace (sp + 32 + 12) with (sp + 44) in * by lia.
  cbn [frame_at edi esi ebp ebx edx ecx eax gs fs es ds eip cs eflags esp ss].
  clearbody d d2. split_and!; congruence || exact I4.
Qed.

(** [trap] keeps to the C calling convention. *)
Definition cdecl (trap : machine -> machine) : Prop :=
  forall c1, rg (trap c1) ESP = rg c1 ESP /\ rg (trap c1) SS = rg c1 SS.

(** [trap] changes nothing of its frame but %eax, which it sets to [v]. *)
Definition returns (trap : machine -> machine) (v : Z) (c1 : machine) : Prop :=
  frame_at (mw (trap c1)) (top c1) = set_eax v (frame_at (mw c1) (top c1)).

Lemma at_trap_ss esp0 ss0 n e c : user_cs (rg c CS) = false -> rg (at_trap esp0 ss0 n e c) SS = rg c SS.
Proof.
  intros Hu. unfold at_trap. rewrite run_app. set (d := run (vector n) _).
  assert (rg d SS = rg c SS) as Hd.
  { unfold d, interrupt, vector. fold (has_error n). rewrite Hu. destruct (has_error n); done. }
  rewrite <- Hd. change build_frame with ([Push DS; Push ES; Push FS; Push GS; Pushal] ++ [MovAx (Z.shiftl SEG_KDATA 3); MovSeg DS; MovSeg ES; Push ESP]).
  rewrite run_app, save_regs. set (l := [_; _; _; _; _; _; _; _; _; _; _; _]).
  destruct (kernel_segs (pushes l d)) as (_ & -> & _). by apply pushes_reg.
Qed.

Lemma handle_returns trap esp0 ss0 n e c v :
  segs_ok c -> cdecl trap -> returns trap v (at_trap esp0 ss0 n e c) ->
  forall r, rg (handle trap esp0 ss0 n e c) r = if decide (r = EAX) then v else rg c r.
Proof.
  intros Hs Hc Hret r. unfold handle. unfold alltraps. rewrite <- app_assoc, app_assoc, run_app.
  fold (at_trap esp0 ss0 n e c). destruct (at_trap_frame esp0 ss0 n e c Hs) as (Ht & _ & oesp & x & y & Hf & Hu & Htop).
  pose proof (at_trap_ss esp0 ss0 n e c) as Hss. unfold returns in Hret. set (c1 := at_trap esp0 ss0 n e c) in *. rewrite run_app.
  change (run [Call trap; AddEsp 4] c1) with (set_reg ESP (rg (trap c1) ESP + 4) (trap c1)).
  destruct (Hc c1) as [Hsp2 Hss2]. set (c2 := set_reg ESP _ _).
  assert (rg c2 ESP = top c1) as E2 by (unfold c2; cbn [set_reg rg]; rewrite decide_True, Hsp2, Ht by done; done).
  assert (rg c2 SS = rg (trap c1) SS) as E3 by done.
  assert (frame_at (mw c2) (rg c2 ESP) = set_eax v (frame_of oesp n e x y c)) as E4 by (rewrite E2, <- Hf; exact Hret).
  pose proof (trapret_restores c2) as H. rewrite E4 in H. clearbody c2.
  destruct H as (R1 & R2 & R3 & R4 & R5 & R6 & R7 & R8 & R9 & R10 & R11 & R12 & R13 & R14 & R15).
  cbn [set_eax frame_of edi esi ebp ebx edx ecx eax gs fs es ds trapno err eip cs eflags esp ss] in *.
  assert (rg (run trapret c2) ESP = rg c ESP /\ rg (run trapret c2) SS = rg c SS) as [R16 R17].
  { destruct (user_cs (rg c CS)) eqn:Eu.
    - destruct (Hu eq_refl) as [-> ->]. done.
    - destruct R15 as [-> ->]. rewrite E2, Htop, E3, Hss2, Hss by done. unfold base, words. rewrite Eu. cbn [app length]. split; [lia|done]. }
  destruct r; [rewrite decide_True by done|rewrite decide_False by done..]; congruence.
Qed.

(** C14: An interrupt or system call [n], from user or kernel code: [trap] is given a frame with
    all registers of the interrupted program, the number, and the error code, or zero when the
    CPU has none; and when [trap] leaves in the frame what it found, but for a value [v] of
    %eax, the program goes on with all its registers as they were and [v] in %eax.  This holds
    of all 256 vectors, whether or not the CPU pushes an error code. *)
Theorem trap_transparent trap esp0 ss0 n e c v :
  segs_ok c -> cdecl trap -> returns trap v (at_trap esp0 ss0 n e c) ->
  (let c1 := at_trap esp0 ss0 n e c in
   exists oesp x y, frame_at (mw c1) (top c1) = frame_of oesp n e x y c /\
     (user_cs (rg c CS) = true -> x = rg c ESP /\ y = rg c SS)) /\
  forall r, rg (handle trap esp0 ss0 n e c) r = if decide (r = EAX) then v else rg c r.
Proof.
  intros Hs Hc Hr. split; [|by apply handle_returns].
  destruct (at_trap_frame esp0 ss0 n e c Hs) as (_ & _ & oesp & x & y & Hf & Hu & _). by exists oesp, x, y.
Qed.

(** ** System calls *)

Lemma trapret_mem c : mw (run trapret c) = mw c.
Proof.
  change trapret with ([Popal] ++ [PopSeg GS; PopSeg FS; PopSeg ES; PopSeg DS; AddEsp 8] ++ [Iret]). rewrite !run_app.
  change (run [Popal] c) with (popal c). destruct (popal_regs c) as (Pm & _). set (d := popal c) in *.
  destruct (pop_segs d) as (Qm & _). set (d2 := run _ d) in *. rewrite <- Pm, <- Qm. clearbody d2.
  change (run [Iret] d2) with (iret d2). unfold iret. by destruct (user_cs _).
Qed.

(** Memory below the kernel stack is as the program left it when [trap] is called. *)
Lemma at_trap_below esp0 ss0 n e c a :
  user_cs (rg c CS) = true -> a < esp0 - 80 -> mw (at_trap esp0 ss0 n e c) a = mw c a.
Proof.
  intros Hu Ha. destruct (at_trap_mem esp0 ss0 n e c) as (oesp & [Hm _] & _). rewrite Hm.
  assert (rg (base esp0 ss0 c) ESP = esp0) as Hb by (unfold base; rewrite Hu; done).
  assert (length (words oesp n e c) = 19%nat) as Hl by (unfold words; by rewrite Hu).
  cbn [mw push set_word set_reg]. rewrite pushes_esp, Hb, Hl, decide_False by lia.
  destruct (pushes_mem (words oesp n e c) (base esp0 ss0 c)) as [_ H]. rewrite H by (rewrite Hb, Hl; lia).
  unfold base. by rewrite Hu.
Qed.

(** C34: The stub of a system call in the user library, called with the return address on top of
    the user's stack: the kernel finds the number of the call in %eax of the frame, and the
    caller goes on after the call with the result in %eax, the return address popped, and every
    other register as it was. *)
Theorem syscall_stub trap esp0 ss0 num c v :
  let c0 := set_reg EAX num c in let c1 := at_trap esp0 ss0 64 0 c0 in
  segs_ok c -> user_cs (rg c CS) = true -> rg c ESP < esp0 - 80 -> cdecl trap ->
  returns trap v c1 -> mw (trap c1) (rg c ESP) = mw c1 (rg c ESP) ->
  eax (frame_at (mw c1) (top c1)) = num /\
  let c' := run (SYSCALL (handle trap esp0 ss0 64 0) num) c in
  rg c' EAX = v /\ rg c' EIP = mw c (rg c ESP) /\ rg c' ESP = rg c ESP + 4 /\
  forall r, r ∉ [EAX; EIP; ESP] -> rg c' r = rg c r.
Proof.
  intros c0 c1 Hs Hu Hsp Hc Hr Hk.
  assert (segs_ok c0) as Hs0.
  { intros r Hin. unfold c0. cbn [set_reg rg]. rewrite decide_False; [by apply Hs|]. intros ->. revert Hin. not_listed. }
  destruct (at_trap_frame esp0 ss0 64 0 c0 Hs0) as (_ & _ & oesp & x & y & Hf & _ & _). fold c1 in Hf.
  split; [by rewrite Hf|]. pose proof (handle_returns trap esp0 ss0 64 0 c0 v Hs0 Hc Hr) as Hh.
  assert (mw (handle trap esp0 ss0 64 0 c0) (rg c ESP) = mw c (rg c ESP)) as Hm.
  { unfold handle, alltraps. rewrite <- app_assoc, app_assoc, run_app. fold (at_trap esp0 ss0 64 0 c0). fold c1. rewrite run_app, trapret_mem.
    change (mw (run [Call trap; AddEsp 4] c1)) with (mw (trap c1)). rewrite Hk. unfold c1. by rewrite at_trap_below. }
  change (run (SYSCALL (handle trap esp0 ss0 64 0) num) c) with (step Ret_ (handle trap esp0 ss0 64 0 c0)).
  set (h := handle _ _ _ _ _ _) in *. clearbody h. cbv zeta. cbn [step top drop_words set_reg rg mw].
  assert (rg h ESP = rg c ESP) as He by (rewrite Hh; done).
  split; [rewrite !decide_False by done; by rewrite Hh|]. split; [rewrite decide_True by done; unfold top; rewrite He; exact Hm|].
  split; [rewrite decide_False, decide_True by done; rewrite He; lia|].
  intros r Hn. rewrite !elem_of_cons in Hn. rewrite !decide_False by (intros ->; tauto). rewrite Hh. unfold c0. cbn [set_reg rg].
  rewrite !decide_False by (intros ->; tauto). done.
Qed.

(** ** [swtch] *)

(** The first half: the thread saves its registers on its stack, and where they are. *)
Lemma swtch_saves c :
  let sp := rg c ESP in let old := mw c (sp + 4) in
  let c1 := run (take 7 swtch) c in
  (old < sp - 16 \/ sp + 4 <= old) ->
  mw c1 old = sp - 16 /\ mw c1 (sp - 16) = rg c EDI /\ mw c1 (sp - 12) = rg c ESI /\ mw c1 (sp - 8) = rg c EBX /\
  mw c1 (sp - 4) = rg c EBP /\ mw c1 sp = mw c sp /\ rg c1 EDX = mw c (sp + 8) /\
  forall a, a < sp - 16 \/ sp <= a -> a <> old -> mw c1 a = mw c a.
Proof.
  intros sp old c1 Hold. unfold c1, swtch. cbn [take run foldl step].
  set (c0 := set_reg EDX _ _).
  assert (forall r, r <> EAX -> r <> EDX -> rg c0 r = rg c r) as Hr by (intros r H1 H2; unfold c0; cbn [set_reg rg]; by rewrite !decide_False).
  assert (rg c0 EAX = old) as Ha by done. assert (rg c0 EDX = mw c (sp + 8)) as Hd by done. assert (mw c0 = mw c) as Hm0 by done. clearbody c0.
  rewrite !(push_reg _ _ EBX), !(push_reg _ _ ESI), !(push_reg _ _ EDI) by done. change (push (rg c0 EDI) (push (rg c0 ESI) (push (rg c0 EBX) (push (rg c0 EBP) c0))))
    with (pushes [rg c0 EBP; rg c0 EBX; rg c0 ESI; rg c0 EDI] c0).
  set (d := pushes _ c0). assert (rg d ESP = sp - 16) as Hsp by (unfold d; rewrite pushes_esp, Hr by done; done).
  assert (rg d EAX = old) as Had by (unfold d; by rewrite pushes_reg). assert (rg d EDX = mw c (sp + 8)) as Hdd by (unfold d; by rewrite pushes_reg).
  destruct (pushes_mem [rg c0 EBP; rg c0 EBX; rg c0 ESI; rg c0 EDI] c0) as [H1 H2]. fold d in H1, H2.
  rewrite (Hr ESP), (Hr EBP), (Hr EBX), (Hr ESI), (Hr EDI) in * by done. fold sp in H1, H2. cbn [length] in H1, H2.
  cbn [set_word mw rg]. rewrite Had, Hsp, Hdd.
  pose proof (H1 0%nat _ eq_refl) as W0. pose proof (H1 1%nat _ eq_refl) as W1. pose proof (H1 2%nat _ eq_refl) as W2. pose proof (H1 3%nat _ eq_refl) as W3.
  cbv beta in W0, W1, W2, W3. replace (sp - 4 * Z.of_nat 4 + 4 * Z.of_nat 0) with (sp - 16) in W0 by lia.
  replace (sp - 4 * Z.of_nat 4 + 4 * Z.of_nat 1) with (sp - 12) in W1 by lia. replace (sp - 4 * Z.of_nat 4 + 4 * Z.of_nat 2) with (sp - 8) in W2 by lia.
  replace (sp - 4 * Z.of_nat 4 + 4 * Z.of_nat 3) with (sp - 4) in W3 by lia.
  rewrite decide_True by done. rewrite !decide_False by lia. rewrite W0, W1, W2, W3, H2, Hm0 by lia.
  split_and!; try done. intros a Ha' Hne. rewrite decide_False by done. rewrite H2, Hm0 by lia. done.
Qed.

(** The second half: the registers saved at %edx come back. *)
Lemma swtch_loads c :
  let sp := rg c EDX in let c1 := run (drop 7 swtch) c in
  rg c1 EDI = mw c sp /\ rg c1 ESI = mw c (sp + 4) /\ rg c1 EBX = mw c (sp + 8) /\ rg c1 EBP = mw c (sp + 12) /\
  rg c1 EIP = mw c (sp + 16) /\ rg c1 ESP = sp + 20 /\ mw c1 = mw c.
Proof.
  intros sp c1. unfold c1, swtch. cbn [drop run foldl step top drop_words set_reg rg mw].
  split; [done|]. split; [change (mw c (sp + 4) = mw c (sp + 4)); done|].
  split; [change (mw c (sp + 4 + 4) = mw c (sp + 8)); f_equal; lia|].
  split; [change (mw c (sp + 4 + 4 + 4) = mw c (sp + 12)); f_equal; lia|].
  split; [change (mw c (sp + 4 + 4 + 4 + 4) = mw c (sp + 16)); f_equal; lia|].
  split; [change (sp + 4 + 4 + 4 + 4 + 4 = sp + 20); lia|done].
Qed.

(** C15: A thread that calls [swtch(&a, b)], in state [c], goes on after the call when another
    thread, in state [c2], calls [swtch(&a', a)] with the context the first has saved: with its
    stack, its return address and its saved registers, whatever the other threads have done, if
    they have left its stack alone. *)
Theorem swtch_resumes c c2 :
  let sp := rg c ESP in let old := mw c (sp + 4) in let sp2 := rg c2 ESP in let old2 := mw c2 (sp2 + 4) in
  let c1 := run (take 7 swtch) c in
  (old < sp - 16 \/ sp + 4 <= old) ->  (* where the contexts are kept is not on the stacks *)
  (old2 < sp2 - 16 \/ sp2 + 4 <= old2) -> (old2 < sp - 16 \/ sp + 4 <= old2) ->
  (sp2 <= sp - 16 \/ sp + 4 <= sp2 - 16) ->  (* the stacks are apart *)
  (forall a, sp - 16 <= a < sp + 4 -> mw c2 a = mw c1 a) ->
  mw c2 (sp2 + 8) = mw c1 old ->
  let c3 := run swtch c2 in
  rg c3 EIP = mw c sp /\ rg c3 ESP = sp + 4 /\ rg c3 EBP = rg c EBP /\ rg c3 EBX = rg c EBX /\ rg c3 ESI = rg c ESI /\
  rg c3 EDI = rg c EDI /\ mw c3 old2 = sp2 - 16.
Proof.
  intros sp old sp2 old2 c1 H1 H2 H3 H4 Hkeep Harg c3.
  destruct (swtch_saves c H1) as (S0 & S1 & S2 & S3 & S4 & S5 & _ & _). fold c1 sp old in S0, S1, S2, S3, S4, S5.
  destruct (swtch_saves c2 H2) as (T0 & _ & _ & _ & _ & _ & T6 & T7). fold sp2 old2 in T0, T6, T7.
  unfold c3. rewrite <- (take_drop 7 swtch), run_app. set (d := run (take 7 swtch) c2) in *. clearbody d.
  destruct (swtch_loads d) as (L1 & L2 & L3 & L4 & L5 & L6 & L7). rewrite T6, Harg, S0 in *.
  assert (forall a, sp - 16 <= a < sp + 4 -> mw d a = mw c1 a) as Hd by (intros a Ha; rewrite T7 by lia; by apply Hkeep).
  replace (sp - 16 + 4) with (sp - 12) in * by lia. replace (sp - 16 + 8) with (sp - 8) in * by lia.
  replace (sp - 16 + 12) with (sp - 4) in * by lia. replace (sp - 16 + 16) with sp in * by lia.
  rewrite L1, L2, L3, L4, L5, L6, L7, !Hd by lia. split_and!; congruence || lia.
Qed.

(** ** Examples *)

(** A user program with [k + 1] in register number [k], and a kernel that answers 5. *)
Definition prog : machine :=
  mkmachine (fun r => match r with
    | EAX => 1 | ECX => 2 | EDX => 3 | EBX => 4 | ESP => 4000 | EBP => 6 | ESI => 7 | EDI => 8
    | DS => 35 | ES => 35 | FS => 0 | GS => 0 | CS => 27 | SS => 35 | EIP => 16 | EFLAGS => 512 end) (fun _ => 0).
Definition answer (v : Z) (c1 : machine) : machine := set_word (top c1 + 28) v c1.

Lemma prog_segs : segs_ok prog.
Proof.
  intros r Hr. repeat (apply elem_of_cons in Hr as [->|Hr]; [split; [discriminate|reflexivity]|]). by apply elem_of_nil in Hr.
Qed.

Lemma answer_returns v c1 : returns (answer v) v c1.
Proof.
  unfold returns, answer, frame_at, set_eax. cbn [set_word mw edi esi ebp oesp ebx edx ecx eax gs fs es ds trapno err eip cs eflags esp ss].
  rewrite (decide_True (P := top c1 + 28 = top c1 + 28)) by done. rewrite !decide_False by lia. done.
Qed.

Lemma trap_transparent_witness :
  (let c1 := at_trap 2147483648 16 14 2 prog in
   exists oesp x y, frame_at (mw c1) (top c1) = frame_of oesp 14 2 x y prog /\
     (user_cs (rg prog CS) = true -> x = rg prog ESP /\ y = rg prog SS)) /\
  forall r, rg (handle (answer 5) 2147483648 16 14 2 prog) r = if decide (r = EAX) then 5 else rg prog r.
Proof. apply (trap_transparent (answer 5) 2147483648 16 14 2 prog 5); [exact prog_segs|split; reflexivity|apply answer_returns]. Defined.

Lemma syscall_stub_witness :
  let c0 := set_reg EAX 11 prog in let c1 := at_trap 2147483648 16 64 0 c0 in
  eax (frame_at (mw c1) (top c1)) = 11 /\
  let c' := run (SYSCALL (handle (answer 5) 2147483648 16 64 0) 11) prog in
  rg c' EAX = 5 /\ rg c' EIP = mw prog (rg prog ESP) /\ rg c' ESP = rg prog ESP + 4 /\
  forall r, r ∉ [EAX; EIP; ESP] -> rg c' r = rg prog r.
Proof.
  apply (syscall_stub (answer 5) 2147483648 16 11 prog 5); [exact prog_segs|reflexivity|reflexivity|split; reflexivity|apply answer_returns|].
  assert (segs_ok (set_reg EAX 11 prog)) as Hs.
  { intros r Hr. cbn [set_reg rg]. rewrite decide_False; [by apply prog_segs|]. intros ->. revert Hr. not_listed. }
  destruct (at_trap_frame 2147483648 16 64 0 (set_reg EAX 11 prog) Hs) as (_ & _ & oesp & x & y & _ & _ & Ht).
  cbn [answer set_word mw]. rewrite Ht, decide_False; [reflexivity|]. change (rg (base 2147483648 16 (set_reg EAX 11 prog)) ESP) with 2147483648.
  change (length (words oesp 64 0 (set_reg EAX 11 prog))) with 19%nat. change (rg prog ESP) with 4000. lia.
Defined.

(** Two threads, with stacks at 1000 and 2000; their contexts are kept at 5000 and 5004. *)
Definition thread1 : machine :=
  mkmachine (fun r => match r with ESP => 1000 | EBP => 1 | EBX => 2 | ESI => 3 | EDI => 4 | _ => 0 end)
    (fun a => if a =? 1000 then 77 else if a =? 1004 then 5000 else if a =? 1008 then 1900 else 0).
Definition thread2 : machine :=
  mkmachine (fun r => match r with ESP => 2000 | _ => 9 end)
    (fun a => if a =? 2004 then 5004 else if a =? 2008 then 984 else mw (run (take 7 swtch) thread1) a).

Lemma swtch_resumes_witness :
  let c3 := run swtch thread2 in
  rg c3 EIP = mw thread1 1000 /\ rg c3 ESP = 1000 + 4 /\ rg c3 EBP = rg thread1 EBP /\ rg c3 EBX = rg thread1 EBX /\
  rg c3 ESI = rg thread1 ESI /\ rg c3 EDI = rg thread1 EDI /\ mw c3 5004 = 2000 - 16.
Proof.
  apply (swtch_resumes thread1 thread2).
  - right. discriminate.
  - right. discriminate.
  - right. discriminate.
  - right. discriminate.
  - intros a Ha. change (rg thread1 ESP) with 1000 in Ha. cbn [thread2 mw]. rewrite !(proj2 (Z.eqb_neq _ _)) by lia. reflexivity.
  - destruct (swtch_saves thread1) as [H _]; [right; discriminate|]. rewrite H. reflexivity.
Defined.

End Entry.
