(* ===== verification/Debug.v ===== *)
(** * What the kernel prints about itself

    [getcallerpcs] of spinlock.c, [procdump] of proc.c and [panic] of console.c: the chain of
    stack frames, the list of processes, and the last words of the kernel.  [ld] is the word
    at an address; what is printed is the list of characters given to [consputc].

    Shown: [getcallerpcs] gives the return addresses of the frames, ten at most; [procdump]
    prints a line for each process that exists. *)

From S2P Require Export Kalloc Utils Proc.
Local Open Scope Z_scope.

Module Debug.
Import CString Printf Utils Proc.

Section Code.
Context (ld : Z -> Z).

(** ** spinlock.c *)

(** The loops of [getcallerpcs] with [n] places of [pcs] left. *)
Fixpoint callers (n : nat) (ebp : Z) : list Z :=
  match n with
  | O => []
  | S k =>
      if ((ebp =? 0) || (ebp <? KERNBASE) || (ebp =? 4294967295))%bool then replicate n 0
      else ld (ebp +u 4) :: callers k (ld ebp)
  end.
Definition getcallerpcs (v : Z) : list Z := callers 10 (v -u 8).

(** ** proc.c *)

Definition cprint (fmt : list Z) (args : list parg) : list Z := cprintf (pstr args) fmt (pwords args).

Definition state_name (st : procstate) : list Z :=
  chars match st with
        | UNUSED => "unused" | EMBRYO => "embryo" | SLEEPING => "sleep " | RUNNABLE => "runble"
        | RUNNING => "run   " | ZOMBIE => "zombie"
        end.

(** [for(i=0; i<10 && pc[i] != 0; i++)] *)
Fixpoint print_pcs (pc : list Z) : list Z :=
  match pc with
  | [] => []
  | a :: pc => if a =? 0 then [] else cprint (chars " %p") [PInt a] ++ print_pcs pc
  end.

(** [context_ebp] is [p->context->ebp] of process number [i]. *)
Definition dump_proc (context_ebp : Z) (p : proc) : list Z :=
  if decide (p_state p = UNUSED) then [] else
  cprint (chars "%d %s %s") [PInt (p_pid p); PStr (state_name (p_state p)); PStr (upto0 (p_name p))] ++
  (if decide (p_state p = SLEEPING) then print_pcs (getcallerpcs (context_ebp +u 8)) else []) ++
  cprint [10] [].
Definition procdump (context_ebp : nat -> Z) (ps : list proc) : list Z :=
  concat (imap (fun i p => dump_proc (context_ebp i) p) ps).

(** ** console.c *)

(** [panic]; the message is the format of a [cprintf] without arguments.  [s_addr] is the
    address of the argument [s] on the stack. *)
Definition panic_text (lapicid : Z) (s : list Z) (s_addr : Z) : list Z :=
  cprint (chars "lapicid %d: panic: ") [PInt lapicid] ++ cprint s [] ++ cprint [10] [] ++
  concat (map (fun a => cprint (chars " %p") [PInt a]) (getcallerpcs s_addr)).

(** ** Stack frames *)

(** From [ebp] on there are the frames with the return addresses [pcs]; then the chain ends. *)
Fixpoint frames (ebp : Z) (pcs : list Z) : Prop :=
  match pcs with
  | [] => ebp = 0 \/ ebp < KERNBASE \/ ebp = 4294967295
  | a :: pcs => KERNBASE <= ebp < 4294967292 /\ ld (ebp + 4) = a /\ frames (ld ebp) pcs
  end.

Lemma callers_frames n : forall ebp pcs, frames ebp pcs -> callers n ebp = take n pcs ++ replicate (n - length pcs) 0.
Proof.
  induction n as [|n IH]; intros ebp pcs Hf; [done|]. cbn [callers]. destruct pcs as [|a pcs]; cbn [frames] in Hf.
  - replace ((ebp =? 0) || (ebp <? KERNBASE) || (ebp =? 4294967295))%bool with true; [done|]. symmetry.
    rewrite !orb_true_iff, !Z.eqb_eq, Z.ltb_lt. tauto.
  - destruct Hf as (Hr & Ha & Hf). unfold KERNBASE in *.
    rewrite (proj2 (Z.eqb_neq ebp 0)), (proj2 (Z.ltb_ge _ _)), (proj2 (Z.eqb_neq ebp 4294967295)) by lia. cbn [orb].
    rewrite u32_small by lia. rewrite Ha. cbn [take length app]. f_equal. by apply IH.
Qed.

(** [getcallerpcs] gives the return addresses of the frames of the call chain, innermost
    first, as many as fit, and zeros for the rest. *)
Theorem getcallerpcs_frames v pcs :
  8 <= v < 2 ^ 32 -> frames (v - 8) pcs ->
  getcallerpcs v = take 10 pcs ++ replicate (10 - length pcs) 0 /\ length (getcallerpcs v) = 10%nat.
Proof.
  intros Hv Hf. unfold getcallerpcs. rewrite u32_small by lia. rewrite (callers_frames 10 _ pcs Hf).
  split; [done|]. rewrite length_app, length_take, length_replicate. lia.
Qed.

(** A line of [procdump] begins with the pid, the state and the name of the process. *)
Lemma dump_proc_line e p :
  p_state p <> UNUSED ->
  exists pcs, dump_proc e p = c_printint (s32 (p_pid p)) 10 true ++ [32] ++ state_name (p_state p) ++ [32] ++ upto0 (p_name p) ++ pcs ++ [10] /\
    (p_state p <> SLEEPING -> pcs = []).
Proof.
  intros Hu. unfold dump_proc. rewrite decide_False by done.
  assert (forall a b c, cprint (chars "%d %s %s") [PInt a; PStr b; PStr c] = c_printint (s32 a) 10 true ++ [32] ++ b ++ [32] ++ c ++ []) as ->
    by reflexivity.
  exists (if decide (p_state p = SLEEPING) then print_pcs (getcallerpcs (e +u 8)) else []). rewrite app_nil_r. split.
  - rewrite <- !app_assoc. done.
  - intros Hs. by rewrite decide_False.
Qed.

End Code.

(** A chain of two frames. *)
Definition ld2 (a : Z) : Z :=
  if a =? 2147483648 then 2147483664 else if a =? 2147483652 then 11 else if a =? 2147483664 then 0 else if a =? 2147483668 then 22 else 0.

Lemma getcallerpcs_frames_witness : getcallerpcs ld2 2147483656 = [11; 22; 0; 0; 0; 0; 0; 0; 0; 0].
Proof.
  destruct (getcallerpcs_frames ld2 2147483656 [11; 22]) as [H _]; [lia| |exact H].
  split; [done|]. split; [done|]. split; [done|]. split; [done|]. left. done.
Defined.

End Debug.
