(* ===== verification/Kern.v ===== *)
(** * The kernel's state, and open files

    The state of the kernel: memory, the file system, the tables of open files and of
    processes, pipes.  Over it file.c, and the functions of pipe.c that use more than the
    pipe.  The state is that of the CPU that executes: [k_cur] is [myproc()].

    The block layer is an argument, with [begin_op] and [end_op]; so are the addresses
    [end_] and [data_] of the linker, and the device switch. *)

From S2P Require Export Vm Fs Pipe Proc.
Local Open Scope Z_scope.

Definition NFILE : nat := 100.
Definition MAXOPBLOCKS : Z := 10.

(** What the kernel uses of log.c besides: [initlog], [begin_op] and [end_op]. *)
Class TxnOps (B : Type) : Type := { tx_init : Z -> K B unit; tx_begin : K B unit; tx_end : K B unit }.

Module Kern.
Import Kalloc Vm Pipe Proc.

Inductive ftype : Type := FD_NONE | FD_PIPE | FD_INODE.
Record file : Type := mkfile {
  f_type : ftype;
  f_ref : Z;            (* reference count *)
  f_readable : bool;
  f_writable : bool;
  f_pipe : Z;           (* the page of the pipe *)
  f_ip : nat;           (* index in the inode cache *)
  f_off : Z
}.
Definition file0 : file := mkfile FD_NONE 0 false false 0 0 0.
Definition set_fref (r : Z) (f : file) : file :=
  mkfile (f_type f) r (f_readable f) (f_writable f) (f_pipe f) (f_ip f) (f_off f).
Definition set_foff (o : Z) (f : file) : file :=
  mkfile (f_type f) (f_ref f) (f_readable f) (f_writable f) (f_pipe f) (f_ip f) o.

Record kern (B : Type) : Type := mkkern {
  k_mem : kmem;
  k_fs : Fs.fs B;
  k_files : list file;      (* ftable *)
  k_pipes : gmap Z pipe;    (* by their pages *)
  k_tab : ptab;
  k_cur : nat;              (* myproc() *)
  k_ticks : Z
}.
Arguments mkkern {B}.
Arguments k_mem {B} k.
Arguments k_fs {B} k.
Arguments k_files {B} k.
Arguments k_pipes {B} k.
Arguments k_tab {B} k.
Arguments k_cur {B} k.
Arguments k_ticks {B} k.

Section Kern.
Context {B : Type} `{!BlockOps B} `{!TxnOps B}.
Context (end_ data_ : Z).

Definition KM (A : Type) : Type := K (kern B) A.

(** ** The parts of the state *)

Definition on_mem {A} (m : K kmem A) : KM A :=
  zoom k_mem (fun x s => mkkern x (k_fs s) (k_files s) (k_pipes s) (k_tab s) (k_cur s) (k_ticks s)) m.
Definition on_fs {A} (m : K (Fs.fs B) A) : KM A :=
  zoom k_fs (fun x s => mkkern (k_mem s) x (k_files s) (k_pipes s) (k_tab s) (k_cur s) (k_ticks s)) m.
Definition set_files (x : list file) (s : kern B) : kern B :=
  mkkern (k_mem s) (k_fs s) x (k_pipes s) (k_tab s) (k_cur s) (k_ticks s).
Definition set_pipes (x : gmap Z pipe) (s : kern B) : kern B :=
  mkkern (k_mem s) (k_fs s) (k_files s) x (k_tab s) (k_cur s) (k_ticks s).
Definition set_tab (x : ptab) (s : kern B) : kern B :=
  mkkern (k_mem s) (k_fs s) (k_files s) (k_pipes s) x (k_cur s) (k_ticks s).

Definition begin_op : KM unit := on_fs (Fs.lift tx_begin).
Definition end_op : KM unit := on_fs (Fs.lift tx_end).

Definition proc_at (i : nat) : KM proc := fun s => arr_get (procs (k_tab s)) i s.
Definition set_procs (l : list proc) (s : kern B) : kern B := set_tab (mkptab l (nextpid (k_tab s)) (initproc (k_tab s))) s.
Definition upd_proc (i : nat) (f : proc -> proc) : KM unit :=
  p ← proc_at i; modify (fun s => set_procs (<[i := f p]> (procs (k_tab s))) s).
Definition myproc : KM proc := c ← gets k_cur; proc_at c.
Definition upd_me (f : proc -> proc) : KM unit := c ← gets k_cur; upd_proc c f.

(** [wakeup(chan)] *)
Definition wakeup (ch : chan) : KM unit := modify (fun s => set_procs (wakeup1 ch (procs (k_tab s))) s).
(** [sleep(chan, lk)] gives up the CPU. *)
Definition sleep {A} (ch : chan) : KM A :=
  c ← gets k_cur;
  modify (fun s => set_procs (sleep_slot c ch (procs (k_tab s))) s);;
  sleep_on ch.

Definition file_at (f : nat) : KM file := fun s => arr_get (k_files s) f s.
Definition upd_file (f : nat) (g : file -> file) : KM unit :=
  x ← file_at f; modify (fun s => set_files (<[f := g x]> (k_files s)) s).

(** ** file.c *)

Fixpoint filealloc_scan (l : list file) (i : nat) : option nat :=
  match l with
  | [] => None
  | f :: l => if f_ref f =? 0 then Some i else filealloc_scan l (S i)
  end.
(** Allocate a file structure. *)
Definition filealloc : KM (option nat) :=
  l ← gets k_files;
  match filealloc_scan l 0 with
  | Some f => upd_file f (set_fref 1);; mret (Some f)
  | None => mret None
  end.

(** Increment ref count for file f. *)
Definition filedup (f : nat) : KM nat :=
  x ← file_at f;
  if f_ref x <? 1 then panic "filedup" else
  upd_file f (set_fref (f_ref x + 1));;
  mret f.

(** The calls of [wakeup] a pipe operation makes. *)
Fixpoint wake_all (p : Z) (l : list wait) : KM unit :=
  match l with
  | [] => mret tt
  | OnRead :: l => wakeup (ChPipeRead p);; wake_all p l
  | OnWrite :: l => wakeup (ChPipeWrite p);; wake_all p l
  end.
Definition pipe_at (p : Z) : KM pipe := fun s =>
  match k_pipes s !! p with Some x => Ret x s | None => Fault "no pipe" s end.
Definition set_pipe (p : Z) (x : pipe) : KM unit := modify (fun s => set_pipes (<[p := x]> (k_pipes s)) s).

Definition pipeclose (p : Z) (writable : bool) : KM unit :=
  x ← pipe_at p;
  let '(x', wk, freed) := Pipe.pipeclose writable x in
  set_pipe p x';; wake_all p wk;;
  (if (freed : bool) then modify (fun s => set_pipes (delete p (k_pipes s)) s);; on_mem (kfree_ end_ p) else mret tt).

Definition pipewrite (p : Z) (addr : list Z) : KM Z :=
  x ← pipe_at p;
  me ← myproc;
  let '(x', wk, r) := Pipe.pipewrite (p_killed me) addr x in
  set_pipe p x';; wake_all p wk;;
  match r with
  | WDone => mret (Z.of_nat (length addr))
  | WError _ => mret (-1)
  | WSleep _ => sleep (ChPipeWrite p)
  end.

Definition piperead (p : Z) (n : nat) : KM (Z * list Z) :=
  x ← pipe_at p;
  me ← myproc;
  let '(x', wk, r) := Pipe.piperead (p_killed me) n x in
  set_pipe p x';; wake_all p wk;;
  match r with
  | RDone got => mret (Z.of_nat (length got), got)
  | RError => mret (-1, [])
  | RSleep => sleep (ChPipeRead p)
  end.

(** Close file f.  (Decrement ref count, close when reaches 0.) *)
Definition fileclose (f : nat) : KM unit :=
  x ← file_at f;
  if f_ref x <? 1 then panic "fileclose" else
  upd_file f (set_fref (f_ref x - 1));;
  if 0 <? f_ref x - 1 then mret tt else
  let ff := x in
  upd_file f (fun x => mkfile FD_NONE 0 (f_readable x) (f_writable x) (f_pipe x) (f_ip x) (f_off x));;
  match f_type ff with
  | FD_PIPE => pipeclose (f_pipe ff) (f_writable ff)
  | FD_INODE => begin_op;; on_fs (Fs.iput (f_ip ff));; end_op
  | FD_NONE => mret tt
  end.

(** Get metadata about file f. *)
Definition filestat (f : nat) : KM (option Fs.stat) :=
  x ← file_at f;
  match f_type x with
  | FD_INODE =>
      on_fs (Fs.ilock (Some (f_ip x)));;
      st ← on_fs (Fs.stati (f_ip x));
      on_fs (Fs.iunlock (Some (f_ip x)));;
      mret (Some st)
  | _ => mret None
  end.

Section Devices.
Context (devread : Z -> option (nat -> Z -> K (Fs.fs B) (Z * list Z))).
Context (devwrite : Z -> option (nat -> list Z -> K (Fs.fs B) Z)).

(** Read from file f: the result, and the bytes stored at [addr]. *)
Definition fileread (f : nat) (n : Z) : KM (Z * list Z) :=
  x ← file_at f;
  if negb (f_readable x) then mret (-1, []) else
  match f_type x with
  | FD_PIPE => piperead (f_pipe x) (Z.to_nat n)
  | FD_INODE =>
      on_fs (Fs.ilock (Some (f_ip x)));;
      r ← on_fs (Fs.readi devread (f_ip x) (f_off x) n);
      (if 0 <? fst r then upd_file f (fun x => set_foff (f_off x +u fst r) x) else mret tt);;
      on_fs (Fs.iunlock (Some (f_ip x)));;
      mret r
  | FD_NONE => panic "fileread"
  end.

(** [int max = ((MAXOPBLOCKS-1-1-2) / 2) * 512] *)
Definition filewrite_max : nat := 1536.

(** One round of the loop of [filewrite]. *)
Definition filewrite_chunk (f : nat) (addr : list Z) : KM Z :=
  x ← file_at f;
  begin_op;;
  on_fs (Fs.ilock (Some (f_ip x)));;
  r ← on_fs (Fs.writei devwrite (f_ip x) addr (f_off x));
  (if 0 <? r then upd_file f (fun x => set_foff (f_off x +u r) x) else mret tt);;
  on_fs (Fs.iunlock (Some (f_ip x)));;
  end_op;;
  mret r.

(** The loop: [addr] are the bytes from [addr + i] to [addr + n]. *)
Fixpoint filewrite_loop (fuel : nat) (f : nat) (addr : list Z) : KM bool :=
  match addr with
  | [] => mret true   (* i == n *)
  | _ =>
    match fuel with
    | O => mret false
    | S fuel =>
        let n1 := Nat.min (length addr) filewrite_max in
        r ← filewrite_chunk f (take n1 addr);
        if r <? 0 then mret false else
        if negb (r =? Z.of_nat n1) then panic "short filewrite" else
        filewrite_loop fuel f (drop n1 addr)
    end
  end.

(** Write to file f the bytes [addr], [n] of them if [n] is not negative. *)
Definition filewrite (f : nat) (addr : list Z) (n : Z) : KM Z :=
  x ← file_at f;
  if negb (f_writable x) then mret (-1) else
  match f_type x with
  | FD_PIPE => pipewrite (f_pipe x) addr
  | FD_INODE => ok ← filewrite_loop (length addr) f addr; mret (if (ok : bool) then if n <? 0 then -1 else n else -1)
  | FD_NONE => panic "filewrite"
  end.
End Devices.

(** ** pipealloc *)

Definition fileclose_if (f : option nat) : KM unit := match f with Some f => fileclose f | None => mret tt end.
Definition pipe_file (w : bool) (p : Z) (f : file) : file := mkfile FD_PIPE (f_ref f) (negb w) w p (f_ip f) (f_off f).

(** The two files, or nothing; [p->data], behind the lock of 52 bytes, is what was in the page. *)
Definition pipealloc : KM (option (nat * nat)) :=
  f0 ← filealloc;
  match f0 with
  | None => mret None
  | Some rf =>
      f1 ← filealloc;
      match f1 with
      | None => fileclose rf;; mret None
      | Some wf =>
          p ← on_mem kalloc_;
          if p =? 0 then fileclose rf;; fileclose wf;; mret None else
          m ← gets (fun s => kmemory (k_mem s));
          set_pipe p (pipe_init ((fun i => u8 (m (p + 52 + Z.of_nat i))) <$> seq 0 512));;
          upd_file rf (pipe_file false p);;
          upd_file wf (pipe_file true p);;
          mret (Some (rf, wf))
      end
  end.

End Kern.
End Kern.
