(* ===== verification/Kproc.v ===== *)
(** * Processes

    proc.c: what [fork], [exit], [wait] and the others do on the whole state of the kernel,
    around the work on the process table that [Proc] has.  [switchuvm] of vm.c is its
    checks: what it loads into the hardware is not modelled.  A process that gives up the
    CPU in [yield] or for good in [exit] ends the function with [Sleep]. *)

From S2P Require Export Kern.
Local Open Scope Z_scope.

Definition SEG_UCODE : Z := 3.
Definition SEG_UDATA : Z := 4.
Definition DPL_USER : Z := 3.
Definition FL_IF : Z := 512.

Module Kproc.
Import Kalloc Vm Proc Kern.

(** [safestrcpy(dst, src, n)] on an array and a string. *)
Fixpoint until_nul (l : list Z) : list Z :=
  match l with [] => [] | c :: l => if c =? 0 then [] else c :: until_nul l end.
Definition safestrcpy_array (n : nat) (dst src : list Z) : list Z :=
  let s := take (n - 1) (until_nul src) in s ++ [0] ++ drop (length s + 1) dst.

Section Kproc.
Context {B : Type} `{!BlockOps B} `{!TxnOps B}.
Context (end_ data_ : Z).
Local Abbreviation KM := (@KM B).

(** Look in the process table for an UNUSED proc.  The trap frame is in the new stack,
    with whatever the page holds; the callers set it. *)
Definition allocproc : KM (option nat) :=
  t ← gets k_tab;
  match alloc_slot t with
  | None => mret None
  | Some (p, t') =>
      modify (set_tab t');;
      k ← on_mem kalloc_;
      upd_proc p (set_kstack k);;
      if k =? 0 then upd_proc p (set_state UNUSED);; mret None else
      upd_proc p (set_alarm 0 0 0);;
      mret (Some p)
  end.

(** [switchuvm] up to the loads of the hardware registers. *)
Definition switchuvm (i : nat) : KM unit :=
  p ← proc_at i;
  if p_kstack p =? 0 then panic "switchuvm: no kstack" else
  if p_pgdir p =? 0 then panic "switchuvm: no pgdir" else mret tt.

Definition user_tf : trapframe :=
  mktf 0 0 0 0 0 0 0 0 0 0 (Z.lor (Z.shiftl SEG_UDATA 3) DPL_USER) (Z.lor (Z.shiftl SEG_UDATA 3) DPL_USER) 0
    0 0 (Z.lor (Z.shiftl SEG_UCODE 3) DPL_USER) FL_IF PGSIZE (Z.lor (Z.shiftl SEG_UDATA 3) DPL_USER).

(** Set up first user process; [initcode] is the program, linked into the kernel. *)
Definition userinit (devread : Z -> option (nat -> Z -> K (Fs.fs B) (Z * list Z))) (initcode : list Z) : KM unit :=
  r ← allocproc;
  match r with
  | None => fault "null dereference"
  | Some p =>
      modify (fun s => set_tab (mkptab (procs (k_tab s)) (nextpid (k_tab s)) (Some p)) s);;
      pgdir ← on_mem (setupkvm end_ data_);
      upd_proc p (fun x => set_mem (p_sz x) pgdir x);;
      if pgdir =? 0 then panic "userinit: out of memory?" else
      on_mem (inituvm pgdir initcode);;
      upd_proc p (set_mem PGSIZE pgdir);;
      upd_proc p (set_tf user_tf);;
      (* safestrcpy(p->name, "initcode", sizeof(p->name)) *)
      upd_proc p (fun x => set_name (safestrcpy_array 16 (p_name x) [105; 110; 105; 116; 99; 111; 100; 101; 0]) x);;
      (* the path "/" is absolute: there is no current process *)
      cwd ← on_fs (Fs.namei devread 0 [Fs.SLASH]);
      upd_proc p (set_cwd cwd);;
      upd_proc p (set_state RUNNABLE)
  end.

(** Grow current process's memory by n bytes. *)
Definition growproc (n : Z) : KM Z :=
  c ← gets k_cur;
  p ← myproc;
  let sz := p_sz p in
  r ← (if 0 <? n then on_mem (allocuvm end_ (p_pgdir p) sz (sz +u n))
       else if n <? 0 then on_mem (deallocuvm end_ (p_pgdir p) sz (sz +u n))
       else mret sz);
  if (negb (n =? 0) && (r =? 0))%bool then mret (-1) else
  upd_proc c (fun x => set_mem r (p_pgdir x) x);;
  switchuvm c;;
  mret 0.

(** The open files of the parent, duplicated. *)
Fixpoint dup_files (l : list (option nat)) : KM (list (option nat)) :=
  match l with
  | [] => mret []
  | Some f :: l => f' ← filedup f; l' ← dup_files l; mret (Some f' :: l')
  | None :: l => l' ← dup_files l; mret (None :: l')
  end.
(** [np->ofile[i] = filedup(...)] for the open ones; the others keep what they had. *)
Definition inherit (old new : list (option nat)) : list (option nat) :=
  zip_with (fun o n => match n with Some f => Some f | None => o end) old new.

(** Create a new process copying p as the parent. *)
Definition fork : KM Z :=
  cur ← gets k_cur;
  me ← myproc;
  r ← allocproc;
  match r with
  | None => mret (-1)
  | Some np =>
      pgdir ← on_mem (copyuvm end_ data_ (p_pgdir me) (p_sz me));
      upd_proc np (fun x => set_mem (p_sz x) pgdir x);;
      if pgdir =? 0 then
        x ← proc_at np;
        on_mem (kfree_ end_ (p_kstack x));;
        upd_proc np (set_kstack 0);;
        upd_proc np (set_state UNUSED);;
        mret (-1)
      else
        upd_proc np (fun x => set_mem (p_sz me) (p_pgdir x) x);;
        upd_proc np (set_parent (Some cur));;
        upd_proc np (set_tf (p_tf me));;
        (* Clear %eax so that fork returns 0 in the child. *)
        upd_proc np (fun x => set_tf (set_eax 0 (p_tf x)) x);;
        fs ← dup_files (p_ofile me);
        upd_proc np (fun x => set_ofile (inherit (p_ofile x) fs) x);;
        cwd ← (match p_cwd me with Some ip => on_fs (Fs.idup ip) | None => fault "null dereference" end);
        upd_proc np (set_cwd (Some cwd));;
        upd_proc np (fun x => set_name (safestrcpy_array 16 (p_name x) (p_name me)) x);;
        x ← proc_at np;
        upd_proc np (set_state RUNNABLE);;
        mret (p_pid x)
  end.

(** Close all open files: the [n] from [fd] on. *)
Fixpoint close_files (n fd : nat) : KM unit :=
  match n with
  | O => mret tt
  | S n =>
      me ← myproc;
      o ← arr_get (p_ofile me) fd;
      (match o with
       | Some f => fileclose end_ f;; upd_me (fun x => set_ofile (<[fd := None]> (p_ofile x)) x)
       | None => mret tt
       end);;
      close_files n (S fd)
  end.

(** Exit the current process.  Does not return. *)
Definition exit {A} : KM A :=
  cur ← gets k_cur;
  init ← gets (fun s => initproc (k_tab s));
  if bool_decide (init = Some cur) then panic "init exiting" else
  close_files NOFILE 0;;
  begin_op;;
  me ← myproc;
  (match p_cwd me with Some ip => on_fs (Fs.iput ip) | None => fault "null dereference" end);;
  end_op;;
  upd_me (set_cwd None);;
  modify (fun s => set_procs (exit_slot cur (default 0%nat init) (procs (k_tab s))) s);;
  sleep_on ChNever.

(** Wait for a child process to exit and return its pid. *)
Definition wait : KM Z :=
  cur ← gets k_cur;
  l ← gets (fun s => procs (k_tab s));
  match wait_round cur l with
  | (Reaped i pid, _) =>
      p ← proc_at i;
      on_mem (kfree_ end_ (p_kstack p));;
      on_mem (freevm end_ (p_pgdir p));;
      upd_proc i reaped;;
      mret pid
  | (NoChild, _) => mret (-1)
  | (Waits, l') => modify (set_procs l');; sleep_on (ChProc cur)
  end.

(** The body of the scheduler's loop for process [i]: the CPU is now its. *)
Definition scheduler_run (i : nat) : KM bool :=
  p ← proc_at i;
  if negb (is_state RUNNABLE p) then mret false else
  modify (fun s => mkkern (k_mem s) (k_fs s) (k_files s) (k_pipes s) (k_tab s) i (k_ticks s));;
  switchuvm i;;
  upd_proc i (set_state RUNNING);;
  mret true.

(** Give up the CPU for one scheduling round. *)
Definition yield {A} : KM A := upd_me (set_state RUNNABLE);; sleep_on ChCpu.

(** A fork child's very first scheduling by scheduler() will swtch here; [first] the
    first time. *)
Definition forkret (first : bool) : KM unit :=
  if first then on_fs (Fs.iinit ROOTDEV);; on_fs (Fs.lift (tx_init ROOTDEV)) else mret tt.

(** Kill the process with the given pid. *)
Definition kill (pid : Z) : KM Z :=
  l ← gets (fun s => procs (k_tab s));
  let '(r, l') := Proc.kill pid l in
  modify (set_procs l');; mret r.

End Kproc.
End Kproc.
