(* ===== verification/Sysfile.v ===== *)
(** * System calls on files

    sysfile.c.  A path is the string [argstr] fetched; [None] is the result -1 or the null
    pointer. *)

From S2P Require Export Syscall.
Local Open Scope Z_scope.

Definition O_WRONLY : Z := 1.
Definition O_RDWR : Z := 2.
Definition O_CREATE : Z := 512.
Definition MAXARG : nat := 32.

Module Sysfile.
Import Kalloc Vm Proc Fs Kern Kproc Syscall.

Section Sysfile.
Context {B : Type} `{!BlockOps B} `{!TxnOps B}.
Context (end_ data_ : Z).
Context (devread : Z -> option (nat -> Z -> K (fs B) (Z * list Z))).
Context (devwrite : Z -> option (nat -> list Z -> K (fs B) Z)).
Local Abbreviation KM := (@KM B).

Definition namei (path : list Z) : KM (option nat) :=
  me ← myproc; on_fs (Fs.namei devread (default NINODE (p_cwd me)) path).
(** [name] is an array on the stack: what it holds at first is not used. *)
Definition nameiparent (path : list Z) : KM (option nat * list Z) :=
  me ← myproc; on_fs (Fs.nameiparent devread (default NINODE (p_cwd me)) path (replicate DIRSIZ 0)).
Definition dirlookup (dp : nat) (name : list Z) : KM (option (nat * Z)) := on_fs (Fs.dirlookup devread dp name).
Definition dirlink (dp : nat) (name : list Z) (inum : Z) : KM Z := on_fs (Fs.dirlink devread devwrite dp name inum).
Definition ilock (ip : nat) : KM unit := on_fs (Fs.ilock (Some ip)).
Definition iunlock (ip : nat) : KM unit := on_fs (Fs.iunlock (Some ip)).
Definition iunlockput (ip : nat) : KM unit := on_fs (Fs.iunlockput ip).
Definition iupdate (ip : nat) : KM unit := on_fs (Fs.iupdate ip).
Definition inode_at (ip : nat) : KM inode := on_fs (Fs.inode_at ip).
Definition upd_inode (ip : nat) (f : inode -> inode) : KM unit := on_fs (Fs.upd_inode ip f).
(** [ip->nlink++] and [--]: a short. *)
Definition add_nlink (n : Z) (ip : nat) : KM unit := upd_inode ip (fun x => set_nlink (s16 (i_nlink x + n)) x).

(** Fetch the nth word-sized system call argument as a file descriptor and return both
    the descriptor and the corresponding struct file. *)
Definition argfd (n : Z) : KM (option (nat * nat)) :=
  r ← argint end_ n;
  match r with
  | None => mret None
  | Some fd =>
      if ((fd <? 0) || (Z.of_nat NOFILE <=? fd))%bool then mret None else
      me ← myproc;
      o ← arr_get (p_ofile me) (Z.to_nat fd);
      mret (match o with Some f => Some (Z.to_nat fd, f) | None => None end)
  end.

Fixpoint fdalloc_scan (l : list (option nat)) (fd : nat) : option nat :=
  match l with
  | [] => None
  | None :: _ => Some fd
  | Some _ :: l => fdalloc_scan l (S fd)
  end.
(** Allocate a file descriptor for the given file. *)
Definition fdalloc (f : nat) : KM (option nat) :=
  me ← myproc;
  match fdalloc_scan (p_ofile me) 0 with
  | Some fd => upd_me (fun x => set_ofile (<[fd := Some f]> (p_ofile x)) x);; mret (Some fd)
  | None => mret None
  end.

Definition sys_dup : KM Z :=
  r ← argfd 0;
  match r with
  | None => mret (-1)
  | Some (_, f) =>
      r ← fdalloc f;
      match r with
      | None => mret (-1)
      | Some fd => filedup f;; mret (Z.of_nat fd)
      end
  end.

(** [argfd(0, 0, &f)], [argint(2, &n)], [argptr(1, &p, n)] *)
Definition rw_args : KM (option (nat * Z * Z)) :=
  r ← argfd 0;
  match r with
  | None => mret None
  | Some (_, f) =>
      r ← argint end_ 2;
      match r with
      | None => mret None
      | Some n =>
          r ← argptr end_ 1 n;
          mret (match r with Some p => Some (f, p, n) | None => None end)
      end
  end.
Definition sys_read : KM Z :=
  r ← rw_args;
  match r with
  | None => mret (-1)
  | Some (f, p, n) =>
      r ← fileread devread f n;
      put_user end_ p (snd r);;
      mret (fst r)
  end.
Definition sys_write : KM Z :=
  r ← rw_args;
  match r with
  | None => mret (-1)
  | Some (f, p, n) =>
      l ← get_user end_ (Z.to_nat n) p;
      filewrite devwrite f l n
  end.

Definition sys_close : KM Z :=
  r ← argfd 0;
  match r with
  | None => mret (-1)
  | Some (fd, f) =>
      upd_me (fun x => set_ofile (<[fd := None]> (p_ofile x)) x);;
      fileclose end_ f;;
      mret 0
  end.

(** The stores to the fields of a [struct stat]; two bytes after each short are padding. *)
Definition put_stat (a : Z) (st : stat) : KM unit :=
  put_user end_ a (le_enc 2 (st_type st));;
  put_user end_ (a +u 4) (le_enc 4 (st_dev st) ++ le_enc 4 (st_ino st) ++ le_enc 2 (st_nlink st));;
  put_user end_ (a +u 16) (le_enc 4 (st_size st)).
Definition sys_fstat : KM Z :=
  r ← argfd 0;
  match r with
  | None => mret (-1)
  | Some (_, f) =>
      r ← argptr end_ 1 20;
      match r with
      | None => mret (-1)
      | Some st =>
          r ← filestat f;
          match r with
          | None => mret (-1)
          | Some x => put_stat st x;; mret 0
          end
      end
  end.

(** Create the path new as a link to the same inode as old. *)
Definition link_bad (ip : nat) : KM Z :=
  ilock ip;; add_nlink (-1) ip;; iupdate ip;; iunlockput ip;; end_op;; mret (-1).
Definition link (old new : list Z) : KM Z :=
  begin_op;;
  r ← namei old;
  match r with
  | None => end_op;; mret (-1)
  | Some ip =>
      ilock ip;;
      x ← inode_at ip;
      if i_type x =? T_DIR then iunlockput ip;; end_op;; mret (-1) else
      add_nlink 1 ip;;
      iupdate ip;;
      iunlock ip;;
      r ← nameiparent new;
      match r with
      | (None, _) => link_bad ip
      | (Some dp, name) =>
          ilock dp;;
          y ← inode_at dp;
          x ← inode_at ip;
          if negb (i_dev y =? i_dev x) then iunlockput dp;; link_bad ip else
          r ← dirlink dp name (i_inum x);
          if r <? 0 then iunlockput dp;; link_bad ip else
          iunlockput dp;;
          on_fs (iput ip);;
          end_op;;
          mret 0
      end
  end.
Definition sys_link : KM Z :=
  old ← argstr end_ 0;
  match old with
  | None => mret (-1)
  | Some old => new ← argstr end_ 1; match new with None => mret (-1) | Some new => link old new end
  end.

(** Is the directory dp empty except for "." and ".." ? *)
Fixpoint isdirempty_loop (fuel : nat) (dp : nat) (off : Z) : KM bool :=
  x ← inode_at dp;
  if off <? i_size x then
    match fuel with
    | O => mret false
    | S fuel =>
        r ← on_fs (readi devread dp off 16);
        if negb (fst r =? 16) then panic "isdirempty: readi" else
        if negb (de_inum (snd r) =? 0) then mret false else isdirempty_loop fuel dp (off + 16)
    end
  else mret true.
Definition isdirempty (dp : nat) : KM bool :=
  x ← inode_at dp; isdirempty_loop (Z.to_nat (i_size x / 16 + 1)) dp 32.

Definition DOT : list Z := [46].
Definition DOTDOT : list Z := [46; 46].

Definition unlink_bad (dp : nat) : KM Z := iunlockput dp;; end_op;; mret (-1).
Definition unlink (path : list Z) : KM Z :=
  begin_op;;
  r ← nameiparent path;
  match r with
  | (None, _) => end_op;; mret (-1)
  | (Some dp, name) =>
      ilock dp;;
      if ((namecmp name DOT =? 0) || (namecmp name DOTDOT =? 0))%bool then unlink_bad dp else
      r ← dirlookup dp name;
      match r with
      | None => unlink_bad dp
      | Some (ip, off) =>
          ilock ip;;
          x ← inode_at ip;
          if i_nlink x <? 1 then panic "unlink: nlink < 1" else
          e ← (if i_type x =? T_DIR then isdirempty ip else mret true);
          if negb e then iunlockput ip;; unlink_bad dp else
          r ← on_fs (writei devwrite dp (replicate 16 0) off);
          if negb (r =? 16) then panic "unlink: writei" else
          (if i_type x =? T_DIR then add_nlink (-1) dp;; iupdate dp else mret tt);;
          iunlockput dp;;
          add_nlink (-1) ip;;
          iupdate ip;;
          iunlockput ip;;
          end_op;;
          mret 0
      end
  end.
Definition sys_unlink : KM Z :=
  path ← argstr end_ 0; match path with None => mret (-1) | Some path => unlink path end.

Definition create (path : list Z) (type major minor : Z) : KM (option nat) :=
  r ← nameiparent path;
  match r with
  | (None, _) => mret None
  | (Some dp, name) =>
      ilock dp;;
      r ← dirlookup dp name;
      match r with
      | Some (ip, _) =>
          iunlockput dp;;
          ilock ip;;
          x ← inode_at ip;
          if ((type =? T_FILE) && (i_type x =? T_FILE))%bool then mret (Some ip) else
          iunlockput ip;; mret None
      | None =>
          y ← inode_at dp;
          ip ← on_fs (ialloc (i_dev y) type);
          ilock ip;;
          upd_inode ip (fun x => set_nlink 1 (set_dev_nos major minor x));;
          iupdate ip;;
          x ← inode_at ip;
          (if type =? T_DIR then
             add_nlink 1 dp;;
             iupdate dp;;
             a ← dirlink ip DOT (i_inum x);
             if a <? 0 then panic "create dots" else
             b ← dirlink ip DOTDOT (i_inum y);
             if b <? 0 then panic "create dots" else mret tt
           else mret tt);;
          r ← dirlink dp name (i_inum x);
          if r <? 0 then panic "create: dirlink" else
          iunlockput dp;;
          mret (Some ip)
      end
  end.

Definition open_fail (ip : nat) : KM Z := iunlockput ip;; end_op;; mret (-1).
(** [open] once the inode is found and locked. *)
Definition open_inode (ip : nat) (omode : Z) : KM Z :=
  f ← filealloc;
  match f with
  | None => open_fail ip
  | Some f =>
      fd ← fdalloc f;
      match fd with
      | None => fileclose end_ f;; open_fail ip
      | Some fd =>
          iunlock ip;;
          end_op;;
          upd_file f (fun x => mkfile FD_INODE (f_ref x) (negb (truthy (Z.land omode O_WRONLY)))
            (truthy (Z.land omode O_WRONLY) || truthy (Z.land omode O_RDWR)) (f_pipe x) ip 0);;
          mret (Z.of_nat fd)
      end
  end.
Definition open (path : list Z) (omode : Z) : KM Z :=
  begin_op;;
  if truthy (Z.land omode O_CREATE) then
    r ← create path T_FILE 0 0;
    match r with None => end_op;; mret (-1) | Some ip => open_inode ip omode end
  else
    r ← namei path;
    match r with
    | None => end_op;; mret (-1)
    | Some ip =>
        ilock ip;;
        x ← inode_at ip;
        if ((i_type x =? T_DIR) && negb (omode =? 0))%bool then open_fail ip else open_inode ip omode
    end.
Definition sys_open : KM Z :=
  path ← argstr end_ 0;
  match path with
  | None => mret (-1)
  | Some path => m ← argint end_ 1; match m with None => mret (-1) | Some omode => open path omode end
  end.

(** [sys_mkdir] and [sys_mknod] once the arguments are there. *)
Definition make (path : list Z) (type major minor : Z) : KM Z :=
  r ← create path type major minor;
  match r with None => end_op;; mret (-1) | Some ip => iunlockput ip;; end_op;; mret 0 end.
Definition sys_mkdir : KM Z :=
  begin_op;;
  path ← argstr end_ 0;
  match path with None => end_op;; mret (-1) | Some path => make path T_DIR 0 0 end.
Definition sys_mknod : KM Z :=
  begin_op;;
  path ← argstr end_ 0;
  match path with
  | None => end_op;; mret (-1)
  | Some path =>
      major ← argint end_ 1;
      match major with
      | None => end_op;; mret (-1)
      | Some major =>
          minor ← argint end_ 2;
          match minor with
          | None => end_op;; mret (-1)
          | Some minor => make path T_DEV (s16 major) (s16 minor)
          end
      end
  end.

Definition sys_chdir : KM Z :=
  begin_op;;
  path ← argstr end_ 0;
  match path with
  | None => end_op;; mret (-1)
  | Some path =>
      r ← namei path;
      match r with
      | None => end_op;; mret (-1)
      | Some ip =>
          ilock ip;;
          x ← inode_at ip;
          if negb (i_type x =? T_DIR) then iunlockput ip;; end_op;; mret (-1) else
          iunlock ip;;
          me ← myproc;
          (match p_cwd me with Some c => on_fs (iput c) | None => fault "null dereference" end);;
          end_op;;
          upd_me (set_cwd (Some ip));;
          mret 0
      end
  end.

Definition sys_pipe : KM Z :=
  r ← argptr end_ 0 8;
  match r with
  | None => mret (-1)
  | Some fd =>
      r ← pipealloc end_;
      match r with
      | None => mret (-1)
      | Some (rf, wf) =>
          fd0 ← fdalloc rf;
          match fd0 with
          | None => fileclose end_ rf;; fileclose end_ wf;; mret (-1)
          | Some fd0 =>
              fd1 ← fdalloc wf;
              match fd1 with
              | None =>
                  upd_me (fun x => set_ofile (<[fd0 := None]> (p_ofile x)) x);;
                  fileclose end_ rf;; fileclose end_ wf;; mret (-1)
              | Some fd1 =>
                  put_user end_ fd (le_enc 4 (Z.of_nat fd0));;
                  put_user end_ (fd +u 4) (le_enc 4 (Z.of_nat fd1));;
                  mret 0
              end
          end
      end
  end.

End Sysfile.
End Sysfile.
