(* ===== verification/Exec.v ===== *)
(** * Executing a program

    exec.c and [sys_exec].  The ELF headers are decoded from the bytes [readi] returns. *)

From S2P Require Export Sysfile.
Local Open Scope Z_scope.

Definition ELF_MAGIC : Z := 1179403647.  (* 0x464C457F *)
Definition ELF_PROG_LOAD : Z := 1.

Module Exec.
Import CString Layout Kalloc Vm Proc Fs Kern Kproc Syscall Sysfile.

(** The fields of [struct elfhdr] and [struct proghdr] that are used. *)
Record elfhdr : Type := mkelf { e_magic : Z; e_entry : Z; e_phoff : Z; e_phnum : Z }.
Definition elf_dec (l : list Z) : elfhdr := mkelf (ld32 l 0) (ld32 l 24) (ld32 l 28) (ld16 l 44).
Record proghdr : Type := mkph { ph_type : Z; ph_off : Z; ph_vaddr : Z; ph_filesz : Z; ph_memsz : Z }.
Definition ph_dec (l : list Z) : proghdr := mkph (ld32 l 0) (ld32 l 4) (ld32 l 8) (ld32 l 16) (ld32 l 20).

(** The part of a path after the last slash. *)
Fixpoint last_elem (s last : list Z) : list Z :=
  match s with
  | [] => last
  | c :: s => if c =? SLASH then last_elem s s else last_elem s last
  end.

Section Exec.
Context {B : Type} `{!BlockOps B} `{!TxnOps B}.
Context (end_ data_ : Z).
Context (devread : Z -> option (nat -> Z -> K (fs B) (Z * list Z))).
Local Abbreviation KM := (@KM B).

(** [readi(ip, a, off, n)] into kernel memory. *)
Definition readi_at (ip : nat) (a off n : Z) : KM Z :=
  r ← on_fs (readi devread ip off n);
  on_mem (memmove_in a (snd r));;
  mret (fst r).

(** Load program into memory: the segments from [i] on; [None]: goto bad. *)
Fixpoint exec_load (n : nat) (ip : nat) (off pgdir sz : Z) : KM (option Z) :=
  match n with
  | O => mret (Some sz)
  | S n =>
      r ← on_fs (readi devread ip (u32 off) 32);
      if negb (fst r =? 32) then mret None else
      let ph := ph_dec (snd r) in
      if negb (ph_type ph =? ELF_PROG_LOAD) then exec_load n ip (s32 (off + 32)) pgdir sz else
      if ph_memsz ph <? ph_filesz ph then mret None else
      if (ph_vaddr ph +u ph_memsz ph) <? ph_vaddr ph then mret None else
      sz ← on_mem (allocuvm end_ pgdir sz (ph_vaddr ph +u ph_memsz ph));
      if sz =? 0 then mret None else
      if negb (ph_vaddr ph mod PGSIZE =? 0) then mret None else
      r ← loaduvm (fun A => @on_mem B A) (readi_at ip) pgdir (ph_vaddr ph) (ph_off ph) (ph_filesz ph);
      if r <? 0 then mret None else exec_load n ip (s32 (off + 32)) pgdir sz
  end.

(** Push argument strings: the rest of [argv]; the stack pointer and their addresses. *)
Fixpoint exec_args (argv : list (list Z)) (argc : nat) (pgdir sp : Z) : KM (option (Z * list Z)) :=
  match argv with
  | [] => mret (Some (sp, []))
  | a :: argv =>
      if (MAXARG <=? argc)%nat then mret None else
      let sp := Z.land (sp -u (Z.of_nat (length a) + 1)) (u32 (Z.lnot 3)) in
      r ← on_mem (copyout pgdir sp (a ++ [0]));
      if r <? 0 then mret None else
      r ← exec_args argv (S argc) pgdir sp;
      mret (match r with Some (sp', l) => Some (sp', sp :: l) | None => None end)
  end.

(** The label [bad]. *)
Definition exec_bad (pgdir : Z) (ip : option nat) : KM Z :=
  (if pgdir =? 0 then mret tt else on_mem (freevm end_ pgdir));;
  (match ip with Some ip => iunlockput ip;; end_op | None => mret tt end);;
  mret (-1).

(** From the stack on, the program loaded in [pgdir]. *)
Definition exec_stack (path : list Z) (argv : list (list Z)) (entry pgdir sz : Z) : KM Z :=
  let sz := PGROUNDUP sz in
  sz ← on_mem (allocuvm end_ pgdir sz (sz +u 2 * PGSIZE));
  if sz =? 0 then exec_bad pgdir None else
  on_mem (clearpteu pgdir (sz -u 2 * PGSIZE));;
  r ← exec_args argv 0 pgdir sz;
  match r with
  | None => exec_bad pgdir None
  | Some (sp, addrs) =>
      let argc := Z.of_nat (length addrs) in
      let ustack := [4294967295; argc; sp -u (argc + 1) * 4] ++ addrs ++ [0] in
      let sp := sp -u (3 + argc + 1) * 4 in
      r ← on_mem (copyout pgdir sp (addrs_bytes ustack));
      if r <? 0 then exec_bad pgdir None else
      (* Save program name for debugging. *)
      upd_me (fun p => set_name (safestrcpy_array 16 (p_name p) (last_elem path path)) p);;
      (* Commit to the user image. *)
      me ← myproc;
      cur ← gets k_cur;
      upd_me (fun p => set_tf (set_eip_esp entry sp (p_tf p)) (set_mem sz pgdir p));;
      switchuvm cur;;
      on_mem (freevm end_ (p_pgdir me));;
      mret 0
  end.

Definition exec (path : list Z) (argv : list (list Z)) : KM Z :=
  begin_op;;
  r ← namei devread path;
  match r with
  | None => end_op;; mret (-1)
  | Some ip =>
      ilock ip;;
      (* Check ELF header *)
      r ← on_fs (readi devread ip 0 52);
      if negb (fst r =? 52) then exec_bad 0 (Some ip) else
      let elf := elf_dec (snd r) in
      if negb (e_magic elf =? ELF_MAGIC) then exec_bad 0 (Some ip) else
      pgdir ← on_mem (setupkvm end_ data_);
      if pgdir =? 0 then exec_bad 0 (Some ip) else
      r ← exec_load (Z.to_nat (e_phnum elf)) ip (s32 (e_phoff elf)) pgdir 0;
      match r with
      | None => exec_bad pgdir (Some ip)
      | Some sz =>
          iunlockput ip;;
          end_op;;
          exec_stack path argv (e_entry elf) pgdir sz
      end
  end.

(** The loop of [sys_exec] over the argument vector at [uargv]. *)
Fixpoint exec_argv (n : nat) (uargv : Z) : KM (option (list (list Z))) :=
  match n with
  | O => mret None   (* i >= NELEM(argv) *)
  | S n =>
      uarg ← fetchint end_ uargv;
      match uarg with
      | None => mret None
      | Some uarg =>
          if uarg =? 0 then mret (Some []) else
          a ← fetchstr end_ (u32 uarg);
          match a with
          | None => mret None
          | Some a =>
              r ← exec_argv n (uargv +u 4);
              mret (match r with Some l => Some (a :: l) | None => None end)
          end
      end
  end.
Definition sys_exec : KM Z :=
  path ← argstr end_ 0;
  match path with
  | None => mret (-1)
  | Some path =>
      uargv ← argint end_ 1;
      match uargv with
      | None => mret (-1)
      | Some uargv =>
          argv ← exec_argv MAXARG (u32 uargv);
          match argv with None => mret (-1) | Some argv => exec path argv end
      end
  end.

End Exec.
End Exec.
