(* ===== verification/Trap.v ===== *)
(** * Traps

    The dispatch of system calls in syscall.c, and trap.c.  What the handlers of the disk,
    keyboard and serial interrupts do is not part of this state; nor is the console the
    messages go to. *)

From S2P Require Export Exec.
Local Open Scope Z_scope.

Definition T_PGFLT : Z := 14.
Definition T_IRQ0 : Z := 32.
Definition T_SYSCALL : Z := 64.
Definition IRQ_TIMER : Z := 0.
Definition IRQ_KBD : Z := 1.
Definition IRQ_COM1 : Z := 4.
Definition IRQ_IDE : Z := 14.
Definition IRQ_SPURIOUS : Z := 31.

Module Trap.
Import CString Kalloc Words Vm Proc Fs Kern Kproc Syscall Sysfile Exec.

Section Trap.
Context {B : Type} `{!BlockOps B} `{!TxnOps B}.
Context (end_ data_ : Z).
Context (devread : Z -> option (nat -> Z -> K (fs B) (Z * list Z))).
Context (devwrite : Z -> option (nat -> list Z -> K (fs B) Z)).
Context (date : list Z).
Local Abbreviation KM := (@KM B).

(** [syscalls[]]; the entries are in the order of syscall.h, from 0 on. *)
Definition syscalls : list (option (KM Z)) :=
  [None;
   Some (sys_fork end_ data_); Some (sys_exit end_); Some (sys_wait end_); Some (sys_pipe end_);
   Some (sys_read end_ devread); Some (sys_kill end_); Some (sys_exec end_ data_ devread); Some (sys_fstat end_);
   Some (sys_chdir end_ devread); Some (sys_dup end_); Some sys_getpid; Some (sys_sbrk end_);
   Some (sys_sleep end_); Some sys_uptime; Some (sys_open end_ devread devwrite); Some (sys_write end_ devwrite);
   Some (sys_mknod end_ devread devwrite); Some (sys_unlink end_ devread devwrite); Some (sys_link end_ devread devwrite);
   Some (sys_mkdir end_ devread devwrite); Some (sys_close end_); Some (sys_date end_ date); Some (sys_alarm end_)].

Definition syscall : KM unit :=
  me ← myproc;
  let num := s32 (eax (p_tf me)) in
  match (if 0 <? num then mjoin (syscalls !! Z.to_nat num) else None) with
  | Some f => r ← f; upd_me (fun p => set_tf (set_eax (u32 r) (p_tf p)) p)
  | None => upd_me (fun p => set_tf (set_eax (u32 (-1)) (p_tf p)) p)
  end.

(** The alarm, on a timer interrupt that came in user mode: the frame [tf] is that of the
    process. *)
Definition alarm (tf : trapframe) : KM trapframe :=
  if Z.land (cs tf) SEG_UCODE =? SEG_UCODE then
    me ← myproc;
    let ticks := p_ticks me +u 1 in
    upd_me (fun p => set_alarm (p_alarmticks p) (p_alarmhandler p) ticks p);;
    if u32 (p_alarmticks me) <=? ticks then
      let sp := esp tf -u 4 in
      put_user end_ sp (le_enc 4 (eip tf));;
      upd_me (fun p => set_alarm 0 (p_alarmhandler p) (p_ticks p) p);;
      mret (set_eip_esp (p_alarmhandler me) sp tf)
    else mret tf
  else mret tf.

(** [if(myproc() && myproc()->killed && (tf->cs&3) == DPL_USER) exit();] *)
Definition exit_if_killed (tf : trapframe) : KM unit :=
  me ← myproc;
  if (p_killed me && (Z.land (cs tf) 3 =? DPL_USER))%bool then exit end_ else mret tt.

(** The switch of [trap], a process running, on CPU [cpu]; [cr2] is the address of a page
    fault.  [None]: the function returns at once; else the frame. *)
Definition trap_switch (cpu : nat) (cr2 : Z) (tf : trapframe) : KM (option trapframe) :=
  let no := trapno tf in
  if no =? T_IRQ0 + IRQ_TIMER then
    (if (cpu =? 0)%nat then
       modify (fun s => mkkern (k_mem s) (k_fs s) (k_files s) (k_pipes s) (k_tab s) (k_cur s) (k_ticks s +u 1));;
       wakeup ChTicks
     else mret tt);;
    tf ← alarm tf;
    mret (Some tf)
  else if ((no =? T_IRQ0 + IRQ_IDE) || (no =? T_IRQ0 + IRQ_IDE + 1) || (no =? T_IRQ0 + IRQ_KBD) ||
           (no =? T_IRQ0 + IRQ_COM1) || (no =? T_IRQ0 + 7) || (no =? T_IRQ0 + IRQ_SPURIOUS))%bool then mret (Some tf)
  else if no =? T_PGFLT then
    ok ← pgfault end_ cr2;
    mret (if (ok : bool) then Some tf else None)
  else if Z.land (cs tf) 3 =? 0 then panic "trap"
  else upd_me (set_killed true);; mret (Some tf).

(** [trap], a process running; the result is the frame the trap returns with. *)
Definition trap (cpu : nat) (cr2 : Z) (tf : trapframe) : KM trapframe :=
  me ← myproc;
  if trapno tf =? T_SYSCALL then
    if p_killed me then exit end_ else
    upd_me (set_tf tf);;
    syscall;;
    me ← myproc;
    if p_killed me then exit end_ else mret (p_tf me)
  else
    r ← trap_switch cpu cr2 tf;
    match r with
    | None => mret tf
    | Some tf =>
        exit_if_killed tf;;
        me ← myproc;
        if (is_state RUNNING me && (trapno tf =? T_IRQ0 + IRQ_TIMER))%bool then yield else
        exit_if_killed tf;;
        mret tf
    end.

End Trap.
End Trap.
