(* ===== verification/KernSpec.v ===== *)
(** * What the kernel promises its processes, and where it fails

    Shown: a page fault at an address that is not mapped maps a page of zeros there and
    nothing else; one at an address that is mapped, such as an access of a process to
    memory of the kernel, panics; a pointer argument that is accepted is in the memory of
    the process, unless [sbrk] made that reach into the kernel; and a timer interrupt
    sends a process that asked for no alarm to address 0. *)

From S2P Require Export Trap VmSpec.
Local Open Scope Z_scope.

Module KernSpec.
Import CString Kalloc Words Vm VmSpec Proc Fs Kern Kproc Syscall Sysfile Exec Trap.

Section KernSpec.
Context {B : Type} `{!BlockOps B} `{!TxnOps B}.
Context (end_ data_ : Z) (Hend : KERNBASE <= end_).
Context (devread : Z -> option (nat -> Z -> K (fs B) (Z * list Z))).
Context (devwrite : Z -> option (nat -> list Z -> K (fs B) Z)).

Definition current (s : kern B) (p : proc) : Prop := procs (k_tab s) !! k_cur s = Some p.
Definition with_mem (s : kern B) (m : kmem) : kern B :=
  mkkern m (k_fs s) (k_files s) (k_pipes s) (k_tab s) (k_cur s) (k_ticks s).

Lemma wp_myproc s p (Q : proc -> kern B -> Prop) : current s p -> Q p s -> wp myproc s Q.
Proof. intros Hp HQ. unfold myproc. apply wp_bind, wp_gets. unfold proc_at, wp, arr_get. unfold current in Hp. by rewrite Hp. Qed.
Lemma wp_on_mem {A} (m : K kmem A) s (Q : A -> kern B -> Prop) :
  wp m (k_mem s) (fun a x => Q a (with_mem s x)) -> wp (on_mem m) s Q.
Proof. intros H. by apply wp_zoom. Qed.
Lemma myproc_run s p : current s p -> myproc s = Ret p s.
Proof. intros Hp. unfold myproc, gets, mbind, K_bind, proc_at, arr_get. unfold current in Hp. by rewrite Hp. Qed.

(** ** Page faults *)

(** [kalloc] and [memset] of the page it gives. *)
Lemma fresh_page s pgdir v l :
  vm_ok end_ s pgdir (v :: l) -> exists s1, kalloc s = (v, s1) /\ v <> 0 /\
    let s2 := mkkmem (memset (kmemory s1) v 0 4096) (freelist s1) in
    vm_ok end_ s2 pgdir l /\ page_ok end_ v /\ (v ∉ l) /\ ~ pt_page (kmemory s2) pgdir v /\
    (forall va, va_ok va -> pte (kmemory s2) pgdir va = pte (kmemory s) pgdir va) /\
    (forall va, va_ok va -> pde (kmemory s2) pgdir (PDX va) = pde (kmemory s) pgdir (PDX va)) /\
    forall x, v <= x < v + PGSIZE -> kmemory s2 x = 0.
Proof.
  intros [Hk (Hpd & Hpl & Htab & Hinj)]. destruct (kalloc_spec end_ Hend s v l Hk) as (s1 & Ha & Hk1 & Hni & Hv & Hm).
  exists s1. split; [done|]. pose proof (page_ok_range end_ Hend v Hv). split; [lia|]. intros s2.
  apply not_elem_of_cons in Hpl as [Hpv Hpl].
  assert (pt_ok end_ (kmemory s) pgdir l) as Hpt.
  { split_and!; [done|done| |done]. intros d Hd Hpr. destruct (Htab d Hd Hpr) as (H1 & H2 & H3).
    apply not_elem_of_cons in H2 as [_ H2]. done. }
  assert (~ pt_page (kmemory s) pgdir v) as Hnv.
  { intros [->|(d & Hd & Hpr & Ht)]; [done|]. destruct (Htab d Hd Hpr) as (_ & Hn & _). apply Hn. rewrite Ht. by left. }
  assert (forall x, x < v \/ v + PGSIZE <= x -> kmemory s2 x = kmemory s x) as He.
  { intros x Hx. unfold s2. cbn [kmemory]. rewrite memset_spec, Hm.
    destruct (Z.leb_spec v x), (Z.ltb_spec x (v + Z.of_nat 4096)); cbn [andb]; unfold PGSIZE in Hx; done || lia. }
  assert (forall d, 0 <= d < 1024 -> pde (kmemory s2) pgdir d = pde (kmemory s) pgdir d) as Hpde
    by (eapply (pte_outside end_ _ _ _ l v 0); done).
  split; [split|split_and!].
  - eapply (kmem_ok_ext end_ s1); [done|]. intros w Hw x Hx. etrans; [apply He|by rewrite Hm].
    destruct Hk1 as (_ & _ & Hall). rewrite Forall_forall in Hall.
    apply (page_apart end_ w v x); [by apply Hall|done|by intros ->|done].
  - by eapply pt_ok_ext.
  - done.
  - done.
  - by rewrite (pt_page_ext (kmemory s)).
  - intros va Hva. by eapply (pte_outside end_ _ _ _ l v va).
  - intros va Hva. apply Hpde. by apply PDX_spec.
  - intros x Hx. unfold s2. cbn [kmemory]. rewrite memset_spec.
    rewrite (proj2 (Z.leb_le _ _)), (proj2 (Z.ltb_lt _ _)) by (unfold PGSIZE in Hx; lia). done.
Qed.

Lemma page_down va : va_ok va -> va_ok (PGROUNDDOWN va) /\ PGROUNDDOWN va mod PGSIZE = 0 /\ PGROUNDDOWN va <= va < PGROUNDDOWN va + PGSIZE.
Proof.
  intros Hva. rewrite pgrounddown_spec by done. pose proof (Z.mod_pos_bound va PGSIZE ltac:(done)). unfold va_ok in *.
  pose proof (Z.div_mod va PGSIZE ltac:(done)) as Hd. split; [pose proof (Z.div_pos va PGSIZE); unfold PGSIZE in *; lia|]. split; [|lia].
  replace (va - va mod PGSIZE) with (va / PGSIZE * PGSIZE) by lia. by apply Z.mod_mul.
Qed.

(** [mappages] of one page that is mapped. *)
Lemma mappages_remap s pgdir a pa perm :
  va_ok a -> a mod PGSIZE = 0 -> present (pte (kmemory s) pgdir a) -> mappages pgdir a PGSIZE pa perm s = Panic "remap" s.
Proof.
  intros Ha Hm Hp. unfold mappages. assert (PGROUNDDOWN a = a) as -> by (rewrite pgrounddown_spec by done; lia).
  assert (forall n, mappages_loop (S n) pgdir a (PGROUNDDOWN (a + PGSIZE -u 1)) pa perm s = Panic "remap" s) as H.
  { intros n. rewrite mappages_loop_S. unfold pte in Hp. destruct (truthy (Z.land (pde (kmemory s) pgdir (PDX a)) PTE_P)) eqn:E; [|done].
    unfold mbind, K_bind. rewrite (walk_present s pgdir a true E). unfold load, gets. cbv beta iota. unfold present in Hp. by rewrite Hp. }
  replace (Z.to_nat _) with (S (Z.to_nat ((PGROUNDDOWN (a + PGSIZE -u 1) -u a) / PGSIZE))); [apply H|].
  pose proof (Z.div_pos (PGROUNDDOWN (a + PGSIZE -u 1) -u a) PGSIZE (proj1 (u32_range _)) ltac:(done)). lia.
Qed.

Lemma trap_pgfault cpu va tf (s : kern B) : trapno tf = T_PGFLT ->
  trap_switch end_ cpu va tf s = (ok ← pgfault end_ va; mret (if (ok : bool) then Some tf else None)) s.
Proof. intros Htf. unfold trap_switch. rewrite Htf. reflexivity. Qed.

(** A page fault at an address the page table maps panics the kernel.  The handler maps
    a page wherever the fault was; a process need only touch an address of the kernel,
    or the page below its stack, which are mapped but not for it. *)
Theorem pgfault_remap s p v l va cpu tf :
  current s p -> vm_ok end_ (k_mem s) (p_pgdir p) (v :: l) -> va_ok va ->
  present (pte (kmemory (k_mem s)) (p_pgdir p) (PGROUNDDOWN va)) -> trapno tf = T_PGFLT ->
  exists s', trap_switch end_ cpu va tf s = Panic "remap" s'.
Proof.
  intros Hp Hvm Hva Hpr Htf. destruct (page_down va Hva) as (Hdn & Hmod & _).
  destruct (fresh_page _ _ _ _ Hvm) as (s1 & Ha & Hv & Hvm2 & _ & _ & _ & Hpte & _).
  assert (pgfault end_ va s = Panic "remap" (with_mem s (mkkmem (memset (kmemory s1) v 0 4096) (freelist s1)))) as H.
  { unfold pgfault, mbind, K_bind, on_mem, zoom, kalloc_. rewrite Ha. rewrite (proj2 (Z.eqb_neq v 0) Hv).
    unfold memset_, modify. cbv beta iota. cbn [k_mem]. rewrite (myproc_run _ p); [|exact Hp]. cbn [k_mem].
    rewrite mappages_remap; [done|done|done|]. by rewrite Hpte. }
  eexists. rewrite trap_pgfault by done. unfold mbind, K_bind. by rewrite H.
Qed.


(** ** Arguments of system calls *)

(** A block of memory that [argptr] accepts is in the memory of the process, and the
    sum it computes does not wrap around, as long as the size of the process is at most
    [KERNBASE]. *)
Theorem argptr_inside s p n size a s' :
  current s p -> 0 <= p_sz p <= KERNBASE -> size < 2 ^ 31 -> argptr end_ n size s = Ret (Some a) s' ->
  0 <= size /\ 0 <= a < p_sz p /\ a + size <= p_sz p.
Proof.
  intros Hp Hsz Hs. unfold argptr, mbind, K_bind. rewrite (myproc_run s p Hp).
  destruct (argint end_ n s) as [[i|] s1| | |]; try done.
  destruct (_ || _)%bool eqn:E; [done|]. intros [= <- _]. apply orb_false_iff in E as [[E1 E2]%orb_false_iff E3].
  apply Z.ltb_ge in E1, E3. apply Z.leb_gt in E2. pose proof (u32_range i). unfold KERNBASE in *.
  rewrite (u32_small (u32 i + size)) in E3 by lia. lia.
Qed.

(** The memory of the process ends above [KERNBASE]; an address of the kernel passes. *)
Lemma fetchint_kernel s p : current s p -> KERNBASE + 4 <= p_sz p ->
  fetchint end_ KERNBASE s = (l ← get_user end_ 4 KERNBASE; mret (Some (s32 (Bytes.le_dec l)))) s.
Proof.
  intros Hp Hsz. unfold fetchint, mbind at 1, K_bind at 1. rewrite (myproc_run s p Hp). unfold KERNBASE in *.
  rewrite (proj2 (Z.leb_gt _ _)), (u32_small (_ + 4)), (proj2 (Z.ltb_ge _ _)) by lia. done.
Qed.

(** [sys_sbrk] adds what it is asked to the size of the process without looking at it.
    With [n] enough, the size is then above [KERNBASE], and [fetchint] of the first
    address of the kernel does not refuse, but reads it for the process. *)
Theorem sbrk_reaches_kernel s p n s1 :
  current s p -> argint end_ 0 s = Ret (Some n) s1 -> current s1 p -> KERNBASE + 4 <= p_sz p + n < 2 ^ 32 ->
  exists s2, sys_sbrk end_ s = Ret (s32 (p_sz p)) s2 /\
    fetchint end_ KERNBASE s2 = (l ← get_user end_ 4 KERNBASE; mret (Some (s32 (Bytes.le_dec l)))) s2.
Proof.
  intros Hp Ha Hp1 Hn. set (p' := set_mem (p_sz p +u n) (p_pgdir p) p).
  exists (set_procs (<[k_cur s1 := p']> (procs (k_tab s1))) s1). split.
  - unfold sys_sbrk, mbind, K_bind. rewrite Ha, (myproc_run s1 p Hp1). unfold upd_me, upd_proc, gets, proc_at, arr_get, mbind, K_bind.
    unfold current in Hp1. by rewrite Hp1.
  - apply (fetchint_kernel _ p').
    + unfold current. cbn. apply list_lookup_insert_eq. by eapply lookup_lt_Some.
    + cbn. rewrite u32_small; [lia|]. unfold KERNBASE in *. lia.
Qed.

(** ** The alarm *)

(** A timer interrupt in user mode, of a process that has not asked for an alarm, makes
    it go on at address 0, as if it had called a handler there: the number of ticks
    asked for, zero, has always passed. *)
Theorem alarm_unasked s p tf s2 :
  current s p -> p_alarmticks p = 0 -> p_alarmhandler p = 0 -> cs tf = cs user_tf -> 0 <= p_ticks p ->
  let s1 := set_procs (<[k_cur s := set_alarm 0 0 (p_ticks p +u 1) p]> (procs (k_tab s))) s in
  put_user end_ (esp tf -u 4) (le_enc 4 (eip tf)) s1 = Ret tt s2 -> is_Some (procs (k_tab s2) !! k_cur s2) ->
  exists s', alarm end_ tf s = Ret (set_eip_esp 0 (esp tf -u 4) tf) s'.
Proof.
  intros Hp Ht Hh Hcs Hpos s1 Hput [q Hq]. unfold alarm. rewrite Hcs. change (Z.land (cs user_tf) SEG_UCODE =? SEG_UCODE) with true. cbv iota.
  unfold mbind, K_bind. rewrite (myproc_run s p Hp). rewrite Ht, Hh.
  assert (upd_me (fun p0 => set_alarm (p_alarmticks p0) (p_alarmhandler p0) (p_ticks p +u 1) p0) s = Ret tt s1) as ->.
  { unfold upd_me, upd_proc, gets, proc_at, arr_get, mbind, K_bind. unfold current in Hp. rewrite Hp. cbn. by rewrite Ht, Hh. }
  rewrite (proj2 (Z.leb_le _ _)) by (change (u32 0) with 0; apply u32_range). rewrite Hput.
  unfold upd_me, upd_proc, gets, proc_at, arr_get, mbind, K_bind. rewrite Hq. cbn. by eexists.
Qed.

End KernSpec.
End KernSpec.
