(* ===== verification/KernExample.v ===== *)
(** * The kernel on concrete states

    A process with one page of memory, at address 0, and one page of memory free; the
    theorems on page faults, arguments and the alarm applied to it.  There is no disk: the
    block layer is one whose operations all fault. *)

From S2P Require Export KernSpec.
Local Open Scope Z_scope.

Module KernExample.
Import CString Kalloc Words Vm VmSpec Proc Fs Kern Kproc Syscall Sysfile Exec Trap KernSpec.

#[local] Instance no_disk : BlockOps unit := {|
  bl_bread _ _ := fault "no disk"; bl_data _ := fault "no disk"; bl_set_data _ _ := fault "no disk";
  bl_log_write _ := fault "no disk"; bl_brelse _ := fault "no disk" |}.
#[local] Instance no_log : TxnOps unit := {| tx_init _ := fault "no disk"; tx_begin := fault "no disk"; tx_end := fault "no disk" |}.

(** As [one_page], with page 4 free and the bytes of the first argument [w]. *)
Definition mem1 (w : Z) : kmem := mkkmem (poke32 (kmemory one_page) (pg 3 + 4) w) (pg 4).

Lemma mem1_pde w d : 0 <= d < 1024 -> pde (kmemory (mem1 w)) (pg 1) d = pde (kmemory one_page) (pg 1) d.
Proof. intros Hd. apply load_poke_ne. unfold pg, PGSIZE. lia. Qed.

Lemma mem1_ok w : vm_ok KERNBASE (mem1 w) (pg 1) [pg 4].
Proof.
  split; [split; [|split; [apply NoDup_singleton|apply Forall_singleton; by apply pg_ok]]|].
  - cbn [chain freelist mem1]. split; [done|]. unfold mem1, one_page. cbn [kmemory].
    rewrite !load_poke_ne by (unfold pg, PGSIZE; lia). done.
  - destruct one_page_ok as [_ (H1 & _ & H3 & H4)]. eapply (pt_ok_ext KERNBASE (kmemory one_page)); [by apply mem1_pde|].
    split_and!; [done|by intros H%list_elem_of_singleton| |done].
    intros d Hd Hp. destruct (H3 d Hd Hp) as (H5 & _ & H6). split; [done|]. split; [|done]. intros Hin%list_elem_of_singleton.
    rewrite one_page_pde in Hp by done. case_decide; [|done]. subst d. by vm_compute in Hin.
Qed.

(** The process; its stack pointer is 0, its size one page. *)
Definition proc1 : proc :=
  mkproc PGSIZE (pg 1) (pg 5) RUNNING 1 None user_tf None false (replicate NOFILE None) (Some 0%nat) (replicate 16 0) 0 0 0.
Definition proc1_args : proc := set_tf tf0 proc1.
Definition kern1 (w : Z) (p : proc) : kern unit :=
  mkkern (mem1 w) (mkfs tt (Layout.mksb 0 0 0 0 0 0 0) []) [] ∅ (mkptab [p] 2 (Some 0%nat)) 0 0.

Definition fault_tf : trapframe := mktf 0 0 0 0 0 0 0 0 0 0 0 0 T_PGFLT 0 0 (cs user_tf) 0 0 0.

(** The process touches a page that is mapped. *)
Lemma pgfault_remap_witness : exists s', trap_switch KERNBASE 0 100 fault_tf (kern1 0 proc1) = Panic "remap" s'.
Proof.
  apply (pgfault_remap KERNBASE ltac:(done) (kern1 0 proc1) proc1 (pg 4) []); [done|apply mem1_ok|done| |done].
  vm_compute. done.
Defined.


Lemma argptr_inside_witness : argptr KERNBASE 0 4 (kern1 300 proc1_args) = Ret (Some 300) (kern1 300 proc1_args) /\
  0 <= 4 /\ 0 <= 300 < PGSIZE /\ 300 + 4 <= PGSIZE.
Proof.
  split; [reflexivity|].
  apply (argptr_inside KERNBASE (kern1 300 proc1_args) proc1_args 0 4 300 (kern1 300 proc1_args)); [done|done|done|reflexivity].
Defined.

(** [sbrk(0x7fffffff)] *)
Lemma sbrk_reaches_kernel_witness : exists s2, sys_sbrk KERNBASE (kern1 2147483647 proc1_args) = Ret 4096 s2 /\
    fetchint KERNBASE KERNBASE s2 = (l ← get_user KERNBASE 4 KERNBASE; mret (Some (s32 (Bytes.le_dec l)))) s2.
Proof.
  apply (sbrk_reaches_kernel KERNBASE (kern1 2147483647 proc1_args) proc1_args 2147483647 (kern1 2147483647 proc1_args)); [done|reflexivity|done|done].
Defined.

(** The stack pointer is at the end of the page, where the return address goes. *)
Definition pushed1 : mem :=
  poke (poke (poke (poke (kmemory (mem1 0)) (pg 3 + 4092) 0) (pg 3 + 4093) 0) (pg 3 + 4094) 0) (pg 3 + 4095) 0.
Definition after1 : kern unit := with_mem (kern1 0 (set_alarm 0 0 1 proc1)) (mkkmem pushed1 (pg 4)).

Lemma alarm_unasked_witness : exists s', alarm KERNBASE user_tf (kern1 0 proc1) = Ret (set_eip_esp 0 4092 user_tf) s'.
Proof.
  apply (alarm_unasked KERNBASE (kern1 0 proc1) proc1 user_tf after1); [done|done|done|done|done|reflexivity|by eexists].
Defined.

End KernExample.
