(* ===== verification/KprocSpec.v ===== *)
(** * [fork], [exit] and [wait] on the whole kernel

    What [fork], [exit] and [wait] of proc.c do with memory, files and the process table together.

    Shown: [fork] makes a process that is a copy of its parent, with an address space of its
    own and a count on each open file and on the directory, and returns its pid, or fails and
    leaves nothing behind but, at most, one page; and the whole life of a child, from [fork]
    through the scheduler, [exit] and [wait], leaves memory, files, inodes and processes as
    they were. *)

From S2P Require Export KernSpec VmCopy.
Local Open Scope Z_scope.

Module KprocSpec.
Import CString Kalloc Words Vm VmSpec VmSpace VmCopy Proc Kern Kproc KernSpec.

Section KprocSpec.
Context {B : Type} `{!BlockOps B} `{!TxnOps B}.
Implicit Types s : kern B.

(** ** The process table *)

(** [s] with [p] in slot [i]. *)
Definition with_proc (i : nat) (p : proc) (s : kern B) : kern B := set_procs (<[i := p]> (procs (k_tab s))) s.

Lemma with_proc_twice i p q s : with_proc i p (with_proc i q s) = with_proc i p s.
Proof. unfold with_proc, set_procs, set_tab. cbn. by rewrite list_insert_insert_eq. Qed.

Lemma wp_upd_proc i p f s (Q : unit -> kern B -> Prop) :
  (i < length (procs (k_tab s)))%nat -> Q tt (with_proc i (f p) s) -> wp (upd_proc i f) (with_proc i p s) Q.
Proof.
  intros Hi HQ. unfold upd_proc. apply wp_bind. eapply wp_arr_get; [by apply list_lookup_insert_eq|]. apply wp_modify.
  change (Q tt (with_proc i (f p) (with_proc i p s))). by rewrite with_proc_twice.
Qed.

Lemma wp_proc_at i p s (Q : proc -> kern B -> Prop) :
  (i < length (procs (k_tab s)))%nat -> Q p (with_proc i p s) -> wp (proc_at i) (with_proc i p s) Q.
Proof. intros Hi HQ. eapply wp_arr_get; [by apply list_lookup_insert_eq|done]. Qed.

(** ** Open files *)

(** How many of the descriptors are file [f]. *)
Definition refs (f : nat) (l : list (option nat)) : Z := Z.of_nat (length (filter (fun o => o = Some f) l)).
(** The table of files with one more reference for each descriptor. *)
Definition bump (l : list (option nat)) (fs : list file) : list file := imap (fun f x => set_fref (f_ref x + refs f l) x) fs.
Definition open_files (fs : list file) (l : list (option nat)) : Prop :=
  forall f, Some f ∈ l -> exists x, fs !! f = Some x /\ 1 <= f_ref x.

Lemma refs_nil f : refs f [] = 0.
Proof. done. Qed.
Lemma refs_cons f o l : refs f (o :: l) = (if decide (o = Some f) then 1 else 0) + refs f l.
Proof. unfold refs. rewrite filter_cons. case_decide; cbn [length]; lia. Qed.

Lemma bump_lookup l fs f : bump l fs !! f = (fun x => set_fref (f_ref x + refs f l) x) <$> fs !! f.
Proof. apply list_lookup_imap. Qed.

Lemma bump_nil fs : bump [] fs = fs.
Proof.
  apply list_eq. intros f. rewrite bump_lookup, refs_nil. destruct (fs !! f) as [[]|]; [|done]. cbn. by rewrite Z.add_0_r.
Qed.

Lemma bump_cons_none l fs : bump (None :: l) fs = bump l fs.
Proof. apply list_eq. intros f. rewrite !bump_lookup, refs_cons. by rewrite decide_False by done. Qed.

Lemma bump_cons f x l fs : fs !! f = Some x -> bump l (<[f := set_fref (f_ref x + 1) x]> fs) = bump (Some f :: l) fs.
Proof.
  intros Hf. apply list_eq. intros g. rewrite !bump_lookup, refs_cons. destruct (decide (f = g)) as [<-|Hne].
  - rewrite list_lookup_insert_eq by (by eapply lookup_lt_Some). rewrite Hf, decide_True by done. cbn [fmap option_fmap option_map].
    replace (f_ref x + (1 + refs f l)) with (f_ref x + 1 + refs f l) by lia. by destruct x.
  - rewrite list_lookup_insert_ne by done. rewrite decide_False by congruence. done.
Qed.

Lemma dup_files_spec l : forall s (Q : list (option nat) -> kern B -> Prop),
  open_files (k_files s) l -> Q l (set_files (bump l (k_files s)) s) -> wp (dup_files l) s Q.
Proof.
  induction l as [|[f|] l IH]; intros s Q Ho HQ; cbn [dup_files].
  - apply wp_ret. rewrite bump_nil in HQ. by destruct s.
  - destruct (Ho f) as (x & Hf & Hr); [by apply elem_of_cons; left|]. apply wp_bind. unfold filedup. apply wp_bind.
    eapply wp_arr_get; [exact Hf|]. rewrite (proj2 (Z.ltb_ge _ _)) by done. apply wp_bind. unfold upd_file. apply wp_bind.
    eapply wp_arr_get; [exact Hf|]. apply wp_modify, wp_ret, wp_bind, IH.
    + intros g Hg. destruct (decide (f = g)) as [<-|Hne]; cbn [k_files set_files].
      * rewrite list_lookup_insert_eq by (by eapply lookup_lt_Some). eexists. split; [done|]. cbn. lia.
      * rewrite list_lookup_insert_ne by done. apply Ho. apply elem_of_cons. by right.
    + apply wp_ret. cbn [k_files set_files]. by rewrite (bump_cons f x).
  - apply wp_bind, IH; [intros g Hg; apply Ho, elem_of_cons; by right|]. apply wp_ret. by rewrite bump_cons_none in HQ.
Qed.

(** A slot that is not in use has no open files. *)
Lemma inherit_fresh l : length l = NOFILE -> inherit (replicate NOFILE None) l = l.
Proof.
  intros Hl. apply list_eq. intros i. unfold inherit. rewrite lookup_zip_with.
  destruct (decide (i < NOFILE)%nat) as [Hi|Hi].
  - rewrite lookup_replicate_2 by done. cbn. by destruct (l !! i) as [[|]|].
  - rewrite (lookup_ge_None_2 l) by lia. rewrite (lookup_ge_None_2 (replicate _ _)) by (rewrite length_replicate; lia). done.
Qed.

(** ** [allocproc] *)

Section Memory.
Context (end_ data_ : Z) (Hend : KERNBASE < end_) (Hdata : data_ mod PGSIZE = 0 /\ KERNLINK < data_ < KERNBASE + PHYSTOP).
Local Abbreviation kmem_ok := (kmem_ok end_).
Local Abbreviation page_ok := (page_ok end_).
Local Abbreviation untouched := (untouched end_).

Definition next_pid (s : kern B) : kern B :=
  set_tab (mkptab (procs (k_tab s)) (s32 (nextpid (k_tab s) + 1)) (initproc (k_tab s))) s.
(** The slot with its new pid. *)
Definition born (s : kern B) (p : proc) : proc := set_pid (nextpid (k_tab s)) (set_state EMBRYO p).

Lemma alter_insert {A} (f : A -> A) (l : list A) i x : l !! i = Some x -> alter f i l = <[i := f x]> l.
Proof.
  intros Hx. apply list_eq. intros j. destruct (decide (i = j)) as [<-|Hne].
  - rewrite list_lookup_alter_eq, list_lookup_insert_eq by (by eapply lookup_lt_Some). by rewrite Hx.
  - by rewrite list_lookup_alter_ne, list_lookup_insert_ne.
Qed.

(** A free slot and a free page. *)
Definition slot_at (s : kern B) (i : nat) (p : proc) : Prop := procs (k_tab s) !! i = Some p /\ p_state p = UNUSED.

Lemma first_slot_none test l : forall i, first_slot test l i = None -> forall j p, l !! j = Some p -> test p = false.
Proof.
  induction l as [|q l IH]; intros i; cbn [first_slot]; [done|]. destruct (test q) eqn:E; [done|]. intros Hn [|j] p Hp.
  - by injection Hp as <-.
  - by apply (IH (S i) Hn j).
Qed.

Lemma allocproc_spec s l0 (Q : option nat -> kern B -> Prop) :
  kmem_ok (k_mem s) l0 -> ((forall i p, ~ slot_at s i p) -> Q None s) ->
  (forall i p, slot_at s i p -> l0 = [] -> Q None (with_proc i (set_state UNUSED (set_kstack 0 (born s p))) (next_pid s))) ->
  (forall i p k l, slot_at s i p -> l0 = k :: l -> Q (Some i) (with_proc i (set_alarm 0 0 0 (set_kstack k (born s p)))
     (with_mem (next_pid s) (mkkmem (kmemory (k_mem s)) (load32 (kmemory (k_mem s)) k))))) ->
  wp allocproc s Q.
Proof.
  intros Hk Hn He Hs. unfold allocproc. apply wp_bind, wp_gets. unfold alloc_slot.
  destruct (first_slot _ _ _) as [i|] eqn:Hi.
  2: { apply wp_ret, Hn. intros i p [Hp Hst]. pose proof (first_slot_none _ _ _ Hi i p Hp) as Hf. by apply bool_decide_eq_false_1 in Hf. }
  apply first_slot_spec in Hi as (p & _ & Hp & Hst). rewrite Nat.sub_0_r in Hp. apply bool_decide_eq_true_1 in Hst.
  assert (slot_at s i p) as Hsl by done. assert (i < length (procs (k_tab s)))%nat as Hlt by (by eapply lookup_lt_Some).
  apply wp_bind, wp_modify. rewrite (alter_insert _ _ i p) by done.
  match goal with |- context [set_tab ?t s] => change (set_tab t s) with (with_proc i (born s p) (next_pid s)) end.
  apply wp_bind, wp_on_mem. cbn [k_mem with_proc next_pid set_procs set_tab]. destruct l0 as [|k l].
  - eapply wp_eq; [unfold kalloc_; by rewrite (kalloc_empty end_)|]. apply wp_bind.
    apply (wp_upd_proc i _ _ (with_mem (next_pid s) (k_mem s))); [done|].
    apply wp_bind. eapply wp_upd_proc; [done|]. apply wp_ret. specialize (He i p Hsl eq_refl). by destruct s as [? ? ? ? [] ? ?].
  - destruct (kalloc_cons end_ Hend _ k l Hk) as [Hrun Hk0]. eapply wp_eq; [exact Hrun|]. apply wp_bind.
    apply (wp_upd_proc i _ _ (with_mem (next_pid s) (mkkmem (kmemory (k_mem s)) (load32 (kmemory (k_mem s)) k)))); [done|].
    rewrite (proj2 (Z.eqb_neq k 0)) by done. apply wp_bind, wp_upd_proc; [done|]. apply wp_ret. by apply (Hs i p k l).
Qed.

(** ** [fork] *)

(** What [fork] relies on: the parent's memory is mapped to pages that are not free, its files
    are open, its directory is in the inode cache, and slots not in use have no open files. *)
Record may_fork (s : kern B) (me : proc) (ip : nat) (x : Fs.inode) (l0 : list Z) : Prop := {
  mf_current : current s me;
  mf_free : kmem_ok (k_mem s) l0;
  mf_parent : parent_ok end_ (kmemory (k_mem s)) (p_pgdir me) l0 (p_sz me);
  mf_nofile : length (p_ofile me) = NOFILE;
  mf_open : open_files (k_files s) (p_ofile me);
  mf_cwd : p_cwd me = Some ip;
  mf_inode : Fs.icache (k_fs s) !! ip = Some x;
  mf_slots : forall i p, slot_at s i p -> p_ofile p = replicate NOFILE None
}.

(** The process that [fork] makes of slot [p], with a kernel stack and a page table. *)
Definition child_of (s : kern B) (me p : proc) (k pgdir : Z) : proc :=
  mkproc (p_sz me) pgdir k RUNNABLE (nextpid (k_tab s)) (Some (k_cur s)) (set_eax 0 (p_tf me)) (p_chan p) (p_killed p)
    (p_ofile me) (p_cwd me) (safestrcpy_array 16 (p_name p) (p_name me)) 0 0 0.

Definition forked (s : kern B) (me : proc) (ip : nat) (x : Fs.inode) (l0 : list Z) (r : Z) (s' : kern B) : Prop :=
  exists i p k used l pgdir, slot_at s i p /\ l0 = k :: used ++ l /\ r = nextpid (k_tab s) /\
    s' = mkkern (k_mem s')
           (Fs.mkfs (Fs.blk (k_fs s)) (Fs.sb (k_fs s)) (<[ip := Fs.set_ref (Fs.i_ref x + 1) x]> (Fs.icache (k_fs s))))
           (bump (p_ofile me) (k_files s)) (k_pipes s)
           (mkptab (<[i := child_of s me p k pgdir]> (procs (k_tab s))) (s32 (nextpid (k_tab s) + 1)) (initproc (k_tab s)))
           (k_cur s) (k_ticks s) /\
    copied end_ data_ (kmemory (k_mem s)) (k_mem s') (p_pgdir me) pgdir used l (p_sz me).

(** There was no slot, or not memory for the stack, the copies and all possible page tables;
    nothing but a slot that is not in use has changed, and one page may be lost. *)
Definition fork_failed (s : kern B) (me : proc) (l0 : list Z) (s' : kern B) : Prop :=
  ((forall i p, ~ slot_at s i p) \/ (length l0 <= 1028 + Z.to_nat (p_sz me / PGSIZE + 1))%nat) /\
  s' = mkkern (k_mem s') (k_fs s) (k_files s) (k_pipes s) (k_tab s') (k_cur s) (k_ticks s) /\
  initproc (k_tab s') = initproc (k_tab s) /\
  (procs (k_tab s') = procs (k_tab s) \/
   exists i p q, slot_at s i p /\ p_state q = UNUSED /\ p_ofile q = p_ofile p /\ procs (k_tab s') = <[i := q]> (procs (k_tab s))) /\
  exists l, kmem_ok (k_mem s') l /\ untouched (kmemory (k_mem s)) (kmemory (k_mem s')) l0 /\ (l ≡ₚ l0 \/ exists t, t :: l ≡ₚ l0).

Lemma parent_ok_tail m pgdir k l sz : parent_ok end_ m pgdir (k :: l) sz -> parent_ok end_ m pgdir l sz.
Proof.
  intros ((H1 & H2 & H3 & H4) & Hsz & Hp). apply not_elem_of_cons in H2 as [_ H2]. split; [split_and!; [done|done| |done]|split; [done|]].
  - intros d Hd Hpr. destruct (H3 d Hd Hpr) as (Ha & Hb & Hc). by apply not_elem_of_cons in Hb as [_ Hb].
  - intros va Hva Hlt. destruct (Hp va Hva Hlt) as (Ha & Hb & Hc). by apply not_elem_of_cons in Hc as [_ Hc].
Qed.

Lemma kmem_tail (m : kmem) k l : kmem_ok m (k :: l) ->
  kmem_ok (mkkmem (kmemory m) (load32 (kmemory m) k)) l /\ page_ok k /\ (k ∉ l).
Proof. intros ([_ Hc] & [Hn Hd]%NoDup_cons & [Hk Hl]%Forall_cons). done. Qed.

(** After a failure of [copyuvm] the stack is freed and the slot given back. *)
Lemma fork_fails s me l0 i p k l m c :
  kmem_ok (k_mem s) l0 -> slot_at s i p -> l0 = k :: l -> p_ofile c = p_ofile p -> p_kstack c = k ->
  copy_outcome end_ data_ (kmemory (k_mem s)) (p_pgdir me) (p_sz me) l 0 m ->
  wp (x ← proc_at i; on_mem (kfree_ end_ (p_kstack x));; upd_proc i (set_kstack 0);; upd_proc i (set_state UNUSED);; mret (-1))
    (with_proc i c (with_mem (next_pid s) m)) (fun r s' => r = -1 /\ fork_failed s me l0 s').
Proof.
  intros Hk Hsl -> Hof Hks [[? _]|(_ & Hshort & l' & Hk' & Hout & Hl)]; [done|]. destruct Hsl as [Hp Hst].
  assert (i < length (procs (k_tab s)))%nat as Hlt by (by eapply lookup_lt_Some).
  destruct (kmem_tail _ k l Hk) as (_ & Hpk & Hni).
  assert (k ∉ l') as Hni' by (intros Hin; apply Hni; destruct Hl as [Hl|[t Hl]]; rewrite <- Hl; [done|by apply elem_of_cons; right]).
  apply wp_bind, wp_proc_at; [done|]. apply wp_bind, wp_on_mem. rewrite Hks.
  eapply wp_mono; [by apply (kfree_wp end_ Hend k m l')|]. intros [] m' [Hk2 He]. apply wp_bind.
  apply (wp_upd_proc i _ _ (with_mem (next_pid s) m')); [done|]. apply wp_bind, wp_upd_proc; [done|]. apply wp_ret.
  split; [done|]. split; [right; cbn [length]; lia|].
  split; [done|]. split; [done|]. split; [right; exists i, p; eexists; split; [done|]; split; [|split]; [..|done]; done|].
  exists (k :: l'). split; [done|]. split.
  - intros w Hw [Hwk Hwl]%not_elem_of_cons y Hy. cbn. rewrite (He w) by done. by apply (Hout w).
  - destruct Hl as [Hl|[t Hl]]; [left; by rewrite Hl|right; exists t]. rewrite <- Hl. apply perm_swap.
Qed.

Lemma fork_spec s me ip x l0 :
  may_fork s me ip x l0 ->
  wp (fork end_ data_) s (fun r s' => forked s me ip x l0 r s' \/ r = -1 /\ fork_failed s me l0 s').
Proof.
  intros [Hme Hk Hpar Hno Hopen Hcwd Hin Hslots]. unfold fork. apply wp_bind, wp_gets, wp_bind. eapply wp_myproc; [exact Hme|].
  apply wp_bind, (allocproc_spec s l0); [done| | |].
  - intros Hnone. apply wp_ret. right. split; [done|]. split; [by left|]. split; [by destruct s|]. split; [done|]. split; [by left|]. exists l0. split; [done|]. split; [done|by left].
  - intros i p Hsl ->. apply wp_ret. right. split; [done|]. split; [right; cbn [length]; lia|]. split; [done|]. split; [done|].
    split; [right; exists i, p; eexists; split; [done|]; split; [|split]; [..|done]; done|]. exists []. split; [done|]. split; [done|by left].
  - intros i p k l Hsl ->. assert (i < length (procs (k_tab s)))%nat as Hlt by (destruct Hsl; by eapply lookup_lt_Some).
    apply wp_bind, wp_on_mem. destruct (kmem_tail _ k l Hk) as (Hk1 & _ & _). apply parent_ok_tail in Hpar.
    eapply wp_mono; [by apply (copyuvm_spec end_ data_ Hend Hdata _ (p_pgdir me) (p_sz me) l)|].
    intros pgdir m Hout. cbn [kmemory] in Hout. apply wp_bind, (wp_upd_proc i _ _ (with_mem (next_pid s) m)); [done|].
    destruct (Z.eqb_spec pgdir 0) as [->|Hd].
    + eapply wp_mono; [apply (fork_fails s me (k :: l) i p k l m); [done|done|done|done|done|]|by auto].
      destruct Hout as [[? _]|?]; [done|]. by right.
    + destruct Hout as [(_ & used & l' & -> & Hcp)|[? _]]; [|done].
      do 4 (apply wp_bind, wp_upd_proc; [done|]). apply wp_bind, dup_files_spec; [exact Hopen|]. cbn [k_files set_files with_proc set_procs set_tab with_mem next_pid].
      apply wp_bind, (wp_upd_proc i _ _ (set_files (bump (p_ofile me) (k_files s)) (with_mem (next_pid s) m))); [done|].
      rewrite Hcwd. apply wp_bind. unfold on_fs. apply wp_zoom. unfold Fs.idup. apply wp_bind. unfold Fs.upd_inode. apply wp_bind.
      eapply wp_arr_get; [exact Hin|]. apply wp_modify, wp_ret. apply wp_bind.
      eapply (wp_upd_proc i _ _ (mkkern m (Fs.mkfs (Fs.blk (k_fs s)) (Fs.sb (k_fs s)) (<[ip := Fs.set_ref (Fs.i_ref x + 1) x]> (Fs.icache (k_fs s))))
        (bump (p_ofile me) (k_files s)) (k_pipes s) (k_tab (next_pid s)) (k_cur s) (k_ticks s))); [done|].
      apply wp_bind, wp_upd_proc; [done|]. apply wp_bind, wp_proc_at; [done|]. apply wp_bind, wp_upd_proc; [done|]. apply wp_ret.
      left. exists i, p, k, used, l', pgdir. split; [done|]. split; [done|]. split; [done|]. split; [|done].
      unfold with_proc, set_procs, set_tab. cbn. rewrite (Hslots i p Hsl), inherit_fresh by done. unfold child_of. by rewrite Hcwd.
Qed.

(** C11: [fork], on a kernel with any processes, files and memory: the child is in a slot that
    was free, runnable, with a new pid, the parent's size, trap frame (but 0 in %eax), open
    files, directory and name, a kernel stack of its own, and an address space with a copy of
    every page of the parent; every open file and the directory has one more reference for
    each descriptor of the child; no other process has changed, nor any page that was not
    free; and the parent gets the pid.  Or the parent gets -1: then there was no slot or not
    memory for the stack, the copies and all possible page tables, files and processes are as
    before, and the free pages too, but for one that may be lost. *)
Theorem fork_copies s me ip x l0 :
  may_fork s me ip x l0 ->
  wp (fork end_ data_) s (fun r s' => forked s me ip x l0 r s' \/ r = -1 /\ fork_failed s me l0 s').
Proof. apply fork_spec. Qed.

(** The name that the child gets. *)
Lemma child_name s me p k pgdir : until_nul (p_name (child_of s me p k pgdir)) = take 15 (until_nul (p_name me)).
Proof.
  cbn [child_of p_name]. unfold safestrcpy_array. change (16 - 1)%nat with 15%nat. generalize (drop (length (take 15 (until_nul (p_name me))) + 1) (p_name p)).
  generalize 15%nat. cbn [app]. induction (p_name me) as [|c l IH]; intros n r; cbn [until_nul]; [by rewrite take_nil|].
  destruct (Z.eqb_spec c 0) as [->|Hc]; [by rewrite take_nil|]. destruct n as [|n]; [done|]. cbn [take app until_nul].
  rewrite (proj2 (Z.eqb_neq c 0)) by done. by rewrite IH.
Qed.

(** ** [wait] *)

(** The address space is the same when its page table is, and its pages are still not free. *)
Lemma owns_ext (m m' : kmem) d used l ps l' :
  owns end_ m d used l -> pt_ok end_ (kmemory m) d ps -> untouched (kmemory m) (kmemory m') ps -> kmem_ok m' l' -> l' ⊆ ps ->
  (forall v, v ∈ used -> v ∉ l') -> owns end_ m' d used l'.
Proof.
  intros (_ & [Hs Hi] & Hnd & Hus) Hpt Hout Hkm Hsub Hul. destruct (parent_same end_ _ _ _ _ Hpt Hout) as [Hpde Hpte].
  split; [split; [done|]|split; [split|split; [done|]]].
  - apply (pt_ok_ext end_ (kmemory m)); [done|]. destruct Hpt as (H1 & H2 & H3 & H4). split_and!; [done|by intros ?%Hsub| |done].
    intros e He Hp. destruct (H3 e He Hp) as (H5 & Hn & H6). split_and!; [done|by intros ?%Hsub|done].
  - intros va Hva Hr. unfold upage. rewrite Hpte by done. intros Hp. destruct (Hs va Hva Hr Hp) as (H1 & H2 & H3). split; [done|].
    rewrite (pt_page_ext (kmemory m)) by done. split; [done|]. apply Hul, Hus. right. by exists va.
  - intros va va' Hva Hva' Hr Hr'. unfold upage. rewrite !Hpte by done. by apply Hi.
  - intros v. rewrite Hus. unfold space_page, user_page, upage. rewrite (pt_page_ext (kmemory m) (kmemory m')) by done.
    split; (intros [?|(va & Hva & Hr & Hp & ->)]; [by left|right]); exists va; rewrite Hpte in * by done; done.
Qed.

Lemma owns_apart (m : kmem) d used l v : owns end_ m d used l -> v ∈ used -> v ∉ l.
Proof.
  intros ([_ (_ & H2 & H3 & _)] & [Hs _] & _ & Hus) [[->|(e & He & Hp & <-)]|(va & Hva & Hr & Hp & ->)]%Hus; [done|by apply H3|by apply Hs].
Qed.

(** Freeing a page that is neither free nor of the address space. *)
Lemma owns_free (m : kmem) d used l k :
  owns end_ m d used l -> page_ok k -> (k ∉ used) -> (k ∉ l) ->
  wp (kfree_ end_ k) m (fun _ m' => owns end_ m' d used (k :: l) /\ untouched (kmemory m) (kmemory m') [k]).
Proof.
  intros Ho Hk Hu Hl. pose proof (owns_outside end_ _ _ _ _ _ Ho Hu) as Hnp. pose proof Ho as ([Hkm Hpt] & _).
  eapply wp_mono; [by apply (kfree_wp end_ Hend k m l)|]. intros [] m' [Hkm' He]. split.
  - eapply (owns_ext m m' d used l (k :: l)); [done|by apply pt_ok_cons| |done|done|].
    + intros w Hw [Hn _]%not_elem_of_cons. by apply He.
    + intros v Hv. apply not_elem_of_cons. split; [by intros ->|by eapply owns_apart].
  - intros w Hw Hn. apply He; [done|]. intros ->. by apply Hn, elem_of_cons; left.
Qed.

(** The one child of the current process that has exited. *)
Definition exited (s : kern B) (i : nat) (p : proc) : Prop :=
  procs (k_tab s) !! i = Some p /\ p_parent p = Some (k_cur s) /\ p_state p = ZOMBIE /\
  forall j q, procs (k_tab s) !! j = Some q -> p_parent q = Some (k_cur s) -> p_state q = ZOMBIE -> j = i.

Lemma wait_finds s i p : exited s i p -> wait_scan (procs (k_tab s)) 0 (k_cur s) false = inl i.
Proof.
  intros (Hp & Hpar & Hz & Hu). pose proof (wait_scan_spec (k_cur s) (procs (k_tab s)) 0 false) as H.
  destruct (wait_scan _ _ _ _) as [j|hk].
  - destruct H as (q & _ & Hq & Hc & Hzq). rewrite Nat.sub_0_r in Hq. f_equal. by apply (Hu j q).
  - destruct H as [H _]. by destruct (H i p Hp Hpar).
Qed.

(** [wait] gives back the kernel stack and the whole address space of the child. *)
Lemma wait_spec s i p used l :
  exited s i p -> owns end_ (k_mem s) (p_pgdir p) used l -> page_ok (p_kstack p) -> (p_kstack p ∉ used) -> (p_kstack p ∉ l) ->
  wp (wait end_) s (fun r s' => r = p_pid p /\ s' = with_proc i (reaped p) (with_mem s (k_mem s')) /\
    exists l', kmem_ok (k_mem s') l' /\ l' ≡ₚ p_kstack p :: used ++ l /\
      untouched (kmemory (k_mem s)) (kmemory (k_mem s')) (p_kstack p :: used ++ l)).
Proof.
  intros Hex Ho Hk Hku Hkl. pose proof (wait_finds s i p Hex) as Hf. destruct Hex as (Hp & _ & _ & _).
  assert (i < length (procs (k_tab s)))%nat as Hlt by (by eapply lookup_lt_Some).
  unfold wait. do 2 (apply wp_bind, wp_gets). unfold wait_round. rewrite Hf, Hp. cbn [default fmap option_fmap option_map from_option].
  apply wp_bind. eapply wp_arr_get; [exact Hp|]. apply wp_bind, wp_on_mem. eapply wp_mono; [by apply (owns_free (k_mem s) (p_pgdir p) used l)|].
  intros [] m1 [Ho1 Hout1]. apply wp_bind, wp_on_mem. cbn [k_mem with_mem].
  eapply wp_mono; [by apply (freevm_owns end_ Hend m1 _ used (p_kstack p :: l))|]. intros [] m2 (l' & Hk2 & Hl & Hout2).
  apply wp_bind. unfold upd_proc. apply wp_bind. eapply wp_arr_get; [exact Hp|]. apply wp_modify, wp_ret.
  split; [done|]. split; [done|]. exists l'. split; [done|]. rewrite <- Permutation_middle in Hl. split; [done|].
  eapply untouched_trans; [exact Hout1|exact Hout2| |]; intros v; rewrite ?elem_of_cons, ?elem_of_app, ?elem_of_cons; rewrite ?elem_of_nil; tauto.
Qed.

(** A computation that returns this. *)
Lemma wp_ret_eq {A} (m : K (kern B) A) s a s' : wp m s (fun b t => b = a /\ t = s') -> m s = Ret a s'.
Proof. intros (b & t & Hr & -> & ->)%wp_elim. exact Hr. Qed.

(** Another child may be there, but none that has exited. *)
Lemma wait_scan_kids cur l : forall i hk hk', wait_scan l i cur hk = inr hk' ->
  hk = true \/ (exists j q, l !! j = Some q /\ child cur q) -> hk' = true.
Proof.
  induction l as [|p l IH]; intros i hk hk' H Hk; cbn [wait_scan] in H.
  - injection H as <-. by destruct Hk as [?|(? & ? & ? & _)].
  - case_bool_decide as Hc; cbn [negb] in H.
    + destruct (is_state ZOMBIE p); [done|]. apply (IH _ _ _ H). by left.
    + apply (IH _ _ _ H). destruct Hk as [?|([|j] & q & Hq & Hch)]; [by left|by injection Hq as <-|right; by exists j, q].
Qed.

Lemma wait_sleeps s me :
  current s me -> p_killed me = false -> (exists j q, procs (k_tab s) !! j = Some q /\ child (k_cur s) q) ->
  (forall j q, procs (k_tab s) !! j = Some q -> child (k_cur s) q -> p_state q <> ZOMBIE) ->
  wait end_ s = Sleep (ChProc (k_cur s)) (with_proc (k_cur s) (set_state SLEEPING (set_chan (Some (ChProc (k_cur s))) me)) s).
Proof.
  intros Hme Hk Hkid Hnz. unfold wait, mbind, K_bind, gets, wait_round.
  pose proof (wait_scan_spec (k_cur s) (procs (k_tab s)) 0 false) as Hs. destruct (wait_scan _ _ _ _) as [j|hk] eqn:E.
  - destruct Hs as (q & _ & Hq & Hc & Hz). rewrite Nat.sub_0_r in Hq. by destruct (Hnz j q Hq Hc).
  - rewrite (wait_scan_kids _ _ _ _ _ E (or_intror Hkid)), Hme. cbn [fmap option_fmap option_map default from_option]. rewrite Hk. cbn [negb orb].
    unfold with_proc. by rewrite (alter_insert _ _ _ me).
Qed.

(** ** [exit] *)

(** The scheduler gives the CPU to process [i]. *)
Definition on_cpu (i : nat) (s : kern B) : kern B := mkkern (k_mem s) (k_fs s) (k_files s) (k_pipes s) (k_tab s) i (k_ticks s).

Lemma scheduler_runs s i p : procs (k_tab s) !! i = Some p -> p_state p = RUNNABLE -> p_kstack p <> 0 -> p_pgdir p <> 0 ->
  scheduler_run i s = Ret true (with_proc i (set_state RUNNING p) (on_cpu i s)).
Proof.
  intros Hp Hst Hk Hd. apply wp_ret_eq. unfold scheduler_run. apply wp_bind. eapply wp_arr_get; [exact Hp|].
  unfold is_state. rewrite bool_decide_eq_true_2 by done. cbn [negb]. apply wp_bind, wp_modify.
  apply wp_bind. unfold switchuvm. apply wp_bind. eapply wp_arr_get; [exact Hp|].
  rewrite (proj2 (Z.eqb_neq _ _) Hk), (proj2 (Z.eqb_neq _ _) Hd). apply wp_ret, wp_bind. unfold upd_proc. apply wp_bind.
  eapply wp_arr_get; [exact Hp|]. by apply wp_modify, wp_ret.
Qed.

(** Closing one descriptor of a file that has others. *)
Lemma bump_close f x l fs : fs !! f = Some x ->
  <[f := set_fref (f_ref x + refs f (Some f :: l) - 1) (set_fref (f_ref x + refs f (Some f :: l)) x)]> (bump (Some f :: l) fs) = bump l fs.
Proof.
  intros Hf. apply list_eq. intros g. rewrite bump_lookup. destruct (decide (f = g)) as [<-|Hne].
  - rewrite list_lookup_insert_eq; [|unfold bump; rewrite length_imap; by eapply lookup_lt_Some]. rewrite Hf, refs_cons, decide_True by done.
    cbn [fmap option_fmap option_map]. f_equal. unfold set_fref. cbn. f_equal. lia.
  - rewrite list_lookup_insert_ne, bump_lookup, refs_cons, decide_False by congruence. done.
Qed.

Lemma fileclose_shared f x l fs s i q (Q : unit -> kern B -> Prop) :
  fs !! f = Some x -> 1 <= f_ref x -> Q tt (with_proc i q (set_files (bump l fs) s)) ->
  wp (fileclose end_ f) (with_proc i q (set_files (bump (Some f :: l) fs) s)) Q.
Proof.
  intros Hx Hr HQ. set (y := set_fref (f_ref x + refs f (Some f :: l)) x).
  assert (0 < refs f (Some f :: l)) as Hpos by (rewrite refs_cons, decide_True by done; unfold refs; lia).
  assert (bump (Some f :: l) fs !! f = Some y) as Hy by (by rewrite bump_lookup, Hx).
  unfold fileclose. apply wp_bind. eapply wp_arr_get; [exact Hy|]. change (f_ref y) with (f_ref x + refs f (Some f :: l)).
  rewrite (proj2 (Z.ltb_ge _ _)) by lia. apply wp_bind. unfold upd_file. apply wp_bind. eapply wp_arr_get; [exact Hy|]. apply wp_modify.
  rewrite (proj2 (Z.ltb_lt _ _)) by lia. apply wp_ret. rewrite <- (bump_close f x l fs Hx) in HQ. exact HQ.
Qed.

(** [close_files] of a process whose descriptors are all references of their own. *)
Lemma close_files_spec l : forall s i q n fs (Q : unit -> kern B -> Prop),
  k_cur s = i -> (i < length (procs (k_tab s)))%nat -> p_ofile q = replicate n None ++ l -> open_files fs l ->
  Q tt (with_proc i (set_ofile (replicate (n + length l) None) q) (set_files fs s)) ->
  wp (close_files end_ (length l) n) (with_proc i q (set_files (bump l fs) s)) Q.
Proof.
  induction l as [|o l IH]; intros s i q n fs Q Hc Hi Hq Ho HQ; cbn [close_files length] in *.
  - rewrite app_nil_r in Hq. rewrite Nat.add_0_r, <- Hq in HQ. rewrite bump_nil. apply wp_ret. by destruct q.
  - apply wp_bind. eapply (wp_myproc _ q); [unfold current; cbn; rewrite Hc; by apply list_lookup_insert_eq|].
    assert (p_ofile q !! n = Some o) as Hn by (rewrite Hq, lookup_app_r, length_replicate, Nat.sub_diag by (rewrite length_replicate; lia); done).
    apply wp_bind. eapply wp_arr_get; [exact Hn|].
    assert (open_files fs l) as Ho' by (intros g Hg; apply Ho, elem_of_cons; by right).
    assert (replicate (S n) (None : option nat) = replicate n None ++ [None]) as Hrep by (replace (S n) with (n + 1)%nat by lia; by rewrite replicate_add).
    replace (n + S (length l))%nat with (S n + length l)%nat in HQ by lia. apply wp_bind. destruct o as [f|].
    + destruct (Ho f) as (x & Hx & Hr); [by apply elem_of_cons; left|]. apply wp_bind, (fileclose_shared f x); [done|done|].
      unfold upd_me. apply wp_bind, wp_gets. cbn [k_cur with_proc set_procs set_tab set_files]. rewrite Hc.
      apply wp_upd_proc; [done|]. apply IH; [done|done| |done|exact HQ].
      cbn [p_ofile set_ofile]. rewrite Hq, Hrep, insert_app_r_alt by (rewrite length_replicate; lia). rewrite length_replicate, Nat.sub_diag. cbn.
      by rewrite <- app_assoc.
    + apply wp_ret. rewrite bump_cons_none. apply IH; [done|done| |done|exact HQ]. by rewrite Hq, Hrep, <- app_assoc.
Qed.

(** [iput] of an inode with other references. *)
Lemma iput_shared b S ic ip x (Q : unit -> Fs.fs B -> Prop) :
  ic !! ip = Some x -> Fs.i_locked x = false -> 1 <= Fs.i_ref x -> Q tt (Fs.mkfs b S ic) ->
  wp (Fs.iput ip) (Fs.mkfs b S (<[ip := Fs.set_ref (Fs.i_ref x + 1) x]> ic)) Q.
Proof.
  intros Hx Hl Hr HQ. assert (ip < length ic)%nat as Hlt by (by eapply lookup_lt_Some).
  assert (forall y, <[ip := y]> ic !! ip = Some y) as Hget by (intros y; by apply list_lookup_insert_eq).
  unfold Fs.iput, Fs.ilock_sleep, Fs.upd_inode, Fs.inode_at. apply wp_bind, wp_bind. eapply wp_arr_get; [apply Hget|].
  cbn [Fs.i_locked Fs.set_ref]. rewrite Hl. apply wp_bind. eapply wp_arr_get; [apply Hget|]. apply wp_modify. cbn [Fs.icache Fs.blk Fs.sb].
  rewrite list_insert_insert_eq. apply wp_bind. eapply wp_arr_get; [apply Hget|]. cbn [Fs.i_ref Fs.i_valid Fs.i_nlink Fs.set_lock Fs.set_ref].
  rewrite (proj2 (Z.eqb_neq (Fs.i_ref x + 1) 1)) by lia. apply wp_bind. destruct (_ && _)%bool; apply wp_ret.
  all: apply wp_bind, wp_bind; eapply wp_arr_get; [apply Hget|]; apply wp_modify; cbn [Fs.icache Fs.blk Fs.sb]; rewrite list_insert_insert_eq.
  all: apply wp_bind; eapply wp_arr_get; [apply Hget|]; apply wp_modify; cbn [Fs.icache Fs.blk Fs.sb]; rewrite list_insert_insert_eq.
  all: rewrite list_insert_id; [exact HQ|rewrite Hx; f_equal; unfold Fs.set_ref, Fs.set_lock; cbn; rewrite Z.add_simpl_r, <- Hl; by destruct x].
Qed.

Lemma reparent_none n : forall i cur init l, (forall j q, l !! j = Some q -> p_parent q <> Some cur) -> reparent n i cur init l = l.
Proof.
  induction n as [|n IH]; intros i cur init l Hn; cbn [reparent]; [done|]. destruct (l !! i) as [q|] eqn:E; [|by apply IH].
  rewrite bool_decide_eq_false_2 by (by eapply Hn). by apply IH.
Qed.

Lemma run_bind {A C} (m : K (kern B) A) (f : A -> K (kern B) C) s a s' : m s = Ret a s' -> (m ≫= f) s = f a s'.
Proof. intros H. unfold mbind, K_bind. by rewrite H. Qed.

(** [s] with other memory, files and processes, after a pid has been given out. *)
Definition later (s : kern B) (m : kmem) (fsys : Fs.fs B) (files : list file) (l : list proc) (cur : nat) : kern B :=
  mkkern m fsys files (k_pipes s) (mkptab l (s32 (nextpid (k_tab s) + 1)) (initproc (k_tab s))) cur (k_ticks s).

(** [exit] of a process whose files and directory are also others'. *)
Lemma exit_run {A} s m i q l files b b1 b2 sb ic ip x ini :
  (i < length l)%nat -> initproc (k_tab s) = Some ini -> ini <> i -> length (p_ofile q) = NOFILE -> open_files files (p_ofile q) ->
  p_cwd q = Some ip -> ic !! ip = Some x -> Fs.i_locked x = false -> 1 <= Fs.i_ref x -> tx_begin b = Ret tt b1 -> tx_end b1 = Ret tt b2 ->
  exit (A := A) end_ (later s m (Fs.mkfs b sb (<[ip := Fs.set_ref (Fs.i_ref x + 1) x]> ic)) (bump (p_ofile q) files) (<[i := q]> l) i) =
    Sleep ChNever (later s m (Fs.mkfs b2 sb ic) files (exit_slot i ini (<[i := set_cwd None (set_ofile (replicate NOFILE None) q)]> l)) i).
Proof.
  intros Hi Hini Hne Hlen Hopen Hcwd Hx Hlk Hr Hb Hb2. unfold exit.
  erewrite run_bind by reflexivity. erewrite run_bind by reflexivity. cbn [k_cur later k_tab initproc]. rewrite Hini, bool_decide_eq_false_2 by congruence.
  set (F1 := Fs.mkfs b sb (<[ip := Fs.set_ref (Fs.i_ref x + 1) x]> ic)).
  erewrite run_bind.
  2: { apply wp_ret_eq. rewrite <- Hlen. apply (close_files_spec (p_ofile q) (later s m F1 files l i) i q 0 files); [done|done|done|done|]. split; reflexivity. }
  set (q1 := set_ofile (replicate (0 + length (p_ofile q)) None) q).
  erewrite run_bind.
  2: { apply wp_ret_eq. unfold begin_op, on_fs. apply wp_zoom. unfold Fs.lift. apply wp_zoom. eapply wp_eq; [exact Hb|]. split; reflexivity. }
  erewrite run_bind.
  2: { apply myproc_run. unfold current. cbn. by apply list_lookup_insert_eq. }
  change (p_cwd q1) with (p_cwd q). rewrite Hcwd. erewrite run_bind.
  2: { apply wp_ret_eq. unfold on_fs. apply wp_zoom. cbn [k_fs Fs.sb Fs.icache F1 with_proc set_procs set_tab set_files later]. apply (iput_shared b1 sb ic ip x); [done|done|done|]. split; reflexivity. }
  erewrite run_bind.
  2: { apply wp_ret_eq. unfold end_op, on_fs. apply wp_zoom. unfold Fs.lift. apply wp_zoom. eapply wp_eq; [exact Hb2|]. split; reflexivity. }
  erewrite run_bind.
  2: { apply wp_ret_eq. unfold upd_me. apply wp_bind, wp_gets. cbn [k_cur].
       apply (wp_upd_proc i q1 (set_cwd None) (later s m (Fs.mkfs b2 sb ic) files l i)); [done|]. split; reflexivity. }
  erewrite run_bind by reflexivity. unfold q1. cbn [Nat.add]. rewrite Hlen. reflexivity.
Qed.

(** What the parent that waits relies on: it was not killed; none of its children has exited;
    nobody else sleeps in its [wait]; there is a first process; and nobody's parent is a slot
    that is not in use. *)
Record may_wait (s : kern B) (me : proc) (ini : nat) : Prop := {
  mw_running : p_state me = RUNNING /\ p_chan me = None /\ p_killed me = false /\ p_kstack me <> 0;
  mw_init : initproc (k_tab s) = Some ini /\ exists q, procs (k_tab s) !! ini = Some q /\ p_state q <> UNUSED;
  mw_zombies : forall j q, procs (k_tab s) !! j = Some q -> child (k_cur s) q -> p_state q <> ZOMBIE;
  mw_waiters : forall j q, procs (k_tab s) !! j = Some q -> p_chan q = Some (ChProc (k_cur s)) -> p_state q <> SLEEPING;
  mw_parents : forall i p j q, slot_at s i p -> procs (k_tab s) !! j = Some q -> p_parent q <> Some i
}.

(** The current process runs: it writes to its pages, and takes pages or gives some back. *)
Definition runs_in (s s' : kern B) : Prop :=
  exists p sz tf, current s p /\ s' = with_proc (k_cur s) (set_tf tf (set_mem sz (p_pgdir p) p)) (with_mem s (k_mem s')) /\
    forall used l, owns end_ (k_mem s) (p_pgdir p) used l -> exists used' l', owns end_ (k_mem s') (p_pgdir p) used' l' /\
      used' ++ l' ≡ₚ used ++ l /\ untouched (kmemory (k_mem s)) (kmemory (k_mem s')) (used ++ l).

(** For example by storing in a page of its own. *)
Lemma store_runs_in s p u m' :
  current s p -> user_page (kmemory (k_mem s)) (p_pgdir p) 0 KERNBASE u -> untouched (kmemory (k_mem s)) m' [u] ->
  runs_in s (with_mem s (mkkmem m' (freelist (k_mem s)))).
Proof.
  intros Hp Hu Hout. exists p, (p_sz p), (p_tf p). split; [done|]. split.
  - unfold with_proc, with_mem, set_procs, set_tab. cbn. rewrite list_insert_id by (unfold current in Hp; rewrite Hp; by destruct p).
    by destruct s as [? ? ? ? [] ? ?].
  - intros used l Ho. exists used, l. pose proof Ho as ([(Hc & Hnd & Hok) Hpt] & [Hs _] & _ & Hus). cbn [k_mem with_mem kmemory].
    assert (u ∈ used) as Hin by (apply Hus; by right).
    assert (~ pt_page (kmemory (k_mem s)) (p_pgdir p) u) as Hnp by (destruct Hu as (va & Hva & Hr & Hpr & ->); by apply Hs).
    assert (untouched (kmemory (k_mem s)) m' (u :: l)) as Hout' by (intros w Hw [Hn _]%not_elem_of_cons; apply Hout; [done|by intros ->%list_elem_of_singleton]).
    split; [|split; [done|intros w Hw [Hn _]%not_elem_of_app; apply Hout; [done|by intros ->%list_elem_of_singleton]]].
    eapply (owns_ext _ _ _ _ l (u :: l)); [exact Ho|by apply pt_ok_cons|exact Hout'| |intros v Hv; by apply elem_of_cons; right|intros v; by eapply owns_apart].
    split_and!; [|done|done]. cbn [kmemory freelist]. eapply chain_ext; [|exact Hc]. intros v Hv. apply load_ext. intros y Hy.
    rewrite Forall_forall in Hok. apply (Hout v); [by apply Hok| |unfold PGSIZE; lia]. intros ->%list_elem_of_singleton. by eapply owns_apart.
Qed.

(** The process is back from [sched] in [sleep]. *)
Definition resumed (s : kern B) : kern B := set_procs (awake_slot (k_cur s) (procs (k_tab s))) s.

(** What [exit] of the child in slot [i] does with the table in which the parent sleeps. *)
Lemma exit_slot_wakes (L : list proc) cur i me c ini :
  L !! cur = Some me -> (i < length L)%nat -> i <> cur -> p_parent c = Some cur -> p_state c = RUNNING ->
  (forall j q, L !! j = Some q -> p_chan q = Some (ChProc cur) -> p_state q <> SLEEPING) ->
  (forall j q, L !! j = Some q -> p_parent q <> Some i) ->
  exit_slot i ini (<[i := c]> (<[cur := set_state SLEEPING (set_chan (Some (ChProc cur)) me)]> L)) =
    <[i := set_state ZOMBIE c]> (<[cur := set_state RUNNABLE (set_chan (Some (ChProc cur)) me)]> L).
Proof.
  intros Hme Hi Hne Hpar Hrun Hw Hp. unfold exit_slot. rewrite list_lookup_insert_eq by (by rewrite length_insert). rewrite Hpar.
  assert (wakeup1 (ChProc cur) L = L) as Hid.
  { unfold wakeup1. apply list_eq. intros j. rewrite list_lookup_fmap. destruct (L !! j) as [q|] eqn:E; [|done]. cbn. f_equal.
    unfold wakeup1_proc, is_state. case_bool_decide as H1; [|done]. case_bool_decide as H2; [|done]. by destruct (Hw j q E H2). }
  unfold wakeup1 in *. rewrite !list_fmap_insert, Hid.
  assert (wakeup1_proc (ChProc cur) c = c) as -> by (unfold wakeup1_proc, is_state; by rewrite bool_decide_eq_false_2 by (by rewrite Hrun)).
  assert (wakeup1_proc (ChProc cur) (set_state SLEEPING (set_chan (Some (ChProc cur)) me)) = set_state RUNNABLE (set_chan (Some (ChProc cur)) me)) as ->
    by (unfold wakeup1_proc, is_state; cbn [p_state p_chan set_state set_chan]; by rewrite !bool_decide_eq_true_2).
  rewrite reparent_none; [by rewrite (alter_insert _ _ i c), list_insert_insert_eq by (apply list_lookup_insert_eq; by rewrite length_insert)|].
  intros j q Hq. apply list_lookup_insert_Some in Hq as [(_ & <- & _)|[_ Hq]]; [congruence|].
  apply list_lookup_insert_Some in Hq as [(_ & <- & _)|[_ Hq]]; [by apply (Hp cur me)|by apply (Hp j)].
Qed.

Section Life.
Context (s : kern B) (me : proc) (ip : nat) (x : Fs.inode) (l0 : list Z) (ini : nat) (b2 : B).
Context (Hmf : may_fork s me ip x l0) (Hmw : may_wait s me ini).
Local Abbreviation L := (procs (k_tab s)).
Local Abbreviation cur := (k_cur s).
Local Abbreviation asleep := (set_state SLEEPING (set_chan (Some (ChProc cur)) me)).

(** The file system while the child has the directory, and when it has given it back. *)
Definition fs_shared : Fs.fs B :=
  Fs.mkfs (Fs.blk (k_fs s)) (Fs.sb (k_fs s)) (<[ip := Fs.set_ref (Fs.i_ref x + 1) x]> (Fs.icache (k_fs s))).
Definition fs_back : Fs.fs B := Fs.mkfs b2 (Fs.sb (k_fs s)) (Fs.icache (k_fs s)).

Lemma slot_apart i p : slot_at s i p -> i <> cur /\ i <> ini /\ (i < length L)%nat.
Proof.
  intros [Hp Hu]. destruct (mw_running _ _ _ Hmw) as [Hr _]. destruct (mw_init _ _ _ Hmw) as (_ & q & Hq & Hnu). pose proof (mf_current _ _ _ _ _ Hmf) as Hc.
  unfold current in Hc. split_and!; [intros ->; congruence|intros ->; congruence|by eapply lookup_lt_Some].
Qed.

(** [wait] of the parent, with the new child in slot [i]. *)
Lemma parent_waits i p c m : slot_at s i p -> p_parent c = Some cur -> p_state c = RUNNABLE ->
  wait end_ (later s m fs_shared (bump (p_ofile me) (k_files s)) (<[i := c]> L) cur) =
    Sleep (ChProc cur) (later s m fs_shared (bump (p_ofile me) (k_files s)) (<[i := c]> (<[cur := asleep]> L)) cur).
Proof.
  intros Hsl Hpar Hst. destruct (slot_apart i p Hsl) as (Hic & _ & Hlt). destruct (mw_running _ _ _ Hmw) as (_ & _ & Hkill & _).
  rewrite (wait_sleeps _ me); [|by unfold current; cbn; rewrite list_lookup_insert_ne by done; apply (mf_current _ _ _ _ _ Hmf)|done| |].
  - cbn [k_cur later]. unfold with_proc, set_procs, set_tab. cbn. by rewrite list_insert_insert_ne by done.
  - exists i, c. cbn. by rewrite list_lookup_insert_eq.
  - cbn. intros j q Hq Hch. apply list_lookup_insert_Some in Hq as [(_ & <- & _)|[_ Hq]]; [congruence|by apply (mw_zombies _ _ _ Hmw j)].
Qed.

(** The parent runs again, and [wait] finds the child that has exited. *)
Lemma parent_reaps i p z m used l : slot_at s i p -> p_parent z = Some cur -> p_state z = ZOMBIE ->
  owns end_ m (p_pgdir z) used l -> page_ok (p_kstack z) -> (p_kstack z ∉ used) -> (p_kstack z ∉ l) ->
  let st l := later s m fs_back (k_files s) l in
  scheduler_run cur (st (<[i := z]> (<[cur := set_state RUNNABLE (set_chan (Some (ChProc cur)) me)]> L)) i) =
    Ret true (st (<[cur := set_state RUNNING (set_chan (Some (ChProc cur)) me)]> (<[i := z]> L)) cur) /\
  wp (wait end_) (resumed (st (<[cur := set_state RUNNING (set_chan (Some (ChProc cur)) me)]> (<[i := z]> L)) cur)) (fun r s' =>
    r = p_pid z /\ s' = later s (k_mem s') fs_back (k_files s) (<[i := reaped z]> L) cur /\
    exists l', kmem_ok (k_mem s') l' /\ l' ≡ₚ p_kstack z :: used ++ l /\ untouched (kmemory m) (kmemory (k_mem s')) (p_kstack z :: used ++ l)).
Proof.
  intros Hsl Hpar Hz Ho Hk Hku Hkl st. destruct (slot_apart i p Hsl) as (Hic & _ & Hlt). pose proof (mf_current _ _ _ _ _ Hmf) as Hme.
  unfold current in Hme. assert (cur < length L)%nat as Hcl by (by eapply lookup_lt_Some).
  destruct (mw_running _ _ _ Hmw) as (Hr & Hch & _ & Hks). destruct (mf_parent _ _ _ _ _ Hmf) as ((Hpd & _) & _).
  apply (page_ok_range end_ (Z.lt_le_incl _ _ Hend)) in Hpd. split.
  - rewrite (scheduler_runs _ cur (set_state RUNNABLE (set_chan (Some (ChProc cur)) me)));
      [|cbn; rewrite list_lookup_insert_ne by done; by apply list_lookup_insert_eq|done|done|cbn; lia].
    unfold st, later, with_proc, on_cpu, set_procs, set_tab. cbn. do 3 f_equal.
    rewrite (list_insert_insert_ne _ cur i) by done. by rewrite list_insert_insert_eq, (list_insert_insert_ne _ i cur) by done.
  - assert (resumed (st (<[cur := set_state RUNNING (set_chan (Some (ChProc cur)) me)]> (<[i := z]> L)) cur) = st (<[i := z]> L) cur) as ->.
    { unfold resumed, st, later, set_procs, set_tab, awake_slot. cbn.
      rewrite (alter_insert _ _ _ (set_state RUNNING (set_chan (Some (ChProc cur)) me))), list_insert_insert_eq by (apply list_lookup_insert_eq; by rewrite length_insert).
      do 2 f_equal. apply list_insert_id. rewrite list_lookup_insert_ne, Hme by done. f_equal. destruct me. cbn in *. by subst. }
    eapply wp_mono; [apply (wait_spec _ i z used l); [|exact Ho|done|done|done]|].
    + split; [by apply list_lookup_insert_eq|]. split; [done|]. split; [done|]. intros j q Hq Hc Hzq. cbn in Hq, Hc.
      apply list_lookup_insert_Some in Hq as [(<- & _)|[_ Hq]]; [done|]. by destruct (mw_zombies _ _ _ Hmw j q Hq Hc).
    + intros r s' (-> & Hs' & Hl'). split; [done|]. split; [|exact Hl']. rewrite Hs' at 1.
      unfold st, later, with_proc, with_mem, set_procs, set_tab. cbn. by rewrite list_insert_insert_eq.
Qed.
End Life.

(** C12: The life of a child.  When [fork] does not fail for want of memory or of a slot, the
    parent that calls [wait] goes to sleep; the scheduler runs the child; the child runs, and
    may take and give back memory; it calls [exit], which wakes the parent; the scheduler
    runs the parent, and [wait] returns the pid that [fork] returned.  Then nothing is left
    of the child: the free pages are those that were free before [fork], and no other page
    has changed, the files and the inode cache with their reference counts are as before, and
    so are the processes but for a slot that is again not in use.  ([fork_copies] says what
    the child is; an operation can begin and end on the log.) *)
Theorem fork_exit_wait s me ip x l0 ini b1 b2 :
  may_fork s me ip x l0 -> may_wait s me ini -> Fs.i_locked x = false -> 1 <= Fs.i_ref x ->
  tx_begin (Fs.blk (k_fs s)) = Ret tt b1 -> tx_end b1 = Ret tt b2 ->
  wp (fork end_ data_) s (fun r s1 => r = -1 /\ fork_failed s me l0 s1 \/
    exists i p s2 s3, slot_at s i p /\ wait end_ s1 = Sleep (ChProc (k_cur s)) s2 /\ scheduler_run i s2 = Ret true s3 /\ k_cur s3 = i /\
    forall s4, runs_in s3 s4 -> exists s5 s6, exit (A := unit) end_ s4 = Sleep ChNever s5 /\ scheduler_run (k_cur s) s5 = Ret true s6 /\
    wp (wait end_) (resumed s6) (fun r' s7 => r' = r /\ exists z l',
      s7 = later s (k_mem s7) (Fs.mkfs b2 (Fs.sb (k_fs s)) (Fs.icache (k_fs s))) (k_files s) (<[i := z]> (procs (k_tab s))) (k_cur s) /\
      p_state z = UNUSED /\ p_ofile z = replicate NOFILE None /\
      kmem_ok (k_mem s7) l' /\ l' ≡ₚ l0 /\ untouched (kmemory (k_mem s)) (kmemory (k_mem s7)) l0)).
Proof.
  intros Hmf Hmw Hlk Hr Hb Hb2. eapply wp_mono; [by apply (fork_spec s me ip x l0)|]. intros r s1 [Hf|?]; [right|by left].
  destruct Hf as (i & p & k & used & l & pgdir & Hsl & -> & -> & Hs1 & (Ho & Hout & _)).
  destruct (slot_apart s me ip x _ ini Hmf Hmw i p Hsl) as (Hic & Hii & Hlt). destruct (mw_init _ _ _ Hmw) as [Hini _].
  destruct (kmem_tail _ k (used ++ l) (mf_free _ _ _ _ _ Hmf)) as (_ & Hk & [Hku Hkl]%not_elem_of_app).
  set (c := child_of s me p k pgdir) in *. set (asleep := set_state SLEEPING (set_chan (Some (ChProc (k_cur s))) me)).
  assert (pgdir <> 0) as Hd by (destruct Ho as ((_ & Hpd & _) & _); apply (page_ok_range end_ (Z.lt_le_incl _ _ Hend)) in Hpd; lia).
  assert (k <> 0) as Hk0 by (pose proof (page_ok_range end_ (Z.lt_le_incl _ _ Hend) k Hk); lia).
  set (L := procs (k_tab s)) in *. assert (k_cur s < length L)%nat as Hcl by (eapply lookup_lt_Some, (mf_current _ _ _ _ _ Hmf)).
  pose proof (parent_waits s me ip x _ ini Hmf Hmw i p c (k_mem s1) Hsl eq_refl eq_refl) as Hw.
  change (wait end_ (mkkern (k_mem s1) (fs_shared s ip x) (bump (p_ofile me) (k_files s)) (k_pipes s) (mkptab (<[i := c]> L) (s32 (nextpid (k_tab s) + 1))
    (initproc (k_tab s))) (k_cur s) (k_ticks s)) = Sleep (ChProc (k_cur s)) (later s (k_mem s1) (fs_shared s ip x) (bump (p_ofile me) (k_files s))
    (<[i := c]> (<[k_cur s := asleep]> L)) (k_cur s))) in Hw. unfold fs_shared at 1 in Hw. rewrite <- Hs1 in Hw.
  exists i, p. eexists _, _. split; [done|]. split; [exact Hw|].
  split; [apply (scheduler_runs _ i c); [cbn; apply list_lookup_insert_eq; by rewrite length_insert|done..]|]. split; [done|].
  intros s4 (q & sz & tf & Hq & Hs4 & Hown). unfold current in Hq. cbn in Hq.
  rewrite list_lookup_insert_eq in Hq by (by rewrite !length_insert). injection Hq as <-.
  destruct (Hown used l Ho) as (used' & l' & Ho' & Hperm & Hout'). clear Hown. cbn [k_mem with_proc on_cpu later set_procs set_tab] in Hout'.
  set (c4 := set_tf tf (set_mem sz (p_pgdir (set_state RUNNING c)) (set_state RUNNING c))) in *.
  assert (s4 = later s (k_mem s4) (fs_shared s ip x) (bump (p_ofile c4) (k_files s)) (<[i := c4]> (<[k_cur s := asleep]> L)) i) as E4.
  { rewrite Hs4 at 1. unfold with_proc, with_mem, on_cpu, later, set_procs, set_tab. cbn. by rewrite !list_insert_insert_eq. }
  set (z := set_state ZOMBIE (set_cwd None (set_ofile (replicate NOFILE None) c4))).
  assert (exit (A := unit) end_ s4 = Sleep ChNever (later s (k_mem s4) (fs_back s b2) (k_files s)
    (<[i := z]> (<[k_cur s := set_state RUNNABLE (set_chan (Some (ChProc (k_cur s))) me)]> L)) i)) as Hexit.
  { rewrite E4 at 1. unfold fs_shared. rewrite (exit_run s (k_mem s4) i c4 _ _ _ b1 b2 _ _ ip x ini);
      [|by rewrite length_insert|done|congruence|apply (mf_nofile _ _ _ _ _ Hmf)|apply (mf_open _ _ _ _ _ Hmf)|apply (mf_cwd _ _ _ _ _ Hmf)|apply (mf_inode _ _ _ _ _ Hmf)|done..].
    unfold asleep. rewrite (exit_slot_wakes L (k_cur s) i me); [done|apply (mf_current _ _ _ _ _ Hmf)|done|done|done|done|apply (mw_waiters _ _ _ Hmw)|].
    intros j q Hq. by apply (mw_parents _ _ _ Hmw i p j q Hsl). }
  assert (k ∉ used' ++ l') as [Hku' Hkl']%not_elem_of_app by (rewrite Hperm; by apply not_elem_of_app).
  destruct (parent_reaps s me ip x _ ini b2 Hmf Hmw i p z (k_mem s4) used' l' Hsl) as [Hsched Hwait]; [done|done|exact Ho'|done|done|done|].
  eexists _, _. split; [exact Hexit|]. split; [exact Hsched|]. eapply wp_mono; [exact Hwait|].
  intros r' s7 (-> & Hs7 & l7 & Hk7 & Hl7 & Hout7). split; [done|]. exists (reaped z), l7. split; [exact Hs7|]. split; [done|]. split; [done|]. split; [done|].
  change (p_kstack z) with k in *. rewrite Hperm in Hl7. split; [exact Hl7|].
  eapply untouched_trans; [eapply untouched_trans; [exact Hout|exact Hout'| |]|exact Hout7| |]; try reflexivity;
    intros v Hv; rewrite ?Hperm in *; rewrite ?elem_of_cons in *; auto.
Qed.
End Memory.
End KprocSpec.

(** ** A process with one page of memory, an open file, a free slot, and 2000 free pages *)

Definition next_free (p : Z) : Z := if decide (p = pg 2303) then 0 else p + PGSIZE.
(** As [small], with the pages from 304 to 2303 linked. *)
Definition roomy_mem : mem := fun x =>
  if decide (pg 304 <= x < pg 2304)
  then if decide (x mod PGSIZE < 4) then next_free (pbase x) / 2 ^ (8 * (x mod PGSIZE)) else 0
  else kmemory small x.
Definition roomy : kmem := mkkmem roomy_mem (pg 304).
Definition frees : list Z := pg <$> seqZ 304 2000.

Lemma pg_mul n : pg n = (524288 + n) * PGSIZE.
Proof. unfold pg, KERNBASE, PGSIZE. lia. Qed.

Lemma room_page n : 258 <= n < 57344 -> page_ok (pg 258) (pg n).
Proof.
  intros H. split; [|unfold pg, KERNBASE, PHYSTOP, PGSIZE; lia]. rewrite pg_mul. by apply Z.mod_mul.
Qed.

Lemma frees_spec v : v ∈ frees <-> exists n, v = pg n /\ 304 <= n < 2304.
Proof. unfold frees. rewrite list_elem_of_fmap. setoid_rewrite elem_of_seqZ. done. Qed.

Lemma roomy_byte n j : 304 <= n < 2304 -> 0 <= j < 4 -> roomy_mem (pg n + j) = next_free (pg n) / 2 ^ (8 * j).
Proof.
  intros Hn Hj. unfold roomy_mem. assert ((pg n + j) mod PGSIZE = j) as Hm by (rewrite pg_mul, Z.add_comm, Z.mod_add by done; apply Z.mod_small; unfold PGSIZE; lia).
  assert (pbase (pg n + j) = pg n) as Hb
    by (unfold pbase; rewrite pg_mul, Z.div_add_l, (Z.div_small j) by (done || unfold PGSIZE; lia); lia).
  rewrite decide_True by (unfold pg, PGSIZE; lia). rewrite Hm, Hb. by rewrite decide_True by lia.
Qed.

Lemma roomy_load n : 304 <= n < 2304 -> load32 roomy_mem (pg n) = if decide (n = 2303) then 0 else pg (n + 1).
Proof.
  intros Hn. unfold load32. rewrite <- (Z.add_0_r (pg n)) at 1. rewrite !roomy_byte by lia. rewrite Z.div_1_r.
  change (8 * 1) with 8. change (8 * 2) with 16. change (8 * 3) with 24. rewrite split_word. unfold next_free.
  destruct (decide (n = 2303)) as [->|Hne]; [by rewrite decide_True|].
  rewrite decide_False by (unfold pg, PGSIZE; lia). rewrite u32_small; unfold pg, KERNBASE, PGSIZE in *; lia.
Qed.

Lemma roomy_chain j : forall n, 304 <= n -> n + Z.of_nat (S j) = 2304 -> chain roomy_mem (pg n) (pg <$> seqZ n (Z.of_nat (S j))).
Proof.
  induction j as [|j IH]; intros n Hn He; rewrite seqZ_cons by lia; cbn [fmap list_fmap chain]; (split; [done|]); rewrite roomy_load by lia.
  - rewrite decide_True by lia. by replace (Z.pred _) with 0 by lia.
  - rewrite decide_False by lia. replace (Z.pred _) with (Z.of_nat (S j)) by lia. apply IH; lia.
Qed.

Lemma roomy_ok : kmem_ok (pg 258) roomy frees.
Proof.
  split; [apply (roomy_chain 1999); lia|]. split.
  - apply NoDup_fmap_2; [|apply NoDup_seqZ]. intros a b Hab. unfold pg, PGSIZE in Hab. lia.
  - apply Forall_forall. intros v (n & -> & Hn)%frees_spec. apply room_page. lia.
Qed.

Lemma roomy_same : untouched (pg 258) (kmemory small) roomy_mem frees.
Proof.
  intros w [Hal Hr] Hn x Hx. unfold roomy_mem. rewrite decide_False; [done|]. intros Hin. apply Hn, frees_spec.
  apply Z.mod_divide in Hal as [q ->]; [|done]. exists (q - KERNBASE / PGSIZE). change (KERNBASE / PGSIZE) with 524288.
  unfold pg, KERNBASE, PGSIZE in *. lia.
Qed.

Lemma roomy_parent : parent_ok (pg 258) roomy_mem (pg 301) frees PGSIZE.
Proof.
  assert (forall n, n < 304 -> pg n ∉ frees) as Hni by (intros n Hn (k & Hk & ?)%frees_spec; unfold pg, PGSIZE in Hk; lia).
  assert (pt_ok (pg 258) (kmemory small) (pg 301) frees) as Hpt.
  { destruct small_ok as [_ (H1 & _ & H3 & H4)]. split_and!; [done|by apply Hni| |done]. intros d Hd Hp.
    destruct (H3 d Hd Hp) as (H5 & _ & H6). split_and!; [done| |done]. rewrite small_pde in Hp by done. case_decide; [subst d|done].
    replace (table _ _ _) with (pg 302); [by apply Hni|by vm_compute]. }
  destruct (parent_same (pg 258) _ _ _ _ Hpt roomy_same) as [Hpde Hpte]. destruct small_parent as (_ & Hsz & Hp).
  split; [by apply (pt_ok_ext (pg 258) (kmemory small))|]. split; [done|]. intros va Hva Hb. destruct (Hp va Hva Hb) as (H1 & H2 & _).
  unfold upage. rewrite Hpte by done. split; [done|]. split; [done|].
  destruct (small_present va Hva H1) as [_ Hu]. unfold upage in Hu. rewrite Hu. by apply Hni.
Qed.

#[local] Instance no_disk : BlockOps unit := {|
  bl_bread _ _ := fault "no disk"; bl_data _ := fault "no disk"; bl_set_data _ _ := fault "no disk";
  bl_log_write _ := fault "no disk"; bl_brelse _ := fault "no disk" |}.
#[local] Instance no_log : TxnOps unit := {| tx_init _ := fault "no disk"; tx_begin := mret tt; tx_end := mret tt |}.

Definition parent1 : proc :=
  mkproc PGSIZE (pg 301) (pg 300) RUNNING 1 None user_tf None false (Some 0%nat :: Some 0%nat :: replicate 14 None) (Some 0%nat) (replicate 16 0) 0 0 0.
Definition root1 : Fs.inode := Fs.mkinode 1 1 1 false true 1 0 0 1 512 (replicate 13 0).
Definition kernel1 : kern unit :=
  mkkern roomy (Fs.mkfs tt (Layout.mksb 0 0 0 0 0 0 0) [root1]) [mkfile FD_INODE 2 true true 0 0 0] ∅
    (mkptab [parent1; proc0] 2 (Some 0%nat)) 0 0.

Lemma kernel1_ok : may_fork (pg 258) kernel1 parent1 0 root1 frees.
Proof.
  split; [done|apply roomy_ok|apply roomy_parent|done| |done|done|].
  - intros f Hf. assert (f = 0%nat) as ->; [|by eexists]. apply list_elem_of_In in Hf. cbn in Hf.
    repeat (destruct Hf as [Hf|Hf]; [congruence|]). done.
  - intros [|[|i]] p [Hp Hst]; [injection Hp as <-; done|injection Hp as <-; done|done].
Qed.

(** There is a slot and memory enough: it does not fail. *)
Lemma kernel1_room s' : ~ fork_failed (pg 258) kernel1 parent1 frees s'.
Proof.
  intros [[Hn|Hl] _]; [by apply (Hn 1%nat proc0)|]. unfold frees in Hl. rewrite length_fmap, length_seqZ in Hl.
  change (p_sz parent1 / PGSIZE + 1) with 2 in Hl. lia.
Qed.

Lemma fork_copies_witness : exists r s', fork (pg 258) (pg 257) kernel1 = Ret r s' /\
  forked (pg 258) (pg 257) kernel1 parent1 0 root1 frees r s'.
Proof.
  pose proof (fork_copies (pg 258) (pg 257) ltac:(reflexivity) ltac:(repeat split) kernel1 parent1 0 root1 frees kernel1_ok) as H.
  apply wp_elim in H as (r & s' & Hrun & H). exists r, s'. split; [exact Hrun|].
  destruct H as [Hf|[_ Hf]]; [exact Hf|destruct (kernel1_room s' Hf)].
Defined.

Lemma kernel1_waits : may_wait kernel1 parent1 0.
Proof.
  split; [done| | | |].
  - split; [done|]. by exists parent1.
  - intros [|[|j]] q Hq; [injection Hq as <-; done|injection Hq as <-; done|done].
  - intros [|[|j]] q Hq; [injection Hq as <-; done|injection Hq as <-; done|done].
  - intros i p [|[|j]] q _ Hq; [injection Hq as <-; done|injection Hq as <-; done|done].
Qed.

(** The child stores a byte in its page, or not; then it exits. *)
Lemma fork_exit_wait_witness : exists r s1 i s2 s3, fork (pg 258) (pg 257) kernel1 = Ret r s1 /\
  wait (pg 258) s1 = Sleep (ChProc 0) s2 /\ scheduler_run i s2 = Ret true s3 /\
  forall s4, runs_in (pg 258) s3 s4 -> exists s5 s6, exit (A := unit) (pg 258) s4 = Sleep ChNever s5 /\ scheduler_run 0 s5 = Ret true s6 /\
  exists s7 l', wait (pg 258) (resumed s6) = Ret r s7 /\ kmem_ok (pg 258) (k_mem s7) l' /\ l' ≡ₚ frees /\ k_files s7 = k_files kernel1.
Proof.
  pose proof (fork_exit_wait (pg 258) (pg 257) ltac:(reflexivity) ltac:(repeat split) kernel1 parent1 0 root1 frees 0 tt tt
    kernel1_ok kernel1_waits eq_refl ltac:(discriminate) eq_refl eq_refl) as H.
  apply wp_elim in H as (r & s1 & Hrun & H). destruct H as [[_ Hf]|(i & p & s2 & s3 & _ & Hw & Hs & _ & H)]; [destruct (kernel1_room s1 Hf)|].
  exists r, s1, i, s2, s3. split; [exact Hrun|]. split; [exact Hw|]. split; [exact Hs|]. intros s4 H4.
  destruct (H s4 H4) as (s5 & s6 & He & Hs6 & Hwait). exists s5, s6. split; [exact He|]. split; [exact Hs6|].
  apply wp_elim in Hwait as (r' & s7 & Hrun7 & Hr & z & l' & E7 & _ & _ & Hk & Hl & _). exists s7, l'.
  split; [rewrite <- Hr; exact Hrun7|]. split; [exact Hk|]. split; [exact Hl|]. rewrite E7. reflexivity.
Defined.

End KprocSpec.
