(* ===== verification/Sh.v ===== *)
(** * The shell's parser (sh.c)

    The shell parses a command line in place: the nodes of the parse tree point
    into the line, and [nulterminate] ends the words they point at by writing
    NULs over the characters behind them.  The state [sh] holds the line, the
    position [*ps] that all parsing functions share, the nodes allocated so
    far and the bytes written to the standard error output.

    A [struct cmd *] is an index into the list of nodes, with a node that is
    never read at index 0 for the null pointer; a [char *] is an index into the
    line.  [malloc] gives [sh_room] nodes and then fails, after which [memset]
    writes through a null pointer. *)

From S2P Require Import Prelude Bytes CString.
Local Open Scope Z_scope.

(** ** Data *)

Definition MAXARGS : nat := 10.
Definition O_RDONLY : Z := 0x000.
Definition O_WRONLY : Z := 0x001.
Definition O_RDWR : Z := 0x002.
Definition O_CREATE : Z := 0x200.

Inductive node : Type :=
  | NNull
  | NExec (argv eargv : list (option nat))
  | NRedir (cmd file efile : nat) (mode fd : Z)
  | NPipe (left right : nat)
  | NList (left right : nat)
  | NBack (cmd : nat).

Record sh : Type := mksh {
  sh_buf : list Z;      (* char buf[] *)
  sh_ps : nat;          (* *ps *)
  sh_heap : list node;  (* the nodes, NNull first *)
  sh_room : nat;        (* how many nodes malloc can give *)
  sh_err : list Z       (* written to file descriptor 2 *)
}.

Definition set_buf (b : list Z) (s : sh) : sh :=
  mksh b (sh_ps s) (sh_heap s) (sh_room s) (sh_err s).
Definition set_ps (p : nat) (s : sh) : sh :=
  mksh (sh_buf s) p (sh_heap s) (sh_room s) (sh_err s).
Definition set_heap (h : list node) (s : sh) : sh :=
  mksh (sh_buf s) (sh_ps s) h (sh_room s) (sh_err s).
Definition add_err (b : list Z) (s : sh) : sh :=
  mksh (sh_buf s) (sh_ps s) (sh_heap s) (sh_room s) (sh_err s ++ b).

(** The bytes of a string constant. *)
Definition bytes_of (m : string) : list Z :=
  map (fun c => Z.of_nat (Ascii.nat_of_ascii c)) (String.list_ascii_of_string m).

(** [panic(s)]: print the message and exit. *)
Definition sh_panic {A} (m : string) : K sh A :=
  modify (add_err (bytes_of m ++ [10]));; panic m.

(** [*s] *)
Definition rd (i : nat) : K sh Z := b ← gets sh_buf; arr_get b i.
Definition wr (i : nat) (c : Z) : K sh unit :=
  b ← gets sh_buf; _ ← arr_get b i; modify (set_buf (<[i := c]> b)).

(** [cmd->...] *)
Definition rd_node (p : nat) : K sh node :=
  h ← gets sh_heap; n ← arr_get h p;
  match n with NNull => fault "null pointer" | _ => mret n end.
Definition wr_node (p : nat) (n : node) : K sh unit :=
  modify (fun s => set_heap (<[p := n]> (sh_heap s)) s).

(** ** Constructors *)

Definition new_node (n : node) : K sh nat :=
  s ← gets id;
  if (length (sh_heap s) <=? sh_room s)%nat
  then modify (set_heap (sh_heap s ++ [n]));; mret (length (sh_heap s))
  else fault "out of memory".

Definition execcmd : K sh nat := new_node (NExec (replicate MAXARGS None) (replicate MAXARGS None)).
Definition redircmd (subcmd file efile : nat) (mode fd : Z) : K sh nat :=
  new_node (NRedir subcmd file efile mode fd).
Definition pipecmd (left right : nat) : K sh nat := new_node (NPipe left right).
Definition listcmd (left right : nat) : K sh nat := new_node (NList left right).
Definition backcmd (subcmd : nat) : K sh nat := new_node (NBack subcmd).

(** ** Tokens *)

Definition whitespace : list Z := [32; 9; 13; 10; 11].
Definition symbols : list Z := [60; 124; 62; 38; 59; 40; 41].

(** [strchr(l, c) != 0] for a constant string [l]. *)
Definition in_str (l : list Z) (c : Z) : bool :=
  match CString.strchr (S (length l)) (fun i => nth i l 0) c with
  | Some (Some _) => true
  | _ => false
  end.

(** [while(s < es && p( *s )) s++;] *)
Fixpoint scan (fuel : nat) (p : Z -> bool) (s es : nat) : K sh nat :=
  match fuel with
  | O => fault "fuel"
  | S fuel =>
      if (s <? es)%nat
      then c ← rd s; if (p c : bool) then scan fuel p (S s) es else mret s
      else mret s
  end.
Definition skip_white (s es : nat) : K sh nat := scan (S (es - s)) (in_str whitespace) s es.

(** The token, and the ends [q] and [eq] of its text. *)
Definition gettoken (es : nat) : K sh (Z * nat * nat) :=
  s ← gets sh_ps;
  s ← skip_white s es;
  let q := s in
  c ← rd s;
  '(ret, s) ←
    (if c =? 0 then mret (c, s)
     else if in_str [124; 40; 41; 59; 38; 60] c then mret (c, S s)
     else if c =? 62 then
       d ← rd (S s);
       if d =? 62 then mret (43, S (S s)) else mret (c, S s)
     else
       s ← scan (S (es - s)) (fun c => negb (in_str whitespace c) && negb (in_str symbols c))%bool s es;
       mret (97, s));
  let eq := s in
  s ← skip_white s es;
  modify (set_ps s);;
  mret (ret, q, eq).

Definition peek (es : nat) (toks : list Z) : K sh bool :=
  s ← gets sh_ps;
  s ← skip_white s es;
  modify (set_ps s);;
  c ← rd s;
  mret (negb (c =? 0) && in_str toks c)%bool.

(** ** The grammar *)

(** [while(peek(ps, es, "&"))] of [parseline]. *)
Fixpoint background (fuel : nat) (es cmd : nat) : K sh nat :=
  match fuel with
  | O => fault "fuel"
  | S fuel =>
      b ← peek es [38];
      if (b : bool) then
        _ ← gettoken es;
        cmd ← backcmd cmd;
        background fuel es cmd
      else mret cmd
  end.

Fixpoint parseredirs_loop (fuel : nat) (cmd es : nat) : K sh nat :=
  match fuel with
  | O => fault "fuel"
  | S fuel =>
      b ← peek es [60; 62];
      if (b : bool) then
        '(tok, _, _) ← gettoken es;
        '(a, q, eq) ← gettoken es;
        if negb (a =? 97) then sh_panic "missing file for redirection"
        else
          cmd ← (if tok =? 60 then redircmd cmd q eq O_RDONLY 0
                 else if tok =? 62 then redircmd cmd q eq (Z.lor O_WRONLY O_CREATE) 1
                 else if tok =? 43 then redircmd cmd q eq (Z.lor O_WRONLY O_CREATE) 1
                 else mret cmd);
          parseredirs_loop fuel cmd es
      else mret cmd
  end.
Definition parseredirs (cmd es : nat) : K sh nat := parseredirs_loop (S es) cmd es.

(** [cmd->argv[argc] = q; cmd->eargv[argc] = eq;] *)
Definition set_arg (cmd argc : nat) (q eq : option nat) : K sh unit :=
  n ← rd_node cmd;
  match n with
  | NExec argv eargv =>
      _ ← arr_get argv argc; _ ← arr_get eargv argc;
      wr_node cmd (NExec (<[argc := q]> argv) (<[argc := eq]> eargv))
  | _ => fault "not an execcmd"
  end.

Fixpoint args_loop (fuel : nat) (cmd ret argc es : nat) : K sh (nat * nat) :=
  match fuel with
  | O => fault "fuel"
  | S fuel =>
      b ← peek es [124; 41; 38; 59];
      if (b : bool) then mret (ret, argc)
      else
        '(tok, q, eq) ← gettoken es;
        if tok =? 0 then mret (ret, argc)
        else if negb (tok =? 97) then sh_panic "syntax"
        else
          set_arg cmd argc (Some q) (Some eq);;
          if (MAXARGS <=? S argc)%nat then sh_panic "too many args"
          else
            ret ← parseredirs ret es;
            args_loop fuel cmd ret (S argc) es
  end.

Fixpoint parseline (fuel : nat) (es : nat) : K sh nat :=
  match fuel with
  | O => fault "fuel"
  | S fuel =>
      cmd ← parsepipe fuel es;
      cmd ← background (S es) es cmd;
      b ← peek es [59];
      if (b : bool) then
        _ ← gettoken es;
        r ← parseline fuel es;
        listcmd cmd r
      else mret cmd
  end
with parsepipe (fuel : nat) (es : nat) : K sh nat :=
  match fuel with
  | O => fault "fuel"
  | S fuel =>
      cmd ← parseexec fuel es;
      b ← peek es [124];
      if (b : bool) then
        _ ← gettoken es;
        r ← parsepipe fuel es;
        pipecmd cmd r
      else mret cmd
  end
with parseexec (fuel : nat) (es : nat) : K sh nat :=
  match fuel with
  | O => fault "fuel"
  | S fuel =>
      b ← peek es [40];
      if (b : bool) then parseblock fuel es
      else
        cmd ← execcmd;
        ret ← parseredirs cmd es;
        '(ret, argc) ← args_loop (S es) cmd ret 0 es;
        set_arg cmd argc None None;;
        mret ret
  end
with parseblock (fuel : nat) (es : nat) : K sh nat :=
  match fuel with
  | O => fault "fuel"
  | S fuel =>
      b ← peek es [40];
      if negb b then sh_panic "parseblock"
      else
        _ ← gettoken es;
        cmd ← parseline fuel es;
        b ← peek es [41];
        if negb b then sh_panic "syntax - missing )"
        else
          _ ← gettoken es;
          parseredirs cmd es
  end.

(** [for(i=0; ecmd->argv[i]; i++) *ecmd->eargv[i] = 0;] *)
Fixpoint end_args (fuel : nat) (argv eargv : list (option nat)) (i : nat) : K sh unit :=
  match fuel with
  | O => fault "fuel"
  | S fuel =>
      q ← arr_get argv i;
      match q with
      | None => mret tt
      | Some _ =>
          eq ← arr_get eargv i;
          match eq with
          | Some eq => wr eq 0;; end_args fuel argv eargv (S i)
          | None => fault "null pointer"
          end
      end
  end.

(** Parse trees are finite, and a node is allocated after its children: the
    number of nodes bounds the depth of the recursion. *)
Fixpoint nulterminate (fuel : nat) (cmd : nat) : K sh unit :=
  match fuel with
  | O => fault "fuel"
  | S fuel =>
      if (cmd =? 0)%nat then mret tt
      else
        n ← rd_node cmd;
        match n with
        | NNull => fault "null pointer"
        | NExec argv eargv => end_args (S MAXARGS) argv eargv 0
        | NRedir c _ efile _ _ => nulterminate fuel c;; wr efile 0
        | NPipe l r => nulterminate fuel l;; nulterminate fuel r
        | NList l r => nulterminate fuel l;; nulterminate fuel r
        | NBack c => nulterminate fuel c
        end
  end.

(** The string at an address. *)
Fixpoint cstring (b : list Z) : list Z :=
  match b with
  | [] => []
  | c :: b => if c =? 0 then [] else c :: cstring b
  end.

(** The line starts at [s].  Every call of the grammar's functions consumes a
    token within four calls, so that [4 * (es - s + 1)] of them are enough. *)
Definition parsecmd (s : nat) : K sh nat :=
  modify (set_ps s);;
  b ← gets sh_buf;
  let es := (s + length (cstring (drop s b)))%nat in
  cmd ← parseline (4 * S (es - s)) es;
  _ ← peek es [];
  s ← gets sh_ps;
  (if negb (s =? es)%nat
   then b ← gets sh_buf;
        modify (add_err (bytes_of "leftovers: " ++ cstring (drop s b) ++ [10]));;
        sh_panic "syntax"
   else mret tt);;
  h ← gets sh_heap;
  nulterminate (length h) cmd;;
  mret cmd.
