(* ===== verification/ShLex.v ===== *)
(** * The shell's tokens

    [lexes text ts] says what the tokens of a command line are, white space
    ignored.  [gettoken] and [peek] are specified against it: a parser state
    [at_toks s es ts] has the tokens [ts] left to read, [gettoken] takes the
    first of them and [peek] looks at its first character. *)

From S2P Require Import Prelude Bytes CString Sh.
Local Open Scope Z_scope.

Inductive token : Type :=
  | Sym (c : Z)
  | Append
  | Word (w : list Z).

Definition white (c : Z) : bool := in_str whitespace c.
Definition plain (c : Z) : bool :=
  (negb (white c) && negb (in_str symbols c) && negb (c =? 0))%bool.

(** [>] is not in the list: it can be the start of [>>]. *)
Definition singles : list Z := [124; 40; 41; 59; 38; 60].

Inductive lexes : list Z -> list token -> Prop :=
  | lex_end : lexes [] []
  | lex_white c r ts : white c = true -> lexes r ts -> lexes (c :: r) ts
  | lex_single c r ts : c ∈ singles -> lexes r ts -> lexes (c :: r) (Sym c :: ts)
  | lex_gt r ts : head r <> Some 62 -> lexes r ts -> lexes (62 :: r) (Sym 62 :: ts)
  | lex_append r ts : lexes r ts -> lexes (62 :: 62 :: r) (Append :: ts)
  | lex_word w r ts : w <> [] -> Forall (fun c => plain c = true) w ->
      (forall c, head r = Some c -> plain c = false) ->
      lexes r ts -> lexes (w ++ r) (Word w :: ts).

(** What [gettoken] returns for a token, and the character it starts with. *)
Definition code (t : token) : Z :=
  match t with Sym c => c | Append => 43 | Word _ => 97 end.
Definition first_char (t : token) : Z :=
  match t with Sym c => c | Append => 62 | Word w => hd 0 w end.

(** [w] is the text of the line between [q] and [e]; a character that cannot
    be part of a word follows it. *)
Definition span (b : list Z) (q e : nat) (w : list Z) : Prop :=
  slice q (length w) b = w /\ e = (q + length w)%nat /\
  Forall (fun c => plain c = true) w /\ exists c, b !! e = Some c /\ plain c = false.

(** The text from [p] to [es] ends in a NUL and has the tokens [ts]. *)
Definition toks_from (b : list Z) (p es : nat) (ts : list token) : Prop :=
  exists text junk, drop p b = text ++ 0 :: junk /\ es = (p + length text)%nat /\
    (0 ∉ text) /\ lexes text ts.
Definition at_toks (s : sh) (es : nat) (ts : list token) : Prop :=
  toks_from (sh_buf s) (sh_ps s) es ts.

(** ** Characters *)

Lemma in_str_elem l c : 0 ∉ l -> in_str l c = true <-> c ∈ l.
Proof.
  unfold in_str. intros H0.
  assert (forall l n, 0 ∉ l -> (length l < n)%nat ->
    match CString.strchr n (fun i => nth i l 0) c with
    | Some (Some _) => c ∈ l | Some None => c ∉ l | None => False end) as Hs.
  { clear. induction l as [|x l IH]; intros [|n] H0 Hn; [cbn in Hn; lia|by apply not_elem_of_nil|cbn in Hn; lia|].
    cbn [CString.strchr length nth] in Hn |- *. apply not_elem_of_cons in H0 as [? H0].
    destruct (x =? 0) eqn:E; bool_hyps; [lia|].
    destruct (x =? c) eqn:E2; bool_hyps; [subst; apply elem_of_cons; by left|].
    specialize (IH n H0 ltac:(lia)).
    destruct (CString.strchr _ _ _) as [[j|]|]; cbn; [apply elem_of_cons; by right| |done].
    apply not_elem_of_cons. auto. }
  specialize (Hs l _ H0 (Nat.lt_succ_diag_r _)). destruct (CString.strchr _ _ _) as [[j|]|]; naive_solver.
Qed.

Lemma in_str_incl l l' c : 0 ∉ l -> 0 ∉ l' -> l ⊆ l' -> in_str l c = true -> in_str l' c = true.
Proof. intros ?? Hi. rewrite !in_str_elem by done. apply Hi. Qed.

Lemma plain_not_in l c : 0 ∉ l -> l ⊆ symbols -> plain c = true -> in_str l c = false.
Proof.
  intros H0 Hi Hp. apply not_true_is_false. intros Hc.
  apply (in_str_incl l symbols) in Hc; [|done| |done].
  - unfold plain in Hp. rewrite Hc in Hp. by rewrite andb_false_r in Hp.
  - by apply (bool_decide_unpack _).
Qed.

Lemma singles_symbols c : c ∈ singles -> in_str symbols c = true.
Proof. intros Hc. apply in_str_elem; [by apply (bool_decide_unpack _)|]. unfold singles, symbols in *. set_solver. Qed.

Lemma white_not_zero c : white c = true -> c <> 0.
Proof. by intros H ->. Qed.

Lemma symbol_not_white c : in_str symbols c = true -> white c = false.
Proof.
  rewrite in_str_elem by by apply (bool_decide_unpack _). intros Hc. unfold symbols in Hc.
  repeat (apply elem_of_cons in Hc as [->|Hc]; [done|]). by apply elem_of_nil in Hc.
Qed.

(** The longest word a line starts with. *)
Lemma word_prefix l : exists w r, l = w ++ r /\ Forall (fun c => plain c = true) w /\
  forall c, head r = Some c -> plain c = false.
Proof.
  induction l as [|c l (w & r & -> & Hw & Hr)]; [by exists [], []|].
  destruct (plain c) eqn:Hp; [exists (c :: w), r; auto|].
  exists [], (c :: w ++ r). split_and!; [done..|]. naive_solver.
Qed.

(** Every line has tokens. *)
Lemma lexes_total text : 0 ∉ text -> exists ts, lexes text ts.
Proof.
  remember (length text) as n eqn:Hn. revert text Hn.
  induction n as [n IH] using lt_wf_ind. intros text -> H0.
  destruct text as [|c r]; [exists []; constructor|].
  pose proof H0 as [Hc Hr]%not_elem_of_cons.
  destruct (IH (length r) ltac:(cbn; lia) r eq_refl Hr) as [ts Hts].
  destruct (white c) eqn:Hw; [exists ts; by constructor|].
  destruct (decide (c ∈ singles)) as [|Hs]; [exists (Sym c :: ts); by constructor|].
  destruct (decide (c = 62)) as [->|Hg].
  { destruct r as [|d r]; [exists (Sym 62 :: ts); by constructor|].
    destruct (decide (d = 62)) as [->|]; [|exists (Sym 62 :: ts); apply lex_gt; [cbn; congruence|done]].
    apply not_elem_of_cons in Hr as [_ Hr].
    destruct (IH (length r) ltac:(cbn; lia) r eq_refl Hr) as [ts' ?].
    exists (Append :: ts'). by constructor. }
  assert (plain c = true) as Hp.
  { unfold plain. rewrite Hw. cbn. apply andb_true_intro. split; [|by apply negb_true_iff, Z.eqb_neq].
    apply negb_true_iff, not_true_is_false. rewrite in_str_elem by by apply (bool_decide_unpack _).
    unfold symbols, singles in *. set_solver. }
  destruct (word_prefix r) as (w & r' & -> & Hpw & Hr').
  apply not_elem_of_app in Hr as [_ Hr].
  destruct (IH (length r') ltac:(cbn; rewrite length_app; lia) r' eq_refl Hr) as [ts' ?].
  exists (Word (c :: w) :: ts'). apply (lex_word (c :: w)); auto.
Qed.

(** ** Scanning *)

Lemma drop_lookup (b : list Z) i c r : drop i b = c :: r -> b !! i = Some c /\ drop (S i) b = r.
Proof.
  intros H. split.
  - pose proof (lookup_drop b i 0) as Hl. rewrite H, Nat.add_0_r in Hl. done.
  - replace (S i) with (i + 1)%nat by lia. by rewrite <- drop_drop, H.
Qed.

Lemma wp_rd i c s Q : sh_buf s !! i = Some c -> Q c s -> wp (rd i) s Q.
Proof. intros. unfold rd. do 2 wp_step. by apply (wp_arr_get _ _ c). Qed.

Lemma scan_spec p l : forall fuel i es s c r Q, drop i (sh_buf s) = l ++ c :: r ->
  Forall (fun c => p c = true) l -> (i + length l <= es)%nat ->
  (es = i + length l)%nat \/ p c = false -> (length l < fuel)%nat ->
  Q (i + length l)%nat s -> wp (scan fuel p i es) s Q.
Proof.
  induction l as [|x l IH]; intros [|fuel] i es s c r Q Hd Hl He Hc Hf HQ; cbn in Hf; try lia;
    cbn [scan]; cbn in Hd, He, HQ; destruct (drop_lookup _ _ _ _ Hd) as [Hi Hd'].
  - rewrite Nat.add_0_r in HQ, Hc. destruct (i <? es)%nat eqn:E; [|by apply wp_ret].
    apply Nat.ltb_lt in E. wp_step. eapply wp_rd; [done|]. destruct Hc as [?| ->]; [lia|by apply wp_ret].
  - inversion Hl as [|?? Hx Hl']; subst. destruct (Nat.ltb_spec i es); [|lia].
    wp_step. eapply wp_rd; [done|]. rewrite Hx.
    eapply (IH fuel (S i) es s c r); try done; try lia.
    + destruct Hc; [left; cbn in *; lia|by right].
    + by replace (S i + length l)%nat with (i + S (length l))%nat by lia.
Qed.

Lemma lexes_white c r ts : white c = true -> lexes (c :: r) ts -> lexes r ts.
Proof.
  intros Hw H. remember (c :: r) as t eqn:Ht. destruct H as [|c' ? ? ?|c' r' ts Hs|r' ts Hg|r' ts|w r' ts Hne Hp Hr]; simplify_eq; try done.
  - apply singles_symbols, symbol_not_white in Hs. congruence.
  - destruct w as [|x w]; [done|]. cbn in Ht. simplify_eq. inversion Hp as [|?? Hx]; subst.
    unfold plain in Hx. by rewrite Hw in Hx.
Qed.

(** Skipping white space leaves the tokens as they are. *)
Lemma skip_white_spec p es ts s Q : toks_from (sh_buf s) p es ts ->
  (forall p', (p <= p')%nat -> toks_from (sh_buf s) p' es ts ->
    (p' = es \/ exists c, sh_buf s !! p' = Some c /\ white c = false) -> Q p' s) ->
  wp (skip_white p es) s Q.
Proof.
  intros (text & junk & Hd & -> & H0 & Hlex) HQ.
  assert (exists ws r, text = ws ++ r /\ Forall (fun c => white c = true) ws /\
    (forall c, head r = Some c -> white c = false) /\ lexes r ts) as (ws & r & -> & Hws & Hr & Hl).
  { clear -Hlex. induction text as [|c text IH]; [by exists [], []|].
    destruct (white c) eqn:Hw; [|exists [], (c :: text); naive_solver].
    destruct (IH (lexes_white _ _ _ Hw Hlex)) as (ws & r & -> & ?). exists (c :: ws), r. naive_solver. }
  assert (drop (p + length ws) (sh_buf s) = r ++ 0 :: junk) as Hdr.
  { rewrite <- drop_drop, Hd, <- app_assoc. apply drop_app_length. }
  assert (exists c r', r ++ 0 :: junk = c :: r') as (c & r' & Hc) by (destruct r; eexists _, _; done).
  rewrite <- app_assoc, Hc in Hd. apply not_elem_of_app in H0 as [_ H0].
  assert (r = [] \/ white c = false) as Hcase.
  { destruct r as [|x r]; [by left|right]. cbn in Hc. simplify_eq. by apply Hr. }
  unfold skip_white. eapply (scan_spec _ ws); [done|done| | | |].
  - rewrite length_app. lia.
  - destruct Hcase as [->|]; [left; rewrite app_nil_r; lia|by right].
  - rewrite length_app. lia.
  - apply HQ; [lia| |].
    + exists r, junk. rewrite length_app. split_and!; [done|lia|done..].
    + destruct Hcase as [->|Hcw]; [left; rewrite app_nil_r; lia|right].
      exists c. rewrite Hc in Hdr. by destruct (drop_lookup _ _ _ _ Hdr).
Qed.

(** ** Tokens *)

Lemma toks_from_nil b p es : toks_from b p es [] -> p = es \/ exists c, b !! p = Some c /\ white c = true.
Proof.
  intros (text & junk & Hd & -> & _ & Hl). inversion Hl as [|c r ts Hw| | | |]; subst; cbn.
  - left. lia.
  - right. exists c. by destruct (drop_lookup _ _ _ _ Hd).
Qed.

(** What is at the position of the first token. *)
Inductive first_at (b : list Z) (p es : nat) : list token -> Prop :=
  | at_end : b !! p = Some 0 -> p = es -> first_at b p es []
  | at_single c ts : b !! p = Some c -> c ∈ singles -> (p < es)%nat -> toks_from b (S p) es ts ->
      first_at b p es (Sym c :: ts)
  | at_gt c ts : b !! p = Some 62 -> b !! (S p) = Some c -> c <> 62 -> (p < es)%nat -> toks_from b (S p) es ts ->
      first_at b p es (Sym 62 :: ts)
  | at_append ts : b !! p = Some 62 -> b !! (S p) = Some 62 -> (p < es)%nat -> toks_from b (S (S p)) es ts ->
      first_at b p es (Append :: ts)
  | at_word c w d r ts : drop p b = (c :: w) ++ d :: r -> (p + S (length w) <= es)%nat ->
      Forall (fun c => plain c = true) (c :: w) -> plain d = false -> (d = 0 -> es = (p + S (length w))%nat) ->
      toks_from b (p + S (length w)) es ts -> first_at b p es (Word (c :: w) :: ts).

Lemma toks_from_tail b p es text junk ts l : drop p b = (l ++ text) ++ 0 :: junk ->
  es = (p + length (l ++ text))%nat -> 0 ∉ (l ++ text) -> lexes text ts -> toks_from b (p + length l) es ts.
Proof.
  intros Hd -> [_ H0]%not_elem_of_app Hl. exists text, junk.
  rewrite <- drop_drop, Hd, <- app_assoc, drop_app_length, length_app. auto with lia.
Qed.

Lemma first_token b p es ts : toks_from b p es ts ->
  (p = es \/ exists c, b !! p = Some c /\ white c = false) -> first_at b p es ts.
Proof.
  intros (text & junk & Hd & Hes & H0 & Hl) Hw.
  destruct Hl as [|c r ts Hc|c r ts Hs Hl|r ts Hg Hl|r ts Hl|w r ts Hne Hp Hr Hl].
  - cbn in *. constructor; [by destruct (drop_lookup _ _ _ _ Hd)|lia].
  - exfalso. cbn in *. destruct Hw as [?|(c' & Hc' & ?)]; [lia|].
    destruct (drop_lookup _ _ _ _ Hd) as [Hx _]. congruence.
  - pose proof (toks_from_tail _ _ _ _ _ _ [c] Hd Hes H0 Hl) as Ht. rewrite Nat.add_1_r in Ht.
    constructor; [by destruct (drop_lookup _ _ _ _ Hd)|done|cbn in Hes; lia|done].
  - pose proof (toks_from_tail _ _ _ _ _ _ [62] Hd Hes H0 Hl) as Ht. rewrite Nat.add_1_r in Ht.
    destruct (drop_lookup _ _ _ _ Hd) as [Hx Hd']. cbn in Hes.
    assert (exists d x, r ++ 0 :: junk = d :: x /\ d <> 62) as (d & x & Hrx & ?).
    { destruct r; eexists _, _; (split; [done|]); [done|]. cbn in Hg. congruence. }
    change (drop (S p) b = r ++ 0 :: junk) in Hd'. rewrite Hrx in Hd'. destruct (drop_lookup _ _ _ _ Hd') as [Hy _].
    eapply at_gt; [done..|lia|done].
  - pose proof (toks_from_tail _ _ _ _ _ _ [62; 62] Hd Hes H0 Hl) as Ht.
    destruct (drop_lookup _ _ _ _ Hd) as [Hx Hd'], (drop_lookup _ _ _ _ Hd') as [Hy _]. cbn in Hes, Ht.
    replace (p + 2)%nat with (S (S p)) in Ht by lia. constructor; [done..|lia|done].
  - destruct w as [|c w]; [done|].
    pose proof (toks_from_tail _ _ _ _ _ _ (c :: w) Hd Hes H0 Hl) as Ht.
    rewrite length_app in Hes. apply not_elem_of_app in H0 as [_ H0].
    assert (exists d x, r ++ 0 :: junk = d :: x /\ plain d = false /\ (d = 0 -> r = [])) as (d & x & Hrx & ? & Hd0).
    { destruct r as [|y r]; eexists _, _; (split; [done|]); [done|]. apply not_elem_of_cons in H0 as [??].
      split; [by apply Hr|]. intros ->. done. }
    rewrite <- app_assoc, Hrx in Hd.
    eapply at_word; [exact Hd|cbn in Hes; lia|done|done| |done].
    intros ->. rewrite (Hd0 eq_refl) in Hes. cbn in Hes. lia.
Qed.

Lemma toks_from_end b es ts : toks_from b es es ts -> ts = [].
Proof.
  intros (text & junk & _ & Hes & _ & Hl). assert (text = []) as -> by (destruct text; cbn in Hes; [done|lia]).
  inversion Hl as [| | | | |w r ? Hne]; [done|]. by destruct w.
Qed.

Definition peeked (toks : list Z) (ts : list token) : bool :=
  match ts with [] => false | t :: _ => in_str toks (first_char t) end.

Lemma peek_spec s es ts toks Q : at_toks s es ts -> 
  (forall p, toks_from (sh_buf s) p es ts -> (ts = [] -> p = es) -> Q (peeked toks ts) (set_ps p s)) ->
  wp (peek es toks) s Q.
Proof.
  intros Hat HQ. unfold peek. do 2 wp_step. wp_step. eapply skip_white_spec; [exact Hat|].
  intros p _ Hp Hw. pose proof (first_token _ _ _ _ Hp Hw) as Hf. do 2 wp_step. wp_step.
  assert (forall c, sh_buf s !! p = Some c -> c <> 0 \/ ts = [] ->
    (negb (c =? 0) && in_str toks c)%bool = peeked toks ts -> (ts = [] -> p = es) -> 
    wp (rd p) (set_ps p s) (fun c s' => wp (mret (negb (c =? 0) && in_str toks c)%bool) s' Q)) as Hgo.
  { intros c Hc _ He Hes. eapply wp_rd; [exact Hc|]. wp_step. rewrite He. by apply HQ. }
  destruct Hf as [H0 ?|c ts Hc Hs|c ts Hc|ts Hc|c w d r ts Hd Hle Hpl].
  - eapply Hgo; eauto.
  - eapply Hgo; [exact Hc| | |done]; cbn; destruct (Z.eqb_spec c 0) as [->|]; auto;
      (by apply (bool_decide_unpack _) in Hs || (unfold singles in Hs; set_solver)).
  - eapply Hgo; [exact Hc|left; lia|done|done].
  - eapply Hgo; [exact Hc|left; lia|done|done].
  - destruct (drop_lookup _ _ _ _ Hd) as [Hc _]. inversion Hpl as [|?? Hx _]; subst.
    assert (c <> 0) by by intros ->.
    eapply Hgo; [exact Hc|auto| |done]. cbn. by rewrite (proj2 (Z.eqb_neq c 0)).
Qed.

(** The part of [gettoken] that reads the token itself. *)
Definition token_body (s es : nat) (c : Z) : K sh (Z * nat) :=
  if c =? 0 then mret (c, s)
  else if in_str [124; 40; 41; 59; 38; 60] c then mret (c, S s)
  else if c =? 62 then
    d ← rd (S s);
    if d =? 62 then mret (43, S (S s)) else mret (c, S s)
  else
    s ← scan (S (es - s)) (fun c => negb (in_str whitespace c) && negb (in_str symbols c))%bool s es;
    mret (97, s).

Lemma scan_plain s p es c w d r Q : drop p (sh_buf s) = (c :: w) ++ d :: r -> plain d = false ->
  Forall (fun c => plain c = true) (c :: w) -> (p + S (length w) <= es)%nat ->
  (d = 0 -> es = (p + S (length w))%nat) -> Q (p + S (length w))%nat s ->
  wp (scan (S (es - p)) (fun c => negb (in_str whitespace c) && negb (in_str symbols c))%bool p es) s Q.
Proof.
  intros Hd Hdp Hpl Hle H0 HQ. eapply (scan_spec _ (c :: w)); [exact Hd| |done| |cbn; lia|done].
  - eapply Forall_impl; [exact Hpl|]. intros x Hx. unfold plain, white in Hx. by apply andb_prop in Hx as [??].
  - unfold plain, white in Hdp. destruct (Z.eqb_spec d 0) as [->|]; [left; by apply H0|right].
    by rewrite andb_true_r in Hdp.
Qed.

Lemma span_word b p c w d r : drop p b = (c :: w) ++ d :: r -> plain d = false ->
  Forall (fun c => plain c = true) (c :: w) -> span b p (p + S (length w)) (c :: w).
Proof.
  intros Hd Hdp Hpl. split_and!; [|done|done|].
  - unfold slice. rewrite Hd. apply take_app_length.
  - exists d. split; [|done]. 
    destruct (drop_lookup b (p + S (length w)) d r) as [H _]; [|exact H].
    rewrite <- drop_drop, Hd. apply (drop_app_length (c :: w)).
Qed.

Lemma token_body_gt p es : token_body p es 62 =
  (d ← rd (S p); if d =? 62 then mret (43, S (S p)) else mret (62, S p)).
Proof. done. Qed.

Lemma token_body_spec s p es t ts Q : first_at (sh_buf s) p es (t :: ts) ->
  (forall e, toks_from (sh_buf s) e es ts -> (forall w, t = Word w -> span (sh_buf s) p e w) -> Q (code t, e) s) ->
  wp (c ← rd p; token_body p es c) s Q.
Proof.
  intros Hf HQ. wp_step. inversion Hf as [|c ? Hc Hs|c ? Hc Hd Hne|? Hc Hd|c w d r ? Hd Hle Hpl Hdp Hd0]; subst.
  - eapply wp_rd; [exact Hc|]. unfold token_body. fold singles.
    destruct (Z.eqb_spec c 0) as [->|]; [unfold singles in Hs; set_solver|].
    rewrite (proj2 (in_str_elem singles c ltac:(by apply (bool_decide_unpack _))) Hs).
    wp_step. by apply HQ.
  - eapply wp_rd; [exact Hc|]. rewrite token_body_gt. wp_step. eapply wp_rd; [exact Hd|].
    rewrite (proj2 (Z.eqb_neq _ _) Hne). wp_step. by apply HQ.
  - eapply wp_rd; [exact Hc|]. rewrite token_body_gt. wp_step. eapply wp_rd; [exact Hd|]. apply wp_ret. by apply HQ.
  - destruct (drop_lookup _ _ _ _ Hd) as [Hc _]. eapply wp_rd; [exact Hc|]. unfold token_body.
    inversion Hpl as [|?? Hx _]; subst.
    rewrite (plain_not_in [124; 40; 41; 59; 38; 60] c) by
      (done || by apply (bool_decide_unpack _) || (unfold symbols; set_solver)).
    destruct (Z.eqb_spec c 0) as [->|]; [done|]. destruct (Z.eqb_spec c 62) as [->|]; [done|].
    wp_step. eapply scan_plain; [done..|]. wp_step. apply HQ; [done|].
    intros ? [= <-]. by eapply span_word.
Qed.

Lemma gettoken_spec s es t ts Q : at_toks s es (t :: ts) ->
  (forall p q e, toks_from (sh_buf s) p es ts -> (forall w, t = Word w -> span (sh_buf s) q e w) ->
    Q (code t, q, e) (set_ps p s)) ->
  wp (gettoken es) s Q.
Proof.
  intros Hat HQ. unfold gettoken. do 2 wp_step. wp_step. eapply skip_white_spec; [exact Hat|].
  intros p _ Hp Hw. pose proof (first_token _ _ _ _ Hp Hw) as Hf.
  apply wp_bind_assoc. eapply wp_bind, token_body_spec; [exact Hf|]. intros e He Hspan.
  wp_step. eapply skip_white_spec; [exact He|]. intros p' _ Hp' _. repeat wp_step. by apply HQ.
Qed.

Lemma gettoken_end s es Q : at_toks s es [] ->
  (forall q e, toks_from (sh_buf s) es es [] -> Q (0, q, e) (set_ps es s)) -> wp (gettoken es) s Q.
Proof.
  intros Hat HQ. unfold gettoken. do 2 wp_step. wp_step. eapply skip_white_spec; [exact Hat|].
  intros p _ Hp Hw. pose proof (first_token _ _ _ _ Hp Hw) as Hf. inversion Hf as [H0 ->| | | |]; subst.
  wp_step. eapply wp_rd; [exact H0|]. cbn -[skip_white]. wp_steps. eapply skip_white_spec; [exact Hp|].
  intros p' Hle Hp' _. assert (p' = es) as ->.
  { destruct Hp' as (? & ? & _ & ? & _). lia. }
  repeat wp_step. by apply HQ.
Qed.
