(* ===== verification/ShParse.v ===== *)
(** * The shell's grammar

    The syntax of command lines as data, the tokens of each construct and the
    command it stands for.  [parseline], [parsepipe], [parseexec], [parseblock]
    and [parseredirs] are specified against them: from a state that has the
    tokens of a construct ahead, they build the nodes of its command. *)

From S2P Require Import Prelude Bytes CString Sh ShLex.
Local Open Scope Z_scope.

(** ** Syntax *)

Inductive rop : Type := RIn | ROut | RAppend.
Record redir : Type := mkredir { r_op : rop; r_file : list Z }.

Inductive line : Type :=
  | LEnd (p : pipeline) (amps : nat)
  | LSeq (p : pipeline) (amps : nat) (l : line)
with pipeline : Type :=
  | PEnd (e : simple)
  | PBar (e : simple) (p : pipeline)
with simple : Type :=
  | SCmd (rs : list redir) (args : list (list Z * list redir))
  | SBlock (l : line) (rs : list redir).

Scheme line_ind2 := Induction for line Sort Prop
  with pipeline_ind2 := Induction for pipeline Sort Prop
  with simple_ind2 := Induction for simple Sort Prop.
Combined Scheme syntax_ind from line_ind2, pipeline_ind2, simple_ind2.

Definition op_tok (o : rop) : token := match o with RIn => Sym 60 | ROut => Sym 62 | RAppend => Append end.
Definition redir_toks (r : redir) : list token := [op_tok (r_op r); Word (r_file r)].
Definition redirs_toks (rs : list redir) : list token := concat (map redir_toks rs).
Definition args_toks (args : list (list Z * list redir)) : list token :=
  concat (map (fun a => Word (fst a) :: redirs_toks (snd a)) args).

Fixpoint line_toks (l : line) : list token :=
  match l with
  | LEnd p k => pipeline_toks p ++ replicate k (Sym 38)
  | LSeq p k l => pipeline_toks p ++ replicate k (Sym 38) ++ Sym 59 :: line_toks l
  end
with pipeline_toks (p : pipeline) : list token :=
  match p with
  | PEnd e => simple_toks e
  | PBar e p => simple_toks e ++ Sym 124 :: pipeline_toks p
  end
with simple_toks (e : simple) : list token :=
  match e with
  | SCmd rs args => redirs_toks rs ++ args_toks args
  | SBlock l rs => Sym 40 :: line_toks l ++ Sym 41 :: redirs_toks rs
  end.

(** An [execcmd] has room for nine words and the null pointer after them. *)
Fixpoint line_fits (l : line) : Prop :=
  match l with
  | LEnd p _ => pipeline_fits p
  | LSeq p _ l => pipeline_fits p /\ line_fits l
  end
with pipeline_fits (p : pipeline) : Prop :=
  match p with
  | PEnd e => simple_fits e
  | PBar e p => simple_fits e /\ pipeline_fits p
  end
with simple_fits (e : simple) : Prop :=
  match e with
  | SCmd _ args => (length args < MAXARGS)%nat
  | SBlock l _ => line_fits l
  end.

(** ** Commands *)

Inductive cmd : Type :=
  | CExec (argv : list (list Z))
  | CRedir (c : cmd) (file : list Z) (mode fd : Z)
  | CPipe (left right : cmd)
  | CList (left right : cmd)
  | CBack (c : cmd).

Definition r_mode (r : redir) : Z :=
  match r_op r with RIn => O_RDONLY | _ => Z.lor O_WRONLY O_CREATE end.
Definition r_fd (r : redir) : Z := match r_op r with RIn => 0 | _ => 1 end.
Definition wrap (c : cmd) (r : redir) : cmd := CRedir c (r_file r) (r_mode r) (r_fd r).
Definition wraps (rs : list redir) (c : cmd) : cmd := fold_left wrap rs c.

Fixpoint backs (k : nat) (c : cmd) : cmd :=
  match k with O => c | S k => CBack (backs k c) end.

Fixpoint line_cmd (l : line) : cmd :=
  match l with
  | LEnd p k => backs k (pipeline_cmd p)
  | LSeq p k l => CList (backs k (pipeline_cmd p)) (line_cmd l)
  end
with pipeline_cmd (p : pipeline) : cmd :=
  match p with
  | PEnd e => simple_cmd e
  | PBar e p => CPipe (simple_cmd e) (pipeline_cmd p)
  end
with simple_cmd (e : simple) : cmd :=
  match e with
  | SCmd rs args => wraps (rs ++ concat (map snd args)) (CExec (map fst args))
  | SBlock l rs => wraps rs (line_cmd l)
  end.

(** The number of nodes of a command. *)
Fixpoint nodes (c : cmd) : nat :=
  match c with
  | CExec _ => 1
  | CRedir c _ _ _ => S (nodes c)
  | CPipe l r | CList l r => S (nodes l + nodes r)
  | CBack c => S (nodes c)
  end.

(** ** Nodes that stand for a command *)

(** The null-terminated array of an [execcmd]. *)
Definition arr (qs : list nat) : list (option nat) :=
  map Some qs ++ replicate (MAXARGS - length qs) None.

(** The node [p] and the nodes it points at are those of [c]; [str q e w] says
    that the pointers [q] and [e] enclose the word [w].  A node is allocated
    after its children. *)
Fixpoint denotes (str : nat -> nat -> list Z -> Prop) (h : list node) (p : nat) (c : cmd) : Prop :=
  match c with
  | CExec ws => exists qs es, h !! p = Some (NExec (arr qs) (arr es)) /\
      (length qs < MAXARGS)%nat /\ Forall3 str qs es ws
  | CRedir c f mode fd => exists q i e, h !! p = Some (NRedir q i e mode fd) /\ (q < p)%nat /\
      str i e f /\ denotes str h q c
  | CPipe l r => exists i j, h !! p = Some (NPipe i j) /\ (i < p)%nat /\ (j < p)%nat /\
      denotes str h i l /\ denotes str h j r
  | CList l r => exists i j, h !! p = Some (NList i j) /\ (i < p)%nat /\ (j < p)%nat /\
      denotes str h i l /\ denotes str h j r
  | CBack c => exists i, h !! p = Some (NBack i) /\ (i < p)%nat /\ denotes str h i c
  end.

(** From the node [p], the redirections [rs] lead up to [ret]. *)
Fixpoint chain (str : nat -> nat -> list Z -> Prop) (h : list node) (p : nat) (rs : list redir) (ret : nat) : Prop :=
  match rs with
  | [] => ret = p
  | r :: rs => exists i q e, h !! i = Some (NRedir p q e (r_mode r) (r_fd r)) /\ (p < i)%nat /\
      str q e (r_file r) /\ chain str h i rs ret
  end.

Section Denotes.
Context (str : nat -> nat -> list Z -> Prop).

Lemma denotes_app h new p c : denotes str h p c -> denotes str (h ++ new) p c.
Proof.
  assert (forall q n, h !! q = Some n -> (h ++ new) !! q = Some n) by (intros; by apply lookup_app_l_Some).
  revert p. induction c; cbn; intros p Hd; destruct_and?; decompose [ex and] Hd;
    repeat (eapply ex_intro || split); eauto.
Qed.

Lemma chain_app h new p rs ret : chain str h p rs ret -> chain str (h ++ new) p rs ret.
Proof.
  revert p. induction rs as [|r rs IH]; cbn; intros p; [done|]. intros (i & q & e & ? & ? & ? & ?).
  exists i, q, e. split_and!; auto. by apply lookup_app_l_Some.
Qed.

Lemma chain_trans h p rs rs' q r : chain str h p rs q -> chain str h q rs' r -> chain str h p (rs ++ rs') r.
Proof.
  revert p. induction rs as [|x rs IH]; cbn; intros p; [by intros ->|].
  intros (i & y & e & ? & ? & ? & ?) ?. exists i, y, e. auto.
Qed.

(** Filling in the words of an [execcmd] leaves the redirections around it. *)
Lemma chain_insert h c n n' p rs ret : h !! c = Some n -> (forall a b d e f, n <> NRedir a b d e f) ->
  chain str h p rs ret -> chain str (<[c := n']> h) p rs ret.
Proof.
  intros Hc Hn. revert p. induction rs as [|r rs IH]; cbn; intros p; [done|].
  intros (i & q & e & Hi & ? & ? & ?). exists i, q, e. split_and!; auto.
  rewrite list_lookup_insert_ne; [done|]. intros ->. rewrite Hi in Hc. simplify_eq. by eapply Hn.
Qed.

Lemma denotes_chain h p c rs ret : denotes str h p c -> chain str h p rs ret -> denotes str h ret (wraps rs c).
Proof.
  revert p c. induction rs as [|r rs IH]; cbn; intros p c Hd; [by intros ->|].
  intros (i & q & e & ? & ? & ? & ?). eapply IH; [|done]. cbn. exists p, q, e. auto.
Qed.
End Denotes.

(** ** What a parsing function leaves *)

(** [n] nodes were added; the line is as it was. *)
Definition grown (s s' : sh) (n : nat) : Prop :=
  sh_buf s' = sh_buf s /\ sh_room s' = sh_room s /\ sh_err s' = sh_err s /\
  exists new, sh_heap s' = sh_heap s ++ new /\ length new = n.

(** The nodes of [c] were added, and the tokens [ts] are left. *)
Definition parsed (s : sh) (es : nat) (c : cmd) (ts : list token) (p : nat) (s' : sh) : Prop :=
  at_toks s' es ts /\ grown s s' (nodes c) /\ (p < length (sh_heap s'))%nat /\
  denotes (span (sh_buf s')) (sh_heap s') p c.

Lemma grown_refl s p : grown s (set_ps p s) 0.
Proof. split_and!; [done..|]. exists []. by rewrite app_nil_r. Qed.

Lemma grown_trans s1 s2 s3 m n : grown s1 s2 m -> grown s2 s3 n -> grown s1 s3 (m + n).
Proof.
  intros (? & ? & ? & l1 & Hl1 & ?) (? & ? & ? & l2 & Hl2 & ?). split_and!; [congruence..|].
  exists (l1 ++ l2). rewrite Hl2, Hl1, app_assoc, length_app. auto with lia.
Qed.

Lemma grown_buf s s' n : grown s s' n -> sh_buf s' = sh_buf s.
Proof. by intros (? & _). Qed.
Lemma grown_room s s' n : grown s s' n -> sh_room s' = sh_room s.
Proof. by intros (_ & ? & _). Qed.
Lemma grown_length s s' n : grown s s' n -> length (sh_heap s') = (length (sh_heap s) + n)%nat.
Proof. intros (_ & _ & _ & new & -> & <-). apply length_app. Qed.
Lemma grown_denotes s s' n str p c : grown s s' n -> denotes str (sh_heap s) p c -> denotes str (sh_heap s') p c.
Proof. intros (_ & _ & _ & new & -> & _). apply denotes_app. Qed.
Lemma grown_chain s s' n str p rs r : grown s s' n -> chain str (sh_heap s) p rs r -> chain str (sh_heap s') p rs r.
Proof. intros (_ & _ & _ & new & -> & _). apply chain_app. Qed.
Lemma grown_lookup s s' n p x : grown s s' n -> sh_heap s !! p = Some x -> sh_heap s' !! p = Some x.
Proof. intros (_ & _ & _ & new & -> & _). apply lookup_app_l_Some. Qed.

(** Room for [n] more nodes. *)
Definition room_for (s : sh) (n : nat) : Prop := (length (sh_heap s) + n <= S (sh_room s))%nat.

Lemma room_grown s s' m n : room_for s (m + n) -> grown s s' m -> room_for s' n.
Proof. unfold room_for. intros H Hg. rewrite (grown_length _ _ _ Hg), (grown_room _ _ _ Hg). lia. Qed.
Lemma room_le s m n : room_for s n -> (m <= n)%nat -> room_for s m.
Proof. unfold room_for. lia. Qed.

Lemma wp_new_node n s (Q : nat -> sh -> Prop) : room_for s 1 ->
  (forall s', s' = set_heap (sh_heap s ++ [n]) s -> grown s s' 1 -> sh_heap s' !! length (sh_heap s) = Some n ->
    Q (length (sh_heap s)) s') -> wp (new_node n) s Q.
Proof.
  unfold room_for. intros Hr HQ. unfold new_node. do 2 wp_step. cbn [id].
  destruct (Nat.leb_spec (length (sh_heap s)) (sh_room s)); [|lia]. do 3 wp_step. apply HQ; [done| |].
  - split_and!; [done..|]. by exists [n].
  - cbn. apply list_lookup_middle. done.
Qed.

(** ** Outcomes of the parser on any line

    [safe m s Q]: [m] returns with [Q], exits after an error message, or finds
    no memory.  It does not read outside of the line or of the nodes, and its
    loops end. *)
Definition safe {A} (m : K sh A) (s : sh) (Q : A -> sh -> Prop) : Prop :=
  match m s with
  | Ret a s' => Q a s'
  | Panic _ _ => True
  | Fault why _ => why = "out of memory"%string
  | Sleep _ _ => False
  end.

Lemma safe_wp {A} (m : K sh A) s Q : wp m s Q -> safe m s Q.
Proof. unfold wp, safe. by destruct (m s). Qed.
Lemma safe_bind {A B} (m : K sh A) (f : A -> K sh B) s Q :
  safe m s (fun a s' => safe (f a) s' Q) -> safe (m ≫= f) s Q.
Proof. unfold safe, mbind, K_bind. by destruct (m s). Qed.
Lemma safe_mono {A} (m : K sh A) s (P Q : A -> sh -> Prop) :
  safe m s P -> (forall a s', P a s' -> Q a s') -> safe m s Q.
Proof. unfold safe. destruct (m s); auto. Qed.
Lemma safe_bind_wp {A B} (m : K sh A) (f : A -> K sh B) s Q :
  wp m s (fun a s' => safe (f a) s' Q) -> safe (m ≫= f) s Q.
Proof. intros H. by apply safe_bind, safe_wp. Qed.
Lemma safe_panic {A} msg s (Q : A -> sh -> Prop) : safe (sh_panic msg) s Q.
Proof. done. Qed.
Lemma safe_new_node n s (Q : nat -> sh -> Prop) :
  (forall s', s' = set_heap (sh_heap s ++ [n]) s -> grown s s' 1 -> sh_heap s' !! length (sh_heap s) = Some n ->
    Q (length (sh_heap s)) s') -> safe (new_node n) s Q.
Proof.
  intros HQ. destruct (decide (length (sh_heap s) + 1 <= S (sh_room s))%nat) as [Hr|Hr];
    [apply safe_wp; by apply wp_new_node|]. unfold safe, new_node, gets, mbind, K_bind. cbn [id].
  by destruct (Nat.leb_spec (length (sh_heap s)) (sh_room s)); [lia|].
Qed.

(** ** Redirections *)

Definition follows (l : list Z) (ts : list token) : Prop :=
  ts = [] \/ exists c ts', ts = Sym c :: ts' /\ c ∈ l.

Lemma follows_peeked l l' ts : follows l ts -> forallb (fun c => negb (in_str l' c)) l = true -> peeked l' ts = false.
Proof.
  intros [->|(c & ts' & -> & Hc)] Hf; [done|]. cbn. rewrite forallb_forall in Hf.
  apply negb_true_iff, Hf. by apply list_elem_of_In.
Qed.

Lemma lexes_length text ts : lexes text ts -> (length ts <= length text)%nat.
Proof. induction 1; cbn; try lia. destruct w; [done|]. rewrite length_app. cbn. lia. Qed.

Lemma at_toks_length s es ts : at_toks s es ts -> (length ts <= es)%nat.
Proof. intros (text & junk & _ & -> & _ & Hl%lexes_length). lia. Qed.

Lemma op_peeked o ts : peeked [60; 62] (op_tok o :: ts) = true.
Proof. by destruct o. Qed.

(** The node that [parseredirs] makes for a redirection. *)
Definition redir_node (o : rop) (c q e : nat) : K sh nat :=
  redircmd c q e (r_mode (mkredir o [])) (r_fd (mkredir o [])).
Lemma redir_code o c q e :
  (if code (op_tok o) =? 60 then redircmd c q e O_RDONLY 0
   else if code (op_tok o) =? 62 then redircmd c q e (Z.lor O_WRONLY O_CREATE) 1
   else if code (op_tok o) =? 43 then redircmd c q e (Z.lor O_WRONLY O_CREATE) 1
   else mret c) = redir_node o c q e.
Proof. by destruct o. Qed.

Definition redirs_post (s : sh) (es p : nat) (rs : list redir) (ts : list token) (ret : nat) (s' : sh) : Prop :=
  at_toks s' es ts /\ grown s s' (length rs) /\ (ret < length (sh_heap s'))%nat /\
  chain (span (sh_buf s')) (sh_heap s') p rs ret.

Lemma redirs_post_step s s1 es p i q e r rs ts ret s' :
  grown s s1 1 -> sh_heap s1 !! i = Some (NRedir p q e (r_mode r) (r_fd r)) -> (p < i)%nat ->
  span (sh_buf s1) q e (r_file r) -> redirs_post s1 es i rs ts ret s' -> redirs_post s es p (r :: rs) ts ret s'.
Proof.
  intros Hg Hi Hp Hs (? & Hg' & ? & ?). split_and!; auto.
  - exact (grown_trans _ _ _ 1 _ Hg Hg').
  - cbn. exists i, q, e. split_and!; [by eapply grown_lookup|done| |done]. by rewrite (grown_buf _ _ _ Hg').
Qed.

Definition tok_ok (t : token) : Prop :=
  match t with
  | Sym c => in_str symbols c = true
  | Append => True
  | Word w => w <> [] /\ Forall (fun c => plain c = true) w
  end.

Lemma at_toks_ok s es ts : at_toks s es ts -> Forall tok_ok ts.
Proof.
  intros (text & junk & _ & _ & _ & Hl). induction Hl; repeat constructor; auto. by apply singles_symbols.
Qed.

Lemma peeked_true ts l : Forall tok_ok ts -> 0 ∉ l -> l ⊆ symbols -> peeked l ts = true ->
  exists t ts', ts = t :: ts' /\ (t = Append /\ 62 ∈ l \/ exists c, t = Sym c /\ c ∈ l).
Proof.
  intros Hok H0 Hi. destruct Hok as [|t ts Ht _]; cbn; [done|]. intros Hp.
  exists t, ts. split; [done|]. destruct t as [c| |w]; cbn in Hp.
  - right. exists c. split; [done|]. by apply in_str_elem.
  - left. split; [done|]. by apply in_str_elem.
  - exfalso. destruct Ht as [? Hpl]. destruct w; [done|]. inversion Hpl as [|?? Hx]; subst. cbn in Hp.
    by rewrite (plain_not_in l) in Hp.
Qed.

(** The side conditions on constant token sets. *)
Ltac tok_set := solve [done | by apply (bool_decide_unpack _) | unfold symbols; set_solver].

Lemma peeked_op ts : Forall tok_ok ts -> peeked [60; 62] ts = true -> exists o ts', ts = op_tok o :: ts'.
Proof.
  intros Hat Hp. destruct (peeked_true _ [60; 62] Hat ltac:(tok_set) ltac:(tok_set) Hp)
    as (t & ts' & -> & [[-> _]|(c & -> & Hc)]); [by exists RAppend, ts'|].
  assert (c = 60 \/ c = 62) as [->| ->] by set_solver; [exists RIn, ts'|exists ROut, ts']; done.
Qed.

Lemma parseredirs_wp rs : forall fuel s es p ts, at_toks s es (redirs_toks rs ++ ts) ->
  peeked [60; 62] ts = false -> (p < length (sh_heap s))%nat -> room_for s (length rs) ->
  (length rs < fuel)%nat -> wp (parseredirs_loop fuel p es) s (redirs_post s es p rs ts).
Proof.
  induction rs as [|[o f] rs IH]; intros [|fuel] s es p ts Hat Hp Hlt Hr Hf; [lia| |lia|];
    cbn [parseredirs_loop]; wp_step; (eapply peek_spec; [exact Hat|]); intros p1 Hp1 _.
  - cbn [redirs_toks map concat app] in *. rewrite Hp. wp_step. split_and!; [done|apply grown_refl|done|done].
  - cbn [redirs_toks map concat app redir_toks r_op r_file] in *. rewrite op_peeked.
    wp_step. eapply gettoken_spec; [exact Hp1|]. intros p2 q1 e1 Hp2 _. cbv beta iota.
    wp_step. eapply gettoken_spec; [exact Hp2|]. intros p3 q2 e2 Hp3 Hsp. cbv beta iota. cbn [code Z.eqb Pos.eqb negb].
    rewrite redir_code. wp_step. apply wp_new_node; [eapply room_le; [exact Hr|cbn; lia]|].
    intros s' Es' Hg Hi. eapply wp_mono.
    + apply (IH fuel s' es _ ts); subst s'; [exact Hp3|done|cbn; rewrite length_app; cbn; lia| |cbn in *; lia].
      apply (room_grown s _ 1); [exact Hr|exact Hg].
    + intros ret s'' Hpost. eapply (redirs_post_step s s' es p _ q2 e2 (mkredir o f)); [exact Hg|exact Hi|exact Hlt| |exact Hpost].
      subst s'. by apply Hsp.
Qed.

Lemma token_code t : tok_ok t -> code t <> 0 /\ (code t = 97 -> exists w, t = Word w).
Proof. destruct t as [c| |w]; cbn; intros Ht; split; try done; [by intros ->..|eauto]. Qed.

Lemma parseredirs_safe : forall fuel s es p ts, at_toks s es ts ->
  (p < length (sh_heap s))%nat -> (length ts < fuel)%nat ->
  safe (parseredirs_loop fuel p es) s (fun ret s' => exists rs ts', ts = redirs_toks rs ++ ts' /\
    peeked [60; 62] ts' = false /\ redirs_post s es p rs ts' ret s').
Proof.
  induction fuel as [|fuel IH]; intros s es p ts Hat Hlt Hf; [lia|]. cbn [parseredirs_loop].
  apply safe_bind_wp. eapply peek_spec; [exact Hat|]. intros p1 Hp1 _.
  destruct (peeked [60; 62] ts) eqn:Hp.
  2: { apply safe_wp. wp_step. exists [], ts. split_and!; [done..|]. split_and!; [done|apply grown_refl|done|done]. }
  destruct (peeked_op _ (at_toks_ok _ _ _ Hat) Hp) as (o & ts1 & ->).
  apply safe_bind_wp. eapply gettoken_spec; [exact Hp1|]. intros p2 q1 e1 Hp2 _. cbv beta iota. apply safe_bind_wp.
  destruct ts1 as [|t ts1]; [eapply gettoken_end; [exact Hp2|]; intros; apply safe_panic|].
  eapply gettoken_spec; [exact Hp2|]. intros p3 q2 e2 Hp3 Hsp. cbv beta iota.
  destruct (Z.eqb_spec (code t) 97) as [Hc|]; [|apply safe_panic].
  rewrite redir_code. apply safe_bind, safe_new_node. intros s' Es' Hg Hi.
  destruct (proj2 (token_code t ltac:(by apply at_toks_ok, Forall_cons in Hat as [_ [? _]%Forall_cons])) Hc) as [w ->]. eapply safe_mono.
  - apply (IH s' es _ ts1); subst s'; [exact Hp3|cbn; rewrite length_app; cbn; lia|cbn in Hf; lia].
  - intros ret s'' (rs & ts' & -> & Hp' & Hpost). exists (mkredir o w :: rs), ts'. split_and!; [done..|].
    eapply (redirs_post_step s s' es p _ q2 e2 (mkredir o w)); [exact Hg|exact Hi|exact Hlt| |exact Hpost].
    subst s'. by apply Hsp.
Qed.

(** ** The words of a command *)

Lemma length_arr qs : (length qs <= MAXARGS)%nat -> length (arr qs) = MAXARGS.
Proof. intros. unfold arr. rewrite length_app, length_map, length_replicate. lia. Qed.

Lemma arr_lookup qs : (length qs < MAXARGS)%nat -> arr qs !! length qs = Some None.
Proof.
  intros. unfold arr. rewrite lookup_app_r by (rewrite length_map; lia).
  rewrite length_map, Nat.sub_diag, lookup_replicate. split; [done|lia].
Qed.

Lemma arr_snoc qs q : (length qs < MAXARGS)%nat -> <[length qs := Some q]> (arr qs) = arr (qs ++ [q]).
Proof.
  intros H. unfold arr. replace (length qs) with (length (map Some qs) + 0)%nat at 1 by (rewrite length_map; lia).
  rewrite insert_app_r, map_app, <- app_assoc, length_app. f_equal. cbn [length].
  replace (MAXARGS - length qs)%nat with (S (MAXARGS - (length qs + 1))) by lia. done.
Qed.

Lemma wp_rd_node p n s Q : sh_heap s !! p = Some n -> n <> NNull -> Q n s -> wp (rd_node p) s Q.
Proof. intros. unfold rd_node. do 3 wp_step. eapply wp_arr_get; [done|]. by destruct n. Qed.

(** [parseexec] started in [s0] and allocated the [execcmd] at [c]; it has read
    the words [ws] and the redirections [rs], the last of them at [ret]. *)
Definition exec_inv (s0 s : sh) (c ret : nat) (ws : list (list Z)) (rs : list redir) : Prop :=
  c = length (sh_heap s0) /\ sh_buf s = sh_buf s0 /\ sh_room s = sh_room s0 /\ sh_err s = sh_err s0 /\
  (ret < length (sh_heap s))%nat /\ chain (span (sh_buf s)) (sh_heap s) c rs ret /\
  exists qs eqs new, sh_heap s = sh_heap s0 ++ NExec (arr qs) (arr eqs) :: new /\
    length new = length rs /\ (length ws <= MAXARGS)%nat /\ Forall3 (span (sh_buf s)) qs eqs ws.

Lemma exec_inv_redirs s0 s c ret ws rs es rs' ts ret' s' : exec_inv s0 s c ret ws rs ->
  redirs_post s es ret rs' ts ret' s' -> exec_inv s0 s' c ret' ws (rs ++ rs').
Proof.
  intros (Hc & Hb & Hr & He & Hret & Hch & qs & eqs & new & Hh & Hn & Hl & Hf) (_ & Hg & Hret' & Hch').
  pose proof Hg as (Hb' & Hr' & He' & new' & Hh' & Hn'). split_and!; [done|congruence..|done| |].
  - eapply chain_trans; [|done]. rewrite Hb'. by eapply grown_chain.
  - exists qs, eqs, (new ++ new'). rewrite Hh', Hh, <- app_assoc, !length_app, Hb'. auto with lia.
Qed.

Lemma wp_set_arg s0 s c ret ws rs q e w Q : exec_inv s0 s c ret ws rs -> (length ws < MAXARGS)%nat ->
  span (sh_buf s) q e w ->
  (forall h, exec_inv s0 (set_heap h s) c ret (ws ++ [w]) rs -> Q tt (set_heap h s)) ->
  wp (set_arg c (length ws) (Some q) (Some e)) s Q.
Proof.
  intros (Hc & Hb & Hr & He & Hret & Hch & qs & eqs & new & Hh & Hn & Hl & Hf) Hw Hs HQ.
  pose proof (Forall3_length_lm _ _ _ _ Hf). pose proof (Forall3_length_lr _ _ _ _ Hf).
  assert (sh_heap s !! c = Some (NExec (arr qs) (arr eqs))) as Hlook by (rewrite Hh, Hc; by apply list_lookup_middle).
  unfold set_arg. wp_step. eapply wp_rd_node; [exact Hlook|done|]. cbv iota beta. wp_step.
  replace (length ws) with (length qs) by lia.
  eapply wp_arr_get; [apply arr_lookup; lia|]. wp_step. replace (length qs) with (length eqs) by lia.
  eapply wp_arr_get; [apply arr_lookup; lia|]. unfold wr_node. wp_step. apply HQ.
  replace (length eqs) with (length qs) at 1 by lia. rewrite !arr_snoc by lia.
  split_and!; [done..|cbn; by rewrite length_insert| |].
  - cbn. by eapply chain_insert.
  - exists (qs ++ [q]), (eqs ++ [e]), new. cbn. rewrite Hh, Hc. split_and!; [|done|rewrite length_app; cbn; lia|].
    + by rewrite insert_app_r_alt, Nat.sub_diag by done.
    + apply Forall3_app; [done|apply Forall3_cons; [done|apply Forall3_nil]].
Qed.

Lemma wp_set_null s0 s c ret ws rs Q : exec_inv s0 s c ret ws rs -> (length ws < MAXARGS)%nat ->
  Q tt s -> wp (set_arg c (length ws) None None) s Q.
Proof.
  intros (Hc & Hb & Hr & He & Hret & Hch & qs & eqs & new & Hh & Hn & Hl & Hf) Hw HQ.
  pose proof (Forall3_length_lm _ _ _ _ Hf). pose proof (Forall3_length_lr _ _ _ _ Hf).
  assert (sh_heap s !! c = Some (NExec (arr qs) (arr eqs))) as Hlook by (rewrite Hh, Hc; by apply list_lookup_middle).
  unfold set_arg. wp_step. eapply wp_rd_node; [exact Hlook|done|]. cbv iota beta. wp_step.
  replace (length ws) with (length qs) by lia.
  eapply wp_arr_get; [apply arr_lookup; lia|]. wp_step. replace (length qs) with (length eqs) by lia.
  eapply wp_arr_get; [apply arr_lookup; lia|]. unfold wr_node. wp_step.
  replace (length eqs) with (length qs) at 1 by lia.
  rewrite !(list_insert_id (arr _)) by (apply arr_lookup; lia).
  rewrite list_insert_id by done. by destruct s.
Qed.

Lemma nodes_wraps rs c : nodes (wraps rs c) = (length rs + nodes c)%nat.
Proof. revert c. induction rs as [|r rs IH]; intros c; cbn; [done|]. rewrite IH. cbn. lia. Qed.

Lemma exec_parsed s0 s c ret ws rs es ts : exec_inv s0 s c ret ws rs -> (length ws < MAXARGS)%nat ->
  at_toks s es ts -> parsed s0 es (wraps rs (CExec ws)) ts ret s.
Proof.
  intros (Hc & Hb & Hr & He & Hret & Hch & qs & eqs & new & Hh & Hn & Hl & Hf) Hw Hat.
  pose proof (Forall3_length_lr _ _ _ _ Hf). split_and!; [done| |done|].
  - split_and!; [done..|]. exists (NExec (arr qs) (arr eqs) :: new). rewrite nodes_wraps. cbn. split; [done|lia].
  - eapply denotes_chain; [|exact Hch]. exists qs, eqs. split_and!; [|lia|done].
    rewrite Hh, Hc. by apply list_lookup_middle.
Qed.

Lemma exec_inv_start s0 s : s = set_heap (sh_heap s0 ++ [NExec (replicate MAXARGS None) (replicate MAXARGS None)]) s0 ->
  exec_inv s0 s (length (sh_heap s0)) (length (sh_heap s0)) [] [].
Proof.
  intros ->. split_and!; [done..|cbn; rewrite length_app; cbn; lia|done|].
  exists [], [], []. split_and!; [done|done|cbn; lia|constructor].
Qed.

Lemma exec_inv_ps s0 s c ret ws rs p : exec_inv s0 s c ret ws rs -> exec_inv s0 (set_ps p s) c ret ws rs.
Proof. done. Qed.

Lemma peeked_word l w ts : Forall tok_ok (Word w :: ts) -> 0 ∉ l -> l ⊆ symbols -> peeked l (Word w :: ts) = false.
Proof.
  intros Hat H0 Hl. apply not_true_is_false. intros Hp.
  destruct (peeked_true _ l Hat H0 Hl Hp) as (t & ts' & ? & [[??]|(c & ? & _)]); congruence.
Qed.

Lemma length_redirs_toks rs : length (redirs_toks rs) = (2 * length rs)%nat.
Proof. unfold redirs_toks. induction rs as [|r rs IH]; cbn in *; lia. Qed.

Lemma redirs_fuel s es rs ts : at_toks s es (redirs_toks rs ++ ts) -> (length rs < S es)%nat.
Proof. intros H%at_toks_length. rewrite length_app, length_redirs_toks in H. lia. Qed.

Definition cmd_follow : list Z := [41; 38; 59; 124].

Lemma args_peeked args ts : Forall tok_ok (args_toks args ++ ts) -> follows cmd_follow ts ->
  peeked [60; 62] (args_toks args ++ ts) = false.
Proof.
  intros Hat Hf. destruct args as [|[w rs] args]; [by eapply follows_peeked|].
  by eapply peeked_word; [exact Hat|tok_set..].
Qed.

Definition args_post (s0 : sh) (es c : nat) (ws : list (list Z)) (rs : list redir) (ts : list token)
    (x : nat * nat) (s' : sh) : Prop :=
  snd x = length ws /\ exec_inv s0 s' c (fst x) ws rs /\ at_toks s' es ts.

Lemma exec_inv_arg_length s0 s c ret ws rs h ws' : exec_inv s0 s c ret ws rs ->
  exec_inv s0 (set_heap h s) c ret ws' rs -> length h = length (sh_heap s).
Proof.
  intros (_&_&_&_&_&_&qs&eqs&n&Hh&Hl&_) (_&_&_&_&_&_&qs'&eqs'&n'&Hh'&Hl'&_).
  cbn in Hh'. rewrite Hh', Hh, !length_app. cbn. lia.
Qed.

Lemma args_loop_wp args : forall fuel s0 s c ret ws rs es ts, exec_inv s0 s c ret ws rs ->
  at_toks s es (args_toks args ++ ts) -> follows cmd_follow ts -> (length ws + length args < MAXARGS)%nat ->
  room_for s (length (concat (map snd args))) -> (length args < fuel)%nat ->
  wp (args_loop fuel c ret (length ws) es) s
    (args_post s0 es c (ws ++ map fst args) (rs ++ concat (map snd args)) ts).
Proof.
  induction args as [|[w rs'] args IH]; intros [|fuel] s0 s c ret ws rs es ts Hinv Hat Hfol Hn Hr Hf;
    [cbn in Hf; lia| |cbn in Hf; lia|]; cbn [args_loop]; wp_step; (eapply peek_spec; [exact Hat|]); intros p1 Hp1 _.
  - cbn [args_toks map concat app] in *. rewrite !app_nil_r. destruct Hfol as [->|(x & ts' & -> & Hx)].
    + cbn [peeked]. wp_step. eapply gettoken_end; [exact Hp1|]. intros q e Hp2. cbv beta iota.
      change (0 =? 0) with true. cbv iota. wp_step. done.
    + cbn [peeked first_char]. rewrite (proj2 (in_str_elem [124; 41; 38; 59] x ltac:(tok_set))); [|unfold cmd_follow in Hx; set_solver].
      wp_step. done.
  - pose proof (at_toks_ok _ _ _ Hat) as Hok. change (args_toks ((w, rs') :: args)) with ((Word w :: redirs_toks rs') ++ args_toks args) in *.
    rewrite <- app_assoc in Hp1, Hok. cbn [map concat app fst snd length peeked first_char] in *.
    pose proof (peeked_word [124; 41; 38; 59] w _ Hok ltac:(tok_set) ltac:(tok_set)) as Hpk. cbn [peeked first_char] in Hpk. rewrite Hpk.
    wp_step. eapply gettoken_spec; [exact Hp1|]. intros p2 q e Hp2 Hsp. cbn [code]. cbv beta iota.
    change (97 =? 0) with false. change (97 =? 97) with true. cbn [negb]. wp_step.
    eapply (wp_set_arg s0 _ c ret ws rs); [by do 2 apply exec_inv_ps|lia|by apply Hsp|].
    intros h Hinv1. set (s1 := set_heap h _) in *.
    destruct (Nat.leb_spec MAXARGS (S (length ws))); [lia|].
    pose proof (exec_inv_arg_length _ _ _ _ _ _ _ _ Hinv Hinv1) as Hlen. cbn in Hlen. rewrite length_app in Hr.
    apply Forall_cons in Hok as [_ [_ Hok]%Forall_app].
    wp_step. eapply wp_mono; [apply (parseredirs_wp rs' (S es) s1 es ret (args_toks args ++ ts))|]; [exact Hp2| | | | |].
    + by apply args_peeked.
    + by destruct Hinv1 as (_ & _ & _ & _ & ? & _).
    + unfold room_for in *. subst s1. cbn. lia.
    + eapply (redirs_fuel s1); exact Hp2.
    + intros ret1 s2 Hpost. pose proof (exec_inv_redirs _ _ _ _ _ _ _ _ _ _ _ Hinv1 Hpost) as Hinv2.
      destruct Hpost as (Hat2 & Hg & _). replace (S (length ws)) with (length (ws ++ [w])) by (rewrite length_app; cbn; lia).
      eapply wp_mono; [apply (IH fuel s0 s2); [done|done|done|rewrite length_app; cbn; lia| |lia]|].
      * eapply (room_grown s1); [|exact Hg]. unfold room_for in *. subst s1. cbn. lia.
      * cbv beta. rewrite <- !app_assoc. done.
Qed.

Lemma args_loop_safe : forall fuel s0 s c ret ws rs es ts, exec_inv s0 s c ret ws rs ->
  at_toks s es ts -> (length ws < MAXARGS)%nat -> (length ts < fuel)%nat ->
  safe (args_loop fuel c ret (length ws) es) s (fun x s' => exists args ts', ts = args_toks args ++ ts' /\
    (length ws + length args < MAXARGS)%nat /\
    args_post s0 es c (ws ++ map fst args) (rs ++ concat (map snd args)) ts' x s').
Proof.
  induction fuel as [|fuel IH]; intros s0 s c ret ws rs es ts Hinv Hat Hn Hf; [lia|]. cbn [args_loop].
  assert (forall p, toks_from (sh_buf s) p es ts -> exists args ts', ts = args_toks args ++ ts' /\
    (length ws + length args < MAXARGS)%nat /\
    args_post s0 es c (ws ++ map fst args) (rs ++ concat (map snd args)) ts' (ret, length ws) (set_ps p s)) as Hdone.
  { intros p Hp. exists [], ts. cbn. rewrite !app_nil_r, Nat.add_0_r. done. }
  apply safe_bind_wp. eapply peek_spec; [exact Hat|]. intros p1 Hp1 _.
  destruct (peeked _ ts); [apply safe_wp; wp_step; by apply Hdone|]. apply safe_bind_wp.
  destruct ts as [|t ts]; [eapply gettoken_end; [exact Hp1|]; intros q e ?; by apply Hdone|].
  eapply gettoken_spec; [exact Hp1|]. intros p2 q e Hp2 Hsp. cbv beta iota.
  destruct (token_code t ltac:(by apply at_toks_ok, Forall_cons in Hat as [? _])) as [Ht0 Ht].
  rewrite (proj2 (Z.eqb_neq _ _) Ht0).
  destruct (Z.eqb_spec (code t) 97) as [Hc|]; [destruct (Ht Hc) as [w ->]; cbn [negb]|apply safe_panic].
  apply safe_bind_wp. eapply (wp_set_arg s0 _ c ret ws rs); [by do 2 apply exec_inv_ps|done|by apply Hsp|].
  intros h Hinv1. set (s1 := set_heap h _) in *.
  destruct (Nat.leb_spec MAXARGS (S (length ws))); [apply safe_panic|].
  apply safe_bind. eapply safe_mono; [apply (parseredirs_safe (S es) s1 es ret ts)|]; [exact Hp2| | |].
  - by destruct Hinv1 as (_ & _ & _ & _ & ? & _).
  - apply (at_toks_length s1) in Hp2. lia.
  - intros ret1 s2 (rs1 & ts1 & -> & _ & Hpost). cbn in Hf. rewrite length_app in Hf.
    pose proof (exec_inv_redirs _ _ _ _ _ _ _ _ _ _ _ Hinv1 Hpost) as Hinv2. destruct Hpost as (Hat2 & _).
    replace (S (length ws)) with (length (ws ++ [w])) by (rewrite length_app; cbn; lia).
    eapply safe_mono; [apply (IH s0 s2); [done|done|rewrite length_app; cbn; lia|lia]|].
    intros x s3 (args & ts2 & -> & Hl & Hp3). exists ((w, rs1) :: args), ts2. cbn [length map concat fst snd].
    rewrite length_app in Hl. cbn in Hl. rewrite <- !app_assoc in Hp3. split_and!; [|lia|done].
    unfold args_toks. cbn. by rewrite <- app_assoc.
Qed.

(** ** Pipelines, lists and blocks *)

Lemma parsed_trans s s1 s2 es c1 c2 c ts1 ts2 p1 p2 n p :
  parsed s es c1 ts1 p1 s1 -> parsed s1 es c2 ts2 p2 s2 ->
  nodes c = S (nodes c1 + nodes c2) ->
  (forall str h, h !! p = Some n -> denotes str h p1 c1 -> denotes str h p2 c2 -> (p1 < p)%nat -> (p2 < p)%nat -> denotes str h p c) ->
  p = length (sh_heap s2) -> parsed s es c ts2 p (set_heap (sh_heap s2 ++ [n]) s2).
Proof.
  intros (_ & Hg1 & Hp1 & Hd1) (Hat & Hg2 & Hp2 & Hd2) Hn Hden ->.
  pose proof (grown_length _ _ _ Hg2) as Hl2. split_and!; [done| |cbn; rewrite length_app; cbn; lia|].
  - rewrite Hn. replace (S (nodes c1 + nodes c2)) with (nodes c1 + nodes c2 + 1)%nat by lia.
    eapply grown_trans; [by eapply grown_trans|]. split_and!; [done..|]. by exists [n].
  - cbn. apply Hden; [by apply list_lookup_middle| | |lia|lia]; apply denotes_app; [|done].
    rewrite (grown_buf _ _ _ Hg2). by eapply grown_denotes.
Qed.

Lemma parsed_back s s1 es c ts p1 ts1 s2 : parsed s es c ts1 p1 s1 -> 
  s2 = set_heap (sh_heap s1 ++ [NBack p1]) s1 -> at_toks s2 es ts ->
  parsed s es (CBack c) ts (length (sh_heap s1)) s2.
Proof.
  intros (_ & Hg1 & Hp1 & Hd1) -> Hat. split_and!; [done| |cbn; rewrite length_app; cbn; lia|].
  - cbn. replace (S (nodes c)) with (nodes c + 1)%nat by lia. eapply grown_trans; [done|].
    split_and!; [done..|]. by exists [NBack p1].
  - cbn. exists p1. split_and!; [by apply list_lookup_middle|done|]. by apply denotes_app.
Qed.

Lemma parsed_ps s s1 es c ts ts' p1 p : parsed s es c ts p1 s1 -> toks_from (sh_buf s1) p es ts' ->
  parsed s es c ts' p1 (set_ps p s1).
Proof. intros (_ & ? & ? & ?) ?. done. Qed.

Lemma parsed_from s p es c ts q s' : parsed (set_ps p s) es c ts q s' -> parsed s es c ts q s'.
Proof. done. Qed.

Lemma parsed_redirs s s1 es c ts1 p1 rs ts ret s2 : parsed s es c ts1 p1 s1 ->
  redirs_post s1 es p1 rs ts ret s2 -> parsed s es (wraps rs c) ts ret s2.
Proof.
  intros (_ & Hg1 & Hp1 & Hd1) (Hat & Hg2 & Hret & Hch). split_and!; [done| |done|].
  - rewrite nodes_wraps, Nat.add_comm. by eapply grown_trans.
  - eapply denotes_chain; [|done]. rewrite (grown_buf _ _ _ Hg2). by eapply grown_denotes.
Qed.

Lemma parsed_room s es c ts p s' n : room_for s (nodes c + n) -> parsed s es c ts p s' -> room_for s' n.
Proof. intros Hr (_ & Hg & _). by eapply room_grown. Qed.
