(* ===== verification/ShCorrect.v ===== *)
(** * The parser of the shell is correct

    [parsecmd] accepts exactly the lines of the grammar, builds the command of
    the line it was given, and leaves every word of it as a NUL-terminated
    string.  On every other line it exits with an error message; it never
    reads outside of the line or loops. *)

From S2P Require Import Prelude Bytes CString Sh ShLex ShParse.
Local Open Scope Z_scope.

(** ** Lines of the grammar are parsed *)

Lemma iter_back k c : backs k (CBack c) = CBack (backs k c).
Proof. induction k; cbn; congruence. Qed.

Lemma nodes_iter k c : nodes (backs k c) = (k + nodes c)%nat.
Proof. induction k; cbn; congruence. Qed.

Lemma background_wp k : forall fuel s0 s es c p ts, parsed s0 es c (replicate k (Sym 38) ++ ts) p s ->
  peeked [38] ts = false -> room_for s k -> (k < fuel)%nat ->
  wp (background fuel es p) s (parsed s0 es (backs k c) ts).
Proof.
  induction k as [|k IH]; intros [|fuel] s0 s es c p ts Hpar Hpk Hr Hf; [lia| |lia|];
    cbn [background]; wp_step; (eapply peek_spec; [apply Hpar|]); intros p1 Hp1 _.
  - cbn [replicate app] in *. rewrite Hpk. wp_step. by eapply parsed_ps.
  - cbn [replicate app peeked first_char] in *. change (in_str [38] 38) with true. cbv iota.
    wp_step. eapply gettoken_spec; [exact Hp1|]. intros p2 q e Hp2 _.
    wp_step. apply wp_new_node; [eapply (room_le s); [exact Hr|lia]|]. intros s' Es' Hg Hi.
    replace (backs (S k) c) with (backs k (CBack c)) by apply iter_back.
    apply IH; [|done| |lia].
    + eapply parsed_back; [|exact Es'|subst s'; exact Hp2]. eapply parsed_ps; [by eapply parsed_ps|done].
    + apply (room_grown s _ 1); [exact Hr|exact Hg].
Qed.

Lemma follows_weaken l l' ts : follows l ts -> l ⊆ l' -> follows l' ts.
Proof. intros [->|(c & ts' & -> & Hc)] Hl; [by left|right]. exists c, ts'. split; [done|]. by apply Hl. Qed.

Lemma follows_sym l c ts : c ∈ l -> follows l (Sym c :: ts).
Proof. intros. right. by exists c, ts. Qed.

Definition parse_wp (parse : nat -> nat -> K sh nat) (toks : list token) (fits : Prop) (c : cmd)
    (follow : list Z) (extra : nat) : Prop :=
  forall fuel s es ts, at_toks s es (toks ++ ts) -> follows follow ts -> fits ->
  room_for s (nodes c) -> (4 * length toks + extra <= fuel)%nat ->
  wp (parse fuel es) s (parsed s es c ts).

Lemma parseexec_wp rs args :
  parse_wp parseexec (simple_toks (SCmd rs args)) (simple_fits (SCmd rs args)) (simple_cmd (SCmd rs args)) cmd_follow 2.
Proof.
  intros [|fuel] s es ts Hat Hfol Hfit Hr Hf; [lia|]. cbn [parseexec simple_toks simple_cmd simple_fits] in *.
  pose proof (at_toks_ok _ _ _ Hat) as Hok. rewrite <- app_assoc in Hok.
  pose proof Hok as [_ Hok']%Forall_app.
  assert (peeked [40] ((redirs_toks rs ++ args_toks args) ++ ts) = false) as Hpk.
  { destruct rs as [|[[] f] rs]; [|done..]. destruct args as [|[w rs] args]; [by eapply follows_peeked|].
    apply (peeked_word [40] w); [exact Hok|tok_set..]. }
  wp_step. eapply peek_spec; [exact Hat|]. intros p1 Hp1 _. rewrite Hpk. rewrite <- app_assoc in Hp1.
  rewrite nodes_wraps in Hr. cbn [nodes] in Hr. rewrite length_app in Hr.
  wp_step. apply wp_new_node; [eapply (room_le s); [exact Hr|lia]|]. intros s1 Es1 Hg1 _.
  pose proof (exec_inv_start (set_ps p1 s) s1 Es1) as Hinv1.
  wp_step. eapply wp_mono; [apply (parseredirs_wp rs (S es) s1 es _ (args_toks args ++ ts))|]; [subst s1; exact Hp1| | | | |].
  - by apply args_peeked.
  - by destruct Hinv1 as (_ & _ & _ & _ & ? & _).
  - apply (room_grown s _ 1); [eapply (room_le s); [exact Hr|lia]|exact Hg1].
  - apply (redirs_fuel (set_ps p1 s) es _ (args_toks args ++ ts)). exact Hp1.
  - intros ret s2 Hpost. pose proof (exec_inv_redirs _ _ _ _ _ _ _ _ _ _ _ Hinv1 Hpost) as Hinv2.
    destruct Hpost as (Hat2 & Hg2 & _). cbn [app] in Hinv2.
    wp_step. eapply wp_mono; [apply (args_loop_wp args (S es) (set_ps p1 s) s2 _ ret [] rs es ts)|]; [done..|cbn; lia| | |].
    + eapply room_grown; [|exact Hg2]. apply (room_grown s _ 1); [eapply (room_le s); [exact Hr|lia]|exact Hg1].
    + apply at_toks_length in Hat2. rewrite length_app in Hat2. unfold args_toks in Hat2.
      assert (length args <= length (args_toks args))%nat; [|unfold args_toks in *; lia].
      unfold args_toks. clear. induction args; cbn in *; [lia|]. rewrite length_app. lia.
    + intros [ret' argc] s3 (Hargc & Hinv3 & Hat3). cbn in Hargc, Hinv3. subst argc. cbv beta iota. wp_step.
      eapply wp_set_null; [exact Hinv3|by rewrite length_map|]. wp_step. eapply parsed_from, exec_parsed; [exact Hinv3|by rewrite length_map|done].
Qed.

(** A pipeline and the ampersands after it. *)
Lemma line_start p k fuel s es ts (Q : nat -> sh -> Prop) f :
  parse_wp parsepipe (pipeline_toks p) (pipeline_fits p) (pipeline_cmd p) [41; 38; 59] 3 ->
  at_toks s es (pipeline_toks p ++ replicate k (Sym 38) ++ ts) -> follows [41; 59] ts -> pipeline_fits p ->
  room_for s (nodes (backs k (pipeline_cmd p))) -> (4 * length (pipeline_toks p) + 3 <= fuel)%nat ->
  (forall q s', parsed s es (backs k (pipeline_cmd p)) ts q s' -> wp (f q) s' Q) ->
  wp (c ← parsepipe fuel es; c ← background (S es) es c; f c) s Q.
Proof.
  intros IHp Hat Hfol Hfit Hr Hf HQ. rewrite nodes_iter in Hr.
  wp_step. eapply wp_mono; [apply (IHp fuel s es _ Hat); [|done|eapply room_le; [exact Hr|lia]|lia]|].
  { destruct k; [eapply follows_weaken; [exact Hfol|set_solver]|apply follows_sym; set_solver]. }
  intros q s1 Hpar. wp_step. eapply wp_mono; [apply (background_wp k (S es) s s1 es _ q ts Hpar)|].
  - by eapply follows_peeked.
  - eapply parsed_room; [|exact Hpar]. eapply room_le; [exact Hr|lia].
  - destruct Hpar as (Hat1 & _). apply at_toks_length in Hat1. rewrite length_app, length_replicate in Hat1. lia.
  - exact HQ.
Qed.

(** The node made after both sides of a list or a pipeline are parsed. *)
Lemma wp_pair s s1 s2 es c1 c2 c ts1 ts2 p1 p2 n :
  parsed s es c1 ts1 p1 s1 -> parsed s1 es c2 ts2 p2 s2 -> nodes c = S (nodes c1 + nodes c2) ->
  (forall str h p, h !! p = Some n -> denotes str h p1 c1 -> denotes str h p2 c2 -> (p1 < p)%nat -> (p2 < p)%nat -> denotes str h p c) ->
  room_for s (nodes c) -> wp (new_node n) s2 (parsed s es c ts2).
Proof.
  intros H1 H2 Hn Hden Hr. apply wp_new_node.
  - eapply parsed_room; [|exact H2]. eapply parsed_room; [|exact H1]. eapply room_le; [exact Hr|lia].
  - intros s' -> _ _. eapply (parsed_trans s s1 s2 es c1 c2); [exact H1|exact H2|exact Hn| |done].
    intros str h. apply Hden.
Qed.

Lemma parse_wp_all :
  (forall l, parse_wp parseline (line_toks l) (line_fits l) (line_cmd l) [41] 4) /\
  (forall p, parse_wp parsepipe (pipeline_toks p) (pipeline_fits p) (pipeline_cmd p) [41; 38; 59] 3) /\
  (forall e, parse_wp parseexec (simple_toks e) (simple_fits e) (simple_cmd e) cmd_follow 2).
Proof.
  apply syntax_ind.
  - intros p IHp k [|fuel] s es ts Hat Hfol Hfit Hr Hf; [lia|]. cbn [parseline line_toks line_cmd line_fits] in *.
    rewrite <- app_assoc in Hat. rewrite length_app in Hf.
    eapply line_start; [done|exact Hat| |done|done|lia|]; [eapply follows_weaken; [exact Hfol|set_solver]|].
    intros q s1 Hpar. wp_step. eapply peek_spec; [apply Hpar|]. intros p2 Hp2 _.
    rewrite (follows_peeked _ [59] _ Hfol) by done. wp_step. by eapply parsed_ps.
  - intros p IHp k l IHl [|fuel] s es ts Hat Hfol [Hfit1 Hfit2] Hr Hf; [lia|]. cbn [parseline line_toks line_cmd] in *.
    rewrite <- !app_assoc in Hat. rewrite !length_app in Hf. cbn [length] in Hf.
    eapply line_start; [done|exact Hat|apply follows_sym; set_solver|done|eapply room_le; [exact Hr|cbn; lia]|lia|].
    intros q s1 Hpar. wp_step. eapply peek_spec; [apply Hpar|]. intros p2 Hp2 _.
    cbn [app peeked first_char]. change (in_str [59] 59) with true. cbv iota.
    wp_step. eapply gettoken_spec; [exact Hp2|]. intros p3 q3 e3 Hp3 _.
    pose proof (parsed_ps _ _ _ _ _ _ _ _ Hpar Hp3) as Hpar3.
    wp_step. eapply wp_mono; [apply (IHl fuel (set_ps p3 (set_ps p2 s1)) es ts Hp3); [done|done| |lia]|].
    { eapply parsed_room; [|exact Hpar3]. eapply room_le; [exact Hr|cbn; lia]. }
    intros q4 s4 Hpar4. eapply wp_pair; [exact Hpar3|exact Hpar4|done| |done].
    intros str h x ? ? ? ? ?. exists q, q4. auto.
  - intros e IHe [|fuel] s es ts Hat Hfol Hfit Hr Hf; [lia|]. cbn [parsepipe pipeline_toks pipeline_cmd pipeline_fits] in *.
    wp_step. eapply wp_mono; [apply (IHe fuel s es ts Hat); [eapply follows_weaken; [exact Hfol|unfold cmd_follow; set_solver]|done|done|lia]|].
    intros q s1 Hpar. wp_step. eapply peek_spec; [apply Hpar|]. intros p2 Hp2 _.
    rewrite (follows_peeked _ [124] _ Hfol) by done. wp_step. by eapply parsed_ps.
  - intros e IHe p IHp [|fuel] s es ts Hat Hfol [Hfit1 Hfit2] Hr Hf; [lia|]. cbn [parsepipe pipeline_toks pipeline_cmd] in *.
    rewrite <- app_assoc in Hat. rewrite length_app in Hf. cbn [length] in Hf.
    wp_step. eapply wp_mono; [apply (IHe fuel s es _ Hat); [apply follows_sym; unfold cmd_follow; set_solver|done|eapply room_le; [exact Hr|cbn; lia]|lia]|].
    intros q s1 Hpar. wp_step. eapply peek_spec; [apply Hpar|]. intros p2 Hp2 _.
    cbn [app peeked first_char]. change (in_str [124] 124) with true. cbv iota.
    wp_step. eapply gettoken_spec; [exact Hp2|]. intros p3 q3 e3 Hp3 _.
    pose proof (parsed_ps _ _ _ _ _ _ _ _ Hpar Hp3) as Hpar3.
    wp_step. eapply wp_mono; [apply (IHp fuel (set_ps p3 (set_ps p2 s1)) es ts Hp3); [done|done| |lia]|].
    { eapply parsed_room; [|exact Hpar3]. eapply room_le; [exact Hr|cbn; lia]. }
    intros q4 s4 Hpar4. eapply wp_pair; [exact Hpar3|exact Hpar4|done| |done].
    intros str h x ? ? ? ? ?. exists q, q4. auto.
  - apply parseexec_wp.
  - intros l IHl rs [|[|fuel]] s es ts Hat Hfol Hfit Hr Hf; [cbn in Hf; lia..|].
    cbn [parseexec parseblock simple_toks simple_cmd simple_fits] in *.
    cbn [app length] in Hat, Hf. rewrite <- app_assoc in Hat. rewrite length_app in Hf. cbn [length] in Hf.
    rewrite nodes_wraps in Hr.
    wp_step. eapply peek_spec; [exact Hat|]. intros p1 Hp1 _. cbn [peeked first_char]. change (in_str [40] 40) with true. cbv iota.
    wp_step. eapply peek_spec; [exact Hp1|]. intros p2 Hp2 _. cbn [peeked first_char]. change (in_str [40] 40) with true. cbn [negb].
    wp_step. eapply gettoken_spec; [exact Hp2|]. intros p3 q3 e3 Hp3 _.
    wp_step. eapply wp_mono; [apply (IHl fuel (set_ps p3 s) es _ Hp3); [apply follows_sym; set_solver|done|eapply (room_le s); [exact Hr|lia]|lia]|].
    intros q s1 Hpar%parsed_from. wp_step. eapply peek_spec; [apply Hpar|]. intros p4 Hp4 _.
    cbn [app peeked first_char]. change (in_str [41] 41) with true. cbn [negb].
    wp_step. eapply gettoken_spec; [exact Hp4|]. intros p5 q5 e5 Hp5 _.
    pose proof (parsed_ps _ _ _ _ _ _ _ _ Hpar Hp5) as Hpar5.
    eapply wp_mono; [apply (parseredirs_wp rs (S es) (set_ps p5 (set_ps p4 s1)) es q ts Hp5)|].
    + by eapply follows_peeked.
    + apply Hpar5.
    + eapply parsed_room; [|exact Hpar5]. eapply (room_le s); [exact Hr|lia].
    + eapply (redirs_fuel (set_ps p5 s1)); exact Hp5.
    + intros ret s6 Hpost. by eapply parsed_redirs.
Qed.

(** ** What is parsed is a line of the grammar *)

Lemma peeked_single s es c ts : at_toks s es ts -> c ∈ symbols -> c <> 62 -> peeked [c] ts = true ->
  exists ts', ts = Sym c :: ts'.
Proof.
  intros Hat%at_toks_ok Hc Hne Hp.
  destruct (peeked_true ts [c] Hat) as (t & ts' & -> & [[_ ?]|(d & -> & ?)]); [|set_solver|done|set_solver|].
  - intros H0%list_elem_of_singleton. subst c. unfold symbols in Hc. set_solver.
  - exists ts'. by assert (d = c) as -> by set_solver.
Qed.

Definition parse_safe {X} (fuel : nat) (parse : nat -> nat -> K sh nat) (toks : X -> list token) (fits : X -> Prop)
    (sem : X -> cmd) (extra : nat) : Prop :=
  forall s es ts, at_toks s es ts -> (4 * length ts + extra <= fuel)%nat ->
  safe (parse fuel es) s (fun p s' => exists x ts', ts = toks x ++ ts' /\ fits x /\ parsed s es (sem x) ts' p s').

Lemma background_safe : forall fuel s0 s es c p ts, parsed s0 es c ts p s -> (length ts < fuel)%nat ->
  safe (background fuel es p) s (fun q s' => exists k ts', ts = replicate k (Sym 38) ++ ts' /\ parsed s0 es (backs k c) ts' q s').
Proof.
  induction fuel as [|fuel IH]; intros s0 s es c p ts Hpar Hf; [lia|]. cbn [background].
  apply safe_bind_wp. eapply peek_spec; [apply Hpar|]. intros p1 Hp1 _.
  destruct (peeked [38] ts) eqn:Hpk.
  2: { apply safe_wp. wp_step. exists 0%nat, ts. split; [done|]. by eapply parsed_ps. }
  destruct (peeked_single s es 38 ts) as [ts1 ->]; [apply Hpar|set_solver|done|done|].
  apply safe_bind_wp. eapply gettoken_spec; [exact Hp1|]. intros p2 q e Hp2 _.
  apply safe_bind, safe_new_node. intros s' Es' Hg Hi.
  eapply safe_mono; [apply (IH s0 s' es (CBack c) _ ts1)|]; [|cbn in Hf; lia|].
  - eapply parsed_back; [|exact Es'|subst s'; exact Hp2]. eapply parsed_ps; [by eapply parsed_ps|done].
  - intros q' s'' (k & ts' & -> & Hpar'). exists (S k), ts'. split; [done|]. cbn [backs]. by rewrite <- iter_back.
Qed.

Lemma parseexec_safe fuel : parse_safe fuel parseline line_toks line_fits line_cmd 4 ->
  parse_safe (S (S fuel)) parseexec simple_toks simple_fits simple_cmd 2.
Proof.
  intros IHl s es ts Hat Hf. cbn [parseexec]. apply safe_bind_wp. eapply peek_spec; [exact Hat|]. intros p1 Hp1 _.
  destruct (peeked [40] ts) eqn:Hpk.
  - destruct (peeked_single s es 40 ts) as [ts1 ->]; [done|set_solver|done|done|]. cbn [parseblock].
    apply safe_bind_wp. eapply peek_spec; [exact Hp1|]. intros p2 Hp2 _. rewrite Hpk. cbn [negb].
    apply safe_bind_wp. eapply gettoken_spec; [exact Hp2|]. intros p3 q3 e3 Hp3 _.
    apply safe_bind. eapply safe_mono; [apply (IHl (set_ps p3 s) es ts1 Hp3); cbn in Hf; lia|].
    intros q s1 (l & ts2 & -> & Hfit & Hpar%parsed_from). apply safe_bind_wp. eapply peek_spec; [apply Hpar|]. intros p4 Hp4 _.
    destruct (peeked [41] ts2) eqn:Hpk2; [|apply safe_panic].
    destruct (peeked_single s1 es 41 ts2) as [ts3 ->]; [apply Hpar|set_solver|done|done|]. cbn [negb].
    apply safe_bind_wp. eapply gettoken_spec; [exact Hp4|]. intros p5 q5 e5 Hp5 _.
    pose proof (parsed_ps _ _ _ _ _ _ _ _ Hpar Hp5) as Hpar5.
    eapply safe_mono; [apply (parseredirs_safe (S es) (set_ps p5 (set_ps p4 s1)) es q ts3 Hp5); [apply Hpar5|]|].
    { apply (at_toks_length (set_ps p5 s1)) in Hp5. lia. }
    intros ret s6 (rs & ts' & -> & _ & Hpost). exists (SBlock l rs), ts'. split_and!; [|done|by eapply parsed_redirs].
    cbn [simple_toks app]. by rewrite <- app_assoc.
  - apply safe_bind, safe_new_node. intros s1 Es1 Hg1 _.
    pose proof (exec_inv_start (set_ps p1 s) s1 Es1) as Hinv1. pose proof (at_toks_length _ _ _ Hat) as Hlen.
    apply safe_bind. eapply safe_mono; [apply (parseredirs_safe (S es) s1 es _ ts)|]; [subst s1; exact Hp1| |lia|].
    { by destruct Hinv1 as (_ & _ & _ & _ & ? & _). }
    intros ret s2 (rs & ts2 & -> & _ & Hpost). pose proof (exec_inv_redirs _ _ _ _ _ _ _ _ _ _ _ Hinv1 Hpost) as Hinv2.
    destruct Hpost as (Hat2 & _). cbn [app] in Hinv2. rewrite length_app in Hlen.
    apply safe_bind. eapply safe_mono; [apply (args_loop_safe (S es) (set_ps p1 s) s2 _ ret [] rs es ts2)|]; [done..|unfold MAXARGS; cbn; lia|lia|].
    intros [ret' argc] s3 (args & ts' & -> & Hn & Hargc & Hinv3 & Hat3). cbn in Hargc, Hinv3, Hn. subst argc. cbv beta iota.
    apply safe_wp. wp_step. eapply wp_set_null; [exact Hinv3|by rewrite length_map|]. wp_step.
    exists (SCmd rs args), ts'. split_and!; [cbn; by rewrite <- app_assoc|done|].
    eapply parsed_from, exec_parsed; [exact Hinv3|by rewrite length_map|done].
Qed.

Lemma safe_pair s s1 s2 es c1 c2 c ts1 ts2 p1 p2 n :
  parsed s es c1 ts1 p1 s1 -> parsed s1 es c2 ts2 p2 s2 -> nodes c = S (nodes c1 + nodes c2) ->
  (forall str h p, h !! p = Some n -> denotes str h p1 c1 -> denotes str h p2 c2 -> (p1 < p)%nat -> (p2 < p)%nat -> denotes str h p c) ->
  safe (new_node n) s2 (parsed s es c ts2).
Proof.
  intros H1 H2 Hn Hden. apply safe_new_node. intros s' -> _ _.
  eapply (parsed_trans s s1 s2 es c1 c2); [exact H1|exact H2|exact Hn| |done]. intros str h. apply Hden.
Qed.

Lemma parsepipe_safe fuel : parse_safe fuel parseexec simple_toks simple_fits simple_cmd 2 ->
  parse_safe fuel parsepipe pipeline_toks pipeline_fits pipeline_cmd 3 ->
  parse_safe (S fuel) parsepipe pipeline_toks pipeline_fits pipeline_cmd 3.
Proof.
  intros IHe IHp s es ts Hat Hf. cbn [parsepipe]. apply safe_bind. eapply safe_mono; [apply (IHe s es ts Hat); lia|].
  intros q s1 (e & ts1 & -> & Hfit & Hpar). rewrite length_app in Hf.
  apply safe_bind_wp. eapply peek_spec; [apply Hpar|]. intros p2 Hp2 _.
  destruct (peeked [124] ts1) eqn:Hpk.
  2: { apply safe_wp. wp_step. exists (PEnd e), ts1. split_and!; [done..|]. by eapply parsed_ps. }
  destruct (peeked_single s1 es 124 ts1) as [ts2 ->]; [apply Hpar|set_solver|done|done|].
  apply safe_bind_wp. eapply gettoken_spec; [exact Hp2|]. intros p3 q3 e3 Hp3 _.
  pose proof (parsed_ps _ _ _ _ _ _ _ _ Hpar Hp3) as Hpar3. cbn [length] in Hf.
  apply safe_bind. eapply safe_mono; [apply (IHp (set_ps p3 (set_ps p2 s1)) es ts2 Hp3); lia|].
  intros q4 s4 (p & ts' & -> & Hfit' & Hpar4). eapply safe_mono; [eapply (safe_pair _ _ _ _ _ _ (CPipe _ _))|].
  - exact Hpar3.
  - exact Hpar4.
  - done.
  - intros str h x ? ? ? ? ?. exists q, q4. auto.
  - intros r s5 Hpar5. exists (PBar e p), ts'. split_and!; [cbn; by rewrite <- app_assoc|done|exact Hpar5].
Qed.

Lemma parseline_safe fuel : parse_safe fuel parsepipe pipeline_toks pipeline_fits pipeline_cmd 3 ->
  parse_safe fuel parseline line_toks line_fits line_cmd 4 ->
  parse_safe (S fuel) parseline line_toks line_fits line_cmd 4.
Proof.
  intros IHp IHl s es ts Hat Hf. cbn [parseline]. pose proof (at_toks_length _ _ _ Hat) as Hlen.
  apply safe_bind. eapply safe_mono; [apply (IHp s es ts Hat); lia|].
  intros q s1 (p & ts1 & -> & Hfit & Hpar). rewrite length_app in Hf, Hlen.
  apply safe_bind. eapply safe_mono; [apply (background_safe (S es) s s1 es _ q ts1 Hpar); lia|].
  intros q1 s2 (k & ts2 & -> & Hpar1). rewrite length_app in Hf.
  apply safe_bind_wp. eapply peek_spec; [apply Hpar1|]. intros p2 Hp2 _.
  destruct (peeked [59] ts2) eqn:Hpk.
  2: { apply safe_wp. wp_step. exists (LEnd p k), ts2. split_and!; [cbn; by rewrite <- app_assoc|done|]. by eapply parsed_ps. }
  destruct (peeked_single s2 es 59 ts2) as [ts3 ->]; [apply Hpar1|set_solver|done|done|].
  apply safe_bind_wp. eapply gettoken_spec; [exact Hp2|]. intros p3 q3 e3 Hp3 _.
  pose proof (parsed_ps _ _ _ _ _ _ _ _ Hpar1 Hp3) as Hpar3. cbn [length] in Hf.
  apply safe_bind. eapply safe_mono; [apply (IHl (set_ps p3 (set_ps p2 s2)) es ts3 Hp3); lia|].
  intros q4 s4 (l & ts' & -> & Hfit' & Hpar4). eapply safe_mono; [eapply (safe_pair _ _ _ _ _ _ (CList _ _))|].
  - exact Hpar3.
  - exact Hpar4.
  - done.
  - intros str h x ? ? ? ? ?. exists q1, q4. auto.
  - intros r s5 Hpar5. exists (LSeq p k l), ts'. split_and!; [cbn; by rewrite <- !app_assoc|done|exact Hpar5].
Qed.

Lemma parse_safe_all fuel :
  parse_safe fuel parseline line_toks line_fits line_cmd 4 /\
  parse_safe fuel parsepipe pipeline_toks pipeline_fits pipeline_cmd 3 /\
  parse_safe fuel parseexec simple_toks simple_fits simple_cmd 2.
Proof.
  induction fuel as [fuel IH] using lt_wf_ind.
  destruct fuel as [|[|fuel]]; [split_and!; intros ? ? ? _ ?; lia|split_and!; intros ? ? ? _ ?; lia|].
  destruct (IH (S fuel) ltac:(lia)) as (IHl & IHp & IHe), (IH fuel ltac:(lia)) as (IHl' & _ & _).
  split_and!; [by apply parseline_safe|by apply parsepipe_safe|by apply parseexec_safe].
Qed.

(** ** Ending the words *)

(** [b'] is [b] with NULs over some characters that are not part of words. *)
Definition cut (b b' : list Z) : Prop := forall i,
  b' !! i = b !! i \/ b' !! i = Some 0 /\ exists c, b !! i = Some c /\ plain c = false.

Definition ended (b : list Z) (q e : nat) (w : list Z) : Prop := span b q e w /\ b !! e = Some 0.

(** The NUL-terminated string at [q]. *)
Definition c_word (b : list Z) (q e : nat) (w : list Z) : Prop := cstring (drop q b) = w.

Lemma cut_refl b : cut b b.
Proof. by left. Qed.

Lemma cut_trans b1 b2 b3 : cut b1 b2 -> cut b2 b3 -> cut b1 b3.
Proof.
  intros H12 H23 i. destruct (H12 i) as [E|[E1 (c & ? & ?)]], (H23 i) as [E2|[E2 (d & ? & ?)]].
  - left. congruence.
  - right. split; [done|]. exists d. split; [congruence|done].
  - right. split; [congruence|]. by exists c.
  - right. split; [done|]. by exists c.
Qed.

Lemma span_cut b b' q e w : span b q e w -> cut b b' -> span b' q e w.
Proof.
  intros (Hs & He & Hp & c & Hc & Hpc) Hcut.
  assert (forall i, (i < length w)%nat -> exists x, b !! (q + i)%nat = Some x /\ b' !! (q + i)%nat = Some x) as Hx.
  { intros i Hi. pose proof (lookup_lt_is_Some_2 w i Hi) as [x Hx].
    assert (b !! (q + i)%nat = Some x) as Hb by (rewrite <- (lookup_slice q (length w)), Hs; done).
    exists x. split; [done|]. destruct (Hcut (q + i)%nat) as [->|[_ (d & Hd & Hpd)]]; [done|].
    rewrite Hb in Hd. simplify_eq. rewrite Forall_lookup in Hp. specialize (Hp _ _ Hx). congruence. }
  split_and!; [|done|done|].
  - rewrite <- Hs at 2. apply list_eq. intros i. destruct (decide (i < length w)%nat) as [Hi|Hi].
    + rewrite !lookup_slice by done. destruct (Hx i Hi) as (x & -> & ->). done.
    + unfold slice. rewrite !lookup_take_ge by lia. done.
  - destruct (Hcut e) as [->|[-> _]]; [by exists c|by exists 0].
Qed.

Lemma ended_cut b b' q e w : ended b q e w -> cut b b' -> ended b' q e w.
Proof. intros [Hs H0] Hcut. split; [by eapply span_cut|]. by destruct (Hcut e) as [->|[-> _]]. Qed.

Lemma cstring_app w r : Forall (fun c => plain c = true) w -> cstring (w ++ 0 :: r) = w.
Proof.
  induction 1 as [|c w Hc _ IH]; cbn; [done|]. rewrite IH. destruct (Z.eqb_spec c 0) as [->|]; done.
Qed.

Lemma ended_c_word b q e w : ended b q e w -> c_word b q e w.
Proof.
  intros [(Hs & -> & Hp & _) H0]. unfold c_word, slice in *.
  rewrite <- (take_drop (length w) (drop q b)), Hs, drop_drop.
  rewrite (drop_S _ _ _ H0). by apply cstring_app.
Qed.

Lemma denotes_mono (str str' : nat -> nat -> list Z -> Prop) h p c :
  (forall q e w, str q e w -> str' q e w) -> denotes str h p c -> denotes str' h p c.
Proof.
  intros Hi. revert p. induction c; cbn; intros p Hd; decompose [ex and] Hd;
    repeat (eapply ex_intro || split); eauto. by eapply Forall3_impl.
Qed.

Lemma cut_insert b e c : b !! e = Some c -> plain c = false -> cut b (<[e := 0]> b).
Proof.
  intros He Hc i. destruct (decide (i = e)) as [->|Hne].
  - right. split; [|by exists c]. apply list_lookup_insert_eq. by eapply lookup_lt_Some.
  - left. by apply list_lookup_insert_ne.
Qed.

Lemma wp_end_word s q e w (Q : unit -> sh -> Prop) : span (sh_buf s) q e w ->
  (forall b, cut (sh_buf s) b -> ended b q e w -> Q tt (set_buf b s)) -> wp (wr e 0) s Q.
Proof.
  intros Hs HQ. pose proof Hs as (_ & _ & _ & c & He & Hc).
  unfold wr. do 3 wp_step. eapply wp_arr_get; [exact He|]. wp_step.
  pose proof (cut_insert _ _ _ He Hc) as Hcut. apply HQ; [done|]. split; [by eapply span_cut|].
  apply list_lookup_insert_eq. by eapply lookup_lt_Some.
Qed.

Lemma arr_lookup_lt qs i q : qs !! i = Some q -> arr qs !! i = Some (Some q).
Proof.
  intros Hq. unfold arr. rewrite lookup_app_l by (rewrite length_map; by eapply lookup_lt_Some).
  rewrite list_lookup_fmap, Hq. done.
Qed.

Lemma end_args_wp qs2 : forall eqs2 ws2 qs1 eqs1 fuel s, length qs1 = length eqs1 ->
  Forall3 (span (sh_buf s)) qs2 eqs2 ws2 -> (length (qs1 ++ qs2) < MAXARGS)%nat -> (length qs2 < fuel)%nat ->
  wp (end_args fuel (arr (qs1 ++ qs2)) (arr (eqs1 ++ eqs2)) (length qs1)) s
    (fun _ s' => exists b, s' = set_buf b s /\ cut (sh_buf s) b /\ Forall3 (ended b) qs2 eqs2 ws2).
Proof.
  induction qs2 as [|q qs2 IH]; intros eqs2 ws2 qs1 eqs1 [|fuel] s Hl Hf Hn Hfu; [lia| |lia|];
    inversion Hf as [|? e w ? es ws Hs Hf']; subst; cbn [end_args]; wp_step.
  - rewrite app_nil_r in *. eapply wp_arr_get; [by apply arr_lookup|]. cbv iota. wp_step.
    exists (sh_buf s). split_and!; [by destruct s|apply cut_refl|constructor].
  - eapply wp_arr_get; [apply arr_lookup_lt; by apply list_lookup_middle|]. cbv iota beta. wp_step.
    eapply wp_arr_get; [rewrite Hl; apply arr_lookup_lt; by apply list_lookup_middle|]. cbv iota beta. wp_step.
    eapply wp_end_word; [exact Hs|]. intros b Hcut Hend.
    rewrite (cons_middle q qs1), (cons_middle e eqs1), !(app_assoc _ [_]).
    replace (S (length qs1)) with (length (qs1 ++ [q])) by (rewrite length_app; cbn; lia).
    eapply wp_mono; [apply (IH es ws (qs1 ++ [q]) (eqs1 ++ [e]) fuel (set_buf b s))|].
    + rewrite !length_app. cbn. lia.
    + eapply Forall3_impl; [exact Hf'|]. intros. by eapply span_cut.
    + rewrite !length_app in *. cbn in *. lia.
    + cbn in Hfu. lia.
    + intros [] s' (b' & -> & Hcut' & Hf2). exists b'. split_and!; [done|by eapply cut_trans|].
      constructor; [|done]. by eapply ended_cut.
Qed.

Lemma nulterminate_wp c : forall fuel p s, denotes (span (sh_buf s)) (sh_heap s) p c ->
  sh_heap s !! 0%nat = Some NNull -> (p < fuel)%nat ->
  wp (nulterminate fuel p) s (fun _ s' => exists b, s' = set_buf b s /\ cut (sh_buf s) b /\
    denotes (ended b) (sh_heap s) p c).
Proof.
  assert (forall p n s, sh_heap s !! p = Some n -> n <> NNull -> sh_heap s !! 0%nat = Some NNull -> (p =? 0)%nat = false) as Hp0.
  { intros p n s Hp Hn H0. apply Nat.eqb_neq. intros ->. congruence. }
  assert (forall b b' h p c, denotes (span b) h p c -> cut b b' -> denotes (span b') h p c) as Hspan.
  { intros b b' h p c' Hd Hcut. eapply denotes_mono; [|exact Hd]. intros. by eapply span_cut. }
  assert (forall b b' h p c, denotes (ended b) h p c -> cut b b' -> denotes (ended b') h p c) as Hended.
  { intros b b' h p c' Hd Hcut. eapply denotes_mono; [|exact Hd]. intros. by eapply ended_cut. }
  induction c as [ws|c IH f mode fd|l IHl r IHr|l IHl r IHr|c IH]; intros [|fuel] p s Hd H0 Hf; try lia;
    cbn [nulterminate].
  - destruct Hd as (qs & es & Hn & Hl & Hw). rewrite (Hp0 _ _ _ Hn) by done. wp_step.
    eapply wp_rd_node; [exact Hn|done|]. cbv iota beta.
    eapply wp_mono; [apply (end_args_wp qs es ws [] [] (S MAXARGS) s); [done|done|done|lia]|].
    intros [] s' (b & -> & Hcut & Hw'). exists b. split_and!; [done..|]. by exists qs, es.
  - destruct Hd as (q & i & e & Hn & Hq & Hs & Hd). rewrite (Hp0 _ _ _ Hn) by done. wp_step.
    eapply wp_rd_node; [exact Hn|done|]. cbv iota beta. wp_step.
    eapply wp_mono; [apply (IH fuel q s Hd H0); lia|]. intros [] s' (b & -> & Hcut & Hd').
    eapply (wp_end_word _ i e f); [by eapply span_cut|]. intros b' Hcut' Hend.
    exists b'. split_and!; [done|by eapply cut_trans|]. exists q, i, e. split_and!; [done..|by eapply Hended].
  - destruct Hd as (i & j & Hn & Hi & Hj & Hd1 & Hd2). rewrite (Hp0 _ _ _ Hn) by done. wp_step.
    eapply wp_rd_node; [exact Hn|done|]. cbv iota beta. wp_step.
    eapply wp_mono; [apply (IHl fuel i s Hd1 H0); lia|]. intros [] s' (b & -> & Hcut & Hd').
    eapply wp_mono; [apply (IHr fuel j (set_buf b s)); [by eapply Hspan|done|lia]|]. intros [] s' (b' & -> & Hcut' & Hd'').
    exists b'. split_and!; [done|by eapply cut_trans|]. exists i, j. split_and!; [done..|by eapply Hended|done].
  - destruct Hd as (i & j & Hn & Hi & Hj & Hd1 & Hd2). rewrite (Hp0 _ _ _ Hn) by done. wp_step.
    eapply wp_rd_node; [exact Hn|done|]. cbv iota beta. wp_step.
    eapply wp_mono; [apply (IHl fuel i s Hd1 H0); lia|]. intros [] s' (b & -> & Hcut & Hd').
    eapply wp_mono; [apply (IHr fuel j (set_buf b s)); [by eapply Hspan|done|lia]|]. intros [] s' (b' & -> & Hcut' & Hd'').
    exists b'. split_and!; [done|by eapply cut_trans|]. exists i, j. split_and!; [done..|by eapply Hended|done].
  - destruct Hd as (i & Hn & Hi & Hd). rewrite (Hp0 _ _ _ Hn) by done. wp_step.
    eapply wp_rd_node; [exact Hn|done|]. cbv iota beta.
    eapply wp_mono; [apply (IH fuel i s Hd H0); lia|]. intros [] s' (b & -> & Hcut & Hd').
    exists b. split_and!; [done..|]. by exists i.
Qed.

(** ** [parsecmd] *)

Lemma cstring_text text junk : 0 ∉ text -> cstring (text ++ 0 :: junk) = text.
Proof.
  induction text as [|c text IH]; cbn; [done|]. intros [? ?]%not_elem_of_cons.
  destruct (Z.eqb_spec c 0); [lia|]. by rewrite IH.
Qed.

(** The end of [parsecmd], with nothing left of the line. *)
Lemma parsecmd_end s s1 es c p : parsed s es c [] p s1 -> sh_heap s !! 0%nat = Some NNull ->
  wp (_ ← peek es [];
      s ← gets sh_ps;
      (if negb (s =? es)%nat
       then b ← gets sh_buf;
            modify (add_err (bytes_of "leftovers: " ++ cstring (drop s b) ++ [10]));;
            sh_panic "syntax"
       else mret tt);;
      h ← gets sh_heap;
      nulterminate (length h) p;;
      mret p) s1 (fun p s' => denotes (c_word (sh_buf s')) (sh_heap s') p c /\ sh_heap s' !! 0%nat = Some NNull).
Proof.
  intros (Hat & Hg & Hlt & Hd) H0. wp_step. eapply peek_spec; [exact Hat|]. intros p1 Hp1 Hes.
  rewrite (Hes eq_refl) in *. do 3 wp_step. cbn [sh_ps set_ps]. rewrite Nat.eqb_refl. cbn [negb]. do 4 wp_step.
  eapply wp_mono; [apply (nulterminate_wp c _ p (set_ps es s1)); [exact Hd|by eapply grown_lookup|exact Hlt]|].
  intros [] s' (b & -> & _ & Hd'). wp_step.
  split; [|exact (grown_lookup s s1 _ _ _ Hg H0)]. eapply denotes_mono; [|exact Hd']. intros. by apply ended_c_word.
Qed.

Lemma parsecmd_wp l text junk i s :
  0 ∉ text -> lexes text (line_toks l) -> line_fits l ->
  drop i (sh_buf s) = text ++ 0 :: junk -> sh_heap s !! 0%nat = Some NNull ->
  room_for s (nodes (line_cmd l)) ->
  wp (parsecmd i) s (fun p s' => denotes (c_word (sh_buf s')) (sh_heap s') p (line_cmd l) /\ sh_heap s' !! 0%nat = Some NNull).
Proof.
  intros H0 Hlex Hfit Hd Hnull Hr. unfold parsecmd. do 4 wp_step. cbn [sh_buf set_ps].
  rewrite Hd, cstring_text by done. pose proof (lexes_length _ _ Hlex).
  replace (i + length text - i)%nat with (length text) by lia.
  wp_step. eapply wp_mono.
  - apply (proj1 parse_wp_all l (4 * S (length text))%nat (set_ps i s) (i + length text)%nat []).
    + rewrite app_nil_r. by exists text, junk.
    + by left.
    + done.
    + exact Hr.
    + lia.
  - intros p s1 Hpar. by eapply parsecmd_end.
Qed.

(** C22: Every line of the grammar is parsed, whatever white space it has, to the
    command the grammar gives it, and the words of the command are the
    NUL-terminated strings the nodes point at. *)
Theorem parsecmd_parses l text junk i s :
  0 ∉ text -> lexes text (line_toks l) -> line_fits l ->
  drop i (sh_buf s) = text ++ 0 :: junk -> sh_heap s !! 0%nat = Some NNull ->
  room_for s (nodes (line_cmd l)) ->
  wp (parsecmd i) s (fun p s' => denotes (c_word (sh_buf s')) (sh_heap s') p (line_cmd l)).
Proof.
  intros. eapply wp_mono; [by eapply parsecmd_wp|]. by intros p s' [? _].
Qed.

(** C24: On any line at all, [parsecmd] returns, exits with an error message or
    finds no memory: it does not loop, and does not read or write outside of
    the line and its nodes.  When it returns, the line is one of the grammar. *)
Theorem parsecmd_total text junk i s :
  0 ∉ text -> drop i (sh_buf s) = text ++ 0 :: junk -> sh_heap s !! 0%nat = Some NNull ->
  safe (parsecmd i) s (fun p s' => exists l, lexes text (line_toks l) /\ line_fits l /\
    denotes (c_word (sh_buf s')) (sh_heap s') p (line_cmd l)).
Proof.
  intros H0 Hd Hnull. unfold parsecmd. do 2 (apply safe_bind_wp; wp_step). cbn [sh_buf set_ps].
  rewrite Hd, cstring_text by done. destruct (lexes_total text H0) as [ts Hlex]. pose proof (lexes_length _ _ Hlex).
  replace (i + length text - i)%nat with (length text) by lia. apply safe_bind. eapply safe_mono.
  - apply (proj1 (parse_safe_all (4 * S (length text))%nat) (set_ps i s) (i + length text)%nat ts); [by exists text, junk|lia].
  - intros p s1 (l & ts' & -> & Hfit & Hpar). destruct ts' as [|t ts'].
    + rewrite app_nil_r in Hlex. apply safe_wp. eapply wp_mono; [by eapply parsecmd_end|].
      intros p' s2 [Hd2 _]. by exists l.
    + apply safe_bind_wp. eapply peek_spec; [apply Hpar|]. intros p1 Hp1 _. apply safe_bind_wp. wp_step. cbn [sh_ps set_ps].
      destruct (Nat.eqb_spec p1 (i + length text)) as [->|]; [|done].
      by apply toks_from_end in Hp1.
Qed.
