(* ===== verification/ShRun.v ===== *)
(** * The shell runs commands (sh.c)

    [runcmd] as the system calls the process makes, an [act], one constructor
    per call with the code that follows its result.  [events] runs an [act] on
    a descriptor table, which [fork] copies: it lists the programs started with
    the descriptors they start with, the messages printed, and the descriptors
    a process holds while it waits.  The main theorem compares it with
    [expected], which says in terms of the command alone what runs with which
    standard input and output. *)

From S2P Require Import Prelude Bytes CString Sh ShLex ShParse ShCorrect.
Local Open Scope Z_scope.

(** ** System calls *)

Inductive act : Type :=
  | AExit
  | AFault                                               (* an invalid access *)
  | AExec (path : list Z) (argv : list (list Z)) (k : act) (* [k]: exec failed *)
  | AClose (fd : Z) (k : act)
  | AOpen (file : list Z) (mode : Z) (k : Z -> act)
  | APipe (k : option (Z * Z) -> act)
  | ADup (fd : Z) (k : act)
  | AFork (child parent failed : act)
  | AWait (k : act)
  | AWrite (fd : Z) (bs : list Z) (k : act).

Definition run_panic (m : string) : act := AWrite 2 (bytes_of m ++ [10]) AExit.
Definition fork1 (child parent : act) : act := AFork child parent (run_panic "fork").

(** The strings of a null-terminated array of pointers. *)
Fixpoint strings (b : list Z) (argv : list (option nat)) : list (list Z) :=
  match argv with
  | Some q :: argv => cstring (drop q b) :: strings b argv
  | _ => []
  end.

(** [case PIPE] of [runcmd], with what the two children run. *)
Definition run_pipe (left right : act) : act :=
  APipe (fun p => match p with
    | None => run_panic "pipe"
    | Some (p0, p1) =>
        fork1 (AClose 1 (ADup p1 (AClose p0 (AClose p1 left))))
       (fork1 (AClose 0 (ADup p0 (AClose p0 (AClose p1 right))))
       (AClose p0 (AClose p1 (AWait (AWait AExit)))))
    end).

Fixpoint runcmd (fuel : nat) (b : list Z) (h : list node) (p : nat) : act :=
  match fuel with
  | O => AFault
  | S fuel =>
      if (p =? 0)%nat then AExit
      else match h !! p with
      | None | Some NNull => AFault
      | Some (NExec argv _) =>
          match argv !! 0%nat with
          | Some (Some q) =>
              AExec (cstring (drop q b)) (strings b argv)
                (AWrite 2 (bytes_of "exec " ++ cstring (drop q b) ++ bytes_of " failed" ++ [10]) AExit)
          | Some None => AExit
          | None => AFault
          end
      | Some (NRedir c file _ mode fd) =>
          AClose fd (AOpen (cstring (drop file b)) mode (fun r =>
            if r <? 0
            then AWrite 2 (bytes_of "open " ++ cstring (drop file b) ++ bytes_of " failed" ++ [10]) AExit
            else runcmd fuel b h c))
      | Some (NList l r) =>
          fork1 (runcmd fuel b h l) (AWait (runcmd fuel b h r))
      | Some (NPipe l r) =>
          run_pipe (runcmd fuel b h l) (runcmd fuel b h r)
      | Some (NBack c) => fork1 (runcmd fuel b h c) AExit
      end
  end.

(** ** Descriptor tables *)

Inductive obj : Type :=
  | Other (i : nat)                       (* what the shell was started with *)
  | File (name : list Z) (mode : Z)
  | PipeR (n : nat)
  | PipeW (n : nat).

Definition NOFILE : nat := 16.
Definition fdtable : Type := list (option obj).

(** The lowest free descriptor. *)
Fixpoint lowest (t : fdtable) : option nat :=
  match t with
  | [] => None
  | None :: _ => Some 0%nat
  | Some _ :: t => S <$> lowest t
  end.

Definition fd_get (t : fdtable) (fd : Z) : option obj :=
  if fd <? 0 then None else mjoin (t !! Z.to_nat fd).
Definition fd_close (t : fdtable) (fd : Z) : fdtable :=
  if fd <? 0 then t else <[Z.to_nat fd := None]> t.
(** A new descriptor for [o], and its number. *)
Definition fd_new (t : fdtable) (o : obj) : option (Z * fdtable) :=
  i ← lowest t; Some (Z.of_nat i, <[i := Some o]> t).

Inductive event : Type :=
  | Ran (argv : list (list Z)) (t : fdtable)
  | Said (o : option obj) (bs : list Z)
  | Waited (t : fdtable)
  | Failed.

Section Events.
(** Which programs and files exist. *)
Context (can_exec : list Z -> bool) (can_open : list Z -> Z -> bool).

(** [n] numbers the pipes.  [fork] succeeds. *)
Fixpoint events (a : act) (t : fdtable) (n : nat) : list event * nat :=
  match a with
  | AExit => ([], n)
  | AFault => ([Failed], n)
  | AExec path argv k => if can_exec path then ([Ran argv t], n) else events k t n
  | AClose fd k => events k (fd_close t fd) n
  | AOpen f mode k =>
      if can_open f mode
      then match fd_new t (File f mode) with
           | Some (fd, t') => events (k fd) t' n
           | None => events (k (-1)) t n
           end
      else events (k (-1)) t n
  | APipe k =>
      match fd_new t (PipeR n) with
      | Some (r, t1) =>
          match fd_new t1 (PipeW n) with
          | Some (w, t2) => events (k (Some (r, w))) t2 (S n)
          | None => events (k None) t n
          end
      | None => events (k None) t n
      end
  | ADup fd k =>
      match fd_get t fd with
      | Some o => match fd_new t o with Some (_, t') => events k t' n | None => events k t n end
      | None => events k t n
      end
  | AFork child parent _ =>
      let '(e1, n1) := events child t n in
      let '(e2, n2) := events parent t n1 in (e1 ++ e2, n2)
  | AWait k => let '(e, n') := events k t n in (Waited t :: e, n')
  | AWrite fd bs k => let '(e, n') := events k t n in (Said (fd_get t fd) bs :: e, n')
  end.

(** ** What a command does *)

(** The table of a process with a standard input, output and error output and
    nothing else open. *)
Definition stdio (i o e : obj) : fdtable := [Some i; Some o; Some e] ++ replicate 13 None.

Fixpoint expected (c : cmd) (i o e : obj) (n : nat) : list event * nat :=
  match c with
  | CExec [] => ([], n)
  | CExec (w :: ws) =>
      if can_exec w then ([Ran (w :: ws) (stdio i o e)], n)
      else ([Said (Some e) (bytes_of "exec " ++ w ++ bytes_of " failed" ++ [10])], n)
  | CRedir c f mode fd =>
      if can_open f mode
      then if fd =? 0 then expected c (File f mode) o e n else expected c i (File f mode) e n
      else ([Said (Some e) (bytes_of "open " ++ f ++ bytes_of " failed" ++ [10])], n)
  | CPipe l r =>
      let '(e1, n1) := expected l i (PipeW n) e (S n) in
      let '(e2, n2) := expected r (PipeR n) o e n1 in
      (e1 ++ e2 ++ [Waited (stdio i o e); Waited (stdio i o e)], n2)
  | CList l r =>
      let '(e1, n1) := expected l i o e n in
      let '(e2, n2) := expected r i o e n1 in
      (e1 ++ Waited (stdio i o e) :: e2, n2)
  | CBack c => expected c i o e n
  end.

(** Redirections are of the standard input or output. *)
Fixpoint fds_ok (c : cmd) : Prop :=
  match c with
  | CExec _ => True
  | CRedir c _ _ fd => (fd = 0 \/ fd = 1) /\ fds_ok c
  | CPipe l r | CList l r => fds_ok l /\ fds_ok r
  | CBack c => fds_ok c
  end.

Lemma strings_arr b qs es ws : (length qs < MAXARGS)%nat -> Forall3 (c_word b) qs es ws -> strings b (arr qs) = ws.
Proof.
  intros _ Hw. unfold arr. generalize (MAXARGS - length qs)%nat. intros k.
  induction Hw as [|q e w qs es ws Hq _ IH]; cbn; [by destruct k|]. rewrite IH. by f_equal.
Qed.

Lemma events_pipe l r i o e n : events (run_pipe l r) (stdio i o e) n =
  let '(e1, n1) := events l (stdio i (PipeW n) e) (S n) in
  let '(e2, n2) := events r (stdio (PipeR n) o e) n1 in
  (e1 ++ e2 ++ [Waited (stdio i o e); Waited (stdio i o e)], n2).
Proof.
  change (events (run_pipe l r) (stdio i o e) n) with
    (let '(e1, n1) := events l (stdio i (PipeW n) e) (S n) in
     let '(e2, n2) := (let '(e2, n2) := events r (stdio (PipeR n) o e) n1 in
       (e2 ++ [Waited (stdio i o e); Waited (stdio i o e)], n2)) in (e1 ++ e2, n2)).
  destruct (events l _ _) as [e1 n1]. by destruct (events r _ _) as [e2 n2].
Qed.

(** What the nodes of a command do is what the command does. *)
Lemma runcmd_events c : forall fuel b h p i o e n, denotes (c_word b) h p c -> h !! 0%nat = Some NNull ->
  fds_ok c -> (p < fuel)%nat -> events (runcmd fuel b h p) (stdio i o e) n = expected c i o e n.
Proof.
  assert (forall (h : list node) p x, h !! p = Some x -> x <> NNull -> h !! 0%nat = Some NNull -> (p =? 0)%nat = false) as Hp0.
  { intros h p x Hp Hx H0. apply Nat.eqb_neq. intros ->. congruence. }
  induction c as [ws|c IH f mode fd|l IHl r IHr|l IHl r IHr|c IH]; intros [|fuel] b h p i o e n Hd H0 Hok Hf; try lia;
    cbn [runcmd].
  - destruct Hd as (qs & es & Hn & Hl & Hw). rewrite (Hp0 _ _ _ Hn), Hn by done.
    pose proof (strings_arr _ _ _ _ Hl Hw) as Hs. destruct Hw as [|q e' w qs es ws Hq Hw]; [done|].
    rewrite (arr_lookup_lt _ _ q) by done. cbn [events expected]. unfold c_word in Hq. rewrite Hs, Hq. by destruct (can_exec w).
  - destruct Hd as (q & x & y & Hn & Hq & Hs & Hd). rewrite (Hp0 _ _ _ Hn), Hn by done. destruct Hok as [Hfd Hok].
    cbn [events expected]. unfold c_word in Hs. rewrite Hs.
    destruct (can_open f mode); destruct Hfd as [->| ->]; cbn; try done; apply IH; (done || lia).
  - destruct Hd as (x & y & Hn & Hx & Hy & Hd1 & Hd2). rewrite (Hp0 _ _ _ Hn), Hn by done. destruct Hok as [Hok1 Hok2].
    rewrite events_pipe. cbn [expected].
    rewrite (IHl fuel b h x i (PipeW n) e (S n)) by (done || lia). destruct (expected l _ _ _ _) as [e1 n1].
    by rewrite (IHr fuel b h y (PipeR n) o e n1) by (done || lia).
  - destruct Hd as (x & y & Hn & Hx & Hy & Hd1 & Hd2). rewrite (Hp0 _ _ _ Hn), Hn by done. destruct Hok as [Hok1 Hok2].
    cbn [events expected fork1]. rewrite (IHl fuel b h x i o e n) by (done || lia). destruct (expected l _ _ _ _) as [e1 n1].
    rewrite (IHr fuel b h y i o e n1) by (done || lia). by destruct (expected r _ _ _ _) as [e2 n2].
  - destruct Hd as (x & Hn & Hx & Hd). rewrite (Hp0 _ _ _ Hn), Hn by done.
    cbn [events expected fork1]. rewrite (IH fuel b h x i o e n) by (done || lia).
    destruct (expected c _ _ _ _) as [e1 n1]. by rewrite app_nil_r.
Qed.
End Events.

Lemma denotes_lt str h p c : denotes str h p c -> (p < length h)%nat.
Proof. destruct c; cbn; intros Hd; decompose [ex and] Hd; by eapply lookup_lt_Some. Qed.

Lemma fds_ok_wraps rs c : fds_ok c -> fds_ok (wraps rs c).
Proof.
  revert c. induction rs as [|r rs IH]; intros c Hc; cbn; [done|]. apply IH. split; [|done].
  unfold r_fd. destruct (r_op r); auto.
Qed.

Lemma fds_ok_syntax :
  (forall l, fds_ok (line_cmd l)) /\ (forall p, fds_ok (pipeline_cmd p)) /\ (forall e, fds_ok (simple_cmd e)).
Proof.
  assert (forall k c, fds_ok c -> fds_ok (backs k c)) by (intros k; induction k; cbn; auto).
  apply syntax_ind; cbn; auto using fds_ok_wraps.
  intros rs args. by apply fds_ok_wraps.
Qed.

(** C25: The child that the shell forks for a line parses it and runs it: the
    programs of the line start with the redirections and the pipes the line
    says and with no other descriptor, and a process that waits has given up
    the ends of the pipes it made.  Every [fork] is taken to succeed. *)
Theorem shell_runs_line can_exec can_open l text junk k s i o e n :
  0 ∉ text -> lexes text (line_toks l) -> line_fits l ->
  drop k (sh_buf s) = text ++ 0 :: junk -> sh_heap s !! 0%nat = Some NNull ->
  room_for s (nodes (line_cmd l)) ->
  wp (parsecmd k) s (fun p s' =>
    events can_exec can_open (runcmd (length (sh_heap s')) (sh_buf s') (sh_heap s') p) (stdio i o e) n =
    expected can_exec can_open (line_cmd l) i o e n).
Proof.
  intros. eapply wp_mono; [by eapply parsecmd_wp|]. intros p s' [Hd Hnull].
  apply runcmd_events; [done|done|apply fds_ok_syntax|by eapply denotes_lt].
Qed.

(** ** The main loop *)

(** [gets(buf, max)]: the bytes read one at a time from the standard input. *)
Fixpoint gets_loop (fuel : nat) (buf : list Z) (i max : nat) (input : list Z) : list Z * nat * list Z :=
  match fuel with
  | O => (buf, i, input)
  | S fuel =>
      if (i + 1 <? max)%nat
      then match input with
           | [] => (buf, i, input)
           | c :: input =>
               let buf := <[i := c]> buf in
               if ((c =? 10) || (c =? 13))%bool then (buf, S i, input)
               else gets_loop fuel buf (S i) max input
           end
      else (buf, i, input)
  end.
Definition u_gets (buf : list Z) (max : nat) (input : list Z) : list Z * list Z :=
  let '(buf, i, input) := gets_loop max buf 0 max input in (<[i := 0]> buf, input).

Definition nbuf : nat := 100.

(** The line read, or [None] at the end of the input. *)
Definition getcmd (input : list Z) : option (list Z) * list Z :=
  let '(buf, input) := u_gets (replicate nbuf 0) nbuf input in
  (if nth 0 buf 0 =? 0 then None else Some buf, input).

(** What the shell does with a line. *)
Inductive shact : Type :=
  | Chdir (path : list Z)
  | Spawn (buf : list Z).

Definition do_line (buf : list Z) : shact :=
  if ((nth 0 buf 0 =? 99) && (nth 1 buf 0 =? 100) && (nth 2 buf 0 =? 32))%bool
  then let buf := <[(length (cstring buf) - 1)%nat := 0]> buf in Chdir (cstring (drop 3 buf))
  else Spawn buf.

(** Each line takes at least one byte of the input. *)
Fixpoint main_loop (fuel : nat) (input : list Z) : option (list shact) :=
  match fuel with
  | O => None
  | S fuel =>
      match getcmd input with
      | (None, _) => Some []
      | (Some buf, input) => cons (do_line buf) <$> main_loop fuel input
      end
  end.

(** [while((fd = open("console", O_RDWR)) >= 0)] *)
Fixpoint open_console (fuel : nat) (t : fdtable) : option fdtable :=
  match fuel with
  | O => None
  | S fuel =>
      match fd_new t (File (bytes_of "console") O_RDWR) with
      | None => Some t
      | Some (fd, t') => if 3 <=? fd then Some (fd_close t' fd) else open_console fuel t'
      end
  end.

(** A line that fits into the buffer with its newline and the NUL. *)
Definition text_ok (l : list Z) : Prop :=
  Forall (fun c => c <> 10 /\ c <> 13 /\ c <> 0) l /\ (length l + 2 <= nbuf)%nat.

(** The buffer after a line was read. *)
Definition line_buf (l : list Z) : list Z := l ++ 10 :: replicate (nbuf - S (length l)) 0.

(** What a line asks for. *)
Definition line_act (l : list Z) : shact :=
  if bool_decide (take 3 l = [99; 100; 32]) then Chdir (drop 3 l) else Spawn (line_buf l).

Lemma gets_loop_line l : forall pre k fuel max input, Forall (fun c => c <> 10 /\ c <> 13 /\ c <> 0) l ->
  (S (length l) <= k)%nat -> (length pre + k <= max)%nat -> (length pre + length l + 1 < max)%nat -> (length l < fuel)%nat ->
  gets_loop fuel (pre ++ replicate k 0) (length pre) max (l ++ 10 :: input) =
    ((pre ++ l ++ [10]) ++ replicate (k - S (length l)) 0, length (pre ++ l ++ [10]), input).
Proof.
  induction l as [|c l IH]; intros pre k fuel max input Hl Hk Hm Hi Hf; destruct fuel as [|fuel]; try (cbn in Hf; lia);
    cbn [gets_loop length] in *; rewrite (proj2 (Nat.ltb_lt _ _)) by lia; cbn [app].
  - destruct k as [|k]; [lia|]. cbn [Z.eqb Pos.eqb orb replicate].
    replace (length pre) with (length pre + 0)%nat at 1 by lia. rewrite insert_app_r. cbn.
    rewrite length_app, <- app_assoc, Nat.sub_0_r. cbn. repeat f_equal. lia.
  - inversion Hl as [|?? (Hc1 & Hc2 & _) Hl']; subst. destruct k as [|k]; [lia|].
    rewrite (proj2 (Z.eqb_neq c 10)), (proj2 (Z.eqb_neq c 13)) by done. cbn [orb replicate].
    replace (length pre) with (length pre + 0)%nat at 1 by lia. rewrite insert_app_r. cbn [insert list_insert].
    change (c :: replicate k 0) with ([c] ++ replicate k 0). rewrite (app_assoc pre).
    replace (S (length pre)) with (length (pre ++ [c])) by (rewrite length_app; cbn; lia).
    rewrite IH; [|done|lia|rewrite length_app; cbn; lia..|lia].
    rewrite <- !app_assoc. cbn [app]. rewrite !length_app. cbn. rewrite length_app. cbn. f_equal. f_equal. by rewrite <- app_assoc.
Qed.

Lemma getcmd_line l input : text_ok l -> getcmd (l ++ 10 :: input) = (Some (line_buf l), input).
Proof.
  intros [Hl Hn]. unfold getcmd, u_gets.
  pose proof (gets_loop_line l [] nbuf nbuf nbuf input Hl) as E. cbn [app length] in E.
  rewrite E by lia.
  unfold line_buf. rewrite <- app_assoc, list_insert_id.
  - destruct l as [|c l]; [done|]. cbn. inversion Hl as [|?? (_ & _ & Hc)]; subst.
    by rewrite (proj2 (Z.eqb_neq c 0)).
  - rewrite app_assoc, lookup_app_r, Nat.sub_diag by lia. destruct (nbuf - S (length l))%nat eqn:En; [lia|done].
Qed.

Lemma getcmd_eof : getcmd [] = (None, []).
Proof. reflexivity. Qed.

Lemma cd_prefix l : text_ok l ->
  ((nth 0 (line_buf l) 0 =? 99) && (nth 1 (line_buf l) 0 =? 100) && (nth 2 (line_buf l) 0 =? 32))%bool =
  bool_decide (take 3 l = [99; 100; 32]).
Proof.
  intros [_ Hn]. unfold line_buf. symmetry.
  destruct l as [|a [|b [|c l]]];
    try (rewrite bool_decide_eq_false_2 by (cbn; congruence); cbn [app nth]; by rewrite ?andb_false_r).
  cbn [app nth take]. destruct (Z.eqb_spec a 99), (Z.eqb_spec b 100), (Z.eqb_spec c 32); cbn [andb];
    solve [subst; by rewrite bool_decide_eq_true_2 | rewrite bool_decide_eq_false_2; [done|by intros [=]]].
Qed.

Lemma do_line_act l : text_ok l -> do_line (line_buf l) = line_act l.
Proof.
  intros Hl. unfold do_line, line_act. rewrite cd_prefix by done. case_bool_decide as Hcd; [|done].
  destruct Hl as [Hl Hn]. f_equal.
  assert (0 ∉ l ++ [10]) as H0.
  { intros [H0|?]%elem_of_app; [|set_solver]. rewrite Forall_forall in Hl. by apply Hl in H0 as (_ & _ & ?). }
  unfold line_buf. destruct (nbuf - S (length l))%nat as [|k] eqn:E; [lia|]. cbn [replicate].
  change (l ++ 10 :: 0 :: replicate k 0) with (l ++ [10] ++ 0 :: replicate k 0). rewrite app_assoc, cstring_text by done.
  rewrite length_app, Nat.add_sub. rewrite <- app_assoc.
  replace (length l) with (length l + 0)%nat by lia. rewrite insert_app_r. cbn [insert list_insert app].
  rewrite drop_app_le by (apply (f_equal length) in Hcd; rewrite length_take in Hcd; cbn [length] in Hcd; lia).
  apply cstring_text. intros H. apply H0, elem_of_app. left. rewrite <- (take_drop 3 l). apply elem_of_app. by right.
Qed.

(** The shell does what each line of its input asks for, in their order, and
    then exits: [chdir] itself for a [cd], and a child for any other line. *)
Theorem main_runs_lines ls : Forall text_ok ls ->
  main_loop (S (length ls)) (concat (map (fun l => l ++ [10]) ls)) = Some (map line_act ls).
Proof.
  induction 1 as [|l ls Hl _ IH]; [reflexivity|].
  cbn [map concat length]. rewrite <- app_assoc. cbn [app]. remember (S (length ls)) as n eqn:Hn. cbn [main_loop].
  rewrite getcmd_line, IH, do_line_act by done. done.
Qed.

(** [cd] takes the last character of the line for the newline, which it is not
    when the input ends without one. *)
Lemma cd_without_newline : main_loop 2 (bytes_of "cd abc") = Some [Chdir (bytes_of "ab")].
Proof. reflexivity. Qed.

(** The shell opens the console until the first three descriptors are in use. *)
Lemma open_console_spec t : length t = NOFILE -> (exists o, drop 3 t = None :: o) ->
  exists t', open_console 4 t = Some t' /\ drop 3 t' = drop 3 t /\ is_Some (fd_get t' 0) /\ is_Some (fd_get t' 1) /\ is_Some (fd_get t' 2).
Proof.
  intros Ht [r Hr]. destruct t as [|a [|b [|c tl]]]; try discriminate Ht. cbn [drop] in Hr. rewrite drop_0 in Hr. subst tl.
  destruct a, b, c; cbn; eexists; split_and!; try done; by eexists.
Qed.

(** ** An example: [ls|wc>y] with a newline *)

Definition ex_text : list Z := bytes_of "ls|wc>y" ++ [10].
Definition ex_line : line :=
  LEnd (PBar (SCmd [] [(bytes_of "ls", [])])
       (PEnd (SCmd [] [(bytes_of "wc", [mkredir ROut (bytes_of "y")])]))) 0.
Definition ex_sh : sh := mksh (line_buf (bytes_of "ls|wc>y")) 0 [NNull] 20 [].

Lemma ex_lexes : lexes ex_text (line_toks ex_line).
Proof.
  apply (lex_word (bytes_of "ls") (bytes_of "|wc>y" ++ [10]));
    [done|by repeat constructor|by intros ? [= <-]|].
  apply lex_single; [set_solver|].
  apply (lex_word (bytes_of "wc") (bytes_of ">y" ++ [10]));
    [done|by repeat constructor|by intros ? [= <-]|].
  apply lex_gt; [done|].
  apply (lex_word (bytes_of "y") [10]); [done|by repeat constructor|by intros ? [= <-]|].
  apply lex_white; [done|]. apply lex_end.
Qed.

Lemma ex_no_nul : 0 ∉ ex_text.
Proof. by apply (bool_decide_unpack _). Qed.

Lemma parsecmd_parses_witness :
  wp (parsecmd 0) ex_sh (fun p s' => denotes (c_word (sh_buf s')) (sh_heap s') p (line_cmd ex_line)).
Proof.
  apply (parsecmd_parses ex_line ex_text (replicate 91 0) 0 ex_sh);
    [exact ex_no_nul|exact ex_lexes|cbn; unfold MAXARGS; lia|reflexivity|reflexivity|cbn; unfold room_for; cbn; lia].
Defined.

Lemma parsecmd_total_witness :
  safe (parsecmd 0) ex_sh (fun p s' => exists l, lexes ex_text (line_toks l) /\ line_fits l /\
    denotes (c_word (sh_buf s')) (sh_heap s') p (line_cmd l)).
Proof.
  apply (parsecmd_total ex_text (replicate 91 0) 0 ex_sh); [exact ex_no_nul|reflexivity|reflexivity].
Defined.

Lemma shell_runs_line_witness :
  wp (parsecmd 0) ex_sh (fun p s' =>
    events (fun _ => true) (fun _ _ => true) (runcmd (length (sh_heap s')) (sh_buf s') (sh_heap s') p)
      (stdio (Other 0) (Other 1) (Other 2)) 0 =
    expected (fun _ => true) (fun _ _ => true) (line_cmd ex_line) (Other 0) (Other 1) (Other 2) 0) /\
  expected (fun _ => true) (fun _ _ => true) (line_cmd ex_line) (Other 0) (Other 1) (Other 2) 0 =
    ([Ran [bytes_of "ls"] (stdio (Other 0) (PipeW 0) (Other 2));
      Ran [bytes_of "wc"] (stdio (PipeR 0) (File (bytes_of "y") 0x201) (Other 2));
      Waited (stdio (Other 0) (Other 1) (Other 2)); Waited (stdio (Other 0) (Other 1) (Other 2))], 1%nat).
Proof.
  split; [|reflexivity].
  apply (shell_runs_line _ _ ex_line ex_text (replicate 91 0) 0 ex_sh);
    [exact ex_no_nul|exact ex_lexes|cbn; unfold MAXARGS; lia|reflexivity|reflexivity|cbn; unfold room_for; cbn; lia].
Defined.

Lemma main_runs_lines_witness :
  main_loop 3 (bytes_of "cd tmp" ++ [10] ++ bytes_of "ls" ++ [10]) =
    Some [Chdir (bytes_of "tmp"); Spawn (line_buf (bytes_of "ls"))].
Proof.
  apply (main_runs_lines [bytes_of "cd tmp"; bytes_of "ls"]).
  apply Forall_cons; split; [|apply Forall_cons; split; [|by apply Forall_nil]];
    (split; [|cbn; unfold nbuf; lia]); by repeat (apply Forall_cons; split; [by split_and!|]).
Defined.
