(* ===== verification/Umalloc.v ===== *)
(** * The allocator of user programs (umalloc.c)

    [malloc] and [free] keep the free blocks in a circular list, ordered by
    address, that starts at the static header [base].  Memory is a function
    from the addresses of 32-bit words to their values: the header at [a] is the
    pointer at [a] and the size, in units of a header, at [a + 4].  [sbrk]
    moves the end of the memory of the process up to a limit. *)

From S2P Require Import Prelude.
Local Open Scope Z_scope.

Module Umalloc.

(** ** The program *)

Record um : Type := mkum {
  um_mem : Z -> Z;
  um_freep : Z;
  um_brk : Z;     (* the end of the memory of the process *)
  um_lim : Z      (* sbrk fails above it *)
}.

Definition set_word (m : Z -> Z) (a v : Z) : Z -> Z := fun x => if x =? a then v else m x.
Definition set_mem (m : Z -> Z) (s : um) : um := mkum m (um_freep s) (um_brk s) (um_lim s).
Definition set_freep (p : Z) (s : um) : um := mkum (um_mem s) p (um_brk s) (um_lim s).

Definition HDR : Z := 8.  (* sizeof(Header) *)

(** [p->s.ptr] and [p->s.size] *)
Definition ptr (p : Z) : K um Z := gets (fun s => um_mem s p).
Definition size (p : Z) : K um Z := gets (fun s => um_mem s (p + 4)).
Definition set_ptr (p v : Z) : K um unit := modify (fun s => set_mem (set_word (um_mem s) p v) s).
Definition set_size (p v : Z) : K um unit := modify (fun s => set_mem (set_word (um_mem s) (p + 4) v) s).

(** [p + n] for a [Header *p] *)
Definition hdr_add (p n : Z) : Z := u32 (p + n * HDR).

(** [for(p = freep; !(bp > p && bp < p->s.ptr); p = p->s.ptr)
       if(p >= p->s.ptr && (bp > p || bp < p->s.ptr)) break;] *)
Fixpoint find_place (fuel : nat) (bp p : Z) : K um Z :=
  match fuel with
  | O => fault "fuel"
  | S fuel =>
      next ← ptr p;
      if ((p <? bp) && (bp <? next))%bool then mret p
      else if ((next <=? p) && ((p <? bp) || (bp <? next)))%bool then mret p
      else find_place fuel bp next
  end.

Definition free (fuel : nat) (ap : Z) : K um unit :=
  let bp := u32 (ap - HDR) in
  freep ← gets um_freep;
  p ← find_place fuel bp freep;
  next ← ptr p;
  bsize ← size bp;
  (if hdr_add bp bsize =? next
   then nsize ← size next;
        set_size bp (u32 (bsize + nsize));;
        nnext ← (n ← ptr p; ptr n);
        set_ptr bp nnext
   else set_ptr bp next);;
  psize ← size p;
  (if hdr_add p psize =? bp
   then bsize ← size bp;
        set_size p (u32 (psize + bsize));;
        bnext ← ptr bp;
        set_ptr p bnext
   else set_ptr p bp);;
  modify (set_freep p).

(** The old end, or [(char* )-1]. *)
Definition sbrk (n : Z) : K um Z :=
  s ← gets id;
  if um_lim s <? um_brk s + n then mret (u32 (-1))
  else modify (fun s => mkum (um_mem s) (um_freep s) (um_brk s + n) (um_lim s));; mret (um_brk s).

Definition morecore (fuel : nat) (nu : Z) : K um Z :=
  let nu := if nu <? 4096 then 4096 else nu in
  p ← sbrk (s32 (nu * HDR));
  if p =? u32 (-1) then mret 0
  else
    let hp := p in
    set_size hp nu;;
    free fuel (hdr_add hp 1);;
    gets um_freep.

(** The loop of [malloc], at [prevp] and [p = prevp->s.ptr].  The second half of
    the fuel is for [free], which [morecore] calls. *)
Fixpoint malloc_loop (fuel fuel' : nat) (nunits prevp p : Z) : K um Z :=
  match fuel with
  | O => fault "fuel"
  | S fuel =>
      psize ← size p;
      if nunits <=? psize then
        p ← (if psize =? nunits
             then next ← ptr p; set_ptr prevp next;; mret p
             else set_size p (u32 (psize - nunits));;
                  psize ← size p;
                  let p := hdr_add p psize in
                  set_size p nunits;;
                  mret p);
        modify (set_freep prevp);;
        mret (hdr_add p 1)
      else
        freep ← gets um_freep;
        if p =? freep then
          p ← morecore fuel' nunits;
          if p =? 0 then mret 0
          else next ← ptr p; malloc_loop fuel fuel' nunits p next
        else next ← ptr p; malloc_loop fuel fuel' nunits p next
  end.

(** The number of units for [nbytes] bytes and their header. *)
Definition units (nbytes : Z) : Z := u32 (nbytes + HDR - 1) / HDR + 1.

(** [base] is the address of the static header. *)
Definition malloc (fuel : nat) (base nbytes : Z) : K um Z :=
  let nunits := units nbytes in
  freep ← gets um_freep;
  prevp ← (if freep =? 0
           then set_ptr base base;; modify (set_freep base);; set_size base 0;; mret base
           else mret freep);
  p ← ptr prevp;
  malloc_loop fuel fuel nunits prevp p.

(** ** The free list *)

(** The blocks that [m] links from the header [p], the last one to [e]. *)
Fixpoint linked (m : Z -> Z) (p : Z) (l : list Z) (e : Z) : Prop :=
  match l with
  | [] => m p = e
  | a :: l => m p = a /\ linked m a l e
  end.

(** Blocks [(a, n)] of [n] units in ascending order, none of them adjacent. *)
Fixpoint asc (lo : Z) (l : list (Z * Z)) : Prop :=
  match l with
  | [] => True
  | (a, n) :: l => lo < a /\ asc (a + HDR * n) l
  end.

Definition apart (x y : Z * Z) : Prop := x.1 + HDR * x.2 <= y.1 \/ y.1 + HDR * y.2 <= x.1.

Definition in_heap (base brk : Z) (x : Z * Z) : Prop :=
  base + HDR <= x.1 /\ 0 < x.2 /\ x.1 + HDR * x.2 <= brk.

(** [bs] are the free blocks and [al] the blocks in use: they do not overlap,
    they lie in the memory of the process, their sizes are in their headers,
    and the free ones are linked in the order of their addresses. *)
Record inv (base : Z) (s : um) (bs : list (Z * Z)) (al : gmap Z Z) : Prop := mkinv {
  i_linked : linked (um_mem s) base (map fst bs) base;
  i_sizes : Forall (fun x => um_mem s (x.1 + 4) = x.2) bs;
  i_base : um_mem s (base + 4) = 0;
  i_asc : asc base bs;
  i_freep : um_freep s ∈ base :: map fst bs;
  i_free : Forall (in_heap base (um_brk s)) bs;
  i_live : map_Forall (fun a n => um_mem s (a + 4) = n /\ in_heap base (um_brk s) (a, n)) al;
  i_apart : map_Forall (fun a n => Forall (apart (a, n)) bs) al;
  i_apart2 : forall a n a' n', al !! a = Some n -> al !! a' = Some n' -> a <> a' -> apart (a, n) (a', n');
  i_bounds : 0 < base /\ base + HDR <= um_brk s <= um_lim s /\ um_lim s < 2 ^ 31
}.

Lemma linked_app m p l1 a l2 e : linked m p (l1 ++ a :: l2) e <-> linked m p l1 a /\ linked m a l2 e.
Proof. revert p. induction l1 as [|x l1 IH]; intros p; cbn; [done|]. rewrite IH. tauto. Qed.

Lemma linked_frame m m' p l e : (forall a, a ∈ p :: l -> m' a = m a) -> linked m p l e -> linked m' p l e.
Proof.
  revert p. induction l as [|x l IH]; intros p Hm; cbn; [by rewrite Hm by set_solver|].
  rewrite Hm by set_solver. intros [-> ?]. split; [done|]. apply IH; [|done]. intros. apply Hm. set_solver.
Qed.

Lemma linked_lookup m p l e i a : linked m p l e -> (p :: l) !! i = Some a ->
  m a = match (p :: l) !! S i with Some b => b | None => e end.
Proof.
  revert p i. induction l as [|x l IH]; intros p i Hl Hi.
  - destruct i; cbn in *; [by simplify_eq|done].
  - destruct Hl as [Hp Hl]. destruct i; cbn in Hi; [by simplify_eq|]. by apply (IH x i).
Qed.

Lemma asc_weaken lo lo' l : lo' <= lo -> asc lo l -> asc lo' l.
Proof. destruct l as [|[a n] l]; cbn; [done|]. intuition lia. Qed.

Lemma asc_app lo l1 a n l2 : asc lo (l1 ++ (a, n) :: l2) -> Forall (fun x => 0 < x.2) l1 -> 
  asc lo l1 /\ lo < a /\ Forall (fun x => x.1 + HDR * x.2 < a) l1 /\ asc (a + HDR * n) l2.
Proof.
  revert lo. induction l1 as [|[b k] l1 IH]; intros lo; cbn; [naive_solver|].
  intros [Hlo Ha] [Hk Hp]%Forall_cons. destruct (IH _ Ha Hp) as (? & ? & ? & ?). cbn in Hk.
  unfold HDR in *. split_and!; [done..|lia| |done]. constructor; [cbn; lia|done].
Qed.

(** The addresses of the cycle ascend from [base]. *)
Lemma asc_lookup lo l i j x y : asc lo l -> Forall (fun x => 0 < x.2) l -> (lo :: map fst l) !! i = Some x ->
  (lo :: map fst l) !! j = Some y -> (i < j)%nat -> x < y.
Proof.
  revert lo i j. assert (forall l lo j y, asc lo l -> Forall (fun x => 0 < x.2) l -> map fst l !! j = Some y -> lo < y) as Hlt.
  { clear. induction l as [|[a n] l IH]; intros lo j y; cbn; [done|]. intros [? Ha] [Hn Hp]%Forall_cons Hj.
    cbn in Hn. destruct j; cbn in Hj; [by simplify_eq|]. pose proof (IH _ _ _ Ha Hp Hj). unfold HDR in *. lia. }
  induction l as [|[a n] l IH]; intros lo i j Ha Hp Hi Hj Hij.
  - destruct j; [lia|]. done.
  - destruct j; [lia|]. destruct i; cbn in Hi, Hj.
    + simplify_eq. by eapply (Hlt ((a, n) :: l)).
    + destruct Ha as [? Ha]. apply Forall_cons in Hp as [Hn Hp]. eapply (IH a i j); [|done..|lia].
      eapply asc_weaken; [|exact Ha]. cbn in Hn. unfold HDR. lia.
Qed.

(** ** Finding the place of a block *)

(** Steps from index [i] to index [k] of a cycle of [n] headers. *)
Definition dist (n i k : nat) : nat := if (i <=? k)%nat then k - i else (n - i) + k.

Lemma find_place_wp base bs m bp k p : linked m base (map fst bs) base -> asc base bs ->
  Forall (fun x => 0 < x.2) bs -> (base :: map fst bs) !! k = Some p -> p < bp ->
  (forall q, (base :: map fst bs) !! S k = Some q -> bp < q) ->
  forall d i q fuel s, dist (S (length bs)) i k = d -> (d < fuel)%nat -> um_mem s = m ->
  (base :: map fst bs) !! i = Some q -> wp (find_place fuel bp q) s (fun r s' => r = p /\ s' = s).
Proof.
  intros Hl Ha Hp Hk Hlt Hnext d. set (c := base :: map fst bs) in *.
  assert (length c = S (length bs)) as Hlen by (cbn; by rewrite length_map).
  assert (forall i j x y, c !! i = Some x -> c !! j = Some y -> (i < j)%nat -> x < y) as Hsort.
  { intros. by eapply (asc_lookup base bs). }
  assert (k < S (length bs))%nat as Hkl by (rewrite <- Hlen; by eapply lookup_lt_Some).
  assert (base <= p) as Hbp.
  { destruct k; [by cbn in Hk; simplify_eq|]. pose proof (Hsort 0%nat (S k) base p eq_refl Hk). lia. }
  induction d as [d IH] using lt_wf_ind. intros i q [|fuel] s Hd Hf Hm Hi; [lia|].
  assert (i < S (length bs))%nat by (rewrite <- Hlen; by eapply lookup_lt_Some).
  pose proof (linked_lookup _ _ _ _ _ _ Hl Hi) as Hq. fold c in Hq. cbn [find_place]. wp_step.
  unfold ptr. wp_step. rewrite Hm, Hq. unfold dist in Hd.
  destruct (Nat.lt_trichotomy i k) as [Hik|[->|Hik]].
  - destruct (c !! S i) as [q'|] eqn:Hq'; [|apply lookup_ge_None in Hq'; lia].
    pose proof (Hsort _ _ _ _ Hi Hq' ltac:(lia)). 
    assert (q' <= p) by (destruct (decide (S i = k)) as [<-|]; [simplify_eq; lia|pose proof (Hsort _ _ _ _ Hq' Hk ltac:(lia)); lia]).
    rewrite (proj2 (Z.ltb_ge bp q')), andb_false_r by lia. rewrite (proj2 (Z.leb_gt q' q)) by lia. cbn [andb].
    eapply (IH (k - S i)%nat); [|unfold dist|..]; eauto; destruct (Nat.leb_spec (S i) k), (Nat.leb_spec i k); lia.
  - assert (q = p) as -> by congruence. rewrite (proj2 (Z.ltb_lt p bp)) by lia. cbn [andb orb].
    destruct (c !! S k) as [q'|] eqn:Hq'.
    + rewrite (proj2 (Z.ltb_lt bp q')) by by apply Hnext. by apply wp_ret.
    + rewrite (proj2 (Z.ltb_ge bp base)) by lia. rewrite (proj2 (Z.leb_le base p)) by lia. by apply wp_ret.
  - pose proof (Hsort _ _ _ _ Hk Hi ltac:(lia)).
    assert (bp < q). { destruct (c !! S k) as [x|] eqn:Hx; [|apply lookup_ge_None in Hx; lia].
      pose proof (Hnext _ eq_refl). destruct (decide (S k = i)) as [<-|]; [by simplify_eq|].
      pose proof (Hsort _ _ _ _ Hx Hi ltac:(lia)). lia. }
    rewrite (proj2 (Z.ltb_ge q bp)) by lia. cbn [andb orb].
    destruct (Nat.leb_spec i k); [lia|].
    destruct (c !! S i) as [q'|] eqn:Hq'.
    + pose proof (Hsort _ _ _ _ Hi Hq' ltac:(lia)). rewrite (proj2 (Z.leb_gt q' q)) by lia. cbn [andb].
      eapply (IH (S (length bs) - S i + k)%nat); [|unfold dist|..]; eauto; destruct (Nat.leb_spec (S i) k); lia.
    + rewrite (proj2 (Z.ltb_ge bp base)), andb_false_r by lia. apply lookup_ge_None in Hq'.
      eapply (IH k ltac:(lia) 0%nat); [unfold dist; cbn; lia|lia|done|done].
Qed.

(** ** Giving a block back *)

Lemma lookup_map {A B} (f : A -> B) (l : list A) i : map f l !! i = f <$> l !! i.
Proof. revert i. induction l; intros [|i]; cbn; [done..|]. apply IHl. Qed.

Lemma set_word_same m a v : set_word m a v a = v.
Proof. unfold set_word. by rewrite Z.eqb_refl. Qed.
Lemma set_word_ne m a v x : x <> a -> set_word m a v x = m x.
Proof. intros. unfold set_word. by rewrite (proj2 (Z.eqb_neq x a)). Qed.

(** Evaluate reads of memory after writes. *)
Ltac words := repeat (rewrite set_word_same || rewrite set_word_ne by (unfold HDR in *; lia)).

Lemma hdr_add_small p n : 0 <= p + n * HDR < 2 ^ 32 -> hdr_add p n = p + HDR * n.
Proof. intros. unfold hdr_add. rewrite u32_small; lia. Qed.

Definition first (base : Z) (l : list (Z * Z)) : Z := match l with [] => base | x :: _ => x.1 end.

Lemma linked_first m p l base : linked m p (map fst l) base -> m p = first base l.
Proof. by destruct l as [|[??] ?]; cbn; [|intros [? _]]. Qed.

(** The first half of [free]: join the block with the one behind it. *)
Definition join_next (bp p : Z) : K um unit :=
  next ← ptr p;
  bsize ← size bp;
  if hdr_add bp bsize =? next
  then nsize ← size next;
       set_size bp (u32 (bsize + nsize));;
       nnext ← (n ← ptr p; ptr n);
       set_ptr bp nnext
  else set_ptr bp next.

(** What it leaves: the block has [n'] units and the free blocks behind it are
    [l2']. *)
Definition joined_next (a n n' : Z) (l2 l2' : list (Z * Z)) : Prop :=
  n' = n /\ l2' = l2 /\ asc (a + HDR * n) l2 \/
  exists n2, l2 = (a + HDR * n, n2) :: l2' /\ n' = n + n2.

Lemma join_next_wp base brk s a n p l2 :
  0 < base -> brk < 2 ^ 31 -> base + HDR <= a -> 0 < n -> a + HDR * n <= brk ->
  um_mem s (a + 4) = n -> linked (um_mem s) p (map fst l2) base -> p + HDR <= a ->
  asc (a + HDR * n - 1) l2 -> Forall (in_heap base brk) l2 -> Forall (fun x => um_mem s (x.1 + 4) = x.2) l2 ->
  wp (join_next a p) s (fun _ s' => exists m' n' l2', s' = set_mem m' s /\
    (forall w, w <> a -> w <> a + 4 -> m' w = um_mem s w) /\
    linked m' a (map fst l2') base /\ m' (a + 4) = n' /\ joined_next a n n' l2 l2').
Proof.
  intros Hb0 Hbrk Hba Hn Han Hsz Hl Hpa Hasc Hin Hs.
  unfold join_next, ptr, size, set_ptr, set_size. do 4 wp_step. rewrite Hsz, (linked_first _ _ _ _ Hl).
  rewrite hdr_add_small by (unfold HDR in *; lia).
  assert (forall w, w ∈ map fst l2 -> a + HDR * n <= w) as Hge.
  { intros w (x & -> & Hx)%list_elem_of_fmap. apply list_elem_of_lookup in Hx as [i Hi].
    assert (map fst l2 !! i = Some x.1) as Hi' by (by rewrite lookup_map, Hi).
    pose proof (asc_lookup (a + HDR * n - 1) l2 0 (S i) (a + HDR * n - 1) x.1 Hasc) as H.
    enough (a + HDR * n - 1 < x.1) by lia. apply H; [|done|done|lia].
    eapply Forall_impl; [exact Hin|]. by intros y (_ & ? & _). }
  destruct (Z.eqb_spec (a + HDR * n) (first base l2)) as [Heq|Hne].
  - destruct l2 as [|[a2 n2] l2]; cbn [first] in Heq; [unfold HDR in *; lia|]. cbn in Heq. subst a2.
    apply Forall_cons in Hin as [(_ & ? & Hn2) Hin], Hs as [Hs2 Hs]. cbn in *.
    destruct Hl as [Hp Hl]. do 2 wp_step. rewrite Hs2. do 7 wp_step. cbn.
    rewrite (set_word_ne _ _ _ p), Hp, (set_word_ne _ _ _ (a + HDR * n)) by (unfold HDR in *; lia).
    eexists _, (n + n2), l2. split_and!; [reflexivity| | | |].
    + intros w ??. by words.
    + destruct l2 as [|[a3 n3] l2]; cbn in Hl |- *; words; [done|]. destruct Hl as [Ha3 Hl]. split; [done|].
      eapply linked_frame; [|exact Hl]. intros w Hw. pose proof (Hge w ltac:(set_solver)). by words.
    + words. rewrite u32_small by (unfold HDR in *; lia). done.
    + right. by exists n2.
  - wp_step. eexists _, n, l2. split_and!; [reflexivity| | | |].
    + intros w ??. by words.
    + destruct l2 as [|[a3 n3] l2]; cbn in Hl |- *; words; [done|]. destruct Hl as [_ Hl]. split; [done|].
      eapply linked_frame; [|exact Hl]. intros w Hw. pose proof (Hge w ltac:(set_solver)). by words.
    + by words.
    + left. split_and!; [done..|]. destruct l2 as [|[a3 n3] l2]; [done|]. cbn in Hne, Hasc |- *. intuition lia.
Qed.

(** The second half: join it with the block in front of it. *)
Definition join_prev (bp p : Z) : K um unit :=
  psize ← size p;
  if hdr_add p psize =? bp
  then bsize ← size bp;
       set_size p (u32 (psize + bsize));;
       bnext ← ptr bp;
       set_ptr p bnext
  else set_ptr p bp.

Lemma free_split fuel ap s Q :
  wp (freep ← gets um_freep; p ← find_place fuel (u32 (ap - HDR)) freep;
      join_next (u32 (ap - HDR)) p;; join_prev (u32 (ap - HDR)) p;; modify (set_freep p)) s Q ->
  wp (free fuel ap) s Q.
Proof.
  unfold free. apply wp_bind_ext. intros freep s1. apply wp_bind_ext. intros p s2 H.
  unfold join_next in H. apply wp_bind_assoc in H. revert H. apply wp_bind_ext. intros next s3 H.
  apply wp_bind_assoc in H. revert H. apply wp_bind_ext. intros bsize s4 H.
  revert H. apply wp_bind_ext. intros [] s5 H. unfold join_prev in H. apply wp_bind_assoc in H. exact H.
Qed.

Lemma join_prev_wp base s a n p ps (l2 : list (Z * Z)) : 0 < p -> 0 <= ps -> 0 < n -> a + HDR * n < 2 ^ 31 ->
  um_mem s (a + 4) = n -> um_mem s (p + 4) = ps -> linked (um_mem s) a (map fst l2) base ->
  p + HDR <= a -> p + HDR * ps <= a -> Forall (fun w => a < w) (map fst l2) ->
  wp (join_prev a p) s (fun _ s' => exists m', s' = set_mem m' s /\
    (forall w, w <> p -> w <> p + 4 -> m' w = um_mem s w) /\
    (p + HDR * ps = a /\ m' (p + 4) = ps + n /\ linked m' p (map fst l2) base \/
     p + HDR * ps < a /\ m' (p + 4) = ps /\ linked m' p (a :: map fst l2) base)).
Proof.
  intros Hp Hps Hn Ha Hsa Hsp Hl Hpa Hpe Hgt. unfold join_prev, ptr, size, set_ptr, set_size. do 2 wp_step.
  rewrite Hsp, hdr_add_small by (unfold HDR in *; lia).
  assert (forall m', (forall w, w <> p -> w <> p + 4 -> m' w = um_mem s w) -> linked m' a (map fst l2) base) as Hfr.
  { intros m' Hm. eapply linked_frame; [|exact Hl]. intros w Hw. rewrite Forall_forall in Hgt.
    apply elem_of_cons in Hw as [->|Hw%Hgt]; apply Hm; unfold HDR in *; lia. }
  destruct (Z.eqb_spec (p + HDR * ps) a) as [He|Hne].
  - do 6 wp_step. cbn. rewrite Hsa. words. eexists. split_and!; [reflexivity| |left; split_and!].
    + intros w ??. by words.
    + done.
    + words. rewrite u32_small by (unfold HDR in *; lia). done.
    + destruct l2 as [|[a2 n2] l2]; cbn in Hl, Hgt |- *; words; [done|]. destruct Hl as [Ha2 Hl]. split; [done|].
      apply Forall_cons in Hgt as [? Hgt]. eapply linked_frame; [|exact Hl]. intros w Hw.
      rewrite Forall_forall in Hgt. apply elem_of_cons in Hw as [->|Hw%Hgt]; by words.
  - wp_step. eexists. split_and!; [reflexivity| |right; split_and!].
    + intros w ??. by words.
    + unfold HDR in *. lia.
    + by words.
    + cbn. words. split; [done|]. apply Hfr. intros w ??. by words.
Qed.

(** ** Merging blocks *)

Fixpoint end_of (lo : Z) (l : list (Z * Z)) : Z :=
  match l with [] => lo | (a, n) :: l => end_of (a + HDR * n) l end.

Lemma asc_app_iff lo l1 l2 : asc lo (l1 ++ l2) <-> asc lo l1 /\ asc (end_of lo l1) l2.
Proof. revert lo. induction l1 as [|[a n] l1 IH]; intros lo; cbn; [tauto|]. rewrite IH. tauto. Qed.

Lemma end_of_app lo l1 l2 : end_of lo (l1 ++ l2) = end_of (end_of lo l1) l2.
Proof. revert lo. induction l1 as [|[a n] l1 IH]; intros lo; cbn; auto. Qed.

Lemma end_of_le lo l : asc lo l -> Forall (fun x => 0 < x.2) l ->
  lo <= end_of lo l /\ Forall (fun x => lo < x.1 /\ x.1 + HDR * x.2 <= end_of lo l) l.
Proof.
  revert lo. induction l as [|[a n] l IH]; intros lo; cbn; [split; [lia|done]|].
  intros [? Ha] [Hn Hp]%Forall_cons. cbn in Hn. destruct (IH _ Ha Hp) as [? Hf]. unfold HDR in *.
  split; [lia|]. constructor; [cbn; lia|]. eapply Forall_impl; [exact Hf|]. cbn. lia.
Qed.

Lemma apart_merge y a n n2 : 0 < y.2 -> 0 < n -> apart y (a, n) -> apart y (a + HDR * n, n2) -> apart y (a, n + n2).
Proof. unfold apart, HDR. cbn. lia. Qed.

Section Joined.
Context (a n n' : Z) (l2 l2' : list (Z * Z)) (Hj : joined_next a n n' l2 l2').

Lemma joined_Forall P : Forall P l2 -> Forall P l2'.
Proof. destruct Hj as [(_ & -> & _)|(n2 & -> & _)]; [done|]. by intros [_ ?]%Forall_cons. Qed.

Lemma joined_asc lo : asc lo l2 -> asc (a + HDR * n') l2'.
Proof.
  destruct Hj as [(-> & -> & ?)|(n2 & -> & ->)]; [done|]. intros [_ ?].
  by replace (a + HDR * (n + n2)) with (a + HDR * n + HDR * n2) by (unfold HDR; lia).
Qed.

Lemma joined_in_heap base brk : in_heap base brk (a, n) -> Forall (in_heap base brk) l2 -> in_heap base brk (a, n').
Proof.
  destruct Hj as [(-> & _)|(n2 & -> & ->)]; [done|]. intros (? & ? & ?) [(? & ? & ?) _]%Forall_cons.
  unfold in_heap, HDR in *. cbn in *. lia.
Qed.

Lemma joined_apart y : 0 < y.2 -> 0 < n -> apart y (a, n) -> Forall (apart y) l2 -> apart y (a, n').
Proof.
  destruct Hj as [(-> & _)|(n2 & -> & ->)]; [done|]. intros ??? [? _]%Forall_cons. by apply apart_merge.
Qed.

Lemma joined_le : Forall (fun x => 0 < x.2) l2 -> n <= n'.
Proof. destruct Hj as [(-> & _)|(n2 & -> & ->)]; [lia|]. intros [? _]%Forall_cons. cbn in *. lia. Qed.
End Joined.

Lemma in_heap_pos base brk l : Forall (in_heap base brk) l -> Forall (fun x => 0 < x.2) l.
Proof. intros H. eapply Forall_impl; [exact H|]. by intros x (_ & ? & _). Qed.

(** The free blocks in front of a block and behind it. *)
Lemma split_at lo bs a n : asc lo bs -> Forall (fun x => 0 < x.2) bs -> 0 < n -> Forall (apart (a, n)) bs ->
  exists l1 l2, bs = l1 ++ l2 /\ Forall (fun x => x.1 + HDR * x.2 <= a) l1 /\ Forall (fun x => a + HDR * n <= x.1) l2.
Proof.
  intros Ha Hp Hn. revert lo Ha Hp. induction bs as [|[b k] bs IH]; intros lo Ha Hp Hap; [by exists [], []|].
  pose proof Ha as [Hb Ha']. apply Forall_cons in Hp as [Hk Hp], Hap as [Hbk Hap]. cbn in Hk.
  destruct Hbk as [Hle|Hle]; cbn in Hle.
  - exists [], ((b, k) :: bs). split_and!; [done..|]. constructor; [done|].
    destruct (end_of_le _ _ Ha' Hp) as [_ Hf]. eapply Forall_impl; [exact Hf|]. cbn. unfold HDR in *. lia.
  - destruct (IH _ Ha' Hp Hap) as (l1 & l2 & -> & ? & ?). exists ((b, k) :: l1), l2. split_and!; auto.
Qed.

Lemma asc_tighten lo lo' l : asc lo l -> Forall (fun x => lo' < x.1) l -> asc lo' l.
Proof. destruct l as [|[a n] l]; cbn; [done|]. intros [_ ?] [? _]%Forall_cons. done. Qed.

(** What [free] does, [p] being the header in front of the block. *)
Lemma free_core base s bs l1 l2 al a n p ps fuel :
  inv base s bs (<[a := n]> al) -> bs = l1 ++ l2 -> Forall (fun x => x.1 + HDR * x.2 <= a) l1 ->
  Forall (fun x => a + HDR * n <= x.1) l2 -> (base :: map fst bs) !! length l1 = Some p ->
  um_mem s (p + 4) = ps -> linked (um_mem s) p (map fst l2) base ->
  0 < p -> 0 <= ps -> p + HDR <= a -> p + HDR * ps <= a -> (length bs < fuel)%nat ->
  wp (free fuel (a + HDR)) s (fun _ s' => exists m' n' l2', s' = set_freep p (set_mem m' s) /\
    (forall w, w <> a -> w <> a + 4 -> w <> p -> w <> p + 4 -> m' w = um_mem s w) /\ joined_next a n n' l2 l2' /\
    (p + HDR * ps = a /\ m' (p + 4) = ps + n' /\ linked m' p (map fst l2') base \/
     p + HDR * ps < a /\ m' (p + 4) = ps /\ m' (a + 4) = n' /\ linked m' p (a :: map fst l2') base)).
Proof.
  intros [Hl Hs Hb Hasc Hfp Hfr Hlv Hap Hap2 (Hb0 & Hbrk & Hlim)] Ebs Hl1 Hl2 Hp Hps Hlp Hp0 Hps0 Hpa Hpe Hf.
  pose proof (in_heap_pos _ _ _ Hfr) as Hpos.
  destruct (Hlv a n (lookup_insert_eq _ _ _)) as [Hsz Hin]. pose proof Hin as (Hin1 & Hin2 & Hin3). cbn in Hin1, Hin2, Hin3.
  apply free_split. replace (u32 (a + HDR - HDR)) with a by (rewrite u32_small; unfold HDR in *; lia).
  do 2 wp_step. apply list_elem_of_lookup in Hfp as [i Hi]. wp_step.
  eapply wp_mono; [eapply (find_place_wp base bs (um_mem s) a (length l1) p Hl Hasc Hpos Hp ltac:(unfold HDR in *; lia)
    ltac:(shelve) _ i (um_freep s) fuel s eq_refl)|]; [|done|done|].
  { assert (i < S (length bs))%nat by (apply lookup_lt_Some in Hi; cbn in Hi; rewrite length_map in Hi; done).
    assert (length l1 < S (length bs))%nat by (rewrite Ebs, length_app; lia).
    unfold dist. destruct (Nat.leb_spec i (length l1)); lia. }
  intros ? ? [-> ->]. subst bs. apply Forall_app in Hs as [Hs1 Hs2], Hfr as [Hfr1 Hfr2].
  wp_step. eapply wp_mono; [apply (join_next_wp base (um_brk s) s a n p l2); try done; try lia|].
  { apply asc_app_iff in Hasc as [_ Hasc]. eapply asc_tighten; [exact Hasc|]. eapply Forall_impl; [exact Hl2|]. cbn. lia. }
  intros [] s1 (m1 & n' & l2' & -> & Hm1 & Hlk & Hsa & Hj). pose proof (joined_in_heap _ _ _ _ _ Hj _ _ Hin Hfr2) as (? & ? & ?).
  cbn in *. wp_step. eapply wp_mono; [apply (join_prev_wp base (set_mem m1 s) a n' p ps l2'); try done; try (unfold HDR in *; lia)|].
  - cbn. rewrite Hm1; [done|unfold HDR in *; lia..].
  - apply joined_Forall with (P := fun x => a < x.1) in Hj; [by apply Forall_map|].
    eapply Forall_impl; [exact Hl2|]. cbn. unfold HDR in *. lia.
  - intros [] s2 (m2 & -> & Hm2 & Hcase). wp_step. exists m2, n', l2'. split_and!; [done| |done|].
    + intros w ????. rewrite Hm2 by done. by apply Hm1.
    + destruct Hcase as [Hc|(Hc1 & Hc2 & Hc3)]; [by left|right].
      split; [exact Hc1|split; [exact Hc2|split; [|exact Hc3]]].
      rewrite Hm2 by (unfold HDR in *; lia). exact Hsa.
  Unshelve. intros q Hq. change (map fst bs !! length l1 = Some q) in Hq. rewrite lookup_map, Ebs, lookup_app_r, Nat.sub_diag in Hq by lia.
  destruct l2 as [|x l2]; [done|]. cbn in Hq. simplify_eq. apply Forall_cons in Hl2 as [? _]. unfold HDR in *. lia.
Qed.

(** The invariant after [free] rebuilt the list from [p] on. *)
Lemma inv_rebuild base s l0 old al a n p m' t :
  inv base s (l0 ++ old) (<[a := n]> al) -> al !! a = None ->
  (forall w, w <> a -> w <> a + 4 -> w <> p -> w <> p + 4 -> m' w = um_mem s w) ->
  Forall (fun x => x.1 + HDR * x.2 <= p /\ x.1 + HDR * x.2 <= a) l0 ->
  p = base \/ (exists k, (p, k) ∈ old) -> m' (base + 4) = 0 -> linked m' base (map fst (l0 ++ t)) base ->
  Forall (fun x => m' (x.1 + 4) = x.2) t -> asc base (l0 ++ t) -> Forall (in_heap base (um_brk s)) t ->
  (forall y, 0 < y.2 -> Forall (apart y) old -> apart y (a, n) -> Forall (apart y) t) ->
  p ∈ base :: map fst (l0 ++ t) -> inv base (set_freep p (set_mem m' s)) (l0 ++ t) al.
Proof.
  intros [Hl Hs Hb Hasc Hfp Hfr Hlv Hap Hap2 Hbd] Ha Hm Hl0 Hp Hb' Hl' Hs' Hasc' Hfr' Hap' Hfp'.
  destruct (Hlv a n (lookup_insert_eq _ _ _)) as [_ (? & ? & ?)].
  apply Forall_app in Hs as [Hs _], Hfr as [Hfr Hold].
  assert (forall b k, al !! b = Some k -> (<[a := n]> al : gmap Z Z) !! b = Some k /\ b <> a) as Hlook.
  { intros b k Hb1. assert (b <> a) by congruence. by rewrite lookup_insert_ne. }
  constructor; cbn [um_mem um_freep um_brk um_lim set_freep set_mem]; try done.
  - apply Forall_app. split; [|done]. apply Forall_forall. intros x Hx. rewrite Forall_forall in Hs, Hl0, Hfr.
    pose proof (Hl0 x Hx). destruct (Hfr x Hx) as (? & ? & ?). unfold HDR in *. rewrite Hm by lia. by apply Hs.
  - apply Forall_app. by split.
  - intros b k Hbk. destruct (Hlook b k Hbk) as [Hbk' Hne]. destruct (Hlv b k Hbk') as [Hsz Hin].
    split; [|done]. pose proof Hin as (? & ? & ?). cbn in *. unfold HDR in *.
    assert (apart (b, k) (a, n)) as Hba by (eapply Hap2; [done|apply lookup_insert_eq|done]).
    assert (b + 4 <> p /\ b + 4 <> p + 4) as [??].
    { destruct Hp as [->|[j Hj]]; [lia|]. pose proof (Hap b k Hbk') as Hf. apply Forall_app in Hf as [_ Hf].
      rewrite Forall_forall in Hf, Hold. pose proof (Hf _ Hj) as Hx. destruct (Hold _ Hj) as (? & ? & ?).
      unfold apart, HDR in Hx. cbn in *. lia. }
    unfold apart, HDR in Hba. cbn in Hba. rewrite Hm by lia. done.
  - intros b k Hbk. destruct (Hlook b k Hbk) as [Hbk' Hne]. destruct (Hlv b k Hbk') as [_ (_ & Hk & _)].
    pose proof (Hap b k Hbk') as Hf. apply Forall_app in Hf as [Hf1 Hf2]. apply Forall_app. split; [done|].
    apply Hap'; [done|done|]. eapply Hap2; [done|apply lookup_insert_eq|done].
  - intros b k b' k' Hbk Hbk' Hne. eapply Hap2; [by apply Hlook|by apply Hlook|done].
Qed.

Definition freed (base : Z) (s : um) (bs : list (Z * Z)) (al : gmap Z Z) (n : Z) (s' : um) : Prop :=
  um_brk s' = um_brk s /\ um_lim s' = um_lim s /\
  exists bs', inv base s' bs' al /\ (length bs' <= S (length bs))%nat /\ exists x, x ∈ bs' /\ n <= x.2.

Lemma tail_sizes (m m' : Z -> Z) a n p l2 : 0 < n -> p + HDR <= a ->
  (forall w, w <> a -> w <> a + 4 -> w <> p -> w <> p + 4 -> m' w = m w) ->
  Forall (fun x => a + HDR * n <= x.1) l2 -> Forall (fun x => m (x.1 + 4) = x.2) l2 ->
  Forall (fun x => m' (x.1 + 4) = x.2) l2.
Proof.
  intros ?? Hm H1 H2. apply Forall_forall. intros x Hx. rewrite Forall_forall in H1, H2.
  specialize (H1 x Hx). unfold HDR in *. rewrite Hm by lia. by apply H2.
Qed.

Lemma joined_length a n n' l2 l2' : joined_next a n n' l2 l2' -> (length l2' <= length l2)%nat.
Proof. intros [(_ & -> & _)|(n2 & -> & _)]; cbn; lia. Qed.

Lemma free_wp_first base s l2 al a n fuel : inv base s l2 (<[a := n]> al) -> al !! a = None ->
  (length l2 < fuel)%nat -> Forall (fun x => a + HDR * n <= x.1) l2 ->
  wp (free fuel (a + HDR)) s (fun _ s' => freed base s l2 al n s').
Proof.
  intros Hinv Ha Hf Hl2. pose proof Hinv as [Hl Hs Hb Hasc Hfp Hfr Hlv Hap Hap2 (Hb0 & Hbrk & Hlim)].
  destruct (Hlv a n (lookup_insert_eq _ _ _)) as [_ Hin]. pose proof Hin as (Hin1 & Hin2 & Hin3). cbn in Hin1, Hin2, Hin3.
  eapply wp_mono; [eapply (free_core base s _ [] l2 al a n base 0 fuel Hinv eq_refl); try done; unfold HDR in *; lia|].
  intros [] s' (m' & n' & l2' & -> & Hm & Hj & [(? & _)|(Hlt & Hbz & Hna & Hlk)]); [unfold HDR in *; lia|].
  pose proof (tail_sizes _ _ _ _ _ _ Hin2 Hin1 Hm Hl2 Hs) as Hs2'.
  split_and!; [done..|]. exists ((a, n') :: l2'). split_and!.
  - apply (inv_rebuild base s [] l2 al a n base m' ((a, n') :: l2')); try done; try by left.
    + constructor; [done|by eapply joined_Forall].
    + cbn. split; [unfold HDR in *; lia|by eapply joined_asc].
    + constructor; [by eapply joined_in_heap|by eapply joined_Forall].
    + intros y Hy Hyl Hya. constructor; [by eapply joined_apart|by eapply joined_Forall].
  - apply joined_length in Hj. cbn. lia.
  - exists (a, n'). split; [set_solver|]. eapply joined_le; [done|by eapply in_heap_pos].
Qed.

(** The list in front of [p], which [free] does not touch. *)
Lemma linked_before (m m' : Z -> Z) base l0 a1 a e : linked m base (map fst l0) e ->
  (forall w, w <> a -> w <> a + 4 -> w <> a1 -> w <> a1 + 4 -> m' w = m w) ->
  base + HDR <= a1 -> a1 + HDR <= a -> Forall (fun x => x.1 + HDR * x.2 < a1) l0 -> Forall (fun x => 0 < x.2) l0 ->
  linked m' base (map fst l0) e.
Proof.
  intros Hl Hm ?? H1 H2. eapply linked_frame; [|exact Hl]. intros w Hw. unfold HDR in *.
  apply elem_of_cons in Hw as [->|(x & -> & Hx)%list_elem_of_fmap]; [apply Hm; lia|].
  rewrite Forall_forall in H1, H2. specialize (H1 x Hx). specialize (H2 x Hx). cbn in *. apply Hm; lia.
Qed.

Lemma free_wp_snoc base s l0 a1 n1 l2 al a n fuel : inv base s (l0 ++ (a1, n1) :: l2) (<[a := n]> al) -> al !! a = None ->
  (length (l0 ++ (a1, n1) :: l2) < fuel)%nat -> Forall (fun x => x.1 + HDR * x.2 <= a) (l0 ++ [(a1, n1)]) ->
  Forall (fun x => a + HDR * n <= x.1) l2 ->
  wp (free fuel (a + HDR)) s (fun _ s' => freed base s (l0 ++ (a1, n1) :: l2) al n s').
Proof.
  intros Hinv Ha Hf Hl1 Hl2. pose proof Hinv as [Hl Hs Hb Hasc Hfp Hfr Hlv Hap Hap2 (Hb0 & Hbrk & Hlim)].
  destruct (Hlv a n (lookup_insert_eq _ _ _)) as [_ Hin]. pose proof Hin as (Hin1 & Hin2 & Hin3). cbn in Hin1, Hin2, Hin3.
  pose proof (in_heap_pos _ _ _ Hfr) as Hpos. pose proof Hl1 as Hl1'.
  apply Forall_app in Hl1 as [Hl0 [Ha1 _]%Forall_cons], Hs as [Hs0 [Hsa1 Hs2]%Forall_cons],
    Hfr as [Hfr0 [Hfa1 Hfr2]%Forall_cons], Hpos as [Hpos0 [Hpos1 Hpos2]%Forall_cons]. pose proof Hfa1 as (Hfa & _ & _).
  cbn in Ha1, Hsa1, Hfa, Hpos1. rewrite map_app in Hl. apply linked_app in Hl as [Hlk0 Hlk1].
  destruct (asc_app _ _ _ _ _ Hasc Hpos0) as (Hasc0 & Hb1 & Hlt0 & Hasc1).
  assert (a1 + HDR <= a) as Ha1' by (unfold HDR in *; lia).
  assert (asc (end_of base l0) ((a1, n1) :: l2)) as Hend by by apply asc_app_iff in Hasc as [_ ?].
  assert (Forall (fun x => x.1 + HDR * x.2 <= a1 /\ x.1 + HDR * x.2 <= a) l0) as Hbef.
  { apply Forall_and. split; [|done]. eapply Forall_impl; [exact Hlt0|]. cbn. lia. }
  eapply wp_mono; [eapply (free_core base s _ (l0 ++ [(a1, n1)]) l2 al a n a1 n1 fuel Hinv)|];
    [by rewrite <- app_assoc|done|done| |done|done|unfold HDR in *; lia..|].
  { rewrite map_app, length_app, Nat.add_1_r. cbn [map].
    change ((map fst l0 ++ a1 :: map fst l2) !! length l0 = Some a1). apply list_lookup_middle. by rewrite length_map. }
  intros [] s' (m' & n' & l2' & -> & Hm & Hj & Hcase). split_and!; [done..|].
  pose proof (tail_sizes _ _ _ _ _ _ Hin2 Ha1' Hm Hl2 Hs2) as Hs2'. pose proof (joined_le _ _ _ _ _ Hj Hpos2).
  pose proof (linked_before _ _ _ _ _ _ _ Hlk0 Hm Hfa Ha1' Hlt0 Hpos0) as Hlk0'.
  pose proof (joined_asc _ _ _ _ _ Hj _ Hasc1) as Hasc2. pose proof (joined_in_heap _ _ _ _ _ Hj _ _ Hin Hfr2) as Hin'.
  assert (m' (base + 4) = 0) as Hb' by (rewrite Hm; [done|unfold HDR in *; lia..]).
  destruct Hcase as [(Heq & Hsz & Hlk)|(Hlt & Hsz & Hna & Hlk)].
  - exists (l0 ++ (a1, n1 + n') :: l2'). split_and!.
    + apply (inv_rebuild base s l0 ((a1, n1) :: l2) al a n a1 m'); try done.
      * right. exists n1. set_solver.
      * rewrite map_app. by apply linked_app.
      * constructor; [done|by eapply joined_Forall].
      * apply asc_app_iff. split; [done|]. cbn in Hend |- *. split; [tauto|].
        by replace (a1 + HDR * (n1 + n')) with (a + HDR * n') by (unfold HDR in *; lia).
      * constructor; [|by eapply joined_Forall]. destruct Hfa1 as (? & ? & ?), Hin' as (? & ? & ?).
        unfold in_heap, HDR in *. cbn in *. lia.
      * intros y Hy [Hy1 Hy2]%Forall_cons Hya. constructor; [|by eapply joined_Forall].
        apply apart_merge; [done..|]. rewrite Heq. by eapply joined_apart.
      * rewrite map_app. set_solver.
    + apply joined_length in Hj. rewrite !length_app. cbn. lia.
    + exists (a1, n1 + n'). split; [set_solver|cbn; lia].
  - exists (l0 ++ (a1, n1) :: (a, n') :: l2'). split_and!.
    + apply (inv_rebuild base s l0 ((a1, n1) :: l2) al a n a1 m'); try done.
      * right. exists n1. set_solver.
      * rewrite map_app. by apply linked_app.
      * repeat constructor; [done|done|by eapply joined_Forall].
      * apply asc_app_iff. split; [done|]. cbn in Hend |- *. split_and!; [tauto|done|done].
      * repeat constructor; [apply Hfa1..|apply Hin'|apply Hin'|apply Hin'|by eapply joined_Forall].
      * intros y Hy [Hy1 Hy2]%Forall_cons Hya. constructor; [done|]. constructor; [by eapply joined_apart|by eapply joined_Forall].
      * rewrite map_app. set_solver.
    + apply joined_length in Hj. rewrite !length_app. cbn. lia.
    + exists (a, n'). split; [set_solver|cbn; lia].
Qed.

Lemma free_wp base s bs al a n fuel : inv base s bs (<[a := n]> al) -> al !! a = None -> (length bs < fuel)%nat ->
  wp (free fuel (a + HDR)) s (fun _ s' => freed base s bs al n s').
Proof.
  intros Hinv Ha Hf. pose proof Hinv as [_ _ _ Hasc _ Hfr Hlv Hap _ _].
  destruct (Hlv a n (lookup_insert_eq _ _ _)) as [_ (_ & Hn & _)].
  destruct (split_at base bs a n Hasc (in_heap_pos _ _ _ Hfr) Hn (Hap a n (lookup_insert_eq _ _ _))) as (l1 & l2 & -> & Hl1 & Hl2).
  destruct l1 as [|[a1 n1] l0 _] using rev_ind; [by apply free_wp_first|].
  rewrite <- app_assoc in *. by apply free_wp_snoc.
Qed.

(** ** Asking the kernel for memory *)

Lemma inv_freep_pos base s bs al : inv base s bs al -> 0 < um_freep s.
Proof.
  intros [_ _ _ _ Hf Hfr _ _ _ (? & _)]. apply elem_of_cons in Hf as [->|(x & -> & Hx)%list_elem_of_fmap]; [done|].
  rewrite Forall_forall in Hfr. destruct (Hfr _ Hx) as (? & _). unfold HDR in *. lia.
Qed.

(** New memory is a block in use until it is freed. *)
Lemma inv_grow base s bs al n : inv base s bs al -> 0 < n -> um_brk s + HDR * n <= um_lim s ->
  inv base (mkum (set_word (um_mem s) (um_brk s + 4) n) (um_freep s) (um_brk s + HDR * n) (um_lim s)) bs
    (<[um_brk s := n]> al) /\ al !! um_brk s = None.
Proof.
  intros [Hl Hs Hb Hasc Hfp Hfr Hlv Hap Hap2 (Hb0 & Hbrk & Hlim)] Hn Hle.
  assert (forall a k, al !! a = Some k -> a + HDR * k <= um_brk s /\ 0 < k) as Hlt.
  { intros a k Hk. destruct (Hlv a k Hk) as [_ (_ & ? & ?)]. done. }
  assert (al !! um_brk s = None) as Hnone.
  { destruct (al !! um_brk s) as [k|] eqn:E; [|done]. apply Hlt in E. unfold HDR in *. lia. }
  assert (forall brk, um_brk s <= brk -> Forall (in_heap base brk) bs) as Hfr'.
  { intros brk ?. eapply Forall_impl; [exact Hfr|]. intros x (? & ? & ?). unfold in_heap. lia. }
  assert (forall x, x ∈ bs -> base + HDR <= x.1 /\ 0 < x.2 /\ x.1 + HDR * x.2 <= um_brk s) as Hin.
  { intros x Hx. rewrite Forall_forall in Hfr. by apply Hfr. }
  unfold HDR in *. split; [constructor; cbn [um_mem um_freep um_brk um_lim]|done].
  - eapply linked_frame; [|exact Hl]. intros w [->|(x & -> & Hx)%list_elem_of_fmap]%elem_of_cons;
      apply set_word_ne; [lia|]. apply Hin in Hx. lia.
  - apply Forall_forall. intros x Hx. rewrite Forall_forall in Hs. rewrite set_word_ne; [by apply Hs|]. apply Hin in Hx. lia.
  - rewrite set_word_ne; [done|lia].
  - done.
  - done.
  - apply Hfr'. unfold HDR. lia.
  - apply map_Forall_insert_2; [split; [by rewrite set_word_same|unfold in_heap, HDR; cbn; lia]|].
    intros a k Hk. destruct (Hlv a k Hk) as [Hsz (? & ? & ?)]. cbn in *. unfold HDR in *.
    rewrite set_word_ne by lia. split; [done|]. unfold in_heap, HDR. cbn. lia.
  - apply map_Forall_insert_2; [|exact Hap]. apply Forall_forall. intros x Hx%Hin. right. cbn. unfold HDR. lia.
  - intros a k a' k' Hk Hk' Hne. destruct (decide (a = um_brk s)) as [->|], (decide (a' = um_brk s)) as [->|]; [done|..].
    + rewrite lookup_insert_ne in Hk' by done. apply Hlt in Hk'. right. cbn. unfold HDR. lia.
    + rewrite lookup_insert_ne in Hk by done. apply Hlt in Hk. left. cbn. unfold HDR. lia.
    + rewrite lookup_insert_ne in Hk, Hk' by done. by eapply Hap2.
  - unfold HDR. lia.
Qed.

Lemma morecore_wp base s bs al nu fuel : inv base s bs al -> 0 < nu -> nu * HDR < 2 ^ 31 -> (length bs < fuel)%nat ->
  wp (morecore fuel nu) s (fun r s' => r = 0 /\ s' = s \/ r = um_freep s' /\ 0 < r /\ um_lim s' = um_lim s /\
    exists bs', inv base s' bs' al /\ (length bs' <= S (length bs))%nat /\ exists x, x ∈ bs' /\ nu <= x.2).
Proof.
  intros Hinv Hnu Hlt Hf. unfold morecore. set (k := if nu <? 4096 then 4096 else nu).
  assert (nu <= k /\ 0 < k /\ k * HDR < 2 ^ 31) as (Hk1 & Hk2 & Hk3).
  { subst k. destruct (Z.ltb_spec nu 4096); unfold HDR in *; lia. }
  rewrite s32_small by (unfold HDR in *; lia).
  pose proof (i_bounds _ _ _ _ Hinv) as (Hb0 & Hbrk & Hlim).
  unfold sbrk. do 3 wp_step. cbn [id].
  destruct (Z.ltb_spec (um_lim s) (um_brk s + k * HDR)); [wp_step; apply wp_ret; by left|].
  do 3 wp_step. rewrite (proj2 (Z.eqb_neq _ _)) by (change (u32 (-1)) with 4294967295; unfold HDR in *; lia).
  unfold set_size. do 3 wp_step. cbn. rewrite (hdr_add_small _ 1) by (unfold HDR in *; lia).
  destruct (inv_grow _ _ _ _ k Hinv Hk2) as [Hinv1 Hnone]; [unfold HDR in *; lia|].
  replace (um_brk s + HDR * k) with (um_brk s + k * HDR) in Hinv1 by lia. rewrite (Z.mul_1_r HDR).
  eapply wp_mono; [eapply free_wp; [exact Hinv1|exact Hnone|done]|].
  intros [] s' (Hb' & Hl' & bs' & Hinv' & Hlen & x & Hx & Hxk). right.
  split_and!; [done|by eapply inv_freep_pos|exact Hl'|]. exists bs'. split_and!; [done..|]. exists x. split; [done|lia].
Qed.

End Umalloc.
