(* ===== verification/UmallocSpec.v ===== *)
(** * malloc is correct (umalloc.c)

    The loop of [malloc] visits the headers of the free list once around,
    starting behind [freep]; the block it takes is a free block or the end of
    one.  Over any sequence of calls of [malloc] and [free] and of writes into
    blocks in use, the blocks in use never overlap and every call returns. *)

From S2P Require Import Prelude Umalloc.
Local Open Scope Z_scope.
Import Umalloc.

(** ** Taking a block off the list *)

(** The index after [i] in a cycle of [n]. *)
Definition nxt (n i : nat) : nat := if (S i =? n)%nat then 0%nat else S i.

Definition cycle (base : Z) (bs : list (Z * Z)) : list Z := base :: map fst bs.

Lemma length_cycle base bs : length (cycle base bs) = S (length bs).
Proof. cbn. by rewrite length_map. Qed.

Lemma cycle_lookup base bs i p : cycle base bs !! S i = Some p ->
  exists l1 n l2, bs = l1 ++ (p, n) :: l2 /\ length l1 = i.
Proof.
  unfold cycle. change (map fst bs !! i = Some p -> exists l1 n l2, bs = l1 ++ (p, n) :: l2 /\ length l1 = i).
  rewrite lookup_map. intros ([q n] & Hq & [= ->])%fmap_Some.
  exists (take i bs), n, (drop (S i) bs). apply lookup_lt_Some in Hq as Hlt.
  split; [by rewrite take_drop_middle|]. rewrite length_take. lia.
Qed.

Lemma cycle_next base bs m i p : linked m base (map fst bs) base -> cycle base bs !! i = Some p ->
  cycle base bs !! nxt (length (cycle base bs)) i = Some (m p).
Proof.
  intros Hl Hi. rewrite (linked_lookup _ _ _ _ _ _ Hl Hi). unfold nxt.
  destruct (Nat.eqb_spec (S i) (length (cycle base bs))) as [E|Hne].
  - rewrite (lookup_ge_None_2 (base :: map fst bs) (S i)); [done|]. unfold cycle in E. lia.
  - apply lookup_lt_Some in Hi. destruct (lookup_lt_is_Some_2 (cycle base bs) (S i) ltac:(lia)) as [q Hq].
    unfold cycle in *. by rewrite Hq.
Qed.

(** The header in front of a block. *)
Lemma pred_facts base s l1 p n l2 al q : inv base s (l1 ++ (p, n) :: l2) al ->
  cycle base (l1 ++ (p, n) :: l2) !! length l1 = Some q ->
  linked (um_mem s) p (map fst l2) base /\ q + HDR <= p /\ um_mem s (p + 4) = n /\ in_heap base (um_brk s) (p, n) /\
  Forall (fun x => x.1 + HDR * x.2 < p) l1 /\ Forall (fun x => p + HDR * n < x.1) l2 /\
  (q = base /\ l1 = [] \/ exists k l0, l1 = l0 ++ [(q, k)]).
Proof.
  intros [Hl Hs Hb Hasc Hfp Hfr Hlv Hap Hap2 (Hb0 & Hbrk & Hlim)] Hq.
  pose proof (in_heap_pos _ _ _ Hfr) as Hpos.
  apply Forall_app in Hs as [_ [Hsp _]%Forall_cons], Hfr as [Hfr1 [Hfp1 Hfr2]%Forall_cons], Hpos as [Hpos1 [Hpos2 Hpos3]%Forall_cons].
  rewrite map_app in Hl. apply linked_app in Hl as [_ Hl]. destruct (asc_app _ _ _ _ _ Hasc Hpos1) as (_ & Hbp & Hlt & Ha2).
  split_and!; [done| |done|done|done| |].
  - destruct l1 as [|[q' k] l0 _] using rev_ind; [cbn in Hq; simplify_eq; by destruct Hfp1 as (? & _)|].
    apply Forall_app in Hlt as [_ [Hlt _]%Forall_cons], Hpos1 as [_ [Hk _]%Forall_cons]. cbn in Hlt, Hk.
    unfold cycle in Hq. rewrite length_app, Nat.add_1_r, <- app_assoc, map_app in Hq.
    change ((map fst l0 ++ q' :: p :: map fst l2) !! length l0 = Some q) in Hq.
    rewrite list_lookup_middle in Hq by (by rewrite length_map). simplify_eq. unfold HDR in *. lia.
  - destruct (end_of_le _ _ Ha2 Hpos3) as [_ H]. eapply Forall_impl; [exact H|]. cbn. tauto.
  - destruct l1 as [|[q' k] l0 _] using rev_ind; [left; cbn in Hq; by simplify_eq|right].
    unfold cycle in Hq. rewrite length_app, Nat.add_1_r, <- app_assoc, map_app in Hq.
    change ((map fst l0 ++ q' :: p :: map fst l2) !! length l0 = Some q) in Hq.
    rewrite list_lookup_middle in Hq by (by rewrite length_map). simplify_eq. by exists k, l0.
Qed.

Lemma apart_sub y p n r k : apart y (p, n) -> p <= r -> r + HDR * k <= p + HDR * n -> apart y (r, k).
Proof. unfold apart, HDR. cbn. lia. Qed.

Lemma apart_sym x y : apart x y -> apart y x.
Proof. unfold apart. tauto. Qed.

(** The invariant after [malloc] took the block [(r, k)] out of the free block
    [(p, n)]. *)
Lemma inv_take base s bs al bs' m' q p n r k :
  inv base s bs al -> (p, n) ∈ bs -> q ∈ base :: map fst bs -> p <= r -> r + HDR * k <= p + HDR * n -> 0 < k ->
  (forall w, w <> q -> w <> p + 4 -> w <> r + 4 -> m' w = um_mem s w) -> m' (r + 4) = k ->
  linked m' base (map fst bs') base -> Forall (fun x => m' (x.1 + 4) = x.2) bs' -> asc base bs' ->
  Forall (in_heap base (um_brk s)) bs' -> (forall y, 0 < y.2 -> Forall (apart y) bs -> Forall (apart y) bs') ->
  Forall (apart (r, k)) bs' -> q ∈ base :: map fst bs' -> m' (base + 4) = 0 ->
  inv base (set_freep q (set_mem m' s)) bs' (<[r := k]> al) /\ al !! r = None.
Proof.
  intros [Hl Hs Hb Hasc Hfp Hfr Hlv Hap Hap2 Hbd] Hp Hq Hpr Hrk Hk Hm Hmr Hl' Hs' Hasc' Hfr' Hap' Hapr Hq' Hb'.
  rewrite Forall_forall in Hfr. pose proof (Hfr _ Hp) as (Hp1 & Hp2 & Hp3). cbn in Hp1, Hp2, Hp3.
  assert (forall a j, al !! a = Some j -> apart (a, j) (p, n) /\ apart (a, j) (r, k) /\ 0 < j /\ base + HDR <= a /\
    um_mem s (a + 4) = j /\ a + HDR * j <= um_brk s /\ a + 4 <> q) as Hlive.
  { intros a j Hj. destruct (Hlv a j Hj) as [Hsz (Ha1 & Ha2 & Ha3)]. pose proof (Hap a j Hj) as Hf. rewrite Forall_forall in Hf.
    pose proof (Hf _ Hp) as Hpn. cbn in *. split_and!; [done|by eapply apart_sub|done..|].
    apply elem_of_cons in Hq as [->|(x & -> & Hx)%list_elem_of_fmap]; [unfold HDR in *; lia|].
    pose proof (Hf _ Hx) as Hax. destruct (Hfr _ Hx) as (? & ? & ?). unfold apart, HDR in *. cbn in *. lia. }
  assert (al !! r = None) as Hnone.
  { destruct (al !! r) as [j|] eqn:Hj; [|done]. apply Hlive in Hj as (_ & Hrr & ? & _). unfold apart, HDR in Hrr. cbn in Hrr. lia. }
  split; [|done]. constructor; cbn [um_mem um_freep um_brk um_lim set_freep set_mem]; try done.
  - apply map_Forall_insert_2; [split; [done|unfold in_heap; cbn; lia]|].
    intros a j Hj. destruct (Hlive a j Hj) as (Hap1 & Hap3 & ? & ? & Hsz & ? & ?). split; [|done].
    unfold apart, HDR in *. cbn in *. rewrite Hm by lia. done.
  - apply map_Forall_insert_2; [done|]. intros a j Hj. apply Hap'; [by apply Hlive in Hj as (_ & _ & ? & _)|]. by apply Hap.
  - intros a j a' j' Hj Hj' Hne. destruct (decide (a = r)) as [->|], (decide (a' = r)) as [->|]; [done|..].
    + rewrite lookup_insert_eq in Hj. rewrite lookup_insert_ne in Hj' by done. simplify_eq. apply apart_sym.
      by apply Hlive in Hj' as (_ & ? & _).
    + rewrite lookup_insert_eq in Hj'. rewrite lookup_insert_ne in Hj by done. simplify_eq. by apply Hlive in Hj as (_ & ? & _).
    + rewrite lookup_insert_ne in Hj, Hj' by done. by eapply Hap2.
Qed.

Section Take.
Context (base : Z) (s : um) (l1 l2 : list (Z * Z)) (p n : Z) (al : gmap Z Z) (q : Z).
Context (Hinv : inv base s (l1 ++ (p, n) :: l2) al).
Context (Hq : cycle base (l1 ++ (p, n) :: l2) !! length l1 = Some q).

Lemma pred_in l : q ∈ base :: map fst (l1 ++ l).
Proof.
  destruct (pred_facts _ _ _ _ _ _ _ _ Hinv Hq) as (_ & _ & _ & _ & _ & _ & [[-> _]|(k & l0 & ->)]); [set_solver|].
  rewrite map_app, map_app. cbn. set_solver.
Qed.

Lemma inv_take_all :
  inv base (set_freep q (set_mem (set_word (um_mem s) q (um_mem s p)) s)) (l1 ++ l2) (<[p := n]> al) /\ al !! p = None.
Proof.
  destruct (pred_facts _ _ _ _ _ _ _ _ Hinv Hq) as (Hlp & Hqp & Hsp & Hin & Hl1 & Hl2 & Hpred).
  pose proof Hin as (Hp1 & Hp2 & Hp3). cbn in Hp1, Hp2, Hp3.
  pose proof Hinv as [Hl Hs Hb Hasc Hfp Hfr Hlv Hap Hap2 (Hb0 & Hbrk & Hlim)].
  apply Forall_app in Hs as [Hs1 [_ Hs2]%Forall_cons], Hfr as [Hfr1 [_ Hfr2]%Forall_cons].
  pose proof (in_heap_pos _ _ _ Hfr1) as Hpos1. rewrite map_app in Hl. apply linked_app in Hl as [Hl0 _].
  destruct (asc_app _ _ _ _ _ Hasc Hpos1) as (Ha1 & _ & _ & Ha2).
  assert (forall x, x ∈ l1 ++ l2 -> x.1 + 4 <> q) as Hxq.
  { intros x [Hx|Hx]%elem_of_app; rewrite Forall_forall in Hl1, Hl2.
    - destruct Hpred as [[-> ->]|(k & l0 & ->)]; [set_solver|].
      apply elem_of_app in Hx as [Hx|Hx%list_elem_of_singleton]; [|subst x; cbn; lia].
      apply asc_app in Ha1 as (_ & _ & Hlt & _); [|by apply Forall_app in Hpos1 as [? _]].
      rewrite Forall_forall in Hlt, Hpos1. specialize (Hlt x Hx). specialize (Hpos1 x ltac:(set_solver)). unfold HDR in *. lia.
    - specialize (Hl2 x Hx). unfold HDR in *. lia. }
  eapply (inv_take base s _ al _ _ q p n p n); [exact Hinv|set_solver|apply pred_in|lia|lia|done|..].
  - intros w ???. by apply set_word_ne.
  - rewrite set_word_ne; [done|unfold HDR in *; lia].
  - rewrite map_app. rewrite (linked_first _ _ _ _ Hlp).
    assert (forall w, w ∈ map fst l2 -> w <> q) as Hne2.
    { intros w (x & -> & Hx)%list_elem_of_fmap. rewrite Forall_forall in Hl2. specialize (Hl2 x Hx). unfold HDR in *. lia. }
    assert (linked (set_word (um_mem s) q (first base l2)) q (map fst l2) base) as Hlq.
    { destruct l2 as [|[a2 n2] l2']; cbn in Hlp |- *; [apply set_word_same|]. rewrite set_word_same. split; [done|].
      destruct Hlp as [_ Hlp]. eapply linked_frame; [|exact Hlp]. intros w Hw. apply set_word_ne, Hne2. cbn. set_solver. }
    destruct Hpred as [[-> ->]|(k & l0 & ->)]; [exact Hlq|].
    rewrite map_app in Hl0 |- *. cbn [map app] in *. rewrite <- app_assoc. cbn [app]. apply linked_app. split; [|exact Hlq].
    apply linked_app in Hl0 as [Hl0 _]. eapply linked_frame; [|exact Hl0]. intros w Hw. apply set_word_ne.
    apply asc_app in Ha1 as (_ & Hbq & Hlt & _); [|by apply Forall_app in Hpos1 as [? _]].
    apply elem_of_cons in Hw as [->|(x & -> & Hx)%list_elem_of_fmap]; [cbn in Hbq; lia|].
    rewrite Forall_forall in Hlt, Hpos1. specialize (Hlt x Hx). specialize (Hpos1 x ltac:(set_solver)). unfold HDR in *. lia.
  - apply Forall_forall. intros x Hx. rewrite set_word_ne by by apply Hxq.
    rewrite Forall_forall in Hs1, Hs2. apply elem_of_app in Hx as [?|?]; auto.
  - apply asc_app_iff. split; [done|]. apply asc_app_iff in Hasc as [_ [Hx Hasc]].
    eapply asc_weaken; [|exact Hasc]. unfold HDR in *. lia.
  - by apply Forall_app.
  - intros y _ [? [_ ?]%Forall_cons]%Forall_app. by apply Forall_app.
  - apply Forall_app. split.
    + eapply Forall_impl; [exact Hl1|]. intros x Hx. right. cbn in *. lia.
    + eapply Forall_impl; [exact Hl2|]. intros x Hx. left. cbn in *. lia.
  - apply pred_in.
  - rewrite set_word_ne; [done|]. destruct Hpred as [[-> _]|(k & l0 & ->)]; [lia|].
    apply Forall_app in Hfr1 as [_ [(? & _) _]%Forall_cons]. cbn in *. unfold HDR in *. lia.
Qed.

Lemma inv_take_end k (r := p + HDR * (n - k)) : 0 < k < n ->
  inv base (set_freep q (set_mem (set_word (set_word (um_mem s) (p + 4) (n - k)) (r + 4) k) s))
    (l1 ++ (p, n - k) :: l2) (<[r := k]> al) /\ al !! r = None.
Proof.
  intros Hk. destruct (pred_facts _ _ _ _ _ _ _ _ Hinv Hq) as (Hlp & Hqp & Hsp & Hin & Hl1 & Hl2 & Hpred).
  pose proof Hin as (Hp1 & Hp2 & Hp3). cbn in Hp1, Hp2, Hp3.
  pose proof Hinv as [Hl Hs Hb Hasc Hfp Hfr Hlv Hap Hap2 (Hb0 & Hbrk & Hlim)].
  apply Forall_app in Hs as [Hs1 [_ Hs2]%Forall_cons], Hfr as [Hfr1 [_ Hfr2]%Forall_cons].
  pose proof (in_heap_pos _ _ _ Hfr1) as Hpos1.
  assert (forall x, x ∈ l1 ++ l2 -> x.1 <> p + 4 /\ x.1 <> r + 4 /\ x.1 <> p /\ x.1 <> r) as Hx.
  { subst r. intros x [Hx|Hx]%elem_of_app; rewrite Forall_forall in Hl1, Hl2, Hpos1; unfold HDR in *.
    - specialize (Hl1 x Hx). specialize (Hpos1 x Hx). cbn in *. lia.
    - specialize (Hl2 x Hx). lia. }
  eapply (inv_take base s _ al _ _ q p n r k); [exact Hinv|set_solver|apply pred_in|subst r; unfold HDR in *; lia|subst r; unfold HDR in *; lia|lia|..].
  - intros w ???. by rewrite !set_word_ne.
  - apply set_word_same.
  - rewrite map_app in Hl |- *. eapply linked_frame; [|exact Hl]. intros w Hw.
    assert (w = base \/ w = p \/ exists x, x ∈ l1 ++ l2 /\ w = x.1) as [->|[->|(x & Hxl & ->)]].
    { apply elem_of_cons in Hw as [->|Hw]; [by left|right]. rewrite <- map_app in Hw.
      apply list_elem_of_fmap in Hw as (x & -> & Hw). apply elem_of_app in Hw as [Hw|[->|Hw]%elem_of_cons]; [|by left|];
        right; exists x; (split; [apply elem_of_app; auto|done]). }
    all: rewrite !set_word_ne; try done; try (by apply Hx); subst r; unfold HDR in *; lia.
  - apply Forall_app. split; [|constructor].
    + apply Forall_forall. intros x Hx1. destruct (Hx x ltac:(set_solver)) as (_ & _ & ? & ?).
      rewrite !set_word_ne by lia. rewrite Forall_forall in Hs1. by apply Hs1.
    + cbn. rewrite set_word_ne by (subst r; unfold HDR in *; lia). apply set_word_same.
    + apply Forall_forall. intros x Hx1. destruct (Hx x ltac:(set_solver)) as (_ & _ & ? & ?).
      rewrite !set_word_ne by lia. rewrite Forall_forall in Hs2. by apply Hs2.
  - apply asc_app_iff in Hasc as [? [? Hasc]]. apply asc_app_iff. split; [done|]. split; [done|].
    eapply asc_weaken; [|exact Hasc]. unfold HDR in *. lia.
  - apply Forall_app. split; [done|]. constructor; [|done]. unfold in_heap, HDR in *. cbn. lia.
  - intros y Hy [? [? ?]%Forall_cons]%Forall_app. apply Forall_app. split; [done|]. constructor; [|done].
    eapply apart_sub; [done|lia|unfold HDR; lia].
  - apply Forall_app. subst r. unfold HDR in *. split; [|constructor].
    + eapply Forall_impl; [exact Hl1|]. intros x Hx1. right. unfold HDR. cbn in *. lia.
    + right. unfold HDR. cbn. lia.
    + eapply Forall_impl; [exact Hl2|]. intros x Hx1. left. unfold HDR. cbn in *. lia.
  - apply pred_in.
  - rewrite !set_word_ne; [done|subst r; unfold HDR in *; lia..].
Qed.
End Take.

(** ** The loop *)

(** A block [a] of [k] units was taken. *)
Definition got (base : Z) (al : gmap Z Z) (k : Z) (s : um) (r : Z) (s' : um) : Prop :=
  um_lim s' = um_lim s /\ exists a bs', r = a + HDR /\ al !! a = None /\ inv base s' bs' (<[a := k]> al).

Lemma take_wp base s bs al i p prev k : inv base s bs al -> cycle base bs !! S i = Some p ->
  cycle base bs !! i = Some prev -> 0 < k <= um_mem s (p + 4) ->
  wp (p ← (if um_mem s (p + 4) =? k
           then next ← ptr p; set_ptr prev next;; mret p
           else set_size p (u32 (um_mem s (p + 4) - k));;
                psize ← size p;
                let p := hdr_add p psize in
                set_size p k;;
                mret p);
      modify (set_freep prev);;
      mret (hdr_add p 1)) s (got base al k s).
Proof.
  intros Hinv (l1 & n & l2 & -> & <-)%cycle_lookup Hprev Hk.
  destruct (pred_facts _ _ _ _ _ _ _ _ Hinv Hprev) as (_ & _ & Hsp & (Hp1 & Hp2 & Hp3) & _).
  cbn in Hp1, Hp2, Hp3. pose proof (i_bounds _ _ _ _ Hinv) as (Hb0 & Hbrk & Hlim). rewrite Hsp in *. wp_step.
  destruct (Z.eqb_spec n k) as [->|Hne].
  - destruct (inv_take_all _ _ _ _ _ _ _ _ Hinv Hprev) as [Hinv' Hnone].
    unfold ptr, set_ptr. wp_steps. split; [done|]. eexists p, _. split_and!; [|exact Hnone|exact Hinv'].
    rewrite hdr_add_small; unfold HDR in *; lia.
  - destruct (inv_take_end _ _ _ _ _ _ _ _ Hinv Hprev k ltac:(lia)) as [Hinv' Hnone].
    rewrite u32_small by (unfold HDR in *; lia).
    unfold size, set_size. wp_steps. cbv zeta. wp_steps. cbn [um_mem set_mem]. rewrite set_word_same, !(hdr_add_small p) by (unfold HDR in *; lia).
    split; [done|]. eexists _, _. split_and!; [|exact Hnone|exact Hinv'].
    rewrite hdr_add_small; unfold HDR in *; lia.
Qed.

Lemma dist_nxt n i k : (i < n)%nat -> (k < n)%nat -> i <> k -> dist n (nxt n i) k = (dist n i k - 1)%nat /\ (0 < dist n i k)%nat.
Proof.
  intros. unfold dist, nxt. destruct (Nat.eqb_spec (S i) n), (Nat.leb_spec i k); 
    repeat match goal with |- context [(?a <=? ?b)%nat] => destruct (Nat.leb_spec a b) end; lia.
Qed.

Lemma dist_lt n i k : (i < n)%nat -> (k < n)%nat -> (dist n i k < n)%nat.
Proof. intros. unfold dist. destruct (Nat.leb_spec i k); lia. Qed.

Lemma cycle_nodup base s bs al i j p : inv base s bs al -> cycle base bs !! i = Some p -> cycle base bs !! j = Some p -> i = j.
Proof.
  intros [_ _ _ Hasc _ Hfr _ _ _ _] Hi Hj. apply in_heap_pos in Hfr.
  destruct (Nat.lt_trichotomy i j) as [?|[?|?]]; [|done|].
  - pose proof (asc_lookup base bs i j p p Hasc Hfr Hi Hj). lia.
  - pose proof (asc_lookup base bs j i p p Hasc Hfr Hj Hi). lia.
Qed.

Lemma size_base base s bs al p i k : inv base s bs al -> cycle base bs !! i = Some p -> 0 < k <= um_mem s (p + 4) -> exists i', i = S i'.
Proof.
  intros Hinv Hi Hk. destruct i; [|by exists i]. cbn in Hi. simplify_eq. rewrite (i_base _ _ _ _ Hinv) in Hk. lia.
Qed.

Lemma wp_size p s (Q : Z -> um -> Prop) : Q (um_mem s (p + 4)) s -> wp (size p) s Q.
Proof. done. Qed.
Lemma wp_ptr p s (Q : Z -> um -> Prop) : Q (um_mem s p) s -> wp (ptr p) s Q.
Proof. done. Qed.

Section Loop.
Context (base : Z) (s : um) (bs : list (Z * Z)) (al : gmap Z Z) (k : Z) (f : nat) (fuel' : nat).
Context (Hinv : inv base s bs al) (Hk : 0 < k) (Hf : cycle base bs !! f = Some (um_freep s)).
Let n := length (cycle base bs).

(** [p] is the header at index [i], and [prev] the one before it. *)
Definition at_index (i : nat) (prev p : Z) : Prop :=
  cycle base bs !! i = Some p /\ forall i', i = S i' -> cycle base bs !! i' = Some prev.

Lemma at_next i p : cycle base bs !! i = Some p -> at_index (nxt n i) p (um_mem s p).
Proof.
  intros Hi. split; [apply cycle_next; [apply Hinv|done]|]. intros i' E. unfold nxt in E.
  destruct (Nat.eqb_spec (S i) n); [done|]. by simplify_eq.
Qed.

(** A big enough block at index [j], before the loop is around, is found, or
    one before it. *)
Lemma loop_found j q : cycle base bs !! j = Some q -> k <= um_mem s (q + 4) ->
  forall d i fuel prev p, dist n i j = d -> (d <= dist n i f)%nat -> (d < fuel)%nat -> at_index i prev p ->
  wp (malloc_loop fuel fuel' k prev p) s (got base al k s).
Proof.
  intros Hj Hq d. induction d as [d IH] using lt_wf_ind. intros i [|fuel] prev p Hd Hdf Hfu [Hi Hprev]; [lia|].
  cbn [malloc_loop]. wp_step. apply wp_size. destruct (Z.leb_spec k (um_mem s (p + 4))) as [Hle|Hgt].
  { destruct (size_base _ _ _ _ _ _ _ Hinv Hi (conj Hk Hle)) as [i' ->]. eapply take_wp; [exact Hinv|exact Hi|by apply Hprev|lia]. }
  assert (i < n)%nat by by eapply lookup_lt_Some. assert (j < n)%nat by by eapply lookup_lt_Some.
  assert (f < n)%nat by by eapply lookup_lt_Some.
  assert (i <> j) by (intros ->; rewrite Hi in Hj; simplify_eq; lia).
  destruct (dist_nxt n i j) as [Hn1 Hn2]; [done..|].
  assert (i <> f) as Hif. { intros ->. unfold dist in Hdf at 1. rewrite Nat.leb_refl in Hdf. lia. }
  destruct (dist_nxt n i f) as [Hn3 _]; [done..|]. do 2 wp_step.
  destruct (Z.eqb_spec p (um_freep s)) as [->|]; [by destruct Hif; eapply cycle_nodup|].
  wp_step. apply wp_ptr. eapply (IH (d - 1)%nat); [lia|by rewrite Hn1, Hd|lia|lia|by apply at_next].
Qed.

End Loop.

(** From anywhere in the list: the loop finds a block, or [morecore] is called
    after it went around, and fails or adds one. *)
Lemma loop_wp base s bs al k f fuel' : inv base s bs al -> 0 < k -> cycle base bs !! f = Some (um_freep s) ->
  k * HDR < 2 ^ 31 -> (length bs < fuel')%nat ->
  forall d i fuel prev p, dist (length (cycle base bs)) i f = d -> (d + length bs + 4 < fuel)%nat -> at_index base bs i prev p ->
  wp (malloc_loop fuel fuel' k prev p) s (fun r s' => r = 0 /\ s' = s \/ got base al k s r s').
Proof.
  intros Hinv Hk Hf Hk2 Hfu' d. set (n := length (cycle base bs)).
  induction d as [d IH] using lt_wf_ind. intros i [|fuel] prev p Hd Hfu [Hi Hprev]; [lia|].
  cbn [malloc_loop]. wp_step. apply wp_size. destruct (Z.leb_spec k (um_mem s (p + 4))) as [Hle|Hgt].
  { destruct (size_base _ _ _ _ _ _ _ Hinv Hi (conj Hk Hle)) as [i' ->].
    eapply wp_mono; [eapply take_wp; [exact Hinv|exact Hi|by apply Hprev|lia]|]. by right. }
  assert (i < n)%nat by by eapply lookup_lt_Some. assert (f < n)%nat by by eapply lookup_lt_Some.
  do 2 wp_step. destruct (Z.eqb_spec p (um_freep s)) as [->|Hne].
  2: { assert (i <> f) by (intros ->; congruence). destruct (dist_nxt n i f) as [Hn3 Hn4]; [done..|].
       wp_step. apply wp_ptr. eapply (IH (d - 1)%nat); [lia|fold n; by rewrite Hn3, Hd|lia|by eapply at_next]. }
  wp_step. eapply wp_mono; [by eapply morecore_wp|].
  intros r s1 [[-> ->]|(-> & Hr & Hlim & bs1 & Hinv1 & Hlen & x & Hx & Hkx)]; [by apply wp_ret; left|].
  rewrite (proj2 (Z.eqb_neq _ _)) by lia. wp_step. apply wp_ptr.
  pose proof (i_freep _ _ _ _ Hinv1) as [f1 Hf1]%list_elem_of_lookup.
  apply list_elem_of_lookup in Hx as [j Hj].
  assert (cycle base bs1 !! S j = Some x.1) as Hj'.
  { change (map fst bs1 !! j = Some x.1). by rewrite lookup_map, Hj. }
  set (n1 := length (cycle base bs1)). assert (n1 = S (length bs1)) as En1 by apply length_cycle.
  assert (f1 < n1)%nat by by eapply lookup_lt_Some. assert (S j < n1)%nat by by eapply lookup_lt_Some.
  assert (nxt n1 f1 < n1)%nat by (unfold nxt; destruct (Nat.eqb_spec (S f1) n1); lia).
  eapply wp_mono; [eapply (loop_found base s1 bs1 al k f1 fuel' Hinv1 Hk Hf1 (S j) x.1 Hj')|].
  - pose proof (i_sizes _ _ _ _ Hinv1) as Hs. rewrite Forall_lookup in Hs. rewrite (Hs _ _ Hj). done.
  - reflexivity.
  - fold n1. replace (dist n1 (nxt n1 f1) f1) with (n1 - 1)%nat.
    + pose proof (dist_lt n1 (nxt n1 f1) (S j)). lia.
    + unfold dist, nxt. destruct (Nat.eqb_spec (S f1) n1); [destruct (Nat.leb_spec 0 f1)|destruct (Nat.leb_spec (S f1) f1)]; lia.
  - pose proof (dist_lt n1 (nxt n1 f1) (S j)). fold n1. lia.
  - by eapply at_next.
  - intros r s' [Hl Hg]. right. split; [congruence|done].
Qed.

(** ** malloc *)

Lemma length_free base s bs al : inv base s bs al -> HDR * Z.of_nat (length bs) <= um_brk s - base.
Proof.
  intros [_ _ _ Hasc _ Hfr _ _ _ (_ & Hbrk & _)]. pose proof (in_heap_pos _ _ _ Hfr) as Hpos.
  assert (forall l lo, asc lo l -> Forall (fun x => 0 < x.2) l -> HDR * Z.of_nat (length l) <= end_of lo l - lo) as Hlen.
  { clear. induction l as [|[a n] l IH]; intros lo; cbn [length end_of asc]; [lia|].
    intros [? Ha] [Hn Hp]%Forall_cons. cbn in Hn. specialize (IH _ Ha Hp). unfold HDR in *. lia. }
  pose proof (Hlen _ _ Hasc Hpos). enough (end_of base bs <= um_brk s) by lia.
  destruct bs as [|[a n] l _] using rev_ind; [cbn; unfold HDR in *; lia|].
  rewrite end_of_app. apply Forall_app in Hfr as [_ [(_ & _ & ?) _]%Forall_cons]. done.
Qed.

(** Enough rounds for every loop: a free block has at least one header's worth
    of the memory below the limit. *)
Definition enough (s : um) : nat := Z.to_nat (um_lim s) + 8.

Lemma enough_for base s bs al : inv base s bs al -> (2 * length bs + 6 < enough s)%nat.
Proof.
  intros Hinv. pose proof (length_free _ _ _ _ Hinv). pose proof (i_bounds _ _ _ _ Hinv) as (? & ? & ?).
  unfold enough, HDR in *. lia.
Qed.

(** A program that has not called [malloc] yet. *)
Definition fresh (base : Z) (s : um) : Prop :=
  um_freep s = 0 /\ 0 < base /\ base + HDR <= um_brk s <= um_lim s /\ um_lim s < 2 ^ 31.

Definition heap_inv (base : Z) (s : um) (al : gmap Z Z) : Prop :=
  fresh base s /\ al = ∅ \/ exists bs, inv base s bs al.

Lemma units_bounds nbytes : 0 <= nbytes < 2 ^ 31 - 64 -> 0 < units nbytes /\ units nbytes * HDR < 2 ^ 31 /\
  nbytes <= (units nbytes - 1) * HDR.
Proof.
  intros H. unfold units, HDR. rewrite u32_small by lia.
  pose proof (Z.div_mod (nbytes + 8 - 1) 8 ltac:(lia)). pose proof (Z.mod_pos_bound (nbytes + 8 - 1) 8 ltac:(lia)). lia.
Qed.

Lemma malloc_wp base s al nbytes : heap_inv base s al -> 0 <= nbytes < 2 ^ 31 - 64 ->
  wp (malloc (enough s) base nbytes) s (fun r s' =>
    r = 0 /\ heap_inv base s' al /\ um_lim s' = um_lim s \/ got base al (units nbytes) s r s').
Proof.
  intros Hh Hn. destruct (units_bounds nbytes Hn) as (Hu1 & Hu2 & _). unfold malloc. do 3 wp_step.
  assert (forall s0 bs, inv base s0 bs al -> um_lim s0 = um_lim s ->
    wp (p ← ptr (um_freep s0); malloc_loop (enough s) (enough s) (units nbytes) (um_freep s0) p) s0 (fun r s' =>
    r = 0 /\ heap_inv base s' al /\ um_lim s' = um_lim s \/ got base al (units nbytes) s r s')) as Hgo.
  { intros s0 bs Hinv Hlim. wp_step. apply wp_ptr.
    pose proof (enough_for _ _ _ _ Hinv) as He. unfold enough in He. rewrite Hlim in He. fold (enough s) in He.
    pose proof (i_freep _ _ _ _ Hinv) as [f Hf]%list_elem_of_lookup.
    assert (f < length (cycle base bs))%nat as Hfl by by eapply lookup_lt_Some. rewrite length_cycle in Hfl.
    eapply wp_mono; [eapply (loop_wp base s0 bs al _ f (enough s) Hinv Hu1 Hf Hu2 ltac:(lia) _
      (nxt (length (cycle base bs)) f))|].
    - reflexivity.
    - assert (nxt (length (cycle base bs)) f < length (cycle base bs))%nat.
      { unfold nxt. rewrite length_cycle. destruct (Nat.eqb_spec (S f) (S (length bs))); lia. }
      pose proof (dist_lt (length (cycle base bs)) (nxt (length (cycle base bs)) f) f ltac:(done)
        ltac:(rewrite length_cycle; done)) as Hd. rewrite !length_cycle in Hd |- *. lia.
    - by eapply at_next.
    - intros r s' [[-> ->]|[Hl Hg]]; [left|right; split; [congruence|done]].
      split_and!; [done|right; by exists bs|done]. }
  destruct Hh as [[(Hf0 & Hb0 & Hbrk & Hlim) ->]|[bs Hinv]].
  - rewrite Hf0. cbn [Z.eqb]. unfold set_ptr, set_size. wp_steps.
    set (s0 := set_mem _ (set_freep _ _)). change base with (um_freep s0) at 2 3.
    apply (Hgo s0 []); [|done]. subst s0. constructor; cbn [um_mem um_freep um_brk um_lim set_mem set_freep map linked]; try done.
    + rewrite set_word_ne by lia. apply set_word_same.
    + apply set_word_same.
    + set_solver.
  - pose proof (inv_freep_pos _ _ _ _ Hinv). rewrite (proj2 (Z.eqb_neq _ _)) by lia. wp_step.
    by eapply Hgo.
Qed.

(** ** A program that uses the allocator *)

(** [malloc] and [free] calls, and writes of words inside the blocks that
    [malloc] returned. *)
Inductive uses (base : Z) : um * gmap Z Z -> um * gmap Z Z -> Prop :=
  | use_malloc s al nbytes r s' : 0 <= nbytes < 2 ^ 31 - 64 -> malloc (enough s) base nbytes s = Ret r s' -> r <> 0 ->
      uses base (s, al) (s', <[r - HDR := units nbytes]> al)
  | use_malloc_fails s al nbytes s' : 0 <= nbytes < 2 ^ 31 - 64 -> malloc (enough s) base nbytes s = Ret 0 s' ->
      uses base (s, al) (s', al)
  | use_free s al a n s' : al !! a = Some n -> free (enough s) (a + HDR) s = Ret tt s' ->
      uses base (s, al) (s', delete a al)
  | use_write s al a n w v : al !! a = Some n -> a + HDR <= w -> w + 4 <= a + HDR * n ->
      uses base (s, al) (set_mem (set_word (um_mem s) w v) s, al).

Lemma inv_write base s bs al a n w v : inv base s bs al -> al !! a = Some n -> a + HDR <= w -> w + 4 <= a + HDR * n ->
  inv base (set_mem (set_word (um_mem s) w v) s) bs al.
Proof.
  intros [Hl Hs Hb Hasc Hfp Hfr Hlv Hap Hap2 Hbd] Ha Hw1 Hw2.
  destruct (Hlv a n Ha) as [_ (Ha1 & Ha2 & _)]. pose proof (Hap a n Ha) as Hf. cbn in Ha1, Ha2.
  rewrite Forall_forall in Hf, Hfr.
  assert (forall x, x ∈ bs -> x.1 <> w /\ x.1 + 4 <> w) as Hx.
  { intros x Hx. pose proof (Hf x Hx) as Hax. destruct (Hfr x Hx) as (? & ? & ?). unfold apart, HDR in *. cbn in *. lia. }
  constructor; cbn [um_mem um_freep um_brk um_lim set_mem]; try done.
  - eapply linked_frame; [|exact Hl]. intros b [->|(x & -> & Hxb)%list_elem_of_fmap]%elem_of_cons;
      apply set_word_ne; [unfold HDR in *; lia|by apply Hx].
  - apply Forall_forall. intros x Hxb. rewrite set_word_ne by by apply Hx. rewrite Forall_forall in Hs. by apply Hs.
  - rewrite set_word_ne; [done|unfold HDR in *; lia].
  - by apply Forall_forall.
  - intros b k Hbk. destruct (Hlv b k Hbk) as [Hsz (? & ? & ?)]. cbn in *. split; [|done].
    rewrite set_word_ne; [done|]. destruct (decide (b = a)) as [->|Hne]; [unfold HDR in *; lia|].
    pose proof (Hap2 _ _ _ _ Hbk Ha Hne) as Hba. unfold apart, HDR in *. cbn in *. lia.
Qed.

Lemma free_returns base s al a n : heap_inv base s al -> al !! a = Some n ->
  wp (free (enough s) (a + HDR)) s (fun _ s' => heap_inv base s' (delete a al)).
Proof.
  intros [[_ ->]|[bs Hinv]] Ha; [done|]. rewrite <- (insert_delete_id al a n Ha) in Hinv.
  pose proof (enough_for _ _ _ _ Hinv). eapply wp_mono; [eapply free_wp; [exact Hinv|apply lookup_delete_eq|lia]|].
  intros [] s' (_ & _ & bs' & Hinv' & _). right. by exists bs'.
Qed.

Lemma uses_inv base x y : uses base x y -> heap_inv base x.1 x.2 -> heap_inv base y.1 y.2.
Proof.
  intros [s al nbytes r s' Hn Hr Hr0|s al nbytes s' Hn Hr|s al a n s' Ha Hr|s al a n w v Ha Hw1 Hw2] Hh; cbn in *.
  - pose proof (wp_run _ _ _ _ _ Hr (malloc_wp base s al nbytes Hh Hn)) as [[? _]|(_ & a & bs & -> & _ & Hinv)]; [done|].
    right. exists bs. by replace (a + HDR - HDR) with a by lia.
  - pose proof (wp_run _ _ _ _ _ Hr (malloc_wp base s al nbytes Hh Hn)) as [(_ & ? & _)|(_ & a & bs & Ha & _ & Hinv)]; [done|].
    pose proof (i_live _ _ _ _ Hinv a _ (lookup_insert_eq _ _ _)) as [_ (? & _)].
    pose proof (i_bounds _ _ _ _ Hinv) as (? & _). cbn in *. unfold HDR in *. lia.
  - exact (wp_run _ _ _ _ _ Hr (free_returns base s al a n Hh Ha)).
  - destruct Hh as [[_ ->]|[bs Hinv]]; [done|]. right. exists bs. by eapply inv_write.
Qed.

(** C23: Whatever a program does with [malloc], [free] and the blocks it got, the
    blocks in use lie in its memory and do not overlap, each call of [malloc]
    and [free] returns, and a block [malloc] returns is at least as big as
    asked for and overlaps no block in use.  A request is below 2^31 - 64 bytes. *)
Theorem allocator_safe base s0 s al : fresh base s0 -> rtc (uses base) (s0, ∅) (s, al) ->
  (forall a n a' n', al !! a = Some n -> al !! a' = Some n' -> a <> a' -> apart (a, n) (a', n')) /\
  (forall a n, al !! a = Some n -> in_heap base (um_brk s) (a, n)) /\
  (forall a n, al !! a = Some n -> exists s', free (enough s) (a + HDR) s = Ret tt s') /\
  (forall nbytes, 0 <= nbytes < 2 ^ 31 - 64 -> exists r s', malloc (enough s) base nbytes s = Ret r s' /\
    (r <> 0 -> nbytes <= (units nbytes - 1) * HDR /\ in_heap base (um_brk s') (r - HDR, units nbytes) /\
      forall a n, al !! a = Some n -> apart (a, n) (r - HDR, units nbytes))).
Proof.
  intros Hfresh Hsteps.
  assert (heap_inv base s al) as Hh.
  { change (heap_inv base (s, al).1 (s, al).2). assert (heap_inv base (s0, ∅ : gmap Z Z).1 (s0, ∅ : gmap Z Z).2) as H0 by by left.
    revert H0. induction Hsteps; eauto using uses_inv. }
  split_and!.
  - destruct Hh as [[_ ->]|[bs Hinv]]; [intros ???? Ha; done|apply Hinv].
  - intros a n Ha. destruct Hh as [[_ ->]|[bs Hinv]]; [done|]. by apply (i_live _ _ _ _ Hinv) in Ha as [_ ?].
  - intros a n Ha. destruct (wp_elim _ _ _ (free_returns base s al a n Hh Ha)) as ([] & s' & ? & _). eauto.
  - intros nbytes Hn. destruct (wp_elim _ _ _ (malloc_wp base s al nbytes Hh Hn)) as (r & s' & Hr & Hpost).
    exists r, s'. split; [done|]. intros Hr0. destruct Hpost as [[? _]|(_ & a & bs & -> & Hnone & Hinv)]; [done|].
    replace (a + HDR - HDR) with a by lia. split_and!; [by apply units_bounds| |].
    + by pose proof (i_live _ _ _ _ Hinv a _ (lookup_insert_eq _ _ _)) as [_ ?].
    + intros b k Hb. assert (b <> a) by congruence.
      apply (i_apart2 _ _ _ _ Hinv b k a); [by rewrite lookup_insert_ne|apply lookup_insert_eq|done].
Qed.

(** The size computation wraps around: a request of the last seven sizes gets a
    block with a header and no bytes. *)
Lemma units_wrap nbytes : 2 ^ 32 - 7 <= nbytes < 2 ^ 32 -> units nbytes = 1.
Proof.
  intros H. unfold units, HDR, u32. replace (nbytes + 8 - 1) with (nbytes - (2 ^ 32 - 7) + 1 * 2 ^ 32) by lia.
  rewrite Z.mod_add, Z.mod_small by lia. rewrite Z.div_small by lia. done.
Qed.

(** ** An example: a block of 100 bytes, then one of 10, then the first freed *)

Definition ex_base : Z := 0x1000.
Definition ex_um : um := mkum (fun _ => 0) 0 0x3000 0x10000.
Definition run_um {A} (m : K um A) (s : um) : um := match m s with Ret _ s' => s' | _ => s end.
Definition ex_um1 : um := run_um (malloc (enough ex_um) ex_base 100) ex_um.
Definition ex_um2 : um := run_um (malloc (enough ex_um1) ex_base 10) ex_um1.
Definition ex_um3 : um := run_um (free (enough ex_um2) 0xAF98) ex_um2.

Lemma ex_uses : rtc (uses ex_base) (ex_um, ∅) (ex_um3, delete 0xAF90 (<[0xAF78 := 3]> (<[0xAF90 := 14]> ∅))).
Proof.
  eapply rtc_l; [apply (use_malloc _ _ _ 100 0xAF98 ex_um1); [lia|by vm_compute|done]|].
  eapply rtc_l; [apply (use_malloc _ _ _ 10 0xAF80 ex_um2); [lia|by vm_compute|done]|].
  eapply rtc_l; [apply (use_free _ _ _ 0xAF90 14 ex_um3); [done|by vm_compute]|].
  apply rtc_refl.
Qed.

Lemma allocator_safe_witness :
  exists r s', malloc (enough ex_um3) ex_base 64 ex_um3 = Ret r s' /\ 
    (r <> 0 -> apart (0xAF78, 3) (r - HDR, units 64)).
Proof.
  destruct (allocator_safe ex_base ex_um ex_um3 _ ltac:(unfold fresh; split_and!; done) ex_uses) as (_ & _ & _ & H).
  destruct (H 64 ltac:(lia)) as (r & s' & Hr & Hp). exists r, s'. split; [exact Hr|].
  intros Hr0. apply (Hp Hr0). reflexivity.
Defined.
