(* ===== verification/Mkfs.v ===== *)
(** * The program that makes the disk image (mkfs.c)

    [mkfs] runs on the host and writes the image the kernel boots from: superblock, an
    empty log, the inodes, the bitmap, and the files given to it in the root directory.
    The image file is a sequence of sectors, read and written one at a time; [freeinode]
    and [freeblock] are the globals of the program.  An [exit] with an error status and a
    failing [assert] are a [Panic] of the monad.  The host is little-endian.

    The specification and its proof are in MkfsSpec.v. *)

From S2P Require Export FsDir.
Local Open Scope Z_scope.

Module Mkfs.
Import CString Layout Fs.

Definition NINODES : Z := 200.
Definition nbitmap : Z := FSSIZE / (512 * 8) + 1.
Definition ninodeblocks : Z := NINODES / IPB + 1.
Definition nlog : Z := LOGSIZE.
(** The number of meta blocks (boot, sb, nlog, inode, bitmap), and of data blocks. *)
Definition nmeta : Z := 2 + nlog + ninodeblocks + nbitmap.
Definition nblocks : Z := FSSIZE - nmeta.

(** The image file and the globals. *)
Record img : Type := mkimg {
  im_disk : Z -> block;   (* the sectors of the file *)
  im_len : Z;             (* how many there are *)
  im_freeinode : Z;
  im_freeblock : Z
}.

(** convert to intel byte order *)
Definition xshort (x : Z) : Z := Bytes.le_dec [u8 x; u8 (Z.shiftr x 8)].
Definition xint (x : Z) : Z :=
  Bytes.le_dec [u8 x; u8 (Z.shiftr x 8); u8 (Z.shiftr x 16); u8 (Z.shiftr x 24)].

Definition sblock : superblock :=
  mksb (xint FSSIZE) (xint nblocks) (xint NINODES) (xint nlog) (xint 2) (xint (2 + nlog)) (xint (2 + nlog + ninodeblocks)).

Definition wsect (sec : Z) (buf : block) : K img unit :=
  modify (fun s => mkimg (fun c => if decide (c = sec) then buf else im_disk s c) (Z.max (im_len s) (sec + 1))
    (im_freeinode s) (im_freeblock s)).

(** A sector behind the end of the file cannot be read. *)
Definition rsect (sec : Z) : K img block :=
  n ← gets im_len;
  if sec <? n then gets (fun s => im_disk s sec) else panic "read".

Definition winode (inum : Z) (ip : dinode) : K img unit :=
  let bn := IBLOCK inum sblock in
  buf ← rsect bn;
  wsect bn (store_dinode buf (dinode_off inum) ip).

Definition rinode (inum : Z) : K img dinode :=
  buf ← rsect (IBLOCK inum sblock);
  mret (load_dinode buf (dinode_off inum)).

(** [freeinode++] and [freeblock++] *)
Definition freeinode_inc : K img Z := fun s =>
  Ret (im_freeinode s) (mkimg (im_disk s) (im_len s) (u32 (im_freeinode s + 1)) (im_freeblock s)).
Definition freeblock_inc : K img Z := fun s =>
  Ret (im_freeblock s) (mkimg (im_disk s) (im_len s) (im_freeinode s) (u32 (im_freeblock s + 1))).

Definition ialloc (type : Z) : K img Z :=
  inum ← freeinode_inc;
  winode inum (mkdinode (s16 (xshort type)) 0 0 (s16 (xshort 1)) (xint 0) (replicate 13 0));;
  mret inum.

(** The loop of [balloc]: the first [used] bits of the bitmap. *)
Fixpoint bits (used : nat) : block :=
  match used with O => replicate 512 0 | S i => mark (bits i) i end.

Definition balloc (used : Z) : K img unit :=
  if negb (used <? 512 * 8) then panic "assert(used < BSIZE*8)" else
  wsect (sb_bmapstart sblock) (bits (Z.to_nat used)).

(** [din.addrs[i] = a] *)
Definition din_addr (i : nat) (a : Z) (din : dinode) : dinode :=
  mkdinode (d_type din) (d_major din) (d_minor din) (d_nlink din) (d_size din) (<[i := a]> (d_addrs din)).
Definition din_size (n : Z) (din : dinode) : dinode :=
  mkdinode (d_type din) (d_major din) (d_minor din) (d_nlink din) n (d_addrs din).

(** The part of [iappend] that looks in the indirect block. *)
Definition iappend_indirect (din : dinode) (fbn : Z) : K img (dinode * Z) :=
  a ← arr_get (d_addrs din) NDIRECT;
  indirect ← rsect (xint a);
  let i := (4 * Z.to_nat (fbn - Z.of_nat NDIRECT))%nat in
  if ld32 indirect i =? 0 then
    fb ← freeblock_inc;
    wsect (xint a) (st32 indirect i (xint fb));;
    mret (din, xint (ld32 (st32 indirect i (xint fb)) i))
  else mret (din, xint (ld32 indirect i)).

(** The block for [fbn] of the file, made if there is none: [din] and its number. *)
Definition iappend_block (din : dinode) (fbn : Z) : K img (dinode * Z) :=
  if fbn <? Z.of_nat NDIRECT then
    a ← arr_get (d_addrs din) (Z.to_nat fbn);
    if xint a =? 0 then fb ← freeblock_inc; mret (din_addr (Z.to_nat fbn) (xint fb) din, xint (xint fb))
    else mret (din, xint a)
  else
    a ← arr_get (d_addrs din) NDIRECT;
    din ← (if xint a =? 0 then fb ← freeblock_inc; mret (din_addr NDIRECT (xint fb) din) else mret din);
    iappend_indirect din fbn.

(** The loop of [iappend] over the bytes left; each round takes one at least. *)
Fixpoint iappend_loop (fuel : nat) (din : dinode) (off : Z) (p : list Z) : K img (dinode * Z) :=
  match p with
  | [] => mret (din, off)
  | _ =>
      match fuel with
      | O => fault "out of fuel"
      | S fuel =>
          let fbn := off / 512 in
          if negb (fbn <? Z.of_nat MAXFILE) then panic "assert(fbn < MAXFILE)" else
          r ← iappend_block din fbn;
          let '(din, x) := (r : dinode * Z) in
          let n1 := Z.to_nat (Z.min (Z.of_nat (length p)) (u32 ((fbn + 1) * 512) - off)) in
          buf ← rsect x;
          wsect x (splice (Z.to_nat (off - fbn * 512)) (take n1 p) buf);;
          iappend_loop fuel din (off + Z.of_nat n1) (drop n1 p)
      end
  end.

Definition iappend (inum : Z) (p : list Z) : K img unit :=
  din ← rinode inum;
  let off := xint (d_size din) in
  r ← iappend_loop (length p) din off p;
  let '(din, off) := (r : dinode * Z) in
  winode inum (din_size (xint off) din).

(** ** [main] *)

(** The first [n] sectors from [i] on are made of zeros. *)
Fixpoint zero_sects (n : nat) (i : Z) : K img unit :=
  match n with O => mret tt | S n => wsect i (replicate 512 0);; zero_sects n (i + 1) end.

Definition sb_bytes (sb : superblock) : list Z :=
  le_enc 4 (sb_size sb) ++ le_enc 4 (sb_nblocks sb) ++ le_enc 4 (sb_ninodes sb) ++ le_enc 4 (sb_nlog sb) ++
  le_enc 4 (sb_logstart sb) ++ le_enc 4 (sb_inodestart sb) ++ le_enc 4 (sb_bmapstart sb).

(** [bzero], then the two fields of a [struct dirent]; [strncpy] fills the name. *)
Definition dirent (inum : Z) (name : list Z) : list Z := le_enc 2 (xshort inum) ++ strncpy_bytes DIRSIZ name.

(** Skip leading _ in name when writing to file system. *)
Definition skip_underscore (name : list Z) : list Z :=
  match name with c :: t => if c =? 95 then t else name | [] => [] end.

(** [while((cc = read(fd, buf, sizeof(buf))) > 0) iappend(inum, buf, cc)] *)
Fixpoint append_all (inum : Z) (chunks : list (list Z)) : K img unit :=
  match chunks with [] => mret tt | c :: l => iappend inum c;; append_all inum l end.

(** The files of the command line: the name, and what the calls of [read] return; [None]
    for a file that cannot be opened. *)
Fixpoint add_files (rootino : Z) (args : list (list Z * option (list (list Z)))) : K img unit :=
  match args with
  | [] => mret tt
  | (name, file) :: l =>
      if bool_decide (47 ∈ name) then panic "assert(index(argv[i], '/') == 0)" else
      match file with
      | None => panic "open"
      | Some chunks =>
          inum ← ialloc T_FILE;
          iappend rootino (dirent inum (skip_underscore name));;
          append_all inum chunks;;
          add_files rootino l
      end
  end.

Definition main (args : list (list Z * option (list (list Z)))) : K img unit :=
  modify (fun s => mkimg (im_disk s) (im_len s) (im_freeinode s) nmeta);;
  zero_sects (Z.to_nat FSSIZE) 0;;
  wsect 1 (splice 0 (sb_bytes sblock) (replicate 512 0));;
  rootino ← ialloc T_DIR;
  if negb (rootino =? ROOTINO) then panic "assert(rootino == ROOTINO)" else
  iappend rootino (dirent rootino [46]);;
  iappend rootino (dirent rootino [46; 46]);;
  add_files rootino args;;
  din ← rinode rootino;
  let off := xint (d_size din) in
  let off := u32 ((off / 512 + 1) * 512) in
  winode rootino (din_size (xint off) din);;
  fb ← gets im_freeblock;
  balloc fb.

(** The state the program starts in: the file is truncated when it is opened. *)
Definition start : img := mkimg (fun _ => replicate 512 0) 0 1 0.

End Mkfs.
