(* ===== verification/MkfsImage.v ===== *)
(** * The files and the root directory that mkfs makes

    The operations of mkfs.c on whole files: [ialloc] makes an empty one, [iappend] adds
    bytes at its end and leaves the others alone; and the image at the end of [main]. *)

From S2P Require Export MkfsSpec.
Local Open Scope Z_scope.

Module MkfsImage.
Import CString Layout Fs FsSpec FsFile FsRw FsDir Mkfs MkfsSpec.

Local Abbreviation S0 := sblock.

(** The file of an inode number. *)
Definition file_at (w : Z -> block) (inum : Z) : inode := file_of inum (dinode_at S0 w inum).

(** A file with zeros behind its end. *)
Definition good (w : Z -> block) (x : inode) : Prop :=
  file_ok S0 w x /\ forall k, i_size x <= Z.of_nat k -> (k < 512 * MAXFILE)%nat -> fbyte w x k = 0.

(** The blocks of a file, the indirect block included. *)
Definition owns (w : Z -> block) (x : inode) (c : Z) : Prop :=
  c <> 0 /\ (c = ind x \/ exists k, (k < MAXFILE)%nat /\ c = blkno w x k).

(** The inodes below [n] are files, and share no block; the others are free. *)
Record files_ok (w : Z -> block) (n : Z) : Prop := {
  fo_good : forall i, 1 <= i < n -> good w (file_at w i);
  fo_apart : forall i j c, 1 <= i < n -> 1 <= j < n -> i <> j -> owns w (file_at w i) c -> ~ owns w (file_at w j) c;
  fo_free : forall i, n <= i < 200 -> d_type (dinode_at S0 w i) = 0
}.

Section Files.
Implicit Types (s : img) (w : Z -> block) (x y : inode).

Lemma owns_used w x c : inode_ok S0 w x -> owns w x c -> data_block S0 c /\ used S0 w c = true.
Proof.
  intros (_ & _ & _ & Hi & Hf & _) [Hn [->|(k & Hk & ->)]]; [by destruct Hi|]. by destruct (Hf k Hk) as [?|[? _]].
Qed.

Lemma inum_iblock inum : 0 <= inum < 200 -> 32 <= IBLOCK inum S0 < 58.
Proof.
  intros Hi. unfold IBLOCK. change (sb_inodestart S0) with 32. pose proof (Z.div_pos inum IPB ltac:(lia) ltac:(done)).
  pose proof (Z.div_lt_upper_bound inum IPB 26 ltac:(done) ltac:(unfold IPB; lia)). lia.
Qed.

(** An inode whose blocks did not change. *)
Lemma kept_inode w w' y :
  (forall c, owns w y c -> w' c = w c) -> (forall c, 0 <= c < 1000 -> used S0 w c = true -> used S0 w' c = true) ->
  inode_ok S0 w y ->
  inode_ok S0 w' y /\ (forall k, blkno w' y k = blkno w y k) /\ (forall k, (k < MAXFILE)%nat -> fblock w' y k = fblock w y k) /\
  (forall c, owns w' y c <-> owns w y c).
Proof.
  intros Hsame Hu Hok.
  assert (forall k, blkno w' y k = blkno w y k) as Hk.
  { intros k. unfold blkno. destruct (_ <? _)%nat; [done|]. destruct (Z.eqb_spec (ind y) 0) as [|Hn]; [done|].
    rewrite Hsame; [done|]. split; [done|]. by left. }
  assert (forall c, blk_ok S0 w c -> blk_ok S0 w' c) as Hbo.
  { intros c [Hc Huc]. split; [done|]. apply Hu; [|done]. apply (proj1 (data_block_eq _)) in Hc. lia. }
  split; [|split; [done|split]].
  - destruct Hok as (H1 & H2 & H3 & Hi & Hf' & Hinj). split; [done|]. split; [done|]. split; [done|]. split_and!.
    + destruct Hi as [?|Hi]; [by left|right; by apply Hbo].
    + intros k Hlt. rewrite Hk. destruct (Hf' k Hlt) as [?|[Hb ?]]; [by left|right]. split; [by apply Hbo|done].
    + intros k k' Hk1 Hk2. rewrite !Hk. by apply Hinj.
  - intros k Hlt. unfold fblock. rewrite Hk. destruct (Z.eqb_spec (blkno w y k) 0) as [|Hn]; [done|]. apply Hsame.
    split; [done|]. right. by exists k.
  - intros c. unfold owns. split; intros [Hn [?|(k & Hlt & ?)]]; (split; [done|]); [by left| |by left|];
      right; exists k; rewrite Hk in *; done.
Qed.

Lemma contents_same w w' y :
  (forall k, (k < MAXFILE)%nat -> fblock w' y k = fblock w y k) -> i_size y <= Z.of_nat (512 * MAXFILE) ->
  (forall k, (k < 512 * MAXFILE)%nat -> fbyte w' y k = fbyte w y k) /\ contents w' y = contents w y.
Proof.
  intros Hf Hsz. assert (forall k, (k < 512 * MAXFILE)%nat -> fbyte w' y k = fbyte w y k) as Hby.
  { intros k Hlt. unfold fbyte. rewrite Hf; [done|]. apply Nat.Div0.div_lt_upper_bound. lia. }
  split; [done|]. apply list_fmap_ext. intros i k Hi. apply lookup_seq in Hi as [-> Hi]. apply Hby. lia.
Qed.

(** A file whose blocks did not change. *)
Lemma kept_file w w' y :
  (forall c, owns w y c -> w' c = w c) -> (forall c, 0 <= c < 1000 -> used S0 w c = true -> used S0 w' c = true) ->
  file_ok S0 w y -> file_ok S0 w' y /\ contents w' y = contents w y /\ (forall c, owns w' y c <-> owns w y c).
Proof.
  intros Hsame Hu (Hok & Hd & Hsz & Hden). destruct (kept_inode w w' y Hsame Hu Hok) as (Hok' & Hk & Hf & Ho).
  destruct (contents_same w w' y Hf Hsz) as [_ Hc]. split; [|by split]. split; [done|]. split; [done|]. split; [done|].
  intros bn Hbn. rewrite Hk. by apply Hden.
Qed.

Lemma kept w w' y :
  (forall c, owns w y c -> w' c = w c) -> (forall c, 0 <= c < 1000 -> used S0 w c = true -> used S0 w' c = true) ->
  good w y -> good w' y /\ contents w' y = contents w y /\ (forall c, owns w' y c <-> owns w y c).
Proof.
  intros Hsame Hu [Hfile Hz]. destruct (kept_file w w' y Hsame Hu Hfile) as (Hf' & Hc & Ho). split; [|by split].
  split; [done|]. pose proof Hfile as (Hok & _ & Hsz & _). destruct (kept_inode w w' y Hsame Hu Hok) as (_ & _ & Hf & _).
  destruct (contents_same w w' y Hf Hsz) as [Hby _]. intros k Hk1 Hk2. rewrite Hby by done. by apply Hz.
Qed.

(** ** Inodes *)

Lemma rinode_wp s w inum (Q : dinode -> img -> Prop) :
  base s w -> 0 <= inum < 200 -> Q (dinode_at S0 w inum) s -> wp (rinode inum) s Q.
Proof.
  intros Hb Hi HQ. pose proof (inum_iblock inum Hi). unfold rinode. apply wp_bind.
  eapply rsect_wp; [exact Hb|lia|lia|]. by apply wp_ret.
Qed.

Lemma winode_wp s w inum di (Q : unit -> img -> Prop) :
  base s w -> 0 <= inum < 200 -> length (d_addrs di) = 13%nat ->
  (forall s', base s' (store_v S0 w inum di) -> im_freeblock s' = im_freeblock s -> im_freeinode s' = im_freeinode s -> Q tt s') ->
  wp (winode inum di) s Q.
Proof.
  intros Hb Hi Hl HQ. pose proof (inum_iblock inum Hi). pose proof (ba_fb _ _ Hb). unfold winode. apply wp_bind.
  eapply rsect_wp; [exact Hb|lia|lia|]. eapply wsect_wp; [exact Hb|lia|lia|lia|lia| |exact HQ].
  apply store_dinode_ok; [|done]. apply (ba_ok _ _ Hb). lia.
Qed.

(** A change of an inode on disk leaves the other files as they are. *)
Lemma store_kept s w inum di j :
  base s w -> 0 <= inum < 200 -> 0 <= j < 200 -> inum <> j -> length (d_addrs di) = 13%nat -> good w (file_at w j) ->
  let w' := store_v S0 w inum di in
  file_at w' j = file_at w j /\ good w' (file_at w j) /\ contents w' (file_at w j) = contents w (file_at w j) /\
  (forall c, owns w' (file_at w j) c <-> owns w (file_at w j) c).
Proof.
  intros Hb Hi Hj Hne Hl Hg w'. pose proof (inum_iblock inum Hi) as Hr. split.
  - unfold file_at, w'. rewrite store_v_other; [done| |done|done]. apply (ba_ok _ _ Hb). lia.
  - apply kept; [| |done].
    + intros c Hc. apply upd1_ne. destruct Hg as [(Hok & _) _]. destruct (owns_used _ _ _ Hok Hc) as [Hd _].
      apply (proj1 (data_block_eq _)) in Hd. lia.
    + intros c Hc. unfold used, w', store_v. rewrite upd1_ne; [done|]. unfold BBLOCK.
      rewrite Z.div_small by (unfold BPB; lia). change (sb_bmapstart S0) with 58. lia.
Qed.

(** The files other than [i] are the same. *)
Definition others w w' (i n : Z) : Prop :=
  forall j, 1 <= j < n -> j <> i -> file_at w' j = file_at w j /\ contents w' (file_at w j) = contents w (file_at w j).

(** An inode with no blocks. *)
Definition new_inode (inum type : Z) : inode := mkinode 1 inum 0 false true type 0 0 1 0 (replicate 13 0).

Lemma blkno_new w inum type k : blkno w (new_inode inum type) k = 0.
Proof.
  unfold blkno, ind, addr_of. cbn [i_addrs new_inode].
  assert (forall i, default 0 (replicate 13 0 !! i) = 0) as Hz.
  { intros i. destruct (replicate 13 0 !! i) eqn:E; [|done]. by apply lookup_replicate in E as [-> _]. }
  rewrite !Hz. by destruct (_ <? _)%nat.
Qed.

Lemma new_good w inum type : 0 <= inum < 200 -> 0 <= type < 2 ^ 15 -> good w (new_inode inum type).
Proof.
  intros Hi Ht. split; [split; [|split; [|split]]|].
  - split; [done|]. split; [unfold inum_ok; change (sb_ninodes S0) with 200; cbn; lia|]. split; [done|]. split; [by left|].
    split; [intros bn _; left; apply blkno_new|]. intros bn bn' _ _. by rewrite blkno_new.
  - unfold dinode_ok. cbn [to_dinode new_inode d_type d_major d_minor d_nlink d_size d_addrs i_type i_major i_minor i_nlink i_size i_addrs].
    split_and!; try lia; [done|]. by apply Forall_replicate.
  - change (0 <= Z.of_nat (512 * MAXFILE)). lia.
  - intros bn Hbn. cbn in Hbn. lia.
  - intros k _ Hk. unfold fbyte, fblock. rewrite blkno_new. cbn [Z.eqb]. unfold zero_block, BSIZE.
    apply (lookup_total_replicate_2 (A := Z)). apply Nat.mod_upper_bound. lia.
Qed.

Lemma new_owns w inum type c : ~ owns w (new_inode inum type) c.
Proof. intros [Hn [->|(k & _ & ->)]]; [done|]. apply Hn, blkno_new. Qed.

Lemma ialloc_wp s w type (Q : Z -> img -> Prop) :
  base s w -> files_ok w (im_freeinode s) -> 1 <= im_freeinode s < 200 -> 0 <= type < 2 ^ 15 ->
  (forall s' w', base s' w' -> files_ok w' (im_freeinode s') -> im_freeinode s' = im_freeinode s + 1 ->
     im_freeblock s' = im_freeblock s -> others w w' (im_freeinode s) (im_freeinode s) ->
     file_at w' (im_freeinode s) = new_inode (im_freeinode s) type -> Q (im_freeinode s) s') ->
  wp (ialloc type) s Q.
Proof.
  intros Hb Hf Hi Ht HQ. unfold ialloc. apply wp_bind. unfold freeinode_inc, wp at 1. rewrite u32_small by lia.
  set (i := im_freeinode s) in *. set (s1 := mkimg _ _ _ _). assert (base s1 w) as Hb1 by (destruct Hb; by split).
  rewrite xshort_id by lia. change (s16 (xshort 1)) with 1. change (xint 0) with 0.
  replace (s16 type) with type by (symmetry; rewrite <- (u32_small type) by lia; unfold s16, u32; rewrite (Z.mod_small type), Z.mod_small; lia).
  set (di := mkdinode type 0 0 1 0 (replicate 13 0)). apply wp_bind. eapply winode_wp; [exact Hb1|lia|done|].
  intros s2 Hb2 Hf2 Hn2. apply wp_ret. set (w2 := store_v S0 w i di) in *.
  assert (file_at w2 i = new_inode i type) as Hnew.
  { unfold file_at, w2. rewrite store_v_same; [done| |].
    - apply (ba_ok _ _ Hb). pose proof (inum_iblock i ltac:(lia)). lia.
    - by destruct (new_good w i type ltac:(lia) Ht) as [(_ & ? & _) _]. }
  assert (forall j, 1 <= j < i -> file_at w2 j = file_at w j /\ good w2 (file_at w j) /\ contents w2 (file_at w j) = contents w (file_at w j) /\
    (forall c, owns w2 (file_at w j) c <-> owns w (file_at w j) c)) as Hoth.
  { intros j Hj. apply (store_kept s); [done|lia|lia|lia|done|]. by apply (fo_good _ _ Hf). }
  change (im_freeinode s1) with (i + 1) in Hn2.
  apply (HQ s2 w2); [done| |done|done| |done].
  - rewrite Hn2. split.
    + intros j Hj. destruct (decide (j = i)) as [->|Hji]; [rewrite Hnew; apply new_good; lia|].
      destruct (Hoth j ltac:(lia)) as (-> & Hg & _). done.
    + intros j k c Hj Hk Hjk. destruct (decide (j = i)) as [->|Hji]; [rewrite Hnew; by intros ?%new_owns|].
      destruct (decide (k = i)) as [->|Hki]; [rewrite Hnew; intros _; apply new_owns|].
      destruct (Hoth j ltac:(lia)) as (-> & _ & _ & Hoj). destruct (Hoth k ltac:(lia)) as (-> & _ & _ & Hok).
      rewrite Hoj, Hok. apply (fo_apart _ _ Hf); lia.
    + intros j Hj. unfold w2. rewrite store_v_other; [apply (fo_free _ _ Hf); lia| |done|lia].
      apply (ba_ok _ _ Hb). pose proof (inum_iblock i ltac:(lia)). lia.
  - intros j Hj _. by destruct (Hoth j Hj) as (? & _ & ? & _).
Qed.

(** ** [iappend] *)

Lemma file_of_to inum di : to_dinode (file_of inum di) = di.
Proof. by destruct di. Qed.

Lemma iappend_written s w inum src (Q : unit -> img -> Prop) :
  let x := file_at w inum in let n := Z.to_nat (i_size x) in
  base s w -> 0 <= inum < 200 -> good w x -> src <> [] -> bytes_ok src -> (n + length src <= 512 * MAXFILE)%nat ->
  im_freeblock s + (nblk (n + length src) - nblk n) <= 1000 ->
  (forall s' w', base s' w' -> let x' := file_at w' inum in
     written g0 S0 w w' x x' n src -> good w' x' -> (forall c, owns w' x' c -> owns w x c \/ used S0 w c = false) ->
     im_freeblock s' <= im_freeblock s + (nblk (n + length src) - nblk n) -> im_freeinode s' = im_freeinode s -> Q tt s') ->
  wp (iappend inum src) s Q.
Proof.
  intros x n Hb Hi [Hf Hz] Hne Hby Hlim Hfb HQ. pose proof Hf as (Hok & Hd & Hsz & Hden).
  pose proof (base_sb _ _ Hb) as Hsb. pose proof (base_bitmap _ _ Hb) as Hbm.
  assert (0 <= i_size x < 2 ^ 32) as Hs32 by apply Hd. destruct maxfile_bytes as [_ Hmax].
  assert (0 < length src)%nat as Hlen by (destruct src; [by destruct Hne|cbn; lia]).
  unfold iappend. apply wp_bind. eapply rinode_wp; [exact Hb|done|]. set (di := dinode_at S0 w inum).
  change (d_size di) with (i_size x). rewrite xint_id by lia.
  replace (i_size x) with (Z.of_nat n) at 1 by lia. apply wp_bind.
  eapply (iappend_loop_wp (length src) s w inum di n src); [exact Hb|exact Hok|done|lia|lia| |done|].
  { intros bn Hbn. apply Hden. lia. }
  intros s1 w1 di1 Hb1 Hw Hf1 Hn1. change (file_of inum di) with x in Hw. set (x1 := file_of inum di1) in *.
  rewrite xint_id by lia. set (x2 := set_size (Z.of_nat (n + length src)) x1).
  change (din_size (Z.of_nat (n + length src)) di1) with (to_dinode x2).
  pose proof Hw as (Hs1 & Hm1 & Hok1 & Hx1 & Hk1 & _ & Hfb1 & _ & _ & Hind1 & _).
  pose proof Hok1 as (_ & Hin1 & Hl1 & _). eapply winode_wp; [exact Hb1|exact Hi|exact Hl1|]. intros s2 Hb2 Hf2 Hn2. set (w2 := store_v S0 w1 inum (to_dinode x2)) in *.
  pose proof (inum_iblock inum Hi) as Hib.
  assert (written g0 S0 w w2 x x2 n src) as Hwr.
  { apply (written_grown g0 S0 w w1 x x1); [done|done|done|done|lia|lia|done|]. apply (ba_ok _ _ Hb1). cbn. lia. }
  pose proof Hwr as (_ & _ & Hfile2 & _). pose proof Hfile2 as (_ & Hd2 & _).
  assert (file_at w2 inum = x2) as Hx2.
  { unfold file_at, w2. rewrite store_v_same; [done| |done]. apply (ba_ok _ _ Hb1). lia. }
  destruct (inode_ok_same g0 S0 w1 w2 x1 Hs1 Hok1) as (_ & Hk2 & Hfb2 & _).
  { apply (store_v_data g0 S0 w1 x1); [done|exact Hin1]. }
  rewrite <- Hx2 in Hwr. apply (HQ s2 w2); [done|done| | |lia|congruence].
  - rewrite Hx2. split; [exact Hfile2|].
    intros k Hk1' Hk. unfold fbyte. change (fblock w2 x2) with (fblock w2 x1). rewrite Hfb2 by (apply Nat.Div0.div_lt_upper_bound; lia).
    fold (fbyte w1 x1 k). cbn [x2 i_size set_size] in Hk1'. rewrite Hfb1 by done. rewrite decide_False by lia. apply Hz; [lia|done].
  - rewrite Hx2. intros c [Hn [->|(k & Hk & ->)]].
    + destruct Hind1 as [He|[_ ?]]; [|by right]. left. split; [done|]. left. exact He.
    + change (blkno w2 x2 k) with (blkno w2 x1 k) in *. rewrite Hk2 in *. destruct (Hk1 k Hk) as [He|[_ ?]]; [|by right].
      left. split; [done|]. right. by exists k.
Qed.

(** A write to a file leaves those that share no block with it. *)
Lemma written_kept w w' x x' off src j :
  written g0 S0 w w' x x' off src -> 0 <= j < 200 -> j <> i_inum x -> good w (file_at w j) ->
  (forall c, owns w (file_at w j) c -> ~ owns w x c) -> 0 <= i_inum x < 200 ->
  file_at w' j = file_at w j /\ good w' (file_at w j) /\ contents w' (file_at w j) = contents w (file_at w j) /\
  (forall c, owns w' (file_at w j) c <-> owns w (file_at w j) c).
Proof.
  intros (_ & _ & _ & _ & _ & _ & Hu & Hfr & Hdi) Hj Hne Hg Hap Hi. split.
  - unfold file_at. by rewrite Hdi.
  - apply kept; [|exact Hu|done]. intros c Hc. pose proof Hg as [(Hok & _) _]. destruct (owns_used _ _ _ Hok Hc) as [Hd Huc].
    pose proof (inum_iblock _ Hi) as Hib. pose proof (proj1 (data_block_eq _) Hd) as Hr. destruct Hc as [H0 Hc].
    apply Hfr; [change (sb_size S0) with 1000; lia|done|by apply data_not_bitmap|lia| |].
    + intros ->. apply (Hap (ind x)); [by split|]. split; [done|]. by left.
    + intros k Hk ->. apply (Hap (blkno w x k)); [by split|]. split; [done|]. right. by exists k.
Qed.

Lemma iappend_wp s w n inum src (Q : unit -> img -> Prop) :
  let x := file_at w inum in let len := Z.to_nat (i_size x) in
  base s w -> files_ok w n -> n <= 200 -> 1 <= inum < n -> src <> [] -> bytes_ok src ->
  (len + length src <= 512 * MAXFILE)%nat -> im_freeblock s + (nblk (len + length src) - nblk len) <= 1000 ->
  (forall s' w', base s' w' -> files_ok w' n -> others w w' inum n -> let x' := file_at w' inum in
     contents w' x' = contents w x ++ src -> i_type x' = i_type x -> i_nlink x' = i_nlink x ->
     im_freeblock s' <= im_freeblock s + (nblk (len + length src) - nblk len) -> im_freeinode s' = im_freeinode s -> Q tt s') ->
  wp (iappend inum src) s Q.
Proof.
  intros x len Hb Hf Hn Hi Hne Hby Hlim Hfb HQ. pose proof (fo_good _ _ Hf inum Hi) as Hg. fold x in Hg.
  eapply iappend_written; [exact Hb|lia|exact Hg|done|done|done|done|]. fold x len.
  intros s' w' Hb' x' Hwr Hg' Hown Hf' Hn'. unfold x' in *. clear x'.
  assert (forall j, 1 <= j < n -> j <> inum -> file_at w' j = file_at w j /\ good w' (file_at w j) /\
    contents w' (file_at w j) = contents w (file_at w j) /\ (forall c, owns w' (file_at w j) c <-> owns w (file_at w j) c)) as Hoth.
  { intros j Hj Hji. eapply written_kept; [exact Hwr|lia|done|by apply (fo_good _ _ Hf)| |cbn; lia].
    intros c Hc. by apply (fo_apart _ _ Hf j inum c). }
  assert (forall j c, 1 <= j < n -> j <> inum -> owns w' (file_at w' inum) c -> ~ owns w' (file_at w' j) c) as Hap.
  { intros j c Hj Hji Hc. destruct (Hoth j Hj Hji) as (-> & _ & _ & ->). destruct (Hown c Hc) as [Hx|Hx].
    - by apply (fo_apart _ _ Hf inum j c).
    - intros Hcj. destruct (fo_good _ _ Hf j Hj) as [(Hok & _) _]. destruct (owns_used _ _ _ Hok Hcj). congruence. }
  pose proof Hwr as (_ & _ & _ & _ & Hx' & Hc' & _). apply (HQ s' w'); [done| | | | | |done|done].
  - split.
    + intros j Hj. destruct (decide (j = inum)) as [->|Hji]; [done|]. by destruct (Hoth j Hj Hji) as (-> & ? & _).
    + intros j k c Hj Hk Hjk Hcj. destruct (decide (j = inum)) as [->|Hji]; [by apply Hap|].
      destruct (decide (k = inum)) as [->|Hki]; [intros Hck; by apply (Hap j c)|].
      destruct (Hoth j Hj Hji) as (Ej & _ & _ & Hoj). destruct (Hoth k Hk Hki) as (-> & _ & _ & ->).
      rewrite Ej, Hoj in Hcj. by apply (fo_apart _ _ Hf j k c).
    + intros j Hj. destruct Hwr as (_ & _ & _ & _ & _ & _ & _ & _ & Hdi). rewrite Hdi; [by apply (fo_free _ _ Hf)| |cbn; lia].
      unfold inum_ok. change (sb_ninodes S0) with 200. lia.
  - intros j Hj Hji. by destruct (Hoth j Hj Hji) as (? & _ & ? & _).
  - rewrite Hc'. rewrite take_ge by (rewrite length_file_contents; lia). rewrite drop_ge by (rewrite length_file_contents; lia).
    by rewrite app_nil_r.
  - by rewrite Hx'.
  - by rewrite Hx'.
Qed.

End Files.

(** ** The root directory *)

Lemma strncmp_ext_r n : forall p q q', (forall i, q i = q' i) -> strncmp n p q = strncmp n p q'.
Proof.
  induction n as [|n IH]; intros p q q' He; cbn [strncmp]; [done|]. rewrite (He 0%nat).
  destruct (_ && _)%bool; [|done]. apply IH. intros i. apply He.
Qed.

(** The padding of [strncpy] makes no difference to a comparison. *)
Lemma strncmp_strncpy_r n : forall p t, strncmp n p (chars (strncpy_bytes n t)) = strncmp n p (chars t).
Proof.
  induction n as [|n IH]; intros p t; [done|]. cbn [strncmp strncpy_bytes].
  change (chars t 0%nat) with (default 0 (t !! 0%nat)). set (c := default 0 (t !! 0%nat)).
  change (chars (c :: _) 0%nat) with c. destruct (truthy (p 0%nat) && (p 0%nat =? c))%bool eqn:E; [|done].
  apply andb_prop in E as [E1 E2]. apply Z.eqb_eq in E2. unfold truthy in E1. rewrite E2 in E1. apply negb_true_iff in E1. rewrite E1.
  change (fun i => chars (c :: strncpy_bytes n (drop 1 t)) (S i)) with (chars (strncpy_bytes n (drop 1 t))).
  rewrite IH. apply strncmp_ext_r. intros i. unfold chars. by rewrite lookup_drop.
Qed.

(** The first of the names that is [nm]. *)
Fixpoint find_name (l : list (list Z * Z)) (nm : list Z) : option Z :=
  match l with
  | [] => None
  | (name, inum) :: l => if namecmp nm name =? 0 then Some inum else find_name l nm
  end.

Definition dir_bytes (l : list (list Z * Z)) : list Z := concat ((fun p => new_entry p.1 p.2) <$> l).

Lemma entry_at (pre e rest : list Z) k :
  length pre = (16 * k)%nat -> length e = 16%nat -> entry (pre ++ e ++ rest) k = e.
Proof. intros Hp He. unfold entry, slice. rewrite drop_app_length' by done. by apply take_app_length'. Qed.

Lemma entry_zero (pre : list Z) k j n : length pre = (16 * k)%nat -> (k <= j)%nat -> de_inum (entry (pre ++ replicate n 0) j) = 0.
Proof.
  intros Hp Hj. unfold entry, slice. rewrite drop_app_ge, drop_replicate, take_replicate by lia.
  unfold de_inum, ld16, slice. rewrite drop_0, take_replicate.
  assert (forall m, Bytes.le_dec (replicate m 0) = 0) as Hz by (induction m as [|m IH]; [done|cbn; by rewrite IH]). apply Hz.
Qed.

Lemma find_dir_bytes l nm m : forall pre k,
  length pre = (16 * k)%nat -> Forall (fun p => 0 < p.2 < 2 ^ 16) l ->
  let c := pre ++ dir_bytes l ++ replicate (16 * m) 0 in
  (fun j => de_inum (entry c j)) <$> dir_find (length l + m) k c nm = find_name l nm.
Proof.
  induction l as [|[name inum] l IH]; intros pre k Hp Hl c.
  - rewrite dir_find_none; [done|]. intros j Hj. unfold hit, c. cbn [dir_bytes concat fmap list_fmap app].
    by rewrite (entry_zero pre k) by (done || lia).
  - apply Forall_cons in Hl as [Hi Hl]. cbn [snd] in Hi. destruct (new_entry_spec name inum Hi) as (Hlen & Hin & Hnm).
    change (dir_bytes ((name, inum) :: l)) with (new_entry name inum ++ dir_bytes l) in c. cbn [length find_name Nat.add dir_find].
    assert (entry c k = new_entry name inum) as He by (unfold c; rewrite <- app_assoc; by apply entry_at).
    unfold hit at 1. rewrite He, Hin, Hnm, (proj2 (Z.eqb_neq inum 0)) by lia. cbn [negb andb].
    unfold namecmp at 1. rewrite strncmp_strncpy_r. fold (namecmp nm name).
    destruct (namecmp nm name =? 0); [cbn [fmap option_fmap option_map]; by rewrite He, Hin|].
    specialize (IH (pre ++ new_entry name inum) (S k)). unfold c. rewrite <- app_assoc, app_assoc. apply IH; [|done].
    rewrite length_app, Hp, Hlen. lia.
Qed.

Lemma length_dir_bytes l : Forall (fun p => 0 < p.2 < 2 ^ 16) l -> length (dir_bytes l) = (16 * length l)%nat.
Proof.
  induction 1 as [|[name inum] l Hi Hl IH]; [done|]. change (dir_bytes ((name, inum) :: l)) with (new_entry name inum ++ dir_bytes l).
  destruct (new_entry_spec name inum Hi) as (Hlen & _). rewrite length_app, IH, Hlen. cbn [length]. lia.
Qed.

Lemma lookup_dir_bytes l nm m :
  Forall (fun p => 0 < p.2 < 2 ^ 16) l -> lookup_name (dir_bytes l ++ replicate (16 * m) 0) nm = find_name l nm.
Proof.
  intros Hl. unfold lookup_name, entries. rewrite length_app, length_replicate, length_dir_bytes by done.
  replace (16 * length l + 16 * m)%nat with ((length l + m) * 16)%nat by lia. rewrite Nat.div_mul by lia.
  by apply (find_dir_bytes l nm m [] 0).
Qed.


End MkfsImage.
