(* ===== verification/MkfsMain.v ===== *)
(** * mkfs: the image at the end of [main]

    The files of the command line are added one after the other, with the image described
    by [made] in between; then the root directory gets a size in whole blocks and the
    bitmap is written. *)

From S2P Require Export MkfsImage.
Local Open Scope Z_scope.

Module MkfsMain.
Import CString Layout Fs FsSpec FsFile FsRw FsDir Mkfs MkfsSpec MkfsImage.

Local Abbreviation S0 := sblock.

(** Files: their names in the file system, and their bytes. *)
Implicit Types (l files : list (list Z * list Z)).

Definition root_names l : list (list Z * Z) :=
  ([46], 1) :: ([46; 46], 1) :: imap (fun i p => (p.1, 2 + Z.of_nat i)) l.

Lemma root_names_snoc l p : root_names (l ++ [p]) = root_names l ++ [(p.1, 2 + Z.of_nat (length l))].
Proof. unfold root_names. rewrite imap_app. cbn. by rewrite Nat.add_0_r. Qed.

Lemma dir_bytes_snoc (names : list (list Z * Z)) name inum :
  dir_bytes (names ++ [(name, inum)]) = dir_bytes names ++ new_entry name inum.
Proof. unfold dir_bytes. rewrite fmap_app, concat_app. cbn. by rewrite app_nil_r. Qed.

Lemma length_root_names l : length (root_names l) = (2 + length l)%nat.
Proof. cbn. by rewrite length_imap. Qed.

Lemma root_names_range l : (length l <= 198)%nat -> Forall (fun p => 0 < p.2 < 2 ^ 16) (root_names l).
Proof.
  intros Hl. apply Forall_lookup. intros [|[|i]] p Hp; [by injection Hp as <-..|].
  apply list_lookup_imap_Some in Hp as (q & Hq & ->). apply lookup_lt_Some in Hq. cbn [snd]. lia.
Qed.

(** The blocks in use, at most. *)
Definition data_blocks l : Z := foldr (fun p a => nblk (length p.2) + a) 0 l.
Definition budget l : Z := 59 + nblk (16 * (2 + length l)) + data_blocks l.

Lemma data_blocks_cons p l : data_blocks (p :: l) = nblk (length p.2) + data_blocks l.
Proof. done. Qed.

Lemma data_blocks_app l l' : data_blocks (l ++ l') = data_blocks l + data_blocks l'.
Proof. induction l as [|p l IH]; [done|]. change ((p :: l) ++ l') with (p :: (l ++ l')). rewrite !data_blocks_cons, IH. lia. Qed.

Lemma nblk_nonneg n : 0 <= nblk n.
Proof. unfold nblk. pose proof (Z.div_pos (Z.of_nat n + 511) 512). destruct (_ <? _); lia. Qed.

Lemma data_blocks_nonneg l : 0 <= data_blocks l.
Proof. induction l as [|p l IH]; [done|]. rewrite data_blocks_cons. pose proof (nblk_nonneg (length p.2)). lia. Qed.

Lemma budget_mono l nm d d' l' :
  (length d <= length d')%nat -> budget (l ++ [(nm, d)]) <= budget (l ++ (nm, d') :: l').
Proof.
  intros Hd. unfold budget. rewrite !data_blocks_app, !data_blocks_cons, !length_app. cbn [length snd].
  pose proof (data_blocks_nonneg l'). pose proof (nblk_mono (length d) (length d') Hd).
  pose proof (nblk_mono (16 * (2 + (length l + 1))) (16 * (2 + (length l + S (length l')))) ltac:(lia)).
  change (data_blocks []) with 0. lia.
Qed.

(** ** The image with some of the files *)

Record made (s : img) (w : Z -> block) l : Prop := {
  md_base : base s w;
  md_inode : im_freeinode s = 2 + Z.of_nat (length l);
  md_files : files_ok w (2 + Z.of_nat (length l));
  md_root : i_type (file_at w 1) = T_DIR /\ i_nlink (file_at w 1) = 1;
  md_dir : contents w (file_at w 1) = dir_bytes (root_names l);
  md_data : forall i p, l !! i = Some p -> let x := file_at w (2 + Z.of_nat i) in
    i_type x = T_FILE /\ i_nlink x = 1 /\ contents w x = p.2;
  md_fb : im_freeblock s <= budget l
}.

Lemma size_contents w x : good w x -> Z.to_nat (i_size x) = length (contents w x).
Proof. intros _. by rewrite length_file_contents. Qed.

Lemma strncpy_bytes_ok n : forall t, bytes_ok t -> bytes_ok (strncpy_bytes n t).
Proof.
  induction n as [|n IH]; intros t Ht; [constructor|]. cbn [strncpy_bytes]. constructor.
  - destruct t as [|c t]; cbn; [unfold is_byte; lia|]. by apply Forall_cons in Ht as [? _].
  - destruct (_ =? 0); [apply bytes_ok_replicate; unfold is_byte; lia|]. apply IH. by apply Forall_drop.
Qed.

Lemma dirent_eq inum name : 0 <= inum < 2 ^ 16 -> dirent inum name = new_entry name inum.
Proof. intros Hi. unfold dirent. by rewrite xshort_id. Qed.

Lemma new_entry_ok name inum : bytes_ok name -> bytes_ok (new_entry name inum) /\ new_entry name inum <> [].
Proof. intros Hn. split; [|done]. apply Forall_app. split; [apply le_enc_bytes|by apply strncpy_bytes_ok]. Qed.

(** An entry is added to the root directory. *)
Lemma add_entry_wp s w n names name inum (Q : unit -> img -> Prop) :
  base s w -> files_ok w n -> 1 < n <= 200 -> 0 < inum < 200 -> bytes_ok name -> (length names < 200)%nat ->
  Forall (fun p => 0 < p.2 < 2 ^ 16) names -> contents w (file_at w 1) = dir_bytes names ->
  im_freeblock s + (nblk (16 * S (length names)) - nblk (16 * length names)) <= 1000 ->
  (forall s' w', base s' w' -> files_ok w' n -> others w w' 1 n ->
     contents w' (file_at w' 1) = dir_bytes (names ++ [(name, inum)]) ->
     i_type (file_at w' 1) = i_type (file_at w 1) -> i_nlink (file_at w' 1) = i_nlink (file_at w 1) ->
     im_freeblock s' <= im_freeblock s + (nblk (16 * S (length names)) - nblk (16 * length names)) ->
     im_freeinode s' = im_freeinode s -> Q tt s') ->
  wp (iappend 1 (dirent inum name)) s Q.
Proof.
  intros Hb Hf Hn Hi Hby Hlen Hnames Hdir Hfb HQ. rewrite dirent_eq by lia.
  destruct (new_entry_ok name inum Hby) as [Hok Hne]. destruct (new_entry_spec name inum ltac:(lia)) as (Hl & _).
  assert (Z.to_nat (i_size (file_at w 1)) = 16 * length names)%nat as Hsz.
  { by rewrite <- length_file_contents with (v := w), Hdir, length_dir_bytes. }
  eapply (iappend_wp s w n); [exact Hb|exact Hf|lia|lia|done|done|..]; rewrite Hsz, Hl.
  - unfold MAXFILE, NDIRECT, NINDIRECT. lia.
  - by replace (16 * length names + 16)%nat with (16 * S (length names))%nat by lia.
  - replace (16 * length names + 16)%nat with (16 * S (length names))%nat by lia.
    intros s' w' Hb' Hf' Hoth x' Hc Ht Hnl Hfb' Hn'. apply (HQ s' w'); try done. fold x'. by rewrite Hc, Hdir, dir_bytes_snoc.
Qed.

(** A new file, with no bytes yet. *)
Lemma add_file_wp s w l name (k : Z -> K img unit) (Q : unit -> img -> Prop) :
  made s w l -> (length l < 198)%nat -> bytes_ok name -> budget (l ++ [(name, [])]) <= 1000 ->
  (forall s' w', made s' w' (l ++ [(name, [])]) -> wp (k (2 + Z.of_nat (length l))) s' Q) ->
  wp (inum ← ialloc T_FILE; iappend 1 (dirent inum name);; k inum) s Q.
Proof.
  intros [Hb Hi Hf [Ht Hnl] Hdir Hdata Hfb] Hl Hby Hbud HQ. apply wp_bind. rewrite <- Hi in Hf.
  assert (budget (l ++ [(name, [])]) = budget l + (nblk (16 * (3 + length l)) - nblk (16 * (2 + length l)))) as Hbe.
  { unfold budget. rewrite data_blocks_app, data_blocks_cons, length_app. cbn [length snd]. change (nblk 0) with 0.
    change (data_blocks []) with 0. replace (2 + (length l + 1))%nat with (3 + length l)%nat by lia. lia. }
  eapply ialloc_wp; [exact Hb|exact Hf|lia|unfold T_FILE; lia|]. intros s1 w1 Hb1 Hf1 Hi1 Hfb1 Hoth1 Hnew. apply wp_bind.
  destruct (Hoth1 1 ltac:(lia) ltac:(lia)) as [E1 C1].
  eapply (add_entry_wp s1 w1 (im_freeinode s1) (root_names l)); [exact Hb1|exact Hf1|lia|lia|done| |apply root_names_range; lia| | |].
  { rewrite length_root_names. lia. }
  { by rewrite E1, C1. }
  all: rewrite length_root_names; change (S (2 + length l)) with (3 + length l)%nat.
  { lia. }
  intros s2 w2 Hb2 Hf2 Hoth2 Hdir2 Ht2 Hnl2 Hfb2 Hi2. rewrite Hi. apply (HQ s2 w2).
  split; [done|rewrite length_app; cbn; lia| | | | |lia].
  - rewrite length_app. cbn [length]. by replace (2 + Z.of_nat (length l + 1)) with (im_freeinode s1) by lia.
  - by rewrite Ht2, Hnl2, E1.
  - by rewrite Hdir2, root_names_snoc, Hi.
  - intros i p Hp x. destruct (decide (i = length l)) as [->|Hne].
    + rewrite list_lookup_middle in Hp by done. injection Hp as <-. unfold x. rewrite <- Hi.
      destruct (Hoth2 (im_freeinode s) ltac:(lia) ltac:(lia)) as [-> C2]. rewrite C2, Hnew. done.
    + pose proof (lookup_lt_Some _ _ _ Hp) as Hlt. rewrite length_app in Hlt. cbn in Hlt. rewrite lookup_app_l in Hp by lia.
      destruct (Hdata i p Hp) as (T & N & C). destruct (Hoth1 (2 + Z.of_nat i) ltac:(lia) ltac:(lia)) as [E3 C3].
      destruct (Hoth2 (2 + Z.of_nat i) ltac:(lia) ltac:(lia)) as [E4 C4]. unfold x. rewrite E4, C4, E3, C3. done.
Qed.

(** Bytes are added to the last file. *)
Lemma append_wp s w l name d c (Q : unit -> img -> Prop) :
  made s w (l ++ [(name, d)]) -> (length l < 198)%nat -> c <> [] -> bytes_ok c -> (length (d ++ c) <= 512 * MAXFILE)%nat ->
  budget (l ++ [(name, d ++ c)]) <= 1000 -> (forall s' w', made s' w' (l ++ [(name, d ++ c)]) -> Q tt s') ->
  wp (iappend (2 + Z.of_nat (length l)) c) s Q.
Proof.
  intros [Hb Hi Hf [Ht Hnl] Hdir Hdata Hfb] Hl Hne Hby Hlim Hbud HQ.
  assert (length (l ++ [(name, d)]) = S (length l)) as Hlen by (rewrite length_app; cbn; lia).
  assert (length (l ++ [(name, d ++ c)]) = S (length l)) as Hlen' by (rewrite length_app; cbn; lia).
  destruct (Hdata (length l) (name, d)) as (T & N & C); [by apply list_lookup_middle|]. cbn [snd] in C.
  set (i := 2 + Z.of_nat (length l)) in *. assert (Z.to_nat (i_size (file_at w i)) = length d) as Hsz.
  { by rewrite <- length_file_contents with (v := w), C. }
  assert (budget (l ++ [(name, d ++ c)]) = budget (l ++ [(name, d)]) + (nblk (length d + length c) - nblk (length d))) as Hbe.
  { unfold budget. rewrite Hlen, Hlen', !data_blocks_app, !data_blocks_cons. cbn [snd]. rewrite length_app. lia. }
  rewrite Hlen in *. rewrite length_app in Hlim.
  eapply (iappend_wp s w (2 + Z.of_nat (S (length l)))); [exact Hb|exact Hf|lia|lia|done|done|..]; rewrite Hsz; [done|lia|].
  intros s' w' Hb' Hf' Hoth x' C' T' N' Hfb' Hi'. apply (HQ s' w').
  assert (1 <> i) as H1i by lia. destruct (Hoth 1 ltac:(lia) H1i) as [E1 C1].
  split; [done|by rewrite Hlen', Hi'|by rewrite Hlen'|by rewrite E1| | |lia].
  - rewrite E1, C1, Hdir. by rewrite !root_names_snoc.
  - intros j p Hp x. destruct (decide (j = length l)) as [->|Hnj].
    + rewrite list_lookup_middle in Hp by done. injection Hp as <-. fold i in x. unfold x. fold x'. cbn [snd].
      by rewrite T', N', C', T, N, C.
    + pose proof (lookup_lt_Some _ _ _ Hp) as Hlt. rewrite Hlen' in Hlt. rewrite lookup_app_l in Hp by lia.
      destruct (Hdata j p) as (Tj & Nj & Cj); [by rewrite lookup_app_l by lia|].
      destruct (Hoth (2 + Z.of_nat j) ltac:(lia) ltac:(lia)) as [E3 C3]. unfold x. rewrite E3, C3. done.
Qed.

Lemma append_all_wp chunks : forall s w l name d (Q : unit -> img -> Prop),
  made s w (l ++ [(name, d)]) -> (length l < 198)%nat -> Forall (fun c => c <> [] /\ bytes_ok c) chunks ->
  (length (d ++ concat chunks) <= 512 * MAXFILE)%nat -> budget (l ++ [(name, d ++ concat chunks)]) <= 1000 ->
  (forall s' w', made s' w' (l ++ [(name, d ++ concat chunks)]) -> Q tt s') ->
  wp (append_all (2 + Z.of_nat (length l)) chunks) s Q.
Proof.
  induction chunks as [|c chunks IH]; intros s w l name d Q Hm Hl Hc Hlim Hbud HQ; cbn [append_all concat] in *.
  - apply wp_ret. rewrite app_nil_r in *. by apply (HQ s w).
  - apply Forall_cons in Hc as [[Hne Hby] Hc]. rewrite app_assoc in *. apply wp_bind.
    eapply (append_wp s w l name d c); [exact Hm|done|done|done|rewrite !length_app in *; lia| |].
    { etrans; [apply (budget_mono l name _ ((d ++ c) ++ concat chunks) [])|done]. rewrite !length_app. lia. }
    intros s1 w1 Hm1. by eapply (IH s1 w1 l name (d ++ c)).
Qed.

(** ** The files of the command line *)

(** An argument whose file can be read: its name, and what [read] returns. *)
Definition arg_of (a : list Z * list (list Z)) : list Z * option (list (list Z)) := (a.1, Some a.2).
Definition file_of_arg (a : list Z * list (list Z)) : list Z * list Z := (skip_underscore a.1, concat a.2).

Definition arg_ok (a : list Z * list (list Z)) : Prop :=
  (47 ∉ a.1) /\ bytes_ok a.1 /\ Forall (fun c => c <> [] /\ bytes_ok c) a.2 /\ (length (concat a.2) <= 512 * MAXFILE)%nat.

Lemma skip_underscore_ok name : bytes_ok name -> bytes_ok (skip_underscore name).
Proof.
  intros Hn. destruct name as [|c t]; [done|]. cbn. destruct (c =? 95); [|done]. by apply Forall_cons in Hn as [_ ?].
Qed.

Lemma add_files_wp args : forall s w l (Q : unit -> img -> Prop),
  made s w l -> Forall arg_ok args -> (length l + length args <= 198)%nat -> budget (l ++ (file_of_arg <$> args)) <= 1000 ->
  (forall s' w', made s' w' (l ++ (file_of_arg <$> args)) -> Q tt s') ->
  wp (add_files 1 (arg_of <$> args)) s Q.
Proof.
  induction args as [|[name chunks] args IH]; intros s w l Q Hm Ha Hlen Hbud HQ.
  - apply wp_ret. cbn in HQ. rewrite app_nil_r in HQ. by apply (HQ s w).
  - apply Forall_cons in Ha as [(Hsl & Hby & Hc & Hlim) Ha]. cbn [fst snd] in *. cbn [length] in Hlen.
    cbn [fmap list_fmap arg_of add_files fst snd]. rewrite bool_decide_eq_false_2 by done.
    rewrite fmap_cons in *. change (file_of_arg (name, chunks)) with (skip_underscore name, concat chunks) in *.
    eapply (add_file_wp s w l); [exact Hm|lia|by apply skip_underscore_ok| |].
    { etrans; [by apply (budget_mono l _ [] (concat chunks)); cbn; lia|exact Hbud]. }
    intros s1 w1 Hm1. apply wp_bind. eapply (append_all_wp chunks s1 w1 l _ []); [exact Hm1|lia|done|done| |].
    { etrans; [by apply (budget_mono l _ (concat chunks) (concat chunks))|exact Hbud]. }
    intros s2 w2 Hm2. cbn [app] in Hm2. rewrite cons_middle, app_assoc in Hbud, HQ.
    eapply (IH s2 w2); [exact Hm2|done|rewrite length_app; cbn; lia|done|done].
Qed.

(** ** The start and the end of [main] *)

Lemma zero_sects_wp n : forall i s (Q : unit -> img -> Prop),
  im_len s = i ->
  (forall s', im_len s' = i + Z.of_nat n -> (forall c, i <= c < i + Z.of_nat n -> im_disk s' c = zero_block) ->
     (forall c, c < i -> im_disk s' c = im_disk s c) ->
     im_freeinode s' = im_freeinode s -> im_freeblock s' = im_freeblock s -> Q tt s') ->
  wp (zero_sects n i) s Q.
Proof.
  induction n as [|n IH]; intros i s Q Hl HQ.
  - apply wp_ret. apply HQ; [lia|intros c; lia|done|done|done].
  - cbn [zero_sects]. apply wp_bind, wp_modify. apply IH; [cbn; lia|].
    intros s' Hl' Hz Hlo Hi Hf. apply HQ; [lia| | |done|done].
    + intros c Hc. destruct (decide (c = i)) as [->|]; [|apply Hz; lia]. rewrite Hlo by lia. cbn. by rewrite decide_True.
    + intros c Hc. rewrite Hlo by lia. cbn. by rewrite decide_False by lia.
Qed.

Definition sb_sect : block := splice 0 (sb_bytes sblock) (replicate 512 0).

Lemma sb_sect_ok : block_ok sb_sect /\ sb_dec sb_sect = S0.
Proof.
  split; [|by vm_compute]. split; [done|]. apply bytes_ok_splice; [|apply bytes_ok_replicate; unfold is_byte; lia].
  unfold sb_bytes. repeat (apply Forall_app; split; [apply le_enc_bytes|]). apply le_enc_bytes.
Qed.

(** The layout, and the root directory with its first two entries. *)
Lemma start_wp s (Q : unit -> img -> Prop) :
  im_len s = 1000 -> (forall c, 0 <= c < 1000 -> im_disk s c = if decide (c = 1) then sb_sect else zero_block) ->
  im_freeinode s = 1 -> im_freeblock s = 59 ->
  forall k : Z -> K img unit, (forall s' w', made s' w' [] -> wp (k 1) s' Q) ->
  wp (rootino ← ialloc T_DIR;
      if negb (rootino =? ROOTINO) then panic "assert(rootino == ROOTINO)" else
      iappend rootino (dirent rootino [46]);; iappend rootino (dirent rootino [46; 46]);; k rootino) s Q.
Proof.
  intros Hl Hd Hi Hf k Hk. set (w := upd1 (im_disk s) 58 (bits 59)).
  assert (forall c, c <> 58 -> w c = im_disk s c) as Hw by (intros; by apply upd1_ne).
  assert (base s w) as Hb.
  { split; [done|unfold w; by rewrite upd1_same, Hf|done|lia| | | |].
    - intros c Hc. destruct (decide (c = 58)) as [->|]; [unfold w; rewrite upd1_same; apply bits_ok|].
      rewrite Hw, Hd by done. case_decide; [apply sb_sect_ok|apply zero_block_ok].
    - intros c Hc. rewrite Hw, Hd, decide_False by lia. done.
    - rewrite Hw, Hd, decide_True by lia. apply sb_sect_ok.
    - by rewrite Hw, Hd, decide_False by lia. }
  assert (files_ok w (im_freeinode s)) as Hfo.
  { split; [intros; lia..|]. intros j Hj. unfold dinode_at. pose proof (inum_iblock j ltac:(lia)) as Hr.
    rewrite Hw, Hd, decide_False by lia. destruct (dinode_off_range j) as (n & -> & Hn & _).
    cbn [load_dinode d_type]. unfold lds16, ld16, slice, zero_block, BSIZE. rewrite drop_replicate, take_replicate.
    by replace (2 `min` (512 - 64 * n))%nat with 2%nat by lia. }
  apply wp_bind. eapply ialloc_wp; [exact Hb|exact Hfo|lia|unfold T_DIR; lia|].
  intros s1 w1 Hb1 Hf1 Hi1 Hfb1 _ Hnew. rewrite Hi in *. cbn [Z.eqb ROOTINO negb Pos.eqb]. rewrite Hi1 in Hf1. apply wp_bind.
  eapply (add_entry_wp s1 w1 2 [] [46] 1);
    [exact Hb1|exact Hf1|lia|lia|repeat constructor; unfold is_byte; lia|cbn; lia|done|by rewrite Hnew|vm_compute nblk; lia|].
  intros s2 w2 Hb2 Hf2 _ Hd2 Ht2 Hn2 Hfb2 Hi2. apply wp_bind.
  eapply (add_entry_wp s2 w2 2 [([46], 1)] [46; 46] 1);
    [exact Hb2|exact Hf2|lia|lia|repeat constructor; unfold is_byte; lia|cbn; lia|by repeat constructor|done|revert Hfb2; vm_compute nblk; lia|].
  intros s3 w3 Hb3 Hf3 _ Hd3 Ht3 Hn3 Hfb3 Hi3. apply (Hk s3 w3).
  split; [done|cbn; lia|done| |done|done|].
  - by rewrite Ht3, Hn3, Ht2, Hn2, Hnew.
  - revert Hfb2 Hfb3. vm_compute nblk. change (budget []) with 60. cbn. lia.
Qed.

(** The size of the root directory, in whole blocks. *)
Definition root_size (n : nat) : Z := (16 * (2 + Z.of_nat n) / 512 + 1) * 512.

(** What the kernel finds on the disk. *)
Record image_ok (w : Z -> block) (fb : Z) files : Prop := {
  io_sb : sb_ok g0 S0 w;
  io_blocks : forall c, 0 <= c < 1000 -> block_ok (w c);
  io_used : forall c, 0 <= c < 1000 -> used S0 w c = (c <? fb);
  io_log : w 2 = zero_block;
  io_root : let r := file_at w 1 in
    inode_ok S0 w r /\ i_type r = T_DIR /\ i_nlink r = 1 /\ i_size r = root_size (length files) /\
    (forall nm, lookup_name (contents w r) nm = find_name (root_names files) nm) /\
    (((2 + length files) mod 32 <> 0)%nat -> file_ok S0 w r);
  io_files : forall i p, files !! i = Some p -> let x := file_at w (2 + Z.of_nat i) in
    file_ok S0 w x /\ i_type x = T_FILE /\ i_nlink x = 1 /\ contents w x = p.2;
  io_apart : forall i j c, 1 <= i < 2 + Z.of_nat (length files) -> 1 <= j < 2 + Z.of_nat (length files) -> i <> j ->
    owns w (file_at w i) c -> ~ owns w (file_at w j) c;
  io_free : forall i, 2 + Z.of_nat (length files) <= i < 200 -> d_type (dinode_at S0 w i) = 0
}.

Lemma contents_rounded w w' x n :
  good w x -> 0 <= i_size x <= n -> n <= 71680 -> (forall k, (k < MAXFILE)%nat -> fblock w' x k = fblock w x k) ->
  contents w' (set_size n x) = contents w x ++ replicate (Z.to_nat (n - i_size x)) 0.
Proof.
  intros [_ Hz] Hs Hn Hf. destruct maxfile_bytes as [_ Hmax]. unfold contents. cbn [i_size set_size].
  replace (Z.to_nat n) with (Z.to_nat (i_size x) + Z.to_nat (n - i_size x))%nat by lia. rewrite seq_app, fmap_app.
  assert (forall k, (k < 512 * MAXFILE)%nat -> fbyte w' (set_size n x) k = fbyte w x k) as Hby.
  { intros k Hk. unfold fbyte. change (fblock w' (set_size n x)) with (fblock w' x). rewrite Hf; [done|].
    apply Nat.Div0.div_lt_upper_bound. lia. }
  f_equal.
  - apply list_fmap_ext. intros i k Hi. apply lookup_seq in Hi as [-> Hi]. apply Hby. lia.
  - apply list_eq. intros i. destruct (decide (i < Z.to_nat (n - i_size x))%nat) as [Hi|Hi].
    + rewrite list_lookup_fmap, lookup_seq_lt, lookup_replicate_2 by lia. cbn. f_equal. rewrite Hby by lia. apply Hz; lia.
    + rewrite !lookup_ge_None_2; [done|rewrite length_replicate; lia|rewrite length_fmap, length_seq; lia].
Qed.

Lemma root_size_bounds n : (n <= 198)%nat -> let z := 16 * (2 + Z.of_nat n) in
  z <= root_size n <= 71680 /\ root_size n - z = 16 * ((root_size n - z) / 16) /\
  (((2 + n) mod 32 <> 0)%nat -> forall bn : nat, 512 * Z.of_nat bn < root_size n -> 512 * Z.of_nat bn < z).
Proof.
  intros Hn z. unfold root_size. fold z. pose proof (Z.div_mod z 512 ltac:(lia)) as Hd. pose proof (Z.mod_pos_bound z 512 ltac:(lia)) as Hm.
  split; [lia|]. split.
  - assert ((z / 512 + 1) * 512 - z = 16 * (32 * (z / 512 + 1) - (2 + Z.of_nat n))) as -> by lia.
    set (q := 32 * _ - _). assert (16 * q / 16 = q) by (rewrite Z.mul_comm; by apply Z.div_mul). lia.
  - intros H32 bn Hbn. assert (z mod 512 <> 0); [|lia]. intros H0. apply H32. apply Nat2Z.inj. rewrite Nat2Z.inj_mod, Nat2Z.inj_add.
    symmetry. apply (Z.mod_unique _ _ (z / 512)); lia.
Qed.

(** The inode of the root directory gets its size. *)
Lemma round_wp s w files (Q : unit -> img -> Prop) :
  made s w files -> (length files <= 198)%nat ->
  (forall s' w', base s' w' -> image_ok w' (im_freeblock s') files -> im_freeblock s' = im_freeblock s -> Q tt s') ->
  wp (din ← rinode 1; winode 1 (din_size (xint (u32 ((xint (d_size din) / 512 + 1) * 512))) din)) s Q.
Proof.
  intros [Hb Hi Hf [Ht Hnl] Hdir Hdata Hfb] Hlen HQ. set (n := length files) in *. set (z := 16 * (2 + Z.of_nat n)).
  pose proof (root_names_range files Hlen) as Hrange. pose proof (fo_good _ _ Hf 1 ltac:(lia)) as Hg.
  pose proof Hg as [(Hok & Hdok & Hsz & Hden) Hz]. set (r := file_at w 1) in *.
  assert (i_size r = z) as Hsize.
  { pose proof (length_file_contents w r) as Hl. rewrite Hdir, length_dir_bytes, length_root_names in Hl by done.
    destruct Hdok as (_ & _ & _ & _ & [? _] & _). change (i_size r) with (d_size (to_dinode r)) in *. unfold z. fold n in Hl. lia. }
  destruct (root_size_bounds n Hlen) as ([Hr1 Hr2] & Hr16 & Hrden). fold z in Hr1, Hr16, Hrden.
  pose proof (base_sb _ _ Hb) as Hsb. apply wp_bind. eapply rinode_wp; [exact Hb|lia|]. set (di := dinode_at S0 w 1).
  change (d_size di) with (i_size r). rewrite Hsize, (xint_id z) by (unfold z; lia).
  change ((z / 512 + 1) * 512) with (root_size n). rewrite u32_small, xint_id by (unfold z in *; lia).
  set (r' := set_size (root_size n) r). change (din_size (root_size n) di) with (to_dinode r').
  pose proof Hok as (_ & Hin & Hladdr & _). eapply winode_wp; [exact Hb|lia|exact Hladdr|].
  intros s' Hb' Hfb' Hi'. set (w' := store_v S0 w 1 (to_dinode r')) in *.
  assert (dinode_ok (to_dinode r')) as Hdok'.
  { destruct Hdok as (H1 & H2 & H3 & H4 & _ & H6 & H7). unfold z in *.
    split; [exact H1|]. split; [exact H2|]. split; [exact H3|]. split; [exact H4|]. split; [cbn; lia|]. by split. }
  assert (file_at w' 1 = r') as Er.
  { unfold file_at, w'. rewrite store_v_same; [done| |done]. apply (ba_ok _ _ Hb). vm_compute. done. }
  destruct (inode_ok_same g0 S0 w w' r Hsb Hok) as (Hok' & Hk' & Hfb2 & _).
  { by apply (store_v_data g0 S0 w r). }
  assert (forall j, 1 <= j < 2 + Z.of_nat n -> j <> 1 -> file_at w' j = file_at w j /\ good w' (file_at w j) /\
    contents w' (file_at w j) = contents w (file_at w j) /\ (forall c, owns w' (file_at w j) c <-> owns w (file_at w j) c)) as Hoth.
  { intros j Hj Hj1. apply (store_kept s); [done|lia|lia|lia|done|]. by apply (fo_good _ _ Hf). }
  assert (forall c, owns w' r' c <-> owns w r c) as Hor.
  { intros c. unfold owns. change (ind r') with (ind r). change (blkno w' r') with (blkno w' r).
    split; intros [H0 [?|(k & Hk & ?)]]; (split; [done|]); [by left| |by left|]; right; exists k; rewrite Hk' in *; done. }
  assert (forall j c, 1 <= j < 2 + Z.of_nat n -> owns w' (file_at w' j) c <-> owns w (file_at w j) c) as Hown.
  { intros j c Hj. destruct (decide (j = 1)) as [->|Hj1]; [rewrite Er; apply Hor|].
    destruct (Hoth j Hj Hj1) as (-> & _ & _ & H). apply H. }
  apply (HQ s' w'); [done| |done]. rewrite Hfb'. split.
  - by apply (base_sb s').
  - apply (ba_ok _ _ Hb').
  - intros c Hc. rewrite (base_used s' w' c Hb' Hc). by rewrite Hfb'.
  - apply (ba_log _ _ Hb').
  - rewrite Er. cbn zeta. split; [exact Hok'|]. split; [exact Ht|]. split; [exact Hnl|]. split; [done|]. split.
    + intros nm. unfold r'. rewrite (contents_rounded w w' r) by (done || (unfold z in *; lia)). rewrite Hdir, Hsize.
      rewrite Hr16. replace (Z.to_nat (16 * _)) with (16 * Z.to_nat ((root_size n - z) / 16))%nat by lia.
      by apply lookup_dir_bytes.
    + intros H32. destruct maxfile_bytes as [_ Hmax]. split; [exact Hok'|]. split; [done|]. split; [cbn [i_size r' set_size]; lia|].
      intros bn Hbn. change (blkno w' r' bn) with (blkno w' r bn). rewrite Hk'. apply Hden. rewrite Hsize. by apply Hrden.
  - intros i p Hp x. pose proof (lookup_lt_Some _ _ _ Hp) as Hlt. destruct (Hdata i p Hp) as (T & N & C).
    destruct (Hoth (2 + Z.of_nat i) ltac:(lia) ltac:(lia)) as (E & [Hfile _] & Hc & _). unfold x. rewrite E, Hc. done.
  - intros i j c Hi1 Hj1 Hij. rewrite !Hown by done. by apply (fo_apart _ _ Hf).
  - intros i Hi1. unfold w'. rewrite store_v_other; [by apply (fo_free _ _ Hf)| |exact Hladdr|lia]. apply (ba_ok _ _ Hb). vm_compute. done.
Qed.

Lemma main_wp args :
  Forall arg_ok args -> (length args <= 198)%nat -> budget (file_of_arg <$> args) <= 1000 ->
  wp (main (arg_of <$> args)) start (fun _ s =>
    exists w, (forall c, im_disk s c = w c) /\ im_len s = 1000 /\ image_ok w (im_freeblock s) (file_of_arg <$> args)).
Proof.
  intros Ha Hn Hbud. unfold main. apply wp_bind, wp_modify, wp_bind. eapply zero_sects_wp; [done|].
  change (0 + Z.of_nat (Z.to_nat FSSIZE)) with 1000. intros s0 Hl0 Hz0 _ Hi0 Hf0. apply wp_bind, wp_modify. fold sb_sect.
  eapply start_wp; [cbn [im_len]; lia| |exact Hi0|exact Hf0|].
  { intros c Hc. cbn [im_disk]. case_decide; [done|]. by apply Hz0. }
  intros s1 w1 Hm1. apply wp_bind. eapply add_files_wp; [exact Hm1|done|done|exact Hbud|]. cbn [app].
  intros s2 w2 Hm2. apply wp_bind_assoc, wp_bind. eapply round_wp; [exact Hm2|by rewrite length_fmap|].
  intros s3 w3 Hb3 Hio Hf3. apply wp_bind, wp_gets. pose proof (ba_fb _ _ Hb3) as Hfr. unfold balloc.
  rewrite (proj2 (Z.ltb_lt _ _)) by lia. cbn [negb]. apply wp_modify. exists w3. split_and!; [| |done].
  - intros c. cbn [im_disk]. case_decide as Hc; [subst c; symmetry; apply (ba_bits _ _ Hb3)|].
    symmetry. by apply (ba_disk _ _ Hb3).
  - cbn [im_len]. rewrite (ba_len _ _ Hb3). done.
Qed.

(** C7: Given files that fit (at most 198, each of at most [MAXFILE] blocks, and all of them in
    the data blocks), [main] of mkfs.c runs to its end, with no [assert] failing, and the
    image has the superblock and the layout the kernel expects, an empty log, and a bitmap
    in which exactly the blocks below [freeblock] are in use; file [i] is inode [2 + i], a
    file with exactly the bytes read; no two files share a block; a name looked up in the
    root directory gives the first file with that name, a leading underscore dropped; and
    the inodes not used are free. *)
Theorem mkfs_makes_image args :
  Forall arg_ok args -> (length args <= 198)%nat -> budget (file_of_arg <$> args) <= 1000 ->
  wp (main (arg_of <$> args)) start (fun _ s =>
    exists w, (forall c, im_disk s c = w c) /\ im_len s = 1000 /\ image_ok w (im_freeblock s) (file_of_arg <$> args)).
Proof. apply main_wp. Qed.

(** Two files, [_a] with the bytes of a word, and one that is empty. *)
Definition example_args : list (list Z * list (list Z)) := [([95; 97], [[104; 105]; [10]]); ([98], [])].

Lemma example_args_ok : Forall arg_ok example_args.
Proof.
  apply Forall_cons. split; [|apply Forall_cons; split; [|by apply Forall_nil]].
  all: split; [apply (bool_decide_unpack _); by vm_compute|]; split; [by repeat constructor|].
  all: split; [|apply Nat.leb_le; by vm_compute]; cbn [snd].
  - by repeat (apply Forall_cons; split; [split; [done|by repeat constructor]|]).
  - by apply Forall_nil.
Qed.

Lemma mkfs_makes_image_witness :
  exists s w, main (arg_of <$> example_args) start = Ret tt s /\
    image_ok w (im_freeblock s) [([97], [104; 105; 10]); ([98], [])] /\
    find_name (root_names [([97], [104; 105; 10]); ([98], [])]) [98] = Some 3.
Proof.
  destruct (wp_elim _ _ _ (mkfs_makes_image example_args example_args_ok ltac:(cbn; lia) ltac:(by vm_compute)))
    as ([] & s & Hrun & w & _ & _ & Hio).
  exists s, w. split; [exact Hrun|]. split; [exact Hio|reflexivity].
Defined.

(** ** Two things [main] does not check *)

(** The root directory of 30 files has 32 entries: they fill its block, and the size is made
    that of two blocks, the second of which the file does not have. *)
Lemma root_block_missing :
  match main (replicate 30 ([97], Some [])) start with
  | Ret _ s => let r := file_at (im_disk s) 1 in i_size r = 1024 /\ blkno (im_disk s) r 0 <> 0 /\ blkno (im_disk s) r 1 = 0
  | _ => False
  end.
Proof. vm_compute. done. Qed.

(** With 207 files the inode of the last one is in the block of the bitmap, which is written
    over it: its entry in the root directory refers to an inode that is not a file. *)
Lemma inode_in_bitmap :
  match main (replicate 207 ([97], Some [])) start with
  | Ret _ s => im_freeinode s = 209 /\ IBLOCK 208 S0 = sb_bmapstart S0 /\ d_type (dinode_at S0 (im_disk s) 208) <> T_FILE /\
      d_type (dinode_at S0 (im_disk s) 207) = T_FILE
  | _ => False
  end.
Proof. vm_compute. done. Qed.

End MkfsMain.
