(* ===== verification/MkfsBoot.v ===== *)
(** * The kernel on the image that mkfs makes

    [main] of mkfs.c, then the kernel started on a disk with that image: recovery finds
    the log empty, the buffer cache shows the image, and [namei] and [readi] find every file
    by its path and read its bytes.  On an image whose root directory has a block less than its size says,
    reading the directory stops the kernel. *)

From S2P Require Export MkfsMain FsLog LogExample.
Local Open Scope Z_scope.

Module MkfsBoot.
Import Bio Log LogSpec LogCrash Txn LogExample CString Layout Fs FsSpec FsFile FsRw FsDir FsLog.
Import Mkfs MkfsSpec MkfsImage MkfsMain.

Local Abbreviation S0 := sblock.

(** ** What depends on the blocks of the disk only *)

Lemma used_same w w' c : (forall c, 0 <= c < 1000 -> w' c = w c) -> 0 <= c < 1000 -> used S0 w' c = used S0 w c.
Proof.
  intros He Hc. unfold used, BBLOCK. rewrite Z.div_small by (unfold BPB; lia). rewrite He; [done|]. by vm_compute.
Qed.

Lemma file_at_same w w' i : (forall c, 0 <= c < 1000 -> w' c = w c) -> 0 <= i < 200 -> dinode_at S0 w' i = dinode_at S0 w i.
Proof. intros He Hi. unfold dinode_at. pose proof (inum_iblock i Hi). by rewrite He by lia. Qed.

Lemma image_same w w' fb files :
  (forall c, 0 <= c < 1000 -> w' c = w c) -> (length files <= 198)%nat -> image_ok w fb files -> image_ok w' fb files.
Proof.
  intros He Hl [Hsb Hbl Hus Hlog Hroot Hfiles Hap Hfree].
  assert (forall i, 0 <= i < 200 -> file_at w' i = file_at w i) as Hat by (intros; unfold file_at; by rewrite (file_at_same w)).
  assert (forall c, 0 <= c < 1000 -> used S0 w c = true -> used S0 w' c = true) as Hu by (intros; by rewrite (used_same w)).
  assert (forall y c, inode_ok S0 w y -> owns w y c -> w' c = w c) as Hsame.
  { intros y c Hok Hc. apply He. destruct (owns_used _ _ _ Hok Hc) as [Hd _]. apply (proj1 (data_block_eq _)) in Hd. lia. }
  assert (forall i, 1 <= i < 2 + Z.of_nat (length files) -> inode_ok S0 w (file_at w i)) as Hinode.
  { intros i Hi. destruct (decide (i = 1)) as [->|Hi1]; [by destruct Hroot as (? & _)|].
    destruct (lookup_lt_is_Some_2 files (Z.to_nat (i - 2)) ltac:(lia)) as [p Hp]. destruct (Hfiles _ p Hp) as [(Hok & _) _].
    by replace (2 + Z.of_nat (Z.to_nat (i - 2))) with i in Hok by lia. }
  assert (forall i c, 1 <= i < 2 + Z.of_nat (length files) -> owns w' (file_at w' i) c <-> owns w (file_at w i) c) as Hown.
  { intros i c Hi. rewrite Hat by lia. pose proof (Hinode i Hi) as Hok.
    destruct (kept_inode w w' (file_at w i) (fun c => Hsame _ c Hok) Hu Hok) as (_ & _ & _ & H). apply H. }
  split.
  - apply (sb_ok_ext g0 S0 w); [by apply He|done].
  - intros c Hc. rewrite He by done. by apply Hbl.
  - intros c Hc. rewrite (used_same w) by done. by apply Hus.
  - by rewrite He.
  - cbn zeta. rewrite Hat by lia. destruct Hroot as (Hok & Ht & Hn & Hs & Hlk & Hdense).
    destruct (kept_inode w w' (file_at w 1) (fun c => Hsame _ c Hok) Hu Hok) as (Hok' & _ & Hf & _).
    destruct (root_size_bounds (length files) Hl) as ([_ Hr2] & _). destruct maxfile_bytes as [_ Hmax].
    destruct (contents_same w w' (file_at w 1) Hf ltac:(lia)) as [_ Hc]. rewrite Hc. split; [exact Hok'|]. split; [exact Ht|]. split; [exact Hn|].
    split; [exact Hs|]. split; [exact Hlk|]. intros H32. by apply (kept_file w w' (file_at w 1) (fun c => Hsame _ c Hok) Hu), Hdense.
  - intros i p Hp x. pose proof (lookup_lt_Some _ _ _ Hp) as Hlt. unfold x. rewrite Hat by lia.
    destruct (Hfiles i p Hp) as (Hfile & Ht & Hn & Hc). pose proof Hfile as (Hok & _).
    destruct (kept_file w w' _ (fun c => Hsame _ c Hok) Hu Hfile) as (Hfile' & -> & _). done.
  - intros i j c Hi Hj Hij. rewrite !Hown by done. by apply Hap.
  - intros i Hi. rewrite (file_at_same w) by (done || lia). by apply Hfree.
Qed.

(** ** Boot *)

(** The disk of a machine with the image on it. *)
Definition disk_of (s : img) : gmap Z block := mkdisk 1000 (im_disk s).

Lemma disk_of_total s c : 0 <= c < 1000 -> disk_of s !!! c = im_disk s c.
Proof. apply mkdisk_total. Qed.

#[local] Opaque mkdisk.

Lemma boot_wp s w files :
  (forall c, im_disk s c = w c) -> image_ok w (im_freeblock s) files -> (length files <= 198)%nat ->
  wp (initlog ROOTDEV) (boot_state (disk_of s) 1000) (fun _ b =>
    idle g0 b (view (bs b)) /\ (forall c, 0 <= c < 1000 -> view (bs b) c = im_disk s c) /\ image_ok (view (bs b)) (im_freeblock s) files).
Proof.
  intros Hd Hio Hl. pose proof Hio as [Hsb Hbl _ Hlog _ _ _ _]. pose proof Hsb as (Hdec & _).
  assert (bootable 2 30 1000 (disk_of s)) as Hboot.
  { apply mkdisk_bootable; rewrite ?Hd, ?Hdec, ?Hlog; [|done..].
    intros b Hb. rewrite Hd. by apply Hbl. }
  eapply wp_mono; [apply (initlog_inv _ _ _ _ Hboot)|]. intros _ b (Hinv & Hlg & H1 & H2 & H3 & H4 & H5 & Hv).
  assert (hdr_n (disk_of s !!! 2) = 0) as Hh by (by rewrite disk_of_total, Hd, Hlog by lia).
  split.
  - split; [done|]. split; [done|]. split; [done|]. split; [done|]. split; [done|]. split; [done|]. split; [|done].
    pose proof (length_logged b Hinv) as Hlen. rewrite Hlg in Hlen. destruct Hinv as (_ & _ & _ & _ & ? & _). cbn in Hlen. lia.
  - assert (forall c, 0 <= c < 1000 -> view (bs b) c = w c) as He; [|split; [intros c Hc; rewrite Hd; by apply He|by apply (image_same w)]].
    intros c Hc. destruct (Hv c) as [-> _]. destruct (decide (c = 2)) as [->|Hc2].
    + assert (recovered 2 (disk_of s) 2 = st32 (disk_of s !!! 2) 0 0) as ->.
      { unfold recovered, recovery_writes, hdr_blocks. rewrite Hh. change (Z.to_nat 0) with 0%nat. cbn [seq fmap list_fmap]. cbn [length lognos zip zip_with app].
        unfold apply_writes. cbn [foldl fst snd]. apply lookup_total_insert_eq. }
      rewrite disk_of_total, Hd, Hlog by lia. reflexivity.
    + rewrite recovered_empty by lia. rewrite disk_of_total by done. apply Hd.
Qed.

(** The root directory, read into the inode cache. *)
Definition is_root v (x : inode) : Prop := i_dev x = 1 /\ i_inum x = 1 /\ to_dinode x = dinode_at S0 v 1.

Lemma is_root_dir v fb files x :
  image_ok v fb files -> (length files <= 198)%nat -> ((2 + length files) mod 32 <> 0)%nat -> is_root v x ->
  dir_ok S0 v x (Z.to_nat (root_size (length files) / 16)) /\
  forall nm, lookup_name (contents v x) nm = find_name (root_names files) nm.
Proof.
  intros Hio Hl H32 (Hdev & Hin & Hdi). destruct (io_root _ _ _ Hio) as (_ & Ht & _ & Hs & Hlk & Hfile).
  destruct (root_size_bounds (length files) Hl) as ([Hr1 _] & Hr16 & _).
  assert (file_at v 1 = file_of 1 (to_dinode x)) as He by (unfold file_at; by rewrite Hdi).
  rewrite He in Ht, Hs, Hlk, Hfile. destruct x as [dv inum rf lk vl ty mj mn nl sz ad]. cbn in Hdev, Hin. subst dv inum.
  split; [|exact Hlk]. split; [exact (Hfile H32)|]. split; [exact Ht|]. cbn [i_size].
  change (sz = root_size (length files)) in Hs. rewrite Hs. clear -Hr1. unfold root_size in *. set (q := _ / 512 + 1) in *.
  replace (q * 512) with (32 * q * 16) in * by lia. rewrite Z.div_mul by lia. lia.
Qed.

(** ** Files by their paths *)

Lemma skip_no_slash nm : (47 ∉ nm) -> skip_slashes nm = nm.
Proof. destruct nm as [|c nm]; [done|]. intros [Hc _]%not_elem_of_cons. cbn. unfold SLASH. by rewrite (proj2 (Z.eqb_neq c 47)) by congruence. Qed.

Lemma span_no_slash nm : (47 ∉ nm) -> span_elem nm = (nm, []).
Proof.
  induction nm as [|c nm IH]; [done|]. intros [Hc Hn]%not_elem_of_cons. cbn. unfold SLASH. rewrite (proj2 (Z.eqb_neq c 47)) by congruence.
  by rewrite IH.
Qed.

Lemma strncmp_ext_l n : forall p p' q, (forall i, (i < n)%nat -> p i = p' i) -> strncmp n p q = strncmp n p' q.
Proof.
  induction n as [|n IH]; intros p p' q He; [done|]. cbn [strncmp]. rewrite (He 0%nat) by lia.
  rewrite (IH (fun i => p (S i)) (fun i => p' (S i))); [done|]. intros i Hi. apply He. lia.
Qed.

(** The element that [skipelem] takes compares as the name does. *)
Lemma root_element nm : nm <> [] -> (47 ∉ nm) ->
  exists name, skipelem (47 :: nm) (replicate DIRSIZ 0) = Some ([], name) /\ forall t, namecmp name t = namecmp nm t.
Proof.
  intros Hne Hs. unfold skipelem. change (skip_slashes (47 :: nm)) with (skip_slashes nm). rewrite skip_no_slash by done.
  destruct nm as [|c nm]; [done|]. rewrite span_no_slash by done. eexists. split; [reflexivity|]. intros t. unfold namecmp.
  apply strncmp_ext_l. intros i Hi. unfold chars, splice. set (l := c :: nm). destruct (Nat.leb_spec DIRSIZ (length l)) as [Hl|Hl].
  - rewrite take_0, app_nil_l, lookup_app_l, lookup_take_lt by (rewrite ?length_take; lia). done.
  - rewrite take_0, app_nil_l. destruct (decide (i < length l)%nat) as [Hil|Hil].
    + by rewrite <- app_assoc, lookup_app_l by lia.
    + rewrite (lookup_ge_None_2 l i) by lia. rewrite <- app_assoc, lookup_app_r by lia. destruct (i - length l)%nat as [|k]; [done|].
      cbn [app lookup list_lookup]. rewrite drop_replicate. by destruct (replicate _ _ !! k) as [z|] eqn:E; [apply lookup_replicate in E as [-> _]|].
Qed.

Lemma find_name_ext l nm nm' : (forall t, namecmp nm' t = namecmp nm t) -> find_name l nm' = find_name l nm.
Proof. intros He. induction l as [|[t i] l IH]; [done|]. cbn [find_name]. by rewrite He, IH. Qed.

(** The inode cache of a machine that was just started. *)
Definition empty_cache : list inode := replicate NINODE (mkinode 0 0 0 false false 0 0 0 0 0 []).

Lemma empty_cache_free k x : empty_cache !! k = Some x -> i_ref x = 0 /\ i_locked x = false.
Proof. intros [-> _]%lookup_replicate. done. Qed.

(** A file opened by its path and read from the start, as [sys_open] and [sys_read] do. *)
Definition read_path {B} `{!BlockOps B} dr (cwd : nat) (path : list Z) (n : Z) : F (B := B) (option (Z * list Z)) :=
  ip ← namei dr cwd path;
  match ip with
  | None => mret None
  | Some ip => ilock (Some ip);; r ← readi dr ip 0 n; mret (Some r)
  end.

(** An inode read into the cache is the file on the disk. *)
Lemma cached_file v inum x : i_dev x = 1 -> i_inum x = inum -> to_dinode x = dinode_at S0 v inum ->
  (file_ok S0 v (file_at v inum) -> file_ok S0 v x) /\ i_type x = i_type (file_at v inum) /\ contents v x = contents v (file_at v inum).
Proof.
  intros Hdev Hin Hdi. unfold file_at. rewrite <- Hdi. destruct x as [dv im rf lk vl ty mj mn nl sz ad]. cbn in Hdev, Hin. subst dv im. done.
Qed.

Lemma locked_to_dinode v x : i_valid x = false ->
  to_dinode (locked_inode S0 v x) = dinode_at S0 v (i_inum x) /\ i_ref (locked_inode S0 v x) = i_ref x /\
  i_locked (locked_inode S0 v x) = true /\ i_dev (locked_inode S0 v x) = i_dev x /\ i_inum (locked_inode S0 v x) = i_inum x /\
  i_nlink (locked_inode S0 v x) = d_nlink (dinode_at S0 v (i_inum x)).
Proof. intros Hv. unfold locked_inode. rewrite Hv. by destruct (dinode_at S0 v (i_inum x)). Qed.

Section Paths.
Context {B : Type} `{!BlockOps B} `{!BlockLaws B}.
Context (dr : Z -> option (nat -> Z -> F (B := B) (Z * list Z))) (v : Z -> block) (fb : Z) (files : list (list Z * list Z)).
Context (Hio : image_ok v fb files) (Hl : (length files <= 198)%nat) (H32 : ((2 + length files) mod 32 <> 0)%nat).

Lemma iunlockput_linked (b : B) ic ip x (Q : unit -> fs B -> Prop) :
  ic !! ip = Some x -> i_locked x = true -> 1 <= i_ref x -> i_nlink x <> 0 ->
  Q tt (mkfs b S0 (<[ip := set_ref (i_ref x - 1) (set_lock false x)]> ic)) -> wp (iunlockput ip) (mkfs b S0 ic) Q.
Proof.
  intros Hx Hlk Hr Hn HQ. pose proof (lookup_lt_Some _ _ _ Hx) as Hlt. unfold iunlockput, iunlock, iput, ilock_sleep.
  apply wp_bind, wp_bind. eapply wp_inode_at; [done|]. rewrite Hlk, (proj2 (Z.ltb_ge _ _)) by lia. cbn [negb orb].
  eapply wp_upd_inode; [done|]. apply wp_bind, wp_bind. eapply wp_inode_at; [by apply list_lookup_insert_eq|]. cbn [i_locked set_lock].
  eapply wp_upd_inode; [by apply list_lookup_insert_eq|]. rewrite list_insert_insert_eq.
  apply wp_bind. eapply wp_inode_at; [by apply list_lookup_insert_eq|]. cbn [i_nlink set_lock].
  rewrite (proj2 (Z.eqb_neq _ _) Hn), andb_false_r. apply wp_bind, wp_ret.
  apply wp_bind. eapply wp_upd_inode; [by apply list_lookup_insert_eq|]. rewrite list_insert_insert_eq.
  eapply wp_upd_inode; [by apply list_lookup_insert_eq|]. rewrite list_insert_insert_eq. exact HQ.
Qed.

(** The first inode that [iget] takes from the cache, and what [ilock] makes of it. *)
Lemma got_fresh inum ic ic' ip :
  got 1 inum ic ic' ip -> (forall k y, ic !! k = Some y -> is_entry 1 inum y -> False) ->
  exists x', ic' = <[ip := x']> ic /\ ic' !! ip = Some x' /\ i_dev x' = 1 /\ i_inum x' = inum /\ i_ref x' = 1 /\ i_valid x' = false /\
    exists x, ic !! ip = Some x /\ i_ref x = 0 /\ i_locked x' = i_locked x.
Proof.
  intros (x & x' & Hx & -> & (_ & Hd & Hi) & [[He _]|(H0 & _ & Hr & Hv & Hk)]) Hno; [by destruct (Hno _ _ Hx He)|].
  exists x'. split; [done|]. split; [apply list_lookup_insert_eq; by eapply lookup_lt_Some|]. split_and!; [done..|]. by exists x.
Qed.

(** [namei] of a name in the root directory. *)
Lemma namei_root (b : B) cwd nm (Q : option nat -> fs B -> Prop) :
  bl_inv g0 b [] [] ∅ v -> nm <> [] -> (47 ∉ nm) ->
  match find_name (root_names files) nm with
  | None => forall s', Q None s'
  | Some inum => inum <> 1 /\ forall b' ic ip y, bl_inv g0 b' [] [] ∅ v -> ic !! ip = Some y -> i_dev y = 1 -> i_inum y = inum ->
      i_ref y = 1 -> i_valid y = false -> i_locked y = false -> Q (Some ip) (mkfs b' S0 ic)
  end -> wp (namei dr cwd (47 :: nm)) (mkfs b S0 empty_cache) Q.
Proof.
  intros Hb Hne Hsl HQ. destruct (root_element nm Hne Hsl) as (name & Hsk & Hcmp). pose proof (io_sb _ _ _ Hio) as Hsb.
  destruct (io_root _ _ _ Hio) as (_ & Hrt & Hrn & _). cbn [i_type i_nlink file_at file_of] in Hrt, Hrn.
  unfold namei. apply wp_bind. unfold namex. rewrite Z.eqb_refl. apply wp_bind. change ROOTINO with 1. change ROOTDEV with 1.
  apply iget_spec; [exists 0%nat; eexists; split; [reflexivity|by right]|]. intros ip ic Hg.
  destruct (got_fresh _ _ _ _ Hg) as (x & Hic & Hx & Hd & Hi & Hr & Hv & x0 & Hx0 & _ & Hk).
  { intros k y [H0 _]%empty_cache_free [H1 _]. lia. }
  apply empty_cache_free in Hx0 as [_ Hx0]. cbn [length namex_loop]. rewrite Hsk. apply wp_bind. 
  assert (inum_ok S0 1) as H1ok by (by vm_compute). assert (Z.of_nat (size (∅ : gset Z)) <= bl_cap g0) as Hcap by (by vm_compute).
  eapply (ilock_spec g0 b S0 ic ∅ v ip x); [done|done|done|done|by rewrite Hi|lia|congruence|done|right; rewrite Hi, Hrt; done|].
  intros b1 Hb1. set (y := locked_inode S0 v x). destruct (locked_to_dinode v x Hv) as (Hyd & Hyr & Hyl & Hydev & Hyi & Hyn). fold y in Hyd, Hyr, Hyl, Hydev, Hyi, Hyn.
  rewrite Hi in Hyd, Hyn, Hyi. rewrite Hd in Hydev.
  assert (<[ip := y]> ic !! ip = Some y) as Hy by (apply list_lookup_insert_eq; by eapply lookup_lt_Some).
  assert (is_root v y) as Hroot by done. destruct (is_root_dir v fb files y Hio Hl H32 Hroot) as [Hdir Hlk]. pose proof Hdir as (_ & Hty & _).
  apply wp_bind. eapply wp_inode_at; [exact Hy|]. rewrite Hty. cbn [Z.eqb Pos.eqb T_DIR negb andb].
  specialize (Hlk name). rewrite (find_name_ext _ nm name Hcmp) in Hlk. rewrite <- Hlk in HQ. unfold lookup_name in HQ.
  rewrite (proj2 (dir_contents _ _ _ _ Hdir)) in HQ.
  apply wp_bind. eapply (dirlookup_spec g0); [exact Hb1|exact Hsb|exact Hy|exact Hdir|exact Hcap|].
  assert (1 <= i_ref y) as Hr1 by lia. assert (i_nlink y <> 0) as Hn1 by (rewrite Hyn, Hrn; done).
  destruct (dir_find _ 0 _ name) as [j|]; cbn [fmap option_fmap option_map] in HQ.
  - destruct HQ as [Hne1 HQ]. set (inum := de_inum _) in *.
    assert (forall k z, <[ip := y]> ic !! k = Some z -> k <> ip -> i_ref z = 0 /\ i_locked z = false) as Hoth.
    { intros k z Hz Hk'. rewrite list_lookup_insert_ne in Hz by done. rewrite Hic, list_lookup_insert_ne in Hz by done. by eapply empty_cache_free. }
    split.
    { destruct (decide (ip = 0)%nat) as [->|Hip]; [exists 1%nat|exists 0%nat]; eexists; rewrite list_lookup_insert_ne, Hic, list_lookup_insert_ne by done;
        (split; [reflexivity|by right]). }
    intros b2 ip2 ic2 Hb2 Hg2. destruct (got_fresh _ _ _ _ Hg2) as (z & Hic2 & Hz & Hzd & Hzi & Hzr & Hzv & z0 & Hz0 & Hz00 & Hzk).
    { intros k z Hz (Hzr & _ & Hzi). destruct (decide (k = ip)) as [->|Hk']; [|destruct (Hoth k z Hz Hk'); lia].
      rewrite Hy in Hz. injection Hz as <-. congruence. }
    assert (ip2 <> ip) as Hii by (intros ->; rewrite Hy in Hz0; injection Hz0 as <-; lia).
    destruct (Hoth ip2 z0 Hz0 Hii) as [_ Hz0k]. apply wp_bind.
    eapply (iunlockput_linked b2 ic2 ip y); [rewrite Hic2, list_lookup_insert_ne by done; exact Hy|done|done|done|].
    assert (skipelem [] name = None) as Hnil by done.
    destruct nm as [|c nm]; [done|]. cbn [length namex_loop]. rewrite Hnil. apply wp_ret, wp_ret. eapply HQ; [exact Hb2| |exact Hzd|exact Hzi|exact Hzr|exact Hzv|congruence].
    rewrite list_lookup_insert_ne by done. exact Hz.
  - intros b2 Hb2. apply wp_bind. eapply iunlockput_linked; [exact Hy|done|done|done|]. apply wp_ret, wp_ret, HQ.
Qed.

Lemma read_path_absent (b : B) cwd nm n :
  bl_inv g0 b [] [] ∅ v -> nm <> [] -> (47 ∉ nm) -> find_name (root_names files) nm = None ->
  wp (read_path dr cwd (47 :: nm) n) (mkfs b S0 empty_cache) (fun r _ => r = None).
Proof.
  intros Hb Hne Hs Hf. apply wp_bind, namei_root; [done..|]. rewrite Hf. intros s'. by apply wp_ret.
Qed.

Lemma read_path_file (b : B) cwd nm n i p :
  bl_inv g0 b [] [] ∅ v -> nm <> [] -> (47 ∉ nm) -> 0 <= n < 2 ^ 32 -> files !! i = Some p ->
  find_name (root_names files) nm = Some (2 + Z.of_nat i) ->
  wp (read_path dr cwd (47 :: nm) n) (mkfs b S0 empty_cache) (fun r _ =>
    r = Some (Z.min n (Z.of_nat (length p.2)), take (Z.to_nat n) p.2)).
Proof.
  intros Hb Hne Hs Hn Hp Hf. apply wp_bind, namei_root; [done..|]. rewrite Hf. split; [lia|].
  intros b' ic ip y Hb' Hy Hyd Hyi Hyr Hyv Hyl. destruct (io_files _ _ _ Hio i p Hp) as (Hfile & Hft & _ & Hcont).
  pose proof (lookup_lt_Some _ _ _ Hp) as Hil. pose proof (io_sb _ _ _ Hio) as Hsb.
  assert (Z.of_nat (size (∅ : gset Z)) <= bl_cap g0) as Hcap by (by vm_compute).
  apply wp_bind. eapply (ilock_spec g0 b' S0 ic ∅ v ip y); [done|done|done|done| |lia|done|done| |].
  { rewrite Hyi. unfold inum_ok. change (sb_ninodes S0) with 200. lia. }
  { right. rewrite Hyi. change (i_type (file_at v (2 + Z.of_nat i)) <> 0). by rewrite Hft. }
  intros b2 Hb2. destruct (locked_to_dinode v y Hyv) as (Hd & _ & _ & Hdev & Hin & _). rewrite Hyi in Hd. set (x := locked_inode S0 v y) in *.
  destruct (cached_file v (2 + Z.of_nat i) x ltac:(congruence) ltac:(congruence) Hd) as (Hok & Ht & Hc). rewrite Hcont in Hc.
  pose proof (length_file_contents v x) as Hlen. rewrite Hc in Hlen. specialize (Hok Hfile). pose proof Hok as (_ & Hdok & _).
  assert (0 <= i_size x) as Hsz by apply Hdok.
  apply wp_bind. eapply (readi_spec g0); [exact Hb2|exact Hsb|apply list_lookup_insert_eq; by eapply lookup_lt_Some|exact Hok|by rewrite Ht, Hft|lia|lia|lia|exact Hcap|].
  intros b3 _. apply wp_ret. unfold readable. rewrite Hc, Z.sub_0_r. rewrite Hlen, Z2Nat.id by done. do 2 f_equal. unfold slice. rewrite drop_0.
  apply list_eq. intros k. destruct (decide (k < Z.to_nat n)%nat) as [Hk|Hk].
  - rewrite (lookup_take_lt _ (Z.to_nat n)) by done. destruct (decide (k < Z.to_nat (Z.min n (i_size x)))%nat); [by rewrite lookup_take_lt|].
    rewrite lookup_take_ge, lookup_ge_None_2 by lia. done.
  - rewrite !lookup_take_ge by lia. done.
Qed.
End Paths.

(** C6: From mkfs to the running kernel: the image that [main] of mkfs.c makes of files that
    fit can be booted from.  After recovery, inside an operation, every block the kernel sees
    is that of the image; and from the empty inode cache, a path of the root directory leads
    [namei] to the first file given to mkfs with that name (as far as [DIRSIZ] characters go),
    of which [readi] reads the bytes mkfs was given, or to nothing when there is none.  (The
    number of entries of the root directory is not a multiple of 32; see [ls_stops_kernel].) *)
Theorem kernel_reads_files args :
  let files := file_of_arg <$> args in
  Forall arg_ok args -> (length args <= 198)%nat -> budget files <= 1000 -> ((2 + length args) mod 32 <> 0)%nat ->
  exists s, main (arg_of <$> args) start = Ret tt s /\
  wp (initlog ROOTDEV;; begin_op) (boot_state (disk_of s) 1000) (fun _ b =>
    (forall c, 0 <= c < 1000 -> view (bs b) c = im_disk s c) /\ image_ok (view (bs b)) (im_freeblock s) files /\
    forall dr cwd nm n, nm <> [] -> (47 ∉ nm) -> 0 <= n < 2 ^ 32 ->
      (find_name (root_names files) nm = None ->
         wp (read_path dr cwd (47 :: nm) n) (mkfs b S0 empty_cache) (fun r _ => r = None)) /\
      forall i p, files !! i = Some p -> find_name (root_names files) nm = Some (2 + Z.of_nat i) ->
         wp (read_path dr cwd (47 :: nm) n) (mkfs b S0 empty_cache) (fun r _ =>
           r = Some (Z.min n (Z.of_nat (length p.2)), take (Z.to_nat n) p.2))).
Proof.
  intros files Ha Hl Hbud H32. destruct (wp_elim _ _ _ (main_wp args Ha Hl Hbud)) as ([] & s & Hrun & w & Hd & _ & Hio).
  exists s. split; [done|]. assert (length files = length args) as Hlen by apply length_fmap. rewrite <- Hlen in *.
  apply wp_bind. eapply wp_mono; [apply (boot_wp s w files); [exact Hd|exact Hio|exact Hl]|].
  intros _ b (Hid & Heq & Hiv). eapply wp_mono; [apply (begin_op_layer g0 b _ Hid)|]. intros [] b' Hlayer.
  assert (forall c, view (bs b') c = view (bs b) c) as Hv by (destruct Hlayer as (_ & _ & _ & _ & _ & _ & _ & _ & _ & H & _); exact H).
  split; [intros c Hc; rewrite Hv; by apply Heq|]. split; [by apply (image_same (view (bs b)))|].
  intros dr cwd nm n Hne Hs Hn. split.
  - intros Hf. by apply (read_path_absent (BlockLaws0 := log_laws _ _ 1) dr _ _ _ Hiv Hl H32 b' cwd nm n Hlayer).
  - intros i p Hp Hf. by apply (read_path_file (BlockLaws0 := log_laws _ _ 1) dr _ _ _ Hiv Hl H32 b' cwd nm n i p Hlayer).
Qed.

(** The file given as [_a] is read as [/a], and there is no [/c]. *)
Lemma kernel_reads_files_witness :
  exists s, main (arg_of <$> example_args) start = Ret tt s /\
  wp (initlog ROOTDEV;; begin_op) (boot_state (disk_of s) 1000) (fun _ b =>
    wp (read_path (fun _ => None) 0 [47; 97] 100) (mkfs b S0 empty_cache) (fun r _ => r = Some (3, [104; 105; 10])) /\
    wp (read_path (fun _ => None) 0 [47; 99] 100) (mkfs b S0 empty_cache) (fun r _ => r = None)).
Proof.
  destruct (kernel_reads_files example_args example_args_ok ltac:(cbn; lia) ltac:(by vm_compute) ltac:(by vm_compute)) as (s & Hrun & Hwp).
  exists s. split; [exact Hrun|]. eapply wp_mono; [exact Hwp|]. intros _ b (_ & _ & Hlk). split.
  - destruct (Hlk (fun _ => None) 0%nat [97] 100) as [_ H]; [done|apply (bool_decide_unpack _); by vm_compute|lia|].
    exact (H 0%nat ([97], [104; 105; 10]) eq_refl eq_refl).
  - destruct (Hlk (fun _ => None) 0%nat [99] 100) as [H _]; [done|apply (bool_decide_unpack _); by vm_compute|lia|]. exact (H eq_refl).
Defined.

(** ** Thirty files *)

(** The machine booted from an image of 30 files, with the inode cache empty. *)
Definition ls_machine : option (fs lst) :=
  match main (replicate 30 ([97], Some [])) start with
  | Ret _ s =>
      match initlog ROOTDEV (boot_state (disk_of s) 1000) with
      | Ret _ b => Some (mkfs b S0 (replicate NINODE (mkinode 0 0 0 false false 0 0 0 0 0 [])))
      | _ => None
      end
  | _ => None
  end.

(** What [fileread] does with the root directory at an offset: the number of bytes read, or
    the message of a panic. *)
Definition read_root (off : Z) : option (Z + string) :=
  match ls_machine with
  | Some s =>
      match (ip ← iget 1 1; ilock (Some ip);; readi (fun _ => None) ip off 16) s with
      | Ret r _ => Some (inl (fst r))
      | Panic msg _ => Some (inr msg)
      | _ => None
      end
  | None => None
  end.

(** A directory listing stops the kernel, when mkfs was given 30 files: the root directory
    has 32 entries, all in its one block, and [main] makes its size that of two.  Reading the
    directory as [fileread] does, with no operation begun, gets the last entry of the first
    block, and panics on the next: [bmap] allocates the missing block, and [log_write] is
    called outside a transaction. *)
Theorem ls_stops_kernel :
  read_root 496 = Some (inl 16) /\ read_root 512 = Some (inr "log_write outside of trans"%string).
Proof. by vm_compute. Qed.

End MkfsBoot.
